(* ===== verification/_CoqProject ===== *)
-Q . S2P
Prelude.v
Bytes.v
Util.v
TimeoutHeap.v
Clist.v
LruCache.v
LruRefine.v
LruCalls.v
LruWalk.v
LruProps.v
Dns.v
DnsParse.v
DnsCache.v
ResAddr.v
Stk.v
Key.v
Vp.v
Sync.v
Fair.v
Sched.v
SchedOps.v
SchedCalls.v
SchedSteps.v
IoQueue.v
Interest.v
Rounds.v
SelectEv.v
PollEv.v
KqEv.v
KqDispatch.v
StInit.v
EpollEv.v
NetFd.v
NetCalls.v
SerialAccept.v
Server.v
StApi.v
StIo.v
State.v
IoBuffer.v
IoSocket.v
Emit.v
Header.v
Amf.v
Chunk.v
Messages.v
Session.v
Classes.v
Relay.v
RelaySteps.v
Pool.v
Watchdog.v
Args.v
Startup.v
Proxy.v
FileIo.v
