(* ===== verification/Prelude.v ===== *)
(** * RTMP-Server: a verification library

    The program is an RTMP server written in C++ over State Threads, a C library of
    user-level threads that is part of the repository (3rdpart/st-1.9).  [main] starts the library and
    a thread that accepts connections; every connection gets a thread that shakes hands,
    exchanges commands and then either publishes audio and video or plays what another client publishes.

    ** Files

    General:
    - Prelude.v: outcomes of a call, the state monad [M], [safely], generic lemmas.
    - Bytes.v: [char]s, integers of a width, their bytes in memory.  Util.v: util.cpp.

    State Threads, from the lists upwards:
    - Clist.v: the circular lists of common.h, as links in a store, and as sequences.
    - TimeoutHeap.v: the heap of sleeping threads of sched.c, as a map of due times.
    - Stk.v: stk.c, the free stacks.  Key.v: key.c, per-thread data.
    - Vp.v, Sync.v: the state of the virtual processor and every function of sched.c and sync.c that moves a
      thread between queues; a blocking call is cut where it switches.
    - Fair.v: who runs next.  Sched.v, SchedOps.v, SchedCalls.v: the invariant [inv] (every thread is on
      exactly the queues that its state says) function by function.  SchedSteps.v: the calls of
      the threads and the rounds of the idle thread as a transition system.
    - IoQueue.v, Interest.v, Rounds.v: what event systems have in common (event.c): the properties of the I/O queue that every
      step keeps, the counts of polls per descriptor and event, and the loop over the I/O queue.  SelectEv.v: the select event system,
      which the server uses.  PollEv.v: the poll event system.  KqEv.v, KqDispatch.v: the kqueue event
      system (not compiled on Linux), its tables and its dispatch.  EpollEv.v: the epoll event system.  Forks are part of both.
      StInit.v: st_init and what may be set before it.
    - NetFd.v: descriptor objects (io.c).  NetCalls.v: accept, connect, the datagram calls, open (io.c).
      SerialAccept.v: the lock around accept (io.c, not compiled on Linux).  StIo.v: st_read_fully, st_write, st_writev (io.c).

    The extensions of State Threads (extensions/), over Clist.v:
    - LruCache.v: lrucache.c, the cache of least recently used entries: the entries in memory, the chains of the hash table
      with their back pointers, the list of free entries, and the specification.  LruRefine.v: every operation
      against the specification.  LruCalls.v: any sequence of calls.  LruWalk.v: emptying and traversing.
      LruProps.v: what callers rely on.
    - Dns.v, DnsParse.v: dnsres.c, the resolver: queries, replies and the search through domains and servers; the answers
      that are well formed.  DnsCache.v: dnscache.c, the resolver over the cache.
    - FileIo.v: stx_fileio.c, reads of a file by a process at the other end of two pipes.

    The server:
    - Server.v: server.cpp and main_server.cpp, over NetCalls.v and SchedSteps.v.
    - StApi.v: what the RTMP code relies on of a connection; StIo.v proves it of io.c.
    - State.v: the data of the RTMP code ([world]).  IoBuffer.v: io_buffer.cpp.  IoSocket.v: io_socket.cpp.
    - Emit.v, Header.v, Amf.v, Chunk.v: io_message.cpp (chunk headers, objects, cutting and reassembling).
    - Messages.v: all_kinds_of_messages.cpp.  Session.v: rtmp_protocol.cpp and the straight part of
      client.cpp.  Classes.v: all_kinds_of_messages.h, the message objects and the values they own, and that part of client.cpp with its
      objects.  Relay.v: the loop of the publisher in client.cpp.  RelaySteps.v: the loop of the players, between two switches at a time,
      and how publisher and players take turns over the globals they share.

    The example programs (examples/):
    - server.c: Pool.v, the limits of the threads and the pool of threads of a listening socket; Watchdog.v, the processes, the
      watchdog that replaces them, and signals; Args.v, options, addresses and the report of the server; Startup.v, main as a
      sequence of system calls.
    - proxy.c: Proxy.v, one client of the gateway; Args.v, the reading of an address.  res.c: ResAddr.v, the
      resolver of Dns.v with a reader of answers of its own.

    ** How the parts meet

    Interfaces are classes, each with its laws in a class of its own: [EventSys], [Dispatch], [Counting], [FdEvents]
    (what the scheduler and io.c use of an event system; instances for select, epoll, kqueue and, the counts per descriptor apart,
    poll), [CountingExact] (no descriptor is watched that is not counted; select and epoll),
    [IoKept] (a property that the calls keep), [EpollKernel], [KqKernel] (the kernel and the allocator
    below epoll and kqueue), [StSocket] (what the RTMP code uses of State Threads; instance in StIo.v; [StSocketSteps] is what the
    proxy needs besides), [AnswerParser] (how a resolver reads an answer; dnsres.c and res.c), [Names] (inet_addr and gethostbyname), [KeyFns] (the
    hash and comparison functions of a cache; instance in DnsCache.v).  The
    states are laid over one another: [Server] contains a [process], that an [io], that a [_st_vp], and
    that the tables of an event system.

    ** Theorems

    A comment that starts with a number (C1, C2, ...) marks a property of the program.
    - Messages end to end: a message written is cut into the chunks of the specification and read back; a player is sent what the
      publisher sent if it is let finish, at most one player is sent it if writes do not wait, and what happens otherwise; the connection phase answers as it should; headers, objects and commands are read back;
      the readers never leave their buffers and end on any input.
    - Calls of State Threads: reads and writes are exact or fail; accept loses no descriptor; connect reports the connection;
      a descriptor that is polled is not closed; stacks and per-thread data are handed out and given back exactly.
    - The scheduler: from [st_init] on every thread is on the queues of its state and no assertion fails; the
      run queue is fair; the clock wakes the threads that are due; condition variables and mutexes wake waiters in order.
    - The event systems: the counts are those of the pending polls in every reachable state; a dispatch wakes exactly the threads
      with an event; a forked process makes its epoll set or its kqueue anew;
      with kqueue every event that is polled is registered or about to be, until [kevent] fails; the array of the poll event system is always large enough.
    - The cache: any sequence of calls has the results of the specification and ends; entries in use survive; emptying clears.
    - The resolver and its cache: they return whatever servers send; well-formed answers are found; what was resolved is
      handed out until its time to live is over, in turn.
    - Files: a sequence of reads through the other process gives what the file holds at each offset.
    - Message objects: the virtual functions that run are those of the session, and what a constructor makes is deleted once
      when no call fails.
    - The server: clients never share a descriptor or an object; an accepted descriptor gets a client, and a thread if there is memory for
      it, or is closed.
    - The example programs: the counters of a socket are the numbers of its threads, which keep within the limits and leave a spare
      one; the processes keep their indices, and signals reach exactly them; the proxy passes on what it reads of either side, in order; options
      that are accepted give limits in order; the calls of main come in one order, and the user is changed between the last [bind] and the
      first connection.
    - Deviations: what the code gets wrong is stated as a theorem too (large chunk stream ids, timestamps of type 0
      headers, one player served only, a buffer that is cleared while it is being sent, registrations lost after a failure of [kevent],
      connections never closed).

    ** Fuel and bounds

    A loop that is not structural takes fuel, and its result when fuel runs out is [Hang].  The fuel is a measure of
    the state that every round lowers: the bytes left to send or read, the length of the script of results to
    come and of the list of what happens in the waits between ([retry], [connect_loop]), the number of sleeping threads ([check_clock_loop]), the doublings up to a size
    ([doubled]), the length of a list, the number of entries of a cache (a chain, an eviction), the counts in the header of a
    DNS message, the replies still to come, the bytes of requests in a pipe.  [retry_kevent] has two
    rounds, since a queue is made again once; [delete_loop] has what the interruptions of [kevent] allow.  That it is enough is proved wherever the loop ends: the theorems give a
    result of the call, or exclude [Hang].  Loops of the source that do not end ([accept], the relay,
    the idle thread) are step relations.
    Integers are [Z]; arithmetic that can leave the width of its type is wrapped ([wrap], [swrap]) or checked.
    Not wrapped: counters of live objects (reference counts of descriptors and of cache entries, [_st_active_count],
    [evtlist_cnt], [fdcnt]), which the memory of the process bounds.

    ** Not modelled

    - Code for other platforms or builds: DEBUG, ST_SWITCH_CB, MD_ACCEPT_NB_INHERITED.
    - The context switch in assembly and the macros of md.h; of examples/ lookupdns.c and error.c, of server.c
      what the system does in its calls and the format of the logs, of proxy.c its options and processes; in extensions/ testdns.c
      and the functions that only copy statistics out.
    - Output: log.cpp, the print functions.  The values that read_object and SetDataFrame make are not on the heap of Classes.v: nothing
      deletes them.
    - Joinable threads are defined ([st_thread_join_enter]) and left out of [inv]; the server creates none.
    - A destructor called by key.c or io.c is assumed not to call them back; descriptors are assumed to be closed through
      st_netfd_close only.
    - The RTMP functions block inside one step: what other threads do during a read or a write of a connection is not interleaved
      with them, except the writes of the players in RelaySteps.v.  There the reads of the publisher still take one step, before
      which the globals may change in any way; two publishers at once are not modelled otherwise.
    - The round of the watchdog is one step; a failure of [calloc] in [st_writev] (more than 16 vectors) is left out. *)

From stdpp Require Import base list gmap.
From Stdlib Require Import Lia ZArith.

(** ** Results of a C++ call

    [Ok a]   the call returns normally (0, or the value [a]);
    [Fail]   the call returns -1 (or NULL);
    [Throw]  an exception of the C++ library is thrown; nothing in the program
             catches one, so the process ends;
    [Undef]  an access outside the object it names (a read past the end of a
             buffer, a copy with a wrong length);
    [Hang]   the loop is still running when the fuel is spent.  *)
Inductive outcome (A : Type) : Type :=
| Ok (a : A)
| Fail
| Throw
| Undef
| Hang.
Arguments Ok {A} a.
Arguments Fail {A}.
Arguments Throw {A}.
Arguments Undef {A}.
Arguments Hang {A}.

#[export] Instance outcome_eq_dec (A : Type) `{!EqDecision A} : EqDecision (outcome A).
Proof. solve_decision. Defined.

Definition omap {A B : Type} (f : A → B) (o : outcome A) : outcome B :=
  match o with
  | Ok a => Ok (f a)
  | Fail => Fail
  | Throw => Throw
  | Undef => Undef
  | Hang => Hang
  end.

(** ** Stateful, fallible code

    A call that fails keeps the state changes it made before failing. *)
Definition M (S A : Type) : Type := S → outcome A * S.

Definition ret {S A : Type} (a : A) : M S A := λ s, (Ok a, s).

Definition bind {S A B : Type} (c : M S A) (k : A → M S B) : M S B := λ s,
  match c s with
  | (Ok a, s') => k a s'
  | (Fail, s') => (Fail, s')
  | (Throw, s') => (Throw, s')
  | (Undef, s') => (Undef, s')
  | (Hang, s') => (Hang, s')
  end.

Definition fail {S A : Type} : M S A := λ s, (Fail, s).
Definition gets {S A : Type} (f : S → A) : M S A := λ s, (Ok (f s), s).
Definition modify {S : Type} (f : S → S) : M S unit := λ s, (Ok tt, f s).
Definition lift {S A : Type} (o : outcome A) : M S A := λ s, (o, s).
(** [guard_fail b]: [if (!b) return -1;] *)
Definition guard_fail {S : Type} (b : bool) : M S unit := λ s,
  ((if b then Ok tt else Fail), s).

(** [for (x : l) { c(x) }], left at the first call that does not return. *)
Fixpoint for_each {S A : Type} (c : A → M S unit) (l : list A) : M S unit :=
  match l with
  | [] => λ s, (Ok tt, s)
  | x :: l => bind (c x) (λ _, for_each c l)
  end.

#[global] Arguments Nat.ltb n m : simpl never.
#[global] Arguments Nat.leb n m : simpl never.

Arguments ret {S A} a s /.
Arguments fail {S A} s /.
Arguments gets {S A} f s /.
Arguments modify {S} f s /.
Arguments lift {S A} o s /.
Arguments guard_fail {S} b s /.

Declare Scope rtmp_scope.
Delimit Scope rtmp_scope with rtmp.
Notation "x <- c ;; k" := (bind c (λ x, k))
  (at level 100, c at next level, right associativity) : rtmp_scope.
Notation "' p <- c ;; k" := (bind c (λ x, match x with p => k end))
  (at level 100, p pattern, c at next level, right associativity) : rtmp_scope.
Notation "c ;; k" := (bind c (λ _, k))
  (at level 100, right associativity) : rtmp_scope.
Open Scope rtmp_scope.

Create HintDb rtmp.

Section monad.
Context {S A B : Type}.

Lemma bind_ok (c : M S A) (k : A → M S B) s a s' :
  c s = (Ok a, s') → bind c k s = k a s'.
Proof. unfold bind. by intros ->. Qed.

Lemma bind_fail (c : M S A) (k : A → M S B) s s' :
  c s = (Fail, s') → bind c k s = (Fail, s').
Proof. unfold bind. by intros ->. Qed.

Lemma bind_ok_inv (c : M S A) (k : A → M S B) s b s'' :
  bind c k s = (Ok b, s'') → ∃ a s', c s = (Ok a, s') ∧ k a s' = (Ok b, s'').
Proof. unfold bind. destruct (c s) as [[] s']; naive_solver. Qed.

Lemma bind_ret (a : A) (k : A → M S B) s : bind (ret a) k s = k a s.
Proof. done. Qed.

Lemma bind_assoc {C : Type} (c : M S A) (k : A → M S B) (j : B → M S C) s :
  bind (bind c k) j s = bind c (λ a, bind (k a) j) s.
Proof. unfold bind. by destruct (c s) as [[] ?]. Qed.
End monad.

Lemma for_each_app {A S : Type} (c : A → M S unit) (l1 l2 : list A) (s : S) :
  for_each c (l1 ++ l2) s = (for_each c l1 ;; for_each c l2) s.
Proof.
  revert s. induction l1 as [| x l IH]; intros s; [done |]. cbn [app for_each]. unfold bind in *.
  destruct (c x s) as [[] s1]; [apply IH | done..].
Qed.

(** ** No access outside an object

    [safely P c Q]: from a state satisfying [P] the code never has undefined
    behaviour, and if it returns normally then [Q] holds. *)
Definition safely {S A : Type} (P : S → Prop) (c : M S A) (Q : A → S → Prop) : Prop :=
  ∀ s, P s → match c s with
             | (Ok a, s') => Q a s'
             | (Undef, _) => False
             | _ => True
             end.

Section safely.
Context {S A B : Type}.
Implicit Types P : S → Prop.

Lemma safely_ret P (a : A) Q : (∀ s, P s → Q a s) → safely P (ret a) Q.
Proof. intros H s Hs. by apply H. Qed.

Lemma safely_fail P (Q : A → S → Prop) : safely P fail Q.
Proof. done. Qed.

Lemma safely_gets P (f : S → A) Q : (∀ s, P s → Q (f s) s) → safely P (gets f) Q.
Proof. intros H s Hs. by apply H. Qed.

Lemma safely_modify P (f : S → S) Q : (∀ s, P s → Q tt (f s)) → safely P (modify f) Q.
Proof. intros H s Hs. by apply H. Qed.

Lemma safely_bind P (c : M S A) R (k : A → M S B) Q :
  safely P c R → (∀ a, safely (R a) (k a) Q) → safely P (bind c k) Q.
Proof.
  intros Hc Hk s Hs. specialize (Hc s Hs). unfold bind. destruct (c s) as [[a | | | |] s'];
    try done. by apply Hk.
Qed.

Lemma safely_conseq P P' (c : M S A) Q Q' :
  safely P c Q → (∀ s, P' s → P s) → (∀ a s, Q a s → Q' a s) → safely P' c Q'.
Proof.
  intros Hc HP HQ s Hs. specialize (Hc s (HP s Hs)). destruct (c s) as [[a | | | |] s']; try done.
  by apply HQ.
Qed.

Lemma safely_if P (b : bool) (c1 c2 : M S A) Q :
  (b = true → safely P c1 Q) → (b = false → safely P c2 Q) → safely P (if b then c1 else c2) Q.
Proof. destruct b; auto. Qed.

(** A fact about the state that does not depend on the state. *)
Lemma safely_pure P (R : Prop) (c : M S A) Q :
  (∀ s, P s → R) → (R → safely P c Q) → safely P c Q.
Proof. intros HR Hc s Hs. by apply Hc; [eapply HR |]. Qed.
End safely.

(** [mstep]: run the first call of a goal whose result is a hypothesis. *)
Ltac mstep :=
  match goal with
  | H : ?c ?s = (Ok _, _) |- context [bind ?c ?k ?s] => rewrite (bind_ok c k s _ _ H)
  | H : ?c ?s = (Fail, _) |- context [bind ?c ?k ?s] => rewrite (bind_fail c k s _ H)
  end.

(** [mrun]: unfold the monad and compute. *)
Ltac mrun := cbn [bind ret fail gets modify lift guard_fail fst snd].

(** ** Lists *)
Section lists.
Context {A : Type}.
Implicit Types l k : list A.

Lemma take_drop_split n l : (n ≤ length l)%nat → ∃ l1 l2, l = l1 ++ l2 ∧ length l1 = n.
Proof.
  intros. exists (take n l), (drop n l). rewrite take_drop. split; [done |].
  rewrite length_take. lia.
Qed.

Lemma length_bind_cons {B : Type} (f : B → list A) x (xs : list B) :
  length ((x :: xs) ≫= f) = (length (f x) + length (xs ≫= f))%nat.
Proof. rewrite bind_cons. apply length_app. Qed.

Lemma app_inv_length l1 l2 k1 k2 :
  length l1 = length k1 → l1 ++ l2 = k1 ++ k2 → l1 = k1 ∧ l2 = k2.
Proof. intros Hl H. by apply app_inj_1. Qed.

Lemma drop_take_app l1 l2 k n :
  length l1 = n → drop n (l1 ++ l2 ++ k) = l2 ++ k.
Proof. intros <-. by rewrite drop_app_length. Qed.

Lemma filter_ext_in (P Q : A → Prop) `{∀ x, Decision (P x), ∀ x, Decision (Q x)} l :
  (∀ x, x ∈ l → P x ↔ Q x) → filter P l = filter Q l.
Proof.
  induction l as [| x l IH]; intros HPQ; [done |].
  assert (filter P l = filter Q l) as E by (apply IH; intros y Hy; apply HPQ; by right).
  destruct (decide (P x)) as [HP | HP].
  - assert (Q x) as HQ by (apply HPQ; [left | done]). rewrite !filter_cons_True by done. by rewrite E.
  - assert (¬ Q x) as HQ by (rewrite <- HPQ; [done | left]). rewrite !filter_cons_False by done. by rewrite E.
Qed.

Lemma filter_all (P : A → Prop) `{∀ x, Decision (P x)} l : (∀ x, x ∈ l → P x) → filter P l = l.
Proof.
  induction l as [| x l IH]; intros HP; [done |]. rewrite filter_cons_True by (apply HP; left).
  f_equal. apply IH. intros y Hy. apply HP. by right.
Qed.

Lemma rev_ind_inv l : l = [] ∨ ∃ x l', l = l' ++ [x].
Proof. induction l as [| x l' _] using rev_ind; [by left | right; by exists x, l']. Qed.

(** A list as consecutive pieces of length at most [n]. *)
Fixpoint pieces (fuel n : nat) l : list (list A) :=
  match fuel with
  | O => []
  | S fuel =>
      match l with
      | [] => []
      | _ => take n l :: pieces fuel n (drop n l)
      end
  end.

Lemma pieces_concat fuel n l :
  (0 < n)%nat → (length l ≤ fuel)%nat → concat (pieces fuel n l) = l.
Proof.
  intros Hn. revert l. induction fuel as [| fuel IH]; intros l Hl.
  - by destruct l; simpl in *; [| lia].
  - destruct l as [| a l]; [done |]. cbn [pieces concat]. rewrite IH.
    + by rewrite take_drop.
    + rewrite length_drop. simpl in *. lia.
Qed.

Lemma pieces_fuel fuel fuel' n l :
  (0 < n)%nat → (length l ≤ fuel)%nat → (length l ≤ fuel')%nat →
  pieces fuel n l = pieces fuel' n l.
Proof.
  intros Hn. revert fuel' l. induction fuel as [| fuel IH]; intros fuel' l H1 H2.
  - destruct l; simpl in *; [| lia]. by destruct fuel'.
  - destruct fuel' as [| fuel']; destruct l as [| a l]; simpl in H1, H2; try lia; try done.
    cbn [pieces]. f_equal. apply IH; rewrite length_drop; simpl; lia.
Qed.
End lists.

(** ** Lists of addresses: taking one out, and sums over them *)
Section addresses.
Local Open Scope Z_scope.

Definition remove (t : Z) (l : list Z) : list Z := filter (λ x, x ≠ t) l.

Lemma elem_of_remove x t (l : list Z) : x ∈ remove t l ↔ x ∈ l ∧ x ≠ t.
Proof. unfold remove. rewrite list_elem_of_filter. tauto. Qed.

Lemma NoDup_remove t (l : list Z) : NoDup l → NoDup (remove t l).
Proof. apply NoDup_filter. Qed.

Definition total (g : Z → Z) (l : list Z) : Z := foldr (λ t n, g t + n) 0 l.

Lemma total_app g l l' : total g (l ++ l') = total g l + total g l'.
Proof. unfold total. induction l as [| t l IH]; cbn; lia. Qed.

Lemma total_ext g g' l : (∀ t, t ∈ l → g t = g' t) → total g l = total g' l.
Proof.
  unfold total. intros H. induction l as [| t l IH]; cbn; [done |].
  rewrite (H t) by left. rewrite IH; [done |]. intros u Hu. apply H. by right.
Qed.

Lemma total_remove g t l : NoDup l → t ∈ l → total g (remove t l) = total g l - g t.
Proof.
  unfold total, remove. induction 1 as [| u l Hu Hnd IH]; [by intros ?%not_elem_of_nil |].
  intros [-> | Ht]%elem_of_cons; cbn [foldr].
  - rewrite filter_cons_False by naive_solver.
    assert (filter (λ x, x ≠ u) l = l) as ->; [| lia].
    clear IH Hnd. induction l as [| v l IH]; [done |]. rewrite filter_cons_True by set_solver.
    f_equal. apply IH. set_solver.
  - rewrite filter_cons_True by (intros ->; done). cbn [foldr]. rewrite IH by done. lia.
Qed.

Lemma total_bounds g l t : (∀ u, 0 <= g u) → 0 <= total g l ∧ (t ∈ l → g t <= total g l).
Proof.
  intros Hg. unfold total. induction l as [| u l [IH1 IH2]]; cbn.
  - split; [lia | by intros ?%not_elem_of_nil].
  - pose proof (Hg u). split; [lia |]. intros [-> | Ht]%elem_of_cons; [lia |]. specialize (IH2 Ht). lia.
Qed.

Lemma remove_not_in t (l : list Z) : t ∉ l → remove t l = l.
Proof. intros Ht. apply filter_all. by intros x Hx ->. Qed.
End addresses.
