(* ===== verification/Bytes.v ===== *)
(** * Bytes, [char]s and the memory image of integers

    [char] is signed on the platform the Makefile builds for (x86-64, g++), and
    integers are stored least significant byte first. *)

From stdpp Require Import base list gmap countable.
From Stdlib Require Import Lia ZArith.
From Stdlib Require Export Init.Byte.
From Stdlib Require Strings.Byte.

From S2P Require Import Prelude.

Local Open Scope Z_scope.

#[export] Instance byte_eq_dec : EqDecision byte := Byte.byte_eq_dec.

#[export] Program Instance byte_countable : Countable byte :=
  {| encode b := encode (Byte.to_N b);
     decode p := n ← decode p; Byte.of_N n |}.
Next Obligation. intros b. cbn. rewrite decode_encode. cbn. apply Byte.of_to_N. Qed.

(** The value of a byte read as [unsigned char] and as [char]. *)
Definition uc (b : byte) : Z := Z.of_N (Byte.to_N b).
Definition sc (b : byte) : Z := if uc b <? 128 then uc b else uc b - 256.

(** Conversion of an integer to [char]: its low byte. *)
Definition to_byte (z : Z) : byte :=
  match Byte.of_N (Z.to_N (z mod 256)) with
  | Some b => b
  | None => x00
  end.

Lemma uc_range b : 0 <= uc b < 256.
Proof.
  unfold uc. pose proof (Byte.to_N_bounded b). lia.
Qed.

Lemma sc_range b : -128 <= sc b < 128.
Proof. unfold sc. pose proof (uc_range b). case_match; lia. Qed.

Lemma uc_to_byte z : uc (to_byte z) = z mod 256.
Proof.
  unfold uc, to_byte. pose proof (Z.mod_pos_bound z 256 eq_refl).
  destruct (Byte.of_N (Z.to_N (z mod 256))) as [b |] eqn:E.
  - apply Byte.to_of_N in E. rewrite E. lia.
  - apply Byte.of_N_None_iff in E. lia.
Qed.

Lemma uc_inj b c : uc b = uc c → b = c.
Proof.
  unfold uc. intros H. apply N2Z.inj in H.
  pose proof (Byte.of_to_N b) as E1. pose proof (Byte.of_to_N c) as E2. congruence.
Qed.

Lemma to_byte_uc b : to_byte (uc b) = b.
Proof.
  apply uc_inj. rewrite uc_to_byte. apply Z.mod_small, uc_range.
Qed.

Lemma to_byte_mod z : to_byte (z mod 256) = to_byte z.
Proof. apply uc_inj. by rewrite !uc_to_byte, Z.mod_mod. Qed.

Lemma to_byte_eq z z' : z mod 256 = z' mod 256 → to_byte z = to_byte z'.
Proof. intros H. apply uc_inj. by rewrite !uc_to_byte. Qed.

Lemma sc_small b : uc b < 128 → sc b = uc b.
Proof. unfold sc. intros. case_match; lia. Qed.

(** [wrap w z] and [swrap w z]: [z] stored in an unsigned and in a signed
    [w]-bit integer. *)
Definition wrap (w z : Z) : Z := z mod 2 ^ w.
Definition swrap (w z : Z) : Z :=
  let u := wrap w z in if u <? 2 ^ (w - 1) then u else u - 2 ^ w.

Lemma wrap_range w z : 0 <= w → 0 <= wrap w z < 2 ^ w.
Proof. intros. apply Z.mod_pos_bound. lia. Qed.

Lemma wrap_small w z : 0 <= z < 2 ^ w → wrap w z = z.
Proof. apply Z.mod_small. Qed.

Lemma swrap_small w z : 0 < w → - 2 ^ (w - 1) <= z < 2 ^ (w - 1) → swrap w z = z.
Proof.
  intros Hw Hz. unfold swrap, wrap.
  assert (2 ^ w = 2 * 2 ^ (w - 1)) as Hp.
  { rewrite <- Z.pow_succ_r by lia. f_equal. lia. }
  destruct (decide (0 <= z)).
  - rewrite Z.mod_small by lia. case_match; lia.
  - replace (z mod 2 ^ w) with (z + 2 ^ w).
    + case_match; lia.
    + rewrite <- (Z.mod_small (z + 2 ^ w) (2 ^ w)) by lia.
      rewrite <- Z.add_mod_idemp_r by lia.
      by rewrite Z.mod_same, Z.add_0_r by lia.
Qed.

Lemma swrap_range w z : 0 < w → - 2 ^ (w - 1) <= swrap w z < 2 ^ (w - 1).
Proof.
  intros Hw. unfold swrap. pose proof (wrap_range w z ltac:(lia)).
  assert (2 ^ w = 2 * 2 ^ (w - 1)) as Hp.
  { rewrite <- Z.pow_succ_r by lia. f_equal. lia. }
  case_match; lia.
Qed.

Lemma swrap_wrap w z : 0 <= w → wrap w (swrap w z) = wrap w z.
Proof.
  intros Hw. unfold swrap. case_match; unfold wrap.
  - by rewrite Z.mod_mod by (apply Z.pow_nonzero; lia).
  - rewrite Zminus_mod, Z.mod_same, Z.sub_0_r by (apply Z.pow_nonzero; lia).
    by rewrite !Z.mod_mod by (apply Z.pow_nonzero; lia).
Qed.

(** A [char] survives the trip through a byte. *)
Lemma sc_to_byte z : -128 <= z < 128 → sc (to_byte z) = z.
Proof.
  intros Hz. unfold sc. rewrite uc_to_byte. destruct (decide (0 <= z)).
  - rewrite Z.mod_small by lia. case_match; lia.
  - rewrite <- (Z.mod_add z 1 256), Z.mod_small by lia. case_match; lia.
Qed.

(** The [n] bytes of an integer in memory, and the integer they hold. *)
Fixpoint le_bytes (n : nat) (z : Z) : list byte :=
  match n with
  | O => []
  | S n => to_byte z :: le_bytes n (z / 256)
  end.

Fixpoint of_le (l : list byte) : Z :=
  match l with
  | [] => 0
  | b :: l => uc b + 256 * of_le l
  end.

Lemma length_le_bytes n z : length (le_bytes n z) = n.
Proof. revert z. induction n; intros; simpl; auto. Qed.

Lemma of_le_range l : 0 <= of_le l < 256 ^ Z.of_nat (length l).
Proof.
  induction l as [| b l IH]; cbn [of_le length]; [done |].
  pose proof (uc_range b). rewrite Nat2Z.inj_succ, Z.pow_succ_r by lia. lia.
Qed.

Lemma of_le_le_bytes n z : of_le (le_bytes n z) = z mod 256 ^ Z.of_nat n.
Proof.
  revert z. induction n as [| n IH]; intros z.
  - by rewrite Z.mod_1_r.
  - cbn [le_bytes of_le]. rewrite IH, uc_to_byte.
    rewrite Nat2Z.inj_succ, Z.pow_succ_r by lia.
    rewrite Z.rem_mul_r by lia. lia.
Qed.

Lemma le_bytes_of_le l : le_bytes (length l) (of_le l) = l.
Proof.
  induction l as [| b l IH]; [done |]. cbn [length le_bytes of_le].
  pose proof (uc_range b). f_equal.
  - apply uc_inj. rewrite uc_to_byte. rewrite Z.mul_comm, Z.mod_add by lia.
    by apply Z.mod_small.
  - rewrite Z.mul_comm, Z.div_add by lia. rewrite (Z.div_small (uc b)) by lia. apply IH.
Qed.

Lemma le_bytes_mod n z : le_bytes n (z mod 256 ^ Z.of_nat n) = le_bytes n z.
Proof.
  rewrite <- (of_le_le_bytes n z), <- (length_le_bytes n z) at 1. apply le_bytes_of_le.
Qed.

(** Storing a value keeps its low bits. *)
Lemma le_bytes_wrap n z : le_bytes n (wrap (8 * Z.of_nat n) z) = le_bytes n z.
Proof. unfold wrap. rewrite Z.pow_mul_r by lia. apply le_bytes_mod. Qed.

Lemma of_le_inj l k : length l = length k → of_le l = of_le k → l = k.
Proof.
  intros Hl H. rewrite <- (le_bytes_of_le l), <- (le_bytes_of_le k). by rewrite Hl, H.
Qed.

(** Signed integers of [w] bits from their memory image. *)
Definition of_le_s (w : Z) (l : list byte) : Z := swrap w (of_le l).

Lemma of_le_s_le_bytes n z :
  (0 < n)%nat → - 2 ^ (8 * Z.of_nat n - 1) <= z < 2 ^ (8 * Z.of_nat n - 1) →
  of_le_s (8 * Z.of_nat n) (le_bytes n z) = z.
Proof.
  intros Hn Hz. unfold of_le_s. rewrite of_le_le_bytes.
  replace (256 ^ Z.of_nat n) with (2 ^ (8 * Z.of_nat n)).
  2:{ rewrite Z.pow_mul_r by lia. done. }
  rewrite <- (swrap_small (8 * Z.of_nat n) z) at 2 by lia.
  unfold swrap, wrap. by rewrite Z.mod_mod by lia.
Qed.

(** ** Doubling a size *)
(** [while (m >= n) n <<= 1;]; as many rounds as [m] has bits are enough. *)
Fixpoint double_until (fuel : nat) (m n : Z) : outcome Z :=
  if m <? n then Ok n else
  match fuel with O => Hang | S fuel => double_until fuel m (2 * n) end.

Definition doubled (m n : Z) : outcome Z := double_until (S (Z.to_nat (Z.log2 m))) m n.

Lemma double_until_ok fuel m n :
  0 < n → m < 2 ^ Z.of_nat fuel * n →
  ∃ r, double_until fuel m n = Ok r ∧ m < r ∧ n <= r ∧ (n <= m → r <= 2 * m).
Proof.
  revert n. induction fuel as [| fuel IH]; intros n Hn Hm; cbn [double_until]; destruct (Z.ltb_spec m n); try lia;
    try (exists n; split_and!; done || lia).
  destruct (IH (2 * n)) as (r & Hr & H1 & H2 & H3); [lia | |].
  - rewrite Nat2Z.inj_succ, Z.pow_succ_r in Hm by lia. lia.
  - exists r. split; [done |]. split_and!; try lia. intros _. destruct (decide (2 * n <= m)); [by apply H3 |].
    destruct fuel; cbn [double_until] in Hr; destruct (Z.ltb_spec m (2 * n)); try lia; injection Hr as <-; lia.
Qed.

Lemma doubled_ok m n : 0 < n → ∃ r, doubled m n = Ok r ∧ m < r ∧ n <= r ∧ (n <= m → r <= 2 * m).
Proof.
  intros Hn. apply double_until_ok; [done |]. rewrite Nat2Z.inj_succ, Z2Nat.id by apply Z.log2_nonneg.
  destruct (decide (0 < m)) as [Hm | Hm].
  - pose proof (proj2 (Z.log2_spec m Hm)). nia.
  - assert (0 < 2 ^ Z.succ (Z.log2 m)) by (apply Z.pow_pos_nonneg; [lia |]; pose proof (Z.log2_nonneg m); lia). nia.
Qed.

(** A C string literal: [cstr "text"] is its bytes, without the terminator. *)
Inductive literal := Literal (l : list byte).

Definition literal_of_bytes (l : list byte) : literal := Literal l.
Definition cstr (s : literal) : list byte := match s with Literal l => l end.

Declare Scope literal_scope.
Delimit Scope literal_scope with literal.
String Notation literal literal_of_bytes cstr : literal_scope.
Bind Scope literal_scope with literal.
Arguments cstr s%_literal_scope.

#[export] Hint Rewrite length_le_bytes uc_to_byte to_byte_uc of_le_le_bytes : rtmp.
#[export] Hint Resolve uc_range sc_range : rtmp.
