(* ===== verification/Util.v ===== *)
(** * util.cpp: byte swapping between network order and memory order

    A [char *] argument is [Some] of the bytes it points to, or [None] for a
    null pointer; each function returns the contents of [dst] after the call. *)

From stdpp Require Import base list.
From Stdlib Require Import Lia ZArith.
From S2P Require Import Prelude.
From S2P Require Import Bytes.

Local Open Scope Z_scope.

(** [dst[j] = src[i];] *)
Definition copy_byte (src : list byte) (i j : nat) : M (list byte) unit := λ dst,
  match src !! i with
  | Some b =>
      if decide (j < length dst)%nat then (Ok tt, <[j := b]> dst) else (Undef, dst)
  | None => (Undef, dst)
  end.

(** [if (!src || !dst) return -1;] and then the assignments. *)
Definition with_ptrs (body : list byte → M (list byte) unit)
    (src dst : option (list byte)) : outcome (list byte) :=
  match src, dst with
  | Some s, Some d => let '(r, d') := body s d in omap (λ _, d') r
  | _, _ => Fail
  end.

Definition be2se_2bytes : option (list byte) → option (list byte) → outcome (list byte) :=
  with_ptrs (λ src, copy_byte src 0 1 ;; copy_byte src 1 0).

Definition be2se_4bytes : option (list byte) → option (list byte) → outcome (list byte) :=
  with_ptrs (λ src,
    copy_byte src 0 3 ;; copy_byte src 1 2 ;; copy_byte src 2 1 ;; copy_byte src 3 0).

Definition be2se_8bytes : option (list byte) → option (list byte) → outcome (list byte) :=
  with_ptrs (λ src,
    copy_byte src 0 7 ;; copy_byte src 1 6 ;; copy_byte src 2 5 ;; copy_byte src 3 4 ;;
    copy_byte src 4 3 ;; copy_byte src 5 2 ;; copy_byte src 6 1 ;; copy_byte src 7 0).

Definition se2be_2bytes : option (list byte) → option (list byte) → outcome (list byte) :=
  with_ptrs (λ src, copy_byte src 1 0 ;; copy_byte src 0 1).

Definition se2be_3bytes : option (list byte) → option (list byte) → outcome (list byte) :=
  with_ptrs (λ src, copy_byte src 2 0 ;; copy_byte src 1 1 ;; copy_byte src 0 2).

Definition se2be_4bytes : option (list byte) → option (list byte) → outcome (list byte) :=
  with_ptrs (λ src,
    copy_byte src 3 0 ;; copy_byte src 2 1 ;; copy_byte src 1 2 ;; copy_byte src 0 3).

Definition se2be_8bytes : option (list byte) → option (list byte) → outcome (list byte) :=
  with_ptrs (λ src,
    copy_byte src 7 0 ;; copy_byte src 6 1 ;; copy_byte src 5 2 ;; copy_byte src 4 3 ;;
    copy_byte src 3 4 ;; copy_byte src 2 5 ;; copy_byte src 1 6 ;; copy_byte src 0 7).

(** ** What they compute *)

(** [swaps f n]: [f] reverses the first [n] bytes of [src] into [dst]. *)
Definition swaps (f : option (list byte) → option (list byte) → outcome (list byte))
    (n : nat) : Prop :=
  ∀ src dst : list byte, (n ≤ length src)%nat → (n ≤ length dst)%nat →
    f (Some src) (Some dst) = Ok (rev (take n src) ++ drop n dst).

Ltac explode l :=
  repeat (destruct l as [| ? l]; [simpl in *; lia |]).

Ltac solve_swaps :=
  intros src dst Hs Hd; explode src; explode dst; reflexivity.

Lemma be2se_2bytes_swaps : swaps be2se_2bytes 2.
Proof. solve_swaps. Qed.
Lemma be2se_4bytes_swaps : swaps be2se_4bytes 4.
Proof. solve_swaps. Qed.
Lemma be2se_8bytes_swaps : swaps be2se_8bytes 8.
Proof. solve_swaps. Qed.
Lemma se2be_2bytes_swaps : swaps se2be_2bytes 2.
Proof. solve_swaps. Qed.
Lemma se2be_3bytes_swaps : swaps se2be_3bytes 3.
Proof. solve_swaps. Qed.
Lemma se2be_4bytes_swaps : swaps se2be_4bytes 4.
Proof. solve_swaps. Qed.
Lemma se2be_8bytes_swaps : swaps se2be_8bytes 8.
Proof. solve_swaps. Qed.

(** The bytes of [z] in network order. *)
Definition be_bytes (n : nat) (z : Z) : list byte := rev (le_bytes n z).
Definition of_be (l : list byte) : Z := of_le (rev l).

Lemma length_be_bytes n z : length (be_bytes n z) = n.
Proof. unfold be_bytes. by rewrite length_rev, length_le_bytes. Qed.

Lemma of_be_be_bytes n z : of_be (be_bytes n z) = z mod 256 ^ Z.of_nat n.
Proof. unfold of_be, be_bytes. by rewrite rev_involutive, of_le_le_bytes. Qed.

Lemma be_bytes_of_be l : be_bytes (length l) (of_be l) = l.
Proof.
  unfold of_be, be_bytes. rewrite <- (length_rev l), le_bytes_of_le. apply rev_involutive.
Qed.

#[export] Hint Rewrite length_be_bytes of_be_be_bytes : rtmp.

(** Applied to the memory image of an integer, into a buffer of its size. *)
Lemma swaps_le_bytes f n z d :
  swaps f n → length d = n → f (Some (le_bytes n z)) (Some d) = Ok (be_bytes n z).
Proof.
  intros Hf Hd. rewrite Hf by (rewrite ?length_le_bytes; lia).
  rewrite take_ge, drop_ge, app_nil_r by (rewrite ?length_le_bytes; lia). done.
Qed.

(** Only the low bytes of a wider integer are used. *)
Lemma take_le_bytes n m z : (n ≤ m)%nat → take n (le_bytes m z) = le_bytes n z.
Proof.
  revert m z. induction n as [| n IH]; intros m z Hm; [done |].
  destruct m as [| m]; [lia |]. cbn. by rewrite IH by lia.
Qed.

Lemma swaps_le_bytes_low f n m z d :
  swaps f n → (n ≤ m)%nat → length d = n →
  f (Some (le_bytes m z)) (Some d) = Ok (be_bytes n z).
Proof.
  intros Hf Hm Hd. rewrite Hf by (rewrite ?length_le_bytes; lia).
  rewrite take_le_bytes, drop_ge, app_nil_r by lia. done.
Qed.

(** Reading [n] bytes in network order. *)
Lemma swaps_rev f n src d :
  swaps f n → length src = n → length d = n →
  f (Some src) (Some d) = Ok (rev src).
Proof.
  intros Hf Hs Hd. rewrite Hf by lia.
  by rewrite take_ge, drop_ge, app_nil_r by lia.
Qed.
