(* ===== verification/TimeoutHeap.v ===== *)
(** * sched.c: the queue of sleeping threads

    Sleeping threads form a binary heap made of the thread objects themselves:
    [_ST_SLEEPQ] points at the root, each thread has [left] and [right], and the
    node with index [i] is reached from the root along the binary digits of [i]
    after the first.  A thread is in the tree once and has one parent, so the
    pointers are an inductive tree here; [None] children are null pointers, and
    following one is [Undef]. *)

From stdpp Require Import base list sets gmap.
From Stdlib Require Import Lia ZArith.
From S2P Require Import Prelude.
From S2P Require Import Bytes.

Local Open Scope Z_scope.

(** The fields of a [_st_thread_t] the heap uses; [thread] stands for its
    address. *)
Record sleeper := Sleeper { thread : Z; due : Z; heap_index : Z }.

Definition set_heap_index (i : Z) (t : sleeper) : sleeper := Sleeper (thread t) (due t) i.

Inductive heap :=
| Null
| Node (t : sleeper) (left right : heap).

(** [while (s) { s >>= 1; bits++; }]: 32 rounds for an [int] that is not
    negative. *)
Fixpoint count_bits (fuel : nat) (s : Z) : nat :=
  match fuel with
  | O => O
  | S fuel => if s =? 0 then O else S (count_bits fuel (Z.shiftr s 1))
  end.

(** [for (bit = bits - 2; bit >= 0; bit--) ... target & (1 << bit) ...]: right is
    [true]. *)
Definition path (target : Z) : list bool :=
  map (λ bit : nat, negb (Z.land target (Z.shiftl 1 (Z.of_nat bit)) =? 0))
    (rev (seq 0 (count_bits 32 target - 1))).

(** The loop of [heap_insert] and the assignments after it.  It returns the
    address of the pointer it sets; what the caller then does with the node
    there is [k]. *)
Fixpoint heap_insert_at (bits : list bool) (t : sleeper) (index : Z) (k : sleeper → heap)
    (p : heap) : outcome heap :=
  match bits with
  | [] => Ok (k (set_heap_index index t))
  | b :: bits =>
      match p with
      | Null => Undef
      | Node u l r =>
          let swap := due t <? due u in
          let top := if swap then set_heap_index index t else u in
          let t := if swap then u else t in
          let index := Z.shiftl index 1 in
          if b then omap (Node top l) (heap_insert_at bits t (Z.lor index 1) k r)
          else omap (λ l, Node top l r) (heap_insert_at bits t index k l)
      end
  end.

(** [heap_insert] *)
Definition heap_insert (t : sleeper) (p : heap) : outcome heap :=
  heap_insert_at (path (heap_index t)) t 1 (λ t, Node t Null Null) p.

(** [t = *p; *p = NULL;] at the end of a path. *)
Fixpoint unlink (bits : list bool) (p : heap) : outcome (heap * heap) :=
  match bits with
  | [] => Ok (p, Null)
  | b :: bits =>
      match p with
      | Null => Undef
      | Node u l r =>
          if b then omap (λ x, (x.1, Node u l x.2)) (unlink bits r)
          else omap (λ x, (x.1, Node u x.2 r)) (unlink bits l)
      end
  end.

(** The last loop of [heap_delete]: [t] takes the place of the root of [h] and
    moves down; every round exchanges it with its younger child. *)
Fixpoint sift (t : sleeper) (h : heap) : heap :=
  match h with
  | Null => Null
  | Node _ l r =>
      let left y :=
        if due y <? due t
        then Node (set_heap_index (heap_index t) y) (sift (set_heap_index (heap_index y) t) l) r
        else Node t l r in
      let right y :=
        if due y <? due t
        then Node (set_heap_index (heap_index t) y) l (sift (set_heap_index (heap_index y) t) r)
        else Node t l r in
      match l, r with
      | Null, _ => Node t l r
      | Node y _ _, Null => left y
      | Node y _ _, Node z _ _ => if due y <? due z then left y else right z
      end
  end.

(** The node of a thread: [thread->heap_index], [thread->left], [thread->right]. *)
Fixpoint node_of (id : Z) (h : heap) : option (sleeper * heap * heap) :=
  match h with
  | Null => None
  | Node t l r =>
      if thread t =? id then Some (t, l, r)
      else match node_of id l with Some x => Some x | None => node_of id r end
  end.

(** [heap_delete]: [size] is [_ST_SLEEPQ_SIZE] on entry. *)
Definition heap_delete (id size : Z) (h : heap) : outcome heap :=
  match unlink (path size) h with
  | Ok (Node t _ _, h) =>
      if thread t =? id then Ok h
      else
        match node_of id h with
        | Some (th, l, r) =>
            heap_insert_at (path (heap_index th)) t 1 (λ t, sift t (Node th l r)) h
        | None => Undef
        end
  | Ok (Null, _) => Undef
  | o => omap snd o
  end.

(** [_ST_SLEEPQ] and [_ST_SLEEPQ_SIZE]. *)
Record sleepq := SleepQ { root : heap; sleepq_size : Z }.

(** [_st_add_sleep_q]; the flag is in Sched.v. *)
Definition _st_add_sleep_q (id last_clock timeout : Z) (q : sleepq) : outcome sleepq :=
  let size := sleepq_size q + 1 in
  omap (λ h, SleepQ h size)
    (heap_insert (Sleeper id (wrap 64 (last_clock + timeout)) size) (root q)).

(** [_st_del_sleep_q] *)
Definition _st_del_sleep_q (id : Z) (q : sleepq) : outcome sleepq :=
  omap (λ h, SleepQ h (sleepq_size q - 1)) (heap_delete id (sleepq_size q) (root q)).

(** ** Threads in the heap, order, numbering, shape *)
Definition key (t : sleeper) : Z * Z := (thread t, due t).

Fixpoint entries (h : heap) : list (Z * Z) :=
  match h with
  | Null => []
  | Node t l r => key t :: entries l ++ entries r
  end.

(** Nothing in [l] is due before [d]. *)
Definition not_before (d : Z) (l : list (Z * Z)) : Prop := Forall (λ e, d <= e.2) l.

Fixpoint ordered (h : heap) : Prop :=
  match h with
  | Null => True
  | Node t l r => not_before (due t) (entries l ++ entries r) ∧ ordered l ∧ ordered r
  end.

Fixpoint numbered (i : Z) (h : heap) : Prop :=
  match h with
  | Null => True
  | Node t l r => heap_index t = i ∧ numbered (2 * i) l ∧ numbered (2 * i + 1) r
  end.

(** The shape of a tree, and the shape with the subtree at a path replaced. *)
Inductive shape := Tip | Fork (l r : shape).

Fixpoint shape_of (h : heap) : shape :=
  match h with Null => Tip | Node _ l r => Fork (shape_of l) (shape_of r) end.

Fixpoint put (bits : list bool) (s s' : shape) : shape :=
  match bits, s' with
  | [], _ => s
  | _, Tip => Tip
  | b :: bits, Fork l r => if b then Fork l (put bits s r) else Fork (put bits s l) r
  end.

Fixpoint has_node (bits : list bool) (s : shape) : bool :=
  match s, bits with
  | Tip, _ => false
  | Fork _ _, [] => true
  | Fork l r, b :: bits => has_node bits (if b then r else l)
  end.

(** The subtree at a path whose proper prefixes are nodes. *)
Fixpoint sub (bits : list bool) (h : heap) : option heap :=
  match bits, h with
  | [], _ => Some h
  | _, Null => None
  | b :: bits, Node _ l r => sub bits (if b then r else l)
  end.

(** The number of the node at a path. *)
Definition number (i : Z) (bits : list bool) : Z :=
  fold_left (λ (i : Z) (b : bool), if b then 2 * i + 1 else 2 * i) bits i.

(** The heap is in order and numbered, and its nodes are those with the numbers
    from 1 to [n]. *)
Record wf (n : Z) (h : heap) : Prop := {
  wf_ordered : ordered h;
  wf_numbered : numbered 1 h;
  wf_shape : ∀ bits, has_node bits (shape_of h) = true ↔ number 1 bits <= n;
  wf_threads : NoDup (entries h).*1;
}.

Lemma not_before_perm d (l k : list (Z * Z)) : l ⊆ k → not_before d k → not_before d l.
Proof. unfold not_before. rewrite !Forall_forall. auto. Qed.

Lemma not_before_le d d' l : d <= d' → not_before d' l → not_before d l.
Proof. intros ? H. eapply Forall_impl; [exact H |]. simpl. lia. Qed.

Lemma sub_entries bits h h0 : sub bits h = Some h0 → entries h0 ⊆ entries h.
Proof.
  revert h. induction bits as [| b bits IH]; intros h H; [by injection H as -> |].
  destruct h as [| t l r]; [done |]. cbn in H. apply IH in H. cbn [entries]. destruct b; set_solver.
Qed.

Lemma number_cons i b bits : number i (b :: bits) = number (if b then 2 * i + 1 else 2 * i) bits.
Proof. done. Qed.

Lemma number_snoc i b bits :
  number i (bits ++ [b]) = if b then 2 * number i bits + 1 else 2 * number i bits.
Proof. unfold number. by rewrite fold_left_app. Qed.

Lemma number_pos bits i : 1 <= i → i <= number i bits.
Proof.
  revert i. induction bits as [| b bits IH]; intros i Hi; [cbn; lia |].
  rewrite number_cons. specialize (IH (if b then 2 * i + 1 else 2 * i)). destruct b; lia.
Qed.

Lemma shift_index i : Z.shiftl i 1 = 2 * i.
Proof. rewrite Z.shiftl_mul_pow2 by lia. lia. Qed.

Lemma lor_index i : Z.lor (Z.shiftl i 1) 1 = 2 * i + 1.
Proof.
  rewrite shift_index. apply Z.bits_inj'. intros n Hn. rewrite Z.lor_spec.
  destruct (decide (n = 0)) as [-> | Hn0].
  - rewrite Z.testbit_odd_0, Z.testbit_even_0. done.
  - replace n with (Z.succ (n - 1)) by lia. rewrite Z.testbit_odd_succ, Z.testbit_even_succ by lia.
    change 1 with (2 * 0 + 1). rewrite Z.testbit_odd_succ by lia. rewrite Z.testbit_0_l. apply orb_false_r.
Qed.

(** ** [heap_insert] *)
Lemma heap_insert_at_spec bits t i k p h0 E s :
  sub bits p = Some h0 → ordered p → numbered i p →
  (∀ u, entries (k u) ≡ₚ key u :: E) → E ⊆ entries h0 →
  (∀ u, ordered (k u)) →
  (∀ u, numbered (number i bits) (k (set_heap_index (number i bits) u))) →
  (∀ u, shape_of (k u) = s) →
  ∃ p', heap_insert_at bits t i k p = Ok p' ∧
    entries p' ++ entries h0 ≡ₚ key t :: E ++ entries p ∧
    ordered p' ∧ numbered i p' ∧ shape_of p' = put bits s (shape_of p).
Proof.
  revert t i p. induction bits as [| b bits IH]; intros t i p Hsub Hord Hnum Hk HE Hko Hkn Hks.
  - injection Hsub as ->. eexists. split; [done |]. cbn [put]. split_and!; try done.
    by rewrite Hk.
  - destruct p as [| u l r]; [done |]. cbn [sub] in Hsub.
    destruct Hord as (Hlb & Hl & Hr). destruct Hnum as (Hi & Hnl & Hnr).
    cbn [heap_insert_at]. rewrite lor_index, shift_index.
    set (swap := due t <? due u). set (top := if swap then _ else u). set (t' := if swap then u else t).
    assert (due top <= due u ∧ due top <= due t' ∧ heap_index top = i) as (Hu & Ht' & Hti).
    { unfold top, t', swap. destruct (Z.ltb_spec (due t) (due u)); cbn; lia. }
    assert (∀ x, key top :: key t' :: x ≡ₚ key t :: key u :: x) as Hkeys.
    { intros x. unfold top, t'. destruct swap; [done |]. apply Permutation_swap. }
    assert (∀ q q', entries q' ++ entries h0 ≡ₚ key t' :: E ++ entries q → E ⊆ entries q →
        not_before (due u) (entries q) → not_before (due top) (entries q')) as Hnb.
    { intros q q' Hp HEq Hq. apply (not_before_perm _ _ (key t' :: entries q)).
      - intros x Hx. assert (x ∈ entries q' ++ entries h0) as Hx' by set_solver.
        rewrite Hp in Hx'. set_solver.
      - constructor; [done |]. by apply (not_before_le _ (due u)). }
    assert (∀ q, entries h0 ⊆ entries q → E ⊆ entries q) as HEsub by set_solver.
    unfold not_before in Hlb. rewrite Forall_app in Hlb. destruct Hlb as [Hlb1 Hlb2].
    destruct b.
    + destruct (IH t' (2 * i + 1) r Hsub Hr Hnr Hk HE Hko Hkn Hks) as (r' & E' & Hent & Hor & Hno & Hsh).
      rewrite E'. exists (Node top l r'). split; [done |]. cbn [entries ordered numbered shape_of put].
      pose proof (Hnb r r' Hent (HEsub r (sub_entries _ _ _ Hsub)) Hlb2) as Hr'. split_and!; try done.
      * rewrite <- !app_comm_cons, <- app_assoc, Hent.
        rewrite <- Permutation_middle, Hkeys.
        rewrite <- Permutation_middle. f_equiv. f_equiv. rewrite !app_assoc. f_equiv. apply Permutation_app_comm.
      * apply Forall_app. split; [by apply (not_before_le _ (due u)) | done].
      * by rewrite Hsh.
    + destruct (IH t' (2 * i) l Hsub Hl Hnl Hk HE Hko Hkn Hks) as (l' & E' & Hent & Hor & Hno & Hsh).
      rewrite E'. exists (Node top l' r). split; [done |]. cbn [entries ordered numbered shape_of put].
      pose proof (Hnb l l' Hent (HEsub l (sub_entries _ _ _ Hsub)) Hlb1) as Hl'. split_and!; try done.
      * rewrite <- !app_comm_cons, <- app_assoc, (Permutation_app_comm (entries r)), app_assoc, Hent.
        rewrite <- app_comm_cons, Hkeys. rewrite <- Permutation_middle. f_equiv. f_equiv. by rewrite app_assoc.
      * apply Forall_app. split; [done | by apply (not_before_le _ (due u))].
      * by rewrite Hsh.
Qed.

(** ** The last node and the move down *)
Lemma unlink_spec bits i p u :
  sub bits p = Some u → ordered p → numbered i p →
  ∃ p', unlink bits p = Ok (u, p') ∧ entries p ≡ₚ entries u ++ entries p' ∧
    ordered p' ∧ numbered i p' ∧ shape_of p' = put bits Tip (shape_of p).
Proof.
  revert i p. induction bits as [| b bits IH]; intros i p Hsub Hord Hnum.
  - injection Hsub as ->. exists Null. split_and!; try done. cbn. by rewrite app_nil_r.
  - destruct p as [| t l r]; [done |]. cbn [sub] in Hsub. destruct Hord as (Hlb & Hl & Hr).
    destruct Hnum as (Hi & Hnl & Hnr). cbn [unlink]. destruct b.
    + destruct (IH _ r Hsub Hr Hnr) as (r' & E & Hent & Hor & Hno & Hsh). rewrite E.
      exists (Node t l r'). split; [done |]. cbn [entries ordered numbered shape_of put].
      split_and!; try done; [| | by rewrite Hsh].
      * rewrite Hent, <- Permutation_middle. f_equiv. rewrite !app_assoc. f_equiv. apply Permutation_app_comm.
      * apply (not_before_perm _ _ _) with (2 := Hlb). intros x. rewrite !elem_of_app, Hent, elem_of_app. tauto.
    + destruct (IH _ l Hsub Hl Hnl) as (l' & E & Hent & Hor & Hno & Hsh). rewrite E.
      exists (Node t l' r). split; [done |]. cbn [entries ordered numbered shape_of put].
      split_and!; try done; [| | by rewrite Hsh].
      * rewrite Hent, <- Permutation_middle. f_equiv. by rewrite app_assoc.
      * apply (not_before_perm _ _ _) with (2 := Hlb). intros x. rewrite !elem_of_app, Hent, elem_of_app. tauto.
Qed.

Lemma ordered_root t l r e : ordered (Node t l r) → e ∈ entries (Node t l r) → due t <= e.2.
Proof.
  intros (H & _) He. cbn [entries] in He. apply elem_of_cons in He as [-> | He]; [done |].
  unfold not_before in H. rewrite Forall_forall in H. by apply H.
Qed.

Lemma not_before_ordered d t l r : ordered (Node t l r) → d <= due t → not_before d (entries (Node t l r)).
Proof.
  intros H Hd. apply Forall_forall. intros e He. pose proof (ordered_root _ _ _ _ H He). lia.
Qed.

(** No node has a right child only. *)
Definition left_first (s : shape) : Prop :=
  ∀ bits, has_node (bits ++ [true]) s = true → has_node (bits ++ [false]) s = true.

Lemma left_first_sub l r : left_first (Fork l r) → left_first l ∧ left_first r.
Proof. intros H. split; intros bits Hb; [apply (H (false :: bits)) | apply (H (true :: bits))]; done. Qed.

Lemma left_first_root r : left_first (Fork Tip r) → r = Tip.
Proof. intros H. specialize (H []). destruct r; [done |]. by discriminate H. Qed.

(** What [sift] promises for a tree whose two subtrees are in order. *)
Definition sifts (i : Z) (h : heap) : Prop :=
  match h with
  | Null => True
  | Node _ l r =>
      left_first (shape_of h) → ordered l → ordered r → ∀ t,
      entries (sift t h) ≡ₚ key t :: entries l ++ entries r ∧ ordered (sift t h) ∧
      shape_of (sift t h) = shape_of h ∧
      (heap_index t = i → numbered (2 * i) l → numbered (2 * i + 1) r → numbered i (sift t h))
  end.

Lemma sift_left i x t y yl yr r :
  sifts (2 * i) (Node y yl yr) → left_first (shape_of (Node y yl yr)) → ordered (Node y yl yr) → ordered r → not_before (due y) (entries r) →
  due y < due t →
  let h := Node (set_heap_index (heap_index t) y) (sift (set_heap_index (heap_index y) t) (Node y yl yr)) r in
  entries h ≡ₚ key t :: entries (Node y yl yr) ++ entries r ∧ ordered h ∧
  shape_of h = shape_of (Node x (Node y yl yr) r) ∧
  (heap_index t = i → numbered (2 * i) (Node y yl yr) → numbered (2 * i + 1) r → numbered i h).
Proof.
  intros IH Hf Hl Hr Hnb Hlt h. pose proof Hl as (Hlb & Hyl & Hyr).
  destruct (IH Hf Hyl Hyr (set_heap_index (heap_index y) t)) as (Hent & Hord & Hsh & Hnum).
  unfold h. cbn [entries ordered numbered]. change (key (set_heap_index _ t)) with (key t) in Hent.
  change (key (set_heap_index _ y)) with (key y). split_and!.
  - rewrite Hent. cbn [app]. apply Permutation_swap.
  - change (due (set_heap_index (heap_index t) y)) with (due y). apply Forall_app. split; [| done].
    apply (not_before_perm _ _ (key t :: entries yl ++ entries yr)).
    { intros e. by rewrite Hent. }
    constructor; [cbn; lia | done].
  - done.
  - done.
  - cbn [shape_of]. by rewrite Hsh.
  - intros Hi (Hiy & Hn1 & Hn2) Hnr. cbn [heap_index set_heap_index]. split_and!; [done | | done].
    by apply Hnum.
Qed.

Lemma sift_right i x t y l yl yr :
  sifts (2 * i + 1) (Node y yl yr) → left_first (shape_of (Node y yl yr)) → ordered (Node y yl yr) → ordered l → not_before (due y) (entries l) →
  due y < due t →
  let h := Node (set_heap_index (heap_index t) y) l (sift (set_heap_index (heap_index y) t) (Node y yl yr)) in
  entries h ≡ₚ key t :: entries l ++ entries (Node y yl yr) ∧ ordered h ∧
  shape_of h = shape_of (Node x l (Node y yl yr)) ∧
  (heap_index t = i → numbered (2 * i) l → numbered (2 * i + 1) (Node y yl yr) → numbered i h).
Proof.
  intros IH Hf Hr Hl Hnb Hlt h. pose proof Hr as (Hlb & Hyl & Hyr).
  destruct (IH Hf Hyl Hyr (set_heap_index (heap_index y) t)) as (Hent & Hord & Hsh & Hnum).
  unfold h. cbn [entries ordered numbered]. change (key (set_heap_index _ t)) with (key t) in Hent.
  change (key (set_heap_index _ y)) with (key y). split_and!.
  - rewrite Hent, <- !Permutation_middle. apply Permutation_swap.
  - change (due (set_heap_index (heap_index t) y)) with (due y). apply Forall_app. split; [done |].
    apply (not_before_perm _ _ (key t :: entries yl ++ entries yr)).
    { intros e. by rewrite Hent. }
    constructor; [cbn; lia | done].
  - done.
  - done.
  - cbn [shape_of]. by rewrite Hsh.
  - intros Hi Hnl (Hiy & Hn1 & Hn2). cbn [heap_index set_heap_index]. split_and!; [done | done |].
    by apply Hnum.
Qed.

(** [t] stays: it is due no later than the roots of the subtrees. *)
Lemma sift_stays i x t l r :
  ordered l → ordered r → not_before (due t) (entries l ++ entries r) →
  entries (Node t l r) ≡ₚ key t :: entries l ++ entries r ∧ ordered (Node t l r) ∧
  shape_of (Node t l r) = shape_of (Node x l r) ∧
  (heap_index t = i → numbered (2 * i) l → numbered (2 * i + 1) r → numbered i (Node t l r)).
Proof. intros. by split_and!. Qed.

Lemma sift_spec i h : sifts i h.
Proof.
  revert i. induction h as [| x l IHl r IHr]; intros i; [done |].
  intros Hf Hl Hr t. pose proof (left_first_sub _ _ Hf) as [Hfl Hfr]. cbn [sift].
  destruct l as [| y yl yr].
  - apply left_first_root in Hf. destruct r; [| done]. apply sift_stays; [done | done | constructor].
  - destruct r as [| z zl zr].
    + destruct (Z.ltb_spec (due y) (due t)); [apply sift_left; try done; constructor |].
      apply sift_stays; [done | done |]. rewrite app_nil_r. by apply not_before_ordered.
    + destruct (Z.ltb_spec (due y) (due z)).
      * destruct (Z.ltb_spec (due y) (due t)).
        -- apply sift_left; [done | done | done | done | | done]. apply not_before_ordered; [done | lia].
        -- apply sift_stays; [done | done |]. apply Forall_app.
           split; apply not_before_ordered; (done || lia).
      * destruct (Z.ltb_spec (due z) (due t)).
        -- apply sift_right; [done | done | done | done | | done]. apply not_before_ordered; [done | lia].
        -- apply sift_stays; [done | done |]. apply Forall_app.
           split; apply not_before_ordered; (done || lia).
Qed.

(** ** Paths and numbers *)
Lemma count_bits_zero fuel : count_bits fuel 0 = O.
Proof. by destruct fuel. Qed.

Lemma count_bits_double fuel i b :
  0 < i → i < 2 ^ Z.of_nat fuel →
  count_bits (S fuel) (if b : bool then 2 * i + 1 else 2 * i) = S (count_bits fuel i).
Proof.
  intros Hi Hf. cbn [count_bits]. rewrite (proj2 (Z.eqb_neq _ _)) by (destruct b; lia).
  do 2 f_equal. rewrite Z.shiftr_div_pow2 by lia. change (2 ^ 1) with 2.
  destruct b; symmetry; [apply (Z.div_unique _ _ _ 1) | apply (Z.div_unique _ _ _ 0)]; lia.
Qed.

Lemma count_bits_pos fuel i : 0 < i → i < 2 ^ Z.of_nat fuel → (0 < count_bits fuel i)%nat.
Proof.
  intros Hi Hf. destruct fuel as [| fuel]; [cbn in Hf; lia |]. cbn [count_bits].
  rewrite (proj2 (Z.eqb_neq _ _)) by lia. lia.
Qed.

Lemma count_bits_fuel fuel i : 0 <= i → i < 2 ^ Z.of_nat fuel → count_bits (S fuel) i = count_bits fuel i.
Proof.
  revert i. induction fuel as [| fuel IH]; intros i Hi Hf.
  { cbn in Hf. replace i with 0 by lia. done. }
  assert (∀ n s, count_bits (S n) s = if s =? 0 then O else S (count_bits n (Z.shiftr s 1))) as E by done.
  rewrite (E (S fuel) i), (E fuel i). destruct (i =? 0); [done |]. f_equal. apply IH.
  - by apply Z.shiftr_nonneg.
  - rewrite Z.shiftr_div_pow2 by lia. change (2 ^ 1) with 2. apply Z.div_lt_upper_bound; [lia |].
    rewrite Nat2Z.inj_succ, Z.pow_succ_r in Hf by lia. lia.
Qed.

Lemma digit_land s k : negb (Z.land s (Z.shiftl 1 (Z.of_nat k)) =? 0) = Z.testbit s (Z.of_nat k).
Proof.
  rewrite Z.shiftl_1_l. destruct (Z.testbit s (Z.of_nat k)) eqn:E.
  - apply negb_true_iff, Z.eqb_neq. intros H. apply (f_equal (λ z, Z.testbit z (Z.of_nat k))) in H.
    rewrite Z.land_spec, E, Z.pow2_bits_true, Z.testbit_0_l in H by lia. done.
  - apply negb_false_iff, Z.eqb_eq. apply Z.bits_inj'. intros n Hn.
    rewrite Z.land_spec, Z.testbit_0_l, Z.pow2_bits_eqb by lia.
    destruct (Z.eqb_spec (Z.of_nat k) n) as [<- |]; [by rewrite E | apply andb_false_r].
Qed.

(** The path to a child is the path to its parent and one more step. *)
Lemma path_child i (b : bool) :
  0 < i → i < 2 ^ 31 → path (if b then 2 * i + 1 else 2 * i) = path i ++ [b].
Proof.
  intros Hi Hf. unfold path. rewrite (count_bits_double 31), <- (count_bits_fuel 31 i) by lia.
  assert (0 < count_bits 32 i)%nat as Hc by (apply count_bits_pos; lia).
  destruct (count_bits 32 i) as [| n]; [lia |]. cbn [Nat.sub]. rewrite Nat.sub_0_r.
  change (seq 0 (S n)) with (0%nat :: seq 1 n). cbn [rev]. rewrite map_app. cbn [map]. f_equal.
  - rewrite <- seq_shift, <- map_rev, map_map. apply map_ext. intros k.
    rewrite !digit_land, Nat2Z.inj_succ. destruct b; [apply Z.testbit_odd_succ | apply Z.testbit_even_succ]; lia.
  - rewrite digit_land. f_equal. destruct b; [apply Z.testbit_odd_0 | apply Z.testbit_even_0].
Qed.

Lemma path_1 : path 1 = [].
Proof. done. Qed.

Lemma path_number bits : number 1 bits < 2 ^ 31 → path (number 1 bits) = bits.
Proof.
  induction bits as [| b bits IH] using rev_ind; [done |]. rewrite number_snoc. intros H.
  pose proof (number_pos bits 1 ltac:(lia)). rewrite path_child by (destruct b; lia).
  rewrite IH; [done | destruct b; lia].
Qed.

Lemma number_path i : 0 < i → i < 2 ^ 31 → number 1 (path i) = i.
Proof.
  intros Hi. pattern i. apply (Zlt_lower_bound_ind _ 1); [| lia]. clear i Hi. intros i IH Hi Hlt.
  destruct (decide (i = 1)) as [-> | Hne]; [done |].
  pose proof (Z.div_mod i 2 ltac:(lia)) as Hdm. pose proof (Z.mod_pos_bound i 2 ltac:(lia)) as Hm.
  specialize (IH (i / 2) ltac:(split; [apply Z.div_le_lower_bound; lia | apply Z.div_lt; lia])
    ltac:(apply Z.div_lt_upper_bound; lia)).
  assert (i = if i mod 2 =? 1 then 2 * (i / 2) + 1 else 2 * (i / 2)) as E.
  { destruct (Z.eqb_spec (i mod 2) 1); lia. }
  rewrite E at 1. rewrite path_child, number_snoc, IH; [by rewrite <- E | | ];
    [pose proof (Z.div_le_lower_bound i 2 1 ltac:(lia) ltac:(lia)); lia | apply Z.div_lt_upper_bound; lia].
Qed.

(** ** Subtrees and shapes *)
Lemma has_node_sub bits h x :
  sub bits h = Some x → has_node bits (shape_of h) = match x with Null => false | _ => true end.
Proof.
  revert h. induction bits as [| b bits IH]; intros h H.
  - injection H as ->. by destruct x.
  - destruct h as [| t l r]; [done |]. cbn. rewrite <- (IH (if b then r else l)); [by destruct b | done].
Qed.

Lemma sub_child bits b h : has_node bits (shape_of h) = true → ∃ x, sub (bits ++ [b]) h = Some x.
Proof.
  revert h. induction bits as [| c bits IH]; intros h H; destruct h as [| t l r]; try done.
  - cbn. eauto.
  - cbn in *. apply IH. by destruct c.
Qed.

Lemma numbered_sub bits i h x : sub bits h = Some x → numbered i h → numbered (number i bits) x.
Proof.
  revert i h. induction bits as [| b bits IH]; intros i h H Hn; [by injection H as -> |].
  destruct h as [| t l r]; [done |]. destruct Hn as (_ & Hl & Hr). rewrite number_cons.
  apply (IH _ (if b then r else l)); [done | by destruct b].
Qed.

Lemma ordered_sub bits h x : sub bits h = Some x → ordered h → ordered x.
Proof.
  revert h. induction bits as [| b bits IH]; intros h H Ho; [by injection H as -> |].
  destruct h as [| t l r]; [done |]. destruct Ho as (_ & Hl & Hr).
  apply (IH (if b then r else l)); [done | by destruct b].
Qed.

Lemma left_first_at bits h x : sub bits h = Some x → left_first (shape_of h) → left_first (shape_of x).
Proof.
  revert h. induction bits as [| b bits IH]; intros h H Hf; [by injection H as -> |].
  destruct h as [| t l r]; [done |]. apply left_first_sub in Hf as [Hl Hr].
  apply (IH (if b then r else l)); [done | by destruct b].
Qed.

Lemma put_same bits h x y :
  sub bits h = Some x → shape_of y = shape_of x → put bits (shape_of y) (shape_of h) = shape_of h.
Proof.
  revert h. induction bits as [| b bits IH]; intros h H E.
  - injection H as ->. done.
  - destruct h as [| t l r]; [done |]. cbn [shape_of put]. cbn in H.
    destruct b; by rewrite IH.
Qed.

Lemma has_node_tip bits : has_node bits Tip = false.
Proof. by destruct bits. Qed.

Lemma has_node_put_leaf bits bits' h :
  sub bits h = Some Null →
  has_node bits' (put bits (Fork Tip Tip) (shape_of h)) = true ↔
  has_node bits' (shape_of h) = true ∨ bits' = bits.
Proof.
  revert bits' h. induction bits as [| b bits IH]; intros bits' h H.
  - injection H as ->. destruct bits' as [| [] ?]; cbn; rewrite ?has_node_tip; intuition congruence.
  - destruct h as [| u l r]; [done |]. cbn in H. destruct bits' as [| c bits'].
    { destruct b; cbn; intuition congruence. }
    cbn [shape_of put]. destruct b, c; cbn [has_node]; try rewrite IH by done; intuition congruence.
Qed.

Lemma has_node_put_tip bits bits' h t :
  sub bits h = Some (Node t Null Null) →
  has_node bits' (put bits Tip (shape_of h)) = true ↔ has_node bits' (shape_of h) = true ∧ bits' ≠ bits.
Proof.
  revert bits' h. induction bits as [| b bits IH]; intros bits' h H.
  - injection H as ->. destruct bits' as [| [] ?]; cbn; rewrite ?has_node_tip; intuition congruence.
  - destruct h as [| u l r]; [done |]. cbn in H. destruct bits' as [| c bits'].
    { destruct b; cbn; intuition congruence. }
    cbn [shape_of put]. destruct b, c; cbn [has_node]; try rewrite IH by done; intuition congruence.
Qed.

Lemma node_of_spec id h :
  id ∈ (entries h).*1 →
  ∃ t l r bits, node_of id h = Some (t, l, r) ∧ thread t = id ∧ sub bits h = Some (Node t l r).
Proof.
  induction h as [| t l IHl r IHr]; cbn [entries fmap list_fmap]; intros H; [by apply not_elem_of_nil in H |].
  cbn [node_of]. destruct (Z.eqb_spec (thread t) id) as [E | E].
  - exists t, l, r, []. done.
  - apply elem_of_cons in H as [H | H]; [cbn in H; congruence |]. rewrite fmap_app, elem_of_app in H.
    destruct (node_of id l) as [x |] eqn:El.
    + assert (id ∈ (entries l).*1) as Hl.
      { clear -El. revert x El. induction l as [| u l1 IH1 l2 IH2]; intros x El; [done |]. cbn in El.
        cbn [entries fmap list_fmap]. rewrite fmap_app. destruct (Z.eqb_spec (thread u) id) as [<- |]; [left |].
        right. apply elem_of_app. destruct (node_of id l1); [left; eauto | right; eauto]. }
      destruct (IHl Hl) as (u & l' & r' & bits & E1 & E2 & E3). injection E1 as ->.
      exists u, l', r', (false :: bits). done.
    + destruct H as [H | H].
      { destruct (IHl H) as (? & ? & ? & ? & ? & ?). done. }
      destruct (IHr H) as (u & l' & r' & bits & E1 & E2 & E3). exists u, l', r', (true :: bits). done.
Qed.

Section wf.
Context (n : Z) (h : heap) (Hwf : wf n h).

Lemma wf_left_first : left_first (shape_of h).
Proof. intros bits. rewrite !(wf_shape n h Hwf), !number_snoc. lia. Qed.

(** The places of the numbers up to [n + 1] can be reached. *)
Lemma wf_reach i : 0 < i → i <= n + 1 → i < 2 ^ 31 → ∃ x, sub (path i) h = Some x.
Proof.
  intros Hi Hn Hlt. destruct (decide (i = 1)) as [-> | Hne]; [by exists h |].
  assert (path i ≠ []) as Hp.
  { intros E. pose proof (number_path i Hi Hlt) as E'. rewrite E in E'. cbn in E'. congruence. }
  destruct (exists_last Hp) as (bits & b & E). rewrite E. apply sub_child, (wf_shape n h Hwf).
  pose proof (number_path i Hi Hlt) as E'. rewrite E, number_snoc in E'.
  pose proof (number_pos bits 1). destruct b; lia.
Qed.

Lemma wf_empty : n <= 0 → h = Null.
Proof.
  intros Hn. pose proof (proj1 (wf_shape n h Hwf [])) as H. destruct h as [| t l r]; [done |].
  specialize (H eq_refl). cbn in H. lia.
Qed.

(** The root is due first. *)
Lemma wf_root_first t l r e : h = Node t l r → e ∈ entries h → due t <= e.2.
Proof. intros E He. pose proof (wf_ordered n h Hwf) as Ho. rewrite E in Ho, He. by apply (ordered_root t l r). Qed.
End wf.

Lemma entries_threads t e l : key t :: l ≡ₚ e → thread t ∈ e.*1.
Proof. intros <-. left. Qed.

Lemma fmap_fst_perm (l k : list (Z * Z)) : l ≡ₚ k → l.*1 ≡ₚ k.*1.
Proof. by intros ->. Qed.

(** ** The two operations *)
Lemma heap_insert_wf n h id d :
  wf n h → 0 <= n → n + 1 < 2 ^ 31 → id ∉ (entries h).*1 →
  ∃ h', heap_insert (Sleeper id d (n + 1)) h = Ok h' ∧ wf (n + 1) h' ∧
    entries h' ≡ₚ (id, d) :: entries h.
Proof.
  intros Hwf Hn Hlt Hid. destruct (wf_reach n h Hwf (n + 1)) as [x Hx]; [lia | lia | lia |].
  pose proof (number_path (n + 1) ltac:(lia) Hlt) as Hnum.
  assert (x = Null) as ->.
  { pose proof (has_node_sub _ _ _ Hx) as E. destruct x; [done |].
    apply (wf_shape n h Hwf) in E. lia. }
  destruct (heap_insert_at_spec (path (n + 1)) (Sleeper id d (n + 1)) 1 (λ t, Node t Null Null)
    h Null [] (Fork Tip Tip) Hx (wf_ordered n h Hwf) (wf_numbered n h Hwf))
    as (h' & E & Hent & Hord & Hnumb & Hsh); try done.
  { intros u. split_and!; [constructor | done | done]. }
  exists h'. split; [exact E |]. cbn [entries app] in Hent. rewrite app_nil_r in Hent.
  split; [| done]. split; [done | done | |].
  - intros bits. rewrite Hsh, (has_node_put_leaf _ _ _ Hx), (wf_shape n h Hwf).
    split; [intros [? | ->]; lia |]. intros Hb. destruct (decide (number 1 bits <= n)) as [| Hgt]; [by left |].
    right. rewrite <- (path_number bits) by lia. f_equal. lia.
  - rewrite (fmap_fst_perm _ _ Hent). cbn. constructor; [done | apply Hwf].
Qed.

(** The last node has no children. *)
Lemma wf_last n h :
  wf n h → 0 < n → n < 2 ^ 31 → ∃ t, sub (path n) h = Some (Node t Null Null).
Proof.
  intros Hwf Hn Hlt. destruct (wf_reach n h Hwf n) as [x Hx]; [lia | lia | lia |].
  pose proof (number_path n Hn Hlt) as Hnum.
  pose proof (has_node_sub _ _ _ Hx) as E. rewrite (proj2 (wf_shape n h Hwf (path n))) in E by lia.
  destruct x as [| t l r]; [done |].
  assert (∀ (b : bool) y, (if b then r else l) = y → y = Null) as Hc.
  { intros b y Hy. assert (sub (path n ++ [b]) h = Some y) as Hs.
    { clear -Hx Hy. revert h Hx. induction (path n) as [| c p IH]; intros h Hx.
      - injection Hx as ->. cbn. destruct b; by subst.
      - destruct h; [done |]. cbn in *. by apply IH. }
    apply has_node_sub in Hs. destruct y; [done |]. apply (wf_shape n h Hwf) in Hs.
    rewrite number_snoc, Hnum in Hs. destruct b; lia. }
  exists t. rewrite Hx. by rewrite (Hc true r eq_refl), (Hc false l eq_refl).
Qed.

(** The heap without its last node. *)
Lemma unlink_wf n h t :
  wf n h → 0 < n → n < 2 ^ 31 → sub (path n) h = Some (Node t Null Null) →
  ∃ h', unlink (path n) h = Ok (Node t Null Null, h') ∧ wf (n - 1) h' ∧ entries h ≡ₚ key t :: entries h'.
Proof.
  intros Hwf Hn Hlt Hs.
  destruct (unlink_spec _ 1 _ _ Hs (wf_ordered n h Hwf) (wf_numbered n h Hwf)) as (h' & E & Hent & Ho & Hno & Hsh).
  exists h'. split; [done |]. cbn [entries app] in Hent. split; [| done]. split; [done | done | |].
  - intros bits. rewrite Hsh, (has_node_put_tip _ _ _ _ Hs), (wf_shape n h Hwf).
    pose proof (number_path n Hn Hlt) as Hnum. split.
    + intros [Hle Hne]. destruct (decide (number 1 bits = n)) as [E' |]; [| lia].
      destruct Hne. rewrite <- E'. symmetry. apply path_number. lia.
    + intros Hle. split; [lia |]. intros ->. lia.
  - pose proof (wf_threads n h Hwf) as Hnd. rewrite (fmap_fst_perm _ _ Hent) in Hnd.
    by inversion Hnd.
Qed.

(** The last node [t] in the place of the node of [id]. *)
Lemma replace_wf n h id t th l r bits :
  wf n h → n < 2 ^ 31 → thread t ∉ (entries h).*1 → sub bits h = Some (Node th l r) → thread th = id →
  ∃ h', heap_insert_at (path (heap_index th)) t 1 (λ t, sift t (Node th l r)) h = Ok h' ∧
    wf n h' ∧ key th :: entries h' ≡ₚ key t :: entries h.
Proof.
  intros Hwf Hlt Ht Hs Hid.
  destruct (numbered_sub _ _ _ _ Hs (wf_numbered n h Hwf)) as (Hi & Hnl & Hnr).
  destruct (ordered_sub _ _ _ Hs (wf_ordered n h Hwf)) as (_ & Hol & Hor).
  pose proof (left_first_at _ _ _ Hs (wf_left_first n h Hwf)) as Hf.
  pose proof (has_node_sub _ _ _ Hs) as Hn. apply (wf_shape n h Hwf) in Hn.
  rewrite Hi, path_number by lia.
  destruct (heap_insert_at_spec bits t 1 (λ t, sift t (Node th l r)) h (Node th l r)
    (entries l ++ entries r) (shape_of (Node th l r)) Hs (wf_ordered n h Hwf) (wf_numbered n h Hwf))
    as (h' & E & Hent & Ho & Hno & Hsh).
  - intros u. apply (sift_spec 1 (Node th l r) Hf Hol Hor u).
  - cbn [entries]. set_solver.
  - intros u. apply (sift_spec 1 (Node th l r) Hf Hol Hor u).
  - intros u. by apply (sift_spec (number 1 bits) (Node th l r) Hf Hol Hor (set_heap_index (number 1 bits) u)).
  - intros u. apply (sift_spec 1 (Node th l r) Hf Hol Hor u).
  - exists h'. split; [done |].
    assert (key th :: entries h' ≡ₚ key t :: entries h) as Hp.
    { apply (Permutation_app_inv_r (entries l ++ entries r)). cbn [entries] in Hent. cbn [app].
      rewrite (Permutation_app_comm (entries h)), <- Hent. apply Permutation_middle. }
    split; [| done]. split; [done | done | |].
    + intros bits'. rewrite Hsh, (put_same _ _ _ _ Hs eq_refl). apply (wf_shape n h Hwf).
    + apply fmap_fst_perm in Hp. cbn in Hp.
      assert (NoDup (thread th :: (entries h').*1)) as Hnd; [| by inversion Hnd].
      rewrite Hp. constructor; [done | apply Hwf].
Qed.

Lemma heap_delete_wf n h id :
  wf n h → n < 2 ^ 31 → id ∈ (entries h).*1 →
  ∃ h' d, heap_delete id n h = Ok h' ∧ wf (n - 1) h' ∧ entries h ≡ₚ (id, d) :: entries h'.
Proof.
  intros Hwf Hlt Hid.
  assert (0 < n) as Hn.
  { destruct (decide (n <= 0)) as [Hle |]; [| lia]. rewrite (wf_empty n h Hwf Hle) in Hid.
    by apply not_elem_of_nil in Hid. }
  destruct (wf_last n h Hwf Hn Hlt) as [t Ht].
  destruct (unlink_wf n h t Hwf Hn Hlt Ht) as (h1 & E & Hwf1 & Hent).
  unfold heap_delete. rewrite E. destruct (Z.eqb_spec (thread t) id) as [<- | Hne].
  - exists h1, (due t). done.
  - pose proof (fmap_fst_perm _ _ Hent) as Hthr. cbn in Hthr.
    assert (id ∈ (entries h1).*1) as Hid1.
    { rewrite Hthr in Hid. apply elem_of_cons in Hid as [-> | ?]; [by destruct Hne | done]. }
    destruct (node_of_spec id h1 Hid1) as (th & l & r & bits & Eth & Hth & Hs). rewrite Eth.
    destruct (replace_wf (n - 1) h1 id t th l r bits) as (h' & E' & Hwf' & Hp); [done | lia | | done | done |].
    { pose proof (wf_threads n h Hwf) as Hnd. rewrite Hthr in Hnd. by inversion Hnd. }
    exists h', (due th). split; [done |]. split; [done |]. rewrite Hent, <- Hp. unfold key. by rewrite Hth.
Qed.

(** ** What the queue stands for: who sleeps, and until when *)
Definition sleeping (q : sleepq) : gmap Z Z := list_to_map (entries (root q)).

Definition sleepq_ok (q : sleepq) : Prop := wf (sleepq_size q) (root q) ∧ 0 <= sleepq_size q < 2 ^ 31.

Lemma sleeping_entries n h e : wf n h → e ∈ entries h ↔ (list_to_map (entries h) : gmap Z Z) !! e.1 = Some e.2.
Proof.
  intros Hwf. destruct e as [id d]. rewrite elem_of_list_to_map; [done |]. apply Hwf.
Qed.

Lemma sleeping_dom h id : id ∈ (entries h).*1 ↔ id ∈ dom (list_to_map (entries h) : gmap Z Z).
Proof. rewrite dom_list_to_map_L. by rewrite elem_of_list_to_set. Qed.

Lemma sleepq_empty_ok : sleepq_ok (SleepQ Null 0).
Proof.
  split; [| cbn; lia]. split; [done | done | | constructor].
  intros bits. cbn. pose proof (number_pos bits 1). rewrite has_node_tip. split; [done | lia].
Qed.

Lemma add_sleep_q_ok q id last_clock timeout :
  sleepq_ok q → sleepq_size q + 1 < 2 ^ 31 → id ∉ dom (sleeping q) →
  ∃ q', _st_add_sleep_q id last_clock timeout q = Ok q' ∧ sleepq_ok q' ∧
    sleeping q' = <[id := wrap 64 (last_clock + timeout)]> (sleeping q) ∧
    sleepq_size q' = sleepq_size q + 1.
Proof.
  intros [Hwf Hn] Hlt Hid. destruct q as [h n]. unfold sleeping in *. cbn [root sleepq_size] in *.
  rewrite <- sleeping_dom in Hid.
  destruct (heap_insert_wf n h id (wrap 64 (last_clock + timeout)) Hwf) as (h' & E & Hwf' & Hent);
    [lia | lia | done |].
  unfold _st_add_sleep_q. cbn [root sleepq_size]. rewrite E. eexists. split; [done |].
  cbn [root sleepq_size]. split_and!; [split; [done | cbn [sleepq_size]; lia] | | done].
  rewrite (list_to_map_proper (entries h') ((id, wrap 64 (last_clock + timeout)) :: entries h));
    [done | apply Hwf' | done].
Qed.

Lemma del_sleep_q_ok q id :
  sleepq_ok q → id ∈ dom (sleeping q) →
  ∃ q', _st_del_sleep_q id q = Ok q' ∧ sleepq_ok q' ∧
    sleeping q' = delete id (sleeping q) ∧ sleepq_size q' = sleepq_size q - 1.
Proof.
  intros [Hwf Hn] Hid. destruct q as [h n]. unfold sleeping in *. cbn [root sleepq_size] in *.
  rewrite <- sleeping_dom in Hid.
  destruct (heap_delete_wf n h id Hwf) as (h' & d & E & Hwf' & Hent); [lia | done |].
  unfold _st_del_sleep_q. cbn [root sleepq_size]. rewrite E. eexists. split; [done |].
  assert (NoDup (id :: (entries h').*1)) as Hnd.
  { pose proof (wf_threads n h Hwf) as H. by rewrite (fmap_fst_perm _ _ Hent) in H. }
  cbn [root sleepq_size]. split_and!; [split; [done | cbn [sleepq_size]] | | done].
  - destruct (decide (n <= 0)) as [Hle |]; [| lia]. rewrite (wf_empty n h Hwf Hle) in Hent.
    by apply Permutation_nil in Hent.
  - rewrite (list_to_map_proper (entries h) ((id, d) :: entries h')); [| apply Hwf | done].
    cbn. rewrite delete_insert_id; [done |]. apply not_elem_of_list_to_map_1. by inversion Hnd.
Qed.

(** The root is the first thread to wake. *)
Lemma sleepq_root_first q t l r id d :
  sleepq_ok q → root q = Node t l r → sleeping q !! id = Some d →
  sleeping q !! thread t = Some (due t) ∧ due t <= d.
Proof.
  intros [Hwf _] E Hid. unfold sleeping in *. split.
  - apply (sleeping_entries _ _ (key t) Hwf). rewrite E. left.
  - apply (sleeping_entries _ _ (id, d) Hwf) in Hid. by apply (wf_root_first _ _ Hwf t l r (id, d)).
Qed.

Lemma sleepq_root_null q : sleepq_ok q → root q = Null ↔ sleeping q = ∅.
Proof.
  intros [Hwf _]. unfold sleeping. split; [by intros -> |]. intros E.
  destruct (root q) as [| t l r] eqn:Er; [done |].
  assert ((list_to_map (entries (Node t l r)) : gmap Z Z) !! thread t = Some (due t)) as H.
  { apply (sleeping_entries (sleepq_size q) _ (key t)); [done | left]. }
  rewrite E in H. by rewrite lookup_empty in H.
Qed.

(** Adding to the sleep queue a thread that is not on it never follows a null
    pointer; the heap stays ordered, numbered and filled from the left, and the
    set of sleepers gains exactly that thread with the time
    [last_clock + timeout] (modulo 2^64); every other thread keeps its time. *)
Theorem sleep_queue_add (q : sleepq) (id last_clock timeout : Z) :
  sleepq_ok q → sleepq_size q + 1 < 2 ^ 31 → id ∉ dom (sleeping q) →
  ∃ q', _st_add_sleep_q id last_clock timeout q = Ok q' ∧ sleepq_ok q' ∧
    sleeping q' = <[id := wrap 64 (last_clock + timeout)]> (sleeping q) ∧
    sleepq_size q' = sleepq_size q + 1.
Proof. apply add_sleep_q_ok. Qed.

(** C7: deleting any thread of the sleep queue, not only the first, never follows a
    null pointer, keeps the heap ordered, numbered and filled from the left, and
    removes exactly that thread; the root of the new heap is due no later than
    any other sleeper. *)
Theorem sleep_queue_delete (q : sleepq) (id : Z) :
  sleepq_ok q → id ∈ dom (sleeping q) →
  ∃ q', _st_del_sleep_q id q = Ok q' ∧ sleepq_ok q' ∧
    sleeping q' = delete id (sleeping q) ∧
    ∀ t l r i d, root q' = Node t l r → sleeping q' !! i = Some d → due t <= d.
Proof.
  intros Hq Hid. destruct (del_sleep_q_ok q id Hq Hid) as (q' & E & Hq' & Hs & _).
  exists q'. split_and!; [done | done | done |].
  intros t l r i d Hr Hi. by apply (sleepq_root_first q' t l r i d).
Qed.

(** ** Witnesses *)
Definition add_all (l : list (Z * Z)) : outcome sleepq :=
  foldr (λ e o, match o with Ok q => _st_add_sleep_q e.1 100 e.2 q | _ => o end) (Ok (SleepQ Null 0)) l.

Definition five_sleepers : list (Z * Z) := [(5, 3); (4, 50); (3, 1); (2, 7); (1, 10)].

Definition five : sleepq :=
  match add_all five_sleepers with Ok q => q | _ => SleepQ Null 0 end.

Lemma add_all_ok l :
  NoDup l.*1 → Z.of_nat (length l) < 2 ^ 30 →
  ∃ q, add_all l = Ok q ∧ sleepq_ok q ∧ sleepq_size q = Z.of_nat (length l) ∧
    dom (sleeping q) = list_to_set l.*1.
Proof.
  induction l as [| e l IH]; intros Hnd Hlt.
  - exists (SleepQ Null 0). split_and!; try done. apply sleepq_empty_ok.
  - cbn [fmap list_fmap length] in *. apply NoDup_cons in Hnd as [Hid Hnd].
    destruct (IH Hnd) as (q & E & Hq & Hsz & Hdom); [lia |].
    destruct (add_sleep_q_ok q e.1 100 e.2) as (q' & E' & Hq' & Hs & Hsz'); [done | lia | |].
    { rewrite Hdom, elem_of_list_to_set. done. }
    exists q'. cbn. fold (add_all l). rewrite E. split_and!; [done | done | lia |].
    rewrite Hs, dom_insert_L, Hdom. set_solver.
Qed.

Lemma five_ok : sleepq_ok five.
Proof.
  unfold five. destruct (add_all_ok five_sleepers) as (q & E & H & _); [| done |].
  - vm_compute; repeat (constructor; [rewrite ?elem_of_cons; set_solver by lia |]); constructor.
  - by rewrite E.
Qed.

Lemma sleep_queue_add_witness :
  ∃ q', _st_add_sleep_q 6 100 2 five = Ok q' ∧ sleeping q' !! 6 = Some 102.
Proof.
  destruct (sleep_queue_add five 6 100 2) as (q' & E & _ & Hs & _);
    [apply five_ok | vm_compute; reflexivity | by vm_compute |].
  exists q'. split; [exact E |]. rewrite Hs. vm_compute. reflexivity.
Defined.

Lemma sleep_queue_delete_witness :
  ∃ q', _st_del_sleep_q 2 five = Ok q' ∧ sleeping q' !! 2 = None ∧ sleeping q' !! 3 = Some 101.
Proof.
  destruct (sleep_queue_delete five 2) as (q' & E & _ & Hs & _); [apply five_ok | by vm_compute |].
  exists q'. split; [exact E |]. rewrite Hs. vm_compute. split; reflexivity.
Defined.
