(* ===== verification/Clist.v ===== *)
(** * common.h: circular doubly linked lists

    The queues of State Threads (runnable threads, pending polls, zombies, waiters
    of a condition variable or a mutex, free stacks) are circular lists linked
    through [_st_clist_t] members of the objects.  Here are the macros on a
    store of link members, and the proof that they are the operations on
    sequences that the other files use. *)

From stdpp Require Import base list sets gmap.
From Stdlib Require Import Lia ZArith.
From S2P Require Import Prelude.

Local Open Scope Z_scope.

Record _st_clist_t := Link { next : Z; prev : Z }.

(** Addresses of link members. *)
Notation store := (gmap Z _st_clist_t).

(** [p->next], [p->prev] and the assignments to them; an address that holds no
    link member is undefined behaviour. *)
Definition load (p : Z) : M store _st_clist_t := λ m,
  match m !! p with Some l => (Ok l, m) | None => (Undef, m) end.
Definition get_next (p : Z) : M store Z := l <- load p ;; ret (next l).
Definition get_prev (p : Z) : M store Z := l <- load p ;; ret (prev l).
Definition set_next (p v : Z) : M store unit :=
  l <- load p ;; modify (insert p (Link v (prev l))).
Definition set_prev (p v : Z) : M store unit :=
  l <- load p ;; modify (insert p (Link (next l) v)).

Definition ST_INSERT_BEFORE (e l : Z) : M store unit :=
  set_next e l ;;
  p <- get_prev l ;; set_prev e p ;;
  p <- get_prev l ;; set_next p e ;;
  set_prev l e.

Definition ST_INSERT_AFTER (e l : Z) : M store unit :=
  n <- get_next l ;; set_next e n ;;
  set_prev e l ;;
  n <- get_next l ;; set_prev n e ;;
  set_next l e.

Definition ST_APPEND_LINK := ST_INSERT_BEFORE.
Definition ST_INSERT_LINK := ST_INSERT_AFTER.

Definition ST_REMOVE_LINK (e : Z) : M store unit :=
  p <- get_prev e ;; n <- get_next e ;; set_next p n ;;
  n <- get_next e ;; p <- get_prev e ;; set_prev n p.

Definition ST_CLIST_IS_EMPTY (l : Z) : M store bool := n <- get_next l ;; ret (n =? l).

Definition ST_INIT_CLIST (l : Z) : M store unit := set_next l l ;; set_prev l l.

(** Assignments keep every link member allocated. *)
Definition keeps_alloc {A : Type} (c : M store A) : Prop :=
  ∀ m o m' x, c m = (o, m') → is_Some (m !! x) → is_Some (m' !! x).

Lemma keeps_bind {A B : Type} (c : M store A) (k : A → M store B) :
  keeps_alloc c → (∀ a, keeps_alloc (k a)) → keeps_alloc (bind c k).
Proof.
  intros Hc Hk m o m' x H Hx. unfold bind in H. destruct (c m) as [[a | | | |] m1] eqn:E1; simplify_eq;
    try (by eapply Hc). eapply Hk; [exact H |]. by eapply Hc.
Qed.

Lemma keeps_load p : keeps_alloc (load p).
Proof. intros m o m' x. unfold load. by destruct (m !! p); intros [= <- <-]. Qed.

Lemma keeps_insert p l : keeps_alloc (modify (insert p l) : M store unit).
Proof. intros m o m' x [= <- <-] Hx. by apply lookup_insert_is_Some'; right. Qed.

Lemma keeps_ret {A : Type} (a : A) : keeps_alloc (ret a).
Proof. by intros m o m' x [= <- <-]. Qed.

Lemma keeps_insert_before e l : keeps_alloc (ST_INSERT_BEFORE e l).
Proof. repeat (apply keeps_bind || apply keeps_load || apply keeps_insert || apply keeps_ret || intros ?). Qed.

Lemma keeps_remove e : keeps_alloc (ST_REMOVE_LINK e).
Proof. repeat (apply keeps_bind || apply keeps_load || apply keeps_insert || apply keeps_ret || intros ?). Qed.

(** ** The sequence a list stands for

    [seg m p xs q]: from [p] the [next] members lead through [xs] to [q], and the
    [prev] members back. *)
Fixpoint seg (m : store) (p : Z) (xs : list Z) (q : Z) : Prop :=
  match xs with
  | [] => next <$> m !! p = Some q ∧ prev <$> m !! q = Some p
  | x :: xs => next <$> m !! p = Some x ∧ prev <$> m !! x = Some p ∧ seg m x xs q
  end.

(** The list with head [l] (the queue itself) and elements [xs]. *)
Definition clist (m : store) (l : Z) (xs : list Z) : Prop := NoDup (l :: xs) ∧ seg m l xs l.

Lemma seg_app m p xs x ys q : seg m p (xs ++ x :: ys) q ↔ seg m p xs x ∧ seg m x ys q.
Proof. revert p. induction xs as [| y xs IH]; intros p; cbn; [tauto |]. rewrite IH. tauto. Qed.

Lemma seg_next m p xs q : seg m p xs q → next <$> m !! p = Some (hd q xs).
Proof. destruct xs; cbn; tauto. Qed.

Lemma seg_prev m p xs q : seg m p xs q → prev <$> m !! q = Some (List.last xs p).
Proof.
  revert p. induction xs as [| x xs IH]; intros p; [cbn; tauto |]. intros (_ & _ & H).
  rewrite (IH x H). f_equal. clear. revert p x. induction xs as [| y xs IH]; intros p x; [done |].
  cbn [List.last]. destruct xs; [done |]. apply IH.
Qed.

(** The [next] members used are those of [p :: xs], the [prev] members those of
    [xs ++ [q]]. *)
Lemma seg_ext m m' p xs q :
  (∀ x, x ∈ p :: xs → next <$> m' !! x = next <$> m !! x) →
  (∀ x, x ∈ xs ++ [q] → prev <$> m' !! x = prev <$> m !! x) →
  seg m p xs q → seg m' p xs q.
Proof.
  revert p. induction xs as [| y xs IH]; intros p Hn Hp; cbn.
  - rewrite Hn, Hp by set_solver. done.
  - intros (H1 & H2 & H3). rewrite Hn, Hp by set_solver. split_and!; [done | done |].
    apply IH; [intros; apply Hn; set_solver | intros; apply Hp; set_solver | done].
Qed.

(** ** The assignments *)
Definition sets_next (p v : Z) (m m' : store) : Prop :=
  (∀ x, next <$> m' !! x = if decide (x = p) then Some v else next <$> m !! x) ∧
  (∀ x, prev <$> m' !! x = prev <$> m !! x).
Definition sets_prev (p v : Z) (m m' : store) : Prop :=
  (∀ x, prev <$> m' !! x = if decide (x = p) then Some v else prev <$> m !! x) ∧
  (∀ x, next <$> m' !! x = next <$> m !! x).

Lemma set_next_run p v m :
  is_Some (next <$> m !! p) → ∃ m', set_next p v m = (Ok tt, m') ∧ sets_next p v m m'.
Proof.
  intros [y Hy]. apply fmap_Some in Hy as (l & Hl & _). unfold set_next, load, bind. rewrite Hl. cbn.
  eexists. split; [done |]. split; intros x; destruct (decide (x = p)) as [-> |].
  - by rewrite lookup_insert_eq.
  - by rewrite lookup_insert_ne.
  - by rewrite lookup_insert_eq, Hl.
  - by rewrite lookup_insert_ne.
Qed.

Lemma set_prev_run p v m :
  is_Some (next <$> m !! p) → ∃ m', set_prev p v m = (Ok tt, m') ∧ sets_prev p v m m'.
Proof.
  intros [y Hy]. apply fmap_Some in Hy as (l & Hl & _). unfold set_prev, load, bind. rewrite Hl. cbn.
  eexists. split; [done |]. split; intros x; destruct (decide (x = p)) as [-> |].
  - by rewrite lookup_insert_eq.
  - by rewrite lookup_insert_ne.
  - by rewrite lookup_insert_eq, Hl.
  - by rewrite lookup_insert_ne.
Qed.

Lemma get_next_run p v m : next <$> m !! p = Some v → get_next p m = (Ok v, m).
Proof. intros H. apply fmap_Some in H as (l & Hl & ->). unfold get_next, load, bind. by rewrite Hl. Qed.
Lemma get_prev_run p v m : prev <$> m !! p = Some v → get_prev p m = (Ok v, m).
Proof. intros H. apply fmap_Some in H as (l & Hl & ->). unfold get_prev, load, bind. by rewrite Hl. Qed.

Lemma next_prev (m : store) p : is_Some (next <$> m !! p) ↔ is_Some (prev <$> m !! p).
Proof. destruct (m !! p); split; intros [? H]; try discriminate; eauto. Qed.

(** [lnk]: look a member up in a store known through [sets_next]/[sets_prev]. *)
Ltac lnk := repeat
  match goal with
  | H : ∀ x, next <$> ?m !! x = _ |- context [next <$> ?m !! _] => rewrite H
  | H : ∀ x, prev <$> ?m !! x = _ |- context [prev <$> ?m !! _] => rewrite H
  | |- context [decide (?x = ?x)] => rewrite (decide_True _ _ (eq_refl x))
  | H : ?x ≠ ?y |- context [decide (?x = ?y)] => rewrite (decide_False _ _ H)
  | H : ?y ≠ ?x |- context [decide (?x = ?y)] => rewrite (decide_False _ _ (not_eq_sym H))
  end; eauto.

Lemma insert_before_run e l p m :
  is_Some (next <$> m !! e) → prev <$> m !! l = Some p → is_Some (next <$> m !! p) → e ≠ l → e ≠ p →
  ∃ m', ST_INSERT_BEFORE e l m = (Ok tt, m') ∧
    (∀ x, next <$> m' !! x =
       if decide (x = e) then Some l else if decide (x = p) then Some e else next <$> m !! x) ∧
    (∀ x, prev <$> m' !! x =
       if decide (x = e) then Some p else if decide (x = l) then Some e else prev <$> m !! x).
Proof.
  intros He Hl Hp Hel Hep. unfold ST_INSERT_BEFORE.
  destruct (set_next_run e l m He) as (m1 & E1 & N1 & P1). rewrite (bind_ok _ _ _ _ _ E1).
  rewrite (bind_ok _ _ _ _ _ (get_prev_run l p m1 ltac:(by rewrite P1))).
  destruct (set_prev_run e p m1) as (m2 & E2 & P2 & N2); [lnk |]. rewrite (bind_ok _ _ _ _ _ E2).
  rewrite (bind_ok _ _ _ _ _ (get_prev_run l p m2 ltac:(lnk; by rewrite P1))).
  destruct (set_next_run p e m2) as (m3 & E3 & N3 & P3); [lnk |]. rewrite (bind_ok _ _ _ _ _ E3).
  destruct (set_prev_run l e m3) as (m4 & E4 & P4 & N4).
  { apply next_prev. lnk. }
  exists m4. split; [done |]. split; intros x.
  - rewrite N4, N3, N2, N1. by repeat case_decide; subst.
  - rewrite P4, P3, P2, P1. by repeat case_decide; subst.
Qed.

Lemma insert_after_run e l n m :
  is_Some (next <$> m !! e) → next <$> m !! l = Some n → is_Some (next <$> m !! n) → e ≠ l → e ≠ n →
  ∃ m', ST_INSERT_AFTER e l m = (Ok tt, m') ∧
    (∀ x, next <$> m' !! x =
       if decide (x = e) then Some n else if decide (x = l) then Some e else next <$> m !! x) ∧
    (∀ x, prev <$> m' !! x =
       if decide (x = e) then Some l else if decide (x = n) then Some e else prev <$> m !! x).
Proof.
  intros He Hl Hn Hel Hen. unfold ST_INSERT_AFTER.
  rewrite (bind_ok _ _ _ _ _ (get_next_run l n m Hl)).
  destruct (set_next_run e n m He) as (m1 & E1 & N1 & P1). rewrite (bind_ok _ _ _ _ _ E1).
  destruct (set_prev_run e l m1) as (m2 & E2 & P2 & N2); [lnk |]. rewrite (bind_ok _ _ _ _ _ E2).
  rewrite (bind_ok _ _ _ _ _ (get_next_run l n m2 ltac:(lnk))).
  destruct (set_prev_run n e m2) as (m3 & E3 & P3 & N3); [lnk |]. rewrite (bind_ok _ _ _ _ _ E3).
  destruct (set_next_run l e m3) as (m4 & E4 & N4 & P4); [lnk |].
  exists m4. split; [done |]. split; intros x.
  - rewrite N4, N3, N2, N1. by repeat case_decide; subst.
  - rewrite P4, P3, P2, P1. by repeat case_decide; subst.
Qed.

Lemma remove_run e p n m :
  next <$> m !! e = Some n → prev <$> m !! e = Some p → is_Some (next <$> m !! p) →
  is_Some (next <$> m !! n) → e ≠ p → e ≠ n →
  ∃ m', ST_REMOVE_LINK e m = (Ok tt, m') ∧
    (∀ x, next <$> m' !! x = if decide (x = p) then Some n else next <$> m !! x) ∧
    (∀ x, prev <$> m' !! x = if decide (x = n) then Some p else prev <$> m !! x).
Proof.
  intros Hn Hp Hsp Hsn Hep Hen. unfold ST_REMOVE_LINK.
  rewrite (bind_ok _ _ _ _ _ (get_prev_run e p m Hp)), (bind_ok _ _ _ _ _ (get_next_run e n m Hn)).
  destruct (set_next_run p n m Hsp) as (m1 & E1 & N1 & P1). rewrite (bind_ok _ _ _ _ _ E1).
  rewrite (bind_ok _ _ _ _ _ (get_next_run e n m1 ltac:(lnk))).
  rewrite (bind_ok _ _ _ _ _ (get_prev_run e p m1 ltac:(by rewrite P1))).
  destruct (set_prev_run n p m1) as (m2 & E2 & P2 & N2).
  { rewrite N1. case_decide; [eauto | done]. }
  exists m2. split; [done |]. split; intros x.
  - rewrite N2, N1. done.
  - rewrite P2, P1. done.
Qed.

(** ** The macros on sequences *)
Lemma last_in (x : Z) xs : List.last xs x ∈ x :: xs.
Proof.
  revert x. induction xs as [| y xs IH]; intros x; [left |]. cbn [List.last].
  destruct xs as [| z xs]; [set_solver |]. right.
  assert (∀ a b, List.last (z :: xs) a = List.last (z :: xs) b) as E.
  { clear. revert z. induction xs as [| w xs IH]; intros z a b; [done | apply (IH w)]. }
  rewrite (E x y). apply IH.
Qed.

Lemma last_cons (x y : Z) xs : List.last (y :: xs) x = List.last xs y.
Proof.
  revert x y. induction xs as [| z xs IH]; intros x y; [done |].
  change (List.last (y :: z :: xs) x) with (List.last (z :: xs) x). by rewrite !IH.
Qed.

Lemma hd_in (q : Z) ys : hd q ys ∈ ys ++ [q].
Proof. destruct ys; cbn; set_solver. Qed.

Lemma seg_insert m m' e p xs ys q :
  (∀ x, next <$> m' !! x = if decide (x = e) then Some (hd q ys)
     else if decide (x = List.last xs p) then Some e else next <$> m !! x) →
  (∀ x, prev <$> m' !! x = if decide (x = e) then Some (List.last xs p)
     else if decide (x = hd q ys) then Some e else prev <$> m !! x) →
  NoDup (p :: xs ++ ys) → NoDup ((xs ++ ys) ++ [q]) → e ∉ p :: xs ++ ys → e ≠ q →
  seg m p (xs ++ ys) q → seg m' p (xs ++ e :: ys) q.
Proof.
  intros N P. revert p N P. induction xs as [| x xs IH]; intros p N P Hn Hp He Heq H.
  - cbn [app List.last] in *.
    assert (e ≠ p) as Hep by set_solver.
    cbn [seg]. split_and!; [lnk | lnk |]. destruct ys as [| y ys]; cbn [hd seg] in *; [split; lnk |].
    destruct H as (_ & _ & H). assert (e ≠ y) by set_solver.
    split_and!; [lnk | lnk |]. apply (seg_ext m); [| | done]; intros x Hx.
    + assert (x ≠ e) by set_solver. apply NoDup_cons in Hn as [Hpn _].
      assert (x ≠ p) by set_solver. lnk.
    + assert (x ≠ e) by set_solver. apply NoDup_cons in Hp as [Hyn _].
      assert (x ≠ y) by set_solver. lnk.
  - rewrite last_cons in N, P. cbn [app] in *. cbn [seg] in *. destruct H as (H1 & H2 & H3).
    apply NoDup_cons in Hn as [Hn1 Hn2]. apply NoDup_cons in Hp as [Hp1 Hp2].
    pose proof (last_in x xs) as Hl. pose proof (hd_in q ys) as Hh.
    assert (p ≠ List.last xs x) by set_solver. assert (x ≠ hd q ys) by set_solver.
    assert (p ≠ e) by set_solver. assert (x ≠ e) by set_solver.
    split_and!; [lnk | lnk |]. apply IH; try done; set_solver.
Qed.

Lemma seg_remove m m' e p xs ys q :
  (∀ x, next <$> m' !! x = if decide (x = List.last xs p) then Some (hd q ys) else next <$> m !! x) →
  (∀ x, prev <$> m' !! x = if decide (x = hd q ys) then Some (List.last xs p) else prev <$> m !! x) →
  NoDup (p :: xs ++ e :: ys) → NoDup ((xs ++ e :: ys) ++ [q]) →
  seg m p (xs ++ e :: ys) q → seg m' p (xs ++ ys) q.
Proof.
  intros N P. revert p N P. induction xs as [| x xs IH]; intros p N P Hn Hp H.
  - cbn [app List.last seg] in *. destruct H as (_ & _ & H). destruct ys as [| y ys]; cbn [hd seg] in *.
    + split; lnk.
    + destruct H as (_ & _ & H). split_and!; [lnk | lnk |]. apply (seg_ext m); [| | done]; intros x Hx.
      * apply NoDup_cons in Hn as [Hpn _]. assert (x ≠ p) by set_solver. lnk.
      * apply NoDup_cons in Hp as [_ Hp]. apply NoDup_cons in Hp as [Hyn _]. assert (x ≠ y) by set_solver. lnk.
  - rewrite last_cons in N, P. cbn [app] in *. cbn [seg] in *. destruct H as (H1 & H2 & H3).
    apply NoDup_cons in Hn as [Hn1 Hn2]. apply NoDup_cons in Hp as [Hp1 Hp2].
    pose proof (last_in x xs) as Hl. pose proof (hd_in q ys) as Hh.
    assert (p ≠ List.last xs x) by set_solver. assert (x ≠ hd q ys) by set_solver.
    split_and!; [lnk | lnk |]. by apply IH.
Qed.

Lemma clist_nodup (l : Z) xs : NoDup (l :: xs) → NoDup (xs ++ [l]).
Proof. intros H. rewrite <- Permutation_cons_append. done. Qed.

Lemma seg_alloc m p xs q : seg m p xs q → ∀ x, x ∈ p :: xs → is_Some (next <$> m !! x).
Proof.
  revert p. induction xs as [| y xs IH]; intros p H x Hx; cbn in H.
  - assert (x = p) as -> by set_solver. destruct H as [-> _]. eauto.
  - destruct H as (H1 & _ & H). apply elem_of_cons in Hx as [-> | Hx]; [rewrite H1; eauto | by apply (IH y)].
Qed.

(** The other lists of the store. *)
Definition others_kept (m m' : store) (used : list Z) : Prop :=
  ∀ l xs, clist m l xs → (∀ x, x ∈ l :: xs → x ∉ used) → clist m' l xs.

Lemma others_kept_intro m m' used :
  (∀ x, x ∉ used → next <$> m' !! x = next <$> m !! x ∧ prev <$> m' !! x = prev <$> m !! x) →
  others_kept m m' used.
Proof.
  intros H l xs [Hnd Hs] Hu. split; [done |].
  apply (seg_ext m); [| | done]; intros x Hx; apply H, Hu; set_solver.
Qed.

Lemma insert_before_clist m l xs ys e :
  clist m l (xs ++ ys) → is_Some (m !! e) → e ∉ l :: xs ++ ys →
  ∃ m', ST_INSERT_BEFORE e (hd l ys) m = (Ok tt, m') ∧ clist m' l (xs ++ e :: ys) ∧
    others_kept m m' (e :: l :: xs ++ ys).
Proof.
  intros [Hnd Hs] [k He] Hin.
  assert (hd l ys ∈ l :: xs ++ ys ∧ List.last xs l ∈ l :: xs ++ ys) as [Hh Hl].
  { pose proof (hd_in l ys). pose proof (last_in l xs). set_solver. }
  assert (seg m l (xs ++ ys) l → prev <$> m !! hd l ys = Some (List.last xs l)) as Hprev.
  { intros H. destruct ys as [| y ys]; [rewrite app_nil_r in H; by apply seg_prev in H |].
    apply seg_app in H as [H _]. by apply seg_prev in H. }
  destruct (insert_before_run e (hd l ys) (List.last xs l) m) as (m' & E & N & P).
  - rewrite He. cbn. eauto.
  - by apply Hprev.
  - by apply (seg_alloc _ _ _ _ Hs).
  - set_solver.
  - set_solver.
  - exists m'. split; [done |]. split; [split |].
    + apply NoDup_cons in Hnd as [Hl1 Hnd]. apply NoDup_cons. split; [set_solver |].
      rewrite <- Permutation_middle. apply NoDup_cons. split; [set_solver | done].
    + apply (seg_insert m m' e l xs ys l N P); try done; [by apply clist_nodup | set_solver].
    + apply others_kept_intro. intros x Hx. rewrite N, P.
      rewrite !decide_False by set_solver. done.
Qed.

Lemma insert_after_clist m l xs e :
  clist m l xs → is_Some (m !! e) → e ∉ l :: xs →
  ∃ m', ST_INSERT_AFTER e l m = (Ok tt, m') ∧ clist m' l (e :: xs) ∧ others_kept m m' (e :: l :: xs).
Proof.
  intros [Hnd Hs] [k He] Hin. pose proof (hd_in l xs) as Hh.
  destruct (insert_after_run e l (hd l xs) m) as (m' & E & N & P).
  - rewrite He. cbn. eauto.
  - by apply seg_next in Hs.
  - apply (seg_alloc _ _ _ _ Hs). set_solver.
  - set_solver.
  - set_solver.
  - exists m'. split; [done |]. split; [split |].
    + apply NoDup_cons in Hnd as [Hl1 Hnd]. repeat (apply NoDup_cons; split); set_solver.
    + apply (seg_insert m m' e l [] xs l N P); try done; [by apply clist_nodup | set_solver].
    + apply others_kept_intro. intros x Hx. rewrite N, P. rewrite !decide_False by set_solver. done.
Qed.

Lemma remove_clist m l xs ys e :
  clist m l (xs ++ e :: ys) →
  ∃ m', ST_REMOVE_LINK e m = (Ok tt, m') ∧ clist m' l (xs ++ ys) ∧
    others_kept m m' (l :: xs ++ ys) ∧ m' !! e = m !! e.
Proof.
  intros [Hnd Hs]. pose proof (hd_in l ys) as Hh. pose proof (last_in l xs) as Hl.
  pose proof Hnd as Hnd'. rewrite <- Permutation_middle, Permutation_swap in Hnd'.
  apply NoDup_cons in Hnd' as [He Hnd'].
  pose proof Hs as Hs'. apply seg_app in Hs' as [Hs1 Hs2].
  destruct (remove_run e (List.last xs l) (hd l ys) m) as (m' & E & N & P).
  - by apply seg_next in Hs2.
  - by apply seg_prev in Hs1.
  - apply (seg_alloc _ _ _ _ Hs). set_solver.
  - apply (seg_alloc _ _ _ _ Hs). set_solver.
  - set_solver.
  - set_solver.
  - exists m'. split; [done |]. split; [split; [done |] |].
    + apply (seg_remove m m' e l xs ys l N P); try done. by apply clist_nodup.
    + split.
      * apply others_kept_intro. intros x Hx. rewrite N, P. rewrite !decide_False by set_solver. done.
      * assert (next <$> m' !! e = next <$> m !! e) as HN by (rewrite N, decide_False by set_solver; done).
        assert (prev <$> m' !! e = prev <$> m !! e) as HP by (rewrite P, decide_False by set_solver; done).
        destruct (m' !! e) as [[]|], (m !! e) as [[]|]; cbn in *; congruence.
Qed.

Lemma init_clist m l : is_Some (m !! l) → ∃ m', ST_INIT_CLIST l m = (Ok tt, m') ∧ clist m' l [].
Proof.
  intros [k Hl]. unfold ST_INIT_CLIST.
  destruct (set_next_run l l m) as (m1 & E1 & N1 & P1); [rewrite Hl; cbn; eauto |].
  rewrite (bind_ok _ _ _ _ _ E1).
  destruct (set_prev_run l l m1) as (m2 & E2 & P2 & N2); [lnk |].
  exists m2. split; [done |]. split; [by apply NoDup_singleton |]. split; [rewrite N2 |]; lnk.
Qed.

Lemma is_empty_clist m l xs :
  clist m l xs → ST_CLIST_IS_EMPTY l m = (Ok (bool_decide (xs = [])), m).
Proof.
  intros [Hnd Hs]. unfold ST_CLIST_IS_EMPTY. apply seg_next in Hs.
  rewrite (bind_ok _ _ _ _ _ (get_next_run _ _ _ Hs)). unfold ret. do 2 f_equal.
  destruct xs as [| x xs]; cbn; [apply Z.eqb_refl |]. apply Z.eqb_neq.
  apply NoDup_cons in Hnd as [H _]. set_solver.
Qed.

(** Inserting a link member before any element of a circular list, or before its
    head (which appends it), inserts it at that place of the sequence the
    list stands for; no address outside the list is followed and the other lists
    of the store stay as they are. *)
Theorem clist_insert_before (m : store) (l e : Z) (xs ys : list Z) :
  clist m l (xs ++ ys) → is_Some (m !! e) → e ∉ l :: xs ++ ys →
  ∃ m', ST_INSERT_BEFORE e (hd l ys) m = (Ok tt, m') ∧ clist m' l (xs ++ e :: ys) ∧
    others_kept m m' (e :: l :: xs ++ ys).
Proof. apply insert_before_clist. Qed.

(** Removing an element of a circular list needs the element only: it is taken
    out of the sequence of the list it is on, the rest stays in order, and the
    other lists of the store stay as they are.  The removed member keeps its
    own pointers. *)
Theorem clist_remove_link (m : store) (l e : Z) (xs ys : list Z) :
  clist m l (xs ++ e :: ys) →
  ∃ m', ST_REMOVE_LINK e m = (Ok tt, m') ∧ clist m' l (xs ++ ys) ∧
    others_kept m m' (l :: xs ++ ys) ∧ m' !! e = m !! e.
Proof. apply remove_clist. Qed.

(** ** Witnesses: a queue of two threads, a third thread and an empty queue. *)
Definition links : store :=
  {[1 := Link 2 3; 2 := Link 3 1; 3 := Link 1 2; 4 := Link 0 0; 5 := Link 5 5]}.

Lemma links_clist : clist links 1 [2; 3] ∧ clist links 5 [].
Proof.
  split; (split; [| vm_compute; repeat split]).
  - apply (bool_decide_unpack _). by vm_compute.
  - apply NoDup_singleton.
Qed.

Lemma clist_insert_before_witness :
  ∃ m', ST_APPEND_LINK 4 1 links = (Ok tt, m') ∧ clist m' 1 [2; 3; 4] ∧ clist m' 5 [].
Proof.
  destruct (clist_insert_before links 1 4 [2; 3] []) as (m' & E & H & F);
    [apply links_clist | by eexists | apply (bool_decide_unpack _); by vm_compute |].
  exists m'. split; [exact E |]. split; [exact H |]. apply F; [apply links_clist |].
  intros x Hx. assert (x = 5) as -> by set_solver. apply (bool_decide_unpack _). by vm_compute.
Defined.

Lemma clist_remove_link_witness :
  ∃ m', ST_REMOVE_LINK 2 links = (Ok tt, m') ∧ clist m' 1 [3].
Proof.
  destruct (clist_remove_link links 1 2 [] [3]) as (m' & E & H & _); [apply links_clist |].
  exists m'. split; [exact E | exact H].
Defined.
