(* ===== verification/LruCache.v ===== *)
(** * extensions/lrucache.c: a cache with reference counts that evicts the least recently used entry

    The entries hang in the chains of a hash table, linked by [next] and, backwards, by [pthis], and those that
    nobody holds are on a circular list in the order of their last use.  An entry lives at an
    address; its [lru_link] is the link member at the same address in the store of Clist.v.
    Keys and data are the types that the caller's [void *] stand for. *)

From stdpp Require Import base list sets gmap.
From Stdlib Require Import Lia ZArith.
From S2P Require Import Prelude.
From S2P Require Import Bytes.
From S2P Require Import Clist.

Local Open Scope Z_scope.

(** The functions the caller gives to [stx_cache_create]. *)
Class KeyFns (key : Type) := {
  key_hash_fn : key → Z;
  key_cmp_fn : key → key → Z;
}.

(** They respect one equality of keys; a hash is an [unsigned long]. *)
Class KeyLaws (key : Type) `{KeyFns key} : Prop := {
  key_equivalence : Equivalence (λ k k', key_cmp_fn k k' = 0);
  key_hash_cmp k k' : key_cmp_fn k k' = 0 → key_hash_fn k = key_hash_fn k';
  key_hash_range k : 0 <= key_hash_fn k < 2 ^ 64;
}.

(** The macros of extensions/common.h are those of common.h. *)
Definition STX_CLIST_INSERT_BEFORE := ST_INSERT_BEFORE.
Definition STX_CLIST_APPEND_LINK := STX_CLIST_INSERT_BEFORE.
Definition STX_CLIST_REMOVE_LINK := ST_REMOVE_LINK.
Definition STX_CLIST_HEAD := get_next.
Definition STX_CLIST_IS_EMPTY := ST_CLIST_IS_EMPTY.
Definition STX_CLIST_INIT_CLIST := ST_INIT_CLIST.

(** What a [pthis] points at: an element of the table or the [next] of an entry. *)
Inductive slot := Table (i : nat) | Next (a : Z).

#[export] Instance slot_eq_dec : EqDecision slot.
Proof. solve_decision. Defined.

Section cache.
Context {key data : Type} `{!KeyFns key}.

(** NULL is 0. *)
Record stx_centry := Centry {
  e_key : key;
  e_data : data;
  e_weight : Z;
  e_next : Z;
  e_pthis : option slot;
  e_ref_count : Z;
  e_delete_pending : bool;
}.

Definition with_next v (e : stx_centry) := Centry (e_key e) (e_data e) (e_weight e) v (e_pthis e) (e_ref_count e) (e_delete_pending e).
Definition with_pthis v (e : stx_centry) := Centry (e_key e) (e_data e) (e_weight e) (e_next e) v (e_ref_count e) (e_delete_pending e).
Definition with_ref_count v (e : stx_centry) := Centry (e_key e) (e_data e) (e_weight e) (e_next e) (e_pthis e) v (e_delete_pending e).
Definition with_data v (e : stx_centry) := Centry (e_key e) v (e_weight e) (e_next e) (e_pthis e) (e_ref_count e) (e_delete_pending e).
Definition with_pending (e : stx_centry) := Centry (e_key e) (e_data e) (e_weight e) (e_next e) (e_pthis e) (e_ref_count e) true.

(** The counters; [cleanup]: whether there is a [cleanup_fn]. *)
Record stx_cache := Cache {
  max_size : Z;
  cur_size : Z;
  max_weight : Z;
  cur_weight : Z;
  hash_size : Z;
  hits : Z;
  lookups : Z;
  inserts : Z;
  deletes : Z;
  cleanup : bool;
}.

(** [lru_list]: the address of the list's head; [cleaned]: the calls of [cleanup_fn]. *)
Record mem := Mem {
  cache : stx_cache;
  table : list Z;
  lru_list : Z;
  entries : gmap Z stx_centry;
  links : gmap Z _st_clist_t;
  cleaned : list (key * data);
}.
Implicit Types (s : mem) (a b p w : Z) (e : stx_centry) (k : key).

Definition with_cache v s := Mem v (table s) (lru_list s) (entries s) (links s) (cleaned s).
Definition with_table v s := Mem (cache s) v (lru_list s) (entries s) (links s) (cleaned s).
Definition with_entries v s := Mem (cache s) (table s) (lru_list s) v (links s) (cleaned s).
Definition with_links v s := Mem (cache s) (table s) (lru_list s) (entries s) v (cleaned s).

(** [size_t] and [unsigned long] are 64 bits wide. *)
Definition u64 (n : Z) : Z := wrap 64 n.

Definition count_size (d w : Z) (c : stx_cache) : stx_cache :=
  Cache (max_size c) (u64 (cur_size c + d)) (max_weight c) (u64 (cur_weight c + w)) (hash_size c)
    (hits c) (lookups c) (inserts c) (deletes c) (cleanup c).
Definition count_stats (h l n d : Z) (c : stx_cache) : stx_cache :=
  Cache (max_size c) (cur_size c) (max_weight c) (cur_weight c) (hash_size c)
    (u64 (hits c + h)) (u64 (lookups c + l)) (u64 (inserts c + n)) (u64 (deletes c + d)) (cleanup c).
Definition on_cache (f : stx_cache → stx_cache) : M mem unit := modify (λ s, with_cache (f (cache s)) s).

(** An access to memory that was freed is undefined. *)
Definition the_entry a : M mem stx_centry := λ s,
  match entries s !! a with Some e => (Ok e, s) | None => (Undef, s) end.
Definition upd a (f : stx_centry → stx_centry) : M mem unit :=
  e <- the_entry a ;; modify (λ s, with_entries (<[a := f e]> (entries s)) s).

Definition on_links {A : Type} (c : M (gmap Z _st_clist_t) A) : M mem A := λ s,
  let '(o, l) := c (links s) in (o, with_links l s).

Definition read_table (i : nat) : M mem Z := λ s,
  match table s !! i with Some p => (Ok p, s) | None => (Undef, s) end.
Definition write_table (i : nat) p : M mem unit := λ s,
  match table s !! i with
  | Some _ => (Ok tt, with_table (<[i := p]> (table s)) s)
  | None => (Undef, s)
  end.

(** [*pthis = p] *)
Definition write (sl : slot) p : M mem unit :=
  match sl with Table i => write_table i p | Next a => upd a (with_next p) end.

(** ** Cache methods *)
(** [mem1], [mem2]: the addresses that the two [calloc]s return; the list's head is part of the cache. *)
Definition stx_cache_create (mem1 : option Z) (mem2 : bool) (max_size max_weight hash_size : Z) (cleanup : bool) : outcome mem :=
  match mem1 with
  | None => Fail
  | Some a =>
      if negb mem2 then Fail else
      let c := Cache max_size 0 max_weight 0 hash_size 0 0 0 0 cleanup in
      match STX_CLIST_INIT_CLIST a {[a := Link 0 0]} with
      | (Ok _, l) => Ok (Mem c (replicate (Z.to_nat hash_size) 0) a ∅ l [])
      | _ => Undef
      end
  end.

Definition stx_cache_getsize s : Z := cur_size (cache s).
Definition stx_cache_getweight s : Z := cur_weight (cache s).

(** ** Cache entry methods *)
(** [a]: the address that [calloc] returns. *)
Definition stx_cache_entry_create (a : option Z) k (d : data) w : M mem Z :=
  match a with
  | None => fail
  | Some a =>
      modify (λ s, with_links (<[a := Link 0 0]> (links s)) (with_entries (<[a := Centry k d w 0 None 0 false]> (entries s)) s)) ;;
      ret a
  end.

Definition clean_up e : M mem unit := λ s,
  (Ok tt, if cleanup (cache s)
    then Mem (cache s) (table s) (lru_list s) (entries s) (links s) (cleaned s ++ [(e_key e, e_data e)]) else s).

Definition free a : M mem unit :=
  modify (λ s, with_links (delete a (links s)) (with_entries (delete a (entries s)) s)).

(** [*entry->pthis = entry->next; if (entry->next) entry->next->pthis = entry->pthis;] *)
Definition unchain e (sl : slot) : M mem unit :=
  write sl (e_next e) ;;
  if e_next e =? 0 then ret tt else upd (e_next e) (with_pthis (Some sl)).

Definition stx_cache_entry_delete a : M mem unit :=
  upd a with_pending ;;
  e <- the_entry a ;;
  if 0 <? e_ref_count e then ret tt else
  match e_pthis e with
  | None => ret tt
  | Some sl =>
      unchain e sl ;;
      on_cache (count_size (-1) (- e_weight e)) ;;
      on_cache (count_stats 0 0 0 1) ;;
      on_links (STX_CLIST_REMOVE_LINK a)
  end ;;
  clean_up e ;;
  free a.

(** The loop over a chain that [stx_cache_entry_lookup] and [stx_cache_entry_insert] have. *)
Fixpoint find_entry (fuel : nat) p k : M mem (option Z) :=
  match fuel with
  | O => lift Hang
  | S fuel =>
      if p =? 0 then ret None else
      e <- the_entry p ;;
      if negb (e_delete_pending e) && (key_cmp_fn k (e_key e) =? 0) then ret (Some p)
      else find_entry fuel (e_next e) k
  end.

(** [key_hash_fn(key) % hash_size] *)
Definition bucket (n : Z) k : nat := Z.to_nat (key_hash_fn k mod n).
Definition bucket_of k : M mem nat := λ s,
  if hash_size (cache s) =? 0 then (Undef, s) else (Ok (bucket (hash_size (cache s)) k), s).

Definition find_in_table k : M mem (option Z) :=
  b <- bucket_of k ;;
  p <- read_table b ;;
  s <- gets id ;;
  find_entry (S (size (entries s))) p k.

Definition stx_cache_entry_lookup k : M mem (option Z) :=
  on_cache (count_stats 0 1 0 0) ;;
  r <- find_in_table k ;;
  match r with
  | None => ret None
  | Some a =>
      on_cache (count_stats 1 0 0 0) ;;
      e <- the_entry a ;;
      (if e_ref_count e =? 0 then on_links (STX_CLIST_REMOVE_LINK a) else ret tt) ;;
      upd a (λ e, with_ref_count (e_ref_count e + 1) e) ;;
      ret (Some a)
  end.

Definition stx_cache_entry_release a : M mem unit :=
  e <- the_entry a ;;
  if e_ref_count e =? 0 then ret tt else
  upd a (λ e, with_ref_count (e_ref_count e - 1) e) ;;
  e <- the_entry a ;;
  if e_ref_count e =? 0 then
    s <- gets id ;;
    on_links (STX_CLIST_APPEND_LINK a (lru_list s)) ;;
    if e_delete_pending e then stx_cache_entry_delete a else ret tt
  else ret tt.

Definition stx_cache_entry_getlru : M mem (option Z) :=
  s <- gets id ;;
  b <- on_links (STX_CLIST_IS_EMPTY (lru_list s)) ;;
  if b then ret None else
  a <- on_links (STX_CLIST_HEAD (lru_list s)) ;;
  ret (Some a).

(** [old_entry = getlru(); if (!old_entry) return -1; delete(old_entry);] *)
Definition evict_one : M mem unit :=
  a <- stx_cache_entry_getlru ;;
  match a with
  | None => fail
  | Some a => stx_cache_entry_delete a
  end.

Fixpoint evict (fuel : nat) w : M mem unit :=
  match fuel with
  | O => lift Hang
  | S fuel =>
      s <- gets id ;;
      if max_weight (cache s) <? u64 (cur_weight (cache s) + w) then evict_one ;; evict fuel w else ret tt
  end.

(** The entry [a] at the head of the chain [b]. *)
Definition chain_in a (b : nat) : M mem unit :=
  p <- read_table b ;;
  upd a (with_next p) ;;
  write_table b a ;;
  upd a (with_pthis (Some (Table b))) ;;
  if p =? 0 then ret tt else upd p (with_pthis (Some (Next a))).

Definition stx_cache_entry_insert a : M mem unit :=
  e <- the_entry a ;;
  s <- gets id ;;
  evict (S (size (entries s))) (e_weight e) ;;
  s <- gets id ;;
  (if max_size (cache s) <=? cur_size (cache s) then evict_one else ret tt) ;;
  b <- bucket_of (e_key e) ;;
  old <- find_in_table (e_key e) ;;
  match old with Some o => stx_cache_entry_delete o | None => ret tt end ;;
  chain_in a b ;;
  upd a (λ e, with_ref_count (e_ref_count e + 1) e) ;;
  on_cache (count_stats 0 0 1 0) ;;
  on_cache (count_size 1 (e_weight e)).

Definition stx_cache_entry_getdata a : M mem data := e <- the_entry a ;; ret (e_data e).
Definition stx_cache_entry_getkey a : M mem key := e <- the_entry a ;; ret (e_key e).
Definition stx_cache_entry_getweight a : M mem Z := e <- the_entry a ;; ret (e_weight e).

(** ** Traversals *)
(** [entry = cache->table[i]; while (entry) { next_entry = entry->next; f(entry); entry = next_entry; }] *)
Fixpoint over_chain (fuel : nat) (f : Z → M mem unit) p : M mem unit :=
  match fuel with
  | O => lift Hang
  | S fuel =>
      if p =? 0 then ret tt else
      e <- the_entry p ;;
      f p ;;
      over_chain fuel f (e_next e)
  end.

Definition over_table (f : Z → M mem unit) : M mem unit :=
  s <- gets id ;;
  for_each (λ i, p <- read_table i ;; over_chain (S (size (entries s))) f p)
    (seq 0 (Z.to_nat (hash_size (cache s)))).

Definition stx_cache_empty : M mem unit := over_table stx_cache_entry_delete.

(** The callbacks see key and data and do not change the cache: the calls are listed. *)
Fixpoint traverse_chain (fuel : nat) p : M mem (list (key * data)) :=
  match fuel with
  | O => lift Hang
  | S fuel =>
      if p =? 0 then ret [] else
      e <- the_entry p ;;
      l <- traverse_chain fuel (e_next e) ;;
      ret (if e_delete_pending e then l else (e_key e, e_data e) :: l)
  end.

Fixpoint traverse_table (idx : list nat) : M mem (list (key * data)) :=
  match idx with
  | [] => ret []
  | i :: idx =>
      s <- gets id ;;
      p <- read_table i ;;
      l <- traverse_chain (S (size (entries s))) p ;;
      l' <- traverse_table idx ;;
      ret (l ++ l')
  end.

Definition stx_cache_traverse : M mem (list (key * data)) :=
  s <- gets id ;; traverse_table (seq 0 (Z.to_nat (hash_size (cache s)))).

(** [step]: [q->next] or [q->prev] *)
Fixpoint traverse_list (step : Z → M (gmap Z _st_clist_t) Z) (n : nat) q : M mem (list (key * data)) :=
  match n with
  | O => ret []
  | S n =>
      s <- gets id ;;
      if q =? lru_list s then ret [] else
      e <- the_entry q ;;
      q <- on_links (step q) ;;
      l <- traverse_list step n q ;;
      ret ((e_key e, e_data e) :: l)
  end.

Definition stx_cache_traverse_lru (n : nat) : M mem (list (key * data)) :=
  s <- gets id ;; q <- on_links (get_next (lru_list s)) ;; traverse_list get_next n q.
Definition stx_cache_traverse_mru (n : nat) : M mem (list (key * data)) :=
  s <- gets id ;; q <- on_links (get_prev (lru_list s)) ;; traverse_list get_prev n q.

(** ** Chains *)
Definition slot_val s (sl : slot) : option Z :=
  match sl with Table i => table s !! i | Next a => e_next <$> entries s !! a end.
Definition pthis_of s a : option (option slot) := e_pthis <$> entries s !! a.

(** From [sl] the pointers lead through the entries [l], and each points back. *)
Fixpoint chain s (sl : slot) (l : list Z) : Prop :=
  match l with
  | [] => slot_val s sl = Some 0
  | a :: l => slot_val s sl = Some a ∧ a ≠ 0 ∧ pthis_of s a = Some (Some sl) ∧ chain s (Next a) l
  end.

Lemma chain_ext s s' sl l :
  slot_val s' sl = slot_val s sl →
  (∀ a, a ∈ l → slot_val s' (Next a) = slot_val s (Next a) ∧ pthis_of s' a = pthis_of s a) →
  chain s sl l → chain s' sl l.
Proof.
  revert sl. induction l as [| a l IH]; intros sl Hsl H; cbn [chain]; [by rewrite Hsl |].
  intros (H1 & H2 & H3 & H4). destruct (H a ltac:(left)) as [Ha Hp]. rewrite Hsl, Hp. split_and!; try done.
  apply IH; [done | | done]. intros b Hb. apply H. by right.
Qed.

(** The slot that points at what comes after [l]. *)
Fixpoint last_slot (sl : slot) (l : list Z) : slot :=
  match l with [] => sl | a :: l => last_slot (Next a) l end.

Lemma chain_app s sl l l' : chain s sl (l ++ l') ↔
  chain s (last_slot sl l) l' ∧ ∀ l1 a l2, l = l1 ++ a :: l2 →
    slot_val s (last_slot sl l1) = Some a ∧ a ≠ 0 ∧ pthis_of s a = Some (Some (last_slot sl l1)).
Proof.
  revert sl. induction l as [| b l IH]; intros sl; cbn [app chain].
  - split; [intros H; split; [done |]; by intros [] ? ? | by intros []].
  - rewrite IH. cbn [last_slot]. split.
    + intros (H1 & H2 & H3 & H4 & H5). split; [done |]. intros [| c l1] a l2 [= -> ->]; [done |]. by eapply H5.
    + intros [H1 H2]. destruct (H2 [] b l eq_refl) as (H3 & H4 & H5). split_and!; try done. intros l1 a l2 ->.
      exact (H2 (b :: l1) a l2 eq_refl).
Qed.

Lemma last_slot_in sl l : last_slot sl l = sl ∨ ∃ a, a ∈ l ∧ last_slot sl l = Next a.
Proof.
  revert sl. induction l as [| b l IH]; intros sl; [by left |]. right. cbn [last_slot].
  destruct (IH (Next b)) as [-> | (a & Ha & ->)]; [exists b; split; [left | done] | exists a; split; [by right | done]].
Qed.

(** Taking [a] out: only the slot before it and the [pthis] after it change. *)
Lemma chain_remove s s' i l1 a l2 :
  NoDup (l1 ++ a :: l2) → chain s (Table i) (l1 ++ a :: l2) →
  (∀ sl, sl ≠ Next a → slot_val s' sl = if decide (sl = last_slot (Table i) l1) then Some (hd 0 l2) else slot_val s sl) →
  (∀ b, b ≠ a → pthis_of s' b = if decide (b = hd 0 l2 ∧ l2 ≠ []) then Some (Some (last_slot (Table i) l1)) else pthis_of s b) →
  chain s' (Table i) (l1 ++ l2).
Proof.
  intros Hnd Hc Hs Hp. set (sla := last_slot (Table i) l1) in *.
  pose proof Hnd as (Hnd1 & Hdis & Hnd2)%NoDup_app. apply NoDup_cons in Hnd2 as [Ha2 Hnd2].
  apply chain_app in Hc as [(Hc1 & Ha0 & Hpa & Hc2) Hc3]. fold sla in Hc1, Hpa.
  assert (sla = Table i ∨ ∃ b, b ∈ l1 ∧ sla = Next b) as Hsla by apply last_slot_in.
  assert (sla ≠ Next a) as Hna.
  { destruct Hsla as [-> | (b & Hb & ->)]; [done |]. intros [= ->]. apply (Hdis a Hb). left. }
  assert (∀ b, b ∈ l2 → sla ≠ Next b) as Hn2.
  { intros b Hb. destruct Hsla as [-> | (c & Hc & ->)]; [done |]. intros [= ->]. apply (Hdis b Hc). by right. }
  apply chain_app. fold sla. split.
  - destruct l2 as [| b l2]; cbn [chain hd] in *.
    + rewrite Hs by done. by rewrite decide_True.
    + destruct Hc2 as (H1 & H2 & H3 & H4). apply NoDup_cons in Hnd2 as [Hb2 Hnd2].
      assert (b ≠ a) as Hba by (intros ->; apply Ha2; left).
      rewrite Hs by done. rewrite decide_True by done. rewrite Hp by done. rewrite decide_True by done.
      split_and!; try done. apply (chain_ext s); [| | done].
      * rewrite Hs by congruence. rewrite decide_False; [done |]. apply not_eq_sym, Hn2. left.
      * intros c Hc. assert (c ≠ a) by (intros ->; apply Ha2; by right). split.
        -- rewrite Hs by congruence. rewrite decide_False; [done |]. apply not_eq_sym, Hn2. by right.
        -- rewrite Hp by done. rewrite decide_False; [done |]. intros [-> _]. done.
  - intros l3 c l4 Hl1. destruct (Hc3 l3 c l4 Hl1) as (H1 & H2 & H3).
    assert (c ∈ l1) as Hcl by (rewrite Hl1; set_solver).
    assert (last_slot (Table i) l3 ≠ sla ∧ last_slot (Table i) l3 ≠ Next a) as [N1 N2].
    { split.
      - intros Heq. rewrite Heq, Hc1 in H1. injection H1 as ->. apply (Hdis c Hcl). left.
      - destruct (last_slot_in (Table i) l3) as [-> | (d & Hd & ->)]; [done |]. intros [= ->].
        apply (Hdis a); [rewrite Hl1; set_solver | left]. }
    rewrite Hs by done. rewrite decide_False by done. assert (c ≠ a) by (intros ->; apply (Hdis a Hcl); left).
    rewrite Hp by done. rewrite decide_False; [done |]. intros [-> Hne]. destruct l2 as [| d l2]; [done |].
    apply (Hdis d Hcl). right. left.
Qed.

(** Putting [a] at the head. *)
Lemma chain_insert s s' i a l :
  a ∉ l → a ≠ 0 → chain s (Table i) l →
  (∀ sl, slot_val s' sl = if decide (sl = Table i) then Some a else if decide (sl = Next a) then Some (hd 0 l) else slot_val s sl) →
  (∀ b, pthis_of s' b = if decide (b = a) then Some (Some (Table i)) else
     if decide (b = hd 0 l ∧ l ≠ []) then Some (Some (Next a)) else pthis_of s b) →
  NoDup l → chain s' (Table i) (a :: l).
Proof.
  intros Ha Ha0 Hc Hs Hp Hnd. cbn [chain]. rewrite (Hs (Table i)), decide_True by done.
  rewrite (Hp a), decide_True by done. split_and!; try done.
  destruct l as [| b l]; cbn [chain hd] in *.
  - rewrite Hs. by rewrite decide_False, decide_True.
  - destruct Hc as (H1 & H2 & H3 & H4). apply NoDup_cons in Hnd as [Hb Hnd]. apply not_elem_of_cons in Ha as [Hab Ha].
    rewrite Hs. rewrite decide_False, decide_True by done. rewrite Hp. rewrite decide_False, decide_True by done.
    split_and!; try done. apply (chain_ext s); [| | done].
    + rewrite Hs. by rewrite !decide_False by congruence.
    + intros c Hc. rewrite Hs, Hp. assert (c ≠ a ∧ c ≠ b) as [] by (split; intros ->; done).
      rewrite !decide_False by (congruence || naive_solver). done.
Qed.

(** ** What the cache promises *)
Record item := Item { i_key : key; i_data : data; i_weight : Z; i_refs : Z; i_pending : bool }.

(** [items]: the entries in the table; [loose]: those that were created and not inserted; [order]: the
    entries nobody holds, the one used longest ago first; [gone]: what was cleaned up. *)
Record lru := Lru {
  items : gmap Z item;
  loose : gmap Z item;
  order : list Z;
  gone : list (key * data);
  size_limit : Z;
  weight_limit : Z;
  cleans : bool;
}.
Implicit Types (A : lru) (x y : item).

Definition weight_of (m : gmap Z item) : Z := map_fold (λ _ x n, i_weight x + n) 0 m.

Definition set_refs n x : item := Item (i_key x) (i_data x) (i_weight x) n (i_pending x).
Definition set_pending x : item := Item (i_key x) (i_data x) (i_weight x) (i_refs x) true.

Definition with_items m A : lru := Lru m (loose A) (order A) (gone A) (size_limit A) (weight_limit A) (cleans A).
Definition with_order l A : lru := Lru (items A) (loose A) l (gone A) (size_limit A) (weight_limit A) (cleans A).

Definition log x A : list (key * data) := if cleans A then gone A ++ [(i_key x, i_data x)] else gone A.

(** The entry [a] in the table, with the item [x], is cleaned up. *)
Definition drop_item a x A : lru :=
  Lru (delete a (items A)) (loose A) (remove a (order A)) (log x A) (size_limit A) (weight_limit A) (cleans A).
Definition drop_loose a x A : lru :=
  Lru (items A) (delete a (loose A)) (order A) (log x A) (size_limit A) (weight_limit A) (cleans A).

Definition sp_create a k (d : data) w A : lru :=
  Lru (items A) (<[a := Item k d w 0 false]> (loose A)) (order A) (gone A) (size_limit A) (weight_limit A) (cleans A).

(** An entry that is held is only marked. *)
Definition sp_delete a A : lru :=
  match items A !! a, loose A !! a with
  | Some x, _ => if 0 <? i_refs x then with_items (<[a := set_pending x]> (items A)) A else drop_item a x A
  | None, Some x => drop_loose a x A
  | None, None => A
  end.

(** [k] is looked up: an entry with this key that is not marked. *)
Definition holds k A a : Prop := ∃ x, items A !! a = Some x ∧ i_pending x = false ∧ key_cmp_fn k (i_key x) = 0.
Definition answer k A (r : option Z) : Prop :=
  match r with Some a => holds k A a | None => ∀ a, ¬ holds k A a end.

Definition sp_pin a A : lru :=
  match items A !! a with
  | Some x => with_order (remove a (order A)) (with_items (<[a := set_refs (i_refs x + 1) x]> (items A)) A)
  | None => A
  end.

(** The last holder makes it the most recently used entry, or cleans it up if it is marked. *)
Definition sp_release a A : lru :=
  match items A !! a with
  | Some x =>
      if i_refs x =? 0 then A else
      let x' := set_refs (i_refs x - 1) x in
      let A' := with_items (<[a := x']> (items A)) A in
      if i_refs x =? 1 then if i_pending x then drop_item a x' A' else with_order (order A ++ [a]) A' else A'
  | None => A
  end.

Definition sp_evict a A : lru := match items A !! a with Some x => drop_item a x A | None => A end.

(** Entries are evicted in the order of their last use, as few as needed. *)
Fixpoint sp_make_room (l : list Z) w A : bool * lru :=
  if weight_of (items A) + w <=? weight_limit A then (true, A) else
  match l with
  | [] => (false, A)
  | a :: l => sp_make_room l w (sp_evict a A)
  end.

Definition sp_make_place A : bool * lru :=
  if Z.of_nat (size (items A)) <? size_limit A then (true, A) else
  match order A with
  | [] => (false, A)
  | a :: _ => (true, sp_evict a A)
  end.

(** The entry [a] goes from [loose] to the table, held by the caller. *)
Definition sp_add a x A : lru :=
  Lru (<[a := set_refs 1 x]> (items A)) (delete a (loose A)) (order A) (gone A) (size_limit A) (weight_limit A) (cleans A).

(** [old]: the entry that the key had in the cache that is left after making room. *)
Definition sp_room w A : bool * lru :=
  let '(ok, A1) := sp_make_room (order A) w A in if ok then sp_make_place A1 else (false, A1).
Definition sp_insert a x (old : option Z) A : lru :=
  sp_add a x (match old with Some o => sp_delete o A | None => A end).

(** Facts about the contents alone. *)
Record valid A : Prop := {
  va_order a : a ∈ order A ↔ ∃ x, items A !! a = Some x ∧ i_refs x = 0;
  va_nodup : NoDup (order A);
  va_refs a x : items A !! a = Some x → 0 <= i_refs x ∧ 0 <= i_weight x ∧ (i_pending x = true → 0 < i_refs x);
  va_loose a x : loose A !! a = Some x → items A !! a = None ∧ i_refs x = 0 ∧ 0 <= i_weight x ∧ i_pending x = false;
  va_unique a b x y : items A !! a = Some x → items A !! b = Some y → i_pending x = false → i_pending y = false →
    key_cmp_fn (i_key x) (i_key y) = 0 → a = b;
  va_size : Z.of_nat (size (items A)) <= size_limit A < 2 ^ 64;
  va_weight : weight_of (items A) <= weight_limit A < 2 ^ 64;
}.

Lemma weight_of_delete m a x : m !! a = Some x → weight_of m = i_weight x + weight_of (delete a m).
Proof. intros Ha. unfold weight_of. rewrite (map_fold_delete_L _ _ a x m); [done | | done]. intros; lia. Qed.

Lemma weight_of_insert m a x : m !! a = None → weight_of (<[a := x]> m) = i_weight x + weight_of m.
Proof. intros Ha. unfold weight_of. rewrite map_fold_insert_L; [done | | done]. intros; lia. Qed.

Lemma weight_of_same m a x y : m !! a = Some x → i_weight y = i_weight x → weight_of (<[a := y]> m) = weight_of m.
Proof.
  intros Ha Hw. rewrite (weight_of_delete m a x Ha), (weight_of_delete (<[a := y]> m) a y) by apply lookup_insert_eq.
  by rewrite delete_insert_eq, Hw.
Qed.

Lemma size_delete_item (m : gmap Z item) a x : m !! a = Some x → Z.of_nat (size (delete a m)) = Z.of_nat (size m) - 1.
Proof.
  intros Ha. rewrite map_size_delete, Ha. cbn. assert (size m ≠ 0%nat); [| lia].
  intros H0%map_size_empty_inv. by rewrite H0 in Ha.
Qed.

Lemma weight_of_nonneg m : (∀ a x, m !! a = Some x → 0 <= i_weight x) → 0 <= weight_of m.
Proof.
  induction m as [| a x m Ha IH] using map_ind; [done |]. intros H. rewrite weight_of_insert by done.
  pose proof (H a x ltac:(by rewrite lookup_insert_eq)). enough (0 <= weight_of m) by lia.
  apply IH. intros b y Hb. apply (H b). rewrite lookup_insert_ne; [done |]. by intros ->; congruence.
Qed.

(** ** The specification keeps its invariant *)
Lemma valid_drop a x A : valid A → items A !! a = Some x → valid (drop_item a x A).
Proof.
  intros [V1 V2 V3 V4 V5 V6 V7] Ha. pose proof (V3 a x Ha) as (_ & Hw & _).
  assert (∀ b y, delete a (items A) !! b = Some y → b ≠ a ∧ items A !! b = Some y) as Hd.
  { intros b y [Hb Hy]%lookup_delete_Some. by split. }
  split; cbn.
  - intros b. rewrite elem_of_remove, V1. split.
    + intros [(y & Hy & Hr) Hb]. exists y. by rewrite lookup_delete_ne.
    + intros (y & [Hb Hy]%Hd & Hr). split; [by exists y | done].
  - by apply NoDup_remove.
  - intros b y [Hb Hy]%Hd. by apply (V3 b).
  - intros b y Hy. destruct (V4 b y Hy) as (Hn & Hr). split; [| done]. apply lookup_delete_None. by right.
  - intros b c y z [Hb Hy]%Hd [Hc Hz]%Hd. by apply V5.
  - rewrite (size_delete_item _ _ _ Ha). lia.
  - rewrite (weight_of_delete _ _ _ Ha) in V7. lia.
Qed.

Lemma valid_drop_loose a x A : valid A → valid (drop_loose a x A).
Proof. intros [V1 V2 V3 V4 V5 V6 V7]. split; try done. cbn. intros b y [_ Hy]%lookup_delete_Some. by apply V4. Qed.

Lemma valid_create a k d w A : valid A → items A !! a = None → 0 <= w → valid (sp_create a k d w A).
Proof.
  intros [V1 V2 V3 V4 V5 V6 V7] Ha Hw. split; try done. cbn. intros b y.
  destruct (decide (b = a)) as [-> |]; [rewrite lookup_insert_eq; by intros [= <-] |].
  rewrite lookup_insert_ne by done. apply V4.
Qed.

(** The item of [a] becomes [y]. *)
Lemma valid_set a x y l A :
  valid A → items A !! a = Some x → i_key y = i_key x → i_weight y = i_weight x →
  (i_pending y = false → i_pending x = false) → 0 <= i_refs y → (i_pending y = true → 0 < i_refs y) →
  NoDup l → (a ∈ l ↔ i_refs y = 0) → (∀ b, b ≠ a → b ∈ l ↔ b ∈ order A) →
  valid (with_order l (with_items (<[a := y]> (items A)) A)).
Proof.
  intros [V1 V2 V3 V4 V5 V6 V7] Ha Hk Hw Hp Hr Hpr Hnd Hl Hb.
  assert (∀ b z, <[a := y]> (items A) !! b = Some z → b = a ∧ z = y ∨ b ≠ a ∧ items A !! b = Some z) as Hi.
  { intros b z. destruct (decide (b = a)) as [-> |]; [rewrite lookup_insert_eq; intros [= ->]; by left |].
    rewrite lookup_insert_ne by done. by right. }
  assert (∀ b z, <[a := y]> (items A) !! b = Some z → i_pending z = false →
    ∃ z', items A !! b = Some z' ∧ i_pending z' = false ∧ i_key z' = i_key z) as Hf.
  { intros b z Hz Hpz. destruct (Hi b z Hz) as [[-> ->] | [? ?]]; [exists x; split; [done | by auto] | by exists z]. }
  split; cbn.
  - intros b. destruct (decide (b = a)) as [-> | Hne].
    + rewrite lookup_insert_eq, Hl. split; [by exists y | by intros (z & [= <-] & Hz)].
    + by rewrite (Hb b Hne), lookup_insert_ne, V1.
  - done.
  - intros b z Hz. destruct (Hi b z Hz) as [[-> ->] | [_ Hz']]; [| by apply (V3 b)].
    destruct (V3 a x Ha) as (_ & Hwx & _). split; [done |]. split; [lia | done].
  - intros b z Hz. destruct (V4 b z Hz) as (Hn & ?). split; [| done]. rewrite lookup_insert_ne; [done |]. by intros ->; congruence.
  - intros b c z z' Hz Hz' Hpz Hpz' Hcmp. destruct (Hf b z Hz Hpz) as (u & Hu & Hpu & Ek), (Hf c z' Hz' Hpz') as (u' & Hu' & Hpu' & Ek').
    apply (V5 b c u u'); try done. by rewrite Ek, Ek'.
  - rewrite map_size_insert_Some by (by eexists). done.
  - rewrite (weight_of_same _ _ x) by done. done.
Qed.

Lemma with_order_id A : with_order (order A) A = A.
Proof. by destruct A. Qed.

Lemma with_items_order m A : with_order (order A) (with_items m A) = with_items m A.
Proof. by destruct A. Qed.

Lemma valid_delete a A : valid A → valid (sp_delete a A).
Proof.
  intros HA. unfold sp_delete. destruct (items A !! a) as [x |] eqn:Ha.
  - destruct (Z.ltb_spec 0 (i_refs x)); [| by apply valid_drop].
    rewrite <- with_items_order. apply (valid_set a x); try done; cbn; [lia | apply HA |]. rewrite (va_order _ HA). split; [| lia].
    intros (y & Hy & Hr). by simplify_eq.
  - destruct (loose A !! a); [by apply valid_drop_loose | done].
Qed.

Lemma valid_pin a A : valid A → valid (sp_pin a A).
Proof.
  intros HA. unfold sp_pin. destruct (items A !! a) as [x |] eqn:Ha; [| done].
  destruct (va_refs _ HA a x Ha) as (Hr & _). apply (valid_set a x); try done; cbn; try lia.
  - apply NoDup_remove, HA.
  - rewrite elem_of_remove. split; [by intros [_ []] | lia].
  - intros b Hb. rewrite elem_of_remove. tauto.
Qed.

Lemma drop_set a x y A : i_key y = i_key x → i_data y = i_data x →
  drop_item a y (with_items (<[a := y]> (items A)) A) = drop_item a x A.
Proof. intros Hk Hd. unfold drop_item, log. cbn. by rewrite delete_insert_eq, Hk, Hd. Qed.

Lemma valid_release a A : valid A → valid (sp_release a A).
Proof.
  intros HA. unfold sp_release. destruct (items A !! a) as [x |] eqn:Ha; [| done].
  destruct (va_refs _ HA a x Ha) as (Hr & _ & Hp). destruct (Z.eqb_spec (i_refs x) 0) as [| H0]; [done |].
  assert (a ∉ order A) as Hn by (rewrite (va_order _ HA); intros (y & Hy & Hz); by simplify_eq).
  destruct (Z.eqb_spec (i_refs x) 1) as [H1 | H1].
  - destruct (i_pending x) eqn:Epx; [rewrite (drop_set _ x) by done; by apply valid_drop |].
    apply (valid_set a x); try done; cbn; try lia; [congruence | | |].
    + apply NoDup_app. split; [apply HA |]. split; [| apply NoDup_singleton]. intros b Hb ->%list_elem_of_singleton. done.
    + split; [lia |]. intros _. apply elem_of_app. right. by left.
    + intros b Hb. rewrite elem_of_app, list_elem_of_singleton. tauto.
  - rewrite <- with_items_order. apply (valid_set a x); try done; cbn; [lia | lia | apply HA |]. split; [done | lia].
Qed.

Lemma valid_evict a A : valid A → valid (sp_evict a A).
Proof. intros HA. unfold sp_evict. destruct (items A !! a) as [x |] eqn:Ha; [by apply valid_drop | done]. Qed.

Lemma valid_make_room l w A : valid A → valid (sp_make_room l w A).2.
Proof.
  revert A. induction l as [| a l IH]; intros A HA; cbn; destruct (_ <=? _); try done. by apply IH, valid_evict.
Qed.

Lemma valid_make_place A : valid A → valid (sp_make_place A).2.
Proof.
  intros HA. unfold sp_make_place. destruct (_ <? _); [done |]. destruct (order A); [done | by apply valid_evict].
Qed.

Lemma valid_add a x A :
  valid A → loose A !! a = Some x → (∀ b, ¬ holds (i_key x) A b) → KeyLaws key → Z.of_nat (size (items A)) < size_limit A →
  weight_of (items A) + i_weight x <= weight_limit A → valid (sp_add a x A).
Proof.
  intros [V1 V2 V3 V4 V5 V6 V7] Ha Hnew HK Hs Hw. pose proof key_equivalence as HE. destruct (V4 a x Ha) as (Hn & Hr & Hwx & Hp).
  assert (∀ b y, <[a := set_refs 1 x]> (items A) !! b = Some y → b = a ∧ y = set_refs 1 x ∨ b ≠ a ∧ items A !! b = Some y) as Hi.
  { intros b y. destruct (decide (b = a)) as [-> |]; [rewrite lookup_insert_eq; intros [= ->]; by left |].
    rewrite lookup_insert_ne by done. by right. }
  split; cbn.
  - intros b. rewrite V1. destruct (decide (b = a)) as [-> | Hb]; [| by rewrite lookup_insert_ne].
    rewrite lookup_insert_eq, Hn. split; [by intros (y & [=] & _) | by intros (y & [= <-] & [=])].
  - done.
  - intros b y Hy. destruct (Hi b y Hy) as [[-> ->] | [_ Hy']]; [| by apply (V3 b)]. cbn. lia.
  - intros b y [Hb Hy]%lookup_delete_Some. destruct (V4 b y Hy) as (Hnb & ?). split; [| done]. by rewrite lookup_insert_ne.
  - intros b c y z Hy Hz Hpy Hpz Hcmp. destruct (Hi b y Hy) as [[-> ->] | [Nb Hy']], (Hi c z Hz) as [[-> ->] | [Nc Hz']]; [done | | |].
    + exfalso. apply (Hnew c). by exists z.
    + exfalso. apply (Hnew b). exists y. split; [done |]. split; [done |]. by apply (symmetry (R := λ k k', key_cmp_fn k k' = 0)).
    + by apply (V5 b c y z).
  - rewrite map_size_insert_None by done. lia.
  - rewrite weight_of_insert by done. cbn. lia.
Qed.
End cache.
