(* ===== verification/LruRefine.v ===== *)
(** * extensions/lrucache.c implements the cache that LruCache.v specifies

    [shape s A]: the hash table, the chains and the list of free entries in [s] are a
    representation of [A].  Every operation keeps it, with the operation of the specification. *)

From stdpp Require Import base list sets gmap.
From Stdlib Require Import Lia ZArith.
From S2P Require Import Prelude.
From S2P Require Import Bytes.
From S2P Require Import Clist.
From S2P Require Import LruCache.

Local Open Scope Z_scope.

Section refine.
Context {key data : Type} `{!KeyFns key}.
Notation mem := (@mem key data).
Notation stx_centry := (@stx_centry key data).
Notation item := (@item key data).
Notation lru := (@lru key data).
Implicit Types (s : mem) (a b p w : Z) (e : stx_centry) (k : key) (A : lru) (sl : slot).

Definition item_of e : item := Item (e_key e) (e_data e) (e_weight e) (e_ref_count e) (e_delete_pending e).

(** An entry as the specification sees it, and whether it is in the table. *)
Definition view s a : option (item * bool) := (λ e, (item_of e, bool_decide (e_pthis e ≠ None))) <$> entries s !! a.
Definition look A a : option (item * bool) :=
  match items A !! a with Some x => Some (x, true) | None => (λ x, (x, false)) <$> loose A !! a end.

Definition bucket_in s (x : item) : nat := bucket (hash_size (cache s)) (i_key x).

(** Every chain of the table holds the entries whose key belongs there. *)
Definition chained s (m : gmap Z item) : Prop :=
  ∀ i, (i < length (table s))%nat → ∃ l, NoDup l ∧ chain s (Table i) l ∧
    ∀ a, a ∈ l ↔ ∃ x, m !! a = Some x ∧ bucket_in s x = i.

Definition counted s A : Prop :=
  cur_size (cache s) = Z.of_nat (size (items A)) ∧ cur_weight (cache s) = weight_of (items A) ∧
  max_size (cache s) = size_limit A ∧ max_weight (cache s) = weight_limit A ∧ cleanup (cache s) = cleans A ∧
  cleaned s = gone A.

Record shape s A : Prop := {
  sh_hash : 0 < hash_size (cache s) ∧ length (table s) = Z.to_nat (hash_size (cache s));
  sh_chained : chained s (items A);
  sh_view a : view s a = look A a;
  sh_alloc a : is_Some (entries s !! a) → a ≠ 0 ∧ a ≠ lru_list s ∧ is_Some (links s !! a);
  sh_clist : clist (links s) (lru_list s) (order A);
  sh_counted : counted s A;
}.

(** ** Lookups *)
Lemma sh_item s A a x : shape s A → items A !! a = Some x →
  ∃ e, entries s !! a = Some e ∧ item_of e = x ∧ e_pthis e ≠ None.
Proof.
  intros Hs Ha. pose proof (sh_view _ _ Hs a) as Hv. unfold view, look in Hv. rewrite Ha in Hv.
  destruct (entries s !! a) as [e |]; [| done]. cbn in Hv. injection Hv as He Hb. apply bool_decide_eq_true in Hb. by exists e.
Qed.

Lemma sh_loose s A a x : shape s A → items A !! a = None → loose A !! a = Some x →
  ∃ e, entries s !! a = Some e ∧ item_of e = x ∧ e_pthis e = None.
Proof.
  intros Hs Ha Hl. pose proof (sh_view _ _ Hs a) as Hv. unfold view, look in Hv. rewrite Ha, Hl in Hv.
  destruct (entries s !! a) as [e |]; [| done]. cbn in Hv. injection Hv as He Hb. apply bool_decide_eq_false in Hb.
  exists e. split; [done |]. split; [done |]. by apply dec_stable.
Qed.

Lemma the_entry_ok a e s : entries s !! a = Some e → the_entry a s = (Ok e, s).
Proof. unfold the_entry. by intros ->. Qed.

Lemma upd_ok a f e s : entries s !! a = Some e → upd a f s = (Ok tt, with_entries (<[a := f e]> (entries s)) s).
Proof. intros Ha. unfold upd. by rewrite (bind_ok _ _ _ _ _ (the_entry_ok _ _ _ Ha)). Qed.

Lemma bucket_range n k : 0 < n → (bucket n k < Z.to_nat n)%nat.
Proof. intros Hn. unfold bucket. pose proof (Z.mod_pos_bound (key_hash_fn k) n Hn). lia. Qed.

(** ** Assignments to slots *)
(** What changing links of the table leaves alone. *)
Definition same_rest s s' : Prop :=
  cache s' = cache s ∧ lru_list s' = lru_list s ∧ links s' = links s ∧ cleaned s' = cleaned s ∧
  length (table s') = length (table s) ∧ ∀ a, view s' a = view s a.

#[export] Instance same_rest_preorder : PreOrder same_rest.
Proof. split; [done |]. intros s1 s2 s3 (?&?&?&?&?&?) (?&?&?&?&?&?). split_and!; congruence. Qed.

Lemma write_ok sl v s :
  is_Some (slot_val s sl) →
  ∃ s', write sl v s = (Ok tt, s') ∧ same_rest s s' ∧
    (∀ sl', slot_val s' sl' = if decide (sl' = sl) then Some v else slot_val s sl') ∧ ∀ a, pthis_of s' a = pthis_of s a.
Proof.
  intros [u Hu]. destruct sl as [i | b]; cbn [slot_val write] in *.
  - unfold write_table. rewrite Hu. eexists. split; [done |]. split; [| split; [| done]].
    + split_and!; try done. cbn. by rewrite length_insert.
    + intros [j | a]; cbn; [| done]. destruct (decide (j = i)) as [-> |].
      * rewrite decide_True by done. rewrite list_lookup_insert_eq; [done |]. by eapply lookup_lt_Some.
      * rewrite decide_False by congruence. by rewrite list_lookup_insert_ne.
  - apply fmap_Some in Hu as (e & He & ->). rewrite (upd_ok _ _ e) by done. eexists. split; [done |].
    split; [| split].
    + split_and!; try done. intros a. unfold view. cbn. destruct (decide (a = b)) as [-> |].
      * by rewrite lookup_insert_eq, He.
      * by rewrite lookup_insert_ne.
    + intros [j | a]; cbn; [done |]. destruct (decide (a = b)) as [-> |].
      * rewrite decide_True by done. by rewrite lookup_insert_eq.
      * rewrite decide_False by congruence. by rewrite lookup_insert_ne.
    + intros a. unfold pthis_of. cbn. destruct (decide (a = b)) as [-> |].
      * by rewrite lookup_insert_eq, He.
      * by rewrite lookup_insert_ne.
Qed.

Lemma set_pthis_ok a sl s :
  (∃ e, entries s !! a = Some e ∧ e_pthis e ≠ None) →
  ∃ s', upd a (with_pthis (Some sl)) s = (Ok tt, s') ∧ same_rest s s' ∧ (∀ sl', slot_val s' sl' = slot_val s sl') ∧
    ∀ b, pthis_of s' b = if decide (b = a) then Some (Some sl) else pthis_of s b.
Proof.
  intros (e & He & Hp). rewrite (upd_ok _ _ e) by done. eexists. split; [done |]. split; [| split].
  - split_and!; try done. intros b. unfold view. cbn. destruct (decide (b = a)) as [-> |].
    + rewrite lookup_insert_eq, He. cbn. by rewrite !bool_decide_true.
    + by rewrite lookup_insert_ne.
  - intros [j | b]; cbn; [done |]. destruct (decide (b = a)) as [-> |]; [by rewrite lookup_insert_eq, He | by rewrite lookup_insert_ne].
  - intros b. unfold pthis_of. cbn. destruct (decide (b = a)) as [-> |]; [by rewrite lookup_insert_eq | by rewrite lookup_insert_ne].
Qed.

Lemma same_rest_pthis s s' a : same_rest s s' →
  (∃ e, entries s !! a = Some e ∧ e_pthis e ≠ None) → ∃ e, entries s' !! a = Some e ∧ e_pthis e ≠ None.
Proof.
  intros (_&_&_&_&_&Hv) (e & He & Hp). specialize (Hv a). unfold view in Hv. rewrite He in Hv.
  destruct (entries s' !! a) as [e' |]; [| done]. apply (f_equal (fmap snd)) in Hv. cbn -[bool_decide] in Hv. injection Hv as Hb. exists e'. split; [done |].
  by rewrite (bool_decide_eq_true_2 _ Hp), bool_decide_eq_true in Hb.
Qed.

(** ** Chains of a table *)
Lemma chained_ext s s' m :
  length (table s') = length (table s) → hash_size (cache s') = hash_size (cache s) →
  (∀ i, slot_val s' (Table i) = slot_val s (Table i)) →
  (∀ a, is_Some (m !! a) → slot_val s' (Next a) = slot_val s (Next a) ∧ pthis_of s' a = pthis_of s a) →
  chained s m → chained s' m.
Proof.
  intros Hl Hh Ht Ha Hc i Hi. rewrite Hl in Hi. destruct (Hc i Hi) as (l & Hnd & Hch & Hin). exists l. split; [done |].
  unfold bucket_in. rewrite Hh. split; [| exact Hin]. apply (chain_ext s); [done | | done].
  intros b Hb. apply Ha. apply Hin in Hb as (x & Hx & _). by exists x.
Qed.

(** The entry's chain around it. *)
Lemma chain_around s A a x e :
  shape s A → items A !! a = Some x → entries s !! a = Some e →
  ∃ l1 l2, let i := bucket_in s x in (i < length (table s))%nat ∧ NoDup (l1 ++ a :: l2) ∧ chain s (Table i) (l1 ++ a :: l2) ∧
    (∀ b, b ∈ l1 ++ a :: l2 ↔ ∃ y, items A !! b = Some y ∧ bucket_in s y = i) ∧
    e_pthis e = Some (last_slot (Table i) l1) ∧ e_next e = hd 0 l2 ∧ is_Some (slot_val s (last_slot (Table i) l1)).
Proof.
  intros Hs Ha He. destruct (sh_hash _ _ Hs) as [Hh Hlen].
  assert (bucket_in s x < length (table s))%nat as Hi by (rewrite Hlen; by apply bucket_range).
  destruct (sh_chained _ _ Hs _ Hi) as (l & Hnd & Hch & Hin).
  assert (a ∈ l) as Hal by (apply Hin; by exists x). apply list_elem_of_split in Hal as (l1 & l2 & ->).
  exists l1, l2. split; [done |]. split; [done |]. split; [done |]. split; [done |].
  apply chain_app in Hch as [(H1 & _ & H2 & H3) _]. unfold pthis_of in H2. rewrite He in H2. cbn in H2. injection H2 as H2.
  split; [done |]. split; [| by eexists]. destruct l2 as [| b l2]; cbn in H3; rewrite He in H3; cbn in H3.
  - by injection H3.
  - destruct H3 as (H3 & _). by injection H3.
Qed.

(** The first entry of [l], if there is one, is told which slot points to it. *)
Lemma fix_head_ok l sl s :
  (∀ b, head l = Some b → b ≠ 0 ∧ ∃ e, entries s !! b = Some e ∧ e_pthis e ≠ None) →
  ∃ s', (if hd 0 l =? 0 then ret tt else upd (hd 0 l) (with_pthis (Some sl))) s = (Ok tt, s') ∧ same_rest s s' ∧
    (∀ sl', slot_val s' sl' = slot_val s sl') ∧
    ∀ b, pthis_of s' b = if decide (b = hd 0 l ∧ l ≠ []) then Some (Some sl) else pthis_of s b.
Proof.
  intros Hl. destruct l as [| b l]; cbn [hd].
  - exists s. split; [done |]. split; [done |]. split; [done |]. intros b. rewrite decide_False by naive_solver. done.
  - destruct (Hl b eq_refl) as [Hb0 He]. rewrite (proj2 (Z.eqb_neq b 0) Hb0).
    destruct (set_pthis_ok b sl s He) as (s' & E & R & V & P). exists s'. split; [exact E |]. split; [done |]. split; [done |].
    intros c. rewrite P. destruct (decide (c = b)) as [-> |]; [by rewrite decide_True | by rewrite (decide_False (P := c = b ∧ _)) by naive_solver].
Qed.

(** What [unchain] does to the slots and the back pointers. *)
Lemma unchain_slots s A a e sl (l1 l2 : list Z) i :
  shape s A → NoDup (l1 ++ a :: l2) → chain s (Table i) (l1 ++ a :: l2) → (∀ b, b ∈ l2 → is_Some (items A !! b)) →
  sl = last_slot (Table i) l1 → e_next e = hd 0 l2 → is_Some (slot_val s sl) →
  ∃ s', unchain e sl s = (Ok tt, s') ∧ same_rest s s' ∧
    (∀ sl', slot_val s' sl' = if decide (sl' = sl) then Some (hd 0 l2) else slot_val s sl') ∧
    ∀ b, pthis_of s' b = if decide (b = hd 0 l2 ∧ l2 ≠ []) then Some (Some sl) else pthis_of s b.
Proof.
  intros Hs Hnd Hch Hin Hsl Hn Hsome. destruct (write_ok _ (e_next e) s Hsome) as (s1 & E1 & R1 & V1 & P1).
  unfold unchain. rewrite (bind_ok _ _ _ _ _ E1), Hn in *.
  destruct (fix_head_ok l2 sl s1) as (s' & E2 & R2 & V2 & P2).
  - intros b Hb. destruct l2 as [| c l2]; [done |]. injection Hb as ->. split.
    + by apply chain_app in Hch as [(_ & _ & _ & _ & ? & _) _].
    + apply (same_rest_pthis s); [done |]. destruct (Hin b) as [y Hy]; [left |].
      destruct (sh_item s A b y Hs Hy) as (eb & Heb & _ & Hpb). by exists eb.
  - exists s'. split; [exact E2 |]. split; [by etrans |].
    split; [intros sl'; by rewrite V2, V1 | intros b; by rewrite P2, P1].
Qed.

(** A chain other than [i]: none of its slots is one that the chain [l] of [i] has. *)
Lemma other_chain s A i j (l l' l1 l2 : list Z) :
  j ≠ i → l = l1 ++ l2 →
  (∀ b, b ∈ l ↔ ∃ y, items A !! b = Some y ∧ bucket_in s y = i) →
  (∀ b, b ∈ l' ↔ ∃ y, items A !! b = Some y ∧ bucket_in s y = j) →
  (∀ b, b ∈ l' → b ∉ l) ∧ Table j ≠ last_slot (Table i) l1 ∧ ∀ b, b ∈ l' → Next b ≠ last_slot (Table i) l1.
Proof.
  intros Hji -> Hin Hin'. assert (∀ b, b ∈ l' → b ∉ l1 ++ l2) as Hdis.
  { intros b (y & Hy & Hyj)%Hin' (y' & Hy' & Hyi)%Hin. simplify_eq. }
  split; [done |]. destruct (last_slot_in (Table i) l1) as [-> | (c & Hc & ->)]; [split; [congruence | done] |].
  split; [done |]. intros b Hb [= ->]. apply (Hdis c Hb), elem_of_app. by left.
Qed.

Lemma in_without a (l1 l2 : list Z) b : NoDup (l1 ++ a :: l2) → b ∈ l1 ++ l2 ↔ b ≠ a ∧ b ∈ l1 ++ a :: l2.
Proof.
  intros (_ & Hd & [Ha _]%NoDup_cons)%NoDup_app. rewrite !elem_of_app, elem_of_cons.
  specialize (Hd b). rewrite elem_of_cons in Hd. split; [| naive_solver].
  intros Hb. split; [| tauto]. intros ->. destruct Hb; tauto.
Qed.

Lemma NoDup_without a (l1 l2 : list Z) : NoDup (l1 ++ a :: l2) → NoDup (l1 ++ l2).
Proof.
  intros (N1 & N2 & [_ N3]%NoDup_cons)%NoDup_app. apply NoDup_app. split; [done |]. split; [| done].
  intros b Hb Hb2. apply (N2 b Hb). by right.
Qed.

(** Taking an entry out of its chain. *)
Lemma unchain_ok s A a x e sl :
  shape s A → items A !! a = Some x → entries s !! a = Some e → e_pthis e = Some sl →
  ∃ s', unchain e sl s = (Ok tt, s') ∧ same_rest s s' ∧ chained s' (delete a (items A)).
Proof.
  intros Hs Ha He Hsl. destruct (chain_around s A a x e Hs Ha He) as (l1 & l2 & Hi & Hnd & Hch & Hin & Hp & Hn & Hsome).
  set (i := bucket_in s x) in *. rewrite Hsl in Hp. injection Hp as ->.
  destruct (unchain_slots s A a e (last_slot (Table i) l1) l1 l2 i Hs Hnd Hch) as (s' & E & R & V & P); try done.
  { intros b Hb. destruct (proj1 (Hin b)) as (y & Hy & _); [set_solver | by exists y]. }
  exists s'. split; [exact E |]. split; [exact R |]. destruct R as (Rc & _ & _ & _ & Rl & _).
  intros j Hj. rewrite Rl in Hj. destruct (decide (j = i)) as [-> | Hji].
  - exists (l1 ++ l2). split; [by eapply NoDup_without |]. split.
    + apply (chain_remove s s' i l1 a l2); try done; intros; by rewrite ?V, ?P.
    + intros b. rewrite (in_without a), Hin by done. unfold bucket_in. rewrite Rc. split.
      * intros [Hb (y & Hy & Hyi)]. exists y. by rewrite lookup_delete_ne.
      * intros (y & [Hb Hy]%lookup_delete_Some & Hyi). split; [done | by exists y].
  - destruct (sh_chained _ _ Hs j Hj) as (l & Hnd' & Hch' & Hin'). exists l. split; [done |].
    destruct (other_chain s A i j _ l l1 (a :: l2) Hji eq_refl Hin Hin') as (Hdis & Hst & Hsn). split.
    + apply (chain_ext s); [by rewrite V, decide_False | | done].
      intros b Hb. rewrite V, P. rewrite !decide_False; [done | | by apply Hsn]. intros [-> Hne].
      apply (Hdis _ Hb). destruct l2; [done |]. cbn. set_solver.
    + intros b. unfold bucket_in. rewrite Rc. rewrite Hin'. split.
      * intros (y & Hy & Hyj). exists y. split; [| done]. rewrite lookup_delete_ne; [done |]. intros ->. by simplify_eq.
      * intros (y & [_ Hy]%lookup_delete_Some & Hyj). by exists y.
Qed.

(** ** The list of free entries *)
Lemma remove_split a (l1 l2 : list Z) : NoDup (l1 ++ a :: l2) → remove a (l1 ++ a :: l2) = l1 ++ l2.
Proof.
  intros (_ & Hd & [Ha _]%NoDup_cons)%NoDup_app. unfold remove. rewrite filter_app, filter_cons_False by naive_solver.
  change (remove a l1 ++ remove a l2 = l1 ++ l2). rewrite !remove_not_in; [done | done |]. intros H. apply (Hd a H). left.
Qed.

Lemma clist_free (m : gmap Z _st_clist_t) q l a : a ∉ q :: l → clist m q l → clist (delete a m) q l.
Proof.
  intros Ha [Hnd Hseg]. split; [done |]. apply (seg_ext m); [| | done]; intros b Hb; rewrite lookup_delete_ne; try done; set_solver.
Qed.

Lemma on_lru_links_ok {B : Type} (c : M (gmap Z _st_clist_t) B) s r l :
  c (links s) = (Ok r, l) → on_links c s = (Ok r, with_links l s).
Proof. unfold on_links. by intros ->. Qed.

Lemma lru_links_same s : with_links (links s) s = s.
Proof. by destruct s. Qed.

(** [a] goes off the list. *)
Lemma off_list_ok m q (l : list Z) a :
  clist m q l → a ∈ l →
  ∃ m', STX_CLIST_REMOVE_LINK a m = (Ok tt, m') ∧ clist m' q (remove a l) ∧ ∀ x, is_Some (m !! x) → is_Some (m' !! x).
Proof.
  intros Hc Ha. apply list_elem_of_split in Ha as (l1 & l2 & ->).
  destruct (remove_clist m q l1 l2 a Hc) as (m' & E & Hc' & _). exists m'. split; [exact E |].
  rewrite remove_split by (destruct Hc as [[_ Hnd]%NoDup_cons _]; done). split; [done |]. intros x. by eapply keeps_remove.
Qed.

(** [a] goes to the end of the list. *)
Lemma on_list_ok m q (l : list Z) a :
  clist m q l → a ∉ l → a ≠ q → is_Some (m !! a) →
  ∃ m', STX_CLIST_APPEND_LINK a q m = (Ok tt, m') ∧ clist m' q (l ++ [a]) ∧ ∀ x, is_Some (m !! x) → is_Some (m' !! x).
Proof.
  intros Hc Ha Hq Hm. destruct (insert_before_clist m q l [] a) as (m' & E & Hc' & _); [by rewrite app_nil_r | done | |].
  - rewrite app_nil_r. by apply not_elem_of_cons.
  - exists m'. split; [exact E |]. split; [done |]. intros x. by eapply keeps_insert_before.
Qed.

(** ** Changes that the chains do not see *)
Lemma chained_keys s m m' : (∀ a, i_key <$> m' !! a = i_key <$> m !! a) → chained s m → chained s m'.
Proof.
  intros Hm Hc i Hi. destruct (Hc i Hi) as (l & Hnd & Hch & Hin). exists l. split; [done |]. split; [done |].
  intros a. rewrite Hin. specialize (Hm a). unfold bucket_in.
  destruct (m !! a) as [x |], (m' !! a) as [y |]; try discriminate; [| naive_solver].
  injection Hm as Hk. split; intros (z & [= <-] & Hz); eexists; (split; [done |]); congruence.
Qed.

(** The counts or the mark of an entry change. *)
Lemma touch_ok s A a x e e' :
  shape s A → items A !! a = Some x → entries s !! a = Some e → item_of e = x →
  e_next e' = e_next e → e_pthis e' = e_pthis e → e_key e' = e_key e → e_weight e' = e_weight e →
  shape (with_entries (<[a := e']> (entries s)) s) (with_items (<[a := item_of e']> (items A)) A).
Proof.
  intros [S1 S2 S3 S4 S5 S6] Ha He Hx Hn Hp Hk Hw. split; try done.
  - apply (chained_ext s); try done.
    + intros b _. cbn. unfold pthis_of. cbn. destruct (decide (b = a)) as [-> |]; [| by rewrite !lookup_insert_ne by done].
      rewrite lookup_insert_eq, He. cbn. by rewrite Hn, Hp.
    + apply (chained_keys s (items A)); [| done]. intros b. cbn [items with_items]. destruct (decide (b = a)) as [-> |]; [| by rewrite lookup_insert_ne by done].
      rewrite lookup_insert_eq, Ha. cbn. rewrite Hk. by subst x.
  - intros b. specialize (S3 b). unfold view, look in *. cbn. destruct (decide (b = a)) as [-> |]; [| by rewrite !lookup_insert_ne by done].
    rewrite !lookup_insert_eq. rewrite Ha, He in S3. cbn -[bool_decide] in *. apply (f_equal (fmap snd)) in S3.
    cbn -[bool_decide] in S3. rewrite Hp. by injection S3 as ->.
  - intros b. cbn. destruct (decide (b = a)) as [-> |]; [intros _; apply S4; by eexists |].
    rewrite lookup_insert_ne by done. apply S4.
  - destruct S6 as (C1 & C2 & C3 & C4 & C5 & C6). unfold counted. cbn. split_and!; try done.
    + by rewrite map_size_insert_Some by (by eexists).
    + rewrite (weight_of_same _ _ x); [done | done |]. cbn. rewrite Hw. by subst x.
Qed.

(** ** Cleaning up *)
Definition small A : Prop :=
  Z.of_nat (size (items A)) < 2 ^ 64 ∧ weight_of (items A) < 2 ^ 64 ∧
  ∀ a x, items A !! a = Some x → 0 <= i_weight x ∧ loose A !! a = None.

Lemma valid_small A : valid A → small A.
Proof. intros HA. pose proof (va_size _ HA). pose proof (va_weight _ HA). split; [lia |]. split; [lia |]. intros a x Ha.
  split; [by apply (va_refs _ HA a x) |]. destruct (loose A !! a) as [y |] eqn:Hy; [| done].
  destruct (va_loose _ HA a y Hy). congruence. Qed.

Lemma wrap_small64 z : 0 <= z < 2 ^ 64 → u64 z = z.
Proof. intros Hz. apply Z.mod_small. done. Qed.

(** The rest of [stx_cache_entry_delete] for an entry in the table that nobody holds. *)
Lemma unlink_ok s A a x e sl :
  shape s A → small A → items A !! a = Some x → entries s !! a = Some e → item_of e = x → e_pthis e = Some sl → a ∈ order A →
  ∃ s', ((unchain e sl ;; on_cache (count_size (-1) (- e_weight e)) ;; on_cache (count_stats 0 0 0 1) ;;
      on_links (STX_CLIST_REMOVE_LINK a)) ;; clean_up e ;; free a) s = (Ok tt, s') ∧ shape s' (drop_item a x A).
Proof.
  intros Hs (Hsz & Hwt & Hnn) Ha He Hx Hp Hord. rewrite bind_assoc.
  destruct (unchain_ok s A a x e sl Hs Ha He Hp) as (s1 & E1 & R1 & Hc1). rewrite (bind_ok _ _ _ _ _ E1).
  rewrite bind_assoc. unfold bind at 1. cbn [on_cache modify]. rewrite bind_assoc. unfold bind at 1. cbn [on_cache modify].
  destruct R1 as (Rc & Rq & Rl & Rcl & Rt & Rv). destruct Hs as [S1 S2 S3 S4 S5 S6].
  rewrite <- Rl, <- Rq in S5.
  destruct (off_list_ok (links s1) (lru_list s1) (order A) a S5 Hord) as (m & E2 & Hm & Halloc).
  set (s2 := with_cache _ (with_cache _ s1)).
  rewrite (bind_ok _ _ s2 _ _ (on_lru_links_ok _ s2 _ _ E2)). unfold bind, clean_up, free. cbn [modify].
  eexists. split; [reflexivity |].
  pose proof (size_delete_item _ _ _ Ha) as Hsd. pose proof (weight_of_delete _ _ _ Ha) as Hwd.
  assert (0 <= weight_of (delete a (items A))) as Hw0.
  { apply weight_of_nonneg. intros b y [_ Hy]%lookup_delete_Some. by apply (Hnn b). }
  assert (i_weight x = e_weight e) as Hwe by (by subst x).
  pose proof (Hnn a x Ha) as [Hwx Hla]. destruct S6 as (C1 & C2 & C3 & C4 & C5 & C6). rewrite <- Rc in *.
  match goal with |- shape ?s' _ => set (s3 := s') end.
  assert (cache s3 = count_stats 0 0 0 1 (count_size (-1) (- e_weight e) (cache s1)) ∧ table s3 = table s1 ∧
    lru_list s3 = lru_list s1 ∧ entries s3 = delete a (entries s1) ∧ links s3 = delete a m ∧
    cleaned s3 = if cleanup (cache s1) then cleaned s1 ++ [(e_key e, e_data e)] else cleaned s1) as (F1 & F2 & F3 & F4 & F5 & F6).
  { unfold s3. cbn. by destruct (cleanup (cache s1)). }
  clearbody s3. split.
  - rewrite F1, F2, Rt. cbn. exact S1.
  - apply (chained_ext s1); [by rewrite F2 | by rewrite F1 | intros i; cbn; by rewrite F2 | | done].
    intros b [y Hy]. cbn in Hy. apply lookup_delete_Some in Hy as [Hb _]. cbn. unfold pthis_of. by rewrite F4, lookup_delete_ne.
  - intros b. unfold view, look. cbn. rewrite F4. destruct (decide (b = a)) as [-> | Hb].
    + by rewrite !lookup_delete_eq, Hla.
    + rewrite !lookup_delete_ne by done. exact (eq_trans (Rv b) (S3 b)).
  - intros b. rewrite F3, F4, F5, Rq. intros [y [Hb Hy]%lookup_delete_Some].
    destruct (S4 b) as (N1 & N2 & N3).
    { specialize (Rv b). unfold view in Rv. rewrite Hy in Rv. destruct (entries s !! b); [by eexists | done]. }
    split; [done |]. split; [done |]. rewrite lookup_delete_ne by done. apply Halloc. by rewrite Rl.
  - rewrite F3, F5. cbn [order drop_item]. apply clist_free; [| done].
    destruct (S4 a (ex_intro _ e He)) as (_ & N2 & _). apply not_elem_of_cons. split; [by rewrite Rq |].
    rewrite elem_of_remove. tauto.
  - unfold counted. rewrite F1, F6. cbn -[u64]. rewrite C1, C2.
    rewrite !wrap_small64 by lia. split_and!; try done; try lia. rewrite C5, Rcl, C6. unfold log. by subst x.
Qed.

(** ** Deleting *)
Lemma small_set a x y A : small A → items A !! a = Some x → i_weight y = i_weight x → small (with_items (<[a := y]> (items A)) A).
Proof.
  intros (H1 & H2 & H3) Ha Hw. split; [| split]; cbn.
  - by rewrite map_size_insert_Some by (by eexists).
  - by rewrite (weight_of_same _ _ x).
  - intros b z. destruct (decide (b = a)) as [-> |].
    + rewrite lookup_insert_eq. intros [= <-]. rewrite Hw. by apply H3.
    + rewrite lookup_insert_ne by done. apply H3.
Qed.

Lemma item_of_pending e x : item_of e = x → item_of (with_pending e) = set_pending x.
Proof. by intros <-. Qed.

Lemma delete_item_ok s A a x :
  shape s A → small A → items A !! a = Some x → (i_refs x <= 0 → a ∈ order A) →
  ∃ s', stx_cache_entry_delete a s = (Ok tt, s') ∧
    shape s' (if 0 <? i_refs x then with_items (<[a := set_pending x]> (items A)) A else drop_item a x A).
Proof.
  intros Hs Hsm Ha Hord. destruct (sh_item s A a x Hs Ha) as (e & He & Hx & Hp). unfold stx_cache_entry_delete.
  rewrite (bind_ok _ _ _ _ _ (upd_ok a with_pending e s He)).
  pose proof (touch_ok s A a x e (with_pending e) Hs Ha He Hx eq_refl eq_refl eq_refl eq_refl) as Hs1.
  rewrite (item_of_pending e x Hx) in Hs1. set (s1 := with_entries _ s) in *.
  assert (entries s1 !! a = Some (with_pending e)) as He1 by apply lookup_insert_eq.
  rewrite (bind_ok _ _ _ _ _ (the_entry_ok _ _ _ He1)). cbn [e_ref_count with_pending].
  assert (e_ref_count e = i_refs x) as -> by (by subst x). destruct (Z.ltb_spec 0 (i_refs x)) as [Hr | Hr].
  - by exists s1.
  - destruct (e_pthis e) as [sl |] eqn:Esl; [| done].
    destruct (unlink_ok s1 _ a (set_pending x) (with_pending e) sl Hs1) as (s' & E & Hs').
    + by apply (small_set a x).
    + apply lookup_insert_eq.
    + done.
    + by apply item_of_pending.
    + done.
    + by apply Hord.
    + exists s'. cbn [e_pthis with_pending]. rewrite Esl. split; [exact E |]. by rewrite (drop_set _ x) in Hs' by done.
Qed.

Lemma delete_loose_ok s A a x :
  shape s A → items A !! a = None → loose A !! a = Some x → i_refs x = 0 →
  a ∉ order A → ∃ s', stx_cache_entry_delete a s = (Ok tt, s') ∧ shape s' (drop_loose a x A).
Proof.
  intros Hs Hn Ha Hr Hord. destruct (sh_loose s A a x Hs Hn Ha) as (e & He & Hx & Hp). unfold stx_cache_entry_delete.
  rewrite (bind_ok _ _ _ _ _ (upd_ok a with_pending e s He)). set (s1 := with_entries _ s) in *.
  assert (entries s1 !! a = Some (with_pending e)) as He1 by apply lookup_insert_eq.
  rewrite (bind_ok _ _ _ _ _ (the_entry_ok _ _ _ He1)). cbn [e_ref_count with_pending e_pthis].
  assert (e_ref_count e = 0) as -> by (by subst x). cbn [Z.ltb Z.compare]. rewrite Hp. rewrite bind_ret.
  unfold bind, clean_up, free. cbn [modify]. eexists. split; [reflexivity |].
  destruct Hs as [S1 S2 S3 S4 S5 (C1 & C2 & C3 & C4 & C5 & C6)].
  match goal with |- shape ?s' _ => set (s3 := s') end.
  assert (cache s3 = cache s ∧ table s3 = table s ∧ lru_list s3 = lru_list s ∧ entries s3 = delete a (entries s) ∧
    links s3 = delete a (links s) ∧
    cleaned s3 = if cleanup (cache s) then cleaned s ++ [(e_key e, e_data e)] else cleaned s) as (F1 & F2 & F3 & F4 & F5 & F6).
  { unfold s3, s1. cbn. destruct (cleanup (cache s)); cbn; by rewrite delete_insert_eq. }
  clearbody s3. split.
  - by rewrite F1, F2.
  - apply (chained_ext s); [by rewrite F2 | by rewrite F1 | intros i; cbn; by rewrite F2 | | done].
    intros b [y Hy]. cbn in Hy. cbn. unfold pthis_of. rewrite F4, lookup_delete_ne; [done |]. intros ->. congruence.
  - intros b. unfold view, look. cbn. rewrite F4. destruct (decide (b = a)) as [-> | Hb].
    + by rewrite !lookup_delete_eq, Hn.
    + rewrite !lookup_delete_ne by done. exact (S3 b).
  - intros b. rewrite F3, F4, F5. intros [y [Hb Hy]%lookup_delete_Some].
    destruct (S4 b (ex_intro _ y Hy)) as (N1 & N2 & N3). by rewrite lookup_delete_ne.
  - rewrite F3, F5. apply clist_free; [| done]. destruct (S4 a (ex_intro _ e He)) as (_ & N2 & _). by apply not_elem_of_cons.
  - unfold counted. rewrite F1, F6, C5, C6. cbn. split_and!; try done. unfold log. by subst x.
Qed.

Lemma delete_ok s A a :
  shape s A → valid A → is_Some (entries s !! a) →
  ∃ s', stx_cache_entry_delete a s = (Ok tt, s') ∧ shape s' (sp_delete a A).
Proof.
  intros Hs HA [e He]. unfold sp_delete. destruct (items A !! a) as [x |] eqn:Ha.
  - apply delete_item_ok; [done | by apply valid_small | done |]. intros Hr. apply (va_order _ HA). exists x. split; [done |].
    destruct (va_refs _ HA a x Ha). lia.
  - assert (∃ x, loose A !! a = Some x) as [x Hx].
    { pose proof (sh_view _ _ Hs a) as Hv. unfold view, look in Hv. rewrite Ha, He in Hv.
      destruct (loose A !! a) as [x |]; [by exists x | done]. }
    rewrite Hx. destruct (va_loose _ HA a x Hx) as (_ & Hr & _). apply delete_loose_ok; try done.
    rewrite (va_order _ HA). intros (y & Hy & _). congruence.
Qed.

(** ** Finding *)
Definition wants s k a : bool :=
  match entries s !! a with
  | Some e => negb (e_delete_pending e) && (key_cmp_fn k (e_key e) =? 0)
  | None => false
  end.

Lemma find_entry_ok s sl l k fuel :
  chain s sl l → (length l < fuel)%nat → find_entry fuel (hd 0 l) k s = (Ok (snd <$> list_find (λ a, wants s k a = true) l), s).
Proof.
  revert sl fuel. induction l as [| a l IH]; intros sl [| fuel] Hc Hf; try (cbn in Hf; lia); cbn [hd find_entry]; [done |].
  destruct Hc as (_ & Ha0 & Hp & Hc). rewrite (proj2 (Z.eqb_neq a 0) Ha0).
  unfold pthis_of in Hp. destruct (entries s !! a) as [e |] eqn:He; [| done].
  rewrite (bind_ok _ _ _ _ _ (the_entry_ok _ _ _ He)). cbn [list_find].
  assert (negb (e_delete_pending e) && (key_cmp_fn k (e_key e) =? 0) = wants s k a) as -> by (unfold wants; by rewrite He).
  destruct (wants s k a) eqn:Hw; [by rewrite decide_True |]. rewrite decide_False by congruence.
  assert (e_next e = hd 0 l) as ->.
  { destruct l as [| b l]; cbn in Hc; rewrite He in Hc; cbn in Hc; [by injection Hc | destruct Hc as (Hc & _); by injection Hc]. }
  rewrite (IH (Next a) fuel Hc) by (cbn in Hf; lia). by destruct (list_find _ l) as [[] |].
Qed.

Lemma chain_fits s sl l : NoDup l → chain s sl l → (length l <= size (entries s))%nat.
Proof.
  intros Hnd Hc. rewrite <- size_dom. rewrite <- (size_list_to_set (C := gset Z) l) by done. apply subseteq_size.
  intros a Ha%elem_of_list_to_set. revert sl Hc. induction l as [| b l IH]; intros sl Hc; [by apply not_elem_of_nil in Ha |].
  apply NoDup_cons in Hnd as [_ Hnd]. destruct Hc as (_ & _ & Hp & Hc). apply elem_of_cons in Ha as [-> | Ha].
  - unfold pthis_of in Hp. apply elem_of_dom. by destruct (entries s !! b).
  - by apply (IH Hnd Ha (Next b)).
Qed.

Lemma wants_holds s A k a :
  shape s A → is_Some (items A !! a) → wants s k a = true ↔ holds k A a.
Proof.
  intros Hs [x Ha]. destruct (sh_item s A a x Hs Ha) as (e & He & <- & _). unfold wants, holds. rewrite He.
  rewrite andb_true_iff, negb_true_iff, Z.eqb_eq. split.
  - intros [H1 H2]. by exists (item_of e).
  - intros (x & Hx & H1 & H2). rewrite Ha in Hx. by injection Hx as <-.
Qed.

Lemma bucket_of_ok s k : 0 < hash_size (cache s) → bucket_of k s = (Ok (bucket (hash_size (cache s)) k), s).
Proof. intros H. unfold bucket_of. by rewrite (proj2 (Z.eqb_neq (hash_size (cache s)) 0)) by lia. Qed.

Context `{!KeyLaws key}.

Lemma find_in_table_ok s A k :
  shape s A → ∃ r, find_in_table k s = (Ok r, s) ∧ answer k A r.
Proof.
  intros Hs. destruct (sh_hash _ _ Hs) as [Hh Hlen]. unfold find_in_table.
  rewrite (bind_ok _ _ _ _ _ (bucket_of_ok s k Hh)). set (i := bucket _ k).
  assert (i < length (table s))%nat as Hi by (rewrite Hlen; by apply bucket_range).
  destruct (sh_chained _ _ Hs i Hi) as (l & Hnd & Hch & Hin).
  assert (read_table i s = (Ok (hd 0 l), s)) as E1.
  { assert (slot_val s (Table i) = Some (hd 0 l)) as H by (destruct l; [done | by destruct Hch]).
    unfold read_table. cbn in H. by rewrite H. }
  rewrite (bind_ok _ _ _ _ _ E1). unfold bind. cbn [gets id].
  rewrite (find_entry_ok s (Table i) l k _ Hch) by (pose proof (chain_fits s _ l Hnd Hch); lia).
  eexists. split; [reflexivity |].
  assert (∀ a, a ∈ l → is_Some (items A !! a)) as Hsome by (intros a (x & Hx & _)%Hin; by exists x).
  destruct (list_find _ l) as [[n a] |] eqn:Hf; cbn.
  - apply list_find_Some in Hf as (Hl & Hw & _). apply list_elem_of_lookup_2 in Hl.
    apply (wants_holds s); [done | by apply Hsome | done].
  - intros a Ha. assert (a ∈ l) as Hal.
    { destruct Ha as (x & Hx & _ & Hcmp). apply Hin. exists x. split; [done |]. unfold bucket_in, bucket, i, bucket.
      by rewrite (key_hash_cmp k (i_key x)). }
    apply list_find_None in Hf. rewrite Forall_forall in Hf. apply (Hf a Hal). apply (wants_holds s A); [done | by apply Hsome | done].
Qed.

(** ** Looking up and releasing *)
Lemma stats_ok s A h l n d : shape s A → shape (with_cache (count_stats h l n d (cache s)) s) A.
Proof. intros [S1 S2 S3 S4 S5 S6]. split; try done. by apply (chained_ext s). Qed.

Lemma links_ok s A m l :
  shape s A → clist m (lru_list s) l → (∀ x, is_Some (links s !! x) → is_Some (m !! x)) →
  shape (with_links m s) (with_order l A).
Proof.
  intros [S1 S2 S3 S4 S5 S6] Hm Ha. split; try done; [by apply (chained_ext s) |]. intros b Hb. destruct (S4 b Hb) as (N1 & N2 & N3). split_and!; auto.
Qed.

Lemma order_fresh A a x : valid A → items A !! a = Some x → i_refs x ≠ 0 → a ∉ order A.
Proof. intros HA Ha Hr. rewrite (va_order _ HA). intros (y & Hy & H0). congruence. Qed.

Lemma lookup_ok s A k :
  shape s A → valid A →
  ∃ r s', stx_cache_entry_lookup k s = (Ok r, s') ∧ answer k A r ∧
    shape s' (match r with Some a => sp_pin a A | None => A end).
Proof.
  intros Hs HA. unfold stx_cache_entry_lookup. unfold bind at 1. cbn [on_cache modify].
  pose proof (stats_ok s A 0 1 0 0 Hs) as Hs1. set (s1 := with_cache _ s) in *.
  destruct (find_in_table_ok s1 A k Hs1) as (r & E1 & Hr). rewrite (bind_ok _ _ _ _ _ E1).
  exists r. destruct r as [a |]; [| by exists s1].
  unfold bind at 1. cbn [on_cache modify]. pose proof (stats_ok s1 A 1 0 0 0 Hs1) as Hs2. set (s2 := with_cache _ s1) in *.
  pose proof Hr as (x & Ha & _). destruct (sh_item s2 A a x Hs2 Ha) as (e & He & Hx & Hp).
  rewrite (bind_ok _ _ _ _ _ (the_entry_ok _ _ _ He)).
  assert (e_ref_count e = i_refs x) as -> by (by subst x).
  assert (∃ m, (if i_refs x =? 0 then on_links (STX_CLIST_REMOVE_LINK a) else ret tt) s2 = (Ok tt, with_links m s2) ∧
    shape (with_links m s2) (with_order (remove a (order A)) A)) as (m & E2 & Hs3).
  { destruct (Z.eqb_spec (i_refs x) 0) as [H0 | H0].
    - destruct (off_list_ok (links s2) (lru_list s2) (order A) a) as (m & E & Hm & Hal); [apply Hs2 | apply (va_order _ HA); by exists x |].
      exists m. split; [by apply on_lru_links_ok |]. by apply links_ok.
    - exists (links s2). rewrite lru_links_same. split; [done |]. rewrite remove_not_in by (by eapply order_fresh).
      by rewrite with_order_id. }
  rewrite (bind_ok _ _ _ _ _ E2). set (s3 := with_links m s2) in *.
  assert (entries s3 !! a = Some e) as He3 by exact He.
  rewrite (bind_ok _ _ _ _ _ (upd_ok a _ e s3 He3)). eexists. split; [reflexivity |]. split; [done |].
  unfold sp_pin. rewrite Ha.
  pose proof (touch_ok s3 _ a x e (with_ref_count (e_ref_count e + 1) e) Hs3 Ha He3 Hx eq_refl eq_refl eq_refl eq_refl) as H.
  by subst x.
Qed.

Lemma release_ok s A a :
  shape s A → valid A → is_Some (entries s !! a) →
  ∃ s', stx_cache_entry_release a s = (Ok tt, s') ∧ shape s' (sp_release a A).
Proof.
  intros Hs HA [e He]. unfold stx_cache_entry_release, sp_release. rewrite (bind_ok _ _ _ _ _ (the_entry_ok _ _ _ He)).
  destruct (items A !! a) as [x |] eqn:Ha.
  2: { pose proof (sh_view _ _ Hs a) as Hv. unfold view, look in Hv. rewrite Ha, He in Hv.
    destruct (loose A !! a) as [y |] eqn:Hy; [| done]. destruct (va_loose _ HA a y Hy) as (_ & Hr & _).
    apply (f_equal (fmap fst)) in Hv. cbn in Hv. injection Hv as Hv. assert (e_ref_count e = 0) as ->; [| by exists s].
    by rewrite <- Hv in Hr. }
  destruct (sh_item s A a x Hs Ha) as (e' & He' & Hx & Hp). rewrite He in He'. injection He' as <-.
  assert (e_ref_count e = i_refs x) as -> by (by subst x). destruct (Z.eqb_spec (i_refs x) 0) as [H0 | H0]; [by exists s |].
  rewrite (bind_ok _ _ _ _ _ (upd_ok a _ e s He)).
  pose proof (touch_ok s A a x e (with_ref_count (e_ref_count e - 1) e) Hs Ha He Hx eq_refl eq_refl eq_refl eq_refl) as Hs1.
  assert (item_of (with_ref_count (e_ref_count e - 1) e) = set_refs (i_refs x - 1) x) as Hx1 by (by subst x).
  rewrite Hx1 in Hs1. set (s1 := with_entries _ s) in *. set (A1 := with_items _ A) in *.
  assert (entries s1 !! a = Some (with_ref_count (e_ref_count e - 1) e)) as He1 by apply lookup_insert_eq.
  rewrite (bind_ok _ _ _ _ _ (the_entry_ok _ _ _ He1)). cbn [e_ref_count with_ref_count e_delete_pending].
  assert (e_ref_count e = i_refs x ∧ e_delete_pending e = i_pending x) as [-> ->] by (by subst x).
  replace (i_refs x =? 1) with (i_refs x - 1 =? 0) by (destruct (Z.eqb_spec (i_refs x - 1) 0), (Z.eqb_spec (i_refs x) 1); done || lia).
  destruct (Z.eqb_spec (i_refs x - 1) 0) as [H1 | H1]; [| by exists s1].
  unfold bind at 1. cbn [gets id].
  destruct (on_list_ok (links s1) (lru_list s1) (order A1) a) as (m & E2 & Hm & Hal).
  { apply Hs1. }
  { by apply (order_fresh A a x). }
  { apply (sh_alloc _ _ Hs1 a). by eexists. }
  { apply (sh_alloc _ _ Hs1 a). by eexists. }
  rewrite (bind_ok _ _ _ _ _ (on_lru_links_ok _ s1 _ _ E2)).
  pose proof (links_ok s1 A1 m (order A1 ++ [a]) Hs1 Hm Hal) as Hs2. set (s2 := with_links m s1) in *.
  destruct (i_pending x) eqn:Epx; [| by exists s2].
  destruct (delete_item_ok s2 _ a (set_refs (i_refs x - 1) x) Hs2) as (s3 & E3 & Hs3).
  - apply (small_set a x); [by apply valid_small | done | done].
  - apply lookup_insert_eq.
  - intros _. cbn. apply elem_of_app. right. by left.
  - exists s3. split; [exact E3 |]. set (y := set_refs (i_refs x - 1) x) in *.
    rewrite (proj2 (Z.ltb_ge 0 (i_refs y))) in Hs3 by (cbn; lia).
    assert (drop_item a y (with_order (order A1 ++ [a]) A1) = drop_item a y A1) as <-; [| done].
    unfold drop_item. cbn. f_equal. unfold remove. rewrite filter_app.
    rewrite (filter_cons_False _ a []) by naive_solver. by rewrite app_nil_r.
Qed.

(** ** Creating *)
(** [calloc] returns memory that nothing uses. *)
Definition unused s a : Prop := a ≠ 0 ∧ a ≠ lru_list s ∧ links s !! a = None.

Lemma entry_create_ok s A a k (d : data) w :
  shape s A → unused s a →
  ∃ s', stx_cache_entry_create (Some a) k d w s = (Ok a, s') ∧ shape s' (sp_create a k d w A) ∧ items A !! a = None.
Proof.
  intros [S1 S2 S3 S4 S5 S6] (N1 & N2 & N3).
  assert (entries s !! a = None) as He.
  { destruct (entries s !! a) as [e |] eqn:E; [| done]. destruct (S4 a (ex_intro _ e E)) as (_ & _ & [y Hy]). congruence. }
  assert (items A !! a = None) as Hn.
  { pose proof (S3 a) as Hv. unfold view, look in Hv. rewrite He in Hv. by destruct (items A !! a). }
  eexists. split; [reflexivity |]. split; [| done]. split; try done.
  - apply (chained_ext s); try done. intros b [x Hb]. cbn. unfold pthis_of. cbn. rewrite lookup_insert_ne; [done |]. intros ->. cbn in Hb. congruence.
  - intros b. specialize (S3 b). unfold view, look in *. cbn. destruct (decide (b = a)) as [-> |]; [| by rewrite !lookup_insert_ne by done].
    by rewrite !lookup_insert_eq, Hn.
  - intros b. cbn. destruct (decide (b = a)) as [-> |]; [rewrite !lookup_insert_eq; intros _; split_and!; try done; by eexists |].
    rewrite !lookup_insert_ne by done. apply S4.
  - cbn. destruct S5 as [Hnd Hseg]. split; [done |].
    assert (∀ b, b ∈ lru_list s :: order A → b ≠ a) as Hne.
    { intros b Hb ->. destruct (seg_alloc _ _ _ _ Hseg a Hb) as [y Hy]. rewrite N3 in Hy. done. }
    apply (seg_ext (links s)); [| | done]; intros b Hb; rewrite lookup_insert_ne; try done; apply not_eq_sym, Hne; set_solver.
Qed.

(** ** Evicting *)
Lemma getlru_ok s A : shape s A → stx_cache_entry_getlru s = (Ok (head (order A)), s).
Proof.
  intros Hs. unfold stx_cache_entry_getlru. unfold bind at 1. cbn [gets id].
  rewrite (bind_ok _ _ _ _ _ (on_lru_links_ok _ s _ _ (is_empty_clist _ _ _ (sh_clist _ _ Hs)))), lru_links_same.
  destruct (order A) as [| a l] eqn:Eo; [done |]. rewrite bool_decide_false by done.
  pose proof (sh_clist _ _ Hs) as Hc. rewrite Eo in Hc.
  rewrite (bind_ok _ _ _ _ _ (on_lru_links_ok _ s _ _ (get_next_run _ _ _ (seg_next _ _ _ _ (proj2 Hc))))), lru_links_same. done.
Qed.

Lemma evict_one_ok s A :
  shape s A → valid A →
  match order A with
  | [] => evict_one s = (Fail, s)
  | a :: _ => ∃ s', evict_one s = (Ok tt, s') ∧ shape s' (sp_evict a A) ∧ is_Some (items A !! a)
  end.
Proof.
  intros Hs HA. unfold evict_one. rewrite (bind_ok _ _ _ _ _ (getlru_ok s A Hs)).
  destruct (order A) as [| a l] eqn:Eo; cbn [head]; [done |].
  assert (a ∈ order A) as Ho by (rewrite Eo; left). apply (va_order _ HA) in Ho as (x & Ha & Hr).
  destruct (sh_item s A a x Hs Ha) as (e & He & _).
  destruct (delete_ok s A a Hs HA) as (s' & E1 & Hs'); [by eexists |]. exists s'. split; [done |].
  unfold sp_delete in Hs'. unfold sp_evict. rewrite Ha, Hr in *. cbn in Hs'. by split.
Qed.

Lemma order_evict A a l : valid A → order A = a :: l → order (sp_evict a A) = l.
Proof.
  intros HA Ho. unfold sp_evict. assert (a ∈ order A) as (x & Ha & _)%(va_order _ HA) by (rewrite Ho; left).
  rewrite Ha. cbn. rewrite Ho. pose proof (va_nodup _ HA) as Hnd. rewrite Ho in Hnd.
  exact (remove_split a [] l Hnd).
Qed.

Lemma limits_evict A a : weight_limit (sp_evict a A) = weight_limit A ∧ size_limit (sp_evict a A) = size_limit A.
Proof. unfold sp_evict. by destruct (items A !! a). Qed.

Lemma valid_weight_nonneg A : valid A → 0 <= weight_of (items A).
Proof. intros HA. apply weight_of_nonneg. intros a x Ha. by apply (va_refs _ HA a x). Qed.

Lemma evict_ok fuel s A w :
  shape s A → valid A → (length (order A) < fuel)%nat → 0 <= w → weight_limit A + w < 2 ^ 64 →
  ∃ s', evict fuel w s = ((if (sp_make_room (order A) w A).1 then Ok tt else Fail), s') ∧ shape s' (sp_make_room (order A) w A).2.
Proof.
  remember (order A) as l eqn:Hl. revert fuel s A Hl.
  induction l as [| a l IH]; intros [| fuel] s A Hl Hs HA Hf Hw Hwt; try (cbn in Hf; lia); cbn [evict];
    unfold bind at 1; cbn [gets id]; pose proof (sh_counted _ _ Hs) as (_ & Cw & _ & Cm & _); rewrite Cw, Cm;
    pose proof (valid_weight_nonneg A HA); pose proof (va_weight _ HA);
    rewrite wrap_small64 by lia; cbn [sp_make_room];
    destruct (Z.ltb_spec (weight_limit A) (weight_of (items A) + w)), (Z.leb_spec (weight_of (items A) + w) (weight_limit A)); try lia;
    pose proof (evict_one_ok s A Hs HA) as Hev; rewrite <- Hl in Hev.
  - unfold bind. rewrite Hev. by exists s.
  - by exists s.
  - destruct Hev as (s1 & E1 & Hs1 & _). rewrite (bind_ok _ _ _ _ _ E1).
    destruct (limits_evict A a) as [L1 _]. apply IH; [by rewrite (order_evict A a l) | done | by apply valid_evict | cbn in Hf; lia | done |].
    by rewrite L1.
  - by exists s.
Qed.

Lemma place_ok s A :
  shape s A → valid A →
  ∃ s', (if max_size (cache s) <=? cur_size (cache s) then evict_one else ret tt) s =
      ((if (sp_make_place A).1 then Ok tt else Fail), s') ∧ shape s' (sp_make_place A).2.
Proof.
  intros Hs HA. pose proof (sh_counted _ _ Hs) as (Cs & _ & Cm & _). rewrite Cs, Cm. unfold sp_make_place.
  destruct (Z.leb_spec (size_limit A) (Z.of_nat (size (items A)))), (Z.ltb_spec (Z.of_nat (size (items A))) (size_limit A)); try lia.
  - pose proof (evict_one_ok s A Hs HA) as Hev. destruct (order A) as [| a l]; [by exists s |].
    destruct Hev as (s' & E1 & Hs' & _). by exists s'.
  - by exists s.
Qed.

(** ** Inserting *)
Lemma read_table_ok s i l : chain s (Table i) l → read_table i s = (Ok (hd 0 l), s).
Proof.
  intros Hc. assert (slot_val s (Table i) = Some (hd 0 l)) as H by (destruct l; [done | by destruct Hc]).
  unfold read_table. cbn in H. by rewrite H.
Qed.

(** What [chain_in] does to the slots and the back pointers. *)
Lemma chain_in_slots s A a e i l :
  shape s A → entries s !! a = Some e → items A !! a = None → (i < length (table s))%nat → chain s (Table i) l →
  (∀ b, b ∈ l → is_Some (items A !! b)) →
  ∃ s', chain_in a i s = (Ok tt, s') ∧ cache s' = cache s ∧ lru_list s' = lru_list s ∧ links s' = links s ∧ cleaned s' = cleaned s ∧
    length (table s') = length (table s) ∧ (∀ b, view s' b = if decide (b = a) then Some (item_of e, true) else view s b) ∧
    (∀ sl, slot_val s' sl = if decide (sl = Table i) then Some a else if decide (sl = Next a) then Some (hd 0 l) else slot_val s sl) ∧
    ∀ b, pthis_of s' b = if decide (b = a) then Some (Some (Table i)) else
      if decide (b = hd 0 l ∧ l ≠ []) then Some (Some (Next a)) else pthis_of s b.
Proof.
  intros Hs He Ha Hi Hch Hin. destruct (sh_alloc _ _ Hs a (ex_intro _ e He)) as (Ha0 & _).
  unfold chain_in. rewrite (bind_ok _ _ _ _ _ (read_table_ok s i l Hch)), (bind_ok _ _ _ _ _ (upd_ok a _ e s He)).
  set (s1 := with_entries _ s).
  assert (write_table i a s1 = (Ok tt, with_table (<[i := a]> (table s1)) s1)) as E2.
  { unfold write_table. by destruct (lookup_lt_is_Some_2 (table s1) i Hi) as [? ->]. }
  rewrite (bind_ok _ _ _ _ _ E2). set (s2 := with_table _ s1).
  assert (entries s2 !! a = Some (with_next (hd 0 l) e)) as He2 by apply lookup_insert_eq.
  rewrite (bind_ok _ _ _ _ _ (upd_ok a _ _ s2 He2)). set (s3 := with_entries _ s2).
  assert (∀ b, head l = Some b → b ≠ a ∧ b ≠ 0 ∧ ∃ eb, entries s !! b = Some eb ∧ e_pthis eb ≠ None) as Hhd.
  { intros b Hb. destruct l as [| c l]; [done |]. injection Hb as ->. destruct (Hin b) as [y Hy]; [left |].
    destruct (sh_item s A b y Hs Hy) as (eb & Heb & _ & Hpb). split; [congruence |].
    destruct (sh_alloc _ _ Hs b (ex_intro _ eb Heb)) as [Hb0 _]. eauto. }
  destruct (fix_head_ok l (Next a) s3) as (s' & E4 & (Rc & Rq & Rl & Rcl & Rt & Rv) & V4 & P4).
  { intros b (Hba & Hb0 & eb & Heb & Hpb)%Hhd. split; [done |]. exists eb. split; [| done]. cbn. by rewrite !lookup_insert_ne. }
  exists s'. split; [exact E4 |]. split_and!; try done.
  - rewrite Rt. cbn. by rewrite length_insert.
  - intros b. rewrite Rv. unfold view. cbn. rewrite insert_insert_eq.
    destruct (decide (b = a)) as [-> |]; [by rewrite lookup_insert_eq | by rewrite lookup_insert_ne].
  - intros sl. rewrite V4. destruct sl as [j | b]; cbn.
    + destruct (decide (Table j = Table i)) as [[= ->] |]; [by apply list_lookup_insert_eq |].
      rewrite decide_False by done. by rewrite list_lookup_insert_ne by congruence.
    + rewrite insert_insert_eq. rewrite decide_False by done. destruct (decide (Next b = Next a)) as [[= ->] |]; [by rewrite lookup_insert_eq |].
      by rewrite lookup_insert_ne by congruence.
  - intros b. rewrite P4. unfold pthis_of. cbn. rewrite insert_insert_eq. destruct (decide (b = a)) as [-> | Hba].
    + rewrite lookup_insert_eq, decide_False; [done |]. intros [Hb Hne]. destruct l as [| c l]; [done |].
      destruct (Hhd c eq_refl) as [Hca _]. done.
    + by rewrite lookup_insert_ne.
Qed.

(** Putting an entry in front of its chain. *)
Lemma chain_in_ok s A a e (i := bucket_in s (item_of e)) :
  shape s A → entries s !! a = Some e → items A !! a = None →
  ∃ s', chain_in a i s = (Ok tt, s') ∧ cache s' = cache s ∧ lru_list s' = lru_list s ∧ links s' = links s ∧ cleaned s' = cleaned s ∧
    length (table s') = length (table s) ∧ (∀ b, view s' b = if decide (b = a) then Some (item_of e, true) else view s b) ∧
    chained s' (<[a := item_of e]> (items A)).
Proof.
  intros Hs He Ha. destruct (sh_hash _ _ Hs) as [Hh Hlen].
  assert (i < length (table s))%nat as Hi by (rewrite Hlen; by apply bucket_range).
  destruct (sh_chained _ _ Hs i Hi) as (l & Hnd & Hch & Hin).
  destruct (chain_in_slots s A a e i l Hs He Ha Hi Hch) as (s' & E & Rc & Rq & Rl & Rcl & Rt & Rv & V & P).
  { intros b (y & Hy & _)%Hin. by exists y. }
  exists s'. split_and!; try done. destruct (sh_alloc _ _ Hs a (ex_intro _ e He)) as (Ha0 & _).
  assert (∀ y, bucket_in s' y = bucket_in s y) as Hbi by (intros y; unfold bucket_in; by rewrite Rc).
  assert (a ∉ l) as Hal by (intros (y & Hy & _)%Hin; congruence).
  intros j Hj. rewrite Rt in Hj. destruct (decide (j = i)) as [-> | Hji].
  - exists (a :: l). split; [by apply NoDup_cons |]. split.
    + apply (chain_insert s); done.
    + intros b. rewrite elem_of_cons, Hin. destruct (decide (b = a)) as [-> | Hb].
      * rewrite lookup_insert_eq. split; [intros _; exists (item_of e); by rewrite Hbi | by left].
      * rewrite lookup_insert_ne by done. setoid_rewrite Hbi. naive_solver.
  - destruct (sh_chained _ _ Hs j Hj) as (l' & Hnd' & Hch' & Hin'). exists l'. split; [done |].
    destruct (other_chain s A i j l l' [] l Hji eq_refl Hin Hin') as (Hdis & _). split.
    + apply (chain_ext s); [by rewrite V, !decide_False by congruence | | done].
      intros b Hb. rewrite V, P. assert (b ≠ a) by (intros ->; apply Hin' in Hb as (y & Hy & _); congruence).
      rewrite !decide_False; try congruence; [done |]. intros [-> Hne]. apply (Hdis _ Hb). destruct l; [done | left].
    + intros b. rewrite Hin'. setoid_rewrite Hbi. destruct (decide (b = a)) as [-> | Hb]; [| by rewrite lookup_insert_ne].
      rewrite lookup_insert_eq, Ha. split; [naive_solver |]. intros (y & [= <-] & Hy). unfold i in Hji. congruence.
Qed.

(** [stx_cache_entry_delete] does not resize the table. *)
Definition keeps_hash {B : Type} (c : M mem B) : Prop := ∀ s, hash_size (cache (c s).2) = hash_size (cache s).

Lemma hash_bind {B C : Type} (c : M mem B) (f : B → M mem C) : keeps_hash c → (∀ v : B, keeps_hash (f v)) → keeps_hash (bind c f).
Proof. intros Hc Hf s. unfold bind. specialize (Hc s). destruct (c s) as [[] s1]; cbn in *; [by rewrite Hf | done ..]. Qed.

Lemma hash_upd a f : keeps_hash (upd a f).
Proof. apply hash_bind; [| done]. intros s. unfold the_entry. by destruct (entries s !! a). Qed.

Lemma hash_write sl v : keeps_hash (write sl v).
Proof. destruct sl; [| by apply hash_upd]. intros s. cbn. unfold write_table. by destruct (table s !! i). Qed.

Lemma hash_delete a : keeps_hash (stx_cache_entry_delete a).
Proof.
  apply hash_bind; [apply hash_upd | intros _]. apply hash_bind; [intros s; unfold the_entry; by destruct (entries s !! a) | intros e].
  destruct (0 <? e_ref_count e); [done |]. apply hash_bind.
  - destruct (e_pthis e) as [sl |]; [| done]. apply hash_bind.
    + apply hash_bind; [apply hash_write | intros _]. destruct (e_next e =? 0); [done | apply hash_upd].
    + intros _. apply hash_bind; [done | intros _]. apply hash_bind; [done | intros _]. intros s. unfold on_links. by destruct (STX_CLIST_REMOVE_LINK a (links s)).
  - intros _. apply hash_bind; [| done]. intros s. cbn. by destruct (cleanup (cache s)).
Qed.

Lemma add_ok s A a e :
  shape s A → entries s !! a = Some e → items A !! a = None → e_ref_count e = 0 →
  Z.of_nat (size (items A)) < 2 ^ 64 - 1 → 0 <= weight_of (items A) → 0 <= e_weight e → weight_of (items A) + e_weight e < 2 ^ 64 →
  ∃ s', (chain_in a (bucket_in s (item_of e)) ;; upd a (λ e, with_ref_count (e_ref_count e + 1) e) ;;
    on_cache (count_stats 0 0 1 0) ;; on_cache (count_size 1 (e_weight e))) s = (Ok tt, s') ∧ shape s' (sp_add a (item_of e) A).
Proof.
  intros Hs He Ha Hr Hsz Hw0 Hwe Hw.
  destruct (chain_in_ok s A a e Hs He Ha) as (s1 & E1 & Rc & Rq & Rl & Rcl & Rt & Rv & Hc). rewrite (bind_ok _ _ _ _ _ E1).
  assert (view s1 a = Some (item_of e, true)) as Hva by (by rewrite Rv, decide_True). unfold view in Hva.
  destruct (entries s1 !! a) as [e1 |] eqn:He1; [| done]. cbn -[bool_decide] in Hva. injection Hva as Hk Hd Hwt Hrc Hp Hb.
  rewrite (bind_ok _ _ _ _ _ (upd_ok a _ e1 s1 He1)). unfold bind. cbn [on_cache modify].
  eexists. split; [reflexivity |]. destruct Hs as [S1 S2 S3 S4 S5 (C1 & C2 & C3 & C4 & C5 & C6)]. split.
  - cbn. by rewrite Rc, Rt.
  - apply (chained_ext s1); try done.
    + intros b _. unfold pthis_of. cbn. destruct (decide (b = a)) as [-> |]; [by rewrite lookup_insert_eq, He1 | by rewrite lookup_insert_ne].
    + apply (chained_keys s1 (<[a := item_of e]> (items A))); [| done]. intros b. cbn.
      destruct (decide (b = a)) as [-> |]; [by rewrite !lookup_insert_eq | by rewrite !lookup_insert_ne].
  - intros b. specialize (Rv b). specialize (S3 b). unfold view, look in *. cbn. destruct (decide (b = a)) as [-> |].
    + rewrite !lookup_insert_eq. cbn -[bool_decide]. rewrite Hb. rewrite Hrc, Hr. unfold item_of, set_refs. cbn. by rewrite Hk, Hd, Hwt, Hp.
    + rewrite !lookup_insert_ne, lookup_delete_ne by done. by rewrite Rv.
  - intros b. cbn. rewrite Rq, Rl. intros [y Hy]. apply S4. destruct (decide (b = a)) as [-> |]; [by eexists |].
    rewrite lookup_insert_ne in Hy by done. specialize (Rv b). rewrite decide_False in Rv by done. unfold view in Rv.
    rewrite Hy in Rv. destruct (entries s !! b); [by eexists | done].
  - cbn. by rewrite Rq, Rl.
  - unfold counted. cbn -[u64]. rewrite Rc, Rcl, C1, C2, C3, C4, C5, C6, !wrap_small64 by lia.
    rewrite map_size_insert_None, weight_of_insert by done. cbn. split_and!; try done; lia.
Qed.
End refine.
