(* ===== verification/LruCalls.v ===== *)
(** * extensions/lrucache.c: the calls of a client and what they promise

    Insertion is composed from the steps of LruRefine.v.  Then: every call that a client may make
    refines the specification of LruCache.v, and what follows for the client. *)

From stdpp Require Import base list sets gmap.
From Stdlib Require Import Lia ZArith.
From S2P Require Import Prelude.
From S2P Require Import Bytes.
From S2P Require Import Clist.
From S2P Require Import LruCache.
From S2P Require Import LruRefine.

Local Open Scope Z_scope.

Section calls.
Context {key data : Type} `{!KeyFns key}.
Notation mem := (@mem key data).
Notation stx_centry := (@stx_centry key data).
Notation item := (@item key data).
Notation lru := (@lru key data).
Implicit Types (s : mem) (a b p w : Z) (e : stx_centry) (k : key) (A : lru) (x y : item).

(** ** What making room changes *)
(** What was not inserted and the limits stay; the table only loses entries. *)
Definition shrinks A A' : Prop :=
  loose A' = loose A ∧ size_limit A' = size_limit A ∧ weight_limit A' = weight_limit A ∧
  weight_of (items A') <= weight_of (items A) ∧ (size (items A') <= size (items A))%nat.

#[export] Instance shrinks_preorder : PreOrder shrinks.
Proof. split; [by intros A; repeat split | intros A B C (?&?&?&?&?) (?&?&?&?&?); split_and!; congruence || lia]. Qed.

Lemma drop_shrinks A a x : valid A → items A !! a = Some x → shrinks A (drop_item a x A).
Proof.
  intros HA Ha. pose proof (weight_of_delete _ _ _ Ha). pose proof (size_delete_item _ _ _ Ha).
  destruct (va_refs _ HA a x Ha) as (_ & Hw & _). split_and!; try done; cbn; lia.
Qed.

Lemma evict_shrinks A a : valid A → shrinks A (sp_evict a A).
Proof. intros HA. unfold sp_evict. destruct (items A !! a) as [x |] eqn:Ha; [by apply drop_shrinks | done]. Qed.

Lemma delete_shrinks A a : valid A → is_Some (items A !! a) → shrinks A (sp_delete a A).
Proof.
  intros HA [x Ha]. unfold sp_delete. rewrite Ha. destruct (0 <? i_refs x); [| by apply drop_shrinks].
  split_and!; try done; cbn; [by rewrite (weight_of_same _ _ x) | by rewrite map_size_insert_Some by (by eexists)].
Qed.

Lemma make_room_facts l w A :
  valid A → shrinks A (sp_make_room l w A).2 ∧
  ((sp_make_room l w A).1 = true → weight_of (items (sp_make_room l w A).2) + w <= weight_limit A).
Proof.
  revert A. induction l as [| a l IH]; intros A HA; cbn [sp_make_room];
    destruct (Z.leb_spec (weight_of (items A) + w) (weight_limit A)); try done.
  pose proof (evict_shrinks A a HA) as He. destruct (IH _ (valid_evict a A HA)) as [H1 H2]. split; [by etrans |].
  intros Hr. specialize (H2 Hr). destruct He as (_ & _ & <- & _). done.
Qed.

Lemma make_place_facts A :
  valid A → shrinks A (sp_make_place A).2 ∧
  ((sp_make_place A).1 = true → Z.of_nat (size (items (sp_make_place A).2)) < size_limit A).
Proof.
  intros HA. unfold sp_make_place. destruct (Z.ltb_spec (Z.of_nat (size (items A))) (size_limit A)); [done |].
  destruct (order A) as [| a l] eqn:Ho; [done |]. split; [by apply evict_shrinks |]. intros _.
  assert (a ∈ order A) as (x & Ha & _)%(va_order _ HA) by (rewrite Ho; left). unfold sp_evict. cbn [snd]. rewrite Ha. cbn.
  pose proof (size_delete_item _ _ _ Ha). pose proof (va_size _ HA). lia.
Qed.

Lemma room_facts w A :
  valid A → valid (sp_room w A).2 ∧ shrinks A (sp_room w A).2 ∧
  ((sp_room w A).1 = true → weight_of (items (sp_room w A).2) + w <= weight_limit A ∧
    Z.of_nat (size (items (sp_room w A).2)) < size_limit A).
Proof.
  intros HA. unfold sp_room. destruct (make_room_facts (order A) w A HA) as [H1 H2].
  pose proof (valid_make_room (order A) w A HA) as HA1. destruct (sp_make_room (order A) w A) as [[] A1]; cbn in *; [| done].
  destruct (make_place_facts A1 HA1) as [H3 H4]. split; [by apply valid_make_place |]. split; [by etrans |].
  intros Hr. specialize (H2 eq_refl). specialize (H4 Hr). destruct H3 as (_ & _ & _ & ? & _), H1 as (_ & Hl & _). lia.
Qed.

(** No other entry answers for the key of a deleted one. *)
Lemma holds_delete o k A b : valid A → is_Some (items A !! o) → holds k (sp_delete o A) b → holds k A b ∧ b ≠ o.
Proof.
  intros HA [x Ho] (y & Hy & Hp & Hk). unfold sp_delete in Hy. rewrite Ho in Hy. destruct (decide (b = o)) as [-> | Hb].
  - destruct (0 <? i_refs x); cbn in Hy; [rewrite lookup_insert_eq in Hy; injection Hy as <-; done | by rewrite lookup_delete_eq in Hy].
  - split; [| done]. exists y. split; [| done]. destruct (0 <? i_refs x); cbn in Hy; [by rewrite lookup_insert_ne in Hy | by rewrite lookup_delete_ne in Hy].
Qed.

Definition without (old : option Z) A : lru := match old with Some o => sp_delete o A | None => A end.

Context `{!KeyLaws key}.

Lemma without_facts k old A :
  valid A → answer k A old → valid (without old A) ∧ shrinks A (without old A) ∧ ∀ b, ¬ holds k (without old A) b.
Proof.
  intros HA Hold. destruct old as [o |]; cbn in *; [| done]. pose proof Hold as (x & Ho & Hpo & Hko).
  assert (is_Some (items A !! o)) as Hso by (by exists x). split; [by apply valid_delete |]. split; [by apply delete_shrinks |].
  intros b Hb. apply (holds_delete o k A b HA Hso) in Hb as [(y & Hy & Hpy & Hky) Hne]. apply Hne.
  apply (va_unique _ HA b o y x); try done. pose proof key_equivalence as [_ Hsym Htr]. cbn in *.
  apply (Htr _ k); [by apply Hsym | done].
Qed.

Lemma without_ok k old s A :
  shape s A → valid A → answer k A old →
  ∃ s', match old with Some o => stx_cache_entry_delete o | None => ret tt end s = (Ok tt, s') ∧ shape s' (without old A) ∧
    hash_size (cache s') = hash_size (cache s).
Proof.
  intros Hs HA Hold. destruct old as [o |]; [| by exists s]. destruct Hold as (x & Ho & _).
  destruct (sh_item s A o x Hs Ho) as (e & He & _). destruct (delete_ok s A o Hs HA) as (s' & E & Hs'); [by eexists |].
  exists s'. split; [done |]. split; [done |]. pose proof (hash_delete o s) as Hh. by rewrite E in Hh.
Qed.

Lemma items_fit s A l : shape s A → NoDup l → (∀ a, a ∈ l → is_Some (items A !! a)) → (length l < S (size (entries s)))%nat.
Proof.
  intros Hs Hnd Hl. rewrite <- size_dom. apply le_n_S. rewrite <- (size_list_to_set (C := gset Z) l) by done.
  apply subseteq_size. intros a Ha%elem_of_list_to_set. destruct (Hl a Ha) as [x Hx].
  destruct (sh_item s A a x Hs Hx) as (e & He & _). apply elem_of_dom. by exists e.
Qed.

Lemma order_fits s A : shape s A → valid A → (length (order A) < S (size (entries s)))%nat.
Proof. intros Hs HA. apply (items_fit s A); [done | apply HA |]. intros a (x & Hx & _)%(va_order _ HA). by exists x. Qed.

(** Both evictions. *)
Lemma room_ok s A w :
  shape s A → valid A → 0 <= w → weight_limit A + w < 2 ^ 64 →
  ∃ s', (evict (S (size (entries s))) w ;; s <- gets id ;;
      if max_size (cache s) <=? cur_size (cache s) then evict_one else ret tt) s =
    ((if (sp_room w A).1 then Ok tt else Fail), s') ∧ shape s' (sp_room w A).2.
Proof.
  intros Hs HA Hw Hwt. unfold sp_room.
  destruct (evict_ok (S (size (entries s))) s A w Hs HA (order_fits s A Hs HA) Hw Hwt) as (s1 & E1 & Hs1).
  pose proof (valid_make_room (order A) w A HA) as HA1. destruct (sp_make_room (order A) w A) as [[] A1]; cbn [fst snd] in *.
  - rewrite (bind_ok _ _ _ _ _ E1). unfold bind. cbn [gets id]. by apply place_ok.
  - exists s1. unfold bind. by rewrite E1.
Qed.

(** ** Inserting *)
Lemma insert_ok s A a x :
  shape s A → valid A → loose A !! a = Some x → weight_limit A + i_weight x < 2 ^ 64 →
  let A1 := (sp_room (i_weight x) A).2 in
  if (sp_room (i_weight x) A).1
  then ∃ old s', stx_cache_entry_insert a s = (Ok tt, s') ∧ answer (i_key x) A1 old ∧
    shape s' (sp_insert a x old A1) ∧ valid (sp_insert a x old A1)
  else ∃ s', stx_cache_entry_insert a s = (Fail, s') ∧ shape s' A1 ∧ valid A1.
Proof.
  intros Hs HA Hx Hwt. cbv zeta. destruct (va_loose _ HA a x Hx) as (Hn & Hr & Hw & Hp).
  destruct (sh_loose s A a x Hs Hn Hx) as (e & He & Hex & _).
  destruct (room_ok s A (i_weight x) Hs HA Hw Hwt) as (s1 & E1 & Hs1).
  destruct (room_facts (i_weight x) A HA) as (HA1 & Hsh1 & Hroom). set (A1 := (sp_room (i_weight x) A).2) in *.
  assert (stx_cache_entry_insert a s = ((evict (S (size (entries s))) (i_weight x) ;; s <- gets id ;;
      if max_size (cache s) <=? cur_size (cache s) then evict_one else ret tt) ;;
    b <- bucket_of (i_key x) ;; old <- find_in_table (i_key x) ;;
    match old with Some o => stx_cache_entry_delete o | None => ret tt end ;; chain_in a b ;;
    upd a (λ e, with_ref_count (e_ref_count e + 1) e) ;; on_cache (count_stats 0 0 1 0) ;; on_cache (count_size 1 (i_weight x))) s) as ->.
  { unfold stx_cache_entry_insert. rewrite (bind_ok _ _ _ _ _ (the_entry_ok _ _ _ He)). unfold bind at 1. cbn [gets id].
    rewrite !bind_assoc. subst x. done. }
  destruct (sp_room (i_weight x) A).1.
  2: { exists s1. split; [| done]. unfold bind at 1. by rewrite E1. }
  destruct (Hroom eq_refl) as [Hw1 Hsz1]. clear Hroom. rewrite (bind_ok _ _ _ _ _ E1).
  destruct (sh_hash _ _ Hs1) as [Hh1 _]. rewrite (bind_ok _ _ _ _ _ (bucket_of_ok s1 _ Hh1)).
  destruct (find_in_table_ok s1 A1 (i_key x) Hs1) as (old & E2 & Hold). rewrite (bind_ok _ _ _ _ _ E2).
  destruct (without_ok (i_key x) old s1 A1 Hs1 HA1 Hold) as (s2 & E3 & Hs2 & Hh2). rewrite (bind_ok _ _ _ _ _ E3).
  destruct (without_facts (i_key x) old A1 HA1 Hold) as (HA2 & Hsh2 & Hnew). change (sp_insert a x old A1) with (sp_add a x (without old A1)).
  set (A2 := without old A1) in *. assert (shrinks A A2) as (Hl & Lsz & Lwt & Dwt & Dsz) by (by etrans).
  destruct Hsh1 as (_ & Lsz1 & Lwt1 & _), Hsh2 as (_ & _ & _ & Dw2 & Ds2).
  assert (loose A2 !! a = Some x) as Hx2 by (by rewrite Hl). destruct (va_loose _ HA2 a x Hx2) as (Hn2 & _).
  destruct (sh_loose s2 A2 a x Hs2 Hn2 Hx2) as (e2 & He2 & Hex2 & _).
  pose proof (va_size _ HA2). pose proof (valid_weight_nonneg _ HA2).
  assert (e_weight e2 = i_weight x ∧ e_ref_count e2 = i_refs x) as [Hwe Hre] by (by rewrite <- Hex2).
  destruct (add_ok s2 A2 a e2 Hs2 He2 Hn2) as (s3 & E4 & Hs3); try lia.
  rewrite Hex2 in *. unfold bucket_in in E4. rewrite Hh2 in E4.
  rewrite Hwe in E4.
  exists old, s3. split; [exact E4 |]. split; [done |]. split; [done |]. change (valid (sp_add a x A2)). apply valid_add; try done; lia.
Qed.

(** ** A new cache *)
Lemma new_cache_ok q sz w n cl :
  0 <= sz < 2 ^ 64 → 0 <= w < 2 ^ 64 → 0 < n →
  ∃ s, stx_cache_create (key := key) (data := data) (Some q) true sz w n cl = Ok s ∧ shape s (Lru ∅ ∅ [] [] sz w cl) ∧
    valid (key := key) (data := data) (Lru ∅ ∅ [] [] sz w cl).
Proof.
  intros Hsz Hw Hn. unfold stx_cache_create. cbn [negb].
  destruct (init_clist {[q := Link 0 0]} q) as (m & E & Hm); [by eexists; apply lookup_singleton_eq |].
  unfold STX_CLIST_INIT_CLIST. rewrite E. eexists. split; [reflexivity |]. split; split; cbn; try done; try (by apply NoDup_nil).
  - split; [done |]. by rewrite length_replicate.
  - intros i Hi. cbn in Hi. exists []. split; [by apply NoDup_nil |]. cbn. rewrite length_replicate in Hi. split; [by rewrite lookup_replicate_2 |].
    intros a. split; [by intros ?%not_elem_of_nil | by intros (x & Hx & _)].
  - intros a [? Ha]. done.
  - intros a. split; [by intros ?%not_elem_of_nil | by intros (x & Hx & _)].
Qed.

(** ** The calls of a client *)
Inductive call :=
  | Create (a : Z) (k : key) (d : data) (w : Z)
  | Insert (a : Z)
  | Lookup (k : key)
  | Release (a : Z)
  | Delete (a : Z).

Definition run (c : call) : M mem (option Z) :=
  match c with
  | Create a k d w => a <- stx_cache_entry_create (Some a) k d w ;; ret (Some a)
  | Insert a => stx_cache_entry_insert a ;; ret None
  | Lookup k => stx_cache_entry_lookup k
  | Release a => stx_cache_entry_release a ;; ret None
  | Delete a => stx_cache_entry_delete a ;; ret None
  end.

(** What is expected of a client: memory from [calloc], entries that exist, an entry that was not yet inserted, and
    weights that do not overflow. *)
Definition allowed s (c : call) : Prop :=
  match c with
  | Create a _ _ w => unused s a ∧ 0 <= w
  | Insert a => ∃ e, entries s !! a = Some e ∧ e_pthis e = None ∧ max_weight (cache s) + e_weight e < 2 ^ 64
  | Lookup _ => True
  | Release a | Delete a => is_Some (entries s !! a)
  end.

(** The specification of a call. *)
Inductive promises A : call → outcome (option Z) → lru → Prop :=
  | pr_create a k d w : promises A (Create a k d w) (Ok (Some a)) (sp_create a k d w A)
  | pr_insert a x old A1 : loose A !! a = Some x → sp_room (i_weight x) A = (true, A1) → answer (i_key x) A1 old →
      promises A (Insert a) (Ok None) (sp_insert a x old A1)
  | pr_full a x A1 : loose A !! a = Some x → sp_room (i_weight x) A = (false, A1) → promises A (Insert a) Fail A1
  | pr_hit k a : holds k A a → promises A (Lookup k) (Ok (Some a)) (sp_pin a A)
  | pr_miss k : (∀ a, ¬ holds k A a) → promises A (Lookup k) (Ok None) A
  | pr_release a : promises A (Release a) (Ok None) (sp_release a A)
  | pr_delete a : promises A (Delete a) (Ok None) (sp_delete a A).

Lemma loose_of s A a e : shape s A → entries s !! a = Some e → e_pthis e = None → loose A !! a = Some (item_of e).
Proof.
  intros Hs He Hp. pose proof (sh_view _ _ Hs a) as Hv. unfold view, look in Hv. rewrite He in Hv. cbn -[bool_decide] in Hv.
  rewrite Hp in Hv. rewrite bool_decide_false in Hv by tauto. destruct (items A !! a); [done |].
  destruct (loose A !! a); [| done]. by injection Hv as <-.
Qed.

Lemma refines s A (c : call) :
  shape s A → valid A → allowed s c → ∃ o s' A', run c s = (o, s') ∧ promises A c o A' ∧ shape s' A' ∧ valid A'.
Proof.
  intros Hs HA Hc. destruct c as [a k d w | a | k | a | a]; cbn [run allowed] in *.
  - destruct Hc as [Hu Hw]. destruct (entry_create_ok s A a k d w Hs Hu) as (s' & E & Hs' & Hn). do 3 eexists.
    split; [by rewrite (bind_ok _ _ _ _ _ E) |]. split; [constructor |]. split; [done |]. by apply valid_create.
  - destruct Hc as (e & He & Hp & Hwt). pose proof (loose_of s A a e Hs He Hp) as Hl.
    pose proof (sh_counted _ _ Hs) as (_ & _ & _ & Hmw & _). rewrite Hmw in Hwt.
    pose proof (insert_ok s A a (item_of e) Hs HA Hl Hwt) as H. cbv zeta in H.
    destruct (sp_room (i_weight (item_of e)) A) as [[] A1] eqn:Er; cbn [fst snd] in H.
    + destruct H as (old & s' & E & Hold & Hs' & HA'). do 3 eexists. split; [by rewrite (bind_ok _ _ _ _ _ E) |].
      split; [by eapply pr_insert | done].
    + destruct H as (s' & E & Hs' & HA'). exists Fail, s', A1. split; [unfold bind; by rewrite E |].
      split; [by eapply pr_full | done].
  - destruct (lookup_ok s A k Hs HA) as (r & s' & E & Hr & Hs'). exists (Ok r), s'. destruct r as [a |]; eexists;
      (split; [done |]); (split; [by constructor |]); (split; [done |]); [by apply valid_pin | done].
  - destruct (release_ok s A a Hs HA Hc) as (s' & E & Hs'). do 3 eexists. split; [by rewrite (bind_ok _ _ _ _ _ E) |].
    split; [constructor |]. split; [done |]. by apply valid_release.
  - destruct (delete_ok s A a Hs HA Hc) as (s' & E & Hs'). do 3 eexists. split; [by rewrite (bind_ok _ _ _ _ _ E) |].
    split; [constructor |]. split; [done |]. by apply valid_delete.
Qed.

(** One call after another. *)
Inductive session : mem → list call → list (outcome (option Z)) → mem → Prop :=
  | session_nil s : session s [] [] s
  | session_call s c o s1 cs os s2 : allowed s c → run c s = (o, s1) → session s1 cs os s2 → session s (c :: cs) (o :: os) s2.

Inductive promises_all : lru → list call → list (outcome (option Z)) → lru → Prop :=
  | promises_nil A : promises_all A [] [] A
  | promises_call A c o A1 cs os A2 : promises A c o A1 → promises_all A1 cs os A2 → promises_all A (c :: cs) (o :: os) A2.

Lemma promises_answers A c o A' : promises A c o A' → (∃ r, o = Ok r) ∨ o = Fail.
Proof. intros []; try (left; by eexists); by right. Qed.

(** ** Entries that are held *)
Definition keeps_held a A A' : Prop := ∀ x, items A !! a = Some x → 0 < i_refs x →
  ∃ x', items A' !! a = Some x' ∧ i_key x' = i_key x ∧ i_data x' = i_data x ∧ i_refs x <= i_refs x'.

#[export] Instance keeps_held_preorder a : PreOrder (keeps_held a).
Proof.
  split; [intros A x Hx _; by exists x |]. intros A B C H1 H2 x Hx Hr. destruct (H1 x Hx Hr) as (y & Hy & Ky & Dy & Ry).
  destruct (H2 y Hy ltac:(lia)) as (z & Hz & Kz & Dz & Rz). exists z. split_and!; congruence || lia.
Qed.

Lemma held_set a b A l y : (∀ x, items A !! b = Some x → i_key y = i_key x ∧ i_data y = i_data x ∧ (a = b → i_refs x <= i_refs y)) →
  is_Some (items A !! b) → keeps_held a A (with_order l (with_items (<[b := y]> (items A)) A)).
Proof.
  intros Hy [z Hz] x Hx Hr. cbn. destruct (decide (a = b)) as [-> |].
  - destruct (Hy x Hx) as (? & ? & ?). exists y. rewrite lookup_insert_eq. auto.
  - exists x. by rewrite lookup_insert_ne.
Qed.

Lemma held_drop a b x A : items A !! b = Some x → i_refs x <= 0 → keeps_held a A (drop_item b x A).
Proof. intros Hb Hx y Hy Hr. exists y. cbn. rewrite lookup_delete_ne; [done |]. intros ->. simplify_eq. lia. Qed.

Lemma held_evict a b A : valid A → b ∈ order A → keeps_held a A (sp_evict b A).
Proof.
  intros HA (x & Hx & H0)%(va_order _ HA). unfold sp_evict. rewrite Hx. apply held_drop; [done | lia].
Qed.

Lemma held_delete a b A : keeps_held a A (sp_delete b A).
Proof.
  unfold sp_delete. destruct (items A !! b) as [x |] eqn:Hb; [| destruct (loose A !! b); intros y Hy _; by exists y].
  destruct (Z.ltb_spec 0 (i_refs x)); [| by apply held_drop]. rewrite <- with_items_order.
  apply held_set; [| by eexists]. intros y Hy. by simplify_eq.
Qed.

Lemma held_make_room a w l A : valid A → order A = l → keeps_held a A (sp_make_room l w A).2.
Proof.
  revert A. induction l as [| b l IH]; intros A HA Ho; cbn [sp_make_room]; destruct (_ <=? _); try done.
  trans (sp_evict b A); [apply held_evict; [done | rewrite Ho; left] |]. apply IH; [by apply valid_evict | by apply order_evict].
Qed.

Lemma held_room a w A : valid A → keeps_held a A (sp_room w A).2.
Proof.
  intros HA. unfold sp_room. pose proof (held_make_room a w (order A) A HA eq_refl) as H1.
  pose proof (valid_make_room (order A) w A HA) as HA1. destruct (sp_make_room (order A) w A) as [[] A1]; cbn [fst snd] in *; [| done].
  etrans; [exact H1 |]. unfold sp_make_place. destruct (_ <? _); [done |]. destruct (order A1) as [| b l] eqn:Ho; [done |].
  apply held_evict; [done | rewrite Ho; left].
Qed.

Lemma held_call a A c o A' : promises A c o A' → valid A → c ≠ Release a → keeps_held a A A'.
Proof.
  intros Hp HA Hc. destruct Hp as [b k d w | b x old A1 Hl Hr Hold | b x A1 Hl Hr | k b (x & Hx & _) | k Hk | b | b].
  - intros y Hy _. by exists y.
  - pose proof (held_room a (i_weight x) A HA) as H1. destruct (room_facts (i_weight x) A HA) as (HA1 & (Hlo & _) & _). rewrite Hr in *. cbn [snd] in *.
    trans (without old A1); [trans A1; [done |]; destruct old; [apply held_delete | done] |].
    intros y Hy Hry. exists y. split; [| done]. cbn. rewrite lookup_insert_ne; [done |]. intros ->.
    destruct (va_loose _ HA1 a x) as (Hn & _); [by rewrite Hlo |].
    assert (valid (without old A1)) as HA2 by (destruct old; [by apply valid_delete | done]).
    assert (loose (without old A1) !! a = Some x) as Hl2.
    { destruct old as [o |]; cbn; [| by rewrite Hlo]. destruct Hold as (z & Hz & _).
      destruct (delete_shrinks A1 o HA1) as (-> & _); [by exists z | by rewrite Hlo]. }
    destruct (va_loose _ HA2 a x Hl2). unfold without in *. congruence.
  - pose proof (held_room a (i_weight x) A HA) as H1. by rewrite Hr in H1.
  - unfold sp_pin. rewrite Hx. apply held_set; [| by exists x]. intros y Hy. simplify_eq. cbn. split_and!; try done. lia.
  - done.
  - unfold sp_release. destruct (items A !! b) as [x |] eqn:Hb; [| done].
    destruct (Z.eqb_spec (i_refs x) 0); [done |]. assert (a ≠ b) as Hab by congruence. intros y Hy Hry. exists y. split; [| done].
    assert (<[b := set_refs (i_refs x - 1) x]> (items A) !! a = Some y) as Hi by by rewrite lookup_insert_ne.
    destruct (i_refs x =? 1); [| done]. destruct (i_pending x); [| done]. cbn. by rewrite lookup_delete_ne.
  - apply held_delete.
Qed.

Lemma promises_limits A c o A' : promises A c o A' → valid A → size_limit A' = size_limit A ∧ weight_limit A' = weight_limit A.
Proof.
  intros Hp HA. destruct Hp as [b k d w | b x old A1 Hl Hr Hold | b x A1 Hl Hr | k b (x & Hx & _) | k Hk | b | b]; try done.
  - destruct (room_facts (i_weight x) A HA) as (HA1 & (_ & H1 & H2 & _) & _). rewrite Hr in *. cbn [snd] in *.
    destruct (without_facts (i_key x) old A1 HA1 Hold) as (_ & (_ & H3 & H4 & _) & _). unfold without in *. cbn. split; congruence.
  - destruct (room_facts (i_weight x) A HA) as (_ & (_ & H1 & H2 & _) & _). by rewrite Hr in *.
  - unfold sp_pin. by destruct (items A !! b).
  - unfold sp_release. destruct (items A !! b) as [x |]; [| done]. destruct (i_refs x =? 0); [done |].
    destruct (i_refs x =? 1); [by destruct (i_pending x) | done].
  - unfold sp_delete. destruct (items A !! b) as [x |]; [by destruct (0 <? i_refs x) | by destruct (loose A !! b)].
Qed.
Lemma session_refines s A cs os s' :
  session s cs os s' → shape s A → valid A →
  ∃ A', promises_all A cs os A' ∧ shape s' A' ∧ valid A' ∧
    (size_limit A' = size_limit A ∧ weight_limit A' = weight_limit A) ∧ ∀ a, Forall (λ c, c ≠ Release a) cs → keeps_held a A A'.
Proof.
  intros H. revert A. induction H as [s | s c o s1 cs os s2 Hc Hr _ IH]; intros A Hs HA.
  { exists A. split; [constructor | done]. }
  destruct (refines s A c Hs HA Hc) as (o' & s1' & A1 & Hr' & Hp & Hs1 & HA1). rewrite Hr in Hr'. injection Hr' as <- <-.
  destruct (IH A1 Hs1 HA1) as (A2 & Hps & Hs2 & HA2 & [L1 L2] & Hk). exists A2. split; [by eapply promises_call |].
  destruct (promises_limits A c o A1 Hp HA) as [<- <-]. split_and!; try done.
  intros a [Hca Hcs]%Forall_cons. trans A1; [by eapply held_call | by apply Hk].
Qed.
End calls.
