(* ===== verification/LruWalk.v ===== *)
(** * extensions/lrucache.c: emptying a cache and walking through it

    [stx_cache_empty] deletes the entries of every chain while it walks along the chain, and the traversals list
    the entries of the table or of the list of free entries. *)

From stdpp Require Import base list sets gmap.
From Stdlib Require Import Lia ZArith.
From S2P Require Import Prelude.
From S2P Require Import Bytes.
From S2P Require Import Clist.
From S2P Require Import LruCache.
From S2P Require Import LruRefine.
From S2P Require Import LruCalls.

Local Open Scope Z_scope.

Section walk.
Context {key data : Type} `{!KeyFns key}.
Notation mem := (@mem key data).
Notation stx_centry := (@stx_centry key data).
Notation item := (@item key data).
Notation lru := (@lru key data).
Implicit Types (s : mem) (a b p w : Z) (e : stx_centry) (k : key) (A : lru) (x y : item).

(** ** What deleting an entry does to the [next] of others *)
Definition next_of s b : option Z := slot_val s (Next b).

Lemma upd_next a (f : stx_centry → stx_centry) b s :
  (b = a → ∀ e, e_next (f e) = e_next e) → next_of (upd a f s).2 b = next_of s b.
Proof.
  intros Hf. unfold upd, bind, the_entry, next_of. destruct (entries s !! a) as [e |] eqn:He; [| done]. cbn.
  destruct (decide (b = a)) as [-> |]; [rewrite lookup_insert_eq, He; cbn; by rewrite Hf | by rewrite lookup_insert_ne].
Qed.

Lemma bind_next {B C : Type} (c : M mem B) (f : B → M mem C) b s :
  next_of (c s).2 b = next_of s b → (∀ v, next_of (f v (c s).2).2 b = next_of (c s).2 b) → next_of (bind c f s).2 b = next_of s b.
Proof. intros Hc Hf. unfold bind. destruct (c s) as [[] s1]; cbn in *; try done. by rewrite Hf. Qed.

Lemma write_next sl v b s : sl ≠ Next b → next_of (write sl v s).2 b = next_of s b.
Proof.
  intros Hsl. destruct sl as [i | a]; cbn [write]; [unfold write_table; by destruct (table s !! i) |].
  apply upd_next. intros ->. done.
Qed.

Lemma the_entry_state a s : (the_entry a s).2 = s.
Proof. unfold the_entry. by destruct (entries s !! a). Qed.

Lemma delete_next a b e s :
  entries s !! a = Some e → b ≠ a → e_pthis e ≠ Some (Next b) → next_of (stx_cache_entry_delete a s).2 b = next_of s b.
Proof.
  intros He Hb Hp. unfold stx_cache_entry_delete. rewrite (bind_ok _ _ _ _ _ (upd_ok a with_pending e s He)).
  set (s1 := with_entries _ s). assert (next_of s1 b = next_of s b) as H1.
  { unfold next_of. cbn. by rewrite lookup_insert_ne. }
  assert (entries s1 !! a = Some (with_pending e)) as He1 by apply lookup_insert_eq.
  rewrite (bind_ok _ _ _ _ _ (the_entry_ok _ _ _ He1)), <- H1. cbn [e_ref_count with_pending e_pthis].
  destruct (0 <? e_ref_count e); [done |]. apply bind_next.
  - destruct (e_pthis e) as [sl |]; [| done]. assert (sl ≠ Next b) by congruence. apply bind_next.
    + apply bind_next; [by apply write_next |]. intros _. destruct (_ =? 0); [done |]. by apply upd_next.
    + intros _. repeat (apply bind_next; [done | intros _]). unfold on_links. by destruct (STX_CLIST_REMOVE_LINK _ _).
  - intros _. apply bind_next; [unfold clean_up, next_of; cbn; by destruct (cleanup _) |]. intros _.
    unfold next_of, free. cbn. by rewrite lookup_delete_ne.
Qed.

(** ** Deleting every entry *)
Definition sp_delete_all (l : list Z) A : lru := foldl (λ A a, sp_delete a A) A l.

Definition sp_empty (m : gmap Z item) : gmap Z item := base.omap (λ x, if 0 <? i_refs x then Some (set_pending x) else None) m.

Lemma set_pending_idem x : set_pending (set_pending x) = set_pending x.
Proof. done. Qed.

Lemma delete_item_of a b A : valid A →
  items (sp_delete a A) !! b = if decide (b = a) then items A !! a ≫= (λ x, if 0 <? i_refs x then Some (set_pending x) else None) else items A !! b.
Proof.
  intros HA. unfold sp_delete. destruct (items A !! a) as [x |] eqn:Ha.
  - destruct (0 <? i_refs x) eqn:Hr; cbn; rewrite ?Hr; destruct (decide (b = a)) as [-> |];
      [by rewrite lookup_insert_eq | by rewrite lookup_insert_ne | by rewrite lookup_delete_eq | by rewrite lookup_delete_ne].
  - destruct (decide (b = a)) as [-> |]; by destruct (loose A !! a).
Qed.

Lemma valid_delete_all l A : valid A → valid (sp_delete_all l A).
Proof. revert A. induction l as [| a l IH]; intros A HA; cbn; [done |]. by apply IH, valid_delete. Qed.

Lemma delete_all_item l A b : valid A →
  items (sp_delete_all l A) !! b = if decide (b ∈ l) then items A !! b ≫= (λ x, if 0 <? i_refs x then Some (set_pending x) else None) else items A !! b.
Proof.
  revert A. induction l as [| a l IH]; intros A HA; cbn [sp_delete_all foldl]; [done |].
  change (foldl _ (sp_delete a A) l) with (sp_delete_all l (sp_delete a A)). rewrite IH by by apply valid_delete.
  rewrite (delete_item_of a b A HA). destruct (decide (b = a)) as [-> | Hb].
  - rewrite (decide_True (P := a ∈ a :: l)) by by left. destruct (decide (a ∈ l)); [| done].
    destruct (items A !! a) as [x |]; [| done]. cbn. destruct (0 <? i_refs x) eqn:Hr; [| done]. cbn. by rewrite Hr.
  - destruct (decide (b ∈ l)); [by rewrite (decide_True (P := b ∈ a :: l)) by by right | rewrite (decide_False (P := b ∈ a :: l)); [done |]].
    by apply not_elem_of_cons.
Qed.

(** [l] is what [next] leads through from the entry [hd 0 l]. *)
Fixpoint trail s (l : list Z) : Prop :=
  match l with
  | [] => True
  | a :: l => a ≠ 0 ∧ next_of s a = Some (hd 0 l) ∧ trail s l
  end.

Lemma trail_ext s s' l : (∀ a, a ∈ l → next_of s' a = next_of s a) → trail s l → trail s' l.
Proof.
  induction l as [| a l IH]; intros H; cbn [trail]; [done |]. intros (H1 & H2 & H3). split; [done |].
  rewrite (H a) by left. split; [done |]. apply IH; [| done]. intros b Hb. apply H. by right.
Qed.

Lemma chain_trail s sl l : chain s sl l → trail s l.
Proof.
  revert sl. induction l as [| a l IH]; intros sl; cbn [chain trail]; [done |]. intros (_ & H1 & _ & H2). split; [done |].
  split; [| by eapply IH]. unfold next_of. destruct l; [done | by destruct H2].
Qed.

(** Nothing of a trail points at an entry outside it. *)
Lemma trail_points s l a b : trail s l → a ∉ l → a ≠ 0 → b ∈ l → next_of s b ≠ Some a.
Proof.
  induction l as [| c l IH]; intros Ht Ha Ha0 Hb; [by apply not_elem_of_nil in Hb |]. destruct Ht as (_ & H2 & H3).
  apply not_elem_of_cons in Ha as [Hac Ha]. apply elem_of_cons in Hb as [-> | Hb]; [| by apply IH]. rewrite H2.
  intros [= Heq]. destruct l; cbn in Heq; [done |]. subst. apply Ha. left.
Qed.

Lemma over_chain_ok fuel s A l :
  shape s A → valid A → NoDup l → trail s l → (∀ a, a ∈ l → is_Some (items A !! a)) → (length l < fuel)%nat →
  ∃ s', over_chain fuel stx_cache_entry_delete (hd 0 l) s = (Ok tt, s') ∧ shape s' (sp_delete_all l A) ∧
    hash_size (cache s') = hash_size (cache s).
Proof.
  revert fuel s A. induction l as [| a l IH]; intros [| fuel] s A Hs HA Hnd Ht Hin Hf; try (cbn in Hf; lia); cbn [hd over_chain]; [by exists s |].
  destruct Ht as (Ha0 & Hn & Ht). rewrite (proj2 (Z.eqb_neq a 0) Ha0). apply NoDup_cons in Hnd as [Ha Hnd].
  destruct (Hin a) as [x Hx]; [left |]. destruct (sh_item s A a x Hs Hx) as (e & He & _ & _).
  rewrite (bind_ok _ _ _ _ _ (the_entry_ok _ _ _ He)).
  destruct (delete_ok s A a Hs HA) as (s1 & E1 & Hs1); [by eexists |]. rewrite (bind_ok _ _ _ _ _ E1).
  unfold next_of in Hn. cbn in Hn. rewrite He in Hn. injection Hn as ->.
  destruct (chain_around s A a x e Hs Hx He) as (l1 & l2 & _ & _ & Hch & _ & Hp & _).
  apply chain_app in Hch as [(Hsl & _) _].
  pose proof (hash_delete a s) as Hh. rewrite E1 in Hh. cbn in Hh.
  destruct (IH fuel s1 (sp_delete a A)) as (s2 & E2 & Hs2 & Hh2); try done.
  - by apply valid_delete.
  - apply (trail_ext s); [| done]. intros b Hb. pose proof (delete_next a b e s He) as Hd. rewrite E1 in Hd. apply Hd.
    + intros ->. done.
    + rewrite Hp. intros [= Heq]. rewrite Heq in Hsl. by apply (trail_points s l a b) in Hsl.
  - intros b Hb. rewrite (delete_item_of a b A HA), decide_False by (intros ->; done). apply Hin. by right.
  - cbn in Hf. lia.
  - exists s2. split; [exact E2 |]. split; [exact Hs2 | by rewrite Hh2].
Qed.

Lemma delete_all_key l A b y : valid A → items (sp_delete_all l A) !! b = Some y → ∃ x, items A !! b = Some x ∧ i_key y = i_key x.
Proof.
  intros HA. rewrite (delete_all_item l A b HA). destruct (decide (b ∈ l)); [| intros Hy; by exists y].
  destruct (items A !! b) as [x |]; [| done]. cbn. destruct (0 <? i_refs x); [| done]. intros [= <-]. by exists x.
Qed.

Lemma table_deletes n idx s A :
  shape s A → valid A → Forall (λ i, (i < Z.to_nat (hash_size (cache s)))%nat) idx →
  (∀ l, NoDup l → (∀ a, a ∈ l → is_Some (items A !! a)) → (length l < n)%nat) →
  ∃ s' l, for_each (λ i, p <- read_table i ;; over_chain n stx_cache_entry_delete p) idx s = (Ok tt, s') ∧
    shape s' (sp_delete_all l A) ∧ ∀ a, a ∈ l ↔ ∃ x, items A !! a = Some x ∧ bucket_in s x ∈ idx.
Proof.
  revert s A. induction idx as [| i idx IH]; intros s A Hs HA Hidx Hn; cbn [for_each].
  { exists s, []. split; [done |]. split; [done |]. intros a. split; [by intros ?%not_elem_of_nil | by intros (? & _ & ?%not_elem_of_nil)]. }
  apply Forall_cons in Hidx as [Hi Hidx]. destruct (sh_hash _ _ Hs) as [Hh Hlen]. rewrite <- Hlen in Hi.
  destruct (sh_chained _ _ Hs i Hi) as (l & Hnd & Hch & Hin).
  assert (∀ a, a ∈ l → is_Some (items A !! a)) as Hsome by (intros a (x & Hx & _)%Hin; by exists x).
  rewrite bind_assoc, (bind_ok _ _ _ _ _ (read_table_ok s i l Hch)).
  destruct (over_chain_ok n s A l Hs HA Hnd (chain_trail _ _ _ Hch) Hsome (Hn l Hnd Hsome)) as (s1 & E1 & Hs1 & Hh1).
  rewrite (bind_ok _ _ _ _ _ E1).
  destruct (IH s1 (sp_delete_all l A)) as (s2 & l' & E2 & Hs2 & Hin2); [done | by apply valid_delete_all | by rewrite Hh1 | |].
  { intros l' Hl' Hs'. apply Hn; [done |]. intros a [y Hy]%Hs'. apply delete_all_key in Hy as (x & Hx & _); [by exists x | done]. }
  exists s2, (l ++ l'). split; [exact E2 |]. unfold sp_delete_all at 1. rewrite foldl_app. split; [exact Hs2 |].
  assert (∀ y, bucket_in s1 y = bucket_in s y) as Hb by (intros y; unfold bucket_in; by rewrite Hh1).
  intros a. rewrite elem_of_app, Hin2. split.
  - intros [(x & Hx & Hxi)%Hin | (y & Hy & Hyi)]; [exists x; split; [done | rewrite Hxi; by left] |].
    destruct (delete_all_key l A a y HA Hy) as (x & Hx & Hk). exists x. split; [done |]. right.
    rewrite Hb in Hyi. unfold bucket_in in *. by rewrite <- Hk.
  - intros (x & Hx & Hxi). destruct (decide (a ∈ l)) as [Ha | Ha]; [by left |]. right. exists x. rewrite Hb.
    split; [by rewrite (delete_all_item l A a HA), decide_False |]. apply elem_of_cons in Hxi as [Hxi |]; [| done].
    exfalso. apply Ha, Hin. by exists x.
Qed.

Lemma delete_all_loose l A b y : loose (sp_delete_all l A) !! b = Some y → loose A !! b = Some y.
Proof.
  revert A. induction l as [| a l IH]; intros A Hy; cbn in *; [done |]. apply IH in Hy. unfold sp_delete in Hy.
  destruct (items A !! a) as [x |]; [by destruct (0 <? i_refs x) |].
  destruct (loose A !! a); [cbn in Hy; by apply lookup_delete_Some in Hy as [_ Hy] | done].
Qed.

Lemma empty_ok s A :
  shape s A → valid A →
  ∃ s' A', stx_cache_empty s = (Ok tt, s') ∧ shape s' A' ∧ valid A' ∧ items A' = sp_empty (items A) ∧ order A' = [] ∧
    ∀ b y, loose A' !! b = Some y → loose A !! b = Some y.
Proof.
  intros Hs HA. unfold stx_cache_empty, over_table. unfold bind at 1. cbn [gets id]. destruct (sh_hash _ _ Hs) as [Hh _].
  destruct (table_deletes (S (size (entries s))) (seq 0 (Z.to_nat (hash_size (cache s)))) s A Hs HA) as (s' & l & E & Hs' & Hin).
  { apply Forall_forall. intros i Hi%elem_of_seq. lia. }
  { intros l Hnd Hl. by apply (items_fit s A). }
  pose proof (valid_delete_all l A HA) as HA'. exists s', (sp_delete_all l A). split; [exact E |]. split; [done |]. split; [done |].
  assert (items (sp_delete_all l A) = sp_empty (items A)) as Hit.
  { apply map_eq. intros a. rewrite (delete_all_item l A a HA). unfold sp_empty. rewrite lookup_omap.
    destruct (items A !! a) as [x |] eqn:Ha; [| by destruct (decide _)]. rewrite decide_True; [done |]. apply Hin.
    exists x. split; [done |]. apply elem_of_seq. pose proof (bucket_range (hash_size (cache s)) (i_key x) Hh). unfold bucket_in. lia. }
  split; [done |]. split; [| intros b y; apply delete_all_loose]. destruct (order (sp_delete_all l A)) as [| a o] eqn:Ho; [done | exfalso].
  assert (a ∈ order (sp_delete_all l A)) as (x & Hx & Hr)%(va_order _ HA') by (rewrite Ho; left).
  rewrite Hit in Hx. unfold sp_empty in Hx. rewrite lookup_omap in Hx. destruct (items A !! a) as [y |]; [| done]. cbn in Hx.
  destruct (Z.ltb_spec 0 (i_refs y)); [| done]. injection Hx as <-. cbn in Hr. lia.
Qed.

(** ** Traversals *)
(** The key and the data of the items at [l]. *)
Definition listing A (l : list Z) : list (key * data) := base.omap (λ a, (λ x, (i_key x, i_data x)) <$> items A !! a) l.

Lemma listing_cons A a x l : items A !! a = Some x → listing A (a :: l) = (i_key x, i_data x) :: listing A l.
Proof. intros Ha. unfold listing. cbn. by rewrite Ha. Qed.

(** [step] leads from each of [l] to the following one, and then to the head of the list. *)
Fixpoint route (step : Z → M (gmap Z _st_clist_t) Z) s (l : list Z) : Prop :=
  match l with
  | [] => True
  | a :: l => a ≠ lru_list s ∧ step a (links s) = (Ok (hd (lru_list s) l), links s) ∧ route step s l
  end.

Lemma traverse_list_ok step s A n l :
  shape s A → (∀ a, a ∈ l → is_Some (items A !! a)) → route step s l →
  traverse_list step n (hd (lru_list s) l) s = (Ok (listing A (take n l)), s).
Proof.
  intros Hs. revert l. induction n as [| n IH]; intros l Hl Hr; cbn [traverse_list take]; [done |].
  unfold bind at 1. cbn [gets id]. destruct l as [| a l]; cbn [hd]; [by rewrite Z.eqb_refl |]. destruct Hr as (Hq & Hstep & Hr).
  rewrite (proj2 (Z.eqb_neq _ _) Hq). destruct (Hl a) as [x Hx]; [left |]. destruct (sh_item s A a x Hs Hx) as (e & He & Hex & _).
  rewrite (bind_ok _ _ _ _ _ (the_entry_ok _ _ _ He)), (bind_ok _ _ _ _ _ (on_lru_links_ok _ s _ _ Hstep)), lru_links_same.
  unfold bind. rewrite IH; [| intros b Hb; apply Hl; by right | done].
  cbn [take]. rewrite (listing_cons A a x) by done. by subst x.
Qed.

Lemma route_next s p l : seg (links s) p l (lru_list s) → lru_list s ∉ l → route get_next s l.
Proof.
  revert p. induction l as [| a l IH]; intros p Hseg Hq; [done |]. destruct Hseg as (_ & _ & Hseg).
  apply not_elem_of_cons in Hq as [Hqa Hq]. split; [by apply not_eq_sym |]. split; [by apply get_next_run, (seg_next _ _ _ _ Hseg) | by apply (IH a)].
Qed.

Lemma last_reverse (l : list Z) p : List.last l p = hd p (reverse l).
Proof.
  destruct l as [| x l _] using rev_ind; [done |]. rewrite reverse_app. apply List.last_last.
Qed.

Lemma route_prev s l q : seg (links s) (lru_list s) l q → lru_list s ∉ l → route get_prev s (reverse l).
Proof.
  revert q. induction l as [| a l IH] using rev_ind; intros q Hseg Hq; [done |]. rewrite reverse_app. cbn [reverse rev_append app route].
  apply seg_app in Hseg as [Hseg _]. apply not_elem_of_app in Hq as [Hq Hqa%not_elem_of_cons]. split; [by destruct Hqa; apply not_eq_sym |].
  split; [| by apply (IH a)]. apply get_prev_run. rewrite (seg_prev _ _ _ _ Hseg). by rewrite last_reverse.
Qed.

Lemma traverse_lru_ok s A n : shape s A → valid A → stx_cache_traverse_lru n s = (Ok (listing A (take n (order A))), s).
Proof.
  intros Hs HA. destruct (sh_clist _ _ Hs) as [[Hq Hnd]%NoDup_cons Hseg]. unfold stx_cache_traverse_lru. unfold bind at 1. cbn [gets id].
  rewrite (bind_ok _ _ _ _ _ (on_lru_links_ok _ s _ _ (get_next_run _ _ _ (seg_next _ _ _ _ Hseg)))), lru_links_same.
  apply traverse_list_ok; [done | | by eapply route_next]. intros a (x & Hx & _)%(va_order _ HA). by exists x.
Qed.

Lemma traverse_mru_ok s A n : shape s A → valid A → stx_cache_traverse_mru n s = (Ok (listing A (take n (reverse (order A)))), s).
Proof.
  intros Hs HA. destruct (sh_clist _ _ Hs) as [[Hq Hnd]%NoDup_cons Hseg]. unfold stx_cache_traverse_mru. unfold bind at 1. cbn [gets id].
  rewrite (bind_ok _ _ _ _ _ (on_lru_links_ok _ s _ _ (get_prev_run _ _ _ (seg_prev _ _ _ _ Hseg)))), lru_links_same, last_reverse.
  apply traverse_list_ok; [done | | by eapply route_prev]. intros a (x & Hx & _)%elem_of_reverse%(va_order _ HA). by exists x.
Qed.

Definition unmarked A a : bool := match items A !! a with Some x => negb (i_pending x) | None => false end.

Lemma traverse_chain_ok s A l fuel :
  shape s A → trail s l → (∀ a, a ∈ l → is_Some (items A !! a)) → (length l < fuel)%nat →
  traverse_chain fuel (hd 0 l) s = (Ok (listing A (filter (λ a, unmarked A a = true) l)), s).
Proof.
  intros Hs. revert fuel. induction l as [| a l IH]; intros [| fuel] Ht Hl Hf; try (cbn in Hf; lia); cbn [hd traverse_chain]; [done |].
  destruct Ht as (Ha0 & Hn & Ht). rewrite (proj2 (Z.eqb_neq a 0) Ha0). destruct (Hl a) as [x Hx]; [left |].
  destruct (sh_item s A a x Hs Hx) as (e & He & Hex & _). rewrite (bind_ok _ _ _ _ _ (the_entry_ok _ _ _ He)).
  unfold next_of in Hn. cbn in Hn. rewrite He in Hn. injection Hn as ->.
  unfold bind. rewrite IH; [| done | intros b Hb; apply Hl; by right | cbn in Hf; lia].
  assert (unmarked A a = negb (e_delete_pending e)) as Hu by (unfold unmarked; rewrite Hx; by subst x).
  rewrite filter_cons, Hu. destruct (e_delete_pending e); [by rewrite decide_False by done |]. rewrite decide_True by done.
  rewrite (listing_cons A a x) by done. by subst x.
Qed.

Lemma listing_app A l l' : listing A (l ++ l') = listing A l ++ listing A l'.
Proof. apply omap_app. Qed.

Lemma traverse_table_ok s A idx :
  shape s A → NoDup idx → Forall (λ i, (i < Z.to_nat (hash_size (cache s)))%nat) idx →
  ∃ l, traverse_table idx s = (Ok (listing A l), s) ∧ NoDup l ∧
    ∀ a, a ∈ l ↔ ∃ x, items A !! a = Some x ∧ i_pending x = false ∧ bucket_in s x ∈ idx.
Proof.
  intros Hs Hnd Hidx. induction idx as [| i idx IH]; cbn [traverse_table].
  { exists []. split; [done |]. split; [by apply NoDup_nil |]. intros a. split; [by intros ?%not_elem_of_nil | by intros (? & _ & _ & ?%not_elem_of_nil)]. }
  apply Forall_cons in Hidx as [Hi Hidx]. apply NoDup_cons in Hnd as [Hi2 Hnd]. destruct (IH Hnd Hidx) as (l' & E & Hnd' & Hin'). clear IH.
  destruct (sh_hash _ _ Hs) as [_ Hlen]. rewrite <- Hlen in Hi.
  destruct (sh_chained _ _ Hs i Hi) as (l & Hndl & Hch & Hin).
  assert (∀ a, a ∈ l → is_Some (items A !! a)) as Hsome by (intros a (x & Hx & _)%Hin; by exists x).
  unfold bind at 1. cbn [gets id]. rewrite (bind_ok _ _ _ _ _ (read_table_ok s i l Hch)).
  rewrite (bind_ok _ _ _ _ _ (traverse_chain_ok s A l _ Hs (chain_trail _ _ _ Hch) Hsome (items_fit s A l Hs Hndl Hsome))).
  unfold bind. rewrite E. set (f := filter _ l). exists (f ++ l'). split; [by rewrite listing_app |].
  assert (∀ a, a ∈ f ↔ ∃ x, items A !! a = Some x ∧ i_pending x = false ∧ bucket_in s x = i) as Hf.
  { intros a. unfold f. rewrite list_elem_of_filter, Hin. unfold unmarked. split.
    - intros [Hu (x & Hx & Hb)]. rewrite Hx in Hu. exists x. split; [done |]. split; [by apply negb_true_iff | done].
    - intros (x & Hx & Hp & Hb). rewrite Hx, Hp. split; [done | by exists x]. }
  split.
  - apply NoDup_app. split; [by apply NoDup_filter |]. split; [| done]. intros a (x & Hx & _ & Hb)%Hf (y & Hy & _ & Hby)%Hin'.
    rewrite Hx in Hy. injection Hy as <-. by rewrite Hb in Hby.
  - intros a. rewrite elem_of_app, Hf, Hin'. setoid_rewrite elem_of_cons. naive_solver.
Qed.

Lemma traverse_ok s A :
  shape s A → ∃ l, stx_cache_traverse s = (Ok (listing A l), s) ∧ NoDup l ∧ ∀ a, a ∈ l ↔ ∃ x, items A !! a = Some x ∧ i_pending x = false.
Proof.
  intros Hs. unfold stx_cache_traverse. unfold bind at 1. cbn [gets id]. destruct (sh_hash _ _ Hs) as [Hh _].
  destruct (traverse_table_ok s A (seq 0 (Z.to_nat (hash_size (cache s)))) Hs) as (l & E & Hnd & Hin).
  - apply NoDup_seq.
  - apply Forall_forall. intros i Hi%elem_of_seq. lia.
  - exists l. split; [exact E |]. split; [done |]. intros a. rewrite Hin. split; [naive_solver |]. intros (x & Hx & Hp). exists x.
    split; [done |]. split; [done |]. apply elem_of_seq. pose proof (bucket_range (hash_size (cache s)) (i_key x) Hh). unfold bucket_in. lia.
Qed.
End walk.
