(* ===== verification/LruProps.v ===== *)
(** * extensions/lrucache.c: what a client gets

    Any sequence of calls that keeps the rules of [allowed], on a cache from [stx_cache_create]. *)

From stdpp Require Import base list sets gmap.
From Stdlib Require Import Lia ZArith.
From S2P Require Import Prelude.
From S2P Require Import Bytes.
From S2P Require Import Clist.
From S2P Require Import LruCache.
From S2P Require Import LruRefine.
From S2P Require Import LruCalls.
From S2P Require Import LruWalk.

Local Open Scope Z_scope.

Section props.
Context {key data : Type} `{!KeyFns key, !KeyLaws key}.
Notation mem := (@mem key data).
Notation stx_centry := (@stx_centry key data).
Notation lru := (@lru key data).
Notation call := (@call key data).
Implicit Types (s : mem) (a q : Z) (e : stx_centry) (k : key) (A : lru) (c : call).

#[export] Instance allowed_dec s c : Decision (allowed s c).
Proof.
  destruct c as [a k d w | a | k | a | a]; cbn; try apply _; try (unfold unused; apply _).
  destruct (entries s !! a) as [e |]; [| right; by intros (e & ? & _)].
  destruct (decide (e_pthis e = None ∧ max_weight (cache s) + e_weight e < 2 ^ 64)) as [H | H]; [left; by exists e |].
  right. intros (e' & [= <-] & H'). done.
Defined.

(** The calls [cs] one after another, while they are allowed. *)
Fixpoint play s (cs : list call) : option (list (outcome (option Z)) * mem) :=
  match cs with
  | [] => Some ([], s)
  | c :: cs =>
      if decide (allowed s c) then
        match play (run c s).2 cs with Some (os, s') => Some ((run c s).1 :: os, s') | None => None end
      else None
  end.

Lemma play_session s cs os s' : play s cs = Some (os, s') → session s cs os s'.
Proof.
  revert s os. induction cs as [| c cs IH]; intros s os; cbn [play]; [intros [= <- <-]; constructor |].
  destruct (decide (allowed s c)) as [Hc |]; [| done]. destruct (run c s) as [o s1] eqn:Hr. cbn [fst snd].
  destruct (play s1 cs) as [[os' s2] |] eqn:Hp; [| done]. intros [= <- <-]. by eapply session_call; [| | apply IH].
Qed.

(** A cache with the limits [sz] and [w] that was used with the calls [cs]. *)
Definition used sz w n cl (cs : list call) (os : list (outcome (option Z))) s : Prop :=
  0 <= sz < 2 ^ 64 ∧ 0 <= w < 2 ^ 64 ∧ 0 < n ∧
  ∃ q s0, stx_cache_create (Some q) true sz w n cl = Ok s0 ∧ session s0 cs os s.

Definition no_items sz w cl : lru := Lru ∅ ∅ [] [] sz w cl.

Lemma used_refines sz w n cl cs os s :
  used sz w n cl cs os s →
  ∃ A, promises_all (no_items sz w cl) cs os A ∧ shape s A ∧ valid A ∧ size_limit A = sz ∧ weight_limit A = w.
Proof.
  intros (Hsz & Hw & Hn & q & s0 & Hc & Hs). destruct (new_cache_ok (key := key) (data := data) q sz w n cl Hsz Hw Hn) as (s0' & Hc' & Hsh & HA).
  rewrite Hc in Hc'. injection Hc' as <-. destruct (session_refines _ _ _ _ _ Hs Hsh HA) as (A & Hp & Hs' & HA' & [] & _). by exists A.
Qed.

(** ** The properties *)
(** C32: every sequence of calls that obeys the rules has, call by call, the results that the specification of
    an LRU cache allows (hits and misses by the caller's comparison, eviction of the entries unused for longest and of no more
    than needed, replacement of the entry with the same key, deferred deletion of entries in use), and the hash
    table, its back pointers and the list of free entries represent the specification's cache at the end. *)
Theorem lru_calls_refine sz w n cl cs os s :
  used sz w n cl cs os s → ∃ A, promises_all (no_items sz w cl) cs os A ∧ shape s A ∧ valid A.
Proof. intros (A & H1 & H2 & H3 & _)%used_refines. by exists A. Qed.

(** C33: every call returns: the search along a chain and both eviction loops end, and no call reads or writes
    an entry that was freed or a link outside the lists; only an insertion can fail. *)
Theorem lru_calls_return sz w n cl cs os s c :
  used sz w n cl cs os s → allowed s c →
  ∃ o s', run c s = (o, s') ∧ ((∃ r, o = Ok r) ∨ o = Fail ∧ ∃ a, c = Insert a).
Proof.
  intros (A & _ & Hs & HA & _)%used_refines Hc. destruct (refines s A c Hs HA Hc) as (o & s' & A' & Hr & Hp & _).
  exists o, s'. split; [done |]. destruct Hp; try (left; by eexists). right. split; [done | by eexists].
Qed.

(** The entries in the table. *)
Definition inside s : gmap Z stx_centry := filter (λ p, e_pthis p.2 ≠ None) (entries s).

Lemma inside_items s A : shape s A → items A = item_of <$> inside s.
Proof.
  intros Hs. apply map_eq. intros a. pose proof (sh_view _ _ Hs a) as Hv. unfold view, look in Hv. rewrite lookup_fmap. unfold inside.
  rewrite map_lookup_filter. destruct (entries s !! a) as [e |]; cbn -[bool_decide] in *.
  - case_guard as Hp; cbn.
    + rewrite (bool_decide_eq_true_2 _ Hp) in Hv. destruct (items A !! a); [by injection Hv as <- | by destruct (loose A !! a)].
    + rewrite Hp, bool_decide_false in Hv by tauto. by destruct (items A !! a).
  - by destruct (items A !! a).
Qed.

(** The cache never holds more entries or more weight than it was created for, and the counters that
    [stx_cache_getsize] and [stx_cache_getweight] return are exact. *)
Theorem lru_limits_kept sz w n cl cs os s :
  used sz w n cl cs os s →
  stx_cache_getsize s = Z.of_nat (size (inside s)) ∧ stx_cache_getsize s <= sz ∧
  stx_cache_getweight s = map_fold (λ _ e n, e_weight e + n) 0 (inside s) ∧ stx_cache_getweight s <= w.
Proof.
  intros (A & _ & Hs & HA & Hsz & Hw)%used_refines. pose proof (sh_counted _ _ Hs) as (C1 & C2 & _).
  unfold stx_cache_getsize, stx_cache_getweight. rewrite C1, C2. pose proof (va_size _ HA). pose proof (va_weight _ HA).
  rewrite (inside_items s A Hs) in *. unfold weight_of in *. rewrite map_size_fmap, map_fold_fmap in *. split_and!; try done; lia.
Qed.

(** C34: an entry that a caller holds is neither freed nor evicted nor changed by any calls of others, the
    deletion of the entry, the replacement of its key and insertions into the full cache included. *)
Theorem lru_held_survive sz w n cl cs0 os0 s a e cs os s' :
  used sz w n cl cs0 os0 s → entries s !! a = Some e → 0 < e_ref_count e →
  session s cs os s' → Forall (λ c, c ≠ Release a) cs →
  ∃ e', entries s' !! a = Some e' ∧ e_key e' = e_key e ∧ e_data e' = e_data e ∧ e_ref_count e <= e_ref_count e'.
Proof.
  intros (A & _ & Hs & HA & _)%used_refines He Hr Hses Hcs.
  destruct (session_refines _ _ _ _ _ Hses Hs HA) as (A' & _ & Hs' & _ & _ & Hk).
  assert (items A !! a = Some (item_of e)) as Hi.
  { pose proof (sh_view _ _ Hs a) as Hv. unfold view, look in Hv. rewrite He in Hv. cbn -[bool_decide] in Hv.
    destruct (items A !! a) as [x |]; [by injection Hv as <- |]. destruct (loose A !! a) as [x |] eqn:Hx; [| done].
    injection Hv as <- _. destruct (va_loose _ HA a _ Hx) as (_ & H0 & _). cbn in H0. lia. }
  destruct (Hk a Hcs _ Hi Hr) as (x & Hx & Kx & Dx & Rx). destruct (sh_item s' A' a x Hs' Hx) as (e' & He' & <- & _). by exists e'.
Qed.

(** [stx_cache_empty] ends although it deletes the entries that it walks along: those nobody holds are freed,
    those in use are marked, and no key is found any more. *)
Theorem lru_empty_clears sz w n cl cs os s :
  used sz w n cl cs os s →
  ∃ s', stx_cache_empty s = (Ok tt, s') ∧ (∀ k, (stx_cache_entry_lookup k s').1 = Ok None) ∧
    ∀ a e, inside s !! a = Some e →
      if 0 <? e_ref_count e
      then ∃ e', entries s' !! a = Some e' ∧ e_delete_pending e' = true ∧ e_ref_count e' = e_ref_count e
      else entries s' !! a = None.
Proof.
  intros (A & _ & Hs & HA & _)%used_refines. destruct (empty_ok s A Hs HA) as (s' & A' & E & Hs' & HA' & Hi & _ & Hl).
  exists s'. split; [done |]. split.
  - intros k. destruct (lookup_ok s' A' k Hs' HA') as (r & s2 & -> & Hr & _). cbn. destruct r as [a |]; [| done].
    destruct Hr as (x & Hx & Hp & _). rewrite Hi in Hx. unfold sp_empty in Hx. rewrite lookup_omap in Hx.
    destruct (items A !! a) as [y |]; [| done]. cbn in Hx. destruct (0 <? i_refs y); [by injection Hx as <- | done].
  - intros a e He. assert (items A !! a = Some (item_of e)) as Ha by (rewrite (inside_items s A Hs), lookup_fmap; by rewrite He).
    assert (items A' !! a = if 0 <? e_ref_count e then Some (set_pending (item_of e)) else None) as Ha'.
    { rewrite Hi. unfold sp_empty. rewrite lookup_omap, Ha. done. }
    destruct (0 <? e_ref_count e).
    + destruct (sh_item s' A' a _ Hs' Ha') as (e' & He' & Hx & _). exists e'. split; [done |]. unfold item_of, set_pending in Hx. cbn in Hx. by injection Hx.
    + pose proof (sh_view _ _ Hs' a) as Hv. unfold view, look in Hv. rewrite Ha' in Hv.
      destruct (loose A' !! a) as [y |] eqn:Hy; [| by destruct (entries s' !! a)].
      apply Hl, (va_loose _ HA) in Hy as [Hn _]. congruence.
Qed.
End props.

(** ** Example: numbers as keys *)
#[export] Instance z_keys : KeyFns Z := {| key_hash_fn k := k mod 5; key_cmp_fn k k' := k - k' |}.

#[export] Instance z_key_laws : KeyLaws Z.
Proof.
  split; cbn.
  - split; [intros k; lia | intros k k'; lia | intros k k' k''; lia].
  - intros k k' H. by replace k with k' by lia.
  - intros k. pose proof (Z.mod_pos_bound k 5 ltac:(lia)). lia.
Qed.

(** A cache for two entries of weight at most 100 together, with a table of 3 chains; its list has its head at 1. *)
Definition example_cache : @mem Z Z :=
  Mem (Cache 2 0 100 0 3 0 0 0 0 true) [0; 0; 0] 1 ∅ {[1 := Link 1 1]} [].

(** Two entries whose keys share a chain; the second stays in use. *)
Definition example_calls : list call :=
  [Create 10 4 400 30; Insert 10; Release 10; Create 20 1 100 30; Insert 20; Lookup 4; Release 10].

Definition example_used : option (list (outcome (option Z)) * @mem Z Z) := play example_cache example_calls.

Lemma example_is_used os s : example_used = Some (os, s) → used 2 100 3 true example_calls os s.
Proof.
  intros H. split; [lia |]. split; [lia |]. split; [lia |]. exists 1, example_cache. split; [by vm_compute |].
  by apply play_session.
Qed.

Definition example_state : @mem Z Z := match example_used with Some (_, s) => s | None => example_cache end.
Definition example_answers : list (outcome (option Z)) := match example_used with Some (os, _) => os | None => [] end.

Lemma example_state_used : used 2 100 3 true example_calls example_answers example_state.
Proof. apply example_is_used. by vm_compute. Qed.

Lemma lru_calls_refine_witness :
  example_answers = [Ok (Some 10); Ok None; Ok None; Ok (Some 20); Ok None; Ok (Some 10); Ok None] ∧
  ∃ A, promises_all (no_items 2 100 true) example_calls example_answers A ∧ shape example_state A ∧ valid A.
Proof. split; [by vm_compute | exact (lru_calls_refine 2 100 3 true _ _ _ example_state_used)]. Defined.

(** A third entry: the first one, free, is evicted. *)
Lemma lru_calls_return_witness :
  ∃ o s', run (Create 30 9 900 60) example_state = (o, s') ∧ ((∃ r, o = Ok r) ∨ o = Fail ∧ ∃ a, Create 30 9 900 60 = Insert a).
Proof.
  apply (lru_calls_return 2 100 3 true _ _ _ (Create 30 9 900 60) example_state_used).
  apply (bool_decide_eq_true_1 _). by vm_compute.
Defined.

Lemma lru_limits_kept_witness :
  stx_cache_getsize example_state = 2 ∧ stx_cache_getweight example_state = 60 ∧ stx_cache_getsize example_state <= 2.
Proof.
  split; [by vm_compute |]. split; [by vm_compute |]. apply (lru_limits_kept 2 100 3 true _ _ _ example_state_used).
Defined.

Lemma lru_held_survive_witness :
  ∃ s' e', (play example_state [Delete 20; Create 30 9 900 60; Insert 30]) = Some ([Ok None; Ok (Some 30); Ok None], s') ∧
    entries s' !! 20 = Some e' ∧ e_key e' = 1 ∧ e_data e' = 100 ∧ 1 <= e_ref_count e'.
Proof.
  set (cs := [Delete 20; Create 30 9 900 60; Insert 30]).
  destruct (play example_state cs) as [[os s'] |] eqn:Hp; [| by vm_compute in Hp].
  assert (fst <$> play example_state cs = Some [Ok None; Ok (Some 30); Ok None]) as Ho by by vm_compute.
  rewrite Hp in Ho. injection Ho as ->.
  assert ((λ e, (e_key e, e_data e, e_ref_count e)) <$> entries example_state !! 20 = Some (1, 100, 1)) as Hf by by vm_compute.
  destruct (entries example_state !! 20) as [e |] eqn:He; [| discriminate].
  assert (e_key e = 1 ∧ e_data e = 100 ∧ e_ref_count e = 1) as (Hk & Hd & Hr) by (clear -Hf; by injection Hf).
  apply play_session in Hp. assert (0 < e_ref_count e) as Hr0 by by rewrite Hr.
  destruct (lru_held_survive 2 100 3 true _ _ _ 20 e cs _ s' example_state_used He Hr0 Hp) as (e' & H1 & H2 & H3 & H4).
  - repeat constructor; discriminate.
  - exists s', e'. split; [done |]. split; [exact H1 |]. split; [by rewrite H2 |]. split; [by rewrite H3 | by rewrite <- Hr].
Defined.

Lemma lru_empty_clears_witness :
  ∃ s', stx_cache_empty example_state = (Ok tt, s') ∧ (∀ k, (stx_cache_entry_lookup k s').1 = Ok None) ∧ entries s' !! 10 = None.
Proof.
  assert ((λ e, e_ref_count e) <$> inside example_state !! 10 = Some 0) as Hf by by vm_compute.
  destruct (inside example_state !! 10) as [e |] eqn:He; [| discriminate].
  assert (e_ref_count e = 0) as Hr by (clear -Hf; by injection Hf).
  destruct (lru_empty_clears 2 100 3 true _ _ _ example_state_used) as (s' & E & Hl & Ha). exists s'.
  split; [exact E |]. split; [exact Hl |]. specialize (Ha 10 e He). rewrite Hr in Ha. exact Ha.
Defined.

(** The test for the capacity is made modulo 2^64: an entry with a weight near 2^64 passes it. *)
Lemma overweight_entry_accepted :
  let s := (run (Create 30 2 200 (2 ^ 64 - 5)) example_state).2 in
  (run (Insert 30) s).1 = Ok None ∧ stx_cache_getweight (run (Insert 30) s).2 = 25 ∧ ¬ 2 ^ 64 - 5 <= max_weight (cache s).
Proof. vm_compute. split; [done |]. split; [done |]. intros H. by apply H. Qed.
