(* ===== verification/Dns.v ===== *)
(** * extensions/dnsres.c: a stub resolver on top of State Threads

    A message is the 1024 bytes of a [querybuf_t]; pointers into it are offsets and reads outside it
    are undefined.  The functions of libresolv and the name servers are parameters. *)

From stdpp Require Import base list.
From Stdlib Require Import Lia ZArith.
From S2P Require Import Prelude.
From S2P Require Import Bytes.

Local Open Scope Z_scope.

Inductive host_error := NETDB_INTERNAL | NETDB_SUCCESS | HOST_NOT_FOUND | TRY_AGAIN | NO_RECOVERY | NO_DATA.
Inductive error_number := Eintr | Emsgsize | Etime | Enosys | Eother.

#[export] Instance host_error_eq_dec : EqDecision host_error.
Proof. solve_decision. Defined.
#[export] Instance error_number_eq_dec : EqDecision error_number.
Proof. solve_decision. Defined.

Definition MAXPACKET : Z := 1024.
Definition HFIXEDSZ : Z := 12.
Definition QFIXEDSZ : Z := 4.
Definition T_A : Z := 1.
Definition MAXDNAME : nat := 1025.

(** What [st_recvfrom] gives: a datagram or an error. *)
Inductive reply := Datagram (msg : list byte) | Failed (e : error_number).

(** [addr_buf]: the caller's [addrs]; [sends], [replies]: what [st_sendto] and [st_recvfrom] will return ([None]: the
    length of the message); [socket_ok], [open_ok]: whether [socket] and [st_netfd_open_socket] succeed; [asked]: the
    names that were asked for; [sockets]: the sockets that are open. *)
Record dns := Dns {
  h_errno : host_error;
  errno : error_number;
  _stx_dns_ttl : Z;
  addr_buf : list (list byte);
  sends : list (option error_number);
  replies : list reply;
  socket_ok : bool;
  open_ok : bool;
  asked : list (list byte);
  sockets : Z;
}.

Definition set_h_errno v d := Dns v (errno d) (_stx_dns_ttl d) (addr_buf d) (sends d) (replies d) (socket_ok d) (open_ok d) (asked d) (sockets d).
Definition set_errno v d := Dns (h_errno d) v (_stx_dns_ttl d) (addr_buf d) (sends d) (replies d) (socket_ok d) (open_ok d) (asked d) (sockets d).
Definition set_ttl v d := Dns (h_errno d) (errno d) v (addr_buf d) (sends d) (replies d) (socket_ok d) (open_ok d) (asked d) (sockets d).
Definition set_addrs v d := Dns (h_errno d) (errno d) (_stx_dns_ttl d) v (sends d) (replies d) (socket_ok d) (open_ok d) (asked d) (sockets d).
Definition set_sends v d := Dns (h_errno d) (errno d) (_stx_dns_ttl d) (addr_buf d) v (replies d) (socket_ok d) (open_ok d) (asked d) (sockets d).
Definition set_replies v d := Dns (h_errno d) (errno d) (_stx_dns_ttl d) (addr_buf d) (sends d) v (socket_ok d) (open_ok d) (asked d) (sockets d).
Definition set_asked v d := Dns (h_errno d) (errno d) (_stx_dns_ttl d) (addr_buf d) (sends d) (replies d) (socket_ok d) (open_ok d) v (sockets d).
Definition set_sockets v d := Dns (h_errno d) (errno d) (_stx_dns_ttl d) (addr_buf d) (sends d) (replies d) (socket_ok d) (open_ok d) (asked d) v.

(** ** The message *)
Definition bytes_at (n : nat) (off : Z) (buf : list byte) : list byte := take n (drop (Z.to_nat off) buf).

(** The fields of [HEADER] are in memory order. *)
Definition u16 (off : Z) (buf : list byte) : Z := of_le (bytes_at 2 off buf).
Definition put_at (off : Z) (l buf : list byte) : list byte :=
  take (Z.to_nat off) buf ++ l ++ drop (Z.to_nat off + length l) buf.
Definition set_u16 (off v : Z) (buf : list byte) : list byte := put_at off (le_bytes 2 v) buf.

Definition hp_id : list byte → Z := u16 0.
Definition hp_rcode (buf : list byte) : Z := match buf !! 3%nat with Some b => uc b mod 16 | None => 0 end.
Definition hp_qdcount : list byte → Z := u16 4.
Definition hp_ancount : list byte → Z := u16 6.

Definition ntohs (v : Z) : Z := (v mod 256) * 256 + v / 256.

(** [_getshort], [_getlong]: in network order. *)
Definition of_be (l : list byte) : Z := of_le (reverse l).
Definition get_be (n : nat) (cp : Z) (buf : list byte) : outcome Z :=
  if bool_decide (0 <= cp ∧ cp + Z.of_nat n <= Z.of_nat (length buf)) then Ok (of_be (bytes_at n cp buf)) else Undef.
Definition _getshort := get_be 2.
Definition _getlong := get_be 4.

(** libresolv: the bytes that a name takes in the message before [eoa], or a negative number; and the
    query that is made for a name, the nth time. *)
Class Libresolv := {
  dn_skipname : list byte → Z → Z → Z;
  dn_expand : list byte → Z → Z → Z;
  res_mkquery : nat → list byte → list byte;
}.

(** A name ends before [eoa]; a query has a header and fits the buffer. *)
Class LibresolvLaws `{Libresolv} : Prop := {
  skipname_law buf cp eoa : dn_skipname buf cp eoa = -1 ∨ 0 < dn_skipname buf cp eoa ∧ cp + dn_skipname buf cp eoa <= eoa;
  expand_law buf cp eoa : dn_expand buf cp eoa < 0 ∨ 0 < dn_expand buf cp eoa ∧ cp + dn_expand buf cp eoa <= eoa;
  mkquery_law n name : res_mkquery n name = [] ∨ HFIXEDSZ <= Z.of_nat (length (res_mkquery n name)) <= MAXPACKET;
}.

(** [_res] *)
Record res_state := ResState {
  res_inited : bool;
  res_init_ok : bool;
  RES_USEVC : bool;
  RES_DEFNAMES : bool;
  RES_DNSRCH : bool;
  nscount : nat;
  ndots : Z;
  dnsrch : list (list byte);
}.

(** How an answer is read (the message, its length, the room of the caller), and the number of addresses: dnsres.c
    and examples/res.c differ in that only. *)
Class AnswerParser := parse_reply : list byte → Z → Z → M dns Z.

Section resolver.
Context `{LR : Libresolv}.
Implicit Types (ans buf : list byte) (d : dns) (cp eoa len i num : Z).

Fixpoint skip_questions (fuel : nat) ans cp eoa : outcome (list byte * Z) :=
  match fuel with
  | O => Hang
  | S fuel =>
      if 0 <? hp_qdcount ans then
        let ans := set_u16 4 (hp_qdcount ans - 1) ans in
        skip_questions fuel ans (cp + (dn_skipname ans cp eoa + QFIXEDSZ)) eoa
      else Ok (ans, cp)
  end.

(** [memcpy(&addrs[i], cp, n)] *)
Definition copy_addr ans cp (n : nat) i : M dns unit := λ d,
  match addr_buf d !! Z.to_nat i with
  | Some a =>
      if bool_decide (0 <= cp ∧ cp + Z.of_nat n <= Z.of_nat (length ans) ∧ (n <= length a)%nat)
      then (Ok tt, set_addrs (<[Z.to_nat i := bytes_at n cp ans ++ drop n a]> (addr_buf d)) d)
      else (Undef, d)
  | None => (Undef, d)
  end.

Fixpoint read_answers (fuel : nat) ans cp eoa i num : M dns Z :=
  match fuel with
  | O => lift Hang
  | S fuel =>
      if (0 <? hp_ancount ans) && (cp <? eoa) && (i <? num) then
        let ans := set_u16 6 (hp_ancount ans - 1) ans in
        let n := dn_expand ans cp eoa in
        if n <? 0 then fail else
        let cp := cp + n in
        if eoa <=? cp + 4 + 4 + 2 then fail else
        type <- lift (_getshort cp ans) ;;
        let cp := cp + 4 in
        ttl <- lift (_getlong cp ans) ;;
        (if type =? T_A then modify (set_ttl (swrap 32 ttl)) else ret tt) ;;
        let cp := cp + 4 in
        n <- lift (_getshort cp ans) ;;
        let cp := cp + 2 in
        if type =? T_A then
          if (4 <? n) || (eoa <? cp + n) then fail else
          copy_addr ans cp (Z.to_nat n) i ;;
          read_answers fuel ans (cp + n) eoa (i + 1) num
        else read_answers fuel ans (cp + n) eoa i num
      else ret i
  end.

(** Returns [*num_addrs]. *)
Definition parse_answer ans len num : M dns Z :=
  modify (set_h_errno TRY_AGAIN) ;;
  modify (set_ttl (-1)) ;;
  '(ans, cp) <- lift (skip_questions (S (Z.to_nat (hp_qdcount ans))) ans HFIXEDSZ len) ;;
  read_answers (S (Z.to_nat (hp_ancount ans))) ans cp len 0 num.

(** ** One name *)
Definition st_sendto : M dns bool := λ d,
  match sends d with
  | [] | None :: _ => (Ok true, set_sends (tail (sends d)) d)
  | Some e :: l => (Ok false, set_errno e (set_sends l d))
  end.

(** The first bytes of [buf] are overwritten; at the end of the script nothing more arrives in time. *)
Definition st_recvfrom buf : M dns (Z * list byte) := λ d,
  match replies d with
  | [] => (Ok (-1, buf), set_errno Etime d)
  | Datagram msg :: l =>
      let msg := take (Z.to_nat MAXPACKET) msg in
      (Ok (Z.of_nat (length msg), msg ++ drop (length msg) buf), set_replies l d)
  | Failed e :: l => (Ok (-1, buf), set_errno e (set_replies l d))
  end.

(** [do { ... } while (id != hp->id)] *)
Fixpoint wait_reply (fuel : nat) (id : Z) buf : M dns (Z * list byte) :=
  match fuel with
  | O => lift Hang
  | S fuel =>
      '(len, buf) <- st_recvfrom buf ;;
      if len <=? 0 then ret (len, buf) else
      if id =? hp_id buf then ret (len, buf) else wait_reply fuel id buf
  end.

(** The [switch] over [hp->rcode]. *)
Definition rcode_error (rcode : Z) : host_error :=
  if rcode =? 3 then HOST_NOT_FOUND
  else if rcode =? 2 then TRY_AGAIN
  else if rcode =? 0 then NO_DATA
  else NO_RECOVERY.

(** [c] with its failure as a value. *)
Definition attempt {A : Type} (c : M dns A) : M dns (option A) := λ d,
  match c d with
  | (Ok a, d) => (Ok (Some a), d)
  | (Fail, d) => (Ok None, d)
  | (Throw, d) => (Throw, d)
  | (Undef, d) => (Undef, d)
  | (Hang, d) => (Hang, d)
  end.

(** The header in host order. *)
Definition host_order buf : list byte :=
  let buf := set_u16 6 (ntohs (hp_ancount buf)) buf in set_u16 4 (ntohs (hp_qdcount buf)) buf.

Context `{AP : !AnswerParser}.

(** The loop over the name servers; [buf] keeps what the last round left in it. *)
Fixpoint query_servers (servers : nat) (name : list byte) buf num : M dns Z :=
  match servers with
  | O => fail
  | S servers =>
      d <- gets id ;;
      let q := res_mkquery (length (asked d)) name in
      if Z.of_nat (length q) <=? 0 then modify (set_h_errno NO_RECOVERY) ;; fail else
      modify (λ d, set_asked (asked d ++ [name]) d) ;;
      let buf := put_at 0 q buf in
      let qid := hp_id buf in
      sent <- st_sendto ;;
      if negb sent then
        modify (set_h_errno NETDB_INTERNAL) ;;
        d <- gets id ;;
        if bool_decide (errno d = Eintr) then fail else query_servers servers name buf num
      else
        d <- gets id ;;
        '(len, buf) <- wait_reply (S (length (replies d))) qid buf ;;
        if len <? HFIXEDSZ then
          modify (set_h_errno NETDB_INTERNAL) ;;
          if 0 <=? len then modify (set_errno Emsgsize) ;; query_servers servers name buf num else
          d <- gets id ;;
          if bool_decide (errno d = Eintr) then fail else query_servers servers name buf num
        else
          let buf := host_order buf in
          if negb (hp_rcode buf =? 0) || (hp_ancount buf =? 0) then
            modify (set_h_errno (rcode_error (hp_rcode buf))) ;;
            query_servers servers name buf num
          else
            r <- attempt (parse_reply buf len num) ;;
            match r with
            | Some i => ret i
            | None => query_servers servers name buf num
            end
  end.

Definition query_domain (r : res_state) (name : list byte) num : M dns Z :=
  query_servers (nscount r) name (replicate (Z.to_nat MAXPACKET) x00) num.

(** ** A host *)
(** The array [name]; what was not written yet is [None]. *)
Notation name_buf := (list (option byte)).

(** [for (cp = host; *cp && n < maxlen; cp++) { ...; name[n++] = *cp; }] *)
Fixpoint copy_host (host : list byte) (n : nat) (dots : Z) (name : name_buf) : nat * Z * name_buf :=
  match host with
  | [] => (n, dots, name)
  | c :: host =>
      if bool_decide (n < MAXDNAME - 1)%nat then
        copy_host host (S n) (if bool_decide (c = x2e) then dots + 1 else dots) (<[n := Some c]> name)
      else (n, dots, name)
  end.

(** [strncpy(name + n, src, size)]: a negative size is converted to a huge one. *)
Definition strncpy (n : nat) (src : list byte) (size : Z) (name : name_buf) : outcome name_buf :=
  if size <? 0 then Undef else
  let l := take (Z.to_nat size) src in
  let l := l ++ replicate (Z.to_nat size - length l) x00 in
  if bool_decide (n + length l <= length name)%nat
  then Ok (take n name ++ (Some <$> l) ++ drop (n + length l) name) else Undef.

(** The string in [name], up to the terminator. *)
Fixpoint c_string (name : name_buf) : outcome (list byte) :=
  match name with
  | [] | None :: _ => Undef
  | Some c :: name => if bool_decide (c = x00) then Ok [] else omap (cons c) (c_string name)
  end.

(** [if (h_errno == NETDB_INTERNAL && errno == EINTR)] *)
Definition interrupted d : bool := bool_decide (h_errno d = NETDB_INTERNAL ∧ errno d = Eintr).

(** [query_domain] and the tests after it: [Some None] ends the search with -1. *)
Definition try_name (r : res_state) (name : list byte) num : M dns (option (option Z)) :=
  a <- attempt (query_domain r name num) ;;
  match a with
  | Some i => ret (Some (Some i))
  | None => d <- gets id ;; ret (if interrupted d then Some None else None)
  end.

Fixpoint search_domains (r : res_state) (domains : list (list byte)) (n : nat) (name : name_buf) num : M dns (option (option Z)) :=
  match domains with
  | [] => ret None
  | domain :: domains =>
      name <- lift (strncpy n domain (Z.of_nat MAXDNAME - 1 - Z.of_nat n) name) ;;
      host <- lift (c_string name) ;;
      a <- try_name r host num ;;
      match a with
      | Some a => ret (Some a)
      | None => if RES_DNSRCH r then search_domains r domains n name num else ret None
      end
  end.

(** The result of the search; the [try_name]s that are not made are [None]. *)
Definition search (r : res_state) (host : list byte) num : M dns (option (option Z)) :=
  let '(n, dots, name) := copy_host host 0 0 (replicate MAXDNAME None) in
  let trailing_dot := bool_decide (name !! (n - 1)%nat = Some (Some x2e)) in
  a <- (if ndots r <=? dots then try_name r host num else ret None) ;;
  let tried_as_is := ndots r <=? dots in
  match a with
  | Some a => ret (Some a)
  | None =>
      b <- (if ((dots =? 0) && RES_DEFNAMES r) || (negb (dots =? 0) && negb trailing_dot && RES_DNSRCH r)
            then search_domains r (dnsrch r) (S n) (<[n := Some x2e]> name) num else ret None) ;;
      match b with
      | Some b => ret (Some b)
      | None => if tried_as_is then ret None else try_name r host num
      end
  end.

(** [socket] and [st_netfd_open_socket] *)
Definition open_socket : M dns unit :=
  d <- gets id ;;
  if negb (socket_ok d) then modify (set_h_errno NETDB_INTERNAL) ;; fail else
  modify (λ d, set_sockets (sockets d + 1) d) ;;
  if negb (open_ok d) then
    modify (set_h_errno NETDB_INTERNAL) ;; modify (λ d, set_sockets (sockets d - 1) d) ;; fail
  else ret tt.

Definition _stx_dns_getaddrlist (r : res_state) (host : list byte) num : M dns Z :=
  if negb (res_inited r) && negb (res_init_ok r) then modify (set_h_errno NETDB_INTERNAL) ;; fail else
  if RES_USEVC r then modify (set_h_errno NETDB_INTERNAL) ;; modify (set_errno Enosys) ;; fail else
  if bool_decide (host = []) then modify (set_h_errno HOST_NOT_FOUND) ;; fail else
  open_socket ;;
  a <- search r host num ;;
  modify (λ d, set_sockets (sockets d - 1) d) ;;
  match a with
  | Some (Some i) => ret i
  | _ => fail
  end.

(** ** The fields of a message *)
Lemma length_put_at off l buf : (Z.to_nat off + length l <= length buf)%nat → length (put_at off l buf) = length buf.
Proof. intros Hl. unfold put_at. rewrite !length_app, length_take, length_drop. lia. Qed.

Lemma bytes_put_at off l buf : (Z.to_nat off + length l <= length buf)%nat → bytes_at (length l) off (put_at off l buf) = l.
Proof.
  intros Hl. unfold bytes_at, put_at. rewrite drop_app_length' by (rewrite length_take; lia). apply take_app_length.
Qed.

Lemma u16_set off v buf : 0 <= v < 2 ^ 16 → (Z.to_nat off + 2 <= length buf)%nat → u16 off (set_u16 off v buf) = v.
Proof.
  intros Hv Hl. unfold u16, set_u16. change 2%nat with (length (le_bytes 2 v)) at 1. rewrite bytes_put_at by by rewrite length_le_bytes.
  rewrite of_le_le_bytes. by apply Z.mod_small.
Qed.

Lemma length_bytes_at n off buf : 0 <= off → off + Z.of_nat n <= Z.of_nat (length buf) → length (bytes_at n off buf) = n.
Proof. intros H0 Hl. unfold bytes_at. rewrite length_take, length_drop. lia. Qed.

Lemma u16_range off buf : 0 <= u16 off buf < 2 ^ 16.
Proof.
  unfold u16. pose proof (of_le_range (bytes_at 2 off buf)) as Hr. assert (length (bytes_at 2 off buf) <= 2)%nat as Hl.
  { unfold bytes_at. rewrite length_take. lia. }
  assert (256 ^ Z.of_nat (length (bytes_at 2 off buf)) <= 256 ^ 2) by (apply Z.pow_le_mono_r; lia). lia.
Qed.

Lemma get_be_ok n cp buf : 0 <= cp → cp + Z.of_nat n <= Z.of_nat (length buf) →
  get_be n cp buf = Ok (of_be (bytes_at n cp buf)) ∧ 0 <= of_be (bytes_at n cp buf) < 256 ^ Z.of_nat n.
Proof.
  intros H0 Hl. unfold get_be. rewrite bool_decide_true by done. split; [done |]. unfold of_be.
  pose proof (of_le_range (reverse (bytes_at n cp buf))) as Hr. by rewrite length_reverse, length_bytes_at in Hr.
Qed.

(** ** Reading an answer *)
(** The caller's array has [num] elements of four bytes. *)
Definition array_ok num d : Prop := num <= Z.of_nat (length (addr_buf d)) ∧ Forall (λ a, length a = 4%nat) (addr_buf d).

(** Only what an answer is stored in changes. *)
Definition only_answer d d' : Prop := ∃ h t l, d' = set_h_errno h (set_ttl t (set_addrs l d)).

#[export] Instance only_answer_preorder : PreOrder only_answer.
Proof.
  split; [intros d; exists (h_errno d), (_stx_dns_ttl d), (addr_buf d); by destruct d |].
  intros d1 d2 d3 (h & t & l & ->) (h' & t' & l' & ->). by exists h', t', l'.
Qed.

Lemma copy_addr_ok ans cp n i num d :
  array_ok num d → 0 <= i < num → 0 <= cp → cp + Z.of_nat n <= Z.of_nat (length ans) → (n <= 4)%nat →
  ∃ l, copy_addr ans cp n i d = (Ok tt, set_addrs l d) ∧ array_ok num (set_addrs l d) ∧ take (Z.to_nat i) l = take (Z.to_nat i) (addr_buf d) ∧
    ∃ a, addr_buf d !! Z.to_nat i = Some a ∧ l !! Z.to_nat i = Some (bytes_at n cp ans ++ drop n a).
Proof.
  intros [Hn Hf] Hi Hcp Hl Hn4. unfold copy_addr.
  destruct (lookup_lt_is_Some_2 (addr_buf d) (Z.to_nat i)) as [a Ha]; [lia |]. rewrite Ha.
  assert (length a = 4%nat) as Hla by by apply (Forall_lookup_1 _ _ _ _ Hf Ha).
  rewrite bool_decide_true by (split_and!; lia). eexists. split; [done |]. split; [split; cbn | split].
  - by rewrite length_insert.
  - apply Forall_insert; [done |]. rewrite length_app, length_bytes_at, length_drop by lia. lia.
  - by rewrite take_insert_ge.
  - exists a. split; [done |]. apply list_lookup_insert_eq. lia.
Qed.

Context `{LRL : !LibresolvLaws}.

(** Reading ends, stays inside the message and the array, and a time to live is only set with an address. *)
Lemma read_answers_ok fuel ans cp eoa i num d :
  hp_ancount ans < Z.of_nat fuel → (8 <= length ans)%nat → eoa <= Z.of_nat (length ans) → 0 <= cp → 0 <= i → (i <= num) →
  array_ok num d → (0 < _stx_dns_ttl d → 0 < i) →
  ∃ o d', read_answers fuel ans cp eoa i num d = (o, d') ∧ only_answer d d' ∧ array_ok num d' ∧
    (o = Fail ∨ ∃ i', o = Ok i' ∧ i <= i' <= num ∧ (0 < _stx_dns_ttl d' → 0 < i')).
Proof.
  revert ans cp i d. induction fuel as [| fuel IH]; intros ans cp i d Hf H8 He Hcp Hi Hin Ha Ht; cbn [read_answers].
  { pose proof (u16_range 6 ans). unfold hp_ancount in Hf. lia. }
  destruct ((0 <? hp_ancount ans) && (cp <? eoa) && (i <? num)) eqn:Hc.
  2: { exists (Ok i), d. split; [done |]. split; [done |]. split; [done |]. right. exists i. split; [done |]. split; [lia | done]. }
  apply andb_true_iff in Hc as [[Hc1%Z.ltb_lt Hc2%Z.ltb_lt]%andb_true_iff Hc3%Z.ltb_lt].
  assert (∀ d', only_answer d d' → array_ok num d' → ∃ (o : outcome Z) d'', (Fail, d') = (o, d'') ∧ only_answer d d'' ∧ array_ok num d'' ∧
    (o = Fail ∨ ∃ i', o = Ok i' ∧ i <= i' <= num ∧ (0 < _stx_dns_ttl d'' → 0 < i'))) as Hfail.
  { intros d' H1 H2. exists Fail, d'. split; [done |]. split; [done |]. split; [done |]. by left. }
  set (ans' := set_u16 6 (hp_ancount ans - 1) ans).
  assert (length ans' = length ans) as Hl by (apply length_put_at; rewrite length_le_bytes; lia).
  assert (hp_ancount ans' = hp_ancount ans - 1) as Hc'.
  { unfold hp_ancount, ans'. pose proof (u16_range 6 ans). rewrite u16_set; [done | unfold hp_ancount in *; lia | lia]. }
  rewrite <- Hl in *. clearbody ans'.
  destruct (Z.ltb_spec (dn_expand ans' cp eoa) 0) as [| Hx]; [by apply Hfail |].
  destruct (expand_law ans' cp eoa) as [| [Hx0 Hx1]]; [lia |]. assert (0 <= cp + dn_expand ans' cp eoa) as Hcp1' by lia.
  set (cp1 := cp + dn_expand ans' cp eoa) in *. clearbody cp1.
  destruct (Z.leb_spec eoa (cp1 + 4 + 4 + 2)) as [| Hcp1]; [by apply Hfail |].
  destruct (get_be_ok 2 cp1 ans') as [E1 R1]; [lia | lia |]. destruct (get_be_ok 4 (cp1 + 4) ans') as [E2 R2]; [lia | lia |].
  destruct (get_be_ok 2 (cp1 + 4 + 4) ans') as [E3 R3]; [lia | lia |]. unfold _getshort, _getlong.
  rewrite E1, E2, E3. set (type := of_be (bytes_at 2 cp1 ans')) in *. set (n := of_be (bytes_at 2 (cp1 + 4 + 4) ans')) in *.
  clearbody type n. change (256 ^ Z.of_nat 2) with 65536 in *. unfold bind at 1. cbn [lift]. unfold bind at 1. cbn [lift].
  destruct (type =? T_A).
  - unfold bind at 1. cbn [modify]. set (d1 := set_ttl _ d). assert (only_answer d d1) as Hd1 by (by exists (h_errno d), (swrap 32 (of_be (bytes_at 4 (cp1 + 4) ans'))), (addr_buf d)).
    unfold bind at 1. cbn [lift]. destruct (Z.ltb_spec 4 n) as [| Hn4]; cbn [orb]; [by apply Hfail |].
    destruct (Z.ltb_spec eoa (cp1 + 4 + 4 + 2 + n)); [by apply Hfail |].
    destruct (copy_addr_ok ans' (cp1 + 4 + 4 + 2) (Z.to_nat n) i num d1) as (l & E4 & Ha4 & _); [done | lia | lia | lia | lia |].
    rewrite (bind_ok _ _ _ _ _ E4).
    destruct (IH ans' (cp1 + 4 + 4 + 2 + n) (i + 1) (set_addrs l d1)) as (o & d' & E & Ho & Ha' & Hr); try done; try lia.
    exists o, d'. split; [exact E |]. split; [| split; [done |]].
    + trans d1; [done |]. trans (set_addrs l d1); [| done]. by exists (h_errno d1), (_stx_dns_ttl d1), l.
    + destruct Hr as [-> | (i' & -> & Hi' & Ht')]; [by left |]. right. exists i'. split; [done |]. split; [lia | done].
  - unfold bind at 1. cbn [ret]. unfold bind at 1. cbn [lift].
    destruct (IH ans' (cp1 + 4 + 4 + 2 + n) i d) as (o & d' & E & Ho & Ha' & Hr); try done; try lia. by exists o, d'.
Qed.

Lemma skip_questions_ok fuel ans cp eoa :
  hp_qdcount ans < Z.of_nat fuel → (8 <= length ans)%nat → 0 <= cp →
  ∃ ans' cp', skip_questions fuel ans cp eoa = Ok (ans', cp') ∧ length ans' = length ans ∧ 0 <= cp'.
Proof.
  revert ans cp. induction fuel as [| fuel IH]; intros ans cp Hf H8 Hcp; cbn [skip_questions].
  { pose proof (u16_range 4 ans). unfold hp_qdcount in Hf. lia. }
  destruct (Z.ltb_spec 0 (hp_qdcount ans)); [| by eexists _, _].
  set (ans' := set_u16 4 (hp_qdcount ans - 1) ans).
  assert (length ans' = length ans) as Hl by (apply length_put_at; rewrite length_le_bytes; lia).
  assert (hp_qdcount ans' = hp_qdcount ans - 1) as Hc'.
  { unfold hp_qdcount, ans'. pose proof (u16_range 4 ans). rewrite u16_set; [done | unfold hp_qdcount in *; lia | lia]. }
  destruct (IH ans' (cp + (dn_skipname ans' cp eoa + QFIXEDSZ))) as (a & c & E & Hla & Hc); [lia | lia | |].
  - unfold QFIXEDSZ. destruct (skipname_law ans' cp eoa) as [-> | []]; lia.
  - exists a, c. split; [exact E |]. split; [congruence | done].
Qed.

Lemma parse_answer_ok ans len num d :
  (8 <= length ans)%nat → len <= Z.of_nat (length ans) → 0 <= num → array_ok num d →
  ∃ o d', parse_answer ans len num d = (o, d') ∧ only_answer d d' ∧ array_ok num d' ∧
    (o = Fail ∨ ∃ i, o = Ok i ∧ 0 <= i <= num ∧ (0 < _stx_dns_ttl d' → 0 < i)).
Proof.
  intros H8 Hl Hn Ha. unfold parse_answer. unfold bind at 1. cbn [modify]. unfold bind at 1. cbn [modify].
  set (d1 := set_ttl (-1) (set_h_errno TRY_AGAIN d)).
  destruct (skip_questions_ok (S (Z.to_nat (hp_qdcount ans))) ans HFIXEDSZ len) as (ans' & cp & E & Hl' & Hcp); [lia | lia | done |].
  rewrite E. unfold bind at 1. cbn [lift].
  destruct (read_answers_ok (S (Z.to_nat (hp_ancount ans'))) ans' cp len 0 num d1) as (o & d' & E2 & Ho & Ha' & Hr); try lia; try done.
  exists o, d'. split; [exact E2 |]. split; [| done]. trans d1; [| done]. by exists TRY_AGAIN, (-1), (addr_buf d).
Qed.

(** What the search relies on. *)
Class AnswerParserLaws : Prop := {
  parse_reply_ok ans len num d :
    (8 <= length ans)%nat → len <= Z.of_nat (length ans) → 0 <= num → array_ok num d →
    ∃ o d', parse_reply ans len num d = (o, d') ∧ only_answer d d' ∧ array_ok num d' ∧
      (o = Fail ∨ ∃ i, o = Ok i ∧ 0 <= i <= num ∧ (0 < _stx_dns_ttl d' → 0 < i));
}.

Context `{APL : !AnswerParserLaws}.

(** ** Asking the servers *)
(** The world around the calls: the results to come are used up and the names asked for are recorded. *)
Definition asks (names : list (list byte)) d d' : Prop :=
  asked d' = asked d ++ names ∧ sockets d' = sockets d ∧ socket_ok d' = socket_ok d ∧ open_ok d' = open_ok d ∧
  ∀ m, m ∈ replies d' → m ∈ replies d.

Lemma asks_refl d d' : asked d' = asked d → sockets d' = sockets d → socket_ok d' = socket_ok d → open_ok d' = open_ok d →
  (∀ m, m ∈ replies d' → m ∈ replies d) → asks [] d d'.
Proof. intros H1 H2 H3 H4 H5. split; [by rewrite app_nil_r | done]. Qed.

Lemma asks_trans l l' d1 d2 d3 : asks l d1 d2 → asks l' d2 d3 → asks (l ++ l') d1 d3.
Proof. intros (H1&H2&H3&H4&H5) (K1&K2&K3&K4&K5). split_and!; try congruence; [| by auto]. by rewrite K1, H1, app_assoc. Qed.

Lemma only_answer_asks d d' : only_answer d d' → asks [] d d'.
Proof. intros (h & t & l & ->). by apply asks_refl. Qed.

(** What [buf] holds after a datagram that answers the query [qid]. *)
Definition answers_query (qid : Z) d len buf : Prop :=
  ∃ msg rest, Datagram msg ∈ replies d ∧ buf = take (Z.to_nat MAXPACKET) msg ++ rest ∧
    len = Z.of_nat (length (take (Z.to_nat MAXPACKET) msg)) ∧ hp_id buf = qid.

Lemma wait_reply_ok fuel qid buf num d :
  (length (replies d) < fuel)%nat → Z.of_nat (length buf) = MAXPACKET → array_ok num d →
  ∃ len buf' d', wait_reply fuel qid buf d = (Ok (len, buf'), d') ∧ Z.of_nat (length buf') = MAXPACKET ∧ -1 <= len <= MAXPACKET ∧
    asks [] d d' ∧ array_ok num d' ∧ (0 < len → answers_query qid d len buf').
Proof.
  revert buf d. induction fuel as [| fuel IH]; intros buf d Hf Hb Ha; [lia |]. cbn [wait_reply].
  destruct (replies d) as [| [msg | e] l] eqn:Er.
  - assert (st_recvfrom buf d = (Ok (-1, buf), set_errno Etime d)) as E0 by (unfold st_recvfrom; by rewrite Er).
    rewrite (bind_ok _ _ _ _ _ E0). exists (-1), buf, (set_errno Etime d). split; [done |]. split_and!; try done; try lia. by apply asks_refl.
  - set (m := take (Z.to_nat MAXPACKET) msg). assert (Z.of_nat (length m) <= MAXPACKET) as Hm.
    { unfold m. rewrite length_take. unfold MAXPACKET in *. lia. }
    set (buf' := m ++ drop (length m) buf). assert (Z.of_nat (length buf') = MAXPACKET) as Hb'.
    { unfold buf'. rewrite length_app, length_drop. lia. }
    set (d1 := set_replies l d).
    assert (st_recvfrom buf d = (Ok (Z.of_nat (length m), buf'), d1)) as E0 by (unfold st_recvfrom; by rewrite Er).
    rewrite (bind_ok _ _ _ _ _ E0). assert (asks [] d d1) as Hd1 by (apply asks_refl; try done; rewrite Er; intros r Hr; by right).
    destruct (Z.leb_spec (Z.of_nat (length m)) 0) as [Hz | Hz].
    { exists (Z.of_nat (length m)), buf', d1. split_and!; try done; lia. }
    destruct (Z.eqb_spec qid (hp_id buf')) as [-> | Hq].
    + exists (Z.of_nat (length m)), buf', d1. split_and!; try done; try lia. intros _. exists msg, (drop (length m) buf).
      split; [rewrite Er; left | done].
    + destruct (IH buf' d1) as (len & b & d' & E & H1 & H2 & H3 & H4 & H5); [cbn in *; lia | done | done |].
      exists len, b, d'. split_and!; try done; try lia; [by apply (asks_trans [] [] d d1) |].
      intros Hl. destruct (H5 Hl) as (msg' & rest & Hin & Heq). exists msg', rest. split; [| done]. by apply Hd1.
  - assert (st_recvfrom buf d = (Ok (-1, buf), set_errno e (set_replies l d))) as E0 by (unfold st_recvfrom; by rewrite Er).
    rewrite (bind_ok _ _ _ _ _ E0). exists (-1), buf, (set_errno e (set_replies l d)). split_and!; try done; try lia.
    apply asks_refl; try done. rewrite Er. intros r Hr. by right.
Qed.

(** A reply to a query for [name] that reports no error and has answers. *)
Definition accepted (name : list byte) d : Prop := ∃ n msg, let m := take (Z.to_nat MAXPACKET) msg in
  Datagram msg ∈ replies d ∧ HFIXEDSZ <= Z.of_nat (length m) ∧ hp_id m = hp_id (res_mkquery n name) ∧ hp_rcode m = 0 ∧ hp_ancount m ≠ 0.

(** What asking for [name] may lead to. *)
Definition asked_for (servers : nat) (name : list byte) num d (r : outcome Z * dns) : Prop :=
  ∃ k, (k <= servers)%nat ∧ asks (replicate k name) d r.2 ∧ array_ok num r.2 ∧
    (r.1 = Fail ∨ ∃ i, r.1 = Ok i ∧ 0 <= i <= num ∧ (0 < _stx_dns_ttl r.2 → 0 < i) ∧ accepted name d).

Lemma asked_fail servers name num d d' : asks [] d d' → array_ok num d' → asked_for servers name num d (Fail, d').
Proof. intros Ha Hn. exists 0%nat. split; [lia |]. split; [done |]. split; [done |]. by left. Qed.

Lemma asked_once servers name num d d' : asks [name] d d' → array_ok num d' → asked_for (S servers) name num d (Fail, d').
Proof. intros Ha Hn. exists 1%nat. split; [lia |]. split; [done |]. split; [done |]. by left. Qed.

Lemma asked_again servers name num d d1 r :
  asks [name] d d1 → asked_for servers name num d1 r → asked_for (S servers) name num d r.
Proof.
  intros Ha (k & Hk & Hak & Hn & Ho). exists (S k). split; [lia |]. split; [by apply (asks_trans [name] (replicate k name) d d1) |].
  split; [done |]. destruct Ho as [-> | (i & -> & Hi & Ht & n & msg & Hm & Hacc)]; [by left |]. right. exists i. split_and!; try done; try lia.
  exists n, msg. split; [by apply Ha | done].
Qed.

Lemma bytes_at_app n off (l l' : list byte) : (Z.to_nat off + n <= length l)%nat → bytes_at n off (l ++ l') = bytes_at n off l.
Proof. intros Hl. unfold bytes_at. rewrite drop_app_le by lia. apply take_app_le. rewrite length_drop. lia. Qed.

Lemma put_at_front (q buf : list byte) : put_at 0 q buf = q ++ drop (length q) buf.
Proof. done. Qed.

Lemma lookup_set_u16 j off v buf : (j < Z.to_nat off)%nat → (Z.to_nat off + 2 <= length buf)%nat → set_u16 off v buf !! j = buf !! j.
Proof.
  intros Hj Hl. unfold set_u16, put_at. rewrite lookup_app_l by (rewrite length_take; lia). apply lookup_take_lt. lia.
Qed.

Lemma length_set_u16 off v buf : (Z.to_nat off + 2 <= length buf)%nat → length (set_u16 off v buf) = length buf.
Proof. intros Hl. apply length_put_at. by rewrite length_le_bytes. Qed.

Lemma u16_set_before off off' v buf :
  0 <= off → off + 2 <= off' → (Z.to_nat off + 2 <= length buf)%nat → u16 off' (set_u16 off v buf) = u16 off' buf.
Proof.
  intros Hoff Ho Hl. unfold u16, bytes_at, set_u16, put_at. rewrite length_le_bytes.
  rewrite drop_app_ge by (rewrite length_take; lia). rewrite drop_app_ge by (rewrite length_take, length_le_bytes; lia).
  rewrite drop_drop, length_take, length_le_bytes. do 3 f_equal. lia.
Qed.

Lemma ntohs_range v : 0 <= v < 2 ^ 16 → 0 <= ntohs v < 2 ^ 16.
Proof.
  intros Hv. unfold ntohs. pose proof (Z.mod_pos_bound v 256 ltac:(lia)).
  assert (0 <= v / 256 < 256) by (split; [apply Z.div_pos; lia | apply Z.div_lt_upper_bound; lia]). lia.
Qed.

Lemma host_order_fields buf :
  (12 <= length buf)%nat → length (host_order buf) = length buf ∧ hp_rcode (host_order buf) = hp_rcode buf ∧
  hp_ancount (host_order buf) = ntohs (hp_ancount buf).
Proof.
  intros Hl. unfold host_order. set (b1 := set_u16 6 (ntohs (hp_ancount buf)) buf).
  assert (length b1 = length buf) as Hl1 by (apply length_set_u16; lia). split; [rewrite length_set_u16 by lia; done |]. split.
  - unfold hp_rcode. rewrite lookup_set_u16 by lia. unfold b1. by rewrite lookup_set_u16 by lia.
  - unfold hp_ancount at 1. rewrite u16_set_before by lia. unfold b1. apply u16_set; [apply ntohs_range, u16_range | lia].
Qed.

Lemma query_servers_ok servers name buf num d :
  0 <= num → Z.of_nat (length buf) = MAXPACKET → array_ok num d →
  asked_for servers name num d (query_servers servers name buf num d).
Proof.
  intros Hnum. revert buf d. induction servers as [| servers IH]; intros buf d Hb Ha; cbn [query_servers]; [by apply asked_fail; [apply asks_refl |] |].
  unfold bind at 1. cbn [gets id]. set (q := res_mkquery (length (asked d)) name).
  destruct (Z.leb_spec (Z.of_nat (length q)) 0) as [Hq | Hq]; [apply asked_fail; [by apply asks_refl | done] |].
  assert (HFIXEDSZ <= Z.of_nat (length q) <= MAXPACKET) as Hq2.
  { destruct (mkquery_law (length (asked d)) name) as [Hnil |]; [| done]. unfold q in Hq. rewrite Hnil in Hq. cbn in Hq. lia. }
  unfold bind at 1. cbn [modify]. set (d1 := set_asked _ d). set (buf1 := put_at 0 q buf).
  assert (asks [name] d d1) as H1 by done.
  assert (Z.of_nat (length buf1) = MAXPACKET) as Hb1 by (unfold buf1; rewrite length_put_at by lia; done).
  assert (∃ b d2, st_sendto d1 = (Ok b, d2) ∧ asks [name] d d2 ∧ array_ok num d2 ∧ replies d2 = replies d) as (b & d2 & E2 & H2 & Ha2 & Hr2).
  { unfold st_sendto. destruct (sends d1) as [| [e |] l]; by eexists _, _. }
  rewrite (bind_ok _ _ _ _ _ E2). destruct b; cbn [negb].
  2: { unfold bind at 1. cbn [modify]. unfold bind at 1. cbn [gets id]. destruct (bool_decide _); [by apply asked_once |].
    apply (asked_again _ _ _ _ (set_h_errno NETDB_INTERNAL d2)); [done | by apply IH]. }
  unfold bind at 1. cbn [gets id].
  destruct (wait_reply_ok (S (length (replies d2))) (hp_id buf1) buf1 num d2) as (len & buf2 & d3 & E3 & Hb2 & Hlen & H3 & Ha3 & Hacc); [lia | done | done |].
  rewrite (bind_ok _ _ _ _ _ E3). assert (asks [name] d d3) as H13 by by apply (asks_trans [name] [] d d2).
  destruct (Z.ltb_spec len HFIXEDSZ) as [Hs | Hs].
  { unfold bind at 1. cbn [modify]. destruct (0 <=? len).
    - unfold bind at 1. cbn [modify]. apply (asked_again _ _ _ _ (set_errno Emsgsize (set_h_errno NETDB_INTERNAL d3))); [done | by apply IH].
    - unfold bind at 1. cbn [gets id]. destruct (bool_decide _); [by apply asked_once |].
      apply (asked_again _ _ _ _ (set_h_errno NETDB_INTERNAL d3)); [done | by apply IH]. }
  assert (12 <= length buf2)%nat as Hl2 by (unfold MAXPACKET in *; lia).
  destruct (host_order_fields buf2 Hl2) as (Hlh & Hrc & Han). set (buf3 := host_order buf2) in *.
  assert (∀ h, asked_for servers name num (set_h_errno h d3) (query_servers servers name buf3 num (set_h_errno h d3))) as Hnext.
  { intros h. apply IH; [lia | done]. }
  destruct (negb (hp_rcode buf3 =? 0) || (hp_ancount buf3 =? 0)) eqn:Hok.
  { unfold bind at 1. cbn [modify]. by apply (asked_again _ _ _ _ (set_h_errno (rcode_error (hp_rcode buf3)) d3)). }
  apply orb_false_iff in Hok as [Hok1%negb_false_iff%Z.eqb_eq Hok2%Z.eqb_neq].
  assert (accepted name d) as Hac.
  { destruct (Hacc ltac:(unfold HFIXEDSZ in *; lia)) as (msg & rest & Hin & Hbuf & Hlm & Hid). exists (length (asked d)), msg.
    set (m := take (Z.to_nat MAXPACKET) msg) in *. rewrite Hr2 in Hin. split; [done |]. rewrite <- Hlm. split; [done |].
    unfold HFIXEDSZ in *. assert (12 <= length m)%nat as Hm by lia. split; [| split].
    - unfold hp_id, u16 in *. rewrite Hbuf, bytes_at_app in Hid by lia. rewrite Hid. unfold buf1. rewrite put_at_front.
      by rewrite bytes_at_app by lia.
    - rewrite <- Hok1, Hrc, Hbuf. unfold hp_rcode. by rewrite lookup_app_l by lia.
    - intros Hz. apply Hok2. rewrite Han, Hbuf. unfold hp_ancount, u16 in *. rewrite bytes_at_app by lia. by rewrite Hz. }
  destruct (parse_reply_ok buf3 len num d3) as (o & d4 & E4 & H4 & Ha4 & Ho); [lia | lia | done | done |].
  assert (asks [name] d d4) as H14 by (apply (asks_trans [name] [] d d3); [done | by apply only_answer_asks]).
  unfold attempt. destruct Ho as [-> | (i & -> & Hi & Ht)].
  - rewrite (bind_ok (λ d, _) _ d3 None d4) by by rewrite E4. apply (asked_again _ _ _ _ d4); [done | apply IH; [lia | done]].
  - rewrite (bind_ok (λ d, _) _ d3 (Some i) d4) by by rewrite E4. exists 1%nat. split; [lia |]. split; [done |]. split; [done |].
    right. by exists i.
Qed.

(** ** The names to try *)
Definition count_dots (host : list byte) : Z := Z.of_nat (length (filter (λ c, c = x2e) host)).

(** The names in the order of the resolver's rules. *)
Definition candidates (r : res_state) (host : list byte) : list (list byte) :=
  let dots := count_dots host in
  let searched := if ((dots =? 0) && RES_DEFNAMES r) || (negb (dots =? 0) && negb (bool_decide (last host = Some x2e)) && RES_DNSRCH r)
    then (λ domain, host ++ x2e :: domain) <$> (if RES_DNSRCH r then dnsrch r else take 1 (dnsrch r)) else [] in
  if ndots r <=? dots then host :: searched else searched ++ [host].

(** The first that is answered; an interrupt ends the search. *)
Fixpoint try_all (r : res_state) (names : list (list byte)) num : M dns (option (option Z)) :=
  match names with
  | [] => ret None
  | name :: names => a <- try_name r name num ;; match a with Some a => ret (Some a) | None => try_all r names num end
  end.

(** The name and the domain fit the array, and are strings. *)
Definition fits (r : res_state) (host : list byte) : Prop :=
  (length host < MAXDNAME)%nat ∧ x00 ∉ host ∧ Forall (λ domain, (length host + 1 + length domain < MAXDNAME - 1)%nat ∧ x00 ∉ domain) (dnsrch r).

Lemma copy_host_ok host n dots (name : name_buf) :
  (n + length host < MAXDNAME)%nat → length name = MAXDNAME →
  copy_host host n dots name = ((n + length host)%nat, dots + count_dots host, take n name ++ (Some <$> host) ++ drop (n + length host) name).
Proof.
  revert n dots name. induction host as [| c host IH]; intros n dots name Hl Hn; cbn [copy_host length fmap list_fmap].
  - rewrite Nat.add_0_r, Z.add_0_r. cbn. by rewrite take_drop.
  - cbn [length] in Hl. rewrite bool_decide_true by lia. rewrite IH; [| lia | by rewrite length_insert]. f_equal; [f_equal; [lia |] |].
    + unfold count_dots. rewrite filter_cons. destruct (decide (c = x2e)); [rewrite bool_decide_true by done; cbn; lia | by rewrite bool_decide_false].
    + rewrite (take_S_r _ n (Some c)) by (apply list_lookup_insert_eq; lia). rewrite take_insert_ge by done.
      rewrite drop_insert_lt by lia. rewrite <- app_assoc. cbn. by rewrite Nat.add_succ_r.
Qed.

Lemma c_string_ok (l : list byte) (rest : name_buf) : x00 ∉ l → c_string ((Some <$> l) ++ Some x00 :: rest) = Ok l.
Proof.
  induction l as [| c l IH]; intros Hl; cbn; [by rewrite bool_decide_true |]. apply not_elem_of_cons in Hl as [Hc Hl].
  rewrite bool_decide_false by done. by rewrite (IH Hl).
Qed.

(** [name] begins with [host] and the dot. *)
Lemma strncpy_ok host domain (name : name_buf) (n := S (length host)) :
  length name = MAXDNAME → take n name = Some <$> host ++ [x2e] → (length host + 1 + length domain < MAXDNAME - 1)%nat → x00 ∉ host → x00 ∉ domain →
  ∃ name', strncpy n domain (Z.of_nat MAXDNAME - 1 - Z.of_nat n) name = Ok name' ∧ length name' = MAXDNAME ∧
    take n name' = Some <$> host ++ [x2e] ∧ c_string name' = Ok (host ++ x2e :: domain).
Proof.
  intros Hl Hn Hd Hh Hdom. unfold strncpy. rewrite (proj2 (Z.ltb_ge _ _)) by lia.
  set (sz := Z.to_nat (Z.of_nat MAXDNAME - 1 - Z.of_nat n)). assert (sz = MAXDNAME - 1 - n)%nat as Hsz by lia.
  assert (n < MAXDNAME)%nat as Hn2 by lia. rewrite (take_ge domain) by lia. set (k := (sz - length domain)%nat).
  assert (length (domain ++ replicate k x00) = sz) as Hln by (rewrite length_app, length_replicate; lia). rewrite Hln.
  rewrite bool_decide_true by lia. eexists. split; [done |].
  assert (length (take n name) = n) as Htn by (rewrite length_take; lia). split; [| split].
  - rewrite !length_app, length_fmap, Hln, length_drop, Htn. lia.
  - rewrite take_app_le by lia. by rewrite take_ge by lia.
  - destruct k as [| k'] eqn:Ek; [lia |]. cbn [replicate]. rewrite Hn, fmap_app, fmap_app. cbn [fmap list_fmap].
    rewrite <- !app_assoc. cbn [app].
    replace ((Some <$> host) ++ Some x2e :: (Some <$> domain) ++ Some x00 :: (Some <$> replicate k' x00) ++ drop (n + sz) name)
      with ((Some <$> host ++ x2e :: domain) ++ Some x00 :: (Some <$> replicate k' x00) ++ drop (n + sz) name)
      by (rewrite fmap_app; cbn; by rewrite <- app_assoc).
    apply c_string_ok. rewrite elem_of_app, elem_of_cons. naive_solver.
Qed.

Lemma search_domains_ok r host domains (name : name_buf) num d :
  length name = MAXDNAME → take (S (length host)) name = Some <$> host ++ [x2e] → x00 ∉ host →
  Forall (λ domain, (length host + 1 + length domain < MAXDNAME - 1)%nat ∧ x00 ∉ domain) domains →
  search_domains r domains (S (length host)) name num d =
    try_all r ((λ domain, host ++ x2e :: domain) <$> (if RES_DNSRCH r then domains else take 1 domains)) num d.
Proof.
  intros Hl Hn Hh. revert name d Hl Hn. induction domains as [| domain domains IH]; intros name d Hl Hn HF; cbn [search_domains].
  { by destruct (RES_DNSRCH r). }
  apply Forall_cons in HF as [[Hd Hdom] HF]. destruct (strncpy_ok host domain name Hl Hn Hd Hh Hdom) as (name' & E & Hl' & Hn' & Hs).
  unfold bind at 1. cbn [lift]. rewrite E. unfold bind at 1. cbn [lift]. rewrite Hs.
  replace ((λ domain, host ++ x2e :: domain) <$> (if RES_DNSRCH r then domain :: domains else take 1 (domain :: domains)))
    with ((host ++ x2e :: domain) :: ((λ domain, host ++ x2e :: domain) <$> (if RES_DNSRCH r then domains else []))) by by destruct (RES_DNSRCH r).
  cbn [try_all]. unfold bind. destruct (try_name r (host ++ x2e :: domain) num d) as [[[a |] | | | |] d']; try done.
  specialize (IH name' d' Hl' Hn' HF). by destruct (RES_DNSRCH r).
Qed.

Lemma try_all_app r l l' num d :
  try_all r (l ++ l') num d = (a <- try_all r l num ;; match a with Some a => ret (Some a) | None => try_all r l' num end) d.
Proof.
  revert d. induction l as [| x l IH]; intros d; [done |]. cbn [app try_all]. rewrite bind_assoc. unfold bind at 1 2.
  destruct (try_name r x num d) as [[[a |] | | | |] d']; done || apply IH.
Qed.

Lemma try_all_one r x num d : try_all r [x] num d = try_name r x num d.
Proof. cbn. unfold bind. by destruct (try_name r x num d) as [[[a |] | | | |] d']. Qed.

(** The search in the array tries the names of the rules. *)
Lemma search_ok r host num d : host ≠ [] → fits r host → search r host num d = try_all r (candidates r host) num d.
Proof.
  intros Hne (Hl & Hh & HF). unfold search. rewrite (copy_host_ok host 0 0) by (rewrite ?length_replicate; done).
  rewrite take_0. cbn [app]. rewrite Z.add_0_l, Nat.add_0_l. set (name := (Some <$> host) ++ _).
  assert (length name = MAXDNAME) as Hname by (unfold name; rewrite length_app, length_fmap, length_drop, length_replicate; lia).
  assert (bool_decide (name !! (length host - 1)%nat = Some (Some x2e)) = bool_decide (last host = Some x2e)) as ->.
  { apply bool_decide_ext. unfold name. assert (length host ≠ 0)%nat by (by destruct host).
    rewrite lookup_app_l by (rewrite length_fmap; lia). rewrite list_lookup_fmap, last_lookup. replace (Nat.pred (length host)) with (length host - 1)%nat by lia.
    destruct (host !! _) as [c |]; cbn; split; congruence. }
  unfold candidates. set (cond := ((count_dots host =? 0) && RES_DEFNAMES r) || _).
  set (searched := if cond then _ else []).
  assert (∀ d, (if cond then search_domains r (dnsrch r) (S (length host)) (<[length host:=Some x2e]> name) num else ret None) d = try_all r searched num d) as Hs.
  { intros d'. unfold searched. destruct cond; [| done]. apply search_domains_ok; [by rewrite length_insert | | done | done].
    rewrite (take_S_r _ _ (Some x2e)) by (apply list_lookup_insert_eq; lia). rewrite take_insert_ge by done. unfold name.
    rewrite take_app_length' by by rewrite length_fmap. by rewrite fmap_app. }
  clearbody searched. destruct (ndots r <=? count_dots host).
  - cbn [try_all]. unfold bind. destruct (try_name r host num d) as [[[a |] | | | |] d']; try done.
    rewrite Hs. by destruct (try_all r searched num d') as [[[a |] | | | |] d''].
  - rewrite bind_ret. rewrite try_all_app. unfold bind. rewrite Hs. destruct (try_all r searched num d) as [[[a |] | | | |] d']; try done.
    symmetry. exact (try_all_one r host num d').
Qed.

(** The names of [cands] in turn, each asked for at most [n] times. *)
Inductive in_order (n : nat) : list (list byte) → list (list byte) → Prop :=
  | in_order_nil cands : in_order n [] cands
  | in_order_cons k c cands l : (k <= n)%nat → in_order n l cands → in_order n (replicate k c ++ l) (c :: cands).

(** What a search through [cands] may give. *)
Definition searched (r : res_state) (cands : list (list byte)) num d (o : outcome (option (option Z))) d' : Prop :=
  (∃ names, asks names d d' ∧ in_order (nscount r) names cands) ∧ array_ok num d' ∧
  (o = Ok None ∨ o = Ok (Some None) ∧ interrupted d' = true ∨
   ∃ i name, o = Ok (Some (Some i)) ∧ 0 <= i <= num ∧ (0 < _stx_dns_ttl d' → 0 < i) ∧ name ∈ cands ∧ accepted name d).

Lemma try_all_ok r cands num d :
  0 <= num → array_ok num d → ∃ o d', try_all r cands num d = (o, d') ∧ searched r cands num d o d'.
Proof.
  intros Hnum. revert d. induction cands as [| c cands IH]; intros d Ha; cbn [try_all].
  { exists (Ok None), d. split; [done |]. split; [exists []; split; [by apply asks_refl | constructor] |]. split; [done | by left]. }
  unfold try_name. rewrite bind_assoc. destruct (query_domain r c num d) as [o d1] eqn:Eq.
  destruct (query_servers_ok (nscount r) c (replicate (Z.to_nat MAXPACKET) x00) num d) as (k & Hk & Has & Ha1 & Ho); [done | done | done |].
  unfold query_domain in Eq. rewrite Eq in *. cbn [fst snd] in *. fold (query_domain r c num) in Eq. unfold query_domain in Eq.
  unfold bind at 1. unfold attempt, query_domain. rewrite Eq.
  assert (∃ names, asks names d d1 ∧ in_order (nscount r) names (c :: cands)) as Hfirst.
  { exists (replicate k c). split; [done |]. rewrite <- (app_nil_r (replicate k c)). constructor; [done | constructor]. }
  destruct Ho as [-> | (i & -> & Hi & Ht & Hac)].
  - unfold bind. cbn [gets ret id]. destruct (interrupted d1) eqn:Eint.
    + exists (Ok (Some None)), d1. split; [done |]. split; [done |]. split; [done |]. right. left. by split.
    + destruct (IH d1 Ha1) as (o & d2 & E & (names & Hn & Hord) & Ha2 & Hr). exists o, d2. split; [exact E |].
      split; [| split; [done |]].
      * exists (replicate k c ++ names). split; [by apply (asks_trans _ _ d d1) | by constructor].
      * destruct Hr as [-> | [[-> Hi] | (i & name & -> & Hi & Ht & Hin & n & msg & Hm & Hx)]]; [by left | right; by left |].
        right. right. exists i, name. split_and!; try done; try lia; [by right |]. exists n, msg. split; [by apply Has | done].
  - exists (Ok (Some (Some i))), d1. split; [done |]. split; [done |]. split; [done |]. right. right. exists i, c. split_and!; try done; try lia. left.
Qed.

Lemma getaddrlist_ok r host num d :
  0 <= num → array_ok num d → fits r host →
  ∃ o d' names, _stx_dns_getaddrlist r host num d = (o, d') ∧ sockets d' = sockets d ∧ array_ok num d' ∧
    asked d' = asked d ++ names ∧ in_order (nscount r) names (candidates r host) ∧
    (o = Fail ∨ ∃ i name, o = Ok i ∧ 0 <= i <= num ∧ (0 < _stx_dns_ttl d' → 0 < i) ∧ name ∈ candidates r host ∧ accepted name d).
Proof.
  intros Hnum Ha Hfit. unfold _stx_dns_getaddrlist.
  assert (∀ d', asked d' = asked d → sockets d' = sockets d → array_ok num d' → ∃ (o : outcome Z) d'' names, (Fail, d') = (o, d'') ∧
    sockets d'' = sockets d ∧ array_ok num d'' ∧ asked d'' = asked d ++ names ∧ in_order (nscount r) names (candidates r host) ∧
    (o = Fail ∨ ∃ i name, o = Ok i ∧ 0 <= i <= num ∧ (0 < _stx_dns_ttl d'' → 0 < i) ∧ name ∈ candidates r host ∧ accepted name d)) as Hfail.
  { intros d' H1 H2 H3. exists Fail, d', []. split; [done |]. split; [done |]. split; [done |]. rewrite app_nil_r. split; [done |]. split; [constructor | by left]. }
  destruct (negb (res_inited r) && negb (res_init_ok r)); [by apply Hfail |]. destruct (RES_USEVC r); [by apply Hfail |].
  case_bool_decide as Hne; [by apply Hfail |]. unfold open_socket. rewrite bind_assoc. unfold bind at 1. cbn [gets id].
  destruct (socket_ok d); cbn [negb]; [| by apply Hfail]. rewrite bind_assoc. unfold bind at 1. cbn [modify].
  destruct (open_ok d); cbn [negb].
  2: { apply Hfail; [done | cbn; lia | done]. }
  rewrite bind_ret. set (d1 := set_sockets (sockets d + 1) d).
  destruct (try_all_ok r (candidates r host) num d1) as (o & d2 & E & (names & (N1 & N2 & _) & Hord) & Ha2 & Hr); [done | done |].
  rewrite <- (search_ok r host num d1 Hne Hfit) in E.
  destruct Hr as [-> | [[-> _] | (i & name & -> & Hi & Ht & Hin & Hac)]]; rewrite (bind_ok _ _ _ _ _ E); unfold bind at 1; cbn [modify].
  1, 2: exists Fail, (set_sockets (sockets d2 - 1) d2), names; split; [done |]; split; [cbn in *; lia |]; split; [done |]; split; [done |]; split; [done | by left].
  exists (Ok i), (set_sockets (sockets d2 - 1) d2), names. split; [done |]. split; [cbn in *; lia |]. split; [done |]. split; [done |]. split; [done |].
  right. by exists i, name.
Qed.

End resolver.

#[export] Instance stx_parser `{Libresolv} : AnswerParser := parse_answer.

#[export] Instance stx_parser_laws `{LibresolvLaws} : AnswerParserLaws.
Proof. split. intros ans len num d. apply parse_answer_ok. Qed.

(** C35: [_stx_dns_getaddrlist] returns, whatever the servers answer; it asks for the names in the order of the
    resolver's rules, each at most once per server, closes its socket on every path, and reports success only for
    a reply with the query's identifier, no error code and answers, whose addresses it stored inside the caller's array. *)
Theorem dns_search `{LibresolvLaws} r host num d :
  0 <= num → array_ok num d → fits r host →
  ∃ o d' names, _stx_dns_getaddrlist r host num d = (o, d') ∧ sockets d' = sockets d ∧ array_ok num d' ∧
    asked d' = asked d ++ names ∧ in_order (nscount r) names (candidates r host) ∧
    (o = Fail ∨ ∃ i name, o = Ok i ∧ 0 <= i <= num ∧ (0 < _stx_dns_ttl d' → 0 < i) ∧ name ∈ candidates r host ∧ accepted name d).
Proof. apply getaddrlist_ok. Qed.
