(* ===== verification/DnsParse.v ===== *)
(** * extensions/dnsres.c: the answer of a well-formed message

    A message is built from its records and [parse_answer] finds the addresses in it. *)

From stdpp Require Import base list.
From Stdlib Require Import Lia ZArith.
From S2P Require Import Prelude.
From S2P Require Import Bytes.
From S2P Require Import Dns.

Local Open Scope Z_scope.

(** A resource record and a question; names are in the form they have in the message. *)
Record rr := RR { rr_name : list byte; rr_type : Z; rr_class : Z; rr_ttl : Z; rr_data : list byte }.
Record question := Question { q_name : list byte; q_fixed : list byte }.
Implicit Types (x : rr) (rs : list rr) (qs : list question).

Definition be_bytes (n : nat) (z : Z) : list byte := reverse (le_bytes n z).

Definition rr_fixed x : list byte :=
  be_bytes 2 (rr_type x) ++ be_bytes 2 (rr_class x) ++ be_bytes 4 (rr_ttl x) ++ be_bytes 2 (Z.of_nat (length (rr_data x))).
Definition encode_rr x : list byte := rr_name x ++ rr_fixed x ++ rr_data x.
Definition encode_q (q : question) : list byte := q_name q ++ q_fixed q.

(** [h1], [h2]: the header around the two counts, which are in host order. *)
Definition message (h1 h2 body : list byte) (qd an : Z) : list byte := h1 ++ le_bytes 2 qd ++ le_bytes 2 an ++ h2 ++ body.

Definition is_address x : Prop := rr_type x = T_A.

(** The addresses that fit, and the time to live of the last of them. *)
Fixpoint addresses (n : nat) rs : list (list byte) :=
  match n, rs with
  | S n', x :: rs => if rr_type x =? T_A then rr_data x :: addresses n' rs else addresses n rs
  | _, _ => []
  end.
Fixpoint ttl_of (n : nat) rs (t : Z) : Z :=
  match n, rs with
  | S n', x :: rs => if rr_type x =? T_A then ttl_of n' rs (swrap 32 (rr_ttl x)) else ttl_of n rs t
  | _, _ => t
  end.

Record rr_ok x : Prop := {
  rr_type_range : 0 <= rr_type x < 2 ^ 16;
  rr_ttl_range : 0 <= rr_ttl x < 2 ^ 32;
  rr_data_length : 0 < Z.of_nat (length (rr_data x)) < 2 ^ 16;
  rr_address : rr_type x = T_A → length (rr_data x) = 4%nat;
}.

(** The numbers of a record fit their fields. *)
Record rr_range x : Prop := {
  rg_type : 0 <= rr_type x < 2 ^ 16;
  rg_ttl : 0 <= rr_ttl x < 2 ^ 32;
  rg_length : Z.of_nat (length (rr_data x)) < 2 ^ 16;
}.

Lemma rr_ok_range x : rr_ok x → rr_range x.
Proof. intros [Ht Htl Hd _]. split; [done | done | lia]. Qed.

Lemma length_be_number n z : length (be_bytes n z) = n.
Proof. unfold be_bytes. by rewrite length_reverse, length_le_bytes. Qed.

Lemma of_be_bytes n z : 0 <= z < 256 ^ Z.of_nat n → of_be (be_bytes n z) = z.
Proof. intros Hz. unfold of_be, be_bytes. rewrite reverse_involutive, of_le_le_bytes. by apply Z.mod_small. Qed.

Lemma bytes_at_mid pre (l post : list byte) off n : Z.to_nat off = length pre → n = length l → bytes_at n off (pre ++ l ++ post) = l.
Proof. intros Ho ->. unfold bytes_at. by rewrite Ho, drop_app_length, take_app_length. Qed.

(** A number in network order, inside a message. *)
Lemma get_be_mid n z pre (post : list byte) off :
  0 <= z < 256 ^ Z.of_nat n → off = Z.of_nat (length pre) → get_be n off (pre ++ be_bytes n z ++ post) = Ok z.
Proof.
  intros Hz ->. destruct (get_be_ok n (Z.of_nat (length pre)) (pre ++ be_bytes n z ++ post)) as [-> _]; [lia | |].
  - rewrite !length_app, length_be_number. lia.
  - rewrite bytes_at_mid; [by rewrite of_be_bytes | lia | by rewrite length_be_number].
Qed.

Definition size_of (l : list byte) : Z := Z.of_nat (length l).

Lemma size_app (l l' : list byte) : size_of (l ++ l') = size_of l + size_of l'.
Proof. unfold size_of. rewrite length_app. lia. Qed.

Lemma size_rr x : size_of (encode_rr x) = size_of (rr_name x) + 10 + size_of (rr_data x).
Proof. unfold encode_rr, rr_fixed. rewrite !size_app. unfold size_of. rewrite !length_be_number. lia. Qed.

Section parse.
Context `{Libresolv} (h1 h2 body : list byte) (Hh1 : length h1 = 4%nat) (Hh2 : length h2 = 4%nat).
Notation msg := (message h1 h2 body).

Lemma message_qd qd an : 0 <= qd < 2 ^ 16 → hp_qdcount (msg qd an) = qd.
Proof.
  intros Hq. unfold hp_qdcount, u16, message. rewrite bytes_at_mid by (by rewrite ?Hh1, ?length_le_bytes).
  rewrite of_le_le_bytes. by apply Z.mod_small.
Qed.

Lemma message_an qd an : 0 <= an < 2 ^ 16 → hp_ancount (msg qd an) = an.
Proof.
  intros Ha. unfold hp_ancount, u16, message. rewrite (app_assoc h1). rewrite bytes_at_mid by (by rewrite ?length_app, ?Hh1, ?length_le_bytes).
  rewrite of_le_le_bytes. by apply Z.mod_small.
Qed.

Lemma put_at_mid pre (old post l : list byte) off : Z.to_nat off = length pre → length l = length old →
  put_at off l (pre ++ old ++ post) = pre ++ l ++ post.
Proof.
  intros Ho Hl. unfold put_at. rewrite Ho, take_app_length, Hl. by rewrite <- drop_drop, drop_app_length, drop_app_length.
Qed.

Lemma message_set_qd qd an v : set_u16 4 v (msg qd an) = msg v an.
Proof. unfold set_u16, message. by rewrite put_at_mid by (by rewrite ?Hh1, ?length_le_bytes). Qed.

Lemma message_set_an qd an v : set_u16 6 v (msg qd an) = msg qd v.
Proof.
  unfold set_u16, message. rewrite (app_assoc h1). rewrite put_at_mid by (by rewrite ?length_app, ?Hh1, ?length_le_bytes). by rewrite <- app_assoc.
Qed.

(** libresolv finds the names of the message, whatever the counts are by then. *)
Definition names_read qs rs eoa : Prop :=
  (∀ l q l', qs = l ++ q :: l' → ∀ qd an, dn_skipname (msg qd an) (12 + size_of (l ≫= encode_q)) eoa = size_of (q_name q)) ∧
  (∀ l x l', rs = l ++ x :: l' → ∀ qd an,
     dn_expand (msg qd an) (12 + size_of (qs ≫= encode_q) + size_of (l ≫= encode_rr)) eoa = size_of (rr_name x)).

Lemma skip_encoded fuel qs done_q an eoa :
  (length qs < fuel)%nat →
  0 <= Z.of_nat (length qs) < 2 ^ 16 → Forall (λ q, length (q_fixed q) = 4%nat) qs →
  (∀ l q l', qs = l ++ q :: l' → ∀ qd an, dn_skipname (msg qd an) (done_q + size_of (l ≫= encode_q)) eoa = size_of (q_name q)) →
  skip_questions fuel (msg (Z.of_nat (length qs)) an) done_q eoa = Ok (msg 0 an, done_q + size_of (qs ≫= encode_q)).
Proof.
  revert fuel done_q. induction qs as [| q qs IH]; intros [| fuel] c Hf Hl HF Hr; try (cbn in Hf; lia); cbn [skip_questions];
    rewrite message_qd by (cbn in *; lia).
  { cbn. do 2 f_equal. unfold size_of. cbn. lia. }
  cbn [length] in *. apply Forall_cons in HF as [Hq HF]. rewrite (proj2 (Z.ltb_lt _ _)) by lia. rewrite message_set_qd.
  replace (Z.of_nat (S (length qs)) - 1) with (Z.of_nat (length qs)) by lia.
  pose proof (Hr [] q qs eq_refl (Z.of_nat (length qs)) an) as Hs. unfold size_of in Hs. cbn in Hs. rewrite Z.add_0_r in Hs. rewrite Hs.
  assert (∀ l, size_of ((q :: l) ≫= encode_q) = Z.of_nat (length (q_name q)) + 4 + size_of (l ≫= encode_q)) as Hsz.
  { intros l. unfold size_of. cbn. unfold encode_q at 1. rewrite !length_app. lia. }
  rewrite IH; [| lia | lia | done |].
  - rewrite Hsz. unfold QFIXEDSZ. do 2 f_equal. lia.
  - intros l q' l' -> qd an'. rewrite <- (Hr (q :: l) q' l' eq_refl qd an'), Hsz. unfold QFIXEDSZ. f_equal. lia.
Qed.

Lemma length_message qd an : length (msg qd an) = (12 + length body)%nat.
Proof. unfold message. rewrite !length_app, !length_le_bytes, Hh1, Hh2. lia. Qed.

(** The fields of the record [x] that comes after [pre]. *)
Lemma read_fields pre x post qd an (off := 12 + size_of pre + size_of (rr_name x)) :
  body = pre ++ encode_rr x ++ post → rr_range x →
  _getshort off (msg qd an) = Ok (rr_type x) ∧ _getlong (off + 4) (msg qd an) = Ok (rr_ttl x) ∧
  _getshort (off + 4 + 4) (msg qd an) = Ok (size_of (rr_data x)) ∧
  bytes_at (length (rr_data x)) (off + 4 + 4 + 2) (msg qd an) = rr_data x.
Proof.
  intros Hb [Ht Htl Hd]. unfold _getshort, _getlong.
  set (p := h1 ++ le_bytes 2 qd ++ le_bytes 2 an ++ h2 ++ pre ++ rr_name x).
  assert (msg qd an = p ++ rr_fixed x ++ rr_data x ++ post) as -> by (unfold message, p; rewrite Hb; unfold encode_rr; by rewrite <- !app_assoc).
  assert (Z.of_nat (length p) = off) as Hp.
  { unfold p, off, size_of. rewrite !length_app, !length_le_bytes, Hh1, Hh2. lia. }
  clearbody p. unfold rr_fixed. rewrite <- !app_assoc. split; [by apply get_be_mid |].
  split; [| split].
  - rewrite (app_assoc p), (app_assoc (p ++ _)). apply get_be_mid; [done |]. rewrite !length_app, !length_be_number. lia.
  - rewrite (app_assoc p), (app_assoc (p ++ _)), (app_assoc ((p ++ _) ++ _)). unfold size_of. apply get_be_mid; [| rewrite !length_app, !length_be_number; lia].
    change (256 ^ Z.of_nat 2) with 65536. lia.
  - rewrite (app_assoc p), (app_assoc (p ++ _)), (app_assoc ((p ++ _) ++ _)), (app_assoc (((p ++ _) ++ _) ++ _)).
    apply bytes_at_mid; [rewrite !length_app, !length_be_number; lia | done].
Qed.

Lemma copy_addr_exact ans cp i num (data : list byte) d :
  array_ok num d → 0 <= i < num → 0 <= cp → cp + 4 <= size_of ans → length data = 4%nat → bytes_at (length data) cp ans = data →
  copy_addr ans cp 4 i d = (Ok tt, set_addrs (<[Z.to_nat i := data]> (addr_buf d)) d).
Proof.
  intros [Hn Hf] Hi Hcp Hl Hd Hb. unfold copy_addr. destruct (lookup_lt_is_Some_2 (addr_buf d) (Z.to_nat i)) as [a Ha]; [lia |].
  rewrite Ha. assert (length a = 4%nat) as Hla by by apply (Forall_lookup_1 _ _ _ _ Hf Ha).
  rewrite bool_decide_true by (unfold size_of in Hl; split_and!; lia). rewrite Hd in Hb. rewrite Hb, drop_ge by lia. by rewrite app_nil_r.
Qed.

Lemma read_encoded fuel rs pre post qd i num d (n := Z.to_nat (num - i)) (eoa := 12 + size_of pre + size_of (rs ≫= encode_rr)) :
  body = pre ++ (rs ≫= encode_rr) ++ post → (length rs < fuel)%nat → Z.of_nat (length rs) < 2 ^ 16 →
  Forall rr_ok rs → 0 <= i → array_ok num d →
  (∀ l x l', rs = l ++ x :: l' → ∀ qd an, dn_expand (msg qd an) (12 + size_of pre + size_of (l ≫= encode_rr)) eoa = size_of (rr_name x)) →
  read_answers fuel (msg qd (Z.of_nat (length rs))) (12 + size_of pre) eoa i num d =
    (Ok (i + Z.of_nat (length (addresses n rs))),
     set_ttl (ttl_of n rs (_stx_dns_ttl d))
       (set_addrs (take (Z.to_nat i) (addr_buf d) ++ addresses n rs ++ drop (Z.to_nat i + length (addresses n rs)) (addr_buf d)) d)).
Proof.
  revert fuel pre i d n eoa. induction rs as [| x rs IH]; intros [| fuel] pre i d n eoa Hb Hf Hl HF Hi Ha Hr; try (cbn in Hf; lia);
    cbn [read_answers]; rewrite message_an by (cbn in *; lia).
  - cbn [length Z.of_nat]. rewrite andb_false_l. cbn [ret]. destruct n; cbn [addresses ttl_of length app]; rewrite Z.add_0_r, Nat.add_0_r, take_drop; by destruct d.
  - cbn [length] in *. rewrite (proj2 (Z.ltb_lt _ _)) by lia. apply Forall_cons in HF as [Hx HF].
    pose proof (rr_data_length _ Hx) as Hdl.
    assert (eoa = 12 + size_of pre + size_of (encode_rr x) + size_of (rs ≫= encode_rr)) as He.
    { unfold eoa. cbn. rewrite size_app. lia. }
    assert (0 <= size_of pre ∧ 0 <= size_of (rr_name x) ∧ 0 <= size_of (rs ≫= encode_rr) ∧ 0 < size_of (rr_data x) < 65536) as (P1 & P2 & P3 & P4) by (unfold size_of; lia).
    pose proof (size_rr x) as Hsx. rewrite (proj2 (Z.ltb_lt (12 + size_of pre) eoa)) by lia. cbn [andb].
    destruct (Z.ltb_spec i num) as [Hin | Hin].
    2: { assert (n = 0%nat) as -> by lia. cbn [addresses ttl_of length app ret]. rewrite Z.add_0_r, Nat.add_0_r, take_drop. by destruct d. }
    rewrite message_set_an. replace (Z.of_nat (S (length rs)) - 1) with (Z.of_nat (length rs)) by lia.
    pose proof (Hr [] x rs eq_refl qd (Z.of_nat (length rs))) as Hn. unfold size_of at 2 in Hn. cbn in Hn. rewrite Z.add_0_r in Hn. rewrite Hn.
    rewrite (proj2 (Z.ltb_ge _ _)) by lia. rewrite (proj2 (Z.leb_gt _ _)) by lia.
    assert (body = pre ++ encode_rr x ++ (rs ≫= encode_rr) ++ post) as Hb' by (rewrite Hb; cbn; by rewrite <- app_assoc).
    destruct (read_fields pre x _ qd (Z.of_nat (length rs)) Hb' (rr_ok_range x Hx)) as (F1 & F2 & F3 & F4).
    set (off := 12 + size_of pre + size_of (rr_name x)) in *. rewrite F1. unfold bind at 1. cbn [lift]. rewrite F2. unfold bind at 1. cbn [lift].
    assert (off + 4 + 4 + 2 + size_of (rr_data x) = 12 + size_of (pre ++ encode_rr x)) as Hnext by (rewrite size_app; lia).
    assert (∀ i' d', array_ok num d' → 0 <= i' → let n' := Z.to_nat (num - i') in
      read_answers fuel (msg qd (Z.of_nat (length rs))) (12 + size_of (pre ++ encode_rr x)) eoa i' num d' =
      (Ok (i' + Z.of_nat (length (addresses n' rs))), set_ttl (ttl_of n' rs (_stx_dns_ttl d'))
       (set_addrs (take (Z.to_nat i') (addr_buf d') ++ addresses n' rs ++ drop (Z.to_nat i' + length (addresses n' rs)) (addr_buf d')) d'))) as Hrest.
    { intros i' d' Ha' Hi'. cbv zeta in IH |- *. replace eoa with (12 + size_of (pre ++ encode_rr x) + size_of (rs ≫= encode_rr)) by (rewrite size_app; lia).
      apply IH; try done; try lia.
      - by rewrite Hb', <- !app_assoc.
      - intros l y l' -> qd' an'. rewrite <- (Hr (x :: l) y l' eq_refl qd' an'). f_equal; [| rewrite size_app; cbn in *; rewrite !size_app in *; lia].
        cbn. rewrite !size_app. lia. }
    destruct n as [| n'] eqn:En; [lia |]. cbn [addresses ttl_of]. destruct (Z.eqb_spec (rr_type x) T_A) as [HT | HT].
    + unfold bind at 1. cbn [modify]. rewrite F3. unfold bind at 1. cbn [lift].
      pose proof (rr_address _ Hx HT) as H4. assert (size_of (rr_data x) = 4) as Hz4 by (unfold size_of; by rewrite H4).
      rewrite Hz4 in *. cbn [Z.ltb Z.compare Pos.compare Pos.compare_cont orb]. rewrite (proj2 (Z.ltb_ge _ _)) by lia.
      set (d1 := set_ttl (swrap 32 (rr_ttl x)) d). change (Z.to_nat 4) with 4%nat.
      assert (copy_addr (msg qd (Z.of_nat (length rs))) (off + 4 + 4 + 2) 4 i d1 = (Ok tt, set_addrs (<[Z.to_nat i := rr_data x]> (addr_buf d1)) d1)) as Ec.
      { apply (copy_addr_exact _ _ i num (rr_data x) d1); try done; try (unfold off; lia). unfold size_of at 1.
        rewrite length_message, Hb', !length_app. fold (size_of pre). unfold off, size_of in *. lia. }
      rewrite (bind_ok _ _ _ _ _ Ec).
      rewrite Hnext, Hrest; [| split; cbn; [rewrite length_insert; apply Ha | apply Forall_insert; [apply Ha | done]] | lia].
      assert (Z.to_nat (num - (i + 1)) = n') as -> by lia. cbn [length addr_buf set_addrs]. f_equal; [f_equal; lia |]. unfold d1. cbn [_stx_dns_ttl set_ttl].
      assert (Z.to_nat i < length (addr_buf d))%nat as Hil by (destruct Ha; lia).
      replace (Z.to_nat (i + 1)) with (S (Z.to_nat i)) by lia.
      rewrite (take_S_r _ _ (rr_data x)) by by apply list_lookup_insert_eq. rewrite take_insert_ge by done. rewrite drop_insert_lt by lia.
      rewrite <- app_assoc. cbn [app Nat.add]. rewrite Nat.add_succ_r. by destruct d.
    + unfold bind at 1. cbn [ret]. rewrite F3. unfold bind at 1. cbn [lift]. rewrite Hnext, Hrest by done. fold n. by rewrite En.
Qed.

(** C36: [parse_answer] finds the addresses of a well-formed answer: those of its A records, in order, as many as the
    caller has room for, and the time to live of the last one. *)
Theorem parse_answer_finds qs rs post num d :
  body = (qs ≫= encode_q) ++ (rs ≫= encode_rr) ++ post → Z.of_nat (length qs) < 2 ^ 16 → Z.of_nat (length rs) < 2 ^ 16 →
  Forall (λ q, length (q_fixed q) = 4%nat) qs → Forall rr_ok rs → 0 <= num → array_ok num d →
  let eoa := 12 + size_of (qs ≫= encode_q) + size_of (rs ≫= encode_rr) in
  names_read qs rs eoa →
  let found := addresses (Z.to_nat num) rs in
  parse_answer (msg (Z.of_nat (length qs)) (Z.of_nat (length rs))) eoa num d =
    (Ok (Z.of_nat (length found)),
     set_h_errno TRY_AGAIN (set_ttl (ttl_of (Z.to_nat num) rs (-1)) (set_addrs (found ++ drop (length found) (addr_buf d)) d))).
Proof.
  intros Hb Hq Hr HFq HFr Hnum Ha eoa [Hnq Hnr] found. unfold parse_answer. unfold bind at 1. cbn [modify]. unfold bind at 1. cbn [modify].
  rewrite message_qd by lia.
  rewrite (skip_encoded _ qs) by (done || lia || exact Hnq). unfold bind. cbn [lift]. rewrite message_an by lia.
  unfold HFIXEDSZ, eoa.
  rewrite (read_encoded _ rs (qs ≫= encode_q) post) by (done || lia || exact Hnr). rewrite Z.sub_0_r. cbn [take Z.to_nat app Nat.add].
  by destruct d.
Qed.
End parse.

(** ** Arrays that are too small *)
Section overflow.
Context `{Libresolv}.

(** A host name that fills the array: the dot goes to its last element and [strncpy] gets a negative size. *)
Lemma long_host_overflows r host domain domains num d :
  length host = (MAXDNAME - 1)%nat → count_dots host = 0 → 0 < ndots r → RES_DEFNAMES r = true → dnsrch r = domain :: domains →
  (search r host num d).1 = Undef.
Proof.
  intros Hl Hdots Hnd Hdef Hdom. unfold search. rewrite (copy_host_ok host 0 0) by (rewrite ?length_replicate, ?Hl; unfold MAXDNAME; lia).
  rewrite take_0, Hdots, Hl. cbn [Nat.add Z.add]. rewrite (proj2 (Z.leb_gt _ _)) by done. rewrite bind_ret, Hdef, Hdom. cbn [Z.eqb negb andb orb].
  unfold bind. cbn [search_domains]. unfold bind. cbn [lift]. unfold strncpy. by rewrite (proj2 (Z.ltb_lt _ _)) by (unfold MAXDNAME; lia).
Qed.
End overflow.

(** ** Example *)
(** Labels up to the empty one, or a pointer. *)
Fixpoint wire_length (fuel : nat) (l : list byte) : Z :=
  match fuel, l with
  | S fuel, b :: l =>
      if uc b =? 0 then 1 else if 192 <=? uc b then 2 else
      let n := wire_length fuel (drop (Z.to_nat (uc b)) l) in if n <=? 0 then -1 else uc b + 1 + n
  | _, _ => -1
  end.

Definition name_length (buf : list byte) (cp eoa : Z) : Z :=
  let n := wire_length 128 (drop (Z.to_nat cp) buf) in if (0 <? n) && (cp + n <=? eoa) then n else -1.

#[export] Instance plain_names : Libresolv := {|
  dn_skipname := name_length;
  dn_expand := name_length;
  res_mkquery n name := le_bytes 2 (Z.of_nat n + 7) ++ replicate 10 x00;
|}.

Lemma name_length_law buf cp eoa : name_length buf cp eoa = -1 ∨ 0 < name_length buf cp eoa ∧ cp + name_length buf cp eoa <= eoa.
Proof. unfold name_length. destruct (_ && _) eqn:Hn; [right | by left]. apply andb_true_iff in Hn as [?%Z.ltb_lt ?%Z.leb_le]. done. Qed.

#[export] Instance plain_names_laws : LibresolvLaws.
Proof.
  split; cbn -[name_length le_bytes].
  - apply name_length_law.
  - intros buf cp eoa. destruct (name_length_law buf cp eoa) as [-> |]; [by left | by right].
  - intros n name. right. rewrite length_app, length_le_bytes. done.
Qed.

(** A reply for [a.b] with an alias before the address. *)
Definition example_q : question := Question [x01; x61; x01; x62; x00] [x00; x01; x00; x01].
Definition example_rrs : list rr :=
  [RR [xc0; x0c] 5 1 60 [x01; x63; x00]; RR [x01; x63; x00] 1 1 300 [x7f; x00; x00; x01]].
Definition example_body : list byte := ([example_q] ≫= encode_q) ++ (example_rrs ≫= encode_rr) ++ [].

(** The identifier is that of the first query; the counts are still in network order. *)
Definition example_reply : list byte := message [x07; x00; x81; x80] [x00; x00; x00; x00] example_body 256 512.

Definition example_dns : dns :=
  Dns NETDB_SUCCESS Eother 0 (replicate 2 [x00; x00; x00; x00]) [] [Datagram example_reply] true true [] 0.
Definition example_res : res_state := ResState true true false true true 1 1 [[x64]].

Lemma example_names : names_read [x07; x00; x81; x80] [x00; x00; x00; x00] example_body [example_q] example_rrs
  (12 + size_of ([example_q] ≫= encode_q) + size_of (example_rrs ≫= encode_rr)).
Proof.
  split.
  - intros l q l' Hl qd an. destruct l as [| q1 [| q2 l]]; [| discriminate | discriminate]. injection Hl as <- <-. lazy. reflexivity.
  - intros l x l' Hl qd an. destruct l as [| x1 [| x2 [| x3 l]]]; try discriminate; [injection Hl as <- <- | injection Hl as <- <- <-]; lazy; reflexivity.
Qed.

Definition example_end : Z := 12 + size_of ([example_q] ≫= encode_q) + size_of (example_rrs ≫= encode_rr).

Lemma parse_answer_finds_witness :
  example_end = 53 ∧ addresses 2 example_rrs = [[x7f; x00; x00; x01]] ∧ ttl_of 2 example_rrs (-1) = 300 ∧
  parse_answer (message [x07; x00; x81; x80] [x00; x00; x00; x00] example_body 1 2) example_end 2 example_dns =
    (Ok (Z.of_nat (length (addresses 2 example_rrs))), set_h_errno TRY_AGAIN (set_ttl (ttl_of 2 example_rrs (-1))
      (set_addrs (addresses 2 example_rrs ++ drop (length (addresses 2 example_rrs)) (addr_buf example_dns)) example_dns))).
Proof.
  split; [vm_compute; reflexivity |]. split; [reflexivity |]. split; [vm_compute; reflexivity |].
  refine (parse_answer_finds [x07; x00; x81; x80] [x00; x00; x00; x00] example_body eq_refl eq_refl [example_q] example_rrs [] 2 example_dns _ _ _ _ _ _ _ _).
  - reflexivity.
  - reflexivity.
  - reflexivity.
  - constructor; [reflexivity | constructor].
  - constructor; [| constructor; [| constructor]]; (split; cbn; [lia | lia | lia |]); [discriminate | reflexivity].
  - lia.
  - split; [cbn; lia | repeat constructor].
  - exact example_names.
Defined.

Lemma dns_search_witness :
  ∃ o d' names, _stx_dns_getaddrlist example_res [x61; x2e; x62] 2 example_dns = (o, d') ∧ sockets d' = 0 ∧ o = Ok 1 ∧
    asked d' = names ∧ in_order 1 names [[x61; x2e; x62]; [x61; x2e; x62; x2e; x64]].
Proof.
  destruct (dns_search example_res [x61; x2e; x62] 2 example_dns) as (o & d' & names & E & H1 & _ & H3 & H4 & _).
  - lia.
  - split; [cbn; lia | repeat constructor].
  - split; [unfold MAXDNAME; cbn; lia |]. split; [apply (bool_decide_eq_true_1 _); vm_compute; reflexivity |].
    constructor; [| constructor]. split; [unfold MAXDNAME; cbn; lia |]. apply (bool_decide_eq_true_1 _). vm_compute. reflexivity.
  - assert (fst (_stx_dns_getaddrlist example_res [x61; x2e; x62] 2 example_dns) = Ok 1) as Ho by (vm_compute; reflexivity).
    rewrite E in Ho. exists o, d', names. split; [exact E |]. split; [exact H1 |]. split; [exact Ho |]. split; [exact H3 |]. exact H4.
Defined.

(** A record without data at the end of a message: the whole answer is refused. *)
Lemma empty_record_refused :
  let body := ([example_q] ≫= encode_q) ++ ([RR [xc0; x0c] 1 1 300 [x7f; x00; x00; x01]; RR [xc0; x0c] 16 1 60 []] ≫= encode_rr) in
  (parse_answer (message [x07; x00; x81; x80] [x00; x00; x00; x00] body 1 2) (12 + size_of body) 2 example_dns).1 = Fail.
Proof. vm_compute. reflexivity. Qed.

(** A name that fills the array up to its last element is not terminated. *)
Lemma unterminated_name_read :
  (search (ResState true true false true true 1 1 [[x64; x64]]) (replicate 1021 x61) 2 example_dns).1 = Undef.
Proof. vm_compute. reflexivity. Qed.
