(* ===== verification/DnsCache.v ===== *)
(** * extensions/dnscache.c: addresses of hosts in an LRU cache

    The cache of LruCache.v with host names as keys and lists of addresses with a time of expiry as data, in front
    of the resolver of Dns.v. *)

From stdpp Require Import base list sets gmap.
From Stdlib Require Import Lia ZArith.
From S2P Require Import Prelude.
From S2P Require Import Bytes.
From S2P Require Import Clist.
From S2P Require Import LruCache.
From S2P Require Import LruRefine.
From S2P Require Import LruCalls.
From S2P Require Import Dns.
From S2P Require Import DnsParse.

Local Open Scope Z_scope.

(** ** Host names as keys *)
Fixpoint hash_loop (hash : Z) (name : list byte) : Z :=
  match name with
  | [] => hash
  | c :: name => hash_loop (wrap 64 (wrap 64 (Z.shiftl hash 4) - hash + sc c)) name
  end.
Definition hash_hostname (name : list byte) : Z := hash_loop 0 name.

(** Only the sign of the result is specified. *)
Fixpoint strcmp (s t : list byte) : Z :=
  match s, t with
  | [], [] => 0
  | [], _ :: _ => -1
  | _ :: _, [] => 1
  | c :: s, c' :: t => if uc c =? uc c' then strcmp s t else uc c - uc c'
  end.

#[export] Instance host_keys : KeyFns (list byte) := {| key_hash_fn := hash_hostname; key_cmp_fn := strcmp |}.

Lemma strcmp_0 s t : strcmp s t = 0 ↔ s = t.
Proof.
  revert t. induction s as [| c s IH]; intros [| c' t]; cbn; try done. destruct (Z.eqb_spec (uc c) (uc c')) as [He | He].
  - rewrite IH. apply uc_inj in He as ->. split; [by intros -> | by intros [= ->]].
  - split; [lia | by intros [= -> _]].
Qed.

Lemma hash_range h name : 0 <= h < 2 ^ 64 → 0 <= hash_loop h name < 2 ^ 64.
Proof. revert h. induction name as [| c name IH]; intros h Hh; cbn [hash_loop]; [done |]. apply IH, wrap_range. lia. Qed.

#[export] Instance host_key_laws : KeyLaws (list byte).
Proof.
  split; cbn.
  - split; [intros s; by apply strcmp_0 | intros s t H%strcmp_0; by apply strcmp_0 | intros s t u H1%strcmp_0 H2%strcmp_0; apply strcmp_0; congruence].
  - intros k k' H%strcmp_0. by rewrite H.
  - intros k. apply hash_range. lia.
Qed.

(** ** Entries *)
(** [addrs]: the array, of [num_addrs] addresses. *)
Record stx_dns_data := DnsData { addrs : list (list byte); num_addrs : Z; cur : Z; expires : Z }.

Definition MAX_HOST_ADDRS : Z := 1024.

Notation cache_mem := (@mem (list byte) stx_dns_data).

(** [_stx_dns_cache]: NULL or the cache; [resolver]: the variables of dnsres.c with [addr_list] as the array that is
    filled; [clock]: what [st_time] returns. *)
Record dnscache := Dnscache { _stx_dns_cache : option cache_mem; resolver : dns; clock : Z }.

(** The results of [strdup] and the two [malloc]s together, and of the [calloc] of an entry. *)
Class Allocator := { parts_ok : cache_mem → bool; calloc_entry : cache_mem → option Z }.

(** Memory that [calloc] returns is not in use. *)
Class AllocatorLaws `{Allocator} : Prop := calloc_unused m a : calloc_entry m = Some a → unused m a.

(** Sizes of structures on x86-64. *)
Definition sizeof_in_addr : Z := 4.
Definition sizeof_dns_data : Z := 24.
Definition stx_cache_entry_sizeof : Z := 64.

Section dnscache.
Context `{Libresolv, Allocator}.
Implicit Types (host : list byte) (m : cache_mem) (c : dnscache) (num : Z).

Definition with_store m c : dnscache := Dnscache (Some m) (resolver c) (clock c).
Definition with_resolver d c : dnscache := Dnscache (_stx_dns_cache c) d (clock c).

Definition in_cache {A : Type} (f : M cache_mem A) : M dnscache A := λ c,
  match _stx_dns_cache c with
  | Some m => let '(o, m) := f m in (o, with_store m c)
  | None => (Undef, c)
  end.
Definition in_resolver {A : Type} (f : M dns A) : M dnscache A := λ c,
  let '(o, d) := f (resolver c) in (o, with_resolver d c).

(** [data->addrs[i]] *)
Definition address (x : stx_dns_data) (i : Z) : outcome (list byte) :=
  if i <? 0 then Undef else match addrs x !! Z.to_nat i with Some v => Ok v | None => Undef end.

(** [memcpy(addrs, src, n * sizeof( *addrs))] *)
Definition copy_addrs (src : list (list byte)) (n : Z) : outcome (list (list byte)) :=
  if bool_decide (0 <= n <= Z.of_nat (length src)) then Ok (take (Z.to_nat n) src) else Undef.

(** [data->cur++], and back to the first at the end. *)
Definition advance (x : stx_dns_data) : stx_dns_data :=
  DnsData (addrs x) (num_addrs x) (if num_addrs x <=? cur x + 1 then 0 else cur x + 1) (expires x).

(** The addresses that are stored, for the address [a] of the entry with the data [x]. *)
Definition give (a : Z) (x : stx_dns_data) num (rotate : bool) : M cache_mem (list (list byte)) :=
  if num =? 1 then
    if rotate then
      v <- lift (address x (cur x)) ;;
      upd a (with_data (advance x)) ;;
      ret [v]
    else
      v <- lift (address x 0) ;;
      ret [v]
  else lift (copy_addrs (addrs x) (Z.min num (num_addrs x))).

(** [None]: the host is not in the cache. *)
Definition lookup_entry host num (rotate : bool) : M dnscache (option (list (list byte))) :=
  r <- in_cache (stx_cache_entry_lookup host) ;;
  match r with
  | None => ret None
  | Some a =>
      x <- in_cache (stx_cache_entry_getdata a) ;;
      t <- gets clock ;;
      if t <=? expires x then
        l <- in_cache (give a x num rotate) ;;
        in_cache (stx_cache_entry_release a) ;;
        ret (Some l)
      else
        in_cache (stx_cache_entry_release a) ;;
        in_cache (stx_cache_entry_delete a) ;;
        ret None
  end.

Definition entry_weight host (count : Z) : Z :=
  Z.of_nat (length host) + 1 + sizeof_dns_data + count * sizeof_in_addr + stx_cache_entry_sizeof.

(** [c] with its failure as a value. *)
Definition succeeds {S : Type} (c : M S unit) : M S bool := λ s,
  match c s with
  | (Ok _, s) => (Ok true, s)
  | (Fail, s) => (Ok false, s)
  | (Throw, s) => (Throw, s)
  | (Undef, s) => (Undef, s)
  | (Hang, s) => (Hang, s)
  end.

(** When an allocation fails everything is freed again and the cache is as before. *)
Definition insert_new host (x : stx_dns_data) : M cache_mem unit := λ m,
  match calloc_entry m with
  | Some a =>
      if parts_ok m then
        (a <- stx_cache_entry_create (Some a) host x (entry_weight host (num_addrs x)) ;;
         ok <- succeeds (stx_cache_entry_insert a) ;;
         if ok then stx_cache_entry_release a else stx_cache_entry_delete a) m
      else (Ok tt, m)
  | None => (Ok tt, m)
  end.

Definition insert_entry host (l : list (list byte)) (count : Z) : M dnscache unit :=
  c <- gets id ;;
  if 0 <? _stx_dns_ttl (resolver c) then
    in_cache (insert_new host (DnsData l count 0 (clock c + _stx_dns_ttl (resolver c))))
  else ret tt.

(** In the "C" locale. *)
Definition tolower (c : byte) : byte := if (65 <=? uc c) && (uc c <=? 90) then to_byte (uc c + 32) else c.

(** [char host[128]] *)
Definition host_key (hostname : list byte) : list byte := tolower <$> take 127 hostname.

Definition _stx_dns_cache_getaddrlist (r : res_state) (hostname : list byte) num (rotate : bool) : M dnscache (list (list byte)) :=
  c <- gets id ;;
  match _stx_dns_cache c with
  | None =>
      n <- in_resolver (_stx_dns_getaddrlist r hostname num) ;;
      d <- gets resolver ;;
      ret (take (Z.to_nat n) (addr_buf d))
  | Some _ =>
      let host := host_key hostname in
      found <- lookup_entry host num rotate ;;
      match found with
      | Some l => ret l
      | None =>
          count <- in_resolver (_stx_dns_getaddrlist r host MAX_HOST_ADDRS) ;;
          d <- gets resolver ;;
          l <- lift (copy_addrs (addr_buf d) (Z.min num count)) ;;
          insert_entry host (take (Z.to_nat count) (addr_buf d)) count ;;
          ret l
      end
  end.

(** [mem1], [mem2]: what [calloc] returns. *)
Definition stx_dns_cache_init (mem1 : option Z) (mem2 : bool) (max_size max_bytes hash_size : Z) : M dnscache unit := λ c,
  match stx_cache_create mem1 mem2 max_size max_bytes hash_size true with
  | Ok m => (Ok tt, with_store m c)
  | Fail => (Fail, Dnscache None (resolver c) (clock c))
  | _ => (Undef, c)
  end.

Definition stx_dns_getaddrlist (r : res_state) (hostname : list byte) num : M dnscache (list (list byte)) :=
  _stx_dns_cache_getaddrlist r hostname num false.
Definition stx_dns_getaddr (r : res_state) (hostname : list byte) : M dnscache (list (list byte)) :=
  _stx_dns_cache_getaddrlist r hostname 1 true.

(** ** What the cache holds between calls *)
Notation item := (@item (list byte) stx_dns_data).
Notation lru := (@lru (list byte) stx_dns_data).
Implicit Types (A : lru) (a : Z) (y : item) (x : stx_dns_data).

Record data_ok x : Prop := {
  data_num : num_addrs x = Z.of_nat (length (addrs x));
  data_some : 0 < num_addrs x <= MAX_HOST_ADDRS;
  data_cur : 0 <= cur x < num_addrs x;
}.

(** Between the calls nobody holds an entry. *)
Record dns_ok A : Prop := {
  dk_valid : valid A;
  dk_loose : loose A = ∅;
  dk_free b y : items A !! b = Some y → i_refs y = 0 ∧ data_ok (i_data y);
  dk_weight : weight_limit A < 2 ^ 63;
}.

Lemma dk_pending A b y : dns_ok A → items A !! b = Some y → i_pending y = false.
Proof.
  intros HA Hb. destruct (dk_free _ HA b y Hb) as [Hr _]. destruct (va_refs _ (dk_valid _ HA) b y Hb) as (_ & _ & Hp).
  destruct (i_pending y); [specialize (Hp eq_refl); lia | done].
Qed.

Lemma dk_order A b y : dns_ok A → items A !! b = Some y → b ∈ order A.
Proof. intros HA Hb. apply (va_order _ (dk_valid _ HA)). exists y. split; [done |]. by apply (dk_free _ HA b y). Qed.

(** [a] was used last and has the data [x]. *)
Definition set_data x y : item := Item (i_key y) x (i_weight y) (i_refs y) (i_pending y).
Definition used_last a y x A : lru := with_order (remove a (order A) ++ [a]) (with_items (<[a := set_data x y]> (items A)) A).

Lemma used_last_ok a y x A : dns_ok A → items A !! a = Some y → data_ok x → dns_ok (used_last a y x A).
Proof.
  intros HA Ha Hx. pose proof (dk_pending _ _ _ HA Ha) as Hp. destruct HA as [HV HL HF HW]. destruct (HF a y Ha) as [Hr _]. split; try done.
  - apply (valid_set a y); try done; cbn; try lia; [congruence | | |].
    + apply NoDup_app. split; [apply NoDup_remove, HV |]. split; [| apply NoDup_singleton].
      intros b Hb ->%list_elem_of_singleton. by apply elem_of_remove in Hb as [_ []].
    + split; [lia |]. intros _. apply elem_of_app. right. by left.
    + intros b Hb. rewrite elem_of_app, elem_of_remove, list_elem_of_singleton. tauto.
  - intros b z. cbn. destruct (decide (b = a)) as [-> |]; [rewrite lookup_insert_eq; intros [= <-]; by split | rewrite lookup_insert_ne by done; apply HF].
Qed.

Lemma drop_ok a y A : dns_ok A → items A !! a = Some y → dns_ok (drop_item a y A).
Proof.
  intros [HV HL HF HW] Ha. split; try done; [by apply valid_drop |]. intros b z. cbn. intros [_ Hz]%lookup_delete_Some. by apply (HF b).
Qed.

(** Pinning, changing the data and releasing. *)
Lemma release_used a y x A :
  dns_ok A → items A !! a = Some y →
  sp_release a (with_items (<[a := set_data x (set_refs 1 y)]> (items (sp_pin a A))) (sp_pin a A)) = used_last a y x A.
Proof.
  intros HA Ha. destruct (dk_free _ HA a y Ha) as [Hr _]. pose proof (dk_pending _ _ _ HA Ha) as Hp.
  unfold sp_release, sp_pin. rewrite Ha. cbn [items with_items with_order]. rewrite lookup_insert_eq. cbn. rewrite Hp.
  unfold used_last, with_items, with_order, set_data, set_refs. cbn. rewrite !insert_insert_eq, Hr, Hp. done.
Qed.

Lemma data_same y : set_data (i_data y) y = y.
Proof. by destruct y. Qed.

(** ** Lookups *)
Lemma holds_key host A a : holds host A a ↔ ∃ y, items A !! a = Some y ∧ i_pending y = false ∧ i_key y = host.
Proof. unfold holds. cbn. setoid_rewrite strcmp_0. split; intros (y & ? & ? & ?); by exists y. Qed.

Definition has_host host A : Prop := ∃ a y, items A !! a = Some y ∧ i_key y = host.

Lemma lookup_host m A host :
  shape m A → dns_ok A →
  ∃ r m', stx_cache_entry_lookup host m = (Ok r, m') ∧
    match r with
    | Some a => ∃ y, items A !! a = Some y ∧ i_key y = host ∧ shape m' (sp_pin a A)
    | None => ¬ has_host host A ∧ shape m' A
    end.
Proof.
  intros Hm HA. destruct (lookup_ok m A host Hm (dk_valid _ HA)) as (r & m' & E & Hr & Hm'). exists r, m'. split; [done |].
  destruct r as [a |]; cbn in Hr.
  - apply holds_key in Hr as (y & Ha & _ & Hk). by exists y.
  - split; [| done]. intros (a & y & Ha & Hk). apply (Hr a), holds_key. exists y. split; [done |]. split; [by apply (dk_pending A a) | done].
Qed.

(** The addresses handed out from [x], and the data afterwards. *)
Definition handed x num (rotate : bool) : list (list byte) :=
  if num =? 1 then take 1 (drop (if rotate then Z.to_nat (cur x) else 0) (addrs x)) else take (Z.to_nat (Z.min num (num_addrs x))) (addrs x).
Definition next_data x num (rotate : bool) : stx_dns_data := if (num =? 1) && rotate then advance x else x.

Lemma advance_ok x : data_ok x → data_ok (advance x).
Proof. intros [H1 H2 H3]. split; try done. cbn. destruct (Z.leb_spec (num_addrs x) (cur x + 1)); lia. Qed.

Lemma next_data_ok x num rotate : data_ok x → data_ok (next_data x num rotate).
Proof. intros Hx. unfold next_data. destruct (_ && _); [by apply advance_ok | done]. Qed.

Lemma address_ok x i : data_ok x → 0 <= i < num_addrs x → ∃ v, address x i = Ok v ∧ take 1 (drop (Z.to_nat i) (addrs x)) = [v].
Proof.
  intros [H1 _ _] Hi. unfold address. rewrite (proj2 (Z.ltb_ge _ _)) by lia.
  destruct (lookup_lt_is_Some_2 (addrs x) (Z.to_nat i)) as [v Hv]; [lia |]. exists v. rewrite Hv. split; [done |].
  by rewrite (drop_S _ _ _ Hv).
Qed.

Lemma give_ok m A a y num rotate :
  shape m A → items A !! a = Some y → data_ok (i_data y) → 0 <= num →
  ∃ m', give a (i_data y) num rotate m = (Ok (handed (i_data y) num rotate), m') ∧
    shape m' (with_items (<[a := set_data (next_data (i_data y) num rotate) y]> (items A)) A).
Proof.
  intros Hm Ha Hx Hn. set (x := i_data y) in *.
  assert (shape m (with_items (<[a := set_data x y]> (items A)) A)) as Hsame.
  { unfold x. rewrite data_same, insert_id by done. by destruct A. }
  unfold give, handed, next_data. destruct (Z.eqb_spec num 1) as [-> | H1]; cbn [andb].
  - destruct rotate; cbn [andb].
    + destruct (address_ok x (cur x) Hx) as (v & -> & ->); [apply Hx |]. unfold bind at 1. cbn [lift].
      destruct (sh_item m A a y Hm Ha) as (e & He & Hy & _). unfold bind. rewrite (upd_ok a _ e m He). eexists. split; [reflexivity |].
      pose proof (touch_ok m A a y e (with_data (advance x) e) Hm Ha He Hy eq_refl eq_refl eq_refl eq_refl) as Ht. by subst y.
    + destruct (address_ok x 0 Hx) as (v & -> & Hv); [destruct Hx; lia |]. change (Z.to_nat 0) with 0%nat in Hv. rewrite Hv. unfold bind. cbn [lift]. by exists m.
  - unfold copy_addrs. destruct Hx as [H2 H3 H4]. rewrite bool_decide_true by lia. by exists m.
Qed.

Lemma getdata_ok m A a y : shape m A → items A !! a = Some y → stx_cache_entry_getdata a m = (Ok (i_data y), m).
Proof.
  intros Hm Ha. destruct (sh_item m A a y Hm Ha) as (e & He & <- & _). unfold stx_cache_entry_getdata.
  by rewrite (bind_ok _ _ _ _ _ (the_entry_ok _ _ _ He)).
Qed.

Lemma in_cache_ok {B C : Type} (f : M cache_mem B) (k : B → M dnscache C) c m b m' :
  f m = (Ok b, m') → bind (in_cache f) k (with_store m c) = k b (with_store m' c).
Proof. intros Hf. unfold bind, in_cache. cbn. by rewrite Hf. Qed.

Lemma entry_alive m A a y : shape m A → items A !! a = Some y → is_Some (entries m !! a).
Proof. intros Hm Ha. destruct (sh_item m A a y Hm Ha) as (e & He & _). by exists e. Qed.

Lemma lookup_entry_ok c m A host num rotate :
  shape m A → dns_ok A → 0 <= num →
  ∃ o m' A', lookup_entry host num rotate (with_store m c) = (Ok o, with_store m' c) ∧ shape m' A' ∧ dns_ok A' ∧
    match o with
    | Some l => ∃ a y, items A !! a = Some y ∧ i_key y = host ∧ clock c <= expires (i_data y) ∧
        l = handed (i_data y) num rotate ∧ A' = used_last a y (next_data (i_data y) num rotate) A
    | None => ¬ has_host host A' ∧ weight_limit A' = weight_limit A ∧ size_limit A' = size_limit A ∧ (∀ a y, items A !! a = Some y → i_key y = host → expires (i_data y) < clock c)
    end.
Proof.
  intros Hm HA Hn. unfold lookup_entry. destruct (lookup_host m A host Hm HA) as (r & m1 & E1 & Hr).
  rewrite (in_cache_ok _ _ _ _ _ _ E1). destruct r as [a |].
  2: { destruct Hr as [Hno Hm1]. exists None, m1, A. split; [done |]. split; [done |]. split; [done |]. split; [done |]. split; [done |]. split; [done |].
    intros a y Ha Hk. exfalso. apply Hno. by exists a, y. }
  destruct Hr as (y & Ha & Hk & Hm1). set (A1 := sp_pin a A) in *.
  assert (items A1 !! a = Some (set_refs 1 y)) as Ha1.
  { unfold A1, sp_pin. rewrite Ha. cbn. rewrite lookup_insert_eq. by destruct (dk_free _ HA a y Ha) as [-> _]. }
  rewrite (in_cache_ok _ _ _ _ _ _ (getdata_ok m1 A1 a _ Hm1 Ha1)). cbn [i_data set_refs].
  unfold bind at 1. cbn [gets]. change (clock (with_store m1 c)) with (clock c).
  destruct (dk_free _ HA a y Ha) as [Hr Hx].
  destruct (Z.leb_spec (clock c) (expires (i_data y))) as [Ht | Ht].
  - destruct (give_ok m1 A1 a (set_refs 1 y) num rotate Hm1 Ha1 Hx Hn) as (m2 & E2 & Hm2). cbn [i_data set_refs] in *.
    rewrite (in_cache_ok _ _ _ _ _ _ E2).
    set (x' := next_data (i_data y) num rotate) in *. set (A2 := with_items _ A1) in *.
    assert (valid A2) as HA2.
    { unfold A2. rewrite <- with_items_order. pose proof (valid_pin a A (dk_valid _ HA)) as Hv. fold A1 in Hv.
      apply (valid_set a (set_refs 1 y)); try done; [apply Hv |]. rewrite (va_order _ Hv). split; [| done]. intros (z & Hz & Hz0). simplify_eq. }
    destruct (release_ok m2 A2 a Hm2 HA2) as (m3 & E3 & Hm3); [by apply (entry_alive m2 A2 a (set_data x' (set_refs 1 y))); [| apply lookup_insert_eq] |].
    rewrite (in_cache_ok _ _ _ _ _ _ E3).
    assert (sp_release a A2 = used_last a y x' A) as Hrel by by apply release_used. rewrite Hrel in Hm3.
    eexists (Some _), m3, _. split; [reflexivity |]. split; [exact Hm3 |]. split; [by apply used_last_ok, next_data_ok |]. by exists a, y.
  - pose proof (valid_pin a A (dk_valid _ HA)) as HA1. fold A1 in HA1.
    destruct (release_ok m1 A1 a Hm1 HA1) as (m3 & E3 & Hm3); [by apply (entry_alive m1 A1 a (set_refs 1 y)) |].
    rewrite (in_cache_ok _ _ _ _ _ _ E3).
    assert (sp_release a A1 = used_last a y (i_data y) A) as Hrel.
    { rewrite <- (release_used a y (i_data y) A HA Ha). fold A1. f_equal. cbn. change (set_data (i_data y) (set_refs 1 y)) with (set_refs 1 y).
      rewrite insert_id by done. by destruct A1. }
    rewrite Hrel in Hm3. set (A3 := used_last a y (i_data y) A) in *. assert (dns_ok A3) as HA3 by by apply used_last_ok.
    assert (items A3 !! a = Some y) as Ha3 by (unfold A3, used_last; cbn; rewrite lookup_insert_eq; by rewrite data_same).
    destruct (delete_ok m3 A3 a Hm3 (dk_valid _ HA3)) as (m4 & E4 & Hm4); [by apply (entry_alive m3 A3 a y) |].
    rewrite (in_cache_ok _ _ _ _ _ _ E4).
    assert (sp_delete a A3 = drop_item a y A3) as Hdel by (unfold sp_delete; by rewrite Ha3, Hr). rewrite Hdel in Hm4.
    eexists None, m4, _. split; [reflexivity |]. split; [exact Hm4 |]. split; [by apply drop_ok |].
    assert (∀ b z, items A !! b = Some z → i_key z = host → b = a) as Huniq.
    { intros b z Hb Hkz. apply (va_unique _ (dk_valid _ HA) b a z y); try done; [by apply (dk_pending A b) | by apply (dk_pending A a) |].
      cbn. apply strcmp_0. congruence. }
    split; [| split; [done | split; [done |]]].
    + intros (b & z & Hb & Hkz). cbn in Hb. apply lookup_delete_Some in Hb as [Hne Hb]. rewrite lookup_insert_ne in Hb by done.
      apply Hne. symmetry. by apply (Huniq b z).
    + intros b z Hb Hkz. assert (b = a) as -> by by apply (Huniq b z). by simplify_eq.
Qed.

(** ** Insertions *)
Lemma evict_subset A b a y : items (sp_evict b A) !! a = Some y → items A !! a = Some y.
Proof. unfold sp_evict. destruct (items A !! b) as [z |]; [| done]. cbn. by intros [_ Hy]%lookup_delete_Some. Qed.

Lemma make_room_subset l w A a y : items (sp_make_room l w A).2 !! a = Some y → items A !! a = Some y.
Proof.
  revert A. induction l as [| b l IH]; intros A; cbn [sp_make_room]; destruct (_ <=? _); try done.
  intros Hy. apply IH in Hy. by eapply evict_subset.
Qed.

Lemma room_subset w A a y : items (sp_room w A).2 !! a = Some y → items A !! a = Some y.
Proof.
  unfold sp_room. pose proof (make_room_subset (order A) w A a y) as Hm. destruct (sp_make_room (order A) w A) as [[] A1]; cbn in *; [| done].
  unfold sp_make_place. destruct (_ <? _); [done |]. destruct (order A1) as [| b l]; [done |]. intros Hy. apply Hm. by eapply evict_subset.
Qed.

(** When nobody holds an entry, there is room for everything that is not too large. *)
Definition all_free A : Prop := ∀ b y, items A !! b = Some y → i_refs y = 0.

Lemma all_free_empty A : valid A → all_free A → order A = [] → items A = ∅.
Proof.
  intros HA Hf Ho. apply map_empty. intros b. destruct (items A !! b) as [y |] eqn:Hb; [| done].
  assert (b ∈ order A) as Hin by (apply (va_order _ HA); exists y; split; [done | by apply (Hf b)]). rewrite Ho in Hin. by apply not_elem_of_nil in Hin.
Qed.

Lemma make_room_free l w A : valid A → all_free A → order A = l → w <= weight_limit A → (sp_make_room l w A).1 = true.
Proof.
  revert A. induction l as [| a l IH]; intros A HA Hf Ho Hw; cbn [sp_make_room];
    destruct (Z.leb_spec (weight_of (items A) + w) (weight_limit A)) as [| Hgt]; try done.
  - rewrite (all_free_empty A HA Hf Ho) in Hgt. unfold weight_of in Hgt. rewrite map_fold_empty in Hgt. lia.
  - destruct (evict_shrinks A a HA) as (_ & _ & Hl & _). apply IH; [by apply valid_evict | | by apply order_evict | lia].
    intros b y Hy. apply (Hf b). by eapply evict_subset.
Qed.

Lemma room_free w A : valid A → all_free A → w <= weight_limit A → 0 < size_limit A → (sp_room w A).1 = true.
Proof.
  intros HA Hf Hw Hs. unfold sp_room. pose proof (make_room_free (order A) w A HA Hf eq_refl Hw) as Hr.
  pose proof (valid_make_room (order A) w A HA) as HA1. pose proof (make_room_subset (order A) w A) as Hsub.
  destruct (make_room_facts (order A) w A HA) as [(_ & Hl & _) _].
  destruct (sp_make_room (order A) w A) as [[] A1]; cbn in *; [| done]. unfold sp_make_place.
  destruct (Z.ltb_spec (Z.of_nat (size (items A1))) (size_limit A1)) as [| Hge]; [done |]. destruct (order A1) as [| b l] eqn:Ho; [| done].
  rewrite (all_free_empty A1 HA1) in Hge; [rewrite map_size_empty in Hge; lia | | done]. intros b y Hy. by apply (Hf b), (Hsub b).
Qed.

Lemma weight_range host count : (length host <= 127)%nat → 0 < count <= MAX_HOST_ADDRS → 0 <= entry_weight host count < 2 ^ 63.
Proof. unfold entry_weight, sizeof_dns_data, sizeof_in_addr, stx_cache_entry_sizeof, MAX_HOST_ADDRS. lia. Qed.

Lemma added_ok A1 a host x (y := Item host x (entry_weight host (num_addrs x)) 0 false) :
  valid (sp_add a y A1) → loose A1 = {[a := y]} → (∀ b z, items A1 !! b = Some z → i_refs z = 0 ∧ data_ok (i_data z)) → data_ok x →
  weight_limit A1 < 2 ^ 63 → dns_ok (sp_release a (sp_add a y A1)) ∧ items (sp_release a (sp_add a y A1)) !! a = Some y.
Proof.
  intros HA Hl HF Hx Hw. assert (sp_release a (sp_add a y A1) = with_order (order A1 ++ [a]) (with_items (<[a := y]> (items A1)) (sp_add a y A1))) as Hr.
  { unfold sp_release. cbn. rewrite lookup_insert_eq. cbn. unfold with_order, with_items. cbn. by rewrite insert_insert_eq. }
  split; [| rewrite Hr; cbn; by rewrite lookup_insert_eq]. split.
  - by apply valid_release.
  - rewrite Hr. cbn. rewrite Hl. apply delete_singleton_eq.
  - intros b z. rewrite Hr. cbn. destruct (decide (b = a)) as [-> |]; [rewrite lookup_insert_eq; intros [= <-]; by split | rewrite lookup_insert_ne by done; apply HF].
  - rewrite Hr. done.
Qed.

Context `{!AllocatorLaws}.

Lemma insert_new_ok m A host x :
  shape m A → dns_ok A → ¬ has_host host A → data_ok x → (length host <= 127)%nat →
  ∃ m' A', insert_new host x m = (Ok tt, m') ∧ shape m' A' ∧ dns_ok A' ∧
    (is_Some (calloc_entry m) → parts_ok m = true → entry_weight host (num_addrs x) <= weight_limit A → 0 < size_limit A →
     ∃ a y, items A' !! a = Some y ∧ i_key y = host ∧ i_data y = x).
Proof.
  intros Hm HA Hno Hx Hlen. unfold insert_new. destruct (calloc_entry m) as [a |] eqn:Ea; [| exists m, A; split; [done |]; split; [done |]; split; [done | by intros []]].
  destruct (parts_ok m) eqn:Ep; [| exists m, A; split; [done |]; split; [done |]; split; [done | done]].
  pose proof (weight_range host (num_addrs x) Hlen (data_some _ Hx)) as Hwr. set (w := entry_weight host (num_addrs x)) in *.
  destruct (entry_create_ok m A a host x w Hm (calloc_unused m a Ea)) as (m1 & E1 & Hm1 & Hn). rewrite (bind_ok _ _ _ _ _ E1).
  set (y := Item host x w 0 false) in *. set (A0 := sp_create a host x w A) in *.
  assert (valid A0) as HA0 by (apply valid_create; [apply HA | done | lia]).
  assert (loose A0 = {[a := y]}) as Hl0 by (unfold A0; cbn; by rewrite (dk_loose _ HA)).
  assert (loose A0 !! a = Some y) as Hly by (rewrite Hl0; apply lookup_singleton_eq).
  pose proof (dk_weight _ HA) as Hwl.
  pose proof (insert_ok m1 A0 a y Hm1 HA0 Hly ltac:(cbn; lia)) as Hins. cbv zeta in Hins. cbn [i_weight y] in Hins. change (i_weight y) with w in Hins.
  destruct (room_facts w A0 HA0) as (HA1 & (Hl1 & _ & Hwl1 & _) & _). pose proof (room_subset w A0) as Hsub.
  assert (all_free A0) as Hfree by (intros b z Hz; by apply (dk_free _ HA b z)).
  pose proof (room_free w A0 HA0 Hfree) as Hroom.
  destruct (sp_room w A0) as [ok A1]; cbn [fst snd] in *.
  assert (∀ b z, items A1 !! b = Some z → i_refs z = 0 ∧ data_ok (i_data z)) as HF1 by (intros b z Hz; apply (dk_free _ HA b z), (Hsub b z Hz)).
  destruct ok.
  - destruct Hins as (old & m2 & E2 & Hold & Hm2 & HA2).
    assert (old = None) as ->.
    { destruct old as [o |]; [| done]. exfalso. apply holds_key in Hold as (z & Hz & _ & Hk). apply Hno. exists o, z. split; [by apply (Hsub o z) | done]. }
    unfold sp_insert in *. rewrite (bind_ok _ _ _ true m2) by (unfold succeeds; by rewrite E2).
    destruct (release_ok m2 _ a Hm2 HA2) as (m3 & E3 & Hm3); [apply (entry_alive m2 (sp_add a y A1) a (set_refs 1 y)); [done |]; apply lookup_insert_eq |].
    destruct (added_ok A1 a host x HA2) as [HA3 Hi3]; [by rewrite Hl1 | done | done | cbn in *; lia |].
    exists m3, (sp_release a (sp_add a y A1)). split; [exact E3 |]. split; [done |]. split; [done |]. intros _ _ _ _. by exists a, y.
  - destruct Hins as (m2 & E2 & Hm2 & _). rewrite (bind_ok _ _ _ false m2) by (unfold succeeds; by rewrite E2).
    assert (loose A1 !! a = Some y) as Hly1 by (by rewrite Hl1). destruct (va_loose _ HA1 a y Hly1) as (Hn1 & _).
    destruct (delete_ok m2 A1 a Hm2 HA1) as (m3 & E3 & Hm3); [destruct (sh_loose m2 A1 a y Hm2 Hn1 Hly1) as (e & He & _); by exists e |].
    assert (sp_delete a A1 = drop_loose a y A1) as Hd by (unfold sp_delete; by rewrite Hn1, Hly1). rewrite Hd in Hm3.
    exists m3, (drop_loose a y A1). split; [exact E3 |]. split; [done |]. split.
    + split; [by apply valid_drop_loose | cbn; rewrite Hl1, Hl0; apply delete_singleton_eq | exact HF1 | cbn in *; lia].
    + intros _ _ Hw Hs. specialize (Hroom Hw Hs). done.
Qed.

(** ** The whole *)
Definition dns_inv c : Prop :=
  array_ok MAX_HOST_ADDRS (resolver c) ∧ match _stx_dns_cache c with Some m => ∃ A, shape m A ∧ dns_ok A | None => True end.

(** The domains of the search list leave room for a host of the cache. *)
Definition short_domains (r : res_state) : Prop := Forall (λ domain, (length domain < 896)%nat ∧ x00 ∉ domain) (dnsrch r).

Lemma tolower_nul (b : byte) : tolower b = x00 → b = x00.
Proof. by destruct b; vm_compute. Qed.

Lemma host_key_nul hostname : x00 ∉ hostname → x00 ∉ host_key hostname.
Proof.
  intros Hn (b & Hb & Hin)%list_elem_of_fmap. symmetry in Hb. apply tolower_nul in Hb as ->. apply Hn.
  rewrite <- (take_drop 127 hostname). apply elem_of_app. by left.
Qed.

Lemma length_host_key hostname : (length (host_key hostname) <= 127)%nat.
Proof. unfold host_key. rewrite length_fmap, length_take. lia. Qed.

Lemma host_fits r hostname : x00 ∉ hostname → short_domains r → fits r (host_key hostname).
Proof.
  intros Hn Hs. pose proof (length_host_key hostname). split; [unfold MAXDNAME; lia |]. split; [by apply host_key_nul |].
  eapply Forall_impl; [exact Hs |]. intros domain [Hd Hz]. split; [unfold MAXDNAME; lia | done].
Qed.

Context `{!LibresolvLaws}.

Lemma insert_entry_ok m A host all c :
  shape m A → dns_ok A → ¬ has_host host A → (length host <= 127)%nat → Z.of_nat (length all) <= MAX_HOST_ADDRS →
  (0 < _stx_dns_ttl (resolver c) → all ≠ []) →
  ∃ m' A', insert_entry host all (Z.of_nat (length all)) (with_store m c) = (Ok tt, with_store m' c) ∧ shape m' A' ∧ dns_ok A' ∧
    (0 < _stx_dns_ttl (resolver c) → is_Some (calloc_entry m) → parts_ok m = true →
       entry_weight host MAX_HOST_ADDRS <= weight_limit A → 0 < size_limit A →
       ∃ a y, items A' !! a = Some y ∧ i_key y = host ∧ cur (i_data y) = 0 ∧ addrs (i_data y) = all ∧
         expires (i_data y) = clock c + _stx_dns_ttl (resolver c)).
Proof.
  intros Hm HA Hno Hlen Hall Hne. unfold insert_entry. unfold bind at 1. cbn [gets id].
  change (resolver (with_store m c)) with (resolver c). change (clock (with_store m c)) with (clock c).
  destruct (Z.ltb_spec 0 (_stx_dns_ttl (resolver c))) as [Ht | Ht].
  2: { exists m, A. split; [done |]. split; [done |]. split; [done |]. lia. }
  specialize (Hne Ht). assert (0 < Z.of_nat (length all)) as Hpos by (destruct all; [done | cbn; lia]).
  set (x := DnsData all _ 0 _). assert (data_ok x) as Hx by (split; cbn; lia).
  destruct (insert_new_ok m A host x Hm HA Hno Hx Hlen) as (m' & A' & E & Hm' & HA' & Hin). exists m', A'.
  split; [| split; [done |]; split; [done |]].
  - unfold in_cache. cbn [_stx_dns_cache with_store]. by rewrite E.
  - intros _ Hc Hp Hw Hs. destruct (Hin Hc Hp) as (a & y & Hay & Hk & Hd); [| done |].
    + unfold entry_weight, sizeof_in_addr in *. change (num_addrs x) with (Z.of_nat (length all)). lia.
    + exists a, y. by rewrite Hd.
Qed.

(** A host that is not in the cache is asked for, and inserted. *)
Lemma resolve_ok r hostname num c m A :
  shape m A → dns_ok A → ¬ has_host (host_key hostname) A → array_ok MAX_HOST_ADDRS (resolver c) → 0 <= num → x00 ∉ hostname → short_domains r →
  ∃ o c', (count <- in_resolver (_stx_dns_getaddrlist r (host_key hostname) MAX_HOST_ADDRS) ;;
      d <- gets resolver ;;
      l <- lift (copy_addrs (addr_buf d) (Z.min num count)) ;;
      insert_entry (host_key hostname) (take (Z.to_nat count) (addr_buf d)) count ;;
      ret l) (with_store m c) = (o, c') ∧ dns_inv c' ∧ sockets (resolver c') = sockets (resolver c) ∧ is_Some (_stx_dns_cache c') ∧
    (o = Fail ∨ ∃ all m' A', o = Ok (take (Z.to_nat num) all) ∧ _stx_dns_cache c' = Some m' ∧ shape m' A' ∧ dns_ok A' ∧
      Z.of_nat (length all) <= MAX_HOST_ADDRS ∧
      (0 < _stx_dns_ttl (resolver c') → is_Some (calloc_entry m) → parts_ok m = true →
       entry_weight (host_key hostname) MAX_HOST_ADDRS <= weight_limit A → 0 < size_limit A →
       ∃ a y, items A' !! a = Some y ∧ i_key y = host_key hostname ∧ cur (i_data y) = 0 ∧ addrs (i_data y) = all ∧
         expires (i_data y) = clock c + _stx_dns_ttl (resolver c'))).
Proof.
  intros Hm HA Hno Harr Hnum Hz Hsd. pose proof (length_host_key hostname) as Hlen.
  destruct (getaddrlist_ok r (host_key hostname) MAX_HOST_ADDRS (resolver c)) as (o & d & names & E & Hsock & Ha & _ & _ & Ho); [done | done | by apply host_fits |].
  set (host := host_key hostname) in *. unfold bind at 1, in_resolver. cbn [with_store resolver]. rewrite E. unfold bind at 1.
  destruct Ho as [-> | (i & _ & -> & Hi & Ht & _)].
  { eexists Fail, _. split; [reflexivity |]. split; [split; [done | by exists A] |]. split; [done |]. split; [by eexists | by left]. }
  unfold bind at 1. cbn [gets]. cbn [with_resolver resolver]. set (all := take (Z.to_nat i) (addr_buf d)).
  assert (Z.of_nat (length (addr_buf d)) >= MAX_HOST_ADDRS) as Hbuf by (destruct Ha; lia).
  assert (length all = Z.to_nat i) as Hall by (unfold all; rewrite length_take; lia).
  unfold copy_addrs. rewrite bool_decide_true by lia. unfold bind at 1. cbn [lift].
  assert (take (Z.to_nat (Z.min num i)) (addr_buf d) = take (Z.to_nat num) all) as Hl.
  { unfold all. rewrite take_take. f_equal. lia. }
  rewrite Hl. destruct (insert_entry_ok m A host all (with_resolver d c)) as (m' & A' & E2 & Hm' & HA' & Hin); [done | done | done | done | lia | |].
  { intros Htt. specialize (Ht Htt). intros Hnil. rewrite Hnil in Hall. cbn in Hall. lia. }
  rewrite Hall, Z2Nat.id in E2 by lia. change (with_store m (with_resolver d c)) with (with_resolver d (with_store m c)) in E2. rewrite E2.
  exists (Ok (take (Z.to_nat num) all)), (with_store m' (with_resolver d c)).
  split; [done |]. split; [split; [done | by exists A'] |]. split; [done |]. split; [by eexists |]. right. exists all, m', A'. split_and!; try done. lia.
Qed.

(** The cache of [stx_dns_cache_init]. *)
Lemma dns_cache_init_ok q sz w n c :
  0 <= sz < 2 ^ 64 → 0 <= w < 2 ^ 63 → 0 < n → array_ok MAX_HOST_ADDRS (resolver c) →
  ∃ c', stx_dns_cache_init (Some q) true sz w n c = (Ok tt, c') ∧ dns_inv c' ∧ is_Some (_stx_dns_cache c').
Proof.
  intros Hsz Hw Hn Ha. destruct (new_cache_ok (key := list byte) (data := stx_dns_data) q sz w n true) as (m & E & Hm & HA); [done | lia | done |].
  unfold stx_dns_cache_init. rewrite E. eexists. split; [reflexivity |]. split; [| by eexists]. split; [done |]. eexists. split; [exact Hm |].
  split; [done | done | intros b y Hb; cbn in Hb; by rewrite lookup_empty in Hb | cbn; lia].
Qed.

(** C37: with the cache in use, a lookup of a host always returns, with at most as many addresses as were asked for;
    afterwards no entry is held, every entry has its addresses and the next of them in turn, the counters are
    exact and the socket is closed; a failure leaves all this intact too. *)
Theorem dns_cache_getaddrlist_ok r hostname num rotate c :
  dns_inv c → is_Some (_stx_dns_cache c) → 0 <= num → x00 ∉ hostname → short_domains r →
  ∃ o c', _stx_dns_cache_getaddrlist r hostname num rotate c = (o, c') ∧ dns_inv c' ∧ is_Some (_stx_dns_cache c') ∧
    sockets (resolver c') = sockets (resolver c) ∧ (o = Fail ∨ ∃ l, o = Ok l ∧ Z.of_nat (length l) <= num).
Proof.
  intros [Harr Hst] [m Hm] Hnum Hz Hsd. rewrite Hm in Hst. destruct Hst as (A & Hs & HA).
  assert (c = with_store m c) as -> by (destruct c; cbn in *; by subst). cbn [resolver with_store] in *.
  unfold _stx_dns_cache_getaddrlist. unfold bind at 1. cbn [gets id _stx_dns_cache with_store].
  destruct (lookup_entry_ok c m A (host_key hostname) num rotate Hs HA Hnum) as (o & m' & A' & E & Hs' & HA' & Ho).
  rewrite (bind_ok _ _ _ _ _ E). destruct o as [l |].
  - eexists (Ok l), _. split; [reflexivity |]. split; [split; [done | by exists A'] |]. split; [by eexists |]. split; [done |]. right. exists l. split; [done |].
    destruct Ho as (a & y & Ha & _ & _ & -> & _). unfold handed. destruct (Z.eqb_spec num 1) as [-> |]; rewrite length_take; lia.
  - destruct Ho as (Hno & _). destruct (resolve_ok r hostname num c m' A' Hs' HA' Hno Harr Hnum Hz Hsd) as (o & c' & E2 & Hinv & Hsock & Hsome & Ho).
    exists o, c'. split; [exact E2 |]. split; [done |]. split; [done |]. split; [done |]. destruct Ho as [-> | (all & _ & _ & -> & _)]; [by left |]. right. eexists. split; [done |].
    rewrite length_take. lia.
Qed.

Definition at_time t c : dnscache := Dnscache (_stx_dns_cache c) (resolver c) t.

(** One lookup of a sequence, with what [st_time] returns. *)
Record lookup := Lookup { l_host : list byte; l_num : Z; l_rotate : bool; l_time : Z }.

Definition in_turn (q : lookup) : bool := (l_num q =? 1) && l_rotate q.

(** What lookups of a host with the addresses [all] get: the addresses in turn, from the [k]th on, if one is asked for with rotation,
    and otherwise the first. *)
Fixpoint answers (all : list (list byte)) (k : nat) (ls : list lookup) : list (list (list byte)) :=
  match ls with
  | [] => []
  | q :: ls =>
      if in_turn q then take 1 (drop k all) :: answers all (S k mod length all) ls
      else take (Z.to_nat (l_num q)) all :: answers all k ls
  end.

Fixpoint lookups (r : res_state) (ls : list lookup) : M dnscache (list (list (list byte))) :=
  match ls with
  | [] => ret []
  | q :: ls =>
      modify (at_time (l_time q)) ;;
      l <- _stx_dns_cache_getaddrlist r (l_host q) (l_num q) (l_rotate q) ;;
      rest <- lookups r ls ;;
      ret (l :: rest)
  end.

(** The host is in the cache until [e], and the [k]th address is the next. *)
Definition stored host (all : list (list byte)) (k : nat) (e : Z) c : Prop :=
  ∃ m A a y, _stx_dns_cache c = Some m ∧ shape m A ∧ dns_ok A ∧ items A !! a = Some y ∧ i_key y = host ∧
    addrs (i_data y) = all ∧ cur (i_data y) = Z.of_nat k ∧ expires (i_data y) = e.

Lemma handed_answer x all k q : data_ok x → addrs x = all → cur x = Z.of_nat k → 0 <= l_num q →
  handed x (l_num q) (l_rotate q) = (if in_turn q then take 1 (drop k all) else take (Z.to_nat (l_num q)) all).
Proof.
  intros [Hd _ _] <- Hc Hn. unfold handed, in_turn. rewrite Hc. destruct (Z.eqb_spec (l_num q) 1) as [-> |]; cbn [andb].
  - destruct (l_rotate q); [by rewrite Nat2Z.id | done].
  - destruct (Z.le_ge_cases (l_num q) (num_addrs x)); [by rewrite Z.min_l |]. rewrite Z.min_r by done. rewrite !take_ge by lia. done.
Qed.

Lemma next_turn x all k q : data_ok x → addrs x = all → cur x = Z.of_nat k →
  cur (next_data x (l_num q) (l_rotate q)) = Z.of_nat (if in_turn q then S k mod length all else k).
Proof.
  intros [Hd Hp Hr] <- Hc. unfold next_data, in_turn. destruct (_ && _); [| done]. cbn. rewrite Hc in *.
  destruct (Z.leb_spec (num_addrs x) (Z.of_nat k + 1)) as [Hle | Hle].
  - assert (S k = length (addrs x)) as -> by lia. by rewrite Nat.Div0.mod_same.
  - rewrite Nat.mod_small by lia. lia.
Qed.

(** A host that is in the cache is not asked for, and stays. *)
Lemma stored_lookup r host all k e c q :
  stored host all k e c → host_key (l_host q) = host → 0 <= l_num q → l_time q <= e →
  ∃ c', _stx_dns_cache_getaddrlist r (l_host q) (l_num q) (l_rotate q) (at_time (l_time q) c) =
      (Ok (if in_turn q then take 1 (drop k all) else take (Z.to_nat (l_num q)) all), c') ∧ resolver c' = resolver c ∧
    stored host all (if in_turn q then S k mod length all else k) e c'.
Proof.
  intros (m & A & a & y & Hm & Hs & HA & Hay & Hk & Hall & Hcur & Hexp) Hh Hn Ht. set (c1 := at_time (l_time q) c).
  assert (c1 = with_store m c1) as -> by (unfold c1, with_store, at_time; cbn; by rewrite Hm).
  unfold _stx_dns_cache_getaddrlist. unfold bind at 1. cbn [gets id _stx_dns_cache with_store]. rewrite Hh.
  destruct (lookup_entry_ok c1 m A host (l_num q) (l_rotate q) Hs HA Hn) as (o & m' & A' & E & Hs' & HA' & Ho).
  rewrite (bind_ok _ _ _ _ _ E). destruct (dk_free _ HA a y Hay) as [_ Hx]. destruct o as [l |].
  - destruct Ho as (b & z & Hb & Hkz & _ & -> & ->). assert (b = a) as ->.
    { apply (va_unique _ (dk_valid _ HA) b a z y); try done; [by apply (dk_pending A b) | by apply (dk_pending A a) | cbn; apply strcmp_0; congruence]. }
    rewrite Hay in Hb. injection Hb as <-. rewrite (handed_answer _ all k) by done. eexists. split; [reflexivity |]. split; [done |].
    exists m', (used_last a y (next_data (i_data y) (l_num q) (l_rotate q)) A), a, (set_data (next_data (i_data y) (l_num q) (l_rotate q)) y).
    split; [done |]. split; [done |]. split; [done |]. split; [apply lookup_insert_eq |]. split; [done |]. cbn [i_data set_data].
    rewrite (next_turn _ all k) by done. unfold next_data. by destruct (_ && _).
  - destruct Ho as (_ & _ & _ & Hold). specialize (Hold a y Hay Hk). unfold c1 in Hold. cbn in Hold. lia.
Qed.

Lemma stored_lookups r host all k e c ls :
  stored host all k e c → Forall (λ q, host_key (l_host q) = host ∧ 0 <= l_num q ∧ l_time q <= e) ls →
  ∃ c', lookups r ls c = (Ok (answers all k ls), c') ∧ resolver c' = resolver c.
Proof.
  revert k c. induction ls as [| q ls IH]; intros k c Hst Hls; cbn [lookups answers]; [by exists c |].
  apply Forall_cons in Hls as [(Hh & Hn & Ht) Hls]. destruct (stored_lookup r host all k e c q Hst Hh Hn Ht) as (c1 & E1 & R1 & Hst1).
  destruct (IH _ c1 Hst1 Hls) as (c2 & E2 & R2). exists c2. split; [| congruence]. unfold bind at 1. cbn [modify].
  rewrite (bind_ok _ _ _ _ _ E1), (bind_ok _ _ _ _ _ E2). by destruct (in_turn q).
Qed.

(** C38: what a lookup got from the servers is what the following lookups of that host get until the time to live is over,
    without asking again: any number of them, each at any time, in any spelling of the host in upper or lower case, for any number of
    addresses; those that ask for one address with rotation go through the addresses in turn.  It needs an answer that has a time
    to live and fits the cache, whatever else is in the cache.  (Another host that is asked for in between may take
    the place of this one.) *)
Theorem resolved_is_cached r hostname num rotate c m l c1 :
  dns_inv c → _stx_dns_cache c = Some m → 0 <= num → x00 ∉ hostname → short_domains r →
  (∀ m, is_Some (calloc_entry m) ∧ parts_ok m = true) →
  entry_weight (host_key hostname) MAX_HOST_ADDRS <= max_weight (cache m) → 0 < max_size (cache m) →
  (lookup_entry (host_key hostname) num rotate c).1 = Ok None →
  _stx_dns_cache_getaddrlist r hostname num rotate c = (Ok l, c1) → 0 < _stx_dns_ttl (resolver c1) →
  ∃ all, l = take (Z.to_nat num) all ∧ all ≠ [] ∧
    ∀ ls, Forall (λ q, host_key (l_host q) = host_key hostname ∧ 0 <= l_num q ∧ l_time q <= clock c + _stx_dns_ttl (resolver c1)) ls →
      ∃ c2, lookups r ls c1 = (Ok (answers all 0 ls), c2) ∧ resolver c2 = resolver c1.
Proof.
  intros [Harr Hst] Hm Hnum Hz Hsd Halloc Hw Hsz Hmiss Hrun Httl. rewrite Hm in Hst. destruct Hst as (A & Hs & HA).
  assert (c = with_store m c) as Hc by (destruct c; cbn in *; by subst). rewrite Hc in Hmiss, Hrun. cbn [resolver] in *.
  destruct (sh_counted _ _ Hs) as (_ & _ & Cs & Cw & _). rewrite Cs in Hsz. rewrite Cw in Hw.
  unfold _stx_dns_cache_getaddrlist in Hrun. unfold bind at 1 in Hrun. cbn [gets id _stx_dns_cache with_store] in Hrun.
  destruct (lookup_entry_ok c m A (host_key hostname) num rotate Hs HA Hnum) as (o & m' & A' & E & Hs' & HA' & Ho).
  rewrite E in Hmiss. cbn in Hmiss. injection Hmiss as ->. destruct Ho as (Hno & Lw & Ls & _).
  rewrite (bind_ok _ _ _ _ _ E) in Hrun.
  destruct (resolve_ok r hostname num c m' A' Hs' HA' Hno Harr Hnum Hz Hsd) as (o & c' & E2 & _ & _ & _ & Ho).
  rewrite E2 in Hrun. injection Hrun as -> <-. destruct Ho as [[=] | (all & m2 & A2 & [= ->] & Hm2 & Hs2 & HA2 & _ & Hin)].
  destruct (Hin Httl) as (a & y & Hay & Hk & Hcur & Hall & Hexp); [apply Halloc | apply Halloc | lia | lia |].
  exists all. split; [done |]. split.
  - destruct (dk_free _ HA2 a y Hay) as [_ [Hd Hp _]]. rewrite Hall in Hd. intros ->. cbn in Hd. lia.
  - intros ls Hls. apply (stored_lookups r (host_key hostname) all 0 (clock c + _stx_dns_ttl (resolver c'))); [| exact Hls].
    by exists m2, A2, a, y.
Qed.
End dnscache.

(** ** Example *)
(** The address after all that are in use. *)
#[export] Instance next_address : Allocator := {|
  parts_ok _ := true;
  calloc_entry m := Some (1 + foldr Z.max (lru_list m) (0 :: (map_to_list (links m)).*1));
|}.

Lemma foldr_max (l : list Z) z a : a ∈ z :: l → a <= foldr Z.max z l.
Proof.
  induction l as [| b l IH]; cbn; [intros ->%list_elem_of_singleton; lia |]. rewrite !elem_of_cons. intros [-> | [-> | Ha]]; [| lia |];
    (etrans; [apply IH; rewrite elem_of_cons; by auto | lia]).
Qed.

#[export] Instance next_address_laws : AllocatorLaws.
Proof.
  intros m a [= <-]. set (l := (map_to_list (links m)).*1). pose proof (foldr_max (0 :: l) (lru_list m)) as Hl.
  pose proof (Hl 0 ltac:(set_solver)). pose proof (Hl (lru_list m) ltac:(set_solver)). cbn [foldr] in *.
  split; [lia |]. split; [lia |]. destruct (links m !! _) as [x |] eqn:Hx; [exfalso | done].
  enough (1 + Z.max 0 (foldr Z.max (lru_list m) l) <= foldr Z.max (lru_list m) (0 :: l)) by (cbn in *; lia).
  apply Hl. right. right. unfold l. apply list_elem_of_fmap. eexists (_, x). split; [done |]. by apply elem_of_map_to_list.
Qed.

(** A cache for four hosts, and one server that knows [a.b]. *)
Definition example_resolver : dns :=
  Dns NETDB_SUCCESS Eother 0 (replicate 1024 [x00; x00; x00; x00]) [] [Datagram example_reply] true true [] 0.
Definition no_cache : dnscache := Dnscache None example_resolver 1000.
Definition example_cached : dnscache := (stx_dns_cache_init (Some 1) true 4 10000 3 no_cache).2.

Lemma example_cached_inv : dns_inv example_cached ∧ is_Some (_stx_dns_cache example_cached).
Proof.
  destruct (dns_cache_init_ok 1 4 10000 3 no_cache) as (c & E & Hi & Hs); [lia | lia | lia | |].
  - split; [cbn [resolver no_cache addr_buf example_resolver]; rewrite length_replicate; done | by apply Forall_replicate].
  - unfold example_cached. rewrite E. by split.
Qed.

Lemma example_domains : short_domains example_res.
Proof. constructor; [| constructor]. split; [cbn; lia | apply (bool_decide_eq_true_1 _); vm_compute; reflexivity]. Qed.

Definition example_host : list byte := [x41; x2e; x62].
Lemma example_host_ok : x00 ∉ example_host.
Proof. apply (bool_decide_eq_true_1 _). vm_compute. reflexivity. Qed.

Lemma dns_cache_getaddrlist_ok_witness :
  ∃ o c', _stx_dns_cache_getaddrlist example_res example_host 2 false example_cached = (o, c') ∧ o = Ok [[x7f; x00; x00; x01]] ∧ dns_inv c'.
Proof.
  destruct example_cached_inv as [Hi Hs].
  destruct (dns_cache_getaddrlist_ok example_res example_host 2 false example_cached Hi Hs ltac:(lia) example_host_ok example_domains) as (o & c' & E & Hi' & _).
  assert ((_stx_dns_cache_getaddrlist example_res example_host 2 false example_cached).1 = Ok [[x7f; x00; x00; x01]]) as Ho by (vm_compute; reflexivity).
  rewrite E in Ho. exists o, c'. split; [exact E |]. split; [exact Ho | exact Hi'].
Defined.

(** The same address until the time to live of 300 is over, also in turn. *)
Definition example_lookups : list lookup :=
  [Lookup [x61; x2e; x42] 1 true 1001; Lookup example_host 5 false 1200; Lookup [x61; x2e; x42] 1 true 1300].

Lemma resolved_is_cached_witness :
  ∃ c1, _stx_dns_cache_getaddrlist example_res example_host 2 false example_cached = (Ok [[x7f; x00; x00; x01]], c1) ∧
    ∃ all c2, [[x7f; x00; x00; x01]] = take 2 all ∧ lookups example_res example_lookups c1 = (Ok (answers all 0 example_lookups), c2) ∧
      resolver c2 = resolver c1.
Proof.
  destruct example_cached_inv as [Hi [m Hs]].
  destruct (_stx_dns_cache_getaddrlist example_res example_host 2 false example_cached) as [o c1] eqn:E. exists c1.
  assert (fst (_stx_dns_cache_getaddrlist example_res example_host 2 false example_cached) = Ok [[x7f; x00; x00; x01]]) as Ho by (vm_compute; reflexivity).
  assert (_stx_dns_ttl (resolver (snd (_stx_dns_cache_getaddrlist example_res example_host 2 false example_cached))) = 300) as Ht by (vm_compute; reflexivity).
  rewrite E in Ho, Ht. cbn [fst snd] in Ho, Ht. rewrite Ho in E |- *. split; [reflexivity |].
  assert (match _stx_dns_cache example_cached with Some m => max_size (cache m) = 4 ∧ max_weight (cache m) = 10000 | None => False end) as Hlim by (vm_compute; by split).
  rewrite Hs in Hlim. destruct Hlim as [Hl1 Hl2].
  destruct (resolved_is_cached example_res example_host 2 false example_cached m [[x7f; x00; x00; x01]] c1) as (all & Hall & _ & Hnext).
  - exact Hi.
  - exact Hs.
  - lia.
  - exact example_host_ok.
  - exact example_domains.
  - intros m'. split; [by eexists | reflexivity].
  - rewrite Hl2. vm_compute. discriminate.
  - rewrite Hl1. reflexivity.
  - vm_compute. reflexivity.
  - exact E.
  - rewrite Ht. reflexivity.
  - destruct (Hnext example_lookups) as (c2 & E2 & R2); [| exists all, c2; exact (conj Hall (conj E2 R2))].
    rewrite Ht. repeat constructor; vm_compute; (reflexivity || discriminate).
Defined.

(** Hosts that differ after 127 characters only are not told apart, and the shorter name is asked for. *)
Lemma long_hosts_collide `{Libresolv, Allocator} r hostname hostname' num rotate m c :
  take 127 hostname = take 127 hostname' →
  _stx_dns_cache_getaddrlist r hostname num rotate (with_store m c) = _stx_dns_cache_getaddrlist r hostname' num rotate (with_store m c).
Proof. intros Ht. unfold _stx_dns_cache_getaddrlist, host_key. by rewrite Ht. Qed.
