(* ===== verification/ResAddr.v ===== *)
(** * examples/res.c: the address of a host

    The resolver of the example programs is the one of dnsres.c but for the reading of an answer: it takes the data of the
    first record that is not an alias. *)

From stdpp Require Import base list.
From Stdlib Require Import Lia ZArith.
From S2P Require Import Prelude.
From S2P Require Import Bytes.
From S2P Require Import Dns.
From S2P Require Import DnsParse.

Local Open Scope Z_scope.

Definition T_CNAME : Z := 5.

Section resolver.
Context `{LR : Libresolv}.
Implicit Types (ans : list byte) (cp eoa : Z).

Definition no_address : M dns Z := modify (set_h_errno TRY_AGAIN) ;; fail.

(** [while (ahp->ancount > 0 && cp < eoa)]; [addr] is the only element of [addr_buf]. *)
Fixpoint answer_loop (fuel : nat) ans cp eoa : M dns Z :=
  match fuel with
  | O => lift Hang
  | S fuel =>
      if (0 <? hp_ancount ans) && (cp <? eoa) then
        let ans := set_u16 6 (hp_ancount ans - 1) ans in
        let n := dn_expand ans cp eoa in
        if n <? 0 then no_address else
        let cp := cp + n in
        type <- lift (_getshort cp ans) ;;
        let cp := cp + 8 in
        n <- lift (_getshort cp ans) ;;
        let cp := cp + 2 in
        if type =? T_CNAME then answer_loop fuel ans (cp + n) eoa
        else copy_addr ans cp (Z.to_nat n) 0 ;; ret 1
      else no_address
  end.

(** 1 instead of 0: the number of addresses. *)
Definition parse_one ans (len num : Z) : M dns Z :=
  '(ans, cp) <- lift (skip_questions (S (Z.to_nat (hp_qdcount ans))) ans HFIXEDSZ len) ;;
  answer_loop (S (Z.to_nat (hp_ancount ans))) ans cp len.

Local Instance res_parser : AnswerParser := parse_one.

Definition res_query_domain (r : res_state) (name : list byte) : M dns Z := query_domain r name 1.

Definition dns_getaddr (r : res_state) (host : list byte) : M dns Z := _stx_dns_getaddrlist r host 1.
End resolver.

(** ** The answer that is taken *)
(** What the first record that is no alias gives: its data, when it fits the address. *)
Fixpoint first_data (rs : list rr) : option (list byte) :=
  match rs with
  | [] => None
  | x :: rs => if rr_type x =? T_CNAME then first_data rs else Some (rr_data x)
  end.

Section parse.
Context `{LR : Libresolv} (h1 h2 body : list byte) (Hh1 : length h1 = 4%nat) (Hh2 : length h2 = 4%nat).
Notation msg := (message h1 h2 body).

Definition given (rs : list rr) (a : list byte) (d : dns) : outcome Z * dns :=
  match first_data rs with
  | None => (Fail, set_h_errno TRY_AGAIN d)
  | Some data =>
      if bool_decide (length data <= 4)%nat then (Ok 1, set_addrs [data ++ drop (length data) a] d) else (Undef, d)
  end.

Lemma answer_encoded fuel rs pre post qd a d (eoa := 12 + size_of pre + size_of (rs ≫= encode_rr)) :
  body = pre ++ (rs ≫= encode_rr) ++ post → (length rs < fuel)%nat → Z.of_nat (length rs) < 2 ^ 16 →
  Forall rr_range rs → length a = 4%nat → addr_buf d = [a] →
  (∀ l x l', rs = l ++ x :: l' → ∀ qd an, dn_expand (msg qd an) (12 + size_of pre + size_of (l ≫= encode_rr)) eoa = size_of (rr_name x)) →
  answer_loop fuel (msg qd (Z.of_nat (length rs))) (12 + size_of pre) eoa d = given rs a d.
Proof.
  revert fuel pre eoa. induction rs as [| x rs IH]; intros [| fuel] pre eoa Hb Hf Hl HF Ha Hd Hr; try (cbn in Hf; lia);
    cbn [answer_loop]; rewrite (message_an h1 h2 body Hh1) by (done || (cbn in *; lia)).
  { done. }
  cbn [length] in *. rewrite (proj2 (Z.ltb_lt 0 _)) by lia. apply Forall_cons in HF as [Hx HF].
  assert (eoa = 12 + size_of pre + size_of (encode_rr x) + size_of (rs ≫= encode_rr)) as He.
  { unfold eoa. cbn. rewrite size_app. lia. }
  assert (0 <= size_of (rr_name x) ∧ 0 <= size_of (rs ≫= encode_rr) ∧ 0 <= size_of (rr_data x)) as (P2 & P3 & P4) by (unfold size_of; lia).
  pose proof (size_rr x) as Hsx. rewrite (proj2 (Z.ltb_lt (12 + size_of pre) eoa)) by lia. cbn [andb].
  rewrite (message_set_an h1 h2 body Hh1). replace (Z.of_nat (S (length rs)) - 1) with (Z.of_nat (length rs)) by lia.
  pose proof (Hr [] x rs eq_refl qd (Z.of_nat (length rs))) as Hn. unfold size_of at 2 in Hn. cbn in Hn. rewrite Z.add_0_r in Hn. rewrite Hn.
  rewrite (proj2 (Z.ltb_ge _ _)) by lia.
  assert (body = pre ++ encode_rr x ++ (rs ≫= encode_rr) ++ post) as Hb' by (rewrite Hb; cbn; by rewrite <- app_assoc).
  destruct (read_fields h1 h2 body Hh1 Hh2 pre x _ qd (Z.of_nat (length rs)) Hb' Hx) as (F1 & _ & F3 & F4).
  set (off := 12 + size_of pre + size_of (rr_name x)) in *. rewrite F1. unfold bind at 1. cbn [lift].
  replace (off + 8) with (off + 4 + 4) by lia. rewrite F3. unfold bind at 1. cbn [lift]. unfold given. cbn [first_data].
  destruct (Z.eqb_spec (rr_type x) T_CNAME) as [HT | HT].
  - fold (given rs a d). assert (off + 4 + 4 + 2 + size_of (rr_data x) = 12 + size_of (pre ++ encode_rr x)) as -> by (rewrite size_app; lia).
    assert (eoa = 12 + size_of (pre ++ encode_rr x) + size_of (rs ≫= encode_rr)) as He' by (rewrite size_app; lia). rewrite He'.
    apply IH; try done; try lia.
    + by rewrite Hb', <- !app_assoc.
    + intros l y l' -> qd' an'. rewrite <- He', <- (Hr (x :: l) y l' eq_refl qd' an'). f_equal. cbn. rewrite !size_app. lia.
  - unfold copy_addr, bind. rewrite Hd. change ([a] !! Z.to_nat 0) with (Some a). cbv beta iota. replace (Z.to_nat (size_of (rr_data x))) with (length (rr_data x)) by (unfold size_of; lia). rewrite Ha.
    assert (off + 4 + 4 + 2 + Z.of_nat (length (rr_data x)) <= Z.of_nat (length (msg qd (Z.of_nat (length rs))))) as Hin.
    { rewrite (length_message h1 h2 body Hh1 Hh2). rewrite Hb', !length_app. unfold off, size_of in *. lia. }
    rewrite (bool_decide_ext _ (length (rr_data x) <= 4)%nat) by (unfold off, size_of in *; lia).
    case_bool_decide; [| done]. by rewrite F4.
Qed.

(** C28: for a well-formed answer the resolver of the examples gives the data of the first record that is not an
    alias, whatever its type; data longer than an address is written past the end of it, and a message of aliases only
    gives no address. *)
Theorem res_parse_first qs rs post num a d :
  body = (qs ≫= encode_q) ++ (rs ≫= encode_rr) ++ post → Z.of_nat (length qs) < 2 ^ 16 → Z.of_nat (length rs) < 2 ^ 16 →
  Forall (λ q, length (q_fixed q) = 4%nat) qs → Forall rr_range rs → length a = 4%nat → addr_buf d = [a] →
  let eoa := 12 + size_of (qs ≫= encode_q) + size_of (rs ≫= encode_rr) in
  names_read h1 h2 body qs rs eoa →
  parse_one (msg (Z.of_nat (length qs)) (Z.of_nat (length rs))) eoa num d = given rs a d.
Proof.
  intros Hb Hq Hr HFq HFr Ha Hd eoa [Hnq Hnr]. unfold parse_one. rewrite (message_qd h1 h2 body Hh1) by lia.
  rewrite (skip_encoded h1 h2 body Hh1 Hh2 _ qs) by (done || lia || exact Hnq). unfold bind. cbn [lift]. rewrite (message_an h1 h2 body Hh1) by (done || lia).
  unfold HFIXEDSZ, eoa. apply answer_encoded with post; (done || lia).
Qed.
End parse.

(** ** The search *)
(** The names are tried in the order of the rules of dnsres.c. *)
Lemma res_search `{LR : Libresolv} r host d :
  host ≠ [] → fits r host → @search _ res_parser r host 1 d = @try_all _ res_parser r (candidates r host) 1 d.
Proof. apply search_ok. Qed.

(** ** Examples *)
Definition one_dns (replies : list reply) : dns := Dns NETDB_SUCCESS Eother 0 [[x00; x00; x00; x00]] [] replies true true [] 0.

Lemma res_parse_first_witness :
  parse_one (message [x07; x00; x81; x80] [x00; x00; x00; x00] example_body 1 2) example_end 0 (one_dns []) =
    (Ok 1, set_addrs [[x7f; x00; x00; x01]] (one_dns [])).
Proof.
  refine (res_parse_first [x07; x00; x81; x80] [x00; x00; x00; x00] example_body eq_refl eq_refl [example_q] example_rrs [] 0
    [x00; x00; x00; x00] (one_dns []) _ _ _ _ _ _ _ _).
  - reflexivity.
  - reflexivity.
  - reflexivity.
  - constructor; [reflexivity | constructor].
  - constructor; [| constructor; [| constructor]]; split; cbn; lia.
  - reflexivity.
  - reflexivity.
  - exact example_names.
Defined.

Lemma example_getaddr : ∃ d, dns_getaddr example_res [x61; x2e; x62] (one_dns [Datagram example_reply]) = (Ok 1, d) ∧
  addr_buf d = [[x7f; x00; x00; x01]] ∧ sockets d = 0.
Proof. eexists. split; [vm_compute; reflexivity | done]. Qed.

(** A reply whose only record has sixteen bytes of data. *)
Definition long_reply : list byte :=
  message [x07; x00; x81; x80] [x00; x00; x00; x00]
    (([example_q] ≫= encode_q) ++ ([RR [xc0; x0c] 28 1 60 (replicate 16 x00)] ≫= encode_rr)) 256 256.

Lemma long_data_overflows : (dns_getaddr example_res [x61; x2e; x62] (one_dns [Datagram long_reply])).1 = Undef.
Proof. vm_compute. reflexivity. Qed.

(** Data of two bytes leaves half of the address as it was, and counts as an answer. *)
Lemma short_data_accepted :
  let body := ([example_q] ≫= encode_q) ++ ([RR [xc0; x0c] 1 1 60 [x7f; x01]] ≫= encode_rr) in
  parse_one (message [x07; x00; x81; x80] [x00; x00; x00; x00] body 1 1) (12 + size_of body) 1 (one_dns []) =
    (Ok 1, set_addrs [[x7f; x01; x00; x00]] (one_dns [])).
Proof. vm_compute. reflexivity. Qed.
