(* ===== verification/Stk.v ===== *)
(** * 3rdpart/st-1.9/stk.c: thread stacks and the list of free ones

    The free stacks are a circular list of the store of Clist.v, kept by the address of the
    stack object; that list stands for a sequence ([pool]), and the theorems are about the sequence. *)

From stdpp Require Import base list sets gmap.
From Stdlib Require Import Lia ZArith.
From S2P Require Import Prelude.
From S2P Require Import Clist.

Local Open Scope Z_scope.

(** The members of [_st_stack_t] besides [links]. *)
Record _st_stack := Stack {
  vaddr : Z;
  vaddr_size : Z;
  stk_size : Z;
  stk_bottom : Z;
  stk_top : Z;
}.

Record stks := Stks {
  links : gmap Z _st_clist_t;
  stacks : gmap Z _st_stack;
  _st_num_free_stacks : Z;
  _st_randomize_stacks : bool;
}.

Definition with_links v s := Stks v (stacks s) (_st_num_free_stacks s) (_st_randomize_stacks s).
Definition with_num v s := Stks (links s) (stacks s) v (_st_randomize_stacks s).

Section stacks.
(** [head]: the address of [_st_free_stacks]; [page]: [_ST_PAGE_SIZE]. *)
Variables (head page : Z).
Implicit Types (s : stks).

Definition on_links {A : Type} (c : M (gmap Z _st_clist_t) A) : M stks A := λ s,
  let '(o, m) := c (links s) in (o, with_links m s).

Definition the_stack (ts : Z) : M stks _st_stack := λ s,
  match stacks s !! ts with Some x => (Ok x, s) | None => (Undef, s) end.

(** The loop over the free stacks. *)
Fixpoint find_stack (fuel : nat) (qp stack_size : Z) : M stks (option Z) :=
  match fuel with
  | O => lift Hang
  | S fuel =>
      if qp =? head then ret None else
      ts <- the_stack qp ;;
      if stack_size <=? stk_size ts then ret (Some qp) else
      n <- on_links (get_next qp) ;; find_stack fuel n stack_size
  end.

(** A new object at [ts] ([calloc]; [None]: NULL) whose stack is the result of
    [_st_new_stk_segment]; [rnd] is what [random] returns. *)
Definition new_stack (ts : option Z) (segment : Z → option Z) (rnd stack_size : Z) : M stks (option Z) :=
  match ts with
  | None => ret None
  | Some ts =>
      s <- gets id ;;
      let extra := if _st_randomize_stacks s then page else 0 in
      let size := stack_size + 2 * page + extra in
      if 2 ^ 31 <=? size then lift Undef else
      match segment size with
      | None => ret None
      | Some v =>
          let bottom := v + page in
          let offset := if extra =? 0 then 0 else Z.land (Z.rem rnd extra) (Z.lnot 0xf) in
          let stack := Stack v size stack_size (bottom + offset) (bottom + stack_size + offset) in
          modify (λ s, Stks (<[ts := Link 0 0]> (links s)) (<[ts := stack]> (stacks s))
            (_st_num_free_stacks s) (_st_randomize_stacks s)) ;;
          ret (Some ts)
      end
  end.

Definition _st_stack_new (ts : option Z) (segment : Z → option Z) (rnd stack_size : Z) : M stks (option Z) :=
  s <- gets id ;;
  q <- on_links (get_next head) ;;
  r <- find_stack (S (size (links s))) q stack_size ;;
  match r with
  | Some t =>
      on_links (ST_REMOVE_LINK t) ;;
      modify (λ s, with_num (_st_num_free_stacks s - 1) s) ;;
      on_links (set_next t 0) ;;
      on_links (set_prev t 0) ;;
      ret (Some t)
  | None => new_stack ts segment rnd stack_size
  end.

Definition _st_stack_free (ts : option Z) : M stks unit :=
  match ts with
  | None => ret tt
  | Some ts =>
      p <- on_links (get_prev head) ;;
      on_links (ST_APPEND_LINK ts p) ;;
      modify (λ s, with_num (_st_num_free_stacks s + 1) s)
  end.

Definition st_randomize_stacks (on : bool) : M stks bool :=
  s <- gets id ;;
  modify (λ s, Stks (links s) (stacks s) (_st_num_free_stacks s) on) ;;
  ret (_st_randomize_stacks s).

(** ** The sequence of free stacks *)
(** Inside its segment, with a page to spare on either side. *)
Definition stack_ok (x : _st_stack) : Prop :=
  vaddr x + page <= stk_bottom x ∧ stk_bottom x + stk_size x = stk_top x ∧
  stk_top x + page <= vaddr x + vaddr_size x.

Record pool s (xs : list Z) : Prop := {
  pool_clist : clist (links s) head xs;
  pool_num : _st_num_free_stacks s = Z.of_nat (length xs);
  pool_stacks t : t ∈ xs → ∃ x, stacks s !! t = Some x ∧ stack_ok x;
}.

Definition fits s (size t : Z) : bool :=
  match stacks s !! t with Some x => size <=? stk_size x | None => false end.

Lemma on_links_ok {A : Type} (c : M (gmap Z _st_clist_t) A) s a m :
  c (links s) = (Ok a, m) → on_links c s = (Ok a, with_links m s).
Proof. intros H. unfold on_links. by rewrite H. Qed.

Lemma with_links_same s : with_links (links s) s = s.
Proof. by destruct s. Qed.

(** The loop finds the first that is large enough; [ys] is what it passed over. *)
Lemma find_stack_ok fuel s ys xs size :
  pool s (ys ++ xs) → (length xs < fuel)%nat →
  find_stack fuel (hd head xs) size s = (Ok (snd <$> list_find (λ t, fits s size t = true) xs), s).
Proof.
  revert ys fuel. induction xs as [| t xs IH]; intros ys fuel Hp Hf; (destruct fuel as [| fuel]; [lia |]); cbn [find_stack hd].
  - by rewrite Z.eqb_refl.
  - destruct (pool_clist _ _ Hp) as [Hnd Hseg].
    assert (t ≠ head) as Hne.
    { intros ->. apply NoDup_cons in Hnd as [Hn _]. apply Hn. apply elem_of_app. right. left. }
    rewrite (proj2 (Z.eqb_neq _ _) Hne).
    destruct (pool_stacks _ _ Hp t) as (x & Hx & _); [apply elem_of_app; right; left |].
    unfold bind at 1, the_stack. rewrite Hx. cbn [list_find].
    assert (fits s size t = (size <=? stk_size x)) as Hfit by (unfold fits; by rewrite Hx).
    destruct (size <=? stk_size x) eqn:Hs.
    + rewrite decide_True by done. done.
    + rewrite decide_False by (rewrite Hfit; done).
      apply seg_app in Hseg as [_ Hseg]. pose proof (get_next_run _ _ _ (seg_next _ _ _ _ Hseg)) as Hn.
      rewrite (bind_ok _ _ _ _ _ (on_links_ok _ _ _ _ Hn)), with_links_same.
      rewrite (IH (ys ++ [t])); [| by rewrite <- app_assoc | cbn in Hf; lia].
      do 2 f_equal. by destruct (list_find _ xs) as [[]|].
Qed.

Lemma clist_alloc m l xs t : clist m l xs → t ∈ l :: xs → is_Some (m !! t).
Proof.
  intros [_ Hs] Ht. destruct (seg_alloc _ _ _ _ Hs t Ht) as [v Hv]. apply fmap_Some in Hv as (k & Hk & _). by exists k.
Qed.

Lemma clist_length (m : gmap Z _st_clist_t) l xs : clist m l xs → (length xs < size m)%nat.
Proof.
  intros Hc. pose proof Hc as [Hnd _]. rewrite <- size_dom.
  assert (size (list_to_set (l :: xs) : gset Z) <= size (dom m))%nat as H.
  { apply subseteq_size. intros t Ht. apply elem_of_list_to_set in Ht. apply elem_of_dom. by apply (clist_alloc m l xs). }
  rewrite size_list_to_set in H by done. cbn [length] in H. lia.
Qed.

Lemma pool_links s s' xs :
  pool s xs → (∀ t, t ∈ head :: xs → links s' !! t = links s !! t) → stacks s ⊆ stacks s' →
  _st_num_free_stacks s' = _st_num_free_stacks s → pool s' xs.
Proof.
  intros [[Hnd Hc] Hn Hs] Hl Hst Hnum. split; [split; [done |] | congruence |].
  - apply (seg_ext (links s)); [| | done]; intros t Ht; rewrite Hl; try done.
    apply elem_of_app in Ht as [Ht | Ht%list_elem_of_singleton]; [by right | subst; left].
  - intros t Ht. destruct (Hs t Ht) as (x & Hx & Hok). exists x. split; [| done]. by eapply lookup_weaken.
Qed.

(** The space between the red zones is moved by less than a page. *)
Lemma offset_bounds rnd : 0 < page → 0 <= rnd → 0 <= Z.land (Z.rem rnd page) (Z.lnot 0xf) < page.
Proof.
  intros Hp Hr. pose proof (Z.rem_bound_pos rnd page Hr Hp) as Hb.
  change (Z.lnot 0xf) with (Z.lnot (Z.ones 4)). rewrite <- Z.ldiff_land, Z.ldiff_ones_r by lia.
  rewrite Z.shiftl_mul_pow2, Z.shiftr_div_pow2 by lia. pose proof (Z.div_mod (Z.rem rnd page) (2 ^ 4)). 
  pose proof (Z.mod_pos_bound (Z.rem rnd page) (2 ^ 4)). pose proof (Z.div_pos (Z.rem rnd page) (2 ^ 4)). lia.
Qed.

Lemma new_stack_ok t segment rnd size s :
  0 < page → 0 <= rnd → 0 <= size → size + 3 * page < 2 ^ 31 →
  segment (size + 2 * page + (if _st_randomize_stacks s then page else 0)) = None ∧
    new_stack (Some t) segment rnd size s = (Ok None, s) ∨
  ∃ x s', new_stack (Some t) segment rnd size s = (Ok (Some t), s') ∧ stack_ok x ∧ stk_size x = size ∧
    s' = Stks (<[t := Link 0 0]> (links s)) (<[t := x]> (stacks s)) (_st_num_free_stacks s) (_st_randomize_stacks s).
Proof.
  intros Hp Hr Hs Hmax. unfold new_stack, bind. cbn [gets id modify ret]. set (b := _st_randomize_stacks s).
  assert ((2 ^ 31 <=? size + 2 * page + (if b then page else 0)) = false) as ->.
  { apply Z.leb_gt. destruct b; lia. }
  destruct (segment _) as [v |]; [right | by left].
  eexists _, _. split; [reflexivity |]. split; [| split; [| reflexivity]; done]. unfold stack_ok. cbn. destruct b.
  - rewrite (proj2 (Z.eqb_neq _ _)) by lia. pose proof (offset_bounds rnd Hp Hr). lia.
  - cbn. lia.
Qed.

(** A stack taken off the list. *)
Lemma reuse_ok s xs i t size :
  pool s xs → list_find (λ t, fits s size t = true) xs = Some (i, t) →
  ∃ s', (on_links (ST_REMOVE_LINK t) ;; modify (λ s, with_num (_st_num_free_stacks s - 1) s) ;;
         on_links (set_next t 0) ;; on_links (set_prev t 0) ;; ret (Some t)) s = (Ok (Some t), s') ∧
    pool s' (delete i xs) ∧ stacks s' = stacks s ∧ links s' !! t = Some (Link 0 0).
Proof.
  intros [Hc Hn Hs] Hf. apply list_find_Some in Hf as (Hi & _ & _).
  apply list_elem_of_split_length in Hi as (ys & zs & -> & ->).
  destruct (remove_clist _ _ _ _ _ Hc) as (m1 & E1 & C1 & _ & Ht).
  rewrite (bind_ok _ _ _ _ _ (on_links_ok _ _ _ _ E1)). unfold bind at 1. cbn [modify].
  destruct (clist_alloc _ _ _ t Hc) as [k Hk]; [right; apply elem_of_app; right; left |]. rewrite Hk in Ht.
  set (s1 := with_num _ _). assert (links s1 = m1) as L1 by done.
  assert (set_next t 0 (links s1) = (Ok tt, <[t := Link 0 (prev k)]> m1)) as E2.
  { unfold set_next, load, bind. rewrite L1, Ht. done. }
  rewrite (bind_ok _ _ _ _ _ (on_links_ok _ _ _ _ E2)).
  set (s2 := with_links _ s1).
  assert (set_prev t 0 (links s2) = (Ok tt, <[t := Link 0 0]> (<[t := Link 0 (prev k)]> m1))) as E3.
  { unfold set_prev, load, bind. cbn. by rewrite lookup_insert_eq. }
  rewrite (bind_ok _ _ _ _ _ (on_links_ok _ _ _ _ E3)). eexists. split; [reflexivity |].
  rewrite delete_middle. split; [| split; [done | cbn; by rewrite lookup_insert_eq]].
  pose proof Hc as [Hnd _]. rewrite <- Permutation_middle in Hnd.
  apply (pool_links (Stks m1 (stacks s) (Z.of_nat (length (ys ++ zs))) (_st_randomize_stacks s))); cbn.
  - split; [done | done |]. intros u Hu. apply Hs. set_solver.
  - intros u Hu. assert (u ≠ t).
    { intros ->. apply NoDup_cons in Hnd as [H1 H2]. apply NoDup_cons in H2 as [H2 _]. set_solver. }
    by rewrite !lookup_insert_ne.
  - done.
  - rewrite Hn, !length_app. cbn [length]. lia.
Qed.

(** What [_st_stack_new] may return. *)
Definition handed_out s s' (xs : list Z) (ts : option Z) (size : Z) (r : option Z) : Prop :=
  match list_find (λ t, fits s size t = true) xs with
  | Some (i, t) => r = Some t ∧ pool s' (delete i xs)
  | None => pool s' xs ∧ (r = None ∧ s' = s ∨ r = ts ∧ ∀ t, r = Some t → t ∉ xs)
  end ∧
  ∀ t, r = Some t → ∃ x, stacks s' !! t = Some x ∧ stack_ok x ∧ size <= stk_size x.
End stacks.

(** [_st_stack_new] takes the first free stack that is large enough off the list, and
    allocates one only if there is none; what it returns lies inside its memory with a page to spare
    at either end, wherever [random] puts it, and is not on the list any more. *)
Theorem stack_new_hands_out head page s xs ts segment rnd size :
  pool head page s xs → 0 < page → 0 <= rnd → 0 <= size → size + 3 * page < 2 ^ 31 →
  (∀ t, ts = Some t → links s !! t = None ∧ stacks s !! t = None) →
  ∃ r s', _st_stack_new head page ts segment rnd size s = (Ok r, s') ∧ handed_out head page s s' xs ts size r.
Proof.
  intros Hp Hpage Hr Hs Hmax Hts. unfold _st_stack_new. unfold bind at 1. cbn [gets id].
  pose proof (get_next_run _ _ _ (seg_next _ _ _ _ (proj2 (pool_clist _ _ _ _ Hp)))) as E1.
  rewrite (bind_ok _ _ _ _ _ (on_links_ok _ _ _ _ E1)), with_links_same.
  pose proof (find_stack_ok head page (S (base.size (links s))) s [] xs size Hp) as E2.
  rewrite (bind_ok _ _ _ _ _ (E2 ltac:(pose proof (clist_length _ _ _ (pool_clist _ _ _ _ Hp)); lia))).
  unfold handed_out. destruct (list_find _ xs) as [[i t] |] eqn:Hf; cbn [fmap option_fmap option_map snd].
  - destruct (reuse_ok head page s xs i t size Hp Hf) as (s' & E3 & P3 & S3 & _). exists (Some t), s'.
    split; [exact E3 |]. split; [done |]. intros u [= <-]. apply list_find_Some in Hf as (Hi & Hfit & _).
    destruct (pool_stacks _ _ _ _ Hp t) as (x & Hx & Hok); [by eapply list_elem_of_lookup_2 |].
    exists x. unfold fits in Hfit. rewrite Hx in Hfit. rewrite S3. split; [done |]. split; [done |]. by apply Z.leb_le.
  - destruct ts as [t |]; [| exists None, s; split; [done |]; split; [split; [done |]; by left | done]].
    destruct (Hts t eq_refl) as [Hl Hst].
    destruct (new_stack_ok page t segment rnd size s Hpage Hr Hs Hmax) as [[_ E3] | (x & s' & E3 & Hok & Hsz & ->)].
    + exists None, s. split; [exact E3 |]. split; [split; [done |]; by left | done].
    + eexists (Some t), _. split; [exact E3 |].
      assert (t ∉ head :: xs) as Hn.
      { intros Hin. destruct (clist_alloc _ _ _ t (pool_clist _ _ _ _ Hp) Hin) as [k Hk]. congruence. }
      split; [split; [| right; split; [done | intros u [= <-] Hu; apply Hn; by right]] |].
      * apply (pool_links head page s); [done | | | done]; cbn.
        -- intros u Hu. rewrite lookup_insert_ne; [done | by intros ->].
        -- by apply insert_subseteq.
      * intros u [= <-]. exists x. cbn. rewrite lookup_insert_eq. split; [done |]. split; [done | lia].
Qed.

(** [_st_stack_free] puts a stack on the list of free stacks, before its last
    element; the stacks that were on it stay, in order. *)
Theorem stack_free_returns head page s xs t :
  pool head page s xs → t ∉ head :: xs → is_Some (links s !! t) →
  (∃ x, stacks s !! t = Some x ∧ stack_ok page x) →
  ∃ s', _st_stack_free head (Some t) s = (Ok tt, s') ∧
    pool head page s' (take (length xs - 1) xs ++ t :: drop (length xs - 1) xs) ∧ stacks s' = stacks s.
Proof.
  intros [Hc Hn Hs] Ht Hl Hst. set (n := (length xs - 1)%nat). unfold _st_stack_free.
  assert (get_prev head (links s) = (Ok (hd head (drop n xs)), links s)) as E1.
  { apply get_prev_run. destruct Hc as [_ Hc]. rewrite (seg_prev _ _ _ _ Hc). f_equal. unfold n.
    destruct (rev_ind_inv xs) as [-> | (y & ys & ->)]; [done |]. rewrite length_app. cbn [length].
    replace (length ys + 1 - 1)%nat with (length ys) by lia. rewrite drop_app_length. by rewrite List.last_last. }
  rewrite (bind_ok _ _ _ _ _ (on_links_ok _ _ _ _ E1)), with_links_same. rewrite <- (take_drop n xs) in Hc.
  destruct (insert_before_clist (links s) head (take n xs) (drop n xs) t Hc Hl) as (m & E2 & C2 & _).
  { by rewrite take_drop. }
  rewrite (bind_ok _ _ _ _ _ (on_links_ok _ _ _ _ E2)). eexists. split; [reflexivity |]. split; [| done].
  split; [exact C2 | |].
  - cbn. rewrite Hn, length_app. cbn [length]. rewrite length_take, length_drop. lia.
  - intros u Hu. assert (u ∈ t :: xs) as [-> | Hu']%elem_of_cons; [| exact Hst | by apply Hs].
    rewrite <- (take_drop n xs). set_solver.
Qed.

(** ** Two free stacks, and a third that is given back. *)
Definition small : _st_stack := Stack 100000 16384 8192 104096 112288.
Definition large : _st_stack := Stack 200000 73728 65536 204096 269632.

Definition two_free : stks :=
  Stks {[1 := Link 2 3; 2 := Link 3 1; 3 := Link 1 2; 4 := Link 0 0]} {[2 := small; 3 := large; 4 := large]} 2 true.

Lemma two_free_pool : pool 1 4096 two_free [2; 3].
Proof.
  split; [split; [apply (bool_decide_unpack _); by vm_compute | vm_compute; by repeat split] | done |].
  intros t [-> | [-> | []%not_elem_of_nil]%elem_of_cons]%elem_of_cons; eexists; (split; [vm_compute; reflexivity |]);
    unfold stack_ok; cbn; lia.
Qed.

Lemma stack_new_hands_out_witness :
  ∃ s', _st_stack_new 1 4096 (Some 5) (λ _, Some 400000) 1000 20000 two_free = (Ok (Some 3), s') ∧ pool 1 4096 s' [2].
Proof.
  destruct (stack_new_hands_out 1 4096 two_free [2; 3] (Some 5) (λ _, Some 400000) 1000 20000 two_free_pool)
    as (r & s' & E & H & _); [lia | lia | lia | lia | intros t [= <-]; by vm_compute |].
  exists s'. change (list_find _ _) with (Some (1%nat, 3)) in H. cbn in H. destruct H as [-> H].
  split; [exact E | exact H].
Defined.

Lemma stack_free_returns_witness :
  ∃ s', _st_stack_free 1 (Some 4) two_free = (Ok tt, s') ∧ pool 1 4096 s' [2; 4; 3].
Proof.
  destruct (stack_free_returns 1 4096 two_free [2; 3] 4 two_free_pool) as (s' & E & H & _).
  - apply (bool_decide_unpack _). by vm_compute.
  - vm_compute. by eexists.
  - exists large. split; [vm_compute; reflexivity |]. unfold stack_ok. cbn. lia.
  - exists s'. split; [exact E | exact H].
Defined.
