(* ===== verification/Key.v ===== *)
(** * 3rdpart/st-1.9/key.c: per-thread data

    A destructor is a function of the caller; what the library owes it is recorded: [destroyed] is the
    list of the calls made.  Destructors are assumed not to call key.c. *)

From stdpp Require Import functions.
From stdpp Require Import base list sets gmap.
From Stdlib Require Import Lia ZArith.
From S2P Require Import Prelude.

Local Open Scope Z_scope.

Definition ST_KEYS_MAX : Z := 16.

(** A destructor is known by a number, NULL is [None]; the value NULL is 0. *)
Record keys := Keys {
  key_max : Z;
  _st_destructors : list (option Z);
  private_data : gmap Z (list Z);
  destroyed : list (Z * Z);
}.

Implicit Types (s : keys) (t key value : Z).

Definition with_private_data v s := Keys (key_max s) (_st_destructors s) v (destroyed s).

(** The new key. *)
Definition st_key_create (destructor : option Z) : M keys Z :=
  s <- gets id ;;
  if ST_KEYS_MAX <=? key_max s then fail else
  let key := key_max s in
  modify (λ s, Keys (key + 1) (<[Z.to_nat key := destructor]> (_st_destructors s)) (private_data s) (destroyed s)) ;;
  ret key.

Definition st_key_getlimit : Z := ST_KEYS_MAX.

(** [thread->private_data[key]] *)
Definition value_at t key : M keys Z := λ s,
  match private_data s !! t ≫= (.!! Z.to_nat key) with Some v => (Ok v, s) | None => (Undef, s) end.
Definition set_value t key value : M keys unit :=
  modify (λ s, with_private_data (alter (insert (Z.to_nat key) value) t (private_data s)) s).

(** The call of a destructor. *)
Definition destructor_of key : M keys (option Z) := λ s,
  match _st_destructors s !! Z.to_nat key with Some d => (Ok d, s) | None => (Undef, s) end.
Definition destroy (f value : Z) : M keys unit :=
  modify (λ s, Keys (key_max s) (_st_destructors s) (private_data s) (destroyed s ++ [(f, value)])).

Definition st_thread_setspecific (me key value : Z) : M keys unit :=
  s <- gets id ;;
  if (key <? 0) || (key_max s <=? key) then fail else
  old <- value_at me key ;;
  if value =? old then ret tt else
  d <- destructor_of key ;;
  (if old =? 0 then ret tt else match d with Some f => destroy f old | None => ret tt end) ;;
  set_value me key value.

Definition st_thread_getspecific (me key : Z) : M keys Z :=
  s <- gets id ;;
  if (key <? 0) || (key_max s <=? key) then ret 0 else value_at me key.

Definition cleanup_key t (key : Z) : M keys unit :=
  old <- value_at t key ;;
  d <- destructor_of key ;;
  if old =? 0 then ret tt else
  match d with Some f => destroy f old ;; set_value t key 0 | None => ret tt end.

Definition _st_thread_cleanup t : M keys unit :=
  s <- gets id ;; for_each (cleanup_key t) (Z.of_nat <$> seq 0 (Z.to_nat (key_max s))).

(** ** Well-formed tables *)
Record keys_ok s : Prop := {
  ko_max : 0 <= key_max s <= ST_KEYS_MAX;
  ko_destructors : length (_st_destructors s) = Z.to_nat ST_KEYS_MAX;
  ko_data t l : private_data s !! t = Some l → length l = Z.to_nat ST_KEYS_MAX;
}.

Definition valid s key : Prop := 0 <= key < key_max s.

(** The value of a key, 0 where there is none. *)
Definition value s t key : Z := default 0 (private_data s !! t ≫= (.!! Z.to_nat key)).
Definition destructor s key : option Z := default None (_st_destructors s !! Z.to_nat key).

Lemma value_at_ok s t key : keys_ok s → is_Some (private_data s !! t) → valid s key → value_at t key s = (Ok (value s t key), s).
Proof.
  intros [Hm _ Hd] [l Hl] [H0 H1]. unfold value_at, value. rewrite Hl. cbn.
  destruct (lookup_lt_is_Some_2 l (Z.to_nat key)) as [v ->]; [| done]. rewrite (Hd t l Hl). unfold ST_KEYS_MAX in *. lia.
Qed.

Lemma destructor_of_ok s key : keys_ok s → valid s key → destructor_of key s = (Ok (destructor s key), s).
Proof.
  intros [Hm Hd _] [H0 H1]. unfold destructor_of, destructor.
  destruct (lookup_lt_is_Some_2 (_st_destructors s) (Z.to_nat key)) as [v ->]; [| done]. rewrite Hd. unfold ST_KEYS_MAX in *. lia.
Qed.

Definition data_set t key v s : keys := with_private_data (alter (insert (Z.to_nat key) v) t (private_data s)) s.
Definition logged (l : list (Z * Z)) s : keys := Keys (key_max s) (_st_destructors s) (private_data s) (destroyed s ++ l).

Lemma data_set_ok t key v s : keys_ok s → keys_ok (data_set t key v s).
Proof.
  intros [H1 H2 H3]. split; [done | done |]. intros u l. cbn.
  intros [(-> & k & Hk & ->) | [_ Hk]]%lookup_alter_Some; [rewrite length_insert |]; by apply (H3 u).
Qed.

Lemma value_data_set t key v s u k :
  keys_ok s → is_Some (private_data s !! t) → valid s key →
  0 <= k → value (data_set t key v s) u k = if decide (u = t ∧ k = key) then v else value s u k.
Proof.
  intros [Hm _ Hd] [l Hl] [H0 H1] Hk. unfold value. cbn. destruct (decide (u = t)) as [-> |].
  - rewrite lookup_alter_eq, Hl. cbn. destruct (decide (k = key)) as [-> |].
    + rewrite decide_True by done. rewrite list_lookup_insert_eq; [done |]. rewrite (Hd t l Hl). unfold ST_KEYS_MAX in *. lia.
    + rewrite decide_False by (intros []; done). rewrite list_lookup_insert_ne by lia. done.
  - rewrite lookup_alter_ne by done. rewrite decide_False by (intros []; done). done.
Qed.

Lemma has_data_set t key v s u : is_Some (private_data s !! u) → is_Some (private_data (data_set t key v s) !! u).
Proof. intros H. cbn. by apply lookup_alter_is_Some. Qed.

(** What is owed for a key of a thread. *)
Definition owed s t key : list (Z * Z) :=
  match destructor s key with Some f => if value s t key =? 0 then [] else [(f, value s t key)] | None => [] end.

Lemma destroy_owed s t key (c : M keys unit) :
  (if value s t key =? 0 then ret tt else match destructor s key with Some f => destroy f (value s t key) | None => ret tt end) s
  = (Ok tt, logged (owed s t key) s).
Proof.
  unfold owed, logged. destruct s as [m d p l]. destruct (value _ t key =? 0); [destruct (destructor _ key); cbn; by rewrite app_nil_r |].
  destruct (destructor _ key); cbn; [done | by rewrite app_nil_r].
Qed.

Lemma setspecific_ok s me key v :
  keys_ok s → is_Some (private_data s !! me) → valid s key →
  st_thread_setspecific me key v s =
    (Ok tt, if v =? value s me key then s else data_set me key v (logged (owed s me key) s)).
Proof.
  intros Hok Hd Hv. unfold st_thread_setspecific. unfold bind at 1. cbn [gets id].
  assert ((key <? 0) || (key_max s <=? key) = false) as ->.
  { destruct Hv. apply orb_false_iff. split; [by apply Z.ltb_ge | by apply Z.leb_gt]. }
  rewrite (bind_ok _ _ _ _ _ (value_at_ok s me key Hok Hd Hv)). destruct (v =? value s me key); [done |].
  rewrite (bind_ok _ _ _ _ _ (destructor_of_ok s key Hok Hv)).
  rewrite (bind_ok _ _ _ _ _ (destroy_owed s me key (ret tt))). done.
Qed.

Lemma logged_ok l s : keys_ok s → keys_ok (logged l s).
Proof. by intros []. Qed.

(** ** Every key *)
Definition all_keys s : list Z := Z.of_nat <$> seq 0 (Z.to_nat (key_max s)).

Lemma all_keys_spec s key : key ∈ all_keys s ↔ valid s key.
Proof.
  unfold all_keys, valid. rewrite list_elem_of_fmap. split.
  - intros (n & -> & Hn). apply elem_of_seq in Hn. lia.
  - intros [H0 H1]. exists (Z.to_nat key). rewrite Z2Nat.id by done. split; [done |]. apply elem_of_seq. lia.
Qed.

Lemma all_keys_nodup s : NoDup (all_keys s).
Proof. apply NoDup_fmap_2; [apply _ | apply NoDup_seq]. Qed.

Lemma bind_change {A : Type} (p p' : Z → list A) k ks :
  NoDup ks → k ∈ ks → (∀ x, x ∈ ks → x ≠ k → p' x = p x) → (ks ≫= p') ++ p k ≡ₚ (ks ≫= p) ++ p' k.
Proof.
  intros Hnd (l1 & l2 & ->)%list_elem_of_split Hp. rewrite !bind_app, !bind_cons.
  apply NoDup_app in Hnd as (_ & H1 & H2). apply NoDup_cons in H2 as [H2 _].
  assert (∀ l, (∀ x, x ∈ l → x ∈ l1 ++ k :: l2 ∧ x ≠ k) → (l ≫= p') = (l ≫= p)) as E.
  { induction l as [| x l IH]; intros Hl; [done |]. rewrite !bind_cons.
    destruct (Hl x) as [Hx1 Hx2]; [left |]. rewrite (Hp x Hx1 Hx2). f_equal. apply IH. intros y Hy. apply Hl. by right. }
  rewrite (E l1), (E l2).
  - rewrite <- !app_assoc. apply Permutation_app_head.
    rewrite (Permutation_app_comm (l2 ≫= p) (p k)), Permutation_app_swap_app.
    apply Permutation_app_head, Permutation_app_comm.
  - intros x Hx. split; [set_solver |]. by intros ->.
  - intros x Hx. split; [set_solver |]. intros ->. by apply (H1 k Hx); left.
Qed.

(** Everything owed to the thread. *)
Definition live s t : list (Z * Z) := all_keys s ≫= owed s t.

(** The tables agree but for the values of [t] and the record. *)
Record same_keys s s' t : Prop := {
  sk_max : key_max s' = key_max s;
  sk_destructors : _st_destructors s' = _st_destructors s;
  sk_data : is_Some (private_data s' !! t);
  sk_ok : keys_ok s';
}.

Lemma owed_ext s s' t key : same_keys s s' t → value s' t key = value s t key → owed s' t key = owed s t key.
Proof. intros [_ Hd _ _] Hv. unfold owed, destructor. by rewrite Hd, Hv. Qed.

Lemma same_keys_all s s' t : same_keys s s' t → all_keys s' = all_keys s ∧ (∀ k, valid s' k ↔ valid s k).
Proof. intros [Hm _ _ _]. unfold all_keys, valid. by rewrite Hm. Qed.

(** The call of the destructor for the old value, and the entry for the new one. *)
Lemma set_step s me key v s' :
  keys_ok s → is_Some (private_data s !! me) → valid s key → v ≠ value s me key →
  s' = data_set me key v (logged (owed s me key) s) →
  same_keys s s' me ∧ (∀ t k, 0 <= k → value s' t k = if decide (t = me ∧ k = key) then v else value s t k) ∧
  destroyed s' = destroyed s ++ owed s me key ∧ destroyed s' ++ live s' me ≡ₚ destroyed s ++ live s me ++ owed s' me key.
Proof.
  intros Hok Hd Hv Hne ->. set (s1 := logged (owed s me key) s). set (s' := data_set me key v s1).
  assert (keys_ok s1) as Hok1 by (by apply logged_ok).
  assert (same_keys s s' me) as Hsk by (split; [done | done | by apply has_data_set | by apply data_set_ok]).
  assert (∀ t k, 0 <= k → value s' t k = if decide (t = me ∧ k = key) then v else value s t k) as Hval.
  { intros t k Hk. by apply (value_data_set me key v s1 t k Hok1 Hd Hv). }
  split; [done |]. split; [done |]. split; [done |].
  destruct (same_keys_all s s' me Hsk) as [Hall _]. unfold live. rewrite Hall.
  change (destroyed s') with (destroyed s ++ owed s me key). rewrite <- app_assoc. apply Permutation_app_head.
  rewrite Permutation_app_comm. apply bind_change; [apply all_keys_nodup | by apply all_keys_spec |].
  intros x Hx Hxk. apply all_keys_spec in Hx as [Hx _]. apply owed_ext; [done |].
  rewrite Hval, decide_False by (try done; intros []; done). done.
Qed.

(** ** Clean-up *)
Lemma cleanup_key_ok s t key :
  keys_ok s → is_Some (private_data s !! t) → valid s key →
  ∃ s', cleanup_key t key s = (Ok tt, s') ∧ same_keys s s' t ∧ destroyed s' = destroyed s ++ owed s t key ∧
    ∀ k, 0 <= k → value s' t k = if decide (k = key ∧ destructor s key ≠ None) then 0 else value s t k.
Proof.
  intros Hok Hd Hv. unfold cleanup_key. rewrite (bind_ok _ _ _ _ _ (value_at_ok s t key Hok Hd Hv)).
  rewrite (bind_ok _ _ _ _ _ (destructor_of_ok s key Hok Hv)). unfold owed.
  destruct (Z.eqb_spec (value s t key) 0) as [Hz | Hnz].
  - exists s. split; [done |]. split; [done |]. split; [destruct (destructor s key); by rewrite app_nil_r |].
    intros k Hk. case_decide as H; [by destruct H as [-> _] | done].
  - destruct (destructor s key) as [f |] eqn:Hf.
    + eexists. split; [reflexivity |]. set (s1 := logged [(f, value s t key)] s).
      assert (keys_ok s1) as Hok1 by (by apply logged_ok).
      split; [split; [done | done | by apply (has_data_set t key 0 s1 t) | by apply (data_set_ok t key 0 s1)] |].
      split; [done |]. intros k Hk.
      assert (valid s1 key) as Hv1 by done. etransitivity; [exact (value_data_set t key 0 s1 t k Hok1 Hd Hv1 Hk) |].
      destruct (decide (k = key)) as [-> |]; [by rewrite !decide_True | by rewrite !decide_False by (intros []; done)].
    + exists s. split; [done |]. split; [done |]. split; [by rewrite app_nil_r |].
      intros k Hk. rewrite decide_False; [done | by intros []].
Qed.

Lemma same_keys_trans s1 s2 s3 t : same_keys s1 s2 t → same_keys s2 s3 t → same_keys s1 s3 t.
Proof. intros [] []. split; congruence || done. Qed.

Lemma cleanup_loop_ok ks s t :
  keys_ok s → is_Some (private_data s !! t) → NoDup ks → (∀ k, k ∈ ks → valid s k) →
  ∃ s', for_each (cleanup_key t) ks s = (Ok tt, s') ∧ same_keys s s' t ∧
    destroyed s' = destroyed s ++ (ks ≫= owed s t) ∧
    (∀ k, 0 <= k → value s' t k = if decide (k ∈ ks ∧ destructor s k ≠ None) then 0 else value s t k).
Proof.
  revert s. induction ks as [| key ks IH]; intros s Hok Hd Hnd Hv; cbn [for_each].
  - exists s. split; [done |]. split; [done |]. split; [by rewrite app_nil_r |].
    intros k _. rewrite decide_False; [done |]. intros [H _]. by apply not_elem_of_nil in H.
  - apply NoDup_cons in Hnd as [Hn Hnd].
    destruct (cleanup_key_ok s t key Hok Hd) as (s1 & E1 & K1 & D1 & V1); [apply Hv; left |].
    rewrite (bind_ok _ _ _ _ _ E1). destruct (IH s1) as (s2 & E2 & K2 & D2 & V2).
    + apply K1.
    + apply K1.
    + done.
    + intros k Hk. apply (same_keys_all s s1 t K1), Hv. by right.
    + assert (∀ k, destructor s1 k = destructor s k) as Hdes by (intros k; unfold destructor; by rewrite (sk_destructors _ _ _ K1)).
      exists s2. split; [done |]. split; [by apply (same_keys_trans s s1) |]. split.
      * rewrite D2, D1, bind_cons, <- app_assoc. do 2 f_equal.
        assert (∀ l, (∀ k, k ∈ l → valid s k ∧ k ≠ key) → (l ≫= owed s1 t) = (l ≫= owed s t)) as E.
        { induction l as [| x l IHl]; intros Hl; [done |]. rewrite !bind_cons. destruct (Hl x) as [[Hx _] Hxk]; [left |].
          f_equal; [| apply IHl; intros y Hy; apply Hl; by right].
          apply owed_ext; [done |]. rewrite V1, decide_False by (try done; intros []; done). done. }
        apply E. intros k Hk. split; [apply Hv; by right | by intros ->].
      * intros k Hk. rewrite V2, V1, Hdes by done. destruct (decide (k = key)) as [-> |].
        -- rewrite (decide_False (P := key ∈ ks ∧ _)) by (intros []; done).
           destruct (decide (destructor s key = None)) as [He | He].
           ++ rewrite !decide_False by (intros []; done). done.
           ++ rewrite !decide_True; [done | split; [left | done] | done].
        -- rewrite (decide_False (P := k = key ∧ _)) by (intros []; done).
           apply decide_ext. rewrite elem_of_cons. naive_solver.
Qed.

(** ** What becomes of the values *)
(** The values a thread stores one after the other: a value equal to the one there is not
    stored, and NULL is not a value.  [cur]: what it has. *)
Fixpoint stored (d : Z → option Z) (cur : Z → Z) (l : list (Z * Z)) : list (Z * Z) :=
  match l with
  | [] => []
  | (key, v) :: l =>
      (if (v =? cur key) || (v =? 0) then [] else match d key with Some f => [(f, v)] | None => [] end) ++
      stored d (<[key := v]> cur) l
  end.

Definition set_all me (l : list (Z * Z)) : M keys unit := for_each (λ p, st_thread_setspecific me p.1 p.2) l.

Lemma stored_ext d cur cur' l :
  (∀ p, p ∈ l → cur p.1 = cur' p.1) → stored d cur l = stored d cur' l.
Proof.
  revert cur cur'. induction l as [| [k v] l IH]; intros cur cur' H; [done |]. cbn [stored].
  pose proof (H (k, v)) as Hk. cbn in Hk. rewrite Hk by left. f_equal. apply IH. intros p Hp. destruct (decide (p.1 = k)) as [-> |].
  - by rewrite !fn_lookup_insert.
  - rewrite !fn_lookup_insert_ne by done. apply H. by right.
Qed.

Lemma set_all_ok l s me :
  keys_ok s → is_Some (private_data s !! me) → (∀ p, p ∈ l → valid s p.1) →
  ∃ s', set_all me l s = (Ok tt, s') ∧ same_keys s s' me ∧
    destroyed s' ++ live s' me ≡ₚ destroyed s ++ live s me ++ stored (destructor s) (value s me) l.
Proof.
  unfold set_all. revert s. induction l as [| [k v] l IH]; intros s Hok Hd Hv; cbn [for_each stored].
  - exists s. split; [done |]. split; [done |]. by rewrite app_nil_r.
  - cbn [fst snd]. assert (valid s k) as Hk by (apply (Hv (k, v)); left).
    pose proof (setspecific_ok s me k v Hok Hd Hk) as E1. rewrite (bind_ok _ _ _ _ _ E1). destruct (Z.eqb_spec v (value s me k)) as [Heq | Hne].
    + destruct (IH s Hok Hd) as (s' & E2 & K2 & P2); [intros p Hp; apply Hv; by right |].
      exists s'. split; [done |]. split; [done |]. rewrite P2. cbn [orb app]. do 2 apply Permutation_app_head.
      erewrite stored_ext; [done |]. intros p Hp. destruct (decide (p.1 = k)) as [-> |].
      * by rewrite fn_lookup_insert.
      * by rewrite fn_lookup_insert_ne.
    + set (s1 := data_set me k v (logged (owed s me k) s)) in *.
      destruct (set_step s me k v s1 Hok Hd Hk Hne eq_refl) as (K1 & V1 & _ & P1).
      destruct (IH s1) as (s' & E2 & K2 & P2); [apply K1 | apply K1 | |].
      { intros p Hp. apply (same_keys_all s s1 me K1), Hv. by right. }
      exists s'. split; [done |]. split; [by apply (same_keys_trans s s1) |]. rewrite P2, app_assoc, P1.
      rewrite <- !app_assoc. do 2 apply Permutation_app_head. cbn [orb]. f_equiv.
      * unfold owed. rewrite V1, decide_True by (try done; apply Hk).
        assert (destructor s1 k = destructor s k) as -> by done.
        destruct (v =? 0), (destructor s k); done.
      * erewrite stored_ext; [done |]. intros p Hp. destruct (decide (p.1 = k)) as [-> |].
        -- rewrite fn_lookup_insert, V1, decide_True; [done | done | apply Hk].
        -- rewrite fn_lookup_insert_ne by done.
           destruct (Hv p) as [Hp0 _]; [by right |]. rewrite V1, decide_False; [done | by intros [] | done].
Qed.

(** [st_thread_getspecific] returns what [st_thread_setspecific] stored, for this thread and key
    and no other; a key that was not created is refused and changes nothing. *)
Theorem specific_roundtrip s me key v :
  keys_ok s → is_Some (private_data s !! me) →
  (valid s key → ∃ s', st_thread_setspecific me key v s = (Ok tt, s') ∧ keys_ok s' ∧
    st_thread_getspecific me key s' = (Ok v, s') ∧
    ∀ t k, valid s k → (t, k) ≠ (me, key) → value s' t k = value s t k) ∧
  (¬ valid s key → st_thread_setspecific me key v s = (Fail, s) ∧ st_thread_getspecific me key s = (Ok 0, s)).
Proof.
  intros Hok Hd. split.
  - intros Hv. pose proof (setspecific_ok s me key v Hok Hd Hv) as E1.
    assert (∀ s', keys_ok s' → is_Some (private_data s' !! me) → valid s' key → value s' me key = v →
      st_thread_getspecific me key s' = (Ok v, s')) as Hget.
    { intros s' Hok' Hd' Hv' <-. unfold st_thread_getspecific. unfold bind at 1. cbn [gets id].
      assert ((key <? 0) || (key_max s' <=? key) = false) as ->.
      { destruct Hv'. apply orb_false_iff. split; [by apply Z.ltb_ge | by apply Z.leb_gt]. }
      by apply value_at_ok. }
    destruct (Z.eqb_spec v (value s me key)) as [Heq | Hne].
    + exists s. split; [exact E1 |]. split; [done |]. split; [by apply Hget | done].
    + destruct (set_step s me key v _ Hok Hd Hv Hne eq_refl) as (K1 & V1 & _).
      eexists. split; [exact E1 |]. split; [apply K1 |]. split.
      * apply Hget; [apply K1 | apply K1 | done |]. rewrite V1, decide_True; [done | done | apply Hv].
      * intros t k Hk Htk. rewrite V1, decide_False; [done | intros [-> ->]; done | apply Hk].
  - intros Hv. unfold st_thread_setspecific, st_thread_getspecific, bind. cbn [gets id].
    assert ((key <? 0) || (key_max s <=? key) = true) as ->; [| done].
    apply orb_true_iff. unfold valid in Hv. destruct (decide (key < 0)); [left; by apply Z.ltb_lt | right; apply Z.leb_le; lia].
Qed.

(** Whatever a thread stores under keys that have a destructor, each value is handed to
    it exactly once: when another value replaces it, or when the thread ends. *)
Theorem thread_data_destroyed_once s me l :
  keys_ok s → is_Some (private_data s !! me) → (∀ k, valid s k → value s me k = 0) → (∀ p, p ∈ l → valid s p.1) →
  ∃ s', (set_all me l ;; _st_thread_cleanup me) s = (Ok tt, s') ∧
    destroyed s' ≡ₚ destroyed s ++ stored (destructor s) (λ _, 0) l ∧
    ∀ k, valid s k → destructor s k ≠ None → value s' me k = 0.
Proof.
  intros Hok Hd H0 Hv. destruct (set_all_ok l s me Hok Hd Hv) as (s1 & E1 & K1 & P1).
  rewrite (bind_ok _ _ _ _ _ E1). unfold _st_thread_cleanup. unfold bind at 1. cbn [gets id]. fold (all_keys s1).
  destruct (cleanup_loop_ok (all_keys s1) s1 me) as (s2 & E2 & K2 & D2 & V2).
  { apply K1. } { apply K1. } { apply all_keys_nodup. } { intros k. apply all_keys_spec. }
  exists s2. split; [exact E2 |]. fold (live s1 me) in D2. split.
  - rewrite D2, P1. apply Permutation_app_head. assert (live s me = []) as ->.
    { unfold live. assert (∀ ks, (∀ k, k ∈ ks → valid s k) → (ks ≫= owed s me) = []) as E.
      { induction ks as [| k ks IH]; intros Hks; [done |]. rewrite bind_cons, IH by (intros; apply Hks; by right).
        unfold owed. rewrite H0 by (apply Hks; left). by destruct (destructor s k). }
      apply E. intros k. apply all_keys_spec. }
    cbn [app]. erewrite stored_ext; [done |]. intros p Hp. by apply H0, Hv.
  - intros k Hk Hdes. rewrite V2 by apply Hk. rewrite decide_True; [done |]. split.
    + apply all_keys_spec. by apply (same_keys_all s s1 me K1).
    + unfold destructor. by rewrite (sk_destructors _ _ _ K1).
Qed.

(** ** Two keys, the second without a destructor *)
Definition no_keys : keys := Keys 0 (replicate 16 None) {[7 := replicate 16 0; 8 := replicate 16 0]} [].

Definition two_keys : keys := ((st_key_create (Some 50) ;; st_key_create None) no_keys).2.

Lemma two_keys_max : key_max two_keys = 2.
Proof. vm_compute. reflexivity. Qed.

Lemma two_keys_ok : keys_ok two_keys ∧ is_Some (private_data two_keys !! 7).
Proof.
  split; [| by eexists]. split; [rewrite two_keys_max; unfold ST_KEYS_MAX; lia | done |]. intros t l Hl. change (private_data two_keys) with (private_data no_keys) in Hl.
  cbn in Hl. apply lookup_insert_Some in Hl as [[_ <-] | [_ Hl]]; [done |]. by apply lookup_singleton_Some in Hl as [_ <-].
Qed.

Lemma specific_roundtrip_witness :
  (∃ s', st_thread_setspecific 7 1 99 two_keys = (Ok tt, s') ∧ st_thread_getspecific 7 1 s' = (Ok 99, s') ∧ value s' 8 1 = 0) ∧
  st_thread_setspecific 7 2 99 two_keys = (Fail, two_keys).
Proof.
  destruct two_keys_ok as [H1 H2]. destruct (specific_roundtrip two_keys 7 1 99 H1 H2) as [Ha _].
  destruct Ha as (s' & E1 & _ & E2 & V); [done |].
  split; [exists s'; split; [exact E1 |]; split; [exact E2 | by rewrite V] |].
  apply (proj2 (specific_roundtrip two_keys 7 2 99 H1 H2)). unfold valid. rewrite two_keys_max. lia.
Defined.

Lemma thread_data_destroyed_once_witness :
  ∃ s', (set_all 7 [(0, 11); (0, 11); (1, 5); (0, 12)] ;; _st_thread_cleanup 7) two_keys = (Ok tt, s') ∧
    destroyed s' ≡ₚ [(50, 11); (50, 12)].
Proof.
  destruct two_keys_ok as [H1 H2].
  destruct (thread_data_destroyed_once two_keys 7 [(0, 11); (0, 11); (1, 5); (0, 12)] H1 H2) as (s' & E & P & _).
  - intros k [Hk0 Hk1]. rewrite two_keys_max in Hk1. assert (k = 0 ∨ k = 1) as [-> | ->] by lia; reflexivity.
  - intros p Hp. repeat (apply elem_of_cons in Hp as [-> | Hp]; [done |]). by apply not_elem_of_nil in Hp.
  - exists s'. split; [exact E |]. exact P.
Defined.
