(* ===== verification/Vp.v ===== *)
(** * sched.c, sync.c: threads and their queues

    The state of the virtual processor, and every function that moves a thread
    from one queue to another.  A blocking call is two functions here: what it does up
    to [_ST_SWITCH_CONTEXT] ([..._enter], which ends in [_st_vp_schedule]) and what it
    does when the thread is resumed ([..._leave]).  [context] says where a
    thread is suspended; it stands for the [jmp_buf].

    The queues are sequences: Clist.v shows that the list macros implement the
    sequence operations used here, as long as a member is inserted only when it is
    on no list and removed only when it is on one.  Anything else is [Undef]. *)

From stdpp Require Import base list sets gmap.
From Stdlib Require Import Lia ZArith.
From S2P Require Import Prelude.
From S2P Require Import Bytes.
From S2P Require Import TimeoutHeap.

Local Open Scope Z_scope.

(** [_ST_ST_...] *)
Inductive thread_state :=
| RUNNING | RUNNABLE | IO_WAIT | LOCK_WAIT | COND_WAIT | SLEEPING | ZOMBIE | SUSPENDED.

#[export] Instance thread_state_eq_dec : EqDecision thread_state.
Proof. solve_decision. Defined.

(** [_ST_FL_...] *)
Definition _ST_FL_PRIMORDIAL : Z := 0x01.
Definition _ST_FL_IDLE_THREAD : Z := 0x02.
Definition _ST_FL_ON_SLEEPQ : Z := 0x04.
Definition _ST_FL_INTERRUPT : Z := 0x08.
Definition _ST_FL_TIMEDOUT : Z := 0x10.

(** [flags & f], [flags |= f], [flags &= ~f] *)
Definition has_flag (flags f : Z) : bool := negb (Z.land flags f =? 0).
Definition set_flag (flags f : Z) : Z := Z.lor flags f.
Definition clear_flag (flags f : Z) : Z := Z.land flags (Z.lnot f).

Definition ST_UTIME_NO_TIMEOUT : Z := 2 ^ 64 - 1.

(** Where a suspended thread goes on. *)
Inductive call :=
| Start                    (* [_st_thread_main] *)
| In_usleep
| In_cond (cvar : Z)       (* [st_cond_timedwait] *)
| In_mutex (lock : Z)      (* [st_mutex_lock] *)
| In_poll                  (* [st_poll] *)
| In_exit                  (* [st_thread_exit], a joinable thread *)
| In_idle                  (* [_st_idle_thread_start] *)
| Exited.                  (* the primordial thread after [st_thread_exit] *)

#[export] Instance call_eq_dec : EqDecision call.
Proof. solve_decision. Defined.

Record _st_thread := Thread {
  state : thread_state;
  flags : Z;
  retval : Z;
  term : option Z;
  context : option call;   (* [None]: the thread runs code of its own *)
}.

Definition with_state v t := Thread v (flags t) (retval t) (term t) (context t).
Definition with_flags v t := Thread (state t) v (retval t) (term t) (context t).
Definition with_retval v t := Thread (state t) (flags t) v (term t) (context t).
Definition with_term v t := Thread (state t) (flags t) (retval t) v (context t).
Definition with_context v t := Thread (state t) (flags t) (retval t) (term t) v.

Record pollfd := Pollfd { fd : Z; events : Z; revents : Z }.

(** [_st_pollq_t]; it is a local of the polling thread and known by its
    address, the thread's. *)
Record _st_pollq := Pollq { pds : list pollfd; on_ioq : bool }.

Record _st_mutex := Mutex { owner : option Z; mwait_q : list Z }.

(** What the scheduler asks of an event system (event.c). *)
Class EventSys (E : Type) := {
  pollset_add : list pollfd → M E unit;
  pollset_del : list pollfd → M E unit;
}.

(** [ev_ok]: its tables are in order; [fds_valid]: what a caller may pass; [fds_ok]:
    descriptors that were accepted, so that removing them is safe. *)
Class EventSysLaws (E : Type) `{EventSys E} := {
  ev_ok : E → Prop;
  fds_valid : list pollfd → Prop;
  fds_ok : E → list pollfd → Prop;
  pollset_add_total fds e : ev_ok e → fds_valid fds →
    ∃ o e', pollset_add fds e = (o, e') ∧ (o = Ok tt ∧ fds_ok e' fds ∨ o = Fail) ∧
      ev_ok e' ∧ ∀ l, fds_ok e l → fds_ok e' l;
  pollset_del_total fds e : ev_ok e → fds_ok e fds →
    ∃ e', pollset_del fds e = (Ok tt, e') ∧ ev_ok e' ∧ ∀ l, fds_ok e l → fds_ok e' l;
}.

Section vp.
Context {E : Type} `{!EventSys E}.

Record _st_vp := Vp {
  threads : gmap Z _st_thread;
  idle_thread : Z;
  this_thread : Z;
  active_count : Z;
  last_clock : Z;
  run_q : list Z;
  io_q : list Z;
  zombie_q : list Z;
  sleep_q : sleepq;
  pollqs : gmap Z _st_pollq;
  conds : gmap Z (list Z);
  mutexes : gmap Z _st_mutex;
  eventsys : E;
  curr_time : Z;    (* [_st_curr_time]: the cached time, 0 for none *)
  last_tset : Z;
}.

Definition with_threads v s := Vp v (idle_thread s) (this_thread s) (active_count s) (last_clock s)
  (run_q s) (io_q s) (zombie_q s) (sleep_q s) (pollqs s) (conds s) (mutexes s) (eventsys s) (curr_time s) (last_tset s).
Definition with_this_thread v s := Vp (threads s) (idle_thread s) v (active_count s) (last_clock s)
  (run_q s) (io_q s) (zombie_q s) (sleep_q s) (pollqs s) (conds s) (mutexes s) (eventsys s) (curr_time s) (last_tset s).
Definition with_active_count v s := Vp (threads s) (idle_thread s) (this_thread s) v (last_clock s)
  (run_q s) (io_q s) (zombie_q s) (sleep_q s) (pollqs s) (conds s) (mutexes s) (eventsys s) (curr_time s) (last_tset s).
Definition with_last_clock v s := Vp (threads s) (idle_thread s) (this_thread s) (active_count s) v
  (run_q s) (io_q s) (zombie_q s) (sleep_q s) (pollqs s) (conds s) (mutexes s) (eventsys s) (curr_time s) (last_tset s).
Definition with_run_q v s := Vp (threads s) (idle_thread s) (this_thread s) (active_count s) (last_clock s)
  v (io_q s) (zombie_q s) (sleep_q s) (pollqs s) (conds s) (mutexes s) (eventsys s) (curr_time s) (last_tset s).
Definition with_io_q v s := Vp (threads s) (idle_thread s) (this_thread s) (active_count s) (last_clock s)
  (run_q s) v (zombie_q s) (sleep_q s) (pollqs s) (conds s) (mutexes s) (eventsys s) (curr_time s) (last_tset s).
Definition with_zombie_q v s := Vp (threads s) (idle_thread s) (this_thread s) (active_count s) (last_clock s)
  (run_q s) (io_q s) v (sleep_q s) (pollqs s) (conds s) (mutexes s) (eventsys s) (curr_time s) (last_tset s).
Definition with_sleep_q v s := Vp (threads s) (idle_thread s) (this_thread s) (active_count s) (last_clock s)
  (run_q s) (io_q s) (zombie_q s) v (pollqs s) (conds s) (mutexes s) (eventsys s) (curr_time s) (last_tset s).
Definition with_pollqs v s := Vp (threads s) (idle_thread s) (this_thread s) (active_count s) (last_clock s)
  (run_q s) (io_q s) (zombie_q s) (sleep_q s) v (conds s) (mutexes s) (eventsys s) (curr_time s) (last_tset s).
Definition with_conds v s := Vp (threads s) (idle_thread s) (this_thread s) (active_count s) (last_clock s)
  (run_q s) (io_q s) (zombie_q s) (sleep_q s) (pollqs s) v (mutexes s) (eventsys s) (curr_time s) (last_tset s).
Definition with_mutexes v s := Vp (threads s) (idle_thread s) (this_thread s) (active_count s) (last_clock s)
  (run_q s) (io_q s) (zombie_q s) (sleep_q s) (pollqs s) (conds s) v (eventsys s) (curr_time s) (last_tset s).
Definition with_eventsys v s := Vp (threads s) (idle_thread s) (this_thread s) (active_count s) (last_clock s)
  (run_q s) (io_q s) (zombie_q s) (sleep_q s) (pollqs s) (conds s) (mutexes s) v (curr_time s) (last_tset s).
Definition with_time_cache secs v s := Vp (threads s) (idle_thread s) (this_thread s) (active_count s) (last_clock s)
  (run_q s) (io_q s) (zombie_q s) (sleep_q s) (pollqs s) (conds s) (mutexes s) (eventsys s) secs v.

(** ** Threads and queues *)
Definition the_thread (t : Z) : M _st_vp _st_thread := λ s,
  match threads s !! t with Some th => (Ok th, s) | None => (Undef, s) end.

Definition upd (t : Z) (f : _st_thread → _st_thread) : M _st_vp unit :=
  th <- the_thread t ;; modify (λ s, with_threads (<[t := f th]> (threads s)) s).

Definition check (b : _st_vp → bool) : M _st_vp unit := λ s, ((if b s then Ok tt else Undef), s).

Definition on_ev {A : Type} (c : M E A) : M _st_vp A := λ s,
  let '(o, e) := c (eventsys s) in (o, with_eventsys e s).

(** [links] is shared by the run queue and the zombie queue. *)
Definition linked (t : Z) (s : _st_vp) : bool := bool_decide (t ∈ run_q s ++ zombie_q s).

Definition _ST_ADD_RUNQ (t : Z) : M _st_vp unit :=
  check (λ s, negb (linked t s)) ;; modify (λ s, with_run_q (run_q s ++ [t]) s).
Definition _ST_DEL_RUNQ (t : Z) : M _st_vp unit :=
  check (λ s, bool_decide (t ∈ run_q s)) ;; modify (λ s, with_run_q (remove t (run_q s)) s).
Definition _ST_ADD_ZOMBIEQ (t : Z) : M _st_vp unit :=
  check (λ s, negb (linked t s)) ;; modify (λ s, with_zombie_q (zombie_q s ++ [t]) s).
Definition _ST_DEL_ZOMBIEQ (t : Z) : M _st_vp unit :=
  check (λ s, bool_decide (t ∈ zombie_q s)) ;; modify (λ s, with_zombie_q (remove t (zombie_q s)) s).
Definition _ST_ADD_IOQ (t : Z) : M _st_vp unit :=
  check (λ s, bool_decide (t ∉ io_q s)) ;; modify (λ s, with_io_q (io_q s ++ [t]) s).
Definition _ST_DEL_IOQ (t : Z) : M _st_vp unit :=
  check (λ s, bool_decide (t ∈ io_q s)) ;; modify (λ s, with_io_q (remove t (io_q s)) s).

(** [_st_add_sleep_q], [_st_del_sleep_q]: the flag and the heap. *)
Definition _ST_ADD_SLEEPQ (t timeout : Z) : M _st_vp unit :=
  check (λ s, bool_decide (t ∉ dom (sleeping (sleep_q s)))) ;;
  upd t (λ th, with_flags (set_flag (flags th) _ST_FL_ON_SLEEPQ) th) ;;
  s <- gets id ;;
  q <- lift (_st_add_sleep_q t (last_clock s) timeout (sleep_q s)) ;;
  modify (with_sleep_q q).
Definition _ST_DEL_SLEEPQ (t : Z) : M _st_vp unit :=
  s <- gets id ;;
  q <- lift (_st_del_sleep_q t (sleep_q s)) ;;
  modify (with_sleep_q q) ;;
  upd t (λ th, with_flags (clear_flag (flags th) _ST_FL_ON_SLEEPQ) th).

(** [thread->state = RUNNABLE; _ST_ADD_RUNQ(thread);] *)
Definition make_runnable (t : Z) : M _st_vp unit :=
  upd t (with_state RUNNABLE) ;; _ST_ADD_RUNQ t.

(** [if (thread->flags & _ST_FL_ON_SLEEPQ) _ST_DEL_SLEEPQ(thread);] and then the
    same. *)
Definition wake (t : Z) : M _st_vp unit :=
  th <- the_thread t ;;
  (if has_flag (flags th) _ST_FL_ON_SLEEPQ then _ST_DEL_SLEEPQ t else ret tt) ;;
  make_runnable t.

(** ** The scheduler *)
Definition _st_vp_schedule : M _st_vp unit :=
  s <- gets id ;;
  t <- match run_q s with
       | t :: _ => _ST_DEL_RUNQ t ;; ret t
       | [] => ret (idle_thread s)
       end ;;
  th <- the_thread t ;;
  check (λ _, bool_decide (state th = RUNNABLE)) ;;
  upd t (with_state RUNNING) ;;
  modify (with_this_thread t).

Definition _ST_SWITCH_CONTEXT (c : call) : M _st_vp unit :=
  s <- gets id ;; upd (this_thread s) (with_context (Some c)) ;; _st_vp_schedule.

(** The suspended thread goes on. *)
Definition resume : M _st_vp Z :=
  s <- gets id ;; upd (this_thread s) (with_context None) ;; ret (this_thread s).

(** [if (me->flags & _ST_FL_INTERRUPT) { me->flags &= ~_ST_FL_INTERRUPT; return -1; }] *)
Definition check_interrupt : M _st_vp unit :=
  s <- gets id ;;
  th <- the_thread (this_thread s) ;;
  if has_flag (flags th) _ST_FL_INTERRUPT
  then upd (this_thread s) (λ th, with_flags (clear_flag (flags th) _ST_FL_INTERRUPT) th) ;; fail
  else ret tt.

Definition add_sleepq_unless_forever (t timeout : Z) : M _st_vp unit :=
  if timeout =? ST_UTIME_NO_TIMEOUT then ret tt else _ST_ADD_SLEEPQ t timeout.

Definition st_usleep_enter (usecs : Z) : M _st_vp unit :=
  check_interrupt ;;
  s <- gets id ;;
  let me := this_thread s in
  (if usecs =? ST_UTIME_NO_TIMEOUT then upd me (with_state SUSPENDED)
   else upd me (with_state SLEEPING) ;; _ST_ADD_SLEEPQ me usecs) ;;
  _ST_SWITCH_CONTEXT In_usleep.

Definition st_usleep_leave : M _st_vp unit := resume ;; check_interrupt.

Definition st_sleep_enter (secs : Z) : M _st_vp unit :=
  st_usleep_enter (if 0 <=? secs then wrap 64 (secs * 1000000) else ST_UTIME_NO_TIMEOUT).

Definition st_thread_interrupt (t : Z) : M _st_vp unit :=
  th <- the_thread t ;;
  if bool_decide (state th = ZOMBIE) then ret tt else
  upd t (λ th, with_flags (set_flag (flags th) _ST_FL_INTERRUPT) th) ;;
  if bool_decide (state th = RUNNING) || bool_decide (state th = RUNNABLE) then ret tt else
  wake t.

(** The loop of [_st_vp_check_clock]: one round takes the root off the sleep queue. *)
Fixpoint check_clock_loop (fuel : nat) (now : Z) : M _st_vp unit :=
  match fuel with
  | O => lift Hang
  | S fuel =>
      s <- gets id ;;
      match root (sleep_q s) with
      | Null => ret tt
      | Node n _ _ =>
          let t := thread n in
          th <- the_thread t ;;
          check (λ _, has_flag (flags th) _ST_FL_ON_SLEEPQ) ;;
          if now <? due n then ret tt else
          _ST_DEL_SLEEPQ t ;;
          (if bool_decide (state th = COND_WAIT)
           then upd t (λ th, with_flags (set_flag (flags th) _ST_FL_TIMEDOUT) th) else ret tt) ;;
          check (λ _, negb (has_flag (flags th) _ST_FL_IDLE_THREAD)) ;;
          make_runnable t ;;
          check_clock_loop fuel now
      end
  end.

(** The time cache is refreshed when it is in use and a second old ([st_utime_t] is
    unsigned). *)
Definition refresh_time_cache (now secs : Z) : M _st_vp unit :=
  s <- gets id ;;
  if negb (curr_time s =? 0) && (999000 <? wrap 64 (now - last_tset s))
  then modify (with_time_cache secs now) else ret tt.

(** [now] is what [st_utime] returns and [secs] what [time] does; the loop ends after at most as many rounds
    as threads sleep. *)
Definition _st_vp_check_clock (now secs : Z) : M _st_vp unit :=
  modify (with_last_clock now) ;;
  refresh_time_cache now secs ;;
  s <- gets id ;;
  check_clock_loop (S (Z.to_nat (sleepq_size (sleep_q s)))) now.

(** One round of [_st_idle_thread_start]; [dispatch] is that of the event system. *)
Definition idle_round (dispatch : M _st_vp unit) (now secs : Z) : M _st_vp unit :=
  dispatch ;;
  _st_vp_check_clock now secs ;;
  s <- gets id ;;
  upd (this_thread s) (with_state RUNNABLE) ;;
  _ST_SWITCH_CONTEXT In_idle.

(** What a [dispatch] does with a poll that has an event; [release] lowers the counts of its
    descriptors. *)
Definition notify (t : Z) (fds : list pollfd) (release : M E unit) : M _st_vp unit :=
  _ST_DEL_IOQ t ;;
  modify (λ s, with_pollqs (<[t := Pollq fds false]> (pollqs s)) s) ;;
  on_ev release ;;
  wake t.

(** It stores [revents] for a poll that goes on waiting. *)
Definition look_at (t : Z) (fds : list pollfd) : M _st_vp unit :=
  modify (λ s, with_pollqs (<[t := Pollq fds true]> (pollqs s)) s).

(** ** [st_poll] *)
Definition st_poll_enter (fds : list pollfd) (timeout : Z) : M _st_vp unit :=
  check_interrupt ;;
  on_ev (pollset_add fds) ;;
  s <- gets id ;;
  let me := this_thread s in
  modify (λ s, with_pollqs (<[me := Pollq fds true]> (pollqs s)) s) ;;
  _ST_ADD_IOQ me ;;
  add_sleepq_unless_forever me timeout ;;
  upd me (with_state IO_WAIT) ;;
  _ST_SWITCH_CONTEXT In_poll.

Definition ready_count (fds : list pollfd) : Z :=
  Z.of_nat (length (filter (λ p, revents p ≠ 0) fds)).

Definition the_pollq (t : Z) : M _st_vp _st_pollq := λ s,
  match pollqs s !! t with Some q => (Ok q, s) | None => (Undef, s) end.

Definition st_poll_leave : M _st_vp Z :=
  me <- resume ;;
  pq <- the_pollq me ;;
  n <- (if on_ioq pq then _ST_DEL_IOQ me ;; on_ev (pollset_del (pds pq)) ;; ret 0
        else ret (ready_count (pds pq))) ;;
  modify (λ s, with_pollqs (delete me (pollqs s)) s) ;;
  check_interrupt ;;
  ret n.

(** ** Time *)
(** [secs], [now]: what [time] and [st_utime] return. *)
Definition st_timecache_set (on : bool) (secs now : Z) : M _st_vp bool :=
  s <- gets id ;;
  modify (with_time_cache (if on then secs else 0) (if on then now else last_tset s)) ;;
  ret (negb (curr_time s =? 0)).

Definition st_time (secs : Z) : M _st_vp Z :=
  s <- gets id ;; ret (if curr_time s =? 0 then secs else curr_time s).

Definition st_utime_last_clock : M _st_vp Z := gets last_clock.

Definition st_thread_self : M _st_vp Z := gets this_thread.
End vp.
