(* ===== verification/Sync.v ===== *)
(** * sync.c, sched.c: condition variables, mutexes, exit and join *)

From stdpp Require Import base list sets gmap.
From Stdlib Require Import Lia ZArith.
From S2P Require Import Prelude.
From S2P Require Import Bytes.
From S2P Require Import TimeoutHeap.
From S2P Require Import Vp.

Local Open Scope Z_scope.

Section sync.
Context {E : Type} `{!EventSys E}.
Notation vp := (@_st_vp E).

(** ** Condition variables: [conds] maps the address of one to its [wait_q] *)
Definition wait_q (c : Z) : M vp (list Z) := λ s,
  match conds s !! c with Some l => (Ok l, s) | None => (Undef, s) end.

Definition set_wait_q (c : Z) (l : list Z) : M vp unit :=
  modify (λ s, with_conds (<[c := l]> (conds s)) s).

(** [addr] is what [calloc] returns. *)
Definition st_cond_new (addr : option Z) : M vp Z :=
  match addr with
  | None => fail
  | Some c => check (λ s, bool_decide (c ∉ dom (conds s))) ;; set_wait_q c [] ;; ret c
  end.

Definition st_cond_destroy (c : Z) : M vp unit :=
  l <- wait_q c ;;
  if bool_decide (l = []) then modify (λ s, with_conds (delete c (conds s)) s) else fail.

Definition cond_append (c t : Z) : M vp unit :=
  l <- wait_q c ;; check (λ _, bool_decide (t ∉ l)) ;; set_wait_q c (l ++ [t]).

Definition cond_remove (c t : Z) : M vp unit :=
  l <- wait_q c ;; check (λ _, bool_decide (t ∈ l)) ;; set_wait_q c (remove t l).

Definition st_cond_timedwait_enter (c timeout : Z) : M vp unit :=
  check_interrupt ;;
  s <- gets id ;;
  let me := this_thread s in
  upd me (with_state COND_WAIT) ;;
  cond_append c me ;;
  add_sleepq_unless_forever me timeout ;;
  _ST_SWITCH_CONTEXT (In_cond c).

Definition st_cond_wait_enter (c : Z) : M vp unit := st_cond_timedwait_enter c ST_UTIME_NO_TIMEOUT.

(** [if (me->flags & f) { me->flags &= ~f; ... rv = -1; }] *)
Definition test_and_clear (t f : Z) : M vp bool :=
  th <- the_thread t ;;
  if has_flag (flags th) f
  then upd t (λ th, with_flags (clear_flag (flags th) f) th) ;; ret true
  else ret false.

Definition st_cond_timedwait_leave (c : Z) : M vp unit :=
  me <- resume ;;
  cond_remove c me ;;
  timedout <- test_and_clear me _ST_FL_TIMEDOUT ;;
  interrupted <- test_and_clear me _ST_FL_INTERRUPT ;;
  if timedout || interrupted then fail else ret tt.

(** The loop of [_st_cond_signal] over the rest [q] of the wait queue. *)
Fixpoint cond_signal_loop (q : list Z) (broadcast : bool) : M vp unit :=
  match q with
  | [] => ret tt
  | t :: q =>
      th <- the_thread t ;;
      if bool_decide (state th = COND_WAIT) then
        wake t ;;
        if broadcast then cond_signal_loop q broadcast else ret tt
      else cond_signal_loop q broadcast
  end.

Definition _st_cond_signal (c : Z) (broadcast : bool) : M vp unit :=
  l <- wait_q c ;; cond_signal_loop l broadcast.

Definition st_cond_signal (c : Z) : M vp unit := _st_cond_signal c false.
Definition st_cond_broadcast (c : Z) : M vp unit := _st_cond_signal c true.

(** ** Mutexes *)
Definition the_mutex (m : Z) : M vp _st_mutex := λ s,
  match mutexes s !! m with Some x => (Ok x, s) | None => (Undef, s) end.

Definition set_mutex (m : Z) (x : _st_mutex) : M vp unit :=
  modify (λ s, with_mutexes (<[m := x]> (mutexes s)) s).

Definition st_mutex_new (addr : option Z) : M vp Z :=
  match addr with
  | None => fail
  | Some m => check (λ s, bool_decide (m ∉ dom (mutexes s))) ;; set_mutex m (Mutex None []) ;; ret m
  end.

Definition st_mutex_destroy (m : Z) : M vp unit :=
  x <- the_mutex m ;;
  if bool_decide (owner x ≠ None) || bool_decide (mwait_q x ≠ []) then fail
  else modify (λ s, with_mutexes (delete m (mutexes s)) s).

(** [true]: the mutex is the caller's; [false]: the caller waits. *)
Definition st_mutex_lock_enter (m : Z) : M vp bool :=
  check_interrupt ;;
  s <- gets id ;;
  let me := this_thread s in
  x <- the_mutex m ;;
  if bool_decide (owner x = None) then set_mutex m (Mutex (Some me) (mwait_q x)) ;; ret true
  else if bool_decide (owner x = Some me) then fail
  else
    upd me (with_state LOCK_WAIT) ;;
    check (λ _, bool_decide (me ∉ mwait_q x)) ;;
    set_mutex m (Mutex (owner x) (mwait_q x ++ [me])) ;;
    _ST_SWITCH_CONTEXT (In_mutex m) ;;
    ret false.

Definition st_mutex_lock_leave (m : Z) : M vp unit :=
  me <- resume ;;
  x <- the_mutex m ;;
  check (λ _, bool_decide (me ∈ mwait_q x)) ;;
  set_mutex m (Mutex (owner x) (remove me (mwait_q x))) ;;
  th <- the_thread me ;;
  if has_flag (flags th) _ST_FL_INTERRUPT && bool_decide (owner x ≠ Some me)
  then upd me (λ th, with_flags (clear_flag (flags th) _ST_FL_INTERRUPT) th) ;; fail
  else ret tt.

(** The loop of [st_mutex_unlock]: the first waiter that still waits gets the mutex. *)
Fixpoint mutex_handover (m : Z) (q : list Z) : M vp unit :=
  x <- the_mutex m ;;
  match q with
  | [] => set_mutex m (Mutex None (mwait_q x))
  | t :: q =>
      th <- the_thread t ;;
      if bool_decide (state th = LOCK_WAIT) then
        set_mutex m (Mutex (Some t) (mwait_q x)) ;; make_runnable t
      else mutex_handover m q
  end.

Definition st_mutex_unlock (m : Z) : M vp unit :=
  s <- gets id ;;
  x <- the_mutex m ;;
  if bool_decide (owner x ≠ Some (this_thread s)) then fail else mutex_handover m (mwait_q x).

Definition st_mutex_trylock (m : Z) : M vp unit :=
  s <- gets id ;;
  x <- the_mutex m ;;
  if bool_decide (owner x ≠ None) then fail
  else set_mutex m (Mutex (Some (this_thread s)) (mwait_q x)).

(** ** Creation, exit, join *)

(** [addr]: where the thread object is put on the new stack, [None] if there is no
    memory; [cond]: the address of the condition variable of a joinable thread. *)
Definition st_thread_create (addr : option Z) (joinable : bool) (cond : option Z) : M vp Z :=
  match addr with
  | None => fail
  | Some t =>
      check (λ s, bool_decide (t ∉ dom (threads s))) ;;
      term <- (if joinable then c <- st_cond_new cond ;; ret (Some c) else ret None) ;;
      modify (λ s, with_threads (<[t := Thread RUNNABLE 0 0 term (Some Start)]> (threads s)) s) ;;
      modify (λ s, with_active_count (active_count s + 1) s) ;;
      _ST_ADD_RUNQ t ;;
      ret t
  end.

(** The end of [st_thread_exit]: the stack, and the thread object on it, go to the free
    list unless the thread is the primordial one, which stays suspended, and another
    thread runs. *)
Definition exit_end : M vp unit :=
  s <- gets id ;;
  th <- the_thread (this_thread s) ;;
  (if has_flag (flags th) _ST_FL_PRIMORDIAL then upd (this_thread s) (with_context (Some Exited))
   else modify (λ s, with_threads (delete (this_thread s) (threads s)) s)) ;;
  _st_vp_schedule.

(** [st_thread_exit] up to its first switch ([_st_thread_cleanup] is in Key.v). *)
Definition st_thread_exit_enter (rv : Z) : M vp unit :=
  s <- gets id ;;
  let me := this_thread s in
  upd me (with_retval rv) ;;
  modify (λ s, with_active_count (active_count s - 1) s) ;;
  th <- the_thread me ;;
  match term th with
  | Some c =>
      upd me (with_state ZOMBIE) ;;
      _ST_ADD_ZOMBIEQ me ;;
      st_cond_signal c ;;
      _ST_SWITCH_CONTEXT In_exit
  | None => exit_end
  end.

(** A zombie that was joined. *)
Definition st_thread_exit_leave : M vp unit :=
  me <- resume ;;
  th <- the_thread me ;;
  match term th with
  | Some c =>
      l <- wait_q c ;;
      (if bool_decide (l = []) then modify (λ s, with_conds (delete c (conds s)) s) else ret tt) ;;
      upd me (with_term None) ;;
      exit_end
  | None => exit_end
  end.

(** The loop of [st_thread_join] up to a wait ([None]) or the end ([Some retval]). *)
Definition join_loop (t c : Z) : M vp (option Z) :=
  th <- the_thread t ;;
  if bool_decide (state th = ZOMBIE) then
    upd t (with_state RUNNABLE) ;;
    _ST_DEL_ZOMBIEQ t ;;
    _ST_ADD_RUNQ t ;;
    ret (Some (retval th))
  else st_cond_timedwait_enter c ST_UTIME_NO_TIMEOUT ;; ret None.

Definition st_thread_join_enter (t : Z) : M vp (option Z) :=
  th <- the_thread t ;;
  s <- gets id ;;
  match term th with
  | None => fail
  | Some c =>
      if bool_decide (this_thread s = t) then fail else
      l <- wait_q c ;;
      if bool_decide (l ≠ []) then fail else join_loop t c
  end.

Definition st_thread_join_leave (t c : Z) : M vp (option Z) :=
  st_cond_timedwait_leave c ;; join_loop t c.

(** [st_init]: the idle thread and the primordial thread, which runs. *)
Definition st_init (idle primordial clock : Z) (e : E) : vp :=
  Vp {[ idle := Thread RUNNABLE _ST_FL_IDLE_THREAD 0 None (Some Start);
        primordial := Thread RUNNING _ST_FL_PRIMORDIAL 0 None None ]}
    idle primordial 1 clock [] [] [] (SleepQ Null 0) ∅ ∅ ∅ e 0 0.
End sync.
