(* ===== verification/Fair.v ===== *)
(** * sched.c, sync.c: what a call leaves alone, who runs, and who is next

    [pres R c]: the states before and after [c] are related by [R].  For a preorder [R]
    this follows function by function from what [R] says of the assignments
    ([Frame], [FrameIo], [FrameSwitch]); the hints are in the database [pres].  With
    [R := goes_on] every function either leaves the running thread running and only
    appends to the run queue, or may end in a switch to the head of the run queue
    ([yields]). *)

From stdpp Require Import base list sets gmap.
From Stdlib Require Import Lia ZArith.
From S2P Require Import Prelude.
From S2P Require Import Bytes.
From S2P Require Import TimeoutHeap.
From S2P Require Import Vp.
From S2P Require Import Sync.

Local Open Scope Z_scope.

Create HintDb pres.

(** ** Frames *)
Section pres.
Context {E : Type} `{!EventSys E}.
Notation vp := (@_st_vp E).
Implicit Types (s : vp) (t : Z).

Definition returned {A : Type} (o : outcome A) : Prop := match o with Ok _ | Fail => True | _ => False end.

Definition pres {A : Type} (R : relation vp) (c : M vp A) : Prop :=
  ∀ s o s', c s = (o, s') → returned o → R s s'.

(** [R] does not see the assignments of calls that neither poll nor switch. *)
Class Frame (R : relation vp) : Prop := {
  frame_preorder :: PreOrder R;
  frame_threads v s : R s (with_threads v s);
  frame_active_count v s : R s (with_active_count v s);
  frame_last_clock v s : R s (with_last_clock v s);
  frame_zombie_q v s : R s (with_zombie_q v s);
  frame_sleep_q v s : R s (with_sleep_q v s);
  frame_conds v s : R s (with_conds v s);
  frame_mutexes v s : R s (with_mutexes v s);
  frame_time_cache v w s : R s (with_time_cache v w s);
  frame_append t s : R s (with_run_q (run_q s ++ [t]) s);
}.

Class FrameIo (R : relation vp) : Prop := {
  frame_io_q v s : R s (with_io_q v s);
  frame_pollqs v s : R s (with_pollqs v s);
  frame_eventsys v s : R s (with_eventsys v s);
}.

Class FrameSwitch (R : relation vp) : Prop := {
  frame_run_q v s : R s (with_run_q v s);
  frame_this_thread v s : R s (with_this_thread v s);
}.

Section frame.
Context (R : relation vp) `{HR : !Frame R}.

Lemma pres_bind {A B : Type} (c : M vp A) (k : A → M vp B) : pres R c → (∀ a, pres R (k a)) → pres R (bind c k).
Proof.
  intros Hc Hk s o s' Hs Ho. unfold bind in Hs. destruct (c s) as [[a | | | |] s1] eqn:E1; simplify_eq; try done.
  - etrans; [by eapply Hc | by eapply Hk].
  - by eapply Hc.
Qed.

Lemma pres_read {A : Type} (c : M vp A) : (∀ s o s', c s = (o, s') → s' = s) → pres R c.
Proof. intros Hc s o s' Hs _. by rewrite (Hc _ _ _ Hs). Qed.

Lemma pres_for_each {A : Type} (c : A → M vp unit) l : (∀ x, pres R (c x)) → pres R (for_each c l).
Proof.
  intros Hc. induction l as [| x l IH]; cbn [for_each]; [| by apply pres_bind].
  apply pres_read. intros s o s'. by intros [= _ <-].
Qed.

Lemma pres_gets {A : Type} (f : vp → A) : pres R (gets f).
Proof. apply pres_read. intros s o s'. cbn. by intros [= _ <-]. Qed.
Lemma pres_ret {A : Type} (a : A) : pres R (ret a : M vp A).
Proof. apply pres_read. intros s o s'. cbn. by intros [= _ <-]. Qed.
Lemma pres_fail {A : Type} : pres R (fail : M vp A).
Proof. apply pres_read. intros s o s'. cbn. by intros [= _ <-]. Qed.
Lemma pres_lift {A : Type} (o : outcome A) : pres R (lift o : M vp A).
Proof. apply pres_read. intros s o' s'. cbn. by intros [= _ <-]. Qed.
Lemma pres_check b : pres R (check b : M vp unit).
Proof. apply pres_read. intros s o' s'. unfold check. by intros [= _ <-]. Qed.
Lemma pres_the_thread t : pres R (the_thread t : M vp _).
Proof. apply pres_read. intros s o' s'. unfold the_thread. destruct (threads s !! t); by intros [= _ <-]. Qed.
Lemma pres_the_pollq t : pres R (the_pollq t : M vp _).
Proof. apply pres_read. intros s o' s'. unfold the_pollq. destruct (pollqs s !! t); by intros [= _ <-]. Qed.
Lemma pres_wait_q c : pres R (wait_q c : M vp _).
Proof. apply pres_read. intros s o' s'. unfold wait_q. destruct (conds s !! c); by intros [= _ <-]. Qed.
Lemma pres_the_mutex m : pres R (the_mutex m : M vp _).
Proof. apply pres_read. intros s o' s'. unfold the_mutex. destruct (mutexes s !! m); by intros [= _ <-]. Qed.
Lemma pres_modify (f : vp → vp) : (∀ s, R s (f s)) → pres R (modify f).
Proof. intros Hf s o s'. cbn. intros [= <- <-] _. apply Hf. Qed.
Lemma pres_on_ev {A : Type} `{!FrameIo R} (c : M E A) : pres R (on_ev c : M vp A).
Proof. intros s o s'. unfold on_ev. destruct (c (eventsys s)) as [o1 e]. intros [= <- <-] _. apply frame_eventsys. Qed.
End frame.
End pres.

#[export] Hint Resolve pres_gets pres_ret pres_fail pres_lift pres_check pres_the_thread pres_the_pollq
  pres_wait_q pres_the_mutex pres_on_ev : pres.

(** An assignment. *)
Ltac frame := first
  [ apply frame_threads | apply frame_active_count | apply frame_last_clock | apply frame_zombie_q
  | apply frame_sleep_q | apply frame_conds | apply frame_mutexes | apply frame_time_cache | apply frame_append
  | apply frame_io_q | apply frame_pollqs | apply frame_eventsys | apply frame_run_q | apply frame_this_thread ].

(** One [bind], one test or one hint at a time. *)
Ltac pres_step :=
  match goal with
  | |- ∀ _, _ => intros ?
  | |- pres _ (bind _ _) => apply pres_bind; [apply _ | |]
  | |- pres _ (if ?b then _ else _) => destruct b
  | |- pres _ (match ?b with _ => _ end) => destruct b
  | |- pres _ (modify _) => apply pres_modify; intros ?; frame
  | |- _ => solve [auto with pres typeclass_instances]
  end.
Ltac pres := repeat pres_step.

Section calls.
Context {E : Type} `{!EventSys E} (R : relation (@_st_vp E)) `{!Frame R}.
Notation vp := (@_st_vp E).
Implicit Types (s : vp) (t : Z).

Lemma pres_upd t f : pres R (upd t f : M vp unit).
Proof. unfold upd. pres. Qed.
#[local] Hint Resolve pres_upd : pres.
Lemma pres_add_runq t : pres R (_ST_ADD_RUNQ t : M vp unit).
Proof. unfold _ST_ADD_RUNQ. pres. Qed.
#[local] Hint Resolve pres_add_runq : pres.
Lemma pres_add_zombieq t : pres R (_ST_ADD_ZOMBIEQ t : M vp unit).
Proof. unfold _ST_ADD_ZOMBIEQ. pres. Qed.
#[local] Hint Resolve pres_add_zombieq : pres.
Lemma pres_del_zombieq t : pres R (_ST_DEL_ZOMBIEQ t : M vp unit).
Proof. unfold _ST_DEL_ZOMBIEQ. pres. Qed.
#[local] Hint Resolve pres_del_zombieq : pres.
Lemma pres_add_sleepq t timeout : pres R (_ST_ADD_SLEEPQ t timeout : M vp unit).
Proof. unfold _ST_ADD_SLEEPQ. pres. Qed.
#[local] Hint Resolve pres_add_sleepq : pres.
Lemma pres_del_sleepq t : pres R (_ST_DEL_SLEEPQ t : M vp unit).
Proof. unfold _ST_DEL_SLEEPQ. pres. Qed.
#[local] Hint Resolve pres_del_sleepq : pres.
Lemma pres_make_runnable t : pres R (make_runnable t : M vp unit).
Proof. unfold make_runnable. pres. Qed.
#[local] Hint Resolve pres_make_runnable : pres.
Lemma pres_wake t : pres R (wake t : M vp unit).
Proof. unfold wake. pres. Qed.
#[local] Hint Resolve pres_wake : pres.
Lemma pres_resume : pres R (resume : M vp Z).
Proof. unfold resume. pres. Qed.
#[local] Hint Resolve pres_resume : pres.
Lemma pres_check_interrupt : pres R (check_interrupt : M vp unit).
Proof. unfold check_interrupt. pres. Qed.
#[local] Hint Resolve pres_check_interrupt : pres.
Lemma pres_add_sleepq_unless_forever t timeout : pres R (add_sleepq_unless_forever t timeout : M vp unit).
Proof. unfold add_sleepq_unless_forever. pres. Qed.
#[local] Hint Resolve pres_add_sleepq_unless_forever : pres.
Lemma pres_usleep_leave : pres R (st_usleep_leave : M vp unit).
Proof. unfold st_usleep_leave. pres. Qed.
#[local] Hint Resolve pres_usleep_leave : pres.
Lemma pres_interrupt t : pres R (st_thread_interrupt t : M vp unit).
Proof. unfold st_thread_interrupt. pres. Qed.
#[local] Hint Resolve pres_interrupt : pres.
Lemma pres_check_clock_loop fuel now : pres R (check_clock_loop fuel now : M vp unit).
Proof. induction fuel; cbn [check_clock_loop]; pres. Qed.
#[local] Hint Resolve pres_check_clock_loop : pres.
Lemma pres_refresh_time_cache now secs : pres R (refresh_time_cache now secs : M vp unit).
Proof. unfold refresh_time_cache. pres. Qed.
#[local] Hint Resolve pres_refresh_time_cache : pres.
Lemma pres_check_clock now secs : pres R (_st_vp_check_clock now secs : M vp unit).
Proof. unfold _st_vp_check_clock. pres. Qed.
#[local] Hint Resolve pres_check_clock : pres.
Lemma pres_set_wait_q c l : pres R (set_wait_q c l : M vp unit).
Proof. unfold set_wait_q. pres. Qed.
#[local] Hint Resolve pres_set_wait_q : pres.
Lemma pres_cond_new addr : pres R (st_cond_new addr : M vp Z).
Proof. unfold st_cond_new. pres. Qed.
#[local] Hint Resolve pres_cond_new : pres.
Lemma pres_cond_destroy c : pres R (st_cond_destroy c : M vp unit).
Proof. unfold st_cond_destroy. pres. Qed.
#[local] Hint Resolve pres_cond_destroy : pres.
Lemma pres_cond_append c t : pres R (cond_append c t : M vp unit).
Proof. unfold cond_append. pres. Qed.
#[local] Hint Resolve pres_cond_append : pres.
Lemma pres_cond_remove c t : pres R (cond_remove c t : M vp unit).
Proof. unfold cond_remove. pres. Qed.
#[local] Hint Resolve pres_cond_remove : pres.
Lemma pres_test_and_clear t f : pres R (test_and_clear t f : M vp bool).
Proof. unfold test_and_clear. pres. Qed.
#[local] Hint Resolve pres_test_and_clear : pres.
Lemma pres_cond_wait_leave c : pres R (st_cond_timedwait_leave c : M vp unit).
Proof. unfold st_cond_timedwait_leave. pres. Qed.
#[local] Hint Resolve pres_cond_wait_leave : pres.
Lemma pres_cond_signal_loop q b : pres R (cond_signal_loop q b : M vp unit).
Proof. induction q; cbn [cond_signal_loop]; pres. Qed.
#[local] Hint Resolve pres_cond_signal_loop : pres.
Lemma pres_cond_signal c b : pres R (_st_cond_signal c b : M vp unit).
Proof. unfold _st_cond_signal. pres. Qed.
#[local] Hint Resolve pres_cond_signal : pres.
Lemma pres_set_mutex m y : pres R (set_mutex m y : M vp unit).
Proof. unfold set_mutex. pres. Qed.
#[local] Hint Resolve pres_set_mutex : pres.
Lemma pres_mutex_new addr : pres R (st_mutex_new addr : M vp Z).
Proof. unfold st_mutex_new. pres. Qed.
#[local] Hint Resolve pres_mutex_new : pres.
Lemma pres_mutex_destroy m : pres R (st_mutex_destroy m : M vp unit).
Proof. unfold st_mutex_destroy. pres. Qed.
#[local] Hint Resolve pres_mutex_destroy : pres.
Lemma pres_mutex_lock_leave m : pres R (st_mutex_lock_leave m : M vp unit).
Proof. unfold st_mutex_lock_leave. pres. Qed.
#[local] Hint Resolve pres_mutex_lock_leave : pres.
Lemma pres_mutex_handover m q : pres R (mutex_handover m q : M vp unit).
Proof. induction q; cbn [mutex_handover]; pres. Qed.
#[local] Hint Resolve pres_mutex_handover : pres.
Lemma pres_mutex_unlock m : pres R (st_mutex_unlock m : M vp unit).
Proof. unfold st_mutex_unlock. pres. Qed.
#[local] Hint Resolve pres_mutex_unlock : pres.
Lemma pres_mutex_trylock m : pres R (st_mutex_trylock m : M vp unit).
Proof. unfold st_mutex_trylock. pres. Qed.
#[local] Hint Resolve pres_mutex_trylock : pres.
Lemma pres_thread_create addr joinable cond : pres R (st_thread_create addr joinable cond : M vp Z).
Proof. unfold st_thread_create. pres. Qed.
#[local] Hint Resolve pres_thread_create : pres.
End calls.

#[export] Hint Resolve pres_upd pres_add_runq pres_add_zombieq pres_del_zombieq pres_add_sleepq pres_del_sleepq pres_make_runnable pres_wake pres_resume pres_check_interrupt pres_add_sleepq_unless_forever pres_usleep_leave pres_interrupt pres_check_clock_loop pres_refresh_time_cache pres_check_clock pres_set_wait_q pres_cond_new pres_cond_destroy pres_cond_append pres_cond_remove pres_test_and_clear pres_cond_wait_leave pres_cond_signal_loop pres_cond_signal pres_set_mutex pres_mutex_new pres_mutex_destroy pres_mutex_lock_leave pres_mutex_handover pres_mutex_unlock pres_mutex_trylock pres_thread_create : pres.

(** Calls that poll. *)
Section io.
Context {E : Type} `{!EventSys E} (R : relation (@_st_vp E)) `{!Frame R, !FrameIo R}.
Notation vp := (@_st_vp E).
Implicit Types (s : vp) (t : Z).

Lemma pres_add_ioq t : pres R (_ST_ADD_IOQ t : M vp unit).
Proof. unfold _ST_ADD_IOQ. pres. Qed.
#[local] Hint Resolve pres_add_ioq : pres.
Lemma pres_del_ioq t : pres R (_ST_DEL_IOQ t : M vp unit).
Proof. unfold _ST_DEL_IOQ. pres. Qed.
#[local] Hint Resolve pres_del_ioq : pres.
Lemma pres_notify t fds c : pres R (notify t fds c : M vp unit).
Proof. unfold notify. pres. Qed.
#[local] Hint Resolve pres_notify : pres.
Lemma pres_look_at t fds : pres R (look_at t fds : M vp unit).
Proof. unfold look_at. pres. Qed.
#[local] Hint Resolve pres_look_at : pres.
Lemma pres_poll_leave : pres R (st_poll_leave : M vp Z).
Proof. unfold st_poll_leave. pres. Qed.
#[local] Hint Resolve pres_poll_leave : pres.
End io.

#[export] Hint Resolve pres_add_ioq pres_del_ioq pres_notify pres_look_at pres_poll_leave : pres.

(** Calls that may switch. *)
Section switch.
Context {E : Type} `{!EventSys E} (R : relation (@_st_vp E)) `{!Frame R, !FrameSwitch R}.
Notation vp := (@_st_vp E).
Implicit Types (s : vp) (t : Z).

Lemma pres_del_runq t : pres R (_ST_DEL_RUNQ t : M vp unit).
Proof. unfold _ST_DEL_RUNQ. pres. Qed.
#[local] Hint Resolve pres_del_runq : pres.
Lemma pres_schedule : pres R (_st_vp_schedule : M vp unit).
Proof. unfold _st_vp_schedule. pres. Qed.
#[local] Hint Resolve pres_schedule : pres.
Lemma pres_switch (k : call) : pres R (_ST_SWITCH_CONTEXT k : M vp unit).
Proof. unfold _ST_SWITCH_CONTEXT. pres. Qed.
#[local] Hint Resolve pres_switch : pres.
Lemma pres_usleep_enter us : pres R (st_usleep_enter us : M vp unit).
Proof. unfold st_usleep_enter. pres. Qed.
#[local] Hint Resolve pres_usleep_enter : pres.
Lemma pres_cond_wait_enter c timeout : pres R (st_cond_timedwait_enter c timeout : M vp unit).
Proof. unfold st_cond_timedwait_enter. pres. Qed.
#[local] Hint Resolve pres_cond_wait_enter : pres.
Lemma pres_mutex_lock_enter m : pres R (st_mutex_lock_enter m : M vp bool).
Proof. unfold st_mutex_lock_enter. pres. Qed.
#[local] Hint Resolve pres_mutex_lock_enter : pres.
Lemma pres_exit_end : pres R (exit_end : M vp unit).
Proof. unfold exit_end. pres. Qed.
#[local] Hint Resolve pres_exit_end : pres.
Lemma pres_exit_enter rv : pres R (st_thread_exit_enter rv : M vp unit).
Proof. unfold st_thread_exit_enter, st_cond_signal. pres. Qed.
#[local] Hint Resolve pres_exit_enter : pres.
Lemma pres_exit_leave : pres R (st_thread_exit_leave : M vp unit).
Proof. unfold st_thread_exit_leave. pres. Qed.
#[local] Hint Resolve pres_exit_leave : pres.
Lemma pres_idle_round dispatch now secs : pres R dispatch → pres R (idle_round dispatch now secs : M vp unit).
Proof. intros Hd. unfold idle_round. pres. Qed.
End switch.

#[export] Hint Resolve pres_del_runq pres_schedule pres_switch pres_usleep_enter pres_cond_wait_enter pres_mutex_lock_enter pres_exit_end pres_exit_enter pres_exit_leave pres_idle_round : pres.

(** ** The run queue *)
Section fair.
Context {E : Type} `{!EventSys E}.
Notation vp := (@_st_vp E).
Implicit Types (s : vp) (t : Z).

(** The running thread runs on. *)
Definition goes_on s s' : Prop :=
  this_thread s' = this_thread s ∧ idle_thread s' = idle_thread s ∧ run_q s `prefix_of` run_q s'.

(** The first of the run queue runs, and the idle thread if there is none. *)
Definition switched s s' : Prop :=
  idle_thread s' = idle_thread s ∧
  ∃ l, match run_q s ++ l with
       | [] => this_thread s' = idle_thread s ∧ run_q s' = []
       | t :: q => this_thread s' = t ∧ run_q s' = remove t (t :: q)
       end.

Definition grows {A : Type} (c : M vp A) : Prop := pres goes_on c.
Definition yields {A : Type} (c : M vp A) : Prop :=
  ∀ s o s', c s = (o, s') → returned o → goes_on s s' ∨ switched s s'.

Lemma goes_on_append s t : goes_on s (with_run_q (run_q s ++ [t]) s).
Proof. split_and!; [done | done | by apply prefix_app_r]. Qed.

#[export] Instance goes_on_preorder : PreOrder goes_on.
Proof.
  split; [done |]. intros s1 s2 s3 (E1 & E2 & H1) (E3 & E4 & H2). split_and!; [congruence | congruence | by etrans].
Qed.

#[export] Instance goes_on_frame : Frame goes_on.
Proof. split; try done; [apply _ | by intros; apply goes_on_append]. Qed.

#[export] Instance goes_on_frame_io : FrameIo goes_on.
Proof. by split. Qed.

Lemma goes_on_switched s1 s2 s3 : goes_on s1 s2 → switched s2 s3 → switched s1 s3.
Proof.
  intros (E1 & E2 & [l1 H1]) (E3 & l2 & H2). split; [congruence |]. exists (l1 ++ l2).
  rewrite app_assoc, <- H1. rewrite E2 in H2. exact H2.
Qed.

Lemma yields_bind {A B : Type} (c : M vp A) (k : A → M vp B) :
  grows c → (∀ a, yields (k a)) → yields (bind c k).
Proof.
  intros Hc Hk s o s' Hs Ho. unfold bind in Hs. destruct (c s) as [[a | | | |] s1] eqn:E1; simplify_eq; try done.
  - assert (goes_on s s1) as H1 by (by eapply Hc). destruct (Hk a s1 o s' Hs Ho) as [H2 | H2].
    + left. by etrans.
    + right. by eapply goes_on_switched.
  - left. by eapply Hc.
Qed.

Lemma yields_ret {A B : Type} (c : M vp A) (b : B) : yields c → yields (c ;; ret b).
Proof.
  intros Hc s o s' Hs Ho. unfold bind in Hs. destruct (c s) as [[a | | | |] s1] eqn:E1; try (by simplify_eq).
  - cbn in Hs. simplify_eq. by eapply Hc.
  - simplify_eq. by eapply Hc.
Qed.

Lemma yields_grows {A : Type} (c : M vp A) : grows c → yields c.
Proof. intros Hc s o s' Hs Ho. left. by eapply Hc. Qed.
End fair.

Ltac fair_step :=
  match goal with
  | |- ∀ _, _ => intros ?
  | |- grows _ => unfold grows; pres
  | |- yields (bind _ (λ _, ret _)) => apply yields_ret
  | |- yields (bind _ _) => apply yields_bind
  | |- yields (if ?b then _ else _) => destruct b
  | |- yields (match ?b with _ => _ end) => destruct b
  | |- _ => solve [auto with fair]
  | |- yields _ => apply yields_grows
  end.
Ltac fair := repeat fair_step.

Create HintDb fair.

Section yields.
Context {E : Type} `{!EventSys E}.
Notation vp := (@_st_vp E).

Lemma yields_schedule : yields (_st_vp_schedule : M vp unit).
Proof.
  intros s o s' Hs Ho. right. unfold _st_vp_schedule, _ST_DEL_RUNQ, upd, bind, check, the_thread in Hs.
  cbn [gets id] in Hs. destruct (run_q s) as [| t q] eqn:Eq; cbn [ret modify fst snd] in Hs.
  - destruct (threads s !! idle_thread s) as [th |] eqn:Et; [| by simplify_eq].
    case_bool_decide; [| by simplify_eq]. rewrite ?Et in Hs. cbn in Hs. rewrite ?Et in Hs. cbn in Hs. injection Hs as <- <-. split; [done |]. exists []. by rewrite Eq.
  - rewrite Eq in Hs. rewrite bool_decide_true in Hs by left. cbn in Hs.
    destruct (threads s !! t) as [th |] eqn:Et; [| by simplify_eq].
    case_bool_decide; [| by simplify_eq]. rewrite ?Et in Hs. cbn in Hs. rewrite ?Et in Hs. cbn in Hs. injection Hs as <- <-. split; [done |]. exists []. by rewrite Eq, app_nil_r.
Qed.
#[local] Hint Resolve yields_schedule : fair.

Lemma yields_switch (k : call) : yields (_ST_SWITCH_CONTEXT k : M vp unit).
Proof. unfold _ST_SWITCH_CONTEXT. fair. Qed.
#[local] Hint Resolve yields_switch : fair.
Lemma yields_usleep_enter us : yields (st_usleep_enter us : M vp unit).
Proof. unfold st_usleep_enter. fair. Qed.
#[local] Hint Resolve yields_usleep_enter : fair.
Lemma yields_idle_round dispatch now secs : grows dispatch → yields (idle_round dispatch now secs : M vp unit).
Proof. intros Hd. unfold idle_round. fair. Qed.
#[local] Hint Resolve yields_idle_round : fair.
Lemma yields_poll_enter fds timeout : yields (st_poll_enter fds timeout : M vp unit).
Proof. unfold st_poll_enter. fair. Qed.
#[local] Hint Resolve yields_poll_enter : fair.
Lemma yields_cond_wait_enter c timeout : yields (st_cond_timedwait_enter c timeout : M vp unit).
Proof. unfold st_cond_timedwait_enter. fair. Qed.
#[local] Hint Resolve yields_cond_wait_enter : fair.
Lemma yields_mutex_lock_enter m : yields (st_mutex_lock_enter m : M vp bool).
Proof. unfold st_mutex_lock_enter. fair. Qed.
#[local] Hint Resolve yields_mutex_lock_enter : fair.
Lemma yields_exit_end : yields (exit_end : M vp unit).
Proof. unfold exit_end. fair. Qed.
#[local] Hint Resolve yields_exit_end : fair.
Lemma yields_exit_enter rv : yields (st_thread_exit_enter rv : M vp unit).
Proof. unfold st_thread_exit_enter, st_cond_signal. fair. Qed.
#[local] Hint Resolve yields_exit_enter : fair.
Lemma yields_exit_leave : yields (st_thread_exit_leave : M vp unit).
Proof. unfold st_thread_exit_leave. fair. Qed.
#[local] Hint Resolve yields_exit_leave : fair.
End yields.

#[export] Hint Resolve yields_usleep_enter yields_idle_round yields_poll_enter yields_cond_wait_enter
  yields_mutex_lock_enter yields_exit_enter yields_exit_leave : fair.
