(* ===== verification/Sched.v ===== *)
(** * Every thread is on the queues its state says

    The steps of the virtual processor and the invariant they keep: no list member
    is inserted twice or removed from a list it is not on, no null pointer of
    the sleep queue is followed, and no loop runs for ever.  Joinable threads
    are left out ([st_thread_join] is defined in Sync.v). *)

From stdpp Require Import base list sets gmap.
From Stdlib Require Import Lia ZArith Sorting.Sorted.
From S2P Require Import Prelude.
From S2P Require Import Bytes.
From S2P Require Import TimeoutHeap.
From S2P Require Import Vp.
From S2P Require Import Sync.

Local Open Scope Z_scope.

(** ** Flags *)
Lemma has_flag_bit f k : 0 <= k → has_flag f (2 ^ k) = Z.testbit f k.
Proof.
  intros Hk. unfold has_flag. destruct (Z.testbit f k) eqn:E.
  - apply negb_true_iff, Z.eqb_neq. intros H. apply (f_equal (λ z, Z.testbit z k)) in H.
    rewrite Z.land_spec, E, Z.pow2_bits_true, Z.testbit_0_l in H by lia. done.
  - apply negb_false_iff, Z.eqb_eq. apply Z.bits_inj'. intros n Hn.
    rewrite Z.land_spec, Z.testbit_0_l, Z.pow2_bits_eqb by lia.
    destruct (Z.eqb_spec k n) as [<- |]; [by rewrite E | apply andb_false_r].
Qed.

Lemma has_set_flag f k j : 0 <= k → 0 <= j →
  has_flag (set_flag f (2 ^ k)) (2 ^ j) = bool_decide (k = j) || has_flag f (2 ^ j).
Proof.
  intros Hk Hj. unfold set_flag. rewrite !has_flag_bit, Z.lor_spec, Z.pow2_bits_eqb by done.
  rewrite orb_comm. f_equal. by destruct (Z.eqb_spec k j); case_bool_decide.
Qed.

Lemma has_clear_flag f k j : 0 <= k → 0 <= j →
  has_flag (clear_flag f (2 ^ k)) (2 ^ j) = negb (bool_decide (k = j)) && has_flag f (2 ^ j).
Proof.
  intros Hk Hj. unfold clear_flag.
  rewrite !has_flag_bit, Z.land_spec, Z.lnot_spec, Z.pow2_bits_eqb by done.
  rewrite andb_comm. do 2 f_equal. by destruct (Z.eqb_spec k j); case_bool_decide.
Qed.

(** The five flags as powers of two. *)
Ltac flag_bits :=
  change _ST_FL_PRIMORDIAL with (2 ^ 0) in *; change _ST_FL_IDLE_THREAD with (2 ^ 1) in *;
  change _ST_FL_ON_SLEEPQ with (2 ^ 2) in *; change _ST_FL_INTERRUPT with (2 ^ 3) in *;
  change _ST_FL_TIMEDOUT with (2 ^ 4) in *.

Lemma set_clear_flags f :
  has_flag (set_flag f _ST_FL_ON_SLEEPQ) _ST_FL_ON_SLEEPQ = true ∧
  has_flag (set_flag f _ST_FL_ON_SLEEPQ) _ST_FL_IDLE_THREAD = has_flag f _ST_FL_IDLE_THREAD ∧
  has_flag (set_flag f _ST_FL_ON_SLEEPQ) _ST_FL_INTERRUPT = has_flag f _ST_FL_INTERRUPT ∧
  has_flag (clear_flag f _ST_FL_ON_SLEEPQ) _ST_FL_ON_SLEEPQ = false ∧
  has_flag (clear_flag f _ST_FL_ON_SLEEPQ) _ST_FL_IDLE_THREAD = has_flag f _ST_FL_IDLE_THREAD ∧
  has_flag (clear_flag f _ST_FL_ON_SLEEPQ) _ST_FL_INTERRUPT = has_flag f _ST_FL_INTERRUPT ∧
  has_flag (set_flag f _ST_FL_INTERRUPT) _ST_FL_INTERRUPT = true ∧
  has_flag (set_flag f _ST_FL_INTERRUPT) _ST_FL_ON_SLEEPQ = has_flag f _ST_FL_ON_SLEEPQ ∧
  has_flag (set_flag f _ST_FL_INTERRUPT) _ST_FL_IDLE_THREAD = has_flag f _ST_FL_IDLE_THREAD ∧
  has_flag (clear_flag f _ST_FL_INTERRUPT) _ST_FL_ON_SLEEPQ = has_flag f _ST_FL_ON_SLEEPQ ∧
  has_flag (clear_flag f _ST_FL_INTERRUPT) _ST_FL_IDLE_THREAD = has_flag f _ST_FL_IDLE_THREAD ∧
  has_flag (set_flag f _ST_FL_TIMEDOUT) _ST_FL_ON_SLEEPQ = has_flag f _ST_FL_ON_SLEEPQ ∧
  has_flag (set_flag f _ST_FL_TIMEDOUT) _ST_FL_IDLE_THREAD = has_flag f _ST_FL_IDLE_THREAD ∧
  has_flag (set_flag f _ST_FL_TIMEDOUT) _ST_FL_INTERRUPT = has_flag f _ST_FL_INTERRUPT ∧
  has_flag (clear_flag f _ST_FL_TIMEDOUT) _ST_FL_ON_SLEEPQ = has_flag f _ST_FL_ON_SLEEPQ ∧
  has_flag (clear_flag f _ST_FL_TIMEDOUT) _ST_FL_IDLE_THREAD = has_flag f _ST_FL_IDLE_THREAD ∧
  has_flag (clear_flag f _ST_FL_TIMEDOUT) _ST_FL_INTERRUPT = has_flag f _ST_FL_INTERRUPT.
Proof. flag_bits. rewrite !has_set_flag, !has_clear_flag by lia. by split_and!. Qed.

(** ** Running code forward *)
Definition wp {S A : Type} (c : M S A) (Q : A → S → Prop) (F : S → Prop) (s : S) : Prop :=
  match c s with
  | (Ok a, s') => Q a s'
  | (Fail, s') => F s'
  | _ => False
  end.

Section wp.
Context {S A B : Type}.
Implicit Types (c : M S A) (k : A → M S B) (F : S → Prop) (s : S).

Lemma wp_bind c k (Q : B → S → Prop) F s :
  wp c (λ a s', wp (k a) Q F s') F s → wp (bind c k) Q F s.
Proof. unfold wp, bind. by destruct (c s) as [[] ?]. Qed.

Lemma wp_mono c (Q Q' : A → S → Prop) F F' s :
  (∀ a s', Q a s' → Q' a s') → (∀ s', F s' → F' s') → wp c Q F s → wp c Q' F' s.
Proof. unfold wp. destruct (c s) as [[] ?]; auto. Qed.

Lemma wp_if (b : bool) c c' (Q : A → S → Prop) F s :
  (b = true → wp c Q F s) → (b = false → wp c' Q F s) → wp (if b then c else c') Q F s.
Proof. destruct b; auto. Qed.

Lemma wp_eq c s a s' (Q : A → S → Prop) F : c s = (Ok a, s') → Q a s' → wp c Q F s.
Proof. unfold wp. by intros ->. Qed.
End wp.

Section sched.
Context {E : Type} `{!EventSys E, !EventSysLaws E}.
Notation vp := (@_st_vp E).
Implicit Types (s : vp) (x t c m : Z) (th : _st_thread).

(** ** Where a thread is *)
Definition asleep s x : Prop := x ∈ dom (sleeping (sleep_q s)).
Definition waits_cond s c x : Prop := ∃ l, conds s !! c = Some l ∧ x ∈ l.
Definition waits_mutex s m x : Prop := ∃ y, mutexes s !! m = Some y ∧ x ∈ mwait_q y.
Definition owns s m x : Prop := ∃ y, mutexes s !! m = Some y ∧ owner y = Some x.
Definition owned s m : Prop := ∃ y, mutexes s !! m = Some y ∧ is_Some (owner y).
Definition polling s x : Prop := ∃ q, pollqs s !! x = Some q ∧ on_ioq q = true.

(** What a thread's state says of its context and of the sleep queue. *)
Definition state_ok (cur : Z) s x th : Prop :=
  match state th with
  | RUNNING => (x = cur ∨ context th = Some Exited) ∧ ¬ asleep s x
  | RUNNABLE => context th ≠ None ∧ context th ≠ Some Exited ∧ ¬ asleep s x
  | IO_WAIT => context th = Some In_poll ∧ polling s x
  | LOCK_WAIT => (∃ m, context th = Some (In_mutex m) ∧ owned s m) ∧ ¬ asleep s x
  | COND_WAIT => ∃ c, context th = Some (In_cond c)
  | SLEEPING => context th = Some In_usleep ∧ asleep s x
  | SUSPENDED => context th = Some In_usleep ∧ ¬ asleep s x
  | ZOMBIE => False
  end.

Record live (cur : Z) s x th : Prop := {
  live_run : x ∈ run_q s ↔ state th = RUNNABLE ∧ x ≠ idle_thread s;
  live_sleep : asleep s x ↔ has_flag (flags th) _ST_FL_ON_SLEEPQ = true;
  live_io : x ∈ io_q s ↔ polling s x;
  live_poll : is_Some (pollqs s !! x) ↔ context th = Some In_poll;
  live_cond c : waits_cond s c x ↔ context th = Some (In_cond c);
  live_mutex m : waits_mutex s m x ↔ context th = Some (In_mutex m);
  live_state : state_ok cur s x th;
  live_lock m : context th = Some (In_mutex m) →
    state th = LOCK_WAIT ∨ owns s m x ∨ has_flag (flags th) _ST_FL_INTERRUPT = true;
  live_idle : has_flag (flags th) _ST_FL_IDLE_THREAD = true ↔ x = idle_thread s;
  live_idle_state : x = idle_thread s →
    (state th = RUNNABLE ∨ state th = RUNNING) ∧
    (context th = None ∨ context th = Some Start ∨ context th = Some In_idle);
  live_term : term th = None;
}.

(** A thread that is gone is on no queue. *)
Definition absent s x : Prop :=
  x ∉ run_q s ∧ x ∉ io_q s ∧ ¬ asleep s x ∧ pollqs s !! x = None ∧
  (∀ c, ¬ waits_cond s c x) ∧ (∀ m, ¬ waits_mutex s m x).

Definition thread_ok (cur : Z) s x : Prop :=
  match threads s !! x with Some th => live cur s x th | None => absent s x end.

(** Everything is in order, except perhaps the thread [t]. *)
Record inv_but (t cur : Z) s : Prop := {
  ib_run : NoDup (run_q s);
  ib_io : NoDup (io_q s);
  ib_zombie : zombie_q s = [];
  ib_sleep : sleepq_ok (sleep_q s);
  ib_conds c l : conds s !! c = Some l → NoDup l;
  ib_mutexes m y : mutexes s !! m = Some y → NoDup (mwait_q y);
  ib_idle : is_Some (threads s !! idle_thread s);
  ib_threads x : x ≠ t → thread_ok cur s x;
  ib_fds x q : pollqs s !! x = Some q → fds_ok (eventsys s) (pds q);
  ib_ev : ev_ok (eventsys s);
}.

Record inv s : Prop := {
  inv_all t : inv_but t (this_thread s) s;
  inv_this : ∃ th, threads s !! this_thread s = Some th ∧ state th = RUNNING ∧
    context th ≠ Some Exited;
}.

Lemma inv_thread s x : inv s → thread_ok (this_thread s) s x.
Proof. intros H. apply (ib_threads (x + 1) _ _ (inv_all s H (x + 1))). lia. Qed.

Lemma inv_intro s :
  inv_but (this_thread s) (this_thread s) s → thread_ok (this_thread s) s (this_thread s) →
  (∃ th, threads s !! this_thread s = Some th ∧ state th = RUNNING ∧ context th ≠ Some Exited) → inv s.
Proof.
  intros [] Hok Ht. split; [| done]. intros t. split; try done.
  intros x _. destruct (decide (x = this_thread s)) as [-> |]; auto.
Qed.

(** ** Other threads are not affected *)
Record same_view s s' x : Prop := {
  sv_thread : threads s' !! x = threads s !! x;
  sv_idle : idle_thread s' = idle_thread s;
  sv_run : x ∈ run_q s' ↔ x ∈ run_q s;
  sv_io : x ∈ io_q s' ↔ x ∈ io_q s;
  sv_sleep : asleep s' x ↔ asleep s x;
  sv_poll : pollqs s' !! x = pollqs s !! x;
  sv_cond c : waits_cond s' c x ↔ waits_cond s c x;
  sv_mutex m : waits_mutex s' m x ↔ waits_mutex s m x;
  sv_owns m : owns s' m x ↔ owns s m x;
  sv_owned m : owned s m → owned s' m;
}.

Lemma same_view_ok cur s s' x : same_view s s' x → thread_ok cur s x → thread_ok cur s' x.
Proof.
  intros [Ht Hid Hr Hi Hs Hp Hc Hm Ho Hw]. unfold thread_ok. rewrite Ht.
  assert (polling s' x ↔ polling s x) as Hpo by (unfold polling; by rewrite Hp).
  destruct (threads s !! x) as [th |].
  - intros [L1 L2 L3 L4 L5 L6 L7 L8 L9 L10 L11]. split; try rewrite Hid; try done.
    + by rewrite Hr.
    + by rewrite Hs.
    + by rewrite Hi, Hpo.
    + by rewrite Hp.
    + intros c. by rewrite Hc.
    + intros m. by rewrite Hm.
    + unfold state_ok in *. destruct (state th); rewrite ?Hs, ?Hpo; try done.
      destruct L7 as [(m & ? & ?) ?]. eauto.
    + intros m. rewrite Ho. apply L8.
  - intros (A1 & A2 & A3 & A4 & A5 & A6). unfold absent. rewrite Hr, Hi, Hs, Hp.
    split_and!; try done; [intros c; rewrite Hc; apply A5 | intros m; rewrite Hm; apply A6].
Qed.

(** ** The queues a thread is on *)
Record place := Place {
  p_run : bool; p_io : bool; p_sleep : bool; p_poll : option _st_pollq;
  p_cond : option Z; p_mutex : option Z;
}.

Definition nowhere : place := Place false false false None None None.

Record at_place s t (p : place) : Prop := {
  at_run : t ∈ run_q s ↔ p_run p = true;
  at_io : t ∈ io_q s ↔ p_io p = true;
  at_sleep : asleep s t ↔ p_sleep p = true;
  at_poll : pollqs s !! t = p_poll p;
  at_cond c : waits_cond s c t ↔ p_cond p = Some c;
  at_mutex m : waits_mutex s m t ↔ p_mutex p = Some m;
}.

(** The thread [t] with the object [th] on the queues of [p]; everything else in order. *)
Record focus (t cur : Z) th p s : Prop := {
  fo_inv : inv_but t cur s;
  fo_thread : threads s !! t = Some th;
  fo_place : at_place s t p;
}.

Lemma live_place cur s t th p :
  at_place s t p →
  (p_run p = true ↔ state th = RUNNABLE ∧ t ≠ idle_thread s) →
  p_sleep p = has_flag (flags th) _ST_FL_ON_SLEEPQ →
  p_io p = match p_poll p with Some q => on_ioq q | None => false end →
  (is_Some (p_poll p) ↔ context th = Some In_poll) →
  (∀ c, p_cond p = Some c ↔ context th = Some (In_cond c)) →
  (∀ m, p_mutex p = Some m ↔ context th = Some (In_mutex m)) →
  state_ok cur s t th →
  (∀ m, context th = Some (In_mutex m) →
    state th = LOCK_WAIT ∨ owns s m t ∨ has_flag (flags th) _ST_FL_INTERRUPT = true) →
  (has_flag (flags th) _ST_FL_IDLE_THREAD = true ↔ t = idle_thread s) →
  (t = idle_thread s → (state th = RUNNABLE ∨ state th = RUNNING) ∧
    (context th = None ∨ context th = Some Start ∨ context th = Some In_idle)) →
  term th = None → live cur s t th.
Proof.
  intros [A1 A2 A3 A4 A5 A6] H1 H2 H3 H4 H5 H6 H7 H8 H9 H10 H11. split; try done.
  - by rewrite A1.
  - by rewrite A3, H2.
  - rewrite A2, H3. unfold polling. rewrite A4. destruct (p_poll p); naive_solver.
  - by rewrite A4.
  - intros c. by rewrite A5.
  - intros m. by rewrite A6.
Qed.

Definition place_of s t th : place :=
  Place (bool_decide (t ∈ run_q s)) (bool_decide (t ∈ io_q s)) (has_flag (flags th) _ST_FL_ON_SLEEPQ)
    (pollqs s !! t)
    (match context th with Some (In_cond c) => Some c | _ => None end)
    (match context th with Some (In_mutex m) => Some m | _ => None end).

Lemma place_live cur s t th : live cur s t th → at_place s t (place_of s t th).
Proof.
  intros [L1 L2 L3 L4 L5 L6 L7 L8 L9 L10 L11]. split; cbn; try done.
  - by rewrite bool_decide_eq_true.
  - by rewrite bool_decide_eq_true.
  - intros c. rewrite L5. destruct (context th) as [[]|]; naive_solver.
  - intros m. rewrite L6. destruct (context th) as [[]|]; naive_solver.
Qed.

Lemma focus_intro s t th : inv s → threads s !! t = Some th → focus t (this_thread s) th (place_of s t th) s.
Proof.
  intros Hi Ht. split; [apply Hi | done |]. apply (place_live (this_thread s)).
  pose proof (inv_thread s t Hi) as H. unfold thread_ok in H. by rewrite Ht in H.
Qed.

(** The other threads see the same before and after. *)
Lemma inv_but_step t cur s s' :
  inv_but t cur s → (∀ x, x ≠ t → same_view s s' x) →
  NoDup (run_q s') → NoDup (io_q s') → zombie_q s' = [] → sleepq_ok (sleep_q s') →
  (∀ c l, conds s' !! c = Some l → NoDup l) → (∀ m y, mutexes s' !! m = Some y → NoDup (mwait_q y)) →
  is_Some (threads s' !! idle_thread s') →
  (∀ x q, pollqs s' !! x = Some q → fds_ok (eventsys s') (pds q)) → ev_ok (eventsys s') → inv_but t cur s'.
Proof.
  intros Hi Hv. intros. split; try done. intros x Hx. apply (same_view_ok cur s); [by apply Hv |].
  by apply (ib_threads t).
Qed.

(** ** The primitives *)
Lemma threads_insert_idle t th s th' :
  threads s !! t = Some th' → is_Some (threads s !! idle_thread s) →
  is_Some (<[t := th]> (threads s) !! idle_thread s).
Proof. intros. apply lookup_insert_is_Some. destruct (decide (t = idle_thread s)); auto. Qed.

Lemma focus_thread t cur th p s th' :
  focus t cur th p s → focus t cur th' p (with_threads (<[t := th']> (threads s)) s).
Proof.
  intros [Hi Ht Hp]. split; [| cbn; by rewrite lookup_insert_eq | by destruct Hp; split].
  apply (inv_but_step t cur s); try done; try apply Hi.
  - intros x Hx. split; try done. cbn. by rewrite lookup_insert_ne.
  - cbn. eapply threads_insert_idle; [done | apply Hi].
Qed.

Lemma wp_the_thread t (Q : _st_thread → vp → Prop) F s th :
  threads s !! t = Some th → Q th s → wp (the_thread t) Q F s.
Proof. intros Ht. unfold wp, the_thread. by rewrite Ht. Qed.

Lemma wp_upd t f (Q : unit → vp → Prop) F cur th p s :
  focus t cur th p s →
  (∀ s', s' = with_threads (<[t := f th]> (threads s)) s → focus t cur (f th) p s' → Q tt s') →
  wp (upd t f) Q F s.
Proof.
  intros Hf HQ. unfold upd. apply wp_bind, (wp_the_thread _ _ _ _ th); [apply Hf |].
  cbn. apply HQ; [done |]. by eapply focus_thread.
Qed.

Lemma wp_check (b : vp → bool) (Q : unit → vp → Prop) F s : b s = true → Q tt s → wp (check b) Q F s.
Proof. intros Hb. unfold wp, check. by rewrite Hb. Qed.

Definition set_run v p := Place v (p_io p) (p_sleep p) (p_poll p) (p_cond p) (p_mutex p).
Definition set_io v p := Place (p_run p) v (p_sleep p) (p_poll p) (p_cond p) (p_mutex p).
Definition set_sleep v p := Place (p_run p) (p_io p) v (p_poll p) (p_cond p) (p_mutex p).
Definition set_poll v p := Place (p_run p) (p_io p) (p_sleep p) v (p_cond p) (p_mutex p).
Definition set_cond v p := Place (p_run p) (p_io p) (p_sleep p) (p_poll p) v (p_mutex p).
Definition set_mutex_place v p := Place (p_run p) (p_io p) (p_sleep p) (p_poll p) (p_cond p) v.

Lemma wp_add_runq t (Q : unit → vp → Prop) F cur th p s :
  focus t cur th p s → p_run p = false →
  (∀ s', s' = with_run_q (run_q s ++ [t]) s → focus t cur th (set_run true p) s' → Q tt s') →
  wp (_ST_ADD_RUNQ t) Q F s.
Proof.
  intros [Hi Ht Hp] Hr HQ.
  assert (t ∉ run_q s) as Hn by (rewrite (at_run _ _ _ Hp), Hr; done).
  unfold _ST_ADD_RUNQ. apply wp_bind, wp_check.
  - unfold linked. rewrite (ib_zombie _ _ _ Hi), app_nil_r. by rewrite bool_decide_false.
  - cbn. apply HQ; [done |]. split; [| done |].
    + apply (inv_but_step t cur s); try done; try apply Hi.
      * intros x Hx. split; try done. cbn. set_solver.
      * cbn. apply NoDup_app. split_and!; [apply Hi | set_solver | apply NoDup_singleton].
    + destruct Hp. split; try done. cbn. set_solver.
Qed.

Lemma wp_del_runq t (Q : unit → vp → Prop) F cur th p s :
  focus t cur th p s → p_run p = true →
  (∀ s', s' = with_run_q (remove t (run_q s)) s → focus t cur th (set_run false p) s' → Q tt s') →
  wp (_ST_DEL_RUNQ t) Q F s.
Proof.
  intros [Hi Ht Hp] Hr HQ. unfold _ST_DEL_RUNQ. apply wp_bind, wp_check.
  - apply bool_decide_eq_true. by apply (at_run _ _ _ Hp).
  - cbn. apply HQ; [done |]. split; [| done |].
    + apply (inv_but_step t cur s); try done; try apply Hi.
      * intros x Hx. split; try done. cbn. rewrite elem_of_remove. tauto.
      * apply NoDup_remove, Hi.
    + destruct Hp. split; try done. cbn. rewrite elem_of_remove. naive_solver.
Qed.

Lemma wp_add_ioq t (Q : unit → vp → Prop) F cur th p s :
  focus t cur th p s → p_io p = false →
  (∀ s', s' = with_io_q (io_q s ++ [t]) s → focus t cur th (set_io true p) s' → Q tt s') →
  wp (_ST_ADD_IOQ t) Q F s.
Proof.
  intros [Hi Ht Hp] Hr HQ.
  assert (t ∉ io_q s) as Hn by (rewrite (at_io _ _ _ Hp), Hr; done).
  unfold _ST_ADD_IOQ. apply wp_bind, wp_check; [by rewrite bool_decide_true |].
  cbn. apply HQ; [done |]. split; [| done |].
  - apply (inv_but_step t cur s); try done; try apply Hi.
    + intros x Hx. split; try done. cbn. set_solver.
    + cbn. apply NoDup_app. split_and!; [apply Hi | set_solver | apply NoDup_singleton].
  - destruct Hp. split; try done. cbn. set_solver.
Qed.

Lemma wp_del_ioq t (Q : unit → vp → Prop) F cur th p s :
  focus t cur th p s → p_io p = true →
  (∀ s', s' = with_io_q (remove t (io_q s)) s → focus t cur th (set_io false p) s' → Q tt s') →
  wp (_ST_DEL_IOQ t) Q F s.
Proof.
  intros [Hi Ht Hp] Hr HQ. unfold _ST_DEL_IOQ. apply wp_bind, wp_check.
  - apply bool_decide_eq_true. by apply (at_io _ _ _ Hp).
  - cbn. apply HQ; [done |]. split; [| done |].
    + apply (inv_but_step t cur s); try done; try apply Hi.
      * intros x Hx. split; try done. cbn. rewrite elem_of_remove. tauto.
      * apply NoDup_remove, Hi.
    + destruct Hp. split; try done. cbn. rewrite elem_of_remove. naive_solver.
Qed.

Lemma focus_sleep_q t cur th p s q b :
  focus t cur th p s → sleepq_ok q →
  (∀ x, x ≠ t → x ∈ dom (sleeping q) ↔ asleep s x) → (t ∈ dom (sleeping q) ↔ b = true) →
  focus t cur th (set_sleep b p) (with_sleep_q q s).
Proof.
  intros [Hi Ht Hp] Hq Hx Hb. split; [| done |].
  - apply (inv_but_step t cur s); try done; try apply Hi. intros x Hne. split; try done. by apply Hx.
  - destruct Hp. by split.
Qed.

Lemma wp_add_sleepq t timeout (Q : unit → vp → Prop) F cur th p s :
  focus t cur th p s → p_sleep p = false → sleepq_size (sleep_q s) + 1 < 2 ^ 31 →
  (∀ s' th' q, th' = with_flags (set_flag (flags th) _ST_FL_ON_SLEEPQ) th →
    s' = with_sleep_q q (with_threads (<[t := th']> (threads s)) s) →
    sleeping q = <[t := wrap 64 (last_clock s + timeout)]> (sleeping (sleep_q s)) →
    focus t cur th' (set_sleep true p) s' → Q tt s') →
  wp (_ST_ADD_SLEEPQ t timeout) Q F s.
Proof.
  intros Hf Hp Hsz HQ.
  assert (t ∉ dom (sleeping (sleep_q s))) as Hn.
  { intros H. apply (at_sleep _ _ _ (fo_place _ _ _ _ _ Hf)) in H. congruence. }
  unfold _ST_ADD_SLEEPQ. apply wp_bind, wp_check; [by rewrite bool_decide_true |].
  apply wp_bind, (wp_upd _ _ _ _ _ _ _ _ Hf). intros s1 -> Hf1.
  apply wp_bind. cbn [wp gets id]. unfold wp at 1. cbn [gets].
  destruct (add_sleep_q_ok (sleep_q s) t (last_clock s) timeout) as (q & Eq & Hq & Hs & _);
    [apply Hf | done | done |].
  apply wp_bind. unfold wp at 1, lift. cbn [sleep_q last_clock with_threads id]. rewrite Eq.
  cbn. eapply HQ; [done | done | done |].
  apply focus_sleep_q; [done | done | |]; rewrite Hs, dom_insert_L.
  - intros x Hx. unfold asleep. cbn. set_solver.
  - set_solver.
Qed.

Lemma wp_del_sleepq t (Q : unit → vp → Prop) F cur th p s :
  focus t cur th p s → p_sleep p = true →
  (∀ s' th' q, th' = with_flags (clear_flag (flags th) _ST_FL_ON_SLEEPQ) th →
    s' = with_threads (<[t := th']> (threads s)) (with_sleep_q q s) →
    sleeping q = delete t (sleeping (sleep_q s)) → sleepq_size q = sleepq_size (sleep_q s) - 1 →
    focus t cur th' (set_sleep false p) s' → Q tt s') →
  wp (_ST_DEL_SLEEPQ t) Q F s.
Proof.
  intros Hf Hp HQ.
  assert (t ∈ dom (sleeping (sleep_q s))) as Hn.
  { by apply (at_sleep _ _ _ (fo_place _ _ _ _ _ Hf)). }
  unfold _ST_DEL_SLEEPQ. apply wp_bind. unfold wp at 1. cbn [gets id].
  destruct (del_sleep_q_ok (sleep_q s) t) as (q & Eq & Hq & Hs & Hsz); [apply Hf | done |].
  apply wp_bind. unfold wp at 1, lift. rewrite Eq. apply wp_bind. unfold wp at 1. cbn [modify].
  assert (focus t cur th (set_sleep false p) (with_sleep_q q s)) as Hf1.
  { apply focus_sleep_q; [done | done | |]; rewrite Hs, dom_delete_L.
    - intros x Hx. unfold asleep. set_solver.
    - split; [set_solver | done]. }
  apply (wp_upd _ _ _ _ _ _ _ _ Hf1). intros s2 -> Hf2. by eapply HQ.
Qed.

(** ** Waking and scheduling *)
Lemma wp_gets {A : Type} (f : vp → A) (Q : A → vp → Prop) F s : Q (f s) s → wp (gets f) Q F s.
Proof. done. Qed.
Lemma wp_modify (f : vp → vp) (Q : unit → vp → Prop) F s : Q tt (f s) → wp (modify f) Q F s.
Proof. done. Qed.
Lemma wp_ret {A : Type} (a : A) (Q : A → vp → Prop) F s : Q a s → wp (ret a) Q F s.
Proof. done. Qed.
Lemma wp_fail {A : Type} (Q : A → vp → Prop) (F : vp → Prop) s : F s → wp (fail : M vp A) Q F s.
Proof. done. Qed.

(** Fields that no primitive on a thread touches. *)
Definition kept s s' : Prop :=
  idle_thread s' = idle_thread s ∧ this_thread s' = this_thread s ∧ mutexes s' = mutexes s ∧
  conds s' = conds s ∧ pollqs s' = pollqs s ∧ io_q s' = io_q s ∧
  last_clock s' = last_clock s ∧ eventsys s' = eventsys s ∧ active_count s' = active_count s.

Lemma kept_trans s1 s2 s3 : kept s1 s2 → kept s2 s3 → kept s1 s3.
Proof. unfold kept. intuition congruence. Qed.

Lemma wp_make_runnable t (Q : unit → vp → Prop) F cur th p s :
  focus t cur th p s → p_run p = false →
  (∀ s', kept s s' → sleep_q s' = sleep_q s → run_q s' = run_q s ++ [t] →
    threads s' = <[t := with_state RUNNABLE th]> (threads s) →
    focus t cur (with_state RUNNABLE th) (set_run true p) s' → Q tt s') →
  wp (make_runnable t) Q F s.
Proof.
  intros Hf Hr HQ. unfold make_runnable. apply wp_bind, (wp_upd _ _ _ _ _ _ _ _ Hf). intros s1 E1 Hf1.
  apply (wp_add_runq _ _ _ _ _ _ _ Hf1 Hr). intros s2 E2 Hf2.
  apply HQ; [| | | | done]; subst; done.
Qed.

(** [wake]: the flag for the sleep queue is cleared together with the entry. *)
Definition woken th : _st_thread :=
  with_state RUNNABLE (if has_flag (flags th) _ST_FL_ON_SLEEPQ
    then with_flags (clear_flag (flags th) _ST_FL_ON_SLEEPQ) th else th).

Lemma wp_wake t (Q : unit → vp → Prop) F cur th p s :
  focus t cur th p s → p_run p = false → p_sleep p = has_flag (flags th) _ST_FL_ON_SLEEPQ →
  (∀ s', kept s s' → run_q s' = run_q s ++ [t] →
    threads s' = <[t := woken th]> (threads s) →
    focus t cur (woken th) (set_run true (set_sleep false p)) s' → Q tt s') →
  wp (wake t) Q F s.
Proof.
  intros Hf Hr Hs HQ. unfold wake. apply wp_bind, (wp_the_thread _ _ _ _ th); [apply Hf |].
  apply wp_bind. unfold woken in HQ. destruct (has_flag (flags th) _ST_FL_ON_SLEEPQ).
  - apply (wp_del_sleepq _ _ _ _ _ _ _ Hf Hs). intros s1 th1 q -> E1 _ _ Hf1.
    apply (wp_make_runnable _ _ _ _ _ _ _ Hf1 Hr). intros s2 K2 _ E2 T2 Hf2.
    apply HQ; [| | | done].
    + eapply kept_trans; [| exact K2]. by subst.
    + rewrite E2. by subst.
    + rewrite T2, E1. cbn. by rewrite insert_insert_eq.
  - apply wp_ret, (wp_make_runnable _ _ _ _ _ _ _ Hf Hr). intros s1 K1 _ E1 T1 Hf1.
    apply HQ; [done | done | done |].
    assert (set_sleep false p = p) as -> by (by destruct p; cbn in *; subst). done.
Qed.

(** Nobody runs: the thread that was running is suspended or gone. *)
Definition between s : Prop := ∀ t cur, inv_but t cur s.

Lemma thread_ok_cur cur cur' s x :
  thread_ok cur s x →
  (∀ th, threads s !! x = Some th → state th = RUNNING → context th = Some Exited) →
  thread_ok cur' s x.
Proof.
  unfold thread_ok. destruct (threads s !! x) as [th |]; [| done]. intros [] H. split; try done.
  unfold state_ok in *. destruct (state th) eqn:Es; try done. split; [right; by apply H | tauto].
Qed.

Lemma between_intro t s :
  inv_but t t s → thread_ok t s t →
  (∀ th, threads s !! t = Some th → state th = RUNNING → context th = Some Exited) → between s.
Proof.
  intros Hi Ht Hr t' cur. destruct Hi as [I1 I2 I3 I4 I5 I6 I7 I8 I9 I10]. split; try done.
  intros x _. destruct (decide (x = t)) as [-> | Hx]; [by apply (thread_ok_cur t) |].
  apply (thread_ok_cur t); [by apply I8 |]. intros th Et Es. specialize (I8 x Hx).
  unfold thread_ok in I8. rewrite Et in I8. pose proof (live_state _ _ _ _ I8) as H.
  unfold state_ok in H. rewrite Es in H. naive_solver.
Qed.

Lemma between_focus s t th :
  between s → threads s !! t = Some th → focus t t th (place_of s t th) s ∧ live t s t th.
Proof.
  intros Hb Ht. assert (live t s t th) as Hl.
  { pose proof (ib_threads (t + 1) t s (Hb _ _) t ltac:(lia)) as H. unfold thread_ok in H. by rewrite Ht in H. }
  split; [| done]. split; [apply Hb | done | by apply (place_live t)].
Qed.

(** The thread that runs next. *)
Definition next_thread s : Z := hd (idle_thread s) (run_q s).

Lemma place_io cur s t th :
  live cur s t th →
  bool_decide (t ∈ io_q s) = match pollqs s !! t with Some q => on_ioq q | None => false end.
Proof.
  intros [_ _ L _ _ _ _ _ _ _ _]. unfold polling in L. destruct (pollqs s !! t) as [q |] eqn:Eq.
  - destruct (on_ioq q) eqn:Eo.
    + apply bool_decide_eq_true, L. eauto.
    + apply bool_decide_eq_false. rewrite L. intros (q' & Hq & Ho). congruence.
  - apply bool_decide_eq_false. rewrite L. intros (q' & Hq & Ho). congruence.
Qed.

(** It runs, from the state in which nobody does. *)
Lemma run_next s s' t th p :
  focus t t th p s' → live t s t th → state th = RUNNABLE →
  p = set_run false (place_of s t th) → idle_thread s' = idle_thread s → mutexes s' = mutexes s →
  inv (with_this_thread t (with_threads (<[t := with_state RUNNING th]> (threads s')) s')).
Proof.
  intros Hf Hl Hst -> Hid Hm.
  set (s2 := with_threads _ _).
  assert (focus t t (with_state RUNNING th) (set_run false (place_of s t th)) s2) as Hf2 by exact (focus_thread _ _ _ _ _ _ Hf).
  pose proof (place_io _ _ _ _ Hl) as Lio.
  destruct Hl as [L1 L2 L3 L4 L5 L6 L7 L8 L9 L10 L11].
  unfold state_ok in L7. rewrite Hst in L7. destruct L7 as (C1 & C2 & Ha).
  assert (live t s2 t (with_state RUNNING th)) as Hlive.
  { apply (live_place _ _ _ _ _ (fo_place _ _ _ _ _ Hf2)); cbn; try done.
    - split; [done | intros []; done].
    - intros c. destruct (context th) as [[]|]; naive_solver.
    - intros m. destruct (context th) as [[]|]; naive_solver.
    - split; [by left |]. intros H. apply (at_sleep _ _ _ (fo_place _ _ _ _ _ Hf2)) in H. cbn in H.
      apply Ha, L2, H.
    - intros m Hc. destruct (L8 m Hc) as [? | [(y & ? & ?) |]]; [congruence | | by right; right].
      right; left. exists y. unfold s2. cbn. by rewrite Hm.
    - by rewrite Hid.
    - rewrite Hid. intros Et. split; [by right |]. apply (L10 Et). }
  assert (threads s2 !! t = Some (with_state RUNNING th)) as Ht2 by apply Hf2.
  apply inv_intro.
  - cbn [this_thread with_this_thread]. destruct (fo_inv _ _ _ _ _ Hf2) as [I1 I2 I3 I4 I5 I6 I7 I8 I9 I10].
    split; try done. intros x Hx. apply (same_view_ok t s2); [by split | by apply I8].
  - cbn [this_thread with_this_thread]. apply (same_view_ok t s2); [by split |]. unfold thread_ok. by rewrite Ht2.
  - exists (with_state RUNNING th). split_and!; [done | done | done].
Qed.

(** The idle thread runs only when nobody else can. *)
Definition quiet s : Prop := this_thread s = idle_thread s → run_q s = [].

Definition ok s : Prop := inv s ∧ quiet s.

Lemma schedule_ok s F :
  between s → wp _st_vp_schedule (λ _ s', ok s' ∧ this_thread s' = next_thread s ∧
    run_q s' = tl (run_q s)) F s.
Proof.
  intros Hb. unfold _st_vp_schedule, next_thread. apply wp_bind, wp_gets. cbn [id].
  destruct (run_q s) as [| t r] eqn:Er; apply wp_bind.
  - apply wp_ret. destruct (ib_idle _ _ _ (Hb 0 0)) as [th Hth].
    destruct (between_focus s _ th Hb Hth) as [Hf Hl].
    assert (state th = RUNNABLE) as Hst.
    { destruct (live_idle_state _ _ _ _ Hl eq_refl) as [[? | Hrun] Hc]; [done |]. exfalso.
      pose proof (ib_threads (idle_thread s + 1) (idle_thread s + 1) s (Hb _ _) (idle_thread s) ltac:(lia)) as H.
      unfold thread_ok in H. rewrite Hth in H. pose proof (live_state _ _ _ _ H) as H'.
      unfold state_ok in H'. rewrite Hrun in H'. destruct H' as [[? | H'] _]; [lia |].
      rewrite H' in Hc. naive_solver. }
    apply wp_bind, (wp_the_thread _ _ _ _ th); [done |].
    apply wp_bind, wp_check; [by rewrite bool_decide_true |].
    apply wp_bind, (wp_upd _ _ _ _ _ _ _ _ Hf). intros s1 -> Hf1. apply wp_modify.
    split; [split; [| intros _; exact Er] | split; [done | exact Er]]. eapply (run_next s); try done.
    assert (set_run false (place_of s (idle_thread s) th) = place_of s (idle_thread s) th) as ->; [| done].
    unfold place_of, set_run. cbn. f_equal. symmetry. apply bool_decide_eq_false.
    rewrite Er. apply not_elem_of_nil.
  - assert (t ∈ run_q s) as Htr by (rewrite Er; left).
    assert (∃ th, threads s !! t = Some th) as [th Hth].
    { destruct (threads s !! t) eqn:Et; [eauto |].
      pose proof (ib_threads (t + 1) t s (Hb _ _) t ltac:(lia)) as H. unfold thread_ok in H. rewrite Et in H.
      by destruct H. }
    destruct (between_focus s _ th Hb Hth) as [Hf Hl].
    destruct (proj1 (live_run _ _ _ _ Hl) Htr) as [Hst Hni].
    apply wp_bind, (wp_del_runq _ _ _ _ _ _ _ Hf); [cbn; by rewrite bool_decide_true |].
    intros s1 E1 Hf1. apply wp_ret.
    apply wp_bind, (wp_the_thread _ _ _ _ th); [apply Hf1 |].
    apply wp_bind, wp_check; [by rewrite bool_decide_true |].
    apply wp_bind, (wp_upd _ _ _ _ _ _ _ _ Hf1). intros s2 -> Hf2. apply wp_modify.
    split; [split; [eapply (run_next s); try done; by subst |] | split; [done |]].
    { cbn. intros Et. subst s1. by destruct Hni. }
    subst s1. cbn. rewrite Er. unfold remove. rewrite filter_cons_False by naive_solver. cbn [tl].
    pose proof (ib_run _ _ _ (Hb 0 0)) as Hnd. rewrite Er in Hnd. apply NoDup_cons in Hnd as [Hn _].
    clear -Hn. induction r as [| y r IH]; [done |]. rewrite filter_cons_True by set_solver. f_equal.
    apply IH. set_solver.
Qed.

(** ** The running thread *)
Lemma running s : inv s →
  ∃ th, threads s !! this_thread s = Some th ∧ state th = RUNNING ∧ context th ≠ Some Exited ∧
    live (this_thread s) s (this_thread s) th.
Proof.
  intros Hi. destruct (inv_this s Hi) as (th & Ht & Hs & Hc). exists th. split_and!; try done.
  pose proof (inv_thread s (this_thread s) Hi) as H. unfold thread_ok in H. by rewrite Ht in H.
Qed.

(** A thread that runs code of its own is on no queue. *)
Lemma running_nowhere s th :
  inv s → threads s !! this_thread s = Some th → context th = None →
  focus (this_thread s) (this_thread s) th nowhere s ∧ state th = RUNNING ∧
    has_flag (flags th) _ST_FL_ON_SLEEPQ = false ∧ term th = None ∧
    (has_flag (flags th) _ST_FL_IDLE_THREAD = true ↔ this_thread s = idle_thread s).
Proof.
  intros Hi Ht Hc. destruct (running s Hi) as (th' & Ht' & Hs & _ & Hl).
  rewrite Ht in Ht'. injection Ht' as <-.
  assert (pollqs s !! this_thread s = None) as Hq.
  { destruct (pollqs s !! this_thread s) eqn:Eq; [| done].
    assert (context th = Some In_poll); [| congruence].
    apply (live_poll _ _ _ _ Hl). rewrite Eq. by eexists. }
  pose proof (live_state _ _ _ _ Hl) as Hst. unfold state_ok in Hst. rewrite Hs in Hst. destruct Hst as [_ Hns].
  split_and!; [| done | | by apply Hl | apply Hl].
  - split; [apply Hi | done |]. split; cbn.
    + rewrite (live_run _ _ _ _ Hl), Hs. split; [intros []; done | done].
    + rewrite (live_io _ _ _ _ Hl). unfold polling. rewrite Hq. split; [intros (? & ? & ?); done | done].
    + split; [by intros ?%Hns | done].
    + done.
    + intros c. rewrite (live_cond _ _ _ _ Hl), Hc. done.
    + intros m. rewrite (live_mutex _ _ _ _ Hl), Hc. done.
  - apply not_true_is_false. intros H. by apply Hns, (live_sleep _ _ _ _ Hl).
Qed.

Lemma between_place t th p s :
  focus t t th p s → live t s t th → (state th = RUNNING → context th = Some Exited) → between s.
Proof.
  intros Hf Hl Hr. apply (between_intro t); [apply Hf | |].
  - unfold thread_ok. by rewrite (fo_thread _ _ _ _ _ Hf).
  - intros th'. rewrite (fo_thread _ _ _ _ _ Hf). intros [= <-]. done.
Qed.

(** The running thread goes on running. *)
Lemma inv_current me th p s :
  this_thread s = me → focus me me th p s → live me s me th → state th = RUNNING →
  context th ≠ Some Exited → inv s.
Proof.
  intros <- Hf Hl Hs Hc. apply inv_intro; [apply Hf | |].
  - unfold thread_ok. by rewrite (fo_thread _ _ _ _ _ Hf).
  - exists th. split_and!; [apply Hf | done | done].
Qed.

Lemma live_running_nowhere s th :
  this_thread s = this_thread s → at_place s (this_thread s) nowhere → state th = RUNNING →
  context th = None → has_flag (flags th) _ST_FL_ON_SLEEPQ = false → term th = None →
  (has_flag (flags th) _ST_FL_IDLE_THREAD = true ↔ this_thread s = idle_thread s) →
  live (this_thread s) s (this_thread s) th.
Proof.
  intros _ Hp Hs Hc Hf Ht Hi. apply (live_place _ _ _ _ _ Hp); rewrite ?Hs, ?Hc; cbn; try done.
  - split; [done | intros []; done].
  - unfold state_ok. rewrite Hs. split; [by left |]. intros H. by apply (at_sleep _ _ _ Hp) in H.
  - intros _. split; [by right | by left].
Qed.

Lemma wp_check_interrupt (Q : unit → vp → Prop) (F : vp → Prop) s th :
  inv s → threads s !! this_thread s = Some th → context th = None →
  Q tt s → (∀ s', inv s' → this_thread s' = this_thread s → idle_thread s' = idle_thread s → F s') →
  wp check_interrupt Q F s.
Proof.
  intros Hi Ht Hc HQ HF. destruct (running_nowhere s th Hi Ht Hc) as (Hf & Hs & Hsl & Hte & Hid).
  unfold check_interrupt. apply wp_bind, wp_gets, wp_bind, (wp_the_thread _ _ _ _ th); [done |].
  apply wp_if; [| done]. intros _. apply wp_bind, (wp_upd _ _ _ _ _ _ _ _ Hf). intros s1 E1 Hf1.
  assert (this_thread s1 = this_thread s) as Et by (by subst).
  assert (idle_thread s1 = idle_thread s) as Ei by (by subst). apply wp_fail, HF.
  2: exact Et. 2: exact Ei.
  rewrite <- Et in Hf1. apply (inv_current _ _ _ _ eq_refl Hf1); [| done | by cbn; rewrite Hc].
  pose proof (set_clear_flags (flags th)) as Hfl. cbn [id] in *.
  apply live_running_nowhere; try done; cbn.
  - apply Hf1.
  - destruct Hfl as (_ & _ & _ & _ & _ & _ & _ & _ & _ & -> & _). done.
  - destruct Hfl as (_ & _ & _ & _ & _ & _ & _ & _ & _ & _ & -> & _). by rewrite Et, Ei.
Qed.

(** The running thread [me] is suspended in [k]. *)
Lemma wp_switch me (k : call) th p s (Q : unit → vp → Prop) F :
  this_thread s = me → focus me me th p s → state th ≠ RUNNING →
  (∀ s1, at_place s1 me p → kept s s1 → live me s1 me (with_context (Some k) th)) →
  (∀ s', ok s' → Q tt s') → wp (_ST_SWITCH_CONTEXT k) Q F s.
Proof.
  intros <- Hf Hs Hl HQ. unfold _ST_SWITCH_CONTEXT. apply wp_bind, wp_gets. cbn [id].
  apply wp_bind, (wp_upd _ _ _ _ _ _ _ _ Hf). intros s1 E1 Hf1.
  assert (between s1) as Hb.
  { apply (between_place _ _ _ _ Hf1); [apply Hl; [apply Hf1 | by subst] | by intros ?]. }
  eapply wp_mono; [| | apply (schedule_ok s1 F Hb)]; [| done]. intros [] s' [Hi _]. by apply HQ.
Qed.

(** The clauses of [live_place] that are decided by computing. *)
Ltac place_done :=
  cbn; try done; try (split; [done | by intros []]); try (split; [by intros [] | done]).

(** ** [st_usleep] *)
Definition user s : Prop :=
  this_thread s ≠ idle_thread s ∧ ∃ th, threads s !! this_thread s = Some th ∧ context th = None.

(** The heap index is an [int]. *)
Definition room s : Prop := sleepq_size (sleep_q s) + 1 < 2 ^ 31.

Lemma ok_user s : user s → ∀ s', inv s' → this_thread s' = this_thread s → idle_thread s' = idle_thread s → ok s'.
Proof. intros [Hu _] s' Hi Et Ei. split; [done |]. intros H. congruence. Qed.

Lemma usleep_enter_ok us s : inv s → user s → room s → wp (st_usleep_enter us) (λ _, ok) ok s.
Proof.
  intros Hi Hu Hr. pose proof Hu as (Hni & th & Ht & Hc). destruct (running_nowhere s th Hi Ht Hc) as (Hf & Hs & Hsl & Hte & Hid).
  unfold st_usleep_enter. apply wp_bind, (wp_check_interrupt _ _ _ th); try done; [| by apply ok_user].
  apply wp_bind, wp_gets. cbn [id]. apply wp_bind, wp_if; intros _.
  - apply (wp_upd _ _ _ _ _ _ _ _ Hf). intros s1 E1 Hf1.
    assert (this_thread s1 = this_thread s) as Et by (by subst).
    apply (wp_switch _ _ _ _ _ _ _ Et Hf1); [done | | done].
    intros s2 Hp Hk. apply (live_place _ _ _ _ _ Hp); place_done.
    + split; [done |]. intros H. by apply (at_sleep _ _ _ Hp) in H.
    + destruct Hk as (-> & _). by subst s1.
    + destruct Hk as (-> & _). by subst s1.
  - apply wp_bind, (wp_upd _ _ _ _ _ _ _ _ Hf). intros s1 E1 Hf1.
    apply (wp_add_sleepq _ _ _ _ _ _ _ _ Hf1); [done | by subst |].
    intros s2 th2 q -> E2 _ Hf2. assert (this_thread s2 = this_thread s) as Et by (by subst).
    apply (wp_switch _ _ _ _ _ _ _ Et Hf2); [done | | done].
    pose proof (set_clear_flags (flags th)) as (F1 & F2 & _).
    intros s3 Hp Hk. apply (live_place _ _ _ _ _ Hp); place_done.
    + split; [done |]. by apply (at_sleep _ _ _ Hp).
    + rewrite F2. destruct Hk as (-> & _). by subst s2 s1.
    + destruct Hk as (-> & _). by subst s2 s1.
Qed.

(** ** Resuming *)
Definition context_place s t (k : option call) : place :=
  match k with
  | Some (In_cond c) => set_cond (Some c) nowhere
  | Some (In_mutex m) => set_mutex_place (Some m) nowhere
  | Some In_poll =>
      Place false (match pollqs s !! t with Some q => on_ioq q | None => false end) false
        (pollqs s !! t) None None
  | _ => nowhere
  end.

Lemma running_place s th :
  inv s → threads s !! this_thread s = Some th →
  place_of s (this_thread s) th = context_place s (this_thread s) (context th) ∧
  has_flag (flags th) _ST_FL_ON_SLEEPQ = false ∧ state th = RUNNING ∧ live (this_thread s) s (this_thread s) th.
Proof.
  intros Hi Ht. destruct (running s Hi) as (th' & Ht' & Hs & _ & Hl). rewrite Ht in Ht'. injection Ht' as <-.
  pose proof (live_state _ _ _ _ Hl) as Hst. unfold state_ok in Hst. rewrite Hs in Hst. destruct Hst as [_ Hns].
  assert (has_flag (flags th) _ST_FL_ON_SLEEPQ = false) as Hfl.
  { apply not_true_is_false. intros H. by apply Hns, (live_sleep _ _ _ _ Hl). }
  split_and!; [| done | done | done]. unfold place_of. rewrite Hfl.
  rewrite bool_decide_false by (rewrite (live_run _ _ _ _ Hl), Hs; intros []; done).
  rewrite (place_io _ _ _ _ Hl). pose proof (live_poll _ _ _ _ Hl) as Hp. unfold context_place, nowhere.
  destruct (pollqs s !! this_thread s) as [q |] eqn:Eq.
  - assert (context th = Some In_poll) as -> by (apply Hp; by eexists). done.
  - destruct (context th) as [[]|]; try done.
Qed.

Lemma wp_resume s th (Q : Z → vp → Prop) F :
  inv s → threads s !! this_thread s = Some th →
  (∀ s', s' = with_threads (<[this_thread s := with_context None th]> (threads s)) s →
    focus (this_thread s) (this_thread s) (with_context None th)
      (context_place s (this_thread s) (context th)) s' → Q (this_thread s) s') →
  wp resume Q F s.
Proof.
  intros Hi Ht HQ. pose proof (focus_intro s _ th Hi Ht) as Hf.
  destruct (running_place s th Hi Ht) as (Hp & _). rewrite Hp in Hf.
  unfold resume. apply wp_bind, wp_gets. cbn [id].
  apply wp_bind, (wp_upd _ _ _ _ _ _ _ _ Hf). intros s1 E1 Hf1. apply wp_ret. by apply HQ.
Qed.

(** The resumed thread is on no queue any more and runs its own code. *)
Lemma inv_resumed me th s :
  this_thread s = me → focus me me th nowhere s → state th = RUNNING → context th = None →
  has_flag (flags th) _ST_FL_ON_SLEEPQ = false → term th = None →
  (has_flag (flags th) _ST_FL_IDLE_THREAD = true ↔ me = idle_thread s) → inv s.
Proof.
  intros <- Hf Hs Hc Hfl Ht Hid. apply (inv_current _ _ _ _ eq_refl Hf); [| done | by rewrite Hc].
  apply live_running_nowhere; try done. apply Hf.
Qed.

Definition suspended_in s (k : call) : Prop :=
  ∃ th, threads s !! this_thread s = Some th ∧ context th = Some k.

(** From [resume] on with the context of [In_usleep] or [Start]. *)
Lemma resume_plain s k (Q : Z → vp → Prop) F :
  inv s → suspended_in s k → k = In_usleep ∨ k = Start ∨ k = In_idle →
  (∀ s' th, inv s' → idle_thread s' = idle_thread s → this_thread s' = this_thread s →
    threads s' !! this_thread s' = Some th → context th = None → Q (this_thread s) s') →
  wp resume Q F s.
Proof.
  intros Hi (th & Ht & Hc) Hk HQ. destruct (running_place s th Hi Ht) as (_ & Hfl & Hs & Hl).
  apply (wp_resume s th); try done. intros s' E' Hf. rewrite Hc in Hf.
  assert (context_place s (this_thread s) (Some k) = nowhere) as Hn by (by destruct Hk as [-> | [-> | ->]]).
  rewrite Hn in Hf. assert (this_thread s' = this_thread s) as Et by (by subst).
  assert (idle_thread s' = idle_thread s) as Ei by (by subst).
  apply (HQ s' (with_context None th)); try done.
  - apply (inv_resumed _ _ _ Et Hf); try done; [apply Hl |]. rewrite Ei. apply Hl.
  - rewrite Et. apply Hf.
Qed.

Lemma usleep_leave_ok s :
  inv s → suspended_in s In_usleep → this_thread s ≠ idle_thread s → wp st_usleep_leave (λ _, ok) ok s.
Proof.
  intros Hi Hc Hni. unfold st_usleep_leave. apply wp_bind, (resume_plain s In_usleep); auto.
  intros s' th Hi' Ei Et Ht' Hc'.
  assert (user s') as Hu by (split; [by rewrite Et, Ei | by exists th]).
  apply (wp_check_interrupt _ _ _ th); try done; [by apply (ok_user s') | by apply ok_user].
Qed.

(** ** [st_thread_interrupt] *)
(** A suspended thread [t] is made runnable. *)
Lemma made_runnable s s' t th th' :
  inv s → threads s !! t = Some th → state th ≠ RUNNING → state th ≠ RUNNABLE →
  kept s s' → threads s' = <[t := th']> (threads s) →
  focus t (this_thread s) th' (set_run true (set_sleep false (place_of s t th))) s' →
  state th' = RUNNABLE → context th' = context th → term th' = term th →
  has_flag (flags th') _ST_FL_ON_SLEEPQ = false →
  has_flag (flags th') _ST_FL_IDLE_THREAD = has_flag (flags th) _ST_FL_IDLE_THREAD →
  (∀ m, context th = Some (In_mutex m) → owns s m t ∨ has_flag (flags th') _ST_FL_INTERRUPT = true) →
  inv s'.
Proof.
  intros Hi Ht Hr Hrb (Ei & Eth & Em & _) Et' Hf' Hs' Hcw Htw F4 F5 Hm.
  pose proof (inv_thread s t Hi) as Hok. unfold thread_ok in Hok. rewrite Ht in Hok.
  assert (t ≠ this_thread s) as Hne.
  { intros ->. destruct (inv_this s Hi) as (th0 & Ht0 & ? & _). rewrite Ht in Ht0. by injection Ht0 as <-. }
  pose proof (place_io _ _ _ _ Hok) as Hio.
  destruct Hok as [L1 L2 L3 L4 L5 L6 L7 L8 L9 L10 L11].
  assert (t ≠ idle_thread s) as Hni by (intros H; destruct (L10 H) as [[] _]; done).
  assert (context th ≠ None ∧ context th ≠ Some Exited) as [Hc1 Hc2].
  { unfold state_ok in L7. destruct (state th); try done;
      [destruct L7 as [L7 _] | destruct L7 as [(m & L7 & _) _] | destruct L7 as [c L7]
      | destruct L7 as [L7 _] | destruct L7 as [L7 _]]; by rewrite L7. }
  assert (live (this_thread s) s' t th') as Hlive.
  { apply (live_place _ _ _ _ _ (fo_place _ _ _ _ _ Hf')); rewrite ?Hcw, ?Htw, ?Ei, ?F4, ?F5; cbn; try done.
    - intros c. destruct (context th) as [[]|]; naive_solver.
    - intros m. destruct (context th) as [[]|]; naive_solver.
    - unfold state_ok. rewrite Hs', Hcw. split_and!; try done.
      intros H. by apply (at_sleep _ _ _ (fo_place _ _ _ _ _ Hf')) in H.
    - intros m Hcm. destruct (Hm m Hcm) as [(y & Hy & Ho) | Hfl]; [right; left | by right; right].
      exists y. by rewrite Em. }
  split.
  - intros x. rewrite Eth. destruct (fo_inv _ _ _ _ _ Hf') as [I1 I2 I3 I4 I5 I6 I7 I8 I9 I10].
    split; try done. intros y _. destruct (decide (y = t)) as [-> | Hy]; [| by apply I8].
    unfold thread_ok. by rewrite (fo_thread _ _ _ _ _ Hf').
  - destruct (inv_this s Hi) as (th0 & Ht0 & Hs0). exists th0. rewrite Eth, Et', lookup_insert_ne by done. done.
Qed.

Lemma woken_flags th f :
  has_flag (flags (woken th)) f =
  has_flag (if has_flag (flags th) _ST_FL_ON_SLEEPQ then clear_flag (flags th) _ST_FL_ON_SLEEPQ else flags th) f.
Proof. unfold woken. by destruct (has_flag (flags th) _ST_FL_ON_SLEEPQ). Qed.

Lemma woken_same th :
  context (woken th) = context th ∧ term (woken th) = term th ∧
  has_flag (flags (woken th)) _ST_FL_ON_SLEEPQ = false ∧
  has_flag (flags (woken th)) _ST_FL_IDLE_THREAD = has_flag (flags th) _ST_FL_IDLE_THREAD ∧
  has_flag (flags (woken th)) _ST_FL_INTERRUPT = has_flag (flags th) _ST_FL_INTERRUPT.
Proof.
  pose proof (set_clear_flags (flags th)) as (_ & _ & _ & F4 & F5 & F6 & _).
  rewrite !woken_flags. unfold woken.
  destruct (has_flag (flags th) _ST_FL_ON_SLEEPQ) eqn:Es; by rewrite ?F4, ?F5, ?F6.
Qed.

Lemma wake_inv s t th F :
  inv s → threads s !! t = Some th → state th ≠ RUNNING → state th ≠ RUNNABLE →
  has_flag (flags th) _ST_FL_INTERRUPT = true ∨ (∀ m, context th ≠ Some (In_mutex m)) →
  wp (wake t) (λ _ s', inv s' ∧ kept s s' ∧ run_q s' = run_q s ++ [t] ∧
    threads s' = <[t := woken th]> (threads s)) F s.
Proof.
  intros Hi Ht Hr Hrb Hm. pose proof (inv_thread s t Hi) as Hok. unfold thread_ok in Hok. rewrite Ht in Hok.
  pose proof (focus_intro s t th Hi Ht) as Hf.
  apply (wp_wake _ _ _ _ _ _ _ Hf); [| done |].
  { cbn. apply bool_decide_eq_false. rewrite (live_run _ _ _ _ Hok). by intros []. }
  intros s' Hk Er Et' Hf'. split; [| done].
  destruct (woken_same th) as (W1 & W2 & W3 & W4 & W5).
  apply (made_runnable s s' t th (woken th)); try done.
  intros m Hcm. rewrite W5. destruct Hm as [Hm | Hm]; [by right | by destruct (Hm m)].
Qed.

Lemma interrupt_ok s t :
  inv s → is_Some (threads s !! t) → wp (st_thread_interrupt t) (λ _, inv) inv s.
Proof.
  intros Hi [th Ht]. unfold st_thread_interrupt.
  pose proof (inv_thread s t Hi) as Hok. unfold thread_ok in Hok. rewrite Ht in Hok.
  apply wp_bind, (wp_the_thread _ _ _ _ th); [done |]. apply wp_if; [by intros _; apply wp_ret |]. intros _.
  pose proof (focus_intro s t th Hi Ht) as Hf.
  apply wp_bind, (wp_upd _ _ _ _ _ _ _ _ Hf). intros s1 E1 Hf1.
  set (th1 := with_flags (set_flag (flags th) _ST_FL_INTERRUPT) th) in *.
  pose proof (set_clear_flags (flags th)) as (_ & _ & _ & _ & _ & _ & F7 & F8 & F9 & _).
  assert (inv s1) as Hi1.
  { assert (live (this_thread s) s1 t th1) as Hl1.
    { destruct Hok as [L1 L2 L3 L4 L5 L6 L7 L8 L9 L10 L11]. subst s1. split; try done; cbn.
      - by rewrite F8.
      - intros m _. right. right. apply F7.
      - by rewrite F9. }
    split.
    - intros x. destruct (fo_inv _ _ _ _ _ Hf1) as [I1 I2 I3 I4 I5 I6 I7 I8 I9 I10].
      assert (this_thread s1 = this_thread s) as -> by (by subst s1).
      split; try done. intros y _. destruct (decide (y = t)) as [-> | Hy]; [| by apply I8].
      unfold thread_ok. by rewrite (fo_thread _ _ _ _ _ Hf1).
    - destruct (inv_this s Hi) as (th' & Ht' & Hs' & Hc'). subst s1. cbn.
      destruct (decide (this_thread s = t)) as [<- | Hne].
      + exists th1. rewrite lookup_insert_eq. rewrite Ht in Ht'. injection Ht' as <-. done.
      + exists th'. by rewrite lookup_insert_ne. }
  apply wp_if; [by intros _; apply wp_ret |]. intros Hb. apply orb_false_iff in Hb as [Hb1 Hb2].
  apply bool_decide_eq_false in Hb1, Hb2.
  eapply wp_mono; [| | apply (wake_inv s1 t th1 (λ _, False))]; [by intros [] s' [? _] | done | done
    | apply Hf1 | done | done | left; apply F7].
Qed.

(** ** The clock *)
(** [s'] is [s] after the threads in [l] were woken at the time [now]. *)
Record woke (now : Z) (l : list Z) s s' : Prop := {
  woke_run : run_q s' = run_q s ++ l;
  woke_due t : t ∈ l ↔ ∃ d, sleeping (sleep_q s) !! t = Some d ∧ d <= now;
  woke_order : StronglySorted (λ t u, ∃ d e, sleeping (sleep_q s) !! t = Some d ∧
    sleeping (sleep_q s) !! u = Some e ∧ d <= e) l;
  woke_rest : sleeping (sleep_q s') = filter (λ e, now < e.2) (sleeping (sleep_q s));
  woke_other : ∀ t, t ∉ l → threads s' !! t = threads s !! t;
  woke_kept : kept s s';
}.

Lemma asleep_thread s t :
  inv s → asleep s t →
  ∃ th, threads s !! t = Some th ∧ live (this_thread s) s t th ∧
    has_flag (flags th) _ST_FL_ON_SLEEPQ = true ∧ state th ≠ RUNNING ∧ state th ≠ RUNNABLE ∧
    (∀ m, context th ≠ Some (In_mutex m)) ∧ has_flag (flags th) _ST_FL_IDLE_THREAD = false.
Proof.
  intros Hi Ha. pose proof (inv_thread s t Hi) as Hok. unfold thread_ok in Hok.
  destruct (threads s !! t) as [th |]; [| by destruct Hok as (_ & _ & ? & _)].
  exists th. split; [done |]. split; [done |]. destruct Hok as [L1 L2 L3 L4 L5 L6 L7 L8 L9 L10 L11].
  split; [by apply L2 |]. unfold state_ok in L7.
  assert (state th ≠ RUNNING ∧ state th ≠ RUNNABLE) as [H1 H2].
  { split; intros Es; rewrite Es in L7; naive_solver. }
  split_and!; [done | done | |].
  - intros m Hc. destruct (state th); naive_solver.
  - apply not_true_is_false. intros H. apply L9, L10 in H as [[] _]; done.
Qed.

(** One round that wakes the root. *)
Lemma clock_round s n l r (Q : unit → vp → Prop) F :
  inv s → root (sleep_q s) = Node n l r →
  (∀ s', inv s' → kept s s' → run_q s' = run_q s ++ [thread n] →
    sleeping (sleep_q s') = delete (thread n) (sleeping (sleep_q s)) →
    sleepq_size (sleep_q s') = sleepq_size (sleep_q s) - 1 →
    (∀ t, t ≠ thread n → threads s' !! t = threads s !! t) → Q tt s') →
  ∀ th, threads s !! thread n = Some th →
  wp (_ST_DEL_SLEEPQ (thread n) ;;
      (if bool_decide (state th = COND_WAIT)
       then upd (thread n) (λ th, with_flags (set_flag (flags th) _ST_FL_TIMEDOUT) th) else ret tt) ;;
      check (λ _, negb (has_flag (flags th) _ST_FL_IDLE_THREAD)) ;;
      make_runnable (thread n)) Q F s.
Proof.
  intros Hi Hn HQ th Ht. set (t := thread n) in *.
  assert (asleep s t) as Ha.
  { unfold asleep, sleeping. apply sleeping_dom. rewrite Hn. left. }
  destruct (asleep_thread s t Hi Ha) as (th' & Ht' & Hok & Hsl & Hr & Hrb & Hm & Hidf).
  rewrite Ht in Ht'. injection Ht' as <-.
  pose proof (focus_intro s t th Hi Ht) as Hf.
  apply wp_bind, (wp_del_sleepq _ _ _ _ _ _ _ Hf); [done |].
  intros s1 th1 q Eth1 E1 Hq Hsz Hf1. apply wp_bind.
  pose proof (set_clear_flags (flags th)) as (_ & _ & _ & F4 & F5 & F6 & _).
  pose proof (set_clear_flags (clear_flag (flags th) _ST_FL_ON_SLEEPQ)) as
    (_ & _ & _ & _ & _ & _ & _ & _ & _ & _ & _ & T1 & T2 & T3 & _).
  set (th2 := if bool_decide (state th = COND_WAIT)
    then with_flags (set_flag (flags th1) _ST_FL_TIMEDOUT) th1 else th1).
  assert (∀ (Q' : unit → vp → Prop),
    (∀ s2, s2 = with_threads (<[t := th2]> (threads s1)) s1 →
      focus t (this_thread s) th2 (set_sleep false (place_of s t th)) s2 → Q' tt s2) →
    wp (if bool_decide (state th = COND_WAIT)
       then upd t (λ th, with_flags (set_flag (flags th) _ST_FL_TIMEDOUT) th) else ret tt) Q' F s1) as Hto.
  { intros Q' HQ'. unfold th2 in HQ'. destruct (bool_decide (state th = COND_WAIT)).
    - apply (wp_upd _ _ _ _ _ _ _ _ Hf1). intros s2 E2 Hf2. by apply HQ'.
    - apply wp_ret, HQ'.
      + destruct s1. cbn. unfold with_threads. cbn. f_equal. symmetry. apply insert_id.
        apply (fo_thread _ _ _ _ _ Hf1).
      + assert (with_threads (<[t := th1]> (threads s1)) s1 = s1) as Eid.
        { destruct s1. unfold with_threads. cbn. f_equal. apply insert_id. apply (fo_thread _ _ _ _ _ Hf1). }
        exact Hf1. }
  apply Hto. intros s2 E2 Hf2. apply wp_bind, wp_check; [by rewrite Hidf |].
  assert (p_run (set_sleep false (place_of s t th)) = false) as Hpr.
  { cbn. apply bool_decide_eq_false. rewrite (live_run _ _ _ _ Hok). by intros []. }
  apply (wp_make_runnable _ _ _ _ _ _ _ Hf2 Hpr). intros s3 K3 S3 R3 T3' Hf3.
  assert (kept s s3) as Hk by (eapply kept_trans; [| exact K3]; by subst s2 s1).
  assert (threads s3 = <[t := with_state RUNNABLE th2]> (threads s)) as Et3.
  { rewrite T3'. subst s2 s1. cbn. by rewrite !insert_insert_eq. }
  apply HQ; [| done | | | |].
  - apply (made_runnable s s3 t th (with_state RUNNABLE th2)); try done; unfold th2; cbn;
      destruct (bool_decide (state th = COND_WAIT)); subst th1; cbn; try done; try congruence;
      intros m Hc; by destruct (Hm m).
  - rewrite R3. by subst s2 s1.
  - rewrite S3. by subst s2 s1.
  - rewrite S3. by subst s2 s1.
  - intros u Hu. by rewrite Et3, lookup_insert_ne.
Qed.

Lemma wp_bind_four (a b c d k : M vp unit) (Q : unit → vp → Prop) F s :
  wp (a ;; b ;; c ;; d) (λ _, wp k Q F) F s → wp (a ;; b ;; c ;; d ;; k) Q F s.
Proof.
  unfold wp, bind. destruct (a s) as [[] s1]; auto. destruct (b s1) as [[] s2]; auto.
  destruct (c s2) as [[] s3]; auto. destruct (d s3) as [[] s4]; auto.
Qed.

Lemma woke_nothing now s :
  (∀ t d, sleeping (sleep_q s) !! t = Some d → now < d) → woke now [] s s.
Proof.
  intros H. split; try done; [by rewrite app_nil_r | | constructor |].
  - intros t. split; [by intros ?%not_elem_of_nil |]. intros (d & Hd & Hle). specialize (H t d Hd). lia.
  - symmetry. apply map_filter_id. intros t d Hd. by apply (H t).
Qed.

Lemma StronglySorted_weaken (R R' : Z → Z → Prop) l :
  (∀ u v, R u v → R' u v) → StronglySorted R l → StronglySorted R' l.
Proof.
  intros H. induction 1 as [| u l Hl IH Hf]; constructor; [done |]. eapply Forall_impl; [exact Hf | auto].
Qed.

Lemma woke_cons now t d l s s1 s' :
  sleeping (sleep_q s) !! t = Some d → d <= now →
  (∀ u e, sleeping (sleep_q s) !! u = Some e → d <= e) →
  run_q s1 = run_q s ++ [t] → sleeping (sleep_q s1) = delete t (sleeping (sleep_q s)) →
  (∀ u, u ≠ t → threads s1 !! u = threads s !! u) → kept s s1 →
  woke now l s1 s' → woke now (t :: l) s s'.
Proof.
  intros Ht Hd Hmin Hr Hs Hth Hk [W1 W2 W3 W4 W5 W6]. rewrite Hs in *. split.
  - by rewrite W1, Hr, <- app_assoc.
  - intros u. rewrite elem_of_cons, W2. split.
    + intros [-> | (e & He & Hle)]; [by exists d |]. apply lookup_delete_Some in He as [_ He]. by exists e.
    + intros (e & He & Hle). destruct (decide (u = t)) as [-> | Hne]; [by left | right].
      exists e. by rewrite lookup_delete_ne.
  - constructor.
    + eapply StronglySorted_weaken; [| exact W3]. cbn. intros u v (e1 & e2 & H1 & H2 & H3).
      apply lookup_delete_Some in H1 as [_ H1]. apply lookup_delete_Some in H2 as [_ H2]. eauto.
    + apply Forall_forall. intros u Hu. apply W2 in Hu as (e & He & _).
      apply lookup_delete_Some in He as [_ He]. exists d, e. eauto.
  - rewrite W4. apply map_filter_delete_not. intros e He. rewrite Ht in He. injection He as <-. cbn. lia.
  - intros u Hu. rewrite not_elem_of_cons in Hu. destruct Hu. rewrite W5 by done. by apply Hth.
  - by eapply kept_trans.
Qed.

Lemma check_clock_loop_ok fuel now s F :
  inv s → sleepq_size (sleep_q s) < Z.of_nat fuel →
  wp (check_clock_loop fuel now) (λ _ s', inv s' ∧ ∃ l, woke now l s s') F s.
Proof.
  revert s. induction fuel as [| fuel IH]; intros s Hi Hfuel.
  { pose proof (proj2 (ib_sleep _ _ _ (inv_all s Hi 0))). lia. }
  pose proof (ib_sleep _ _ _ (inv_all s Hi 0)) as Hq.
  cbn [check_clock_loop]. apply wp_bind, wp_gets. cbn [id].
  destruct (root (sleep_q s)) as [| n l r] eqn:En.
  - apply wp_ret. split; [done |]. exists []. apply woke_nothing. intros t d Hd.
    apply (sleepq_root_null _ Hq) in En. rewrite En in Hd. by rewrite lookup_empty in Hd.
  - assert (sleeping (sleep_q s) !! thread n = Some (due n)) as Hn.
    { unfold sleeping. apply (sleeping_entries _ _ (key n) (proj1 Hq)). rewrite En. left. }
    assert (∀ u e, sleeping (sleep_q s) !! u = Some e → due n <= e) as Hmin.
    { intros u e Hu. by apply (sleepq_root_first _ n l r u e Hq En). }
    destruct (asleep_thread s (thread n) Hi) as (th & Ht & Hok & Hsl & Hr & Hrb & Hm & Hidf).
    { unfold asleep. apply elem_of_dom. by eexists. }
    apply wp_bind, (wp_the_thread _ _ _ _ th); [done |]. apply wp_bind, wp_check; [by rewrite Hsl |].
    apply wp_if; intros Hd.
    + apply Z.ltb_lt in Hd. apply wp_ret. split; [done |]. exists []. apply woke_nothing.
      intros t d Htd. specialize (Hmin t d Htd). lia.
    + apply Z.ltb_ge in Hd. apply wp_bind_four.
      apply (clock_round s n l r); [done | done | | done].
      intros s1 Hi1 Hk1 Hr1 Hs1 Hsz1 Hth1.
      eapply wp_mono; [| | apply (IH s1 Hi1); lia]; [| done].
      intros [] s' [Hi' [l' Hw]]. split; [done |]. exists (thread n :: l').
      by apply (woke_cons now (thread n) (due n) l' s s1 s').
Qed.

Lemma with_last_clock_inv now s : inv s → inv (with_last_clock now s).
Proof.
  intros Hi. split.
  - intros t. destruct (inv_all s Hi t) as [I1 I2 I3 I4 I5 I6 I7 I8 I9 I10]. split; try done.
    intros x Hx. apply (same_view_ok _ s); [by split | by apply I8].
  - apply (inv_this s Hi).
Qed.

Lemma with_time_cache_inv secs now s : inv s → inv (with_time_cache secs now s).
Proof.
  intros Hi. split.
  - intros t. destruct (inv_all s Hi t) as [I1 I2 I3 I4 I5 I6 I7 I8 I9 I10]. split; try done.
    intros x Hx. apply (same_view_ok _ s); [by split | by apply I8].
  - apply (inv_this s Hi).
Qed.

Lemma check_clock_ok now secs s F :
  inv s → wp (_st_vp_check_clock now secs) (λ _ s', inv s' ∧ ∃ l, woke now l (with_last_clock now s) s') F s.
Proof.
  intros Hi. unfold _st_vp_check_clock. apply wp_bind, wp_modify. set (s1 := with_last_clock now s).
  assert (∀ s2, inv s2 → sleep_q s2 = sleep_q s →
    (∀ l s', woke now l s2 s' → woke now l s1 s') →
    wp (s <- gets id ;; check_clock_loop (S (Z.to_nat (sleepq_size (sleep_q s)))) now)
      (λ _ s', inv s' ∧ ∃ l, woke now l s1 s') F s2) as H.
  { intros s2 Hi2 Es Hw. apply wp_bind, wp_gets. cbn [id].
    eapply wp_mono; [| | apply (check_clock_loop_ok _ now s2 F Hi2)]; [| done |].
    - cbn beta. intros _ s' (Hi' & l & Hl). split; [done |]. exists l. by apply Hw.
    - pose proof (proj2 (ib_sleep _ _ _ (inv_all s2 Hi2 0))). lia. }
  assert (inv s1) as Hi1 by (by apply with_last_clock_inv).
  apply wp_bind. unfold refresh_time_cache. apply wp_bind, wp_gets. cbn [id]. apply wp_if; intros _.
  - apply wp_modify, H; [by apply with_time_cache_inv | done |]. intros l s' []. by split.
  - apply wp_ret, H; [done | done | done].
Qed.
End sched.
