(* ===== verification/SchedOps.v ===== *)
(** * Every call of a thread keeps the invariant of Sched.v *)

From stdpp Require Import base list sets gmap.
From Stdlib Require Import Lia ZArith Sorting.Sorted.
From S2P Require Import Prelude.
From S2P Require Import Bytes.
From S2P Require Import TimeoutHeap.
From S2P Require Import Vp.
From S2P Require Import Sync.
From S2P Require Import Sched.

Local Open Scope Z_scope.

Section ops.
Context {E : Type} `{!EventSys E, !EventSysLaws E}.
Notation vp := (@_st_vp E).
Implicit Types (s : vp) (x t c m : Z) (th : _st_thread).

(** ** Condition variables *)
Lemma focus_cond t cur th p s c l l' k :
  focus t cur th p s → conds s !! c = Some l → NoDup l' →
  (∀ x, x ≠ t → x ∈ l' ↔ x ∈ l) →
  (∀ c', waits_cond (with_conds (<[c := l']> (conds s)) s) c' t ↔ k = Some c') →
  focus t cur th (set_cond k p) (with_conds (<[c := l']> (conds s)) s).
Proof.
  intros [Hi Ht Hp] Hc Hnd Hx Hk. split; [| done |].
  - apply (inv_but_step t cur s); try done; try apply Hi.
    + intros x Hne. split; try done. intros c'. unfold waits_cond. cbn.
      destruct (decide (c' = c)) as [-> |].
      * rewrite lookup_insert_eq, Hc.
        split; intros (l0 & [= <-] & Hl0); eexists; (split; [done |]); by apply Hx.
      * by rewrite lookup_insert_ne.
    + cbn. intros c' l0 Hl0. destruct (decide (c' = c)) as [-> |].
      * rewrite lookup_insert_eq in Hl0. by injection Hl0 as <-.
      * rewrite lookup_insert_ne in Hl0 by done. by apply (ib_conds _ _ _ Hi c').
  - destruct Hp. by split.
Qed.

Lemma wp_wait_q c l (Q : list Z → vp → Prop) F s : conds s !! c = Some l → Q l s → wp (wait_q c) Q F s.
Proof. intros Hc. unfold wp, wait_q. by rewrite Hc. Qed.

Lemma wp_cond_append c t (Q : unit → vp → Prop) F cur th p s l :
  focus t cur th p s → conds s !! c = Some l → p_cond p = None →
  (∀ s', s' = with_conds (<[c := l ++ [t]]> (conds s)) s →
    focus t cur th (set_cond (Some c) p) s' → Q tt s') →
  wp (cond_append c t) Q F s.
Proof.
  intros Hf Hc Hp HQ.
  assert (∀ c' l', conds s !! c' = Some l' → t ∉ l') as Hn.
  { intros c' l' Hl' Hin. assert (p_cond p = Some c') as H; [| congruence].
    apply (at_cond _ _ _ (fo_place _ _ _ _ _ Hf)). by exists l'. }
  unfold cond_append. apply wp_bind, (wp_wait_q _ l); [done |].
  apply wp_bind, wp_check; [by rewrite bool_decide_true by eauto |].
  apply HQ; [done |]. apply (focus_cond _ _ _ _ _ c l); [done | done | | |].
  - apply NoDup_app. split_and!; [by eapply ib_conds; [apply Hf |] | | apply NoDup_singleton].
    intros x Hx Hxt. apply list_elem_of_singleton in Hxt as ->. by apply (Hn c l).
  - intros x Hx. set_solver.
  - intros c'. unfold waits_cond. cbn. destruct (decide (c' = c)) as [-> |].
    + rewrite lookup_insert_eq. split; [done |]. intros _. eexists. split; [done | set_solver].
    + rewrite lookup_insert_ne by done. split; [| congruence]. intros (l' & Hl' & Hin).
      by destruct (Hn c' l' Hl').
Qed.

Lemma wp_cond_remove c t (Q : unit → vp → Prop) F cur th p s :
  focus t cur th p s → p_cond p = Some c →
  (∀ s' l, conds s !! c = Some l → s' = with_conds (<[c := remove t l]> (conds s)) s →
    focus t cur th (set_cond None p) s' → Q tt s') →
  wp (cond_remove c t) Q F s.
Proof.
  intros Hf Hp HQ.
  destruct (proj2 (at_cond _ _ _ (fo_place _ _ _ _ _ Hf) c) Hp) as (l & Hl & Hin).
  unfold cond_remove. apply wp_bind, (wp_wait_q _ l); [done |].
  apply wp_bind, wp_check; [by rewrite bool_decide_true |].
  apply (HQ _ l); [done | done |]. apply (focus_cond _ _ _ _ _ c l); [done | done | | |].
  - apply NoDup_remove. by eapply ib_conds; [apply Hf |].
  - intros x Hx. rewrite elem_of_remove. tauto.
  - intros c'. unfold waits_cond. cbn. split; [| done]. destruct (decide (c' = c)) as [-> |].
    + rewrite lookup_insert_eq. intros (l' & [= <-] & H'). rewrite elem_of_remove in H'. tauto.
    + rewrite lookup_insert_ne by done. intros (l' & Hl' & H'). assert (p_cond p = Some c'); [| congruence].
      apply (at_cond _ _ _ (fo_place _ _ _ _ _ Hf)). by exists l'.
Qed.

(** The end of a blocking call that leaves [th], on the queues of [p], suspended in [k]. *)
Lemma suspend me (k : call) th p s th0 F :
  this_thread s = me → focus me me th p s → state th ≠ RUNNING → me ≠ idle_thread s →
  p_run p = false → state th ≠ RUNNABLE →
  p_sleep p = has_flag (flags th) _ST_FL_ON_SLEEPQ →
  p_io p = match p_poll p with Some q => on_ioq q | None => false end →
  (is_Some (p_poll p) ↔ k = In_poll) →
  (∀ c, p_cond p = Some c ↔ k = In_cond c) → (∀ m, p_mutex p = Some m ↔ k = In_mutex m) →
  (∀ s1, at_place s1 me p → kept s s1 → state_ok me s1 me (with_context (Some k) th)) →
  (∀ m, k = In_mutex m → state th = LOCK_WAIT) →
  has_flag (flags th) _ST_FL_IDLE_THREAD = has_flag (flags th0) _ST_FL_IDLE_THREAD →
  (has_flag (flags th0) _ST_FL_IDLE_THREAD = true ↔ me = idle_thread s) → term th = None →
  wp (_ST_SWITCH_CONTEXT k) (λ _, ok) F s.
Proof.
  intros Ht Hf Hs Hni Hpr Hrb H1 H2 H3 H4 H5 Hst Hlk Hid0 Hid Hte.
  apply (wp_switch me _ th p); try done. intros s1 Hp Hk. pose proof Hk as (Ei & _).
  apply (live_place _ _ _ _ _ Hp); try done; cbn.
  - rewrite Hpr. split; [done | by intros []].
  - rewrite H3. split; [by intros -> | by intros [= ->]].
  - intros c. rewrite H4. split; [by intros -> | by intros [= ->]].
  - intros m. rewrite H5. split; [by intros -> | by intros [= ->]].
  - by apply Hst.
  - intros m [= Hm]. left. by apply (Hlk m).
  - by rewrite Hid0, Hid, Ei.
  - rewrite Ei. by intros ?%Hni.
Qed.

Lemma cond_wait_enter_ok c timeout s :
  inv s → user s → room s → is_Some (conds s !! c) →
  wp (st_cond_timedwait_enter c timeout) (λ _, ok) ok s.
Proof.
  intros Hi Hu Hr [l Hl]. pose proof Hu as (Hni & th & Ht & Hc).
  destruct (running_nowhere s th Hi Ht Hc) as (Hf & Hs & Hsl & Hte & Hid).
  unfold st_cond_timedwait_enter. apply wp_bind, (wp_check_interrupt _ _ _ th); try done; [| by apply ok_user].
  apply wp_bind, wp_gets. cbn [id]. apply wp_bind, (wp_upd _ _ _ _ _ _ _ _ Hf). intros s1 E1 Hf1.
  assert (conds s1 !! c = Some l) as Hl1 by (by subst).
  apply wp_bind, (wp_cond_append _ _ _ _ _ _ _ _ l Hf1 Hl1); [done |]. intros s2 E2 Hf2.
  apply wp_bind. unfold add_sleepq_unless_forever. apply wp_if; intros _.
  - apply wp_ret. assert (this_thread s2 = this_thread s ∧ idle_thread s2 = idle_thread s) as [Et Ei] by (by subst).
    apply (suspend _ _ _ _ _ th _ Et Hf2); cbn; try done; try by rewrite Ei.
    + intros c'. split; congruence.
    + intros s3 _ _. by exists c.
  - apply (wp_add_sleepq _ _ _ _ _ _ _ _ Hf2); [done | by subst |]. intros s3 th3 q E3' E3 _ Hf3.
    assert (this_thread s3 = this_thread s ∧ idle_thread s3 = idle_thread s) as [Et Ei] by (by subst).
    pose proof (set_clear_flags (flags th)) as (F1 & F2 & _). rewrite E3' in Hf3. cbn in Hf3.
    apply (suspend _ _ _ _ _ th _ Et Hf3); cbn; try done; try by rewrite Ei.
    + intros c'. split; congruence.
    + intros s4 _ _. by exists c.
Qed.

Definition cleared f th : _st_thread :=
  if has_flag (flags th) f then with_flags (clear_flag (flags th) f) th else th.

Lemma cleared_same f th :
  f = _ST_FL_TIMEDOUT ∨ f = _ST_FL_INTERRUPT →
  state (cleared f th) = state th ∧ context (cleared f th) = context th ∧ term (cleared f th) = term th ∧
  has_flag (flags (cleared f th)) _ST_FL_ON_SLEEPQ = has_flag (flags th) _ST_FL_ON_SLEEPQ ∧
  has_flag (flags (cleared f th)) _ST_FL_IDLE_THREAD = has_flag (flags th) _ST_FL_IDLE_THREAD.
Proof.
  intros Hf. pose proof (set_clear_flags (flags th)) as (_ & _ & _ & _ & _ & _ & _ & _ & _ & I1 & I2 & _ & _ & _ & T1 & T2 & _).
  unfold cleared. destruct (has_flag (flags th) f); [| done]. cbn. by destruct Hf as [-> | ->].
Qed.

Lemma wp_test_and_clear t f (Q : bool → vp → Prop) F cur th p s :
  focus t cur th p s →
  (∀ s', kept s s' → focus t cur (cleared f th) p s' → Q (has_flag (flags th) f) s') →
  wp (test_and_clear t f) Q F s.
Proof.
  intros Hf HQ. unfold test_and_clear. apply wp_bind, (wp_the_thread _ _ _ _ th); [apply Hf |].
  unfold cleared in HQ. destruct (has_flag (flags th) f).
  - apply wp_bind, (wp_upd _ _ _ _ _ _ _ _ Hf). intros s1 E1 Hf1. apply wp_ret.
    apply HQ; [by subst | done].
  - apply wp_ret. by apply HQ.
Qed.

Lemma cond_wait_leave_ok c s :
  inv s → suspended_in s (In_cond c) → this_thread s ≠ idle_thread s →
  wp (st_cond_timedwait_leave c) (λ _, ok) ok s.
Proof.
  intros Hi (th & Ht & Hc) Hni. destruct (running_place s th Hi Ht) as (_ & Hfl & Hs & Hl).
  unfold st_cond_timedwait_leave. apply wp_bind, (wp_resume s th); try done. intros s1 E1 Hf1.
  rewrite Hc in Hf1. cbn [context_place] in Hf1.
  apply wp_bind, (wp_cond_remove _ _ _ _ _ _ _ _ Hf1); [done |]. intros s2 l _ E2 Hf2.
  apply wp_bind, (wp_test_and_clear _ _ _ _ _ _ _ _ Hf2). intros s3 K3 Hf3.
  apply wp_bind, (wp_test_and_clear _ _ _ _ _ _ _ _ Hf3). intros s4 K4 Hf4.
  assert (this_thread s4 = this_thread s ∧ idle_thread s4 = idle_thread s) as [Et Ei].
  { destruct K3 as (K3i & K3t & _), K4 as (K4i & K4t & _). subst s2 s1. cbn in *. split; congruence. }
  assert (ok s4) as Hok.
  { split; [| intros H; congruence].
    destruct (cleared_same _ST_FL_TIMEDOUT (with_context None th)) as (A1 & A2 & A3 & A4 & A5); [by left |].
    destruct (cleared_same _ST_FL_INTERRUPT (cleared _ST_FL_TIMEDOUT (with_context None th)))
      as (B1 & B2 & B3 & B4 & B5); [by right |].
    apply (inv_resumed (this_thread s) _ _ Et Hf4); rewrite ?B1, ?B2, ?B3, ?B4, ?B5, ?A1, ?A2, ?A3, ?A4, ?A5, ?Ei;
      cbn; try done; apply Hl. }
  apply wp_if; intros _; [by apply wp_fail | by apply wp_ret].
Qed.

(** The threads of a wait queue that still wait in the state [st]. *)
Definition waiting (st : thread_state) s (q : list Z) : list Z :=
  filter (λ t, state <$> threads s !! t = Some st) q.

Lemma waiting_ext st s s' q :
  (∀ t, t ∈ q → threads s' !! t = threads s !! t) → waiting st s' q = waiting st s q.
Proof.
  intros H. unfold waiting. induction q as [| t q IH]; [done |].
  assert (threads s' !! t = threads s !! t) as Et by (apply H; left).
  assert (filter (λ t, state <$> threads s' !! t = Some st) q = filter (λ t, state <$> threads s !! t = Some st) q) as Eq.
  { apply IH. intros u Hu. apply H. by right. }
  destruct (decide (state <$> threads s !! t = Some st)) as [Hd | Hd].
  - rewrite !filter_cons_True by (by rewrite ?Et). by rewrite Eq.
  - rewrite !filter_cons_False by (by rewrite ?Et). by rewrite Eq.
Qed.

Lemma signal_loop_ok q (b : bool) s F :
  inv s → NoDup q → (∀ t, t ∈ q → is_Some (threads s !! t)) →
  wp (cond_signal_loop q b) (λ _ s', inv s' ∧ kept s s' ∧
    run_q s' = run_q s ++ (if b then waiting COND_WAIT s q else take 1 (waiting COND_WAIT s q))) F s.
Proof.
  revert s. induction q as [| t q IH]; intros s Hi Hnd Hq; cbn [cond_signal_loop].
  { apply wp_ret. split_and!; [done | done |]. cbn. destruct b; by rewrite app_nil_r. }
  destruct (Hq t ltac:(left)) as [th Ht]. apply NoDup_cons in Hnd as [Htq Hnd].
  apply wp_bind, (wp_the_thread _ _ _ _ th); [done |]. apply wp_if; intros Hb.
  - apply bool_decide_eq_true in Hb.
    assert (waiting COND_WAIT s (t :: q) = t :: waiting COND_WAIT s q) as ->.
    { unfold waiting. rewrite filter_cons_True; [done |]. by rewrite Ht, <- Hb. }
    pose proof (inv_thread s t Hi) as Hok. unfold thread_ok in Hok. rewrite Ht in Hok.
    apply wp_bind. eapply wp_mono; [| | apply (wake_inv s t th (λ _, False))]; [| done | done | done | congruence | congruence |].
    2: { right. intros m Hm. pose proof (live_state _ _ _ _ Hok) as H. unfold state_ok in H.
         rewrite Hb in H. destruct H as [c H]. congruence. }
    cbn beta. intros [] s1 (Hi1 & K1 & R1 & T1). destruct b.
    + eapply wp_mono; [| | apply (IH s1 Hi1 Hnd)]; [| done |].
      * cbn beta. intros [] s2 (Hi2 & K2 & R2). split_and!; [done | by eapply kept_trans |].
        rewrite R2, R1, <- app_assoc. cbn. f_equal. f_equal. apply waiting_ext. intros u Hu.
        rewrite T1, lookup_insert_ne; [done | by intros <-].
      * intros u Hu. rewrite T1. apply lookup_insert_is_Some.
        destruct (decide (t = u)); [by left | right]. split; [done |]. apply Hq. by right.
    + apply wp_ret. split_and!; [done | done |]. by rewrite R1.
  - apply bool_decide_eq_false in Hb.
    assert (waiting COND_WAIT s (t :: q) = waiting COND_WAIT s q) as ->.
    { unfold waiting. rewrite filter_cons_False; [done |]. rewrite Ht. cbn. congruence. }
    apply IH; [done | done |]. intros u Hu. apply Hq. by right.
Qed.

Lemma waiter_exists s c l t : inv s → conds s !! c = Some l → t ∈ l → is_Some (threads s !! t).
Proof.
  intros Hi Hl Ht. pose proof (inv_thread s t Hi) as H. unfold thread_ok in H.
  destruct (threads s !! t); [by eexists |]. destruct H as (_ & _ & _ & _ & H & _). destruct (H c). by exists l.
Qed.

Lemma signal_run c l (b : bool) s F :
  inv s → conds s !! c = Some l →
  wp (_st_cond_signal c b) (λ _ s', inv s' ∧ kept s s' ∧
    run_q s' = run_q s ++ (if b then waiting COND_WAIT s l else take 1 (waiting COND_WAIT s l))) F s.
Proof.
  intros Hi Hl. unfold _st_cond_signal. apply wp_bind, (wp_wait_q _ l); [done |].
  apply signal_loop_ok; [done | | intros t; by apply (waiter_exists s c l)].
  by apply (ib_conds _ _ _ (inv_all s Hi 0) c).
Qed.

Lemma ok_kept s s' : user s → inv s' → kept s s' → ok s'.
Proof. intros Hu Hi (Ei & Et & _). by apply (ok_user s). Qed.

Lemma signal_ok c (b : bool) s :
  inv s → user s → is_Some (conds s !! c) → wp (_st_cond_signal c b) (λ _, ok) ok s.
Proof.
  intros Hi Hu [l Hl]. eapply wp_mono; [| | apply (signal_run c l b s (λ _, False) Hi Hl)]; [| done].
  intros [] s' (Hi' & K & _). by apply (ok_kept s).
Qed.

(** A change of a condition variable or a mutex nobody waits for. *)
Lemma inv_step s s' :
  inv s → (∀ x, same_view s s' x) → this_thread s' = this_thread s → run_q s' = run_q s → io_q s' = io_q s →
  zombie_q s' = zombie_q s → sleep_q s' = sleep_q s → pollqs s' = pollqs s → eventsys s' = eventsys s →
  (∀ c l, conds s' !! c = Some l → NoDup l) → (∀ m y, mutexes s' !! m = Some y → NoDup (mwait_q y)) →
  inv s'.
Proof.
  intros Hi Hv Et Er Ei Ez Es Ep Ee Hc Hm. split.
  - intros t. rewrite Et. pose proof (inv_all s Hi t) as Hb.
    apply (inv_but_step t (this_thread s) s); rewrite ?Er, ?Ei, ?Ez, ?Es, ?Ep, ?Ee; try done; try apply Hb.
    destruct (Hv (idle_thread s)) as [Ht Hid]. rewrite Hid, Ht. apply Hb.
  - destruct (Hv (this_thread s)) as [Ht]. rewrite Et, Ht. apply (inv_this s Hi).
Qed.

Lemma same_view_conds s s' x :
  threads s' = threads s → idle_thread s' = idle_thread s → run_q s' = run_q s → io_q s' = io_q s →
  sleep_q s' = sleep_q s → pollqs s' = pollqs s → mutexes s' = mutexes s →
  (∀ c, waits_cond s' c x ↔ waits_cond s c x) → same_view s s' x.
Proof.
  intros E1 E2 E3 E4 E5 E6 E7 Hc. split; unfold asleep, waits_mutex, owns, owned;
    rewrite ?E1, ?E2, ?E3, ?E4, ?E5, ?E6, ?E7; done.
Qed.

Lemma cond_new_ok c s : inv s → user s → c ∉ dom (conds s) → wp (st_cond_new (Some c)) (λ _, ok) ok s.
Proof.
  intros Hi Hu Hc. cbn [st_cond_new]. apply wp_bind, wp_check; [by rewrite bool_decide_true |].
  apply wp_bind. unfold set_wait_q. apply wp_modify, wp_ret. apply (ok_user s Hu); [| done | done].
  apply not_elem_of_dom in Hc. apply (inv_step s); try done.
  - intros x. apply same_view_conds; try done. intros c'. unfold waits_cond. cbn.
    destruct (decide (c' = c)) as [-> |]; [| by rewrite lookup_insert_ne].
    rewrite lookup_insert_eq, Hc. split; [| by intros (? & ? & ?)].
    intros (l & [= <-] & H). by apply not_elem_of_nil in H.
  - cbn. intros c' l. destruct (decide (c' = c)) as [-> |].
    + rewrite lookup_insert_eq. intros [= <-]. constructor.
    + rewrite lookup_insert_ne by done. apply (ib_conds _ _ _ (inv_all s Hi 0)).
  - apply (ib_mutexes _ _ _ (inv_all s Hi 0)).
Qed.

Lemma cond_destroy_ok c s :
  inv s → user s → is_Some (conds s !! c) → wp (st_cond_destroy c) (λ _, ok) ok s.
Proof.
  intros Hi Hu [l Hl]. unfold st_cond_destroy. apply wp_bind, (wp_wait_q _ l); [done |].
  apply wp_if; intros Hb; [| by apply wp_fail, (ok_user s)].
  apply bool_decide_eq_true in Hb as ->. apply wp_modify, (ok_user s Hu); [| done | done].
  apply (inv_step s); try done.
  - intros x. apply same_view_conds; try done. intros c'. unfold waits_cond. cbn.
    destruct (decide (c' = c)) as [-> |]; [| by rewrite lookup_delete_ne].
    rewrite lookup_delete_eq, Hl. split; [by intros (? & ? & ?) |].
    intros (l & [= <-] & H). by apply not_elem_of_nil in H.
  - cbn. intros c' l [_ Hl']%lookup_delete_Some. by apply (ib_conds _ _ _ (inv_all s Hi 0) c').
  - apply (ib_mutexes _ _ _ (inv_all s Hi 0)).
Qed.

(** ** Mutexes *)
Lemma wp_the_mutex m y (Q : _st_mutex → vp → Prop) F s : mutexes s !! m = Some y → Q y s → wp (the_mutex m) Q F s.
Proof. intros Hm. unfold wp, the_mutex. by rewrite Hm. Qed.

Lemma focus_mutex t cur th p s m y y' k :
  focus t cur th p s → mutexes s !! m = Some y → NoDup (mwait_q y') → owner y' = owner y →
  (∀ x, x ≠ t → x ∈ mwait_q y' ↔ x ∈ mwait_q y) →
  (∀ m', waits_mutex (with_mutexes (<[m := y']> (mutexes s)) s) m' t ↔ k = Some m') →
  focus t cur th (set_mutex_place k p) (with_mutexes (<[m := y']> (mutexes s)) s).
Proof.
  intros [Hi Ht Hp] Hm Hnd Ho Hx Hk. split; [| done |].
  - apply (inv_but_step t cur s); try done; try apply Hi.
    + intros x Hne. split; try done.
      * intros m'. unfold waits_mutex. cbn. destruct (decide (m' = m)) as [-> |]; [| by rewrite lookup_insert_ne].
        rewrite lookup_insert_eq, Hm. split; intros (z & [= <-] & Hz); eexists; (split; [done |]); by apply Hx.
      * intros m'. unfold owns. cbn. destruct (decide (m' = m)) as [-> |]; [| by rewrite lookup_insert_ne].
        rewrite lookup_insert_eq, Hm. split; intros (z & [= <-] & Hz); eexists; (split; [done |]); congruence.
      * intros m' (z & Hz & Hzo). unfold owned. cbn. destruct (decide (m' = m)) as [-> |].
        -- rewrite lookup_insert_eq. exists y'. split; [done |].
           rewrite Hm in Hz. injection Hz as <-. by rewrite Ho.
        -- rewrite lookup_insert_ne by done. by exists z.
    + cbn. intros m' z. destruct (decide (m' = m)) as [-> |].
      * rewrite lookup_insert_eq. by intros [= <-].
      * rewrite lookup_insert_ne by done. apply (ib_mutexes _ _ _ Hi m').
  - destruct Hp. by split.
Qed.

(** The running thread hands the ownership on, or takes a free mutex. *)
Lemma set_owner_inv s m y o :
  inv s → user s → mutexes s !! m = Some y →
  owner y = None ∨ owner y = Some (this_thread s) →
  (o = None → ∀ x th, x ∈ mwait_q y → threads s !! x = Some th → state th ≠ LOCK_WAIT) →
  inv (with_mutexes (<[m := Mutex o (mwait_q y)]> (mutexes s)) s).
Proof.
  intros Hi (_ & me & Hme & Hcme) Hm Ho Hw. set (s' := with_mutexes _ s).
  assert (∀ m' x, waits_mutex s' m' x ↔ waits_mutex s m' x) as Hwm.
  { intros m' x. unfold waits_mutex, s'. cbn. destruct (decide (m' = m)) as [-> |]; [| by rewrite lookup_insert_ne].
    rewrite lookup_insert_eq, Hm. split; intros (z & [= <-] & Hz); by eexists. }
  assert (∀ x, thread_ok (this_thread s) s' x) as Hall.
  { intros x. pose proof (inv_thread s x Hi) as Hok. unfold thread_ok in *. cbn [threads s' with_mutexes].
    destruct (threads s !! x) as [th |] eqn:Ex.
    - destruct Hok as [L1 L2 L3 L4 L5 L6 L7 L8 L9 L10 L11]. split; try done.
      + intros m'. by rewrite Hwm.
      + unfold state_ok in *. destruct (state th) eqn:Es; try done.
        destruct L7 as [(m' & Hc & z & Hz & Hzo) Ha]. split; [| done]. exists m'. split; [done |].
        unfold owned, s'. cbn. destruct (decide (m' = m)) as [-> |].
        * rewrite lookup_insert_eq. eexists. split; [done |]. cbn. destruct o as [o |]; [by eexists |].
          destruct (Hw eq_refl x th); [| done | done].
          apply L6 in Hc as (z' & Hz' & Hin). by simplify_eq.
        * rewrite lookup_insert_ne by done. by exists z.
      + intros m' Hc. destruct (L8 m' Hc) as [? | [(z & Hz & Hzo) | ?]]; [by left | | by right; right].
        right; left. unfold owns, s'. cbn. destruct (decide (m' = m)) as [-> |].
        * exfalso. simplify_eq. destruct Ho as [Ho | Ho]; rewrite Hzo in Ho; [done |].
          injection Ho as ->. rewrite Hme in Ex. injection Ex as ->. congruence.
        * exists z. by rewrite lookup_insert_ne.
    - destruct Hok as (A1 & A2 & A3 & A4 & A5 & A6). split_and!; try done. intros m'. rewrite Hwm. apply A6. }
  split; [| apply (inv_this s Hi)].
  intros t. destruct (inv_all s Hi t) as [I1 I2 I3 I4 I5 I6 I7 I8 I9 I10]. split; try done.
  - cbn. intros m' z. destruct (decide (m' = m)) as [-> |].
    + rewrite lookup_insert_eq. intros [= <-]. by apply (I6 m y).
    + rewrite lookup_insert_ne by done. apply I6.
Qed.

(** [true] is returned to the owner. *)
Lemma mutex_lock_enter_ok m s :
  inv s → user s → is_Some (mutexes s !! m) →
  wp (st_mutex_lock_enter m)
    (λ got s', ok s' ∧ (got = true → this_thread s' = this_thread s ∧ owns s' m (this_thread s))) ok s.
Proof.
  intros Hi Hu [y Hy]. pose proof Hu as (Hni & th & Ht & Hc).
  destruct (running_nowhere s th Hi Ht Hc) as (Hf & Hs & Hsl & Hte & Hid).
  unfold st_mutex_lock_enter. apply wp_bind, (wp_check_interrupt _ _ _ th); try done; [| by apply ok_user].
  apply wp_bind, wp_gets. cbn [id]. apply wp_bind, (wp_the_mutex _ y); [done |].
  apply wp_if; intros Hb.
  - apply bool_decide_eq_true in Hb. apply wp_bind. unfold Sync.set_mutex. apply wp_modify, wp_ret. split.
    + apply (ok_user s Hu); [| done | done]. apply set_owner_inv; auto.
    + intros _. split; [done |]. eexists. cbn. rewrite lookup_insert_eq. done.
  - apply bool_decide_eq_false in Hb. apply wp_if; intros Hb2.
    + by apply wp_fail, (ok_user s).
    + apply bool_decide_eq_false in Hb2. apply wp_bind, (wp_upd _ _ _ _ _ _ _ _ Hf). intros s1 E1 Hf1.
      assert (∀ m' z, mutexes s !! m' = Some z → this_thread s ∉ mwait_q z) as Hn.
      { intros m' z Hz Hin. assert (p_mutex nowhere = Some m'); [| done].
        apply (at_mutex _ _ _ (fo_place _ _ _ _ _ Hf)). by exists z. }
      apply wp_bind, wp_check; [rewrite bool_decide_true; [done | by apply (Hn m)] |].
      apply wp_bind. unfold Sync.set_mutex. apply wp_modify.
      assert (mutexes s1 = mutexes s) as Em by (by subst).
      assert (focus (this_thread s) (this_thread s) (with_state LOCK_WAIT th) (set_mutex_place (Some m) nowhere)
        (with_mutexes (<[m := Mutex (owner y) (mwait_q y ++ [this_thread s])]> (mutexes s1)) s1)) as Hf2.
      { apply (focus_mutex _ _ _ _ _ m y); [done | by rewrite Em | | done | |]; cbn.
        - apply NoDup_app. split_and!; [by apply (ib_mutexes _ _ _ (fo_inv _ _ _ _ _ Hf) m) | | apply NoDup_singleton].
          intros x Hx Hx'. apply list_elem_of_singleton in Hx' as ->. by apply (Hn m y).
        - intros x Hx. set_solver.
        - intros m'. unfold waits_mutex. cbn. rewrite Em. destruct (decide (m' = m)) as [-> |].
          + rewrite lookup_insert_eq. split; [done |]. intros _. eexists. split; [done |]. cbn. set_solver.
          + rewrite lookup_insert_ne by done. split; [| congruence]. intros (z & Hz & Hin).
            by destruct (Hn m' z Hz). }
      set (s2 := with_mutexes _ s1) in *. apply wp_bind.
      assert (this_thread s2 = this_thread s ∧ idle_thread s2 = idle_thread s ∧ owned s2 m) as (Et & Ei & Hown).
      { subst s2 s1. split_and!; [done | done |]. eexists. cbn. rewrite lookup_insert_eq. split; [done |]. cbn.
        destruct (owner y); [by eexists | by destruct Hb]. }
      clearbody s2. eapply wp_mono; [| | apply (suspend (this_thread s) (In_mutex m) _ _ s2 th (λ _, False) Et Hf2)];
        cbn; try done; try by rewrite Ei.
      * intros m'. split; congruence.
      * intros s3 Hp (_ & _ & Em3 & _). unfold state_ok. cbn. split.
        -- exists m. split; [done |]. unfold owned. by rewrite Em3.
        -- intros H. by apply (at_sleep _ _ _ Hp) in H.
Qed.

(** The wait for a mutex ends with the mutex, or with an interrupt. *)
Lemma mutex_lock_leave_ok m s :
  inv s → suspended_in s (In_mutex m) → this_thread s ≠ idle_thread s →
  wp (st_mutex_lock_leave m) (λ _ s', ok s' ∧ this_thread s' = this_thread s ∧ owns s' m (this_thread s)) ok s.
Proof.
  intros Hi (th & Ht & Hc) Hni. destruct (running_place s th Hi Ht) as (_ & Hfl & Hs & Hl).
  pose proof (live_lock _ _ _ _ Hl m Hc) as Hlk. rewrite Hs in Hlk.
  unfold st_mutex_lock_leave. apply wp_bind, (wp_resume s th); try done. intros s1 E1 Hf1.
  rewrite Hc in Hf1. cbn [context_place] in Hf1.
  destruct (proj2 (at_mutex _ _ _ (fo_place _ _ _ _ _ Hf1) m) eq_refl) as (y & Hy & Hin).
  apply wp_bind, (wp_the_mutex _ y); [done |]. apply wp_bind, wp_check; [by rewrite bool_decide_true |].
  apply wp_bind. unfold Sync.set_mutex. apply wp_modify.
  set (y' := Mutex (owner y) (remove (this_thread s) (mwait_q y))).
  assert (focus (this_thread s) (this_thread s) (with_context None th) nowhere
    (with_mutexes (<[m := y']> (mutexes s1)) s1)) as Hf2.
  { apply (focus_mutex _ _ _ _ _ m y y' None Hf1 Hy); cbn.
    - apply NoDup_remove. by apply (ib_mutexes _ _ _ (fo_inv _ _ _ _ _ Hf1) m).
    - done.
    - intros x Hx. rewrite elem_of_remove. tauto.
    - intros m'. unfold waits_mutex. cbn. split; [| done]. destruct (decide (m' = m)) as [-> |].
      + rewrite lookup_insert_eq. intros (z & [= <-] & H'). cbn in H'. rewrite elem_of_remove in H'. tauto.
      + rewrite lookup_insert_ne by done. intros H'.
        apply (at_mutex _ _ _ (fo_place _ _ _ _ _ Hf1)) in H'. cbn in H'. congruence. }
  set (s2 := with_mutexes _ s1) in *.
  assert (this_thread s2 = this_thread s ∧ idle_thread s2 = idle_thread s ∧ mutexes s2 !! m = Some y' ∧
    mutexes s !! m = Some y) as (Et & Ei & Em2 & Em).
  { subst s2 s1. split_and!; try done. cbn. by rewrite lookup_insert_eq. }
  clearbody s2. apply wp_bind, (wp_the_thread _ _ _ _ (with_context None th)); [apply Hf2 |].
  apply wp_if; intros Hb.
  - apply wp_bind, (wp_upd _ _ _ _ _ _ _ _ Hf2). intros s3 E3 Hf3. apply wp_fail.
    assert (this_thread s3 = this_thread s ∧ idle_thread s3 = idle_thread s) as [Et3 Ei3] by (by subst s3).
    split; [| intros H; congruence].
    pose proof (set_clear_flags (flags th)) as (_ & _ & _ & _ & _ & _ & _ & _ & _ & I1 & I2 & _).
    apply (inv_resumed (this_thread s) _ _ Et3 Hf3); cbn; rewrite ?I1, ?I2, ?Ei3; try done; apply Hl.
  - apply wp_ret. split_and!; [split; [| intros H; congruence] | done |].
    + apply (inv_resumed (this_thread s) _ _ Et Hf2); cbn; rewrite ?Ei; try done; apply Hl.
    + exists y'. split; [done |]. cbn. apply andb_false_iff in Hb as [Hb | Hb].
      * destruct Hlk as [? | [(z & Hz & Hzo) | ?]]; [done | rewrite Em in Hz; injection Hz as <-; exact Hzo | cbn in Hb; congruence].
      * apply bool_decide_eq_false in Hb. by apply dec_stable.
Qed.
End ops.
