(* ===== verification/SchedCalls.v ===== *)
(** * Mutexes, polls, creation, exit and the idle thread keep the invariant of Sched.v *)

From stdpp Require Import base list sets gmap.
From Stdlib Require Import Lia ZArith Sorting.Sorted.
From S2P Require Import Prelude.
From S2P Require Import Bytes.
From S2P Require Import TimeoutHeap.
From S2P Require Import Vp.
From S2P Require Import Sync.
From S2P Require Import Fair.
From S2P Require Import Sched.
From S2P Require Import SchedOps.

Local Open Scope Z_scope.

Section calls.
Context {E : Type} `{!EventSys E, !EventSysLaws E}.
Notation vp := (@_st_vp E).
Implicit Types (s : vp) (x t m : Z) (th : _st_thread).

(** ** Mutexes *)
(** The waiters in [pre] were passed over. *)
Lemma handover_ok m pre q s y F :
  inv s → user s → mutexes s !! m = Some y → owner y = Some (this_thread s) → mwait_q y = pre ++ q →
  (∀ t th, t ∈ pre → threads s !! t = Some th → state th ≠ LOCK_WAIT) →
  wp (mutex_handover m q) (λ _ s', inv s' ∧ this_thread s' = this_thread s ∧ idle_thread s' = idle_thread s ∧
    mutexes s' = <[m := Mutex (hd_error (waiting LOCK_WAIT s q)) (mwait_q y)]> (mutexes s) ∧
    run_q s' = run_q s ++ take 1 (waiting LOCK_WAIT s q)) F s.
Proof.
  intros Hi Hu Hm Ho. revert pre. induction q as [| t q IH]; intros pre Hq Hpre; cbn [mutex_handover];
    apply wp_bind, (wp_the_mutex _ y); try done.
  - apply wp_modify. split_and!; try done; [| by rewrite app_nil_r].
    apply set_owner_inv; auto. intros _ t th Ht. rewrite Hq, app_nil_r in Ht. by apply Hpre.
  - pose proof (inv_thread s t Hi) as Hok. unfold thread_ok in Hok.
    assert (waits_mutex s m t) as Hwt by (exists y; split; [done | rewrite Hq; set_solver]).
    destruct (threads s !! t) as [th |] eqn:Ht; [| by destruct Hok as (_ & _ & _ & _ & _ & []%(λ H, H m))].
    apply wp_bind, (wp_the_thread _ _ _ _ th); [done |]. apply wp_if; intros Hb.
    + apply bool_decide_eq_true in Hb.
      assert (waiting LOCK_WAIT s (t :: q) = t :: waiting LOCK_WAIT s q) as ->.
      { unfold waiting. rewrite filter_cons_True; [done |]. by rewrite Ht, <- Hb. }
      apply wp_bind. unfold set_mutex. apply wp_modify. set (s1 := with_mutexes _ s).
      assert (inv s1) as Hi1 by (apply set_owner_inv; auto; done).
      pose proof (focus_intro s1 t th Hi1 Ht) as Hf1.
      assert (has_flag (flags th) _ST_FL_ON_SLEEPQ = false) as Hsl.
      { apply not_true_is_false. intros H. apply (live_sleep _ _ _ _ Hok) in H.
        pose proof (live_state _ _ _ _ Hok) as Hst. unfold state_ok in Hst. rewrite Hb in Hst. by destruct Hst. }
      assert (p_run (place_of s1 t th) = false) as Hpr.
      { cbn. apply bool_decide_eq_false. rewrite (live_run _ _ _ _ Hok), Hb. by intros []. }
      apply (wp_make_runnable _ _ _ _ _ _ _ Hf1 Hpr). intros s2 K2 _ R2 T2 Hf2.
      pose proof K2 as (K2i & K2t & K2m & _).
      split_and!; [| by rewrite K2t | by rewrite K2i | by rewrite K2m | by rewrite R2].
      apply (made_runnable s1 s2 t th (with_state RUNNABLE th)); try done; try congruence.
      * assert (set_sleep false (place_of s1 t th) = place_of s1 t th) as ->; [| exact Hf2].
        unfold place_of, set_sleep. cbn. by rewrite Hsl.
      * intros m' Hc. left. apply (live_mutex _ _ _ _ Hok) in Hwt. assert (m' = m) as -> by congruence.
        eexists. cbn. by rewrite lookup_insert_eq.
    + apply bool_decide_eq_false in Hb.
      assert (waiting LOCK_WAIT s (t :: q) = waiting LOCK_WAIT s q) as ->.
      { unfold waiting. rewrite filter_cons_False; [done |]. rewrite Ht. cbn. congruence. }
      apply (IH (pre ++ [t])); [by rewrite <- app_assoc |].
      intros u thu [Hu' | ->%list_elem_of_singleton]%elem_of_app Htu; [by apply (Hpre u) |].
      rewrite Ht in Htu. by injection Htu as <-.
Qed.

Lemma unlock_ok m s :
  inv s → user s → is_Some (mutexes s !! m) → wp (st_mutex_unlock m) (λ _, ok) ok s.
Proof.
  intros Hi Hu [y Hy]. unfold st_mutex_unlock. apply wp_bind, wp_gets. cbn [id].
  apply wp_bind, (wp_the_mutex _ y); [done |]. apply wp_if; intros Hb; [by apply wp_fail, (ok_user s) |].
  apply bool_decide_eq_false, dec_stable in Hb.
  eapply wp_mono; [| | apply (handover_ok m [] (mwait_q y) s y (λ _, False))]; try done.
  - cbn beta. intros _ s' (Hi' & Et & Ei & _). by apply (ok_user s).
  - by intros ? ? ?%not_elem_of_nil.
Qed.

Lemma trylock_ok m s :
  inv s → user s → is_Some (mutexes s !! m) → wp (st_mutex_trylock m) (λ _, ok) ok s.
Proof.
  intros Hi Hu [y Hy]. unfold st_mutex_trylock. apply wp_bind, wp_gets. cbn [id].
  apply wp_bind, (wp_the_mutex _ y); [done |]. apply wp_if; intros Hb; [by apply wp_fail, (ok_user s) |].
  apply bool_decide_eq_false, dec_stable in Hb. apply wp_modify, (ok_user s Hu); [| done | done].
  apply set_owner_inv; auto.
Qed.

Lemma mutex_new_ok m s : inv s → user s → m ∉ dom (mutexes s) → wp (st_mutex_new (Some m)) (λ _, ok) ok s.
Proof.
  intros Hi Hu Hm. cbn [st_mutex_new]. apply wp_bind, wp_check; [by rewrite bool_decide_true |].
  apply wp_bind. unfold set_mutex. apply wp_modify, wp_ret. apply (ok_user s Hu); [| done | done].
  apply not_elem_of_dom in Hm. apply (inv_step s); try done.
  - intros x. split; try done; intros m'; unfold waits_mutex, owns, owned; cbn;
      (destruct (decide (m' = m)) as [-> |]; [rewrite lookup_insert_eq, Hm | by rewrite lookup_insert_ne]).
    + split; [| by intros (? & ? & ?)]. intros (z & [= <-] & H). by apply not_elem_of_nil in H.
    + split; [| by intros (? & ? & ?)]. by intros (z & [= <-] & H).
    + by intros (? & ? & ?).
  - apply (ib_conds _ _ _ (inv_all s Hi 0)).
  - cbn. intros m' z. destruct (decide (m' = m)) as [-> |].
    + rewrite lookup_insert_eq. intros [= <-]. constructor.
    + rewrite lookup_insert_ne by done. apply (ib_mutexes _ _ _ (inv_all s Hi 0)).
Qed.

Lemma mutex_destroy_ok m s :
  inv s → user s → is_Some (mutexes s !! m) → wp (st_mutex_destroy m) (λ _, ok) ok s.
Proof.
  intros Hi Hu [[o q] Hy]. unfold st_mutex_destroy. apply wp_bind, (wp_the_mutex _ (Mutex o q)); [done |].
  apply wp_if; intros Hb; [by apply wp_fail, (ok_user s) |]. apply orb_false_iff in Hb as [Hb1 Hb2].
  apply bool_decide_eq_false, dec_stable in Hb1, Hb2. cbn in Hb1, Hb2. subst o q.
  apply wp_modify, (ok_user s Hu); [| done | done]. apply (inv_step s); try done.
  - intros x. split; try done; intros m'; unfold waits_mutex, owns, owned; cbn;
      (destruct (decide (m' = m)) as [-> |]; [rewrite lookup_delete_eq, Hy | by rewrite lookup_delete_ne]).
    + split; [by intros (? & ? & ?) |]. intros (z & [= <-] & H). by apply not_elem_of_nil in H.
    + split; [by intros (? & ? & ?) |]. by intros (z & [= <-] & H).
    + intros (z & [= <-] & [? ?]). done.
  - apply (ib_conds _ _ _ (inv_all s Hi 0)).
  - cbn. intros m' z [_ Hz]%lookup_delete_Some. by apply (ib_mutexes _ _ _ (inv_all s Hi 0) m').
Qed.
(** ** [st_poll] *)
Lemma focus_pollqs t cur th p s v :
  focus t cur th p s → (∀ q, v = Some q → fds_ok (eventsys s) (pds q)) →
  focus t cur th (set_poll v p) (with_pollqs (partial_alter (λ _, v) t (pollqs s)) s).
Proof.
  intros [Hi Ht Hp] Hv. split; [| done |].
  - apply (inv_but_step t cur s); try done; try apply Hi.
    + intros x Hx. split; try done. cbn. by rewrite lookup_partial_alter_ne.
    + cbn. intros x q. destruct (decide (x = t)) as [-> |].
      * rewrite lookup_partial_alter_eq. apply Hv.
      * rewrite lookup_partial_alter_ne by done. apply (ib_fds _ _ _ Hi).
  - destruct Hp. split; try done. cbn. by rewrite lookup_partial_alter_eq.
Qed.

(** The event system goes on with tables in order that know the descriptors accepted before. *)
Definition ev_step (e e' : E) : Prop := ev_ok e' ∧ ∀ l, fds_ok e l → fds_ok e' l.

Lemma focus_eventsys t cur th p s e :
  ev_step (eventsys s) e → focus t cur th p s → focus t cur th p (with_eventsys e s).
Proof.
  intros [He Hl] [Hi Ht Hp]. split; [| done | by destruct Hp; split].
  apply (inv_but_step t cur s); try done; try apply Hi. intros x q Hq. by apply Hl, (ib_fds _ _ _ Hi x q).
Qed.

Lemma with_eventsys_inv s e : ev_step (eventsys s) e → inv s → inv (with_eventsys e s).
Proof.
  intros He Hi. destruct (inv_this s Hi) as (th & Ht & Hs & Hc).
  split; [| by exists th]. intros t. destruct (inv_all s Hi t) as [I1 I2 I3 I4 I5 I6 I7 I8 I9 I10].
  destruct He as [He Hl]. split; try done.
  - intros x Hx. apply (same_view_ok _ s); [by split | by apply I8].
  - intros x q Hq. by apply Hl, (I9 x q).
Qed.

Lemma poll_enter_ok fds timeout s :
  inv s → user s → room s → fds_valid fds → wp (st_poll_enter fds timeout) (λ _, ok) ok s.
Proof.
  intros Hi Hu Hr Hv. pose proof Hu as (Hni & th & Ht & Hc).
  destruct (running_nowhere s th Hi Ht Hc) as (Hf & Hs & Hsl & Hte & Hid).
  unfold st_poll_enter. apply wp_bind, (wp_check_interrupt _ _ _ th); try done; [| by apply ok_user].
  apply wp_bind. unfold wp at 1, on_ev.
  destruct (pollset_add_total fds (eventsys s) (ib_ev _ _ _ (inv_all s Hi 0)) Hv) as (o & e & -> & Ho & Hst).
  destruct Ho as [[-> Hfds] | ->].
  2: { apply (ok_user s Hu); [by apply with_eventsys_inv | done | done]. }
  set (s1 := with_eventsys e s).
  pose proof (focus_eventsys _ _ _ _ _ e Hst Hf) as Hf1. change (with_eventsys e s) with s1 in Hf1.
  apply wp_bind, wp_gets. cbn [id]. apply wp_bind, wp_modify. change (this_thread s1) with (this_thread s).
  pose proof (focus_pollqs _ _ _ _ _ (Some (Pollq fds true)) Hf1) as Hf2.
  assert (focus (this_thread s) (this_thread s) th (set_poll (Some (Pollq fds true)) nowhere)
    (with_pollqs (<[this_thread s := Pollq fds true]> (pollqs s1)) s1)) as Hf2'.
  { apply Hf2. by intros q [= <-]. }
  clear Hf2. set (s2 := with_pollqs _ s1) in *.
  assert (this_thread s2 = this_thread s ∧ idle_thread s2 = idle_thread s ∧ sleep_q s2 = sleep_q s)
    as (Et2 & Ei2 & Es2) by done. clearbody s2.
  apply wp_bind, (wp_add_ioq _ _ _ _ _ _ _ Hf2'); [done |]. intros s3 E3 Hf3.
  apply wp_bind. unfold add_sleepq_unless_forever. apply wp_if; intros _.
  - apply wp_ret, wp_bind, (wp_upd _ _ _ _ _ _ _ _ Hf3). intros s4 E4 Hf4.
    assert (this_thread s4 = this_thread s ∧ idle_thread s4 = idle_thread s) as [Et Ei] by (by subst).
    apply (suspend _ _ _ _ _ th _ Et Hf4); cbn; try done; try by rewrite Ei.
    intros s5 Hp _. unfold state_ok. cbn. split; [done |]. exists (Pollq fds true).
    by split; [apply (at_poll _ _ _ Hp) |].
  - apply (wp_add_sleepq _ _ _ _ _ _ _ _ Hf3); [done | subst; cbn; by rewrite Es2 |]. intros s4 th4 q E4' E4 _ Hf4.
    rewrite E4' in Hf4. apply wp_bind, (wp_upd _ _ _ _ _ _ _ _ Hf4). intros s5 E5 Hf5.
    assert (this_thread s5 = this_thread s ∧ idle_thread s5 = idle_thread s) as [Et Ei] by (by subst).
    pose proof (set_clear_flags (flags th)) as (F1 & F2 & _).
    apply (suspend _ _ _ _ _ th _ Et Hf5); cbn; try done; try by rewrite Ei.
    intros s6 Hp _. unfold state_ok. cbn. split; [done |]. exists (Pollq fds true).
    by split; [apply (at_poll _ _ _ Hp) |].
Qed.

Lemma poll_leave_ok s :
  inv s → suspended_in s In_poll → this_thread s ≠ idle_thread s → wp st_poll_leave (λ _, ok) ok s.
Proof.
  intros Hi (th & Ht & Hc) Hni. destruct (running_place s th Hi Ht) as (_ & Hfl & Hs & Hl).
  destruct (proj2 (live_poll _ _ _ _ Hl) Hc) as [pq Hpq].
  pose proof (ib_fds _ _ _ (inv_all s Hi 0) _ _ Hpq) as Hfds.
  unfold st_poll_leave. apply wp_bind, (wp_resume s th); try done. intros s1 E1 Hf1.
  rewrite Hc in Hf1. cbn [context_place] in Hf1. rewrite Hpq in Hf1.
  apply wp_bind. unfold wp at 1, the_pollq.
  assert (pollqs s1 !! this_thread s = Some pq) as -> by (by subst).
  apply wp_bind.
  assert (∀ s2 n, this_thread s2 = this_thread s → idle_thread s2 = idle_thread s →
    focus (this_thread s) (this_thread s) (with_context None th) (set_poll (Some pq) nowhere) s2 →
    wp (modify (λ s', with_pollqs (delete (this_thread s) (pollqs s')) s') ;; check_interrupt ;; ret n)
      (λ _ : Z, ok) ok s2) as Hrest.
  { intros s2 n Et Ei Hf2. apply wp_bind, wp_modify. set (s3 := with_pollqs _ s2).
    assert (focus (this_thread s) (this_thread s) (with_context None th) nowhere s3) as Hf3.
    { assert (∀ q : _st_pollq, None = Some q → fds_ok (eventsys s2) (pds q)) as Hv by done. apply (focus_pollqs _ _ _ _ _ None Hf2 Hv). }
    assert (this_thread s3 = this_thread s ∧ idle_thread s3 = idle_thread s) as [Et3 Ei3] by done. clearbody s3.
    assert (inv s3) as Hi3.
    { apply (inv_resumed (this_thread s) _ _ Et3 Hf3); try done; [apply Hl |]. rewrite Ei3. apply Hl. }
    assert (user s3) as Hu3.
    { split; [by rewrite Et3, Ei3 |]. exists (with_context None th). rewrite Et3. split; [apply Hf3 | done]. }
    destruct Hu3 as (Hn3 & th3 & Ht3 & Hc3).
    apply wp_bind, (wp_check_interrupt _ _ _ th3); try done.
    - apply wp_ret. split; [done | by intros ?%Hn3].
    - intros s4 Hi4 Et4 Ei4. split; [done |]. intros H. congruence. }
  assert (this_thread s1 = this_thread s ∧ idle_thread s1 = idle_thread s) as [Et Ei] by (by subst).
  apply wp_if; intros Hb; rewrite Hb in Hf1.
  - apply wp_bind, (wp_del_ioq _ _ _ _ _ _ _ Hf1); [done |]. intros s2 E2 Hf2.
    apply wp_bind. unfold wp at 1, on_ev.
    assert (eventsys s2 = eventsys s) as Ee by (by subst s2 s1). rewrite <- Ee in Hfds.
    pose proof (ib_ev _ _ _ (inv_all s Hi 0)) as Hev. rewrite <- Ee in Hev.
    destruct (pollset_del_total (pds pq) (eventsys s2) Hev Hfds) as (e & -> & Hst). apply wp_ret, Hrest.
    + by subst s2.
    + by subst s2.
    + apply (focus_eventsys _ _ _ _ _ e Hst Hf2).
  - by apply wp_ret, Hrest.
Qed.
(** ** Creation and exit *)
(** Another thread than the running one was changed. *)
Lemma inv_other s t th p me :
  focus t (this_thread s) th p s → live (this_thread s) s t th →
  threads s !! this_thread s = Some me → state me = RUNNING → context me ≠ Some Exited → inv s.
Proof.
  intros Hf Hl Hme Hs Hc. split; [| by exists me].
  intros x. destruct (fo_inv _ _ _ _ _ Hf) as [I1 I2 I3 I4 I5 I6 I7 I8 I9 I10]. split; try done.
  intros y _. destruct (decide (y = t)) as [-> | Hy]; [| by apply I8].
  unfold thread_ok. by rewrite (fo_thread _ _ _ _ _ Hf).
Qed.

(** The new thread waits at the end of the run queue. *)
Definition created t s s' : Prop :=
  run_q s' = run_q s ++ [t] ∧ threads s' = <[t := Thread RUNNABLE 0 0 None (Some Start)]> (threads s) ∧
  active_count s' = active_count s + 1 ∧ sleep_q s' = sleep_q s ∧ eventsys s' = eventsys s ∧
  this_thread s' = this_thread s ∧ idle_thread s' = idle_thread s.

Lemma create_runnable t s F :
  inv s → user s → t ∉ dom (threads s) →
  wp (st_thread_create (Some t) false None) (λ r s', ok s' ∧ r = t ∧ created t s s') F s.
Proof.
  intros Hi Hu Hd. pose proof Hu as (Hni & me & Hme & Hcme). apply not_elem_of_dom in Hd.
  assert (t ≠ this_thread s) as Hne by congruence.
  pose proof (inv_thread s t Hi) as Hok. unfold thread_ok in Hok. rewrite Hd in Hok.
  destruct Hok as (A1 & A2 & A3 & A4 & A5 & A6).
  destruct (inv_all s Hi t) as [I1 I2 I3 I4 I5 I6 I7 I8 I9 I10].
  assert (t ≠ idle_thread s) as Hnt by (intros ->; rewrite Hd in I7; by destruct I7).
  destruct (running_nowhere s me Hi Hme Hcme) as (_ & Hs & _).
  cbn [st_thread_create]. apply wp_bind, wp_check; [rewrite bool_decide_true; [done | by apply not_elem_of_dom] |].
  apply wp_bind, wp_ret, wp_bind, wp_modify. set (th := Thread RUNNABLE 0 0 None (Some Start)).
  set (s1 := with_threads _ s).
  assert (focus t (this_thread s) th nowhere s1) as Hf1.
  { split; [| by cbn; rewrite lookup_insert_eq |].
    - split; try done.
      + cbn. rewrite lookup_insert_ne by done. done.
      + intros x Hx. apply (same_view_ok _ s); [| by apply I8]. split; try done. cbn. by rewrite lookup_insert_ne.
    - split; cbn; try done.
      + intros c. split; [by intros ?%A5 | done].
      + intros m. split; [by intros ?%A6 | done]. }
  apply wp_bind, wp_modify. set (s2 := with_active_count _ s1).
  assert (focus t (this_thread s) th nowhere s2) as Hf2.
  { destruct Hf1 as [Hb1 Ht1 Hp1]. split; [| done | by destruct Hp1; split].
    by apply (inv_but_step t (this_thread s) s1); try done; apply Hb1. }
  apply wp_bind, (wp_add_runq _ _ _ _ _ _ _ Hf2); [done |]. intros s3 E3 Hf3. apply wp_ret.
  assert (this_thread s3 = this_thread s ∧ idle_thread s3 = idle_thread s) as [Et Ei] by (by subst s3).
  split; [| split; [done | by subst s3]].
  apply (ok_user s Hu); [| done | done]. rewrite <- Et in Hf3.
  apply (inv_other s3 t th _ me Hf3); [| | done | congruence].
  - apply (live_place _ _ _ _ _ (fo_place _ _ _ _ _ Hf3)); cbn; rewrite ?Ei; try done.
    split_and!; try done. intros H. by apply (at_sleep _ _ _ (fo_place _ _ _ _ _ Hf3)) in H.
  - rewrite Et. subst s3. cbn. by rewrite lookup_insert_ne.
Qed.

Lemma create_ok t s :
  inv s → user s → t ∉ dom (threads s) → wp (st_thread_create (Some t) false None) (λ _, ok) ok s.
Proof. intros Hi Hu Ht. eapply wp_mono; [| | by apply (create_runnable t s ok)]; [by intros ? ? [? _] | done]. Qed.

(** The next thread runs; it is not the one that left. *)
Lemma exit_ok rv s :
  inv s → user s → wp (st_thread_exit_enter rv) (λ _ s', ok s' ∧ this_thread s' ≠ this_thread s) ok s.
Proof.
  intros Hi Hu. pose proof Hu as (Hni & me & Hme & Hcme).
  destruct (running_nowhere s me Hi Hme Hcme) as (Hf & Hs & Hsl & Hte & Hid).
  unfold st_thread_exit_enter. apply wp_bind, wp_gets. cbn [id].
  apply wp_bind, (wp_upd _ _ _ _ _ _ _ _ Hf). intros s1 E1 Hf1.
  apply wp_bind, wp_modify. set (s2 := with_active_count _ s1).
  set (me2 := with_retval rv me) in *.
  assert (focus (this_thread s) (this_thread s) me2 nowhere s2) as Hf2.
  { destruct Hf1 as [Hb1 Ht1 Hp1]. split; [| done | by destruct Hp1; split].
    by apply (inv_but_step (this_thread s) (this_thread s) s1); try done; apply Hb1. }
  assert (this_thread s2 = this_thread s ∧ idle_thread s2 = idle_thread s) as [Et Ei] by (by subst s2 s1).
  clearbody s2. apply wp_bind, (wp_the_thread _ _ _ _ me2); [apply Hf2 |]. cbn [term me2 with_retval]. rewrite Hte.
  unfold exit_end. apply wp_bind, wp_gets. cbn [id]. rewrite Et.
  apply wp_bind, (wp_the_thread _ _ _ _ me2); [apply Hf2 |]. apply wp_bind.
  assert (∀ s3, between s3 → this_thread s ∉ run_q s3 → idle_thread s3 = idle_thread s →
    wp _st_vp_schedule (λ _ s', ok s' ∧ this_thread s' ≠ this_thread s) ok s3) as Hgo.
  { intros s3 Hb Hn Ei3. eapply wp_mono; [| | apply (schedule_ok s3 ok Hb)]; [| done].
    intros [] s' (Hok & Hnext & _). split; [done |]. rewrite Hnext. unfold next_thread.
    destruct (run_q s3) as [| y r] eqn:Er; cbn [hd]; [by rewrite Ei3 |].
    intros ->. apply Hn. left. }
  assert (∀ s3, focus (this_thread s) (this_thread s) (with_context (Some Exited) me2) nowhere s3 →
    this_thread s ∉ run_q s3) as Hnr.
  { intros s3 Hf3. rewrite (at_run _ _ _ (fo_place _ _ _ _ _ Hf3)). done. }
  apply wp_if; intros _.
  - apply (wp_upd _ _ _ _ _ _ _ _ Hf2). intros s3 E3 Hf3.
    assert (idle_thread s3 = idle_thread s) as Ei3 by (by subst s3).
    apply Hgo; [| by apply Hnr | done].
    apply (between_place _ _ _ _ Hf3); [| done].
    apply (live_place _ _ _ _ _ (fo_place _ _ _ _ _ Hf3)); cbn; rewrite ?Ei3, ?Hs; try done.
    + split; [done | by intros []].
    + unfold state_ok. cbn. rewrite Hs. split; [by right |]. intros H.
      by apply (at_sleep _ _ _ (fo_place _ _ _ _ _ Hf3)) in H.
  - apply wp_modify. set (s3 := with_threads _ s2). destruct Hf2 as [Hb2 Ht2 Hp2].
    apply Hgo; [| | done]; [| change (this_thread s ∉ run_q s2); rewrite (at_run _ _ _ Hp2); done].
    apply (between_intro (this_thread s)).
    + apply (inv_but_step (this_thread s) (this_thread s) s2); try done; try apply Hb2.
      * intros x Hx. split; try done. cbn. by rewrite Et, lookup_delete_ne.
      * cbn. rewrite Et, lookup_delete_ne; [apply Hb2 | congruence].
    + unfold thread_ok. cbn [threads s3 with_threads]. rewrite Et, lookup_delete_eq. destruct Hp2 as [P1 P2 P3 P4 P5 P6].
      split_and!; [by intros ?%P1 | by intros ?%P2 | by intros ?%P3 | done | |].
      * intros c H. by apply P5 in H.
      * intros m H. by apply P6 in H.
    + cbn. by rewrite Et, lookup_delete_eq.
Qed.

(** ** The idle thread *)
Definition polls_wait s : Prop := ∀ t, t ∈ io_q s → state <$> threads s !! t = Some IO_WAIT.

Lemma idle_polls_wait s : inv s → this_thread s = idle_thread s → run_q s = [] → polls_wait s.
Proof.
  intros Hi Hid Hr t Ht. pose proof (inv_thread s t Hi) as Hok. unfold thread_ok in Hok.
  destruct (threads s !! t) as [th |] eqn:Et; [| by destruct Hok as (_ & ? & _)]. cbn.
  apply (live_io _ _ _ _ Hok) in Ht as (q & Hq & _).
  assert (context th = Some In_poll) as Hc by (apply (live_poll _ _ _ _ Hok); by eexists).
  destruct Hok as [L1 L2 L3 L4 L5 L6 L7 L8 L9 L10 L11].
  assert (t ≠ idle_thread s) as Hne by (intros H; destruct (L10 H) as [_ [H' | [H' | H']]]; congruence).
  unfold state_ok in L7. destruct (state th) eqn:Es; [| | done | | | | done |].
  - destruct L7 as [[-> | H] _]; congruence.
  - assert (t ∈ run_q s) as H by (by apply L1). rewrite Hr in H. by apply not_elem_of_nil in H.
  - destruct L7 as [(m & H & _) _]; congruence.
  - destruct L7 as [c H]; congruence.
  - destruct L7 as [H _]; congruence.
  - destruct L7 as [H _]; congruence.
Qed.

Lemma notify_ok t fds c e s F :
  inv s → polls_wait s → t ∈ io_q s → fds_ok (eventsys s) fds →
  c (eventsys s) = (Ok tt, e) → ev_step (eventsys s) e →
  wp (notify t fds c) (λ _ s', inv s' ∧ polls_wait s' ∧ this_thread s' = this_thread s ∧
    idle_thread s' = idle_thread s ∧ io_q s' = remove t (io_q s) ∧ run_q s' = run_q s ++ [t] ∧
    pollqs s' = <[t := Pollq fds false]> (pollqs s) ∧ eventsys s' = e) F s.
Proof.
  intros Hi Hp Ht Hfds Hce He. pose proof (Hp t Ht) as Hst.
  destruct (threads s !! t) as [th |] eqn:Eth; [| done]. injection Hst as Hst.
  pose proof (inv_thread s t Hi) as Hok. unfold thread_ok in Hok. rewrite Eth in Hok.
  pose proof (live_state _ _ _ _ Hok) as Hstate. unfold state_ok in Hstate. rewrite Hst in Hstate.
  destruct Hstate as [Hc _].
  assert (t ≠ idle_thread s) as Hni.
  { intros H. destruct (live_idle_state _ _ _ _ Hok H) as [_ [H' | [H' | H']]]; congruence. }
  pose proof (focus_intro s t th Hi Eth) as Hf. unfold notify.
  apply wp_bind, (wp_del_ioq _ _ _ _ _ _ _ Hf); [by apply bool_decide_eq_true |]. intros s1 E1 Hf1.
  apply wp_bind, wp_modify. set (s2 := with_pollqs _ s1).
  assert (focus t (this_thread s) th (set_poll (Some (Pollq fds false)) (set_io false (place_of s t th))) s2) as Hf2.
  { assert (∀ q : _st_pollq, Some (Pollq fds false) = Some q → fds_ok (eventsys s1) (pds q)) as Hv
      by (intros q [= <-]; by subst s1).
    apply (focus_pollqs _ _ _ _ _ (Some (Pollq fds false)) Hf1 Hv). }
  assert (eventsys s2 = eventsys s) as Ee2 by (by subst s2 s1). rewrite <- Ee2 in Hce, He.
  pose proof (focus_eventsys _ _ _ _ _ e He Hf2) as Hf2'. apply wp_bind. unfold wp at 1, on_ev. rewrite Hce.
  clear Hf2. rename Hf2' into Hf2. set (s2' := with_eventsys e s2) in *.
  apply (wp_wake _ _ _ _ _ _ _ Hf2); [| done |].
  { cbn. apply bool_decide_eq_false. rewrite (live_run _ _ _ _ Hok), Hst. by intros []. }
  intros s3 K3 R3 T3 Hf3. pose proof K3 as (K3i & K3t & K3m & K3c & K3p & K3o & _ & K3e & _).
  destruct (woken_same th) as (W1 & W2 & W3 & W4 & W5).
  assert (this_thread s3 = this_thread s) as Et by (rewrite K3t; by subst s2' s2 s1).
  assert (idle_thread s3 = idle_thread s) as Ei by (rewrite K3i; by subst s2' s2 s1).
  assert (threads s3 = <[t := woken th]> (threads s)) as Eth3 by (rewrite T3; by subst s2' s2 s1).
  assert (t ≠ this_thread s) as Hne.
  { intros ->. destruct (inv_this s Hi) as (th0 & Ht0 & Hs0 & _). congruence. }
  split_and!; [| | done | done | rewrite K3o; by subst s2' s2 s1 | rewrite R3; by subst s2' s2 s1
    | rewrite K3p; by subst s2' s2 s1 | rewrite K3e; by subst s2' s2 s1].
  - destruct (inv_this s Hi) as (me & Hme & Hsme & Hcme). rewrite <- Et in Hf3.
    apply (inv_other s3 t (woken th) _ me Hf3); [| by rewrite Et, Eth3, lookup_insert_ne | done | done].
    apply (live_place _ _ _ _ _ (fo_place _ _ _ _ _ Hf3)); rewrite ?W1, ?W2, ?W3, ?W4, ?Ei, ?Hc; cbn;
      rewrite ?Hc; try done.
    + change (context (woken th) ≠ None ∧ context (woken th) ≠ Some Exited ∧ ¬ asleep s3 t).
      rewrite W1, Hc. split_and!; try done.
      intros H. by apply (at_sleep _ _ _ (fo_place _ _ _ _ _ Hf3)) in H.
    + apply Hok.
    + apply Hok.
  - intros u Hu. rewrite K3o in Hu. assert (io_q s2' = remove t (io_q s)) as Eio by (by subst s2' s2 s1).
    rewrite Eio, elem_of_remove in Hu. destruct Hu as [Hu Hut]. rewrite Eth3, lookup_insert_ne by done. by apply Hp.
Qed.

Lemma look_at_ok t fds s F :
  inv s → polls_wait s → t ∈ io_q s → fds_ok (eventsys s) fds →
  wp (look_at t fds) (λ _ s', inv s' ∧ polls_wait s' ∧ this_thread s' = this_thread s ∧
    idle_thread s' = idle_thread s ∧ io_q s' = io_q s ∧ run_q s' = run_q s ∧
    pollqs s' = <[t := Pollq fds true]> (pollqs s) ∧ eventsys s' = eventsys s) F s.
Proof.
  intros Hi Hp Ht Hfds. unfold look_at. apply wp_modify. set (s' := with_pollqs _ s).
  split_and!; try done. pose proof (Hp t Ht) as Hst.
  destruct (threads s !! t) as [th |] eqn:Eth; [| done]. injection Hst as Hst.
  pose proof (inv_thread s t Hi) as Hok. unfold thread_ok in Hok. rewrite Eth in Hok.
  pose proof (proj1 (live_io _ _ _ _ Hok) Ht) as (q & Hq & Hon).
  pose proof (live_state _ _ _ _ Hok) as Hstate. unfold state_ok in Hstate. rewrite Hst in Hstate.
  destruct Hstate as [Hc _].
  assert (∀ q : _st_pollq, Some (Pollq fds true) = Some q → fds_ok (eventsys s) (pds q)) as Hv by (by intros ? [= <-]).
  pose proof (focus_pollqs _ _ _ _ _ (Some (Pollq fds true)) (focus_intro s t th Hi Eth) Hv) as Hf.
  change (focus t (this_thread s') th (set_poll (Some (Pollq fds true)) (place_of s t th)) s') in Hf.
  destruct (inv_this s Hi) as (me & Hme & Hsme & Hcme). apply (inv_other s' t th _ me Hf); try done.
  apply (live_place _ _ _ _ _ (fo_place _ _ _ _ _ Hf)); cbn; rewrite ?Hst, ?Hc; try done.
  - rewrite bool_decide_eq_true, (live_run _ _ _ _ Hok), Hst. done.
  - by apply bool_decide_eq_true.
  - unfold state_ok. rewrite Hst. split; [done |]. exists (Pollq fds true). by split; [apply lookup_insert_eq |].
  - apply Hok.
  - intros ->. destruct (live_idle_state _ _ _ _ Hok eq_refl) as [[H | H] _]; congruence.
  - apply Hok.
Qed.

(** The loop of a dispatch over the I/O queue; a round does not take other polls off it.
    [P l]: the polls of [l] are still to come. *)
Definition round_ok (P : list Z → vp → Prop) (round : Z → M vp unit) : Prop := ∀ t l s F,
  inv s → polls_wait s → P (t :: l) s → t ∈ io_q s → t ∉ l →
  wp (round t) (λ _ s', inv s' ∧ polls_wait s' ∧ P l s' ∧ this_thread s' = this_thread s ∧
    idle_thread s' = idle_thread s ∧ ∀ u, u ≠ t → u ∈ io_q s → u ∈ io_q s') F s.

Lemma rounds_ok P round l s F :
  round_ok P round → inv s → polls_wait s → P l s → NoDup l → (∀ t, t ∈ l → t ∈ io_q s) →
  wp (for_each round l) (λ _ s', inv s' ∧ polls_wait s' ∧ P [] s' ∧ this_thread s' = this_thread s ∧
    idle_thread s' = idle_thread s) F s.
Proof.
  intros Hr. revert s. induction l as [| t l IH]; intros s Hi Hp HP Hnd Hl; cbn [for_each]; [done |].
  apply NoDup_cons in Hnd as [Hn Hnd]. apply wp_bind.
  eapply wp_mono; [| | apply (Hr t l s F Hi Hp HP)]; [| done | apply Hl; left | done].
  cbn beta. intros _ s1 (Hi1 & Hp1 & HP1 & Et1 & Ei1 & Hio).
  eapply wp_mono; [| | apply (IH s1 Hi1 Hp1 HP1 Hnd)]; [| done |].
  - cbn beta. intros _ s2 (Hi2 & Hp2 & HP2 & Et2 & Ei2). split_and!; congruence || done.
  - intros u Hu. apply Hio; [by intros -> |]. apply Hl. by right.
Qed.
End calls.

(** ** Calls that leave the I/O queue alone *)
Section same_io.
Context {E : Type} `{!EventSys E}.
Notation vp := (@_st_vp E).
Implicit Types (s : vp).

Definition same_io s s' : Prop := io_q s' = io_q s ∧ pollqs s' = pollqs s ∧ eventsys s' = eventsys s.

#[export] Instance same_io_preorder : PreOrder same_io.
Proof. split; [done |]. intros s1 s2 s3 (?&?&?) (?&?&?). split_and!; congruence. Qed.
#[export] Instance same_io_frame : Frame same_io.
Proof. split; try done. apply _. Qed.
#[export] Instance same_io_frame_switch : FrameSwitch same_io.
Proof. by split. Qed.
End same_io.

(** ** The rest of the event system's interface: [dispatch] *)
(** [A]: what the kernel answers.  While the idle thread runs, every polling thread
    waits.  A dispatch may make polling threads runnable. *)
Class Dispatch (E A : Type) `{EventSys E} := {
  dispatch : A → M (@_st_vp E) unit;
}.

Class DispatchLaws (E A : Type) `{!EventSys E, !EventSysLaws E, !Dispatch E A} := {
  answer_ok : A → @_st_vp E → Prop;
  dispatch_ok a s : inv s → polls_wait s → answer_ok a s →
    wp (dispatch a) (λ _ s', inv s' ∧ this_thread s' = this_thread s ∧ idle_thread s' = idle_thread s)
      (λ _, False) s;
  answer_same a s s' : same_io s s' → answer_ok a s → answer_ok a s';
  dispatch_grows a : grows (dispatch a);
}.
