(* ===== verification/SchedSteps.v ===== *)
(** * The virtual processor as a transition system

    The calls of the running thread and the rounds of the idle thread, in any
    order and with any arguments that C code may pass.  The theorems are about all
    states that can be reached from [st_init]. *)

From stdpp Require Import base list sets gmap.
From Stdlib Require Import Lia ZArith Sorting.Sorted.
From S2P Require Import Prelude.
From S2P Require Import Bytes.
From S2P Require Import TimeoutHeap.
From S2P Require Import Vp.
From S2P Require Import Sync.
From S2P Require Import Fair.
From S2P Require Import Sched.
From S2P Require Import SchedOps.
From S2P Require Import SchedCalls.

Local Open Scope Z_scope.

Section steps.
Context {E A : Type} `{!EventSys E, !EventSysLaws E, !Dispatch E A, !DispatchLaws E A}.
Notation vp := (@_st_vp E).
Implicit Types (s : vp) (x t m : Z) (th : _st_thread).

Lemma idle_round_ok (a : A) now secs s :
  inv s → quiet s → this_thread s = idle_thread s → answer_ok a s →
  wp (idle_round (dispatch a) now secs) (λ _, ok) ok s.
Proof.
  intros Hi Hq Hid Ha. unfold idle_round. apply wp_bind.
  eapply wp_mono; [| | apply (dispatch_ok a s Hi)]; [| done | | done].
  2: { apply idle_polls_wait; [done | done | by apply Hq]. }
  cbn beta. intros _ s2 (Hi2 & Et2 & Ei2). apply wp_bind.
  eapply wp_mono; [| | apply (check_clock_ok now secs s2 ok Hi2)]; [| done].
  cbn beta. intros _ s3 (Hi3 & l' & Hw). destruct (woke_kept _ _ _ _ Hw) as (Ei3 & Et3 & _).
  apply wp_bind, wp_gets. cbn [id].
  assert (this_thread s3 = idle_thread s3) as Hid3.
  { rewrite Et3, Ei3. cbn. by rewrite Et2, Ei2. }
  destruct (running s3 Hi3) as (th3 & Ht3 & Hs3 & _ & Hl3).
  destruct (live_idle_state _ _ _ _ Hl3 Hid3) as [_ Hc3].
  destruct (running_place s3 th3 Hi3 Ht3) as (Hpl & Hfl & _ & _).
  assert (context_place s3 (this_thread s3) (context th3) = nowhere) as Hn by (by destruct Hc3 as [-> | [-> | ->]]).
  pose proof (focus_intro s3 _ th3 Hi3 Ht3) as Hf3. rewrite Hpl, Hn in Hf3.
  apply wp_bind, (wp_upd _ _ _ _ _ _ _ _ Hf3). intros s4 E4 Hf4.
  assert (this_thread s4 = this_thread s3 ∧ idle_thread s4 = idle_thread s3) as [Et4 Ei4] by (by subst s4).
  apply (wp_switch (this_thread s3) In_idle _ _ _ _ _ Et4 Hf4); [done | | done].
  intros s5 Hp5 (Ei5 & _). rewrite Ei4 in Ei5.
  apply (live_place _ _ _ _ _ Hp5); cbn; rewrite ?Ei5; try done.
  - split; [done | by intros [_ ?]].
  - unfold state_ok. cbn. split_and!; try done. intros H. by apply (at_sleep _ _ _ Hp5) in H.
  - apply Hl3.
  - intros _. split; [by left | by right; right].
  - apply Hl3.
Qed.

(** ** Events *)
Inductive event :=
| Resume
| Usleep (usecs : Z)
| Poll (fds : list pollfd) (timeout : Z)
| Cond_new (c : Z)
| Cond_destroy (c : Z)
| Cond_wait (c timeout : Z)
| Cond_signal (c : Z) (broadcast : bool)
| Mutex_new (m : Z)
| Mutex_destroy (m : Z)
| Lock (m : Z)
| Unlock (m : Z)
| Trylock (m : Z)
| Interrupt (t : Z)
| Create (t : Z)
| Exit (rv : Z)
| Idle (a : A) (now secs : Z).

(** The rest of the call in which the thread that now runs was suspended. *)
Definition go_on (k : call) : M vp unit :=
  match k with
  | In_usleep => st_usleep_leave
  | In_cond c => st_cond_timedwait_leave c
  | In_mutex m => st_mutex_lock_leave m
  | In_poll => st_poll_leave ;; ret tt
  | In_exit => st_thread_exit_leave
  | Start | In_idle => resume ;; ret tt
  | Exited => lift Undef
  end.

Definition exec (ev : event) : M vp unit :=
  match ev with
  | Resume =>
      s <- gets id ;; th <- the_thread (this_thread s) ;;
      match context th with Some k => go_on k | None => ret tt end
  | Usleep us => st_usleep_enter us
  | Poll fds timeout => st_poll_enter fds timeout
  | Cond_new c => st_cond_new (Some c) ;; ret tt
  | Cond_destroy c => st_cond_destroy c
  | Cond_wait c timeout => st_cond_timedwait_enter c timeout
  | Cond_signal c b => _st_cond_signal c b
  | Mutex_new m => st_mutex_new (Some m) ;; ret tt
  | Mutex_destroy m => st_mutex_destroy m
  | Lock m => st_mutex_lock_enter m ;; ret tt
  | Unlock m => st_mutex_unlock m
  | Trylock m => st_mutex_trylock m
  | Interrupt t => st_thread_interrupt t
  | Create t => st_thread_create (Some t) false None ;; ret tt
  | Exit rv => st_thread_exit_enter rv
  | Idle a now secs => resume ;; idle_round (dispatch a) now secs
  end.

(** What the caller has to see to: a thread that was suspended first finishes its call,
    pointers point to objects, new objects have new addresses, the sleep queue has room.
    Of the event system: it notifies polls that wait, each once.  The idle thread goes on while there are
    active threads; then it ends the process. *)
Definition allowed (ev : event) s : Prop :=
  match ev with
  | Resume => this_thread s ≠ idle_thread s ∧ ∃ th k, threads s !! this_thread s = Some th ∧
      context th = Some k ∧ k ≠ In_exit ∧ k ≠ Exited ∧ k ≠ In_idle
  | Idle a _ _ => this_thread s = idle_thread s ∧ 0 < active_count s ∧ answer_ok a s
  | Interrupt t => user s ∧ is_Some (threads s !! t)
  | Usleep _ => user s ∧ room s
  | Poll fds _ => user s ∧ room s ∧ fds_valid fds
  | Cond_wait c _ => user s ∧ room s ∧ is_Some (conds s !! c)
  | Cond_new c => user s ∧ c ∉ dom (conds s)
  | Cond_destroy c | Cond_signal c _ => user s ∧ is_Some (conds s !! c)
  | Mutex_new m => user s ∧ m ∉ dom (mutexes s)
  | Mutex_destroy m | Lock m | Unlock m | Trylock m => user s ∧ is_Some (mutexes s !! m)
  | Create t => user s ∧ t ∉ dom (threads s)
  | Exit _ => user s
  end.

Lemma resume_ok s : ok s → allowed Resume s → wp (exec Resume) (λ _, ok) ok s.
Proof.
  intros [Hi Hq] (Hni & th & k & Ht & Hc & H1 & H2 & H3). cbn [exec]. apply wp_bind, wp_gets. cbn [id].
  apply wp_bind, (wp_the_thread _ _ _ _ th); [done |]. rewrite Hc.
  assert (suspended_in s k) as Hs by (by exists th). destruct k; try done; cbn [go_on].
  - apply wp_bind, (resume_plain s Start); auto. intros s' th' Hi' Ei Et _ _. apply wp_ret.
    split; [done |]. intros H. congruence.
  - by apply usleep_leave_ok.
  - by apply cond_wait_leave_ok.
  - eapply wp_mono; [| | by apply (mutex_lock_leave_ok lock s)]; [by intros ? ? [? _] | done].
  - apply wp_bind. eapply wp_mono; [| | by apply (poll_leave_ok s)]; [| done]. intros n s' Hok. by apply wp_ret.
Qed.

Lemma idle_resume s F :
  ok s → this_thread s = idle_thread s →
  wp resume (λ _ s', inv s' ∧ quiet s' ∧ this_thread s' = idle_thread s' ∧ same_io s s') F s.
Proof.
  intros [Hi Hq] Hid.
  destruct (running s Hi) as (th & Ht & Hs & _ & Hlv). destruct (live_idle_state _ _ _ _ Hlv Hid) as [_ Hc].
  destruct (running_place s th Hi Ht) as (_ & Hfl & _ & _).
  apply (wp_resume s th); try done. intros s' E' Hf.
  assert (context_place s (this_thread s) (context th) = nowhere) as Hn by (by destruct Hc as [-> | [-> | ->]]).
  rewrite Hn in Hf. assert (this_thread s' = this_thread s) as Et by (by subst s').
  assert (idle_thread s' = idle_thread s ∧ run_q s' = run_q s ∧ same_io s s') as (Ei & Er & Ee) by (by subst s').
  split_and!; [| intros _; rewrite Er; by apply Hq | by rewrite Et, Ei | done].
  apply (inv_resumed (this_thread s) _ _ Et Hf); try done; [apply Hlv |]. rewrite Ei. apply Hlv.
Qed.

Lemma idle_ok s (a : A) now secs : ok s → allowed (Idle a now secs) s → wp (exec (Idle a now secs)) (λ _, ok) ok s.
Proof.
  intros Hok (Hid & _ & Ha). cbn [exec]. apply wp_bind.
  eapply wp_mono; [| | apply (idle_resume s ok Hok Hid)]; [| done].
  cbn beta. intros _ s' (Hi' & Hq' & Hid' & Ee). apply idle_round_ok; [done | done | done |]. by apply (answer_same a s).
Qed.

Lemma wp_discard {B : Type} (c : M vp B) F s : wp c (λ _, ok) F s → wp (c ;; ret tt) (λ _, ok) F s.
Proof. intros H. apply wp_bind. eapply wp_mono; [| | exact H]; [| done]. intros a s' Hok. by apply wp_ret. Qed.

#[local] Hint Resolve usleep_enter_ok poll_enter_ok cond_new_ok cond_destroy_ok cond_wait_enter_ok signal_ok
  mutex_new_ok mutex_destroy_ok unlock_ok trylock_ok create_ok wp_discard : vp.

Lemma exec_ok ev s : ok s → allowed ev s → wp (exec ev) (λ _, ok) ok s.
Proof.
  intros Hok Ha. pose proof Hok as [Hi Hq]. destruct ev; try (cbn in Ha; destruct_and?; cbn [exec]; by eauto with vp).
  - by apply resume_ok.
  - destruct Ha as [Hu Hm]. cbn [exec]. apply wp_bind.
    eapply wp_mono; [| | by apply (mutex_lock_enter_ok m s)]; [| done]. intros got s' [H _]. by apply wp_ret.
  - destruct Ha as [Hu Ht]. cbn [exec]. pose proof (interrupt_ok s t Hi Ht) as H. unfold wp in *.
    pose proof (pres_interrupt goes_on t s) as Hg. destruct (st_thread_interrupt t s) as [[] s'] eqn:Ei; try done;
      (destruct (Hg _ s' eq_refl I) as (Et & Eid & _); by apply (ok_user s Hu)).
  - cbn [exec]. eapply wp_mono; [| | by apply (exit_ok rv s)]; [by intros ? ? [? _] | done].
  - by apply idle_ok.
Qed.

Lemma exec_yields ev : yields (exec ev).
Proof.
  destruct ev; cbn [exec]; try solve [fair]; try solve [apply yields_grows; fair].
  - apply yields_bind; [fair | intros r]. apply yields_bind; [fair | intros th].
    destruct (context th) as [[]|]; cbn [go_on]; fair.
  - apply yields_bind; [fair | intros r]. apply yields_idle_round, dispatch_grows.
Qed.

(** A call that fails returns -1 and the thread goes on. *)
Definition attempt {B : Type} (c : M vp B) : M vp unit := λ s,
  match c s with
  | (Ok _, s') | (Fail, s') => (Ok tt, s')
  | (Throw, s') => (Throw, s')
  | (Undef, s') => (Undef, s')
  | (Hang, s') => (Hang, s')
  end.

Definition step s s' : Prop := ∃ ev, allowed ev s ∧ attempt (exec ev) s = (Ok tt, s').

(** [s'] is reached from [s] through the states [l]. *)
Inductive steps s : list vp → Prop :=
| steps_nil : steps s []
| steps_cons s' l : step s s' → steps s' l → steps s (s' :: l).

Lemma attempt_ok {B : Type} (c : M vp B) (Q : vp → Prop) s :
  wp c (λ _, Q) Q s → ∃ s', attempt c s = (Ok tt, s') ∧ Q s'.
Proof. unfold wp, attempt. destruct (c s) as [[] s']; try done; by exists s'. Qed.

Lemma step_ok s s' : ok s → step s s' → ok s'.
Proof.
  intros Hok (ev & Ha & He). destruct (attempt_ok _ _ _ (exec_ok ev s Hok Ha)) as (s1 & E1 & Hs1).
  rewrite E1 in He. by injection He as <-.
Qed.

Lemma step_queue s s' : step s s' → goes_on s s' ∨ switched s s'.
Proof.
  intros (ev & _ & He). unfold attempt in He. destruct (exec ev s) as [o s1] eqn:E1.
  assert (s1 = s' ∧ returned o) as [<- Ho] by (destruct o; simplify_eq; done).
  by apply (exec_yields ev s o s1 E1).
Qed.

(** [st_init] *)
Lemma init_nowhere idle primordial clock (e : E) x : at_place (st_init idle primordial clock e) x nowhere.
Proof.
  split; cbn; try done.
  - split; [by intros ?%not_elem_of_nil | done].
  - split; [by intros ?%not_elem_of_nil | done].
  - intros c. split; [by intros (l & [=] & _) | done].
  - intros m. split; [by intros (y & [=] & _) | done].
Qed.

Lemma init_ok idle primordial clock (e : E) : idle ≠ primordial → ev_ok e → ok (st_init idle primordial clock e).
Proof.
  intros Hne Hev. set (s := st_init idle primordial clock e).
  assert (∀ x, thread_ok primordial s x) as Hall.
  { intros x. pose proof (init_nowhere idle primordial clock e x) as Hp. change (at_place s x nowhere) in Hp.
    assert (¬ asleep s x) as Hns by (by intros ?%(at_sleep _ _ _ Hp)).
    unfold thread_ok, s at 1, st_init. cbn [threads].
    destruct (decide (x = idle)) as [-> |]; [| destruct (decide (x = primordial)) as [-> |]].
    - rewrite lookup_insert_eq. apply (live_place _ _ _ _ _ Hp); cbn; try done.
      + split; [done | by intros []].
      + intros _. split; [by left | by right; left].
    - rewrite lookup_insert_ne, lookup_singleton_eq by done. apply (live_place _ _ _ _ _ Hp); cbn; try done.
      + split; [done | by intros []].
      + unfold state_ok. cbn. split; [by left | done].
    - rewrite lookup_insert_ne, lookup_singleton_ne by done. destruct Hp as [P1 P2 P3 P4 P5 P6]. split_and!; try done.
      + by intros ?%P1.
      + by intros ?%P2.
      + intros c H. by apply P5 in H.
      + intros m H. by apply P6 in H. }
  split; [split |].
  - intros t. split; cbn; try done; try apply NoDup_nil_2.
    + apply sleepq_empty_ok.
    + rewrite lookup_insert_eq. by eexists.
  - exists (Thread RUNNING _ST_FL_PRIMORDIAL 0 None None). cbn. by rewrite lookup_insert_ne, lookup_singleton_eq.
  - intros H. by destruct Hne.
Qed.

Lemma rtc_step_ok s s' : ok s → rtc step s s' → ok s'.
Proof. induction 2; [done |]. by eauto using step_ok. Qed.

(** ** The theorems *)

(** C4: from [st_init] on, whatever calls the threads make, in whatever order, and
    whatever polls the event system notifies at whatever times: every thread is on
    exactly the queues that go with its state, and the next call neither fails an
    assertion of the scheduler, nor inserts a linked member, nor removes one that is on no
    list, nor follows a null pointer of the sleep queue, nor loops for ever. *)
Theorem vp_calls_keep_queues idle primordial clock (e : E) s :
  idle ≠ primordial → ev_ok e → rtc step (st_init idle primordial clock e) s →
  ok s ∧ ∀ ev, allowed ev s → ∃ s', attempt (exec ev) s = (Ok tt, s') ∧ ok s'.
Proof.
  intros Hne Hev Hr. assert (ok s) as Hok by (eapply rtc_step_ok; [by apply init_ok | done]).
  split; [done |]. intros ev Ha. by apply attempt_ok, exec_ok.
Qed.

(** How often another thread is dispatched. *)
Fixpoint switches s (l : list vp) : nat :=
  match l with
  | [] => O
  | s' :: l => (if bool_decide (this_thread s' = this_thread s) then O else S O) + switches s' l
  end%nat.

Lemma step_position s s' pre t post :
  step s s' → run_q s = pre ++ t :: post →
  this_thread s' = t ∨ ∃ pre' post', run_q s' = pre' ++ t :: post' ∧
    (length pre' + (if bool_decide (this_thread s' = this_thread s) then 0 else 1) <= length pre)%nat.
Proof.
  intros Hs Hq. destruct (step_queue s s' Hs) as [(Et & _ & [l Hl]) | (_ & l & Hl)].
  - right. exists pre, (post ++ l). rewrite Hl, Hq, <- app_assoc. split; [done |].
    rewrite bool_decide_true by done. lia.
  - rewrite Hq, <- app_assoc in Hl. destruct pre as [| u pre]; cbn [app] in Hl; [left; by destruct Hl |].
    destruct Hl as [Et Hr]. destruct (decide (t = u)) as [-> | Hne]; [by left | right].
    exists (remove u pre), (remove u (post ++ l)). split.
    + rewrite Hr. unfold remove. rewrite filter_cons_False by naive_solver.
      by rewrite filter_app, filter_cons_True.
    + pose proof (length_filter (λ x, x ≠ u) pre). unfold remove. cbn. case_bool_decide; lia.
Qed.

(** C5: the run queue is fair: a thread that has [length pre] threads before it runs
    after at most that many other threads were dispatched, whatever the running
    threads do in between. *)
Theorem run_queue_is_fair s l t pre post :
  run_q s = pre ++ t :: post → steps s l → (length pre < switches s l)%nat →
  ∃ s', s' ∈ l ∧ this_thread s' = t.
Proof.
  intros Hq Hs. revert pre post Hq. induction Hs as [s | s s' l Hstep _ IH]; intros pre post Hq Hlen; cbn in Hlen; [lia |].
  destruct (step_position s s' pre t post Hstep Hq) as [Ht | (pre' & post' & Hq' & Hle)].
  - exists s'. split; [left | done].
  - destruct (IH pre' post' Hq') as (s2 & Hin & Ht2); [lia |]. exists s2. split; [by right | done].
Qed.

(** C14: [_st_vp_check_clock] makes exactly the threads runnable that are due, in the order
    of their times, and leaves every other thread as it is. *)
Theorem clock_wakes_due_threads now secs s :
  inv s → ∃ s' l, _st_vp_check_clock now secs s = (Ok tt, s') ∧ inv s' ∧ woke now l (with_last_clock now s) s'.
Proof.
  intros Hi. pose proof (check_clock_ok now secs s (λ _, False) Hi) as H. unfold wp in H.
  destruct (_st_vp_check_clock now secs s) as [[[] | | | |] s']; try done. destruct H as [Hi' [l Hw]]. by exists s', l.
Qed.

(** [st_mutex_unlock] by the owner hands the mutex to the first waiter that still
    waits and makes it runnable; if there is none, the mutex is free.  Anybody else gets -1. *)
Theorem mutex_unlock_hands_over m y s :
  inv s → user s → mutexes s !! m = Some y →
  (owner y = Some (this_thread s) → ∃ s', st_mutex_unlock m s = (Ok tt, s') ∧ inv s' ∧
     let next := waiting LOCK_WAIT s (mwait_q y) in
     mutexes s' = <[m := Mutex (hd_error next) (mwait_q y)]> (mutexes s) ∧
     run_q s' = run_q s ++ take 1 next ∧ this_thread s' = this_thread s) ∧
  (owner y ≠ Some (this_thread s) → st_mutex_unlock m s = (Fail, s)).
Proof.
  intros Hi Hu Hm. unfold st_mutex_unlock, bind, the_mutex. cbn [gets id]. rewrite Hm. split; intros Ho.
  - rewrite bool_decide_false by tauto.
    pose proof (handover_ok m [] (mwait_q y) s y (λ _, False) Hi Hu Hm Ho eq_refl) as H. unfold wp in H.
    destruct (mutex_handover m (mwait_q y) s) as [[[] | | | |] s'];
      try by (destruct H; intros ? ? ?%not_elem_of_nil).
    destruct H as (Hi' & Et & _ & Em & Er); [by intros ? ? ?%not_elem_of_nil |]. by exists s'.
  - by rewrite bool_decide_true.
Qed.

(** [st_cond_signal] wakes the thread that waits longest and [st_cond_broadcast] all,
    in the order in which they came; threads that were woken before are passed over. *)
Theorem cond_signal_wakes_in_order c l (b : bool) s :
  inv s → conds s !! c = Some l →
  ∃ s', _st_cond_signal c b s = (Ok tt, s') ∧ inv s' ∧ this_thread s' = this_thread s ∧ conds s' = conds s ∧
    run_q s' = run_q s ++ (if b then waiting COND_WAIT s l else take 1 (waiting COND_WAIT s l)).
Proof.
  intros Hi Hl. pose proof (signal_run c l b s (λ _, False) Hi Hl) as H. unfold wp in H.
  destruct (_st_cond_signal c b s) as [[[] | | | |] s']; try done.
  destruct H as (Hi' & (_ & Et & _ & Ec & _) & Hr). by exists s'.
Qed.

(** [st_mutex_lock] returns 0 only to the owner, whether it waited or not. *)
Theorem mutex_lock_returns_owner m s :
  inv s → this_thread s ≠ idle_thread s →
  (user s → is_Some (mutexes s !! m) → ∀ s', st_mutex_lock_enter m s = (Ok true, s') →
    this_thread s' = this_thread s ∧ owns s' m (this_thread s)) ∧
  (suspended_in s (In_mutex m) → ∀ s', st_mutex_lock_leave m s = (Ok tt, s') →
    this_thread s' = this_thread s ∧ owns s' m (this_thread s)).
Proof.
  intros Hi Hni. split.
  - intros Hs Hm s' E'. pose proof (mutex_lock_enter_ok m s Hi Hs Hm) as H. unfold wp in H. rewrite E' in H.
    destruct H as [_ H]. by apply H.
  - intros Hs s' E'. pose proof (mutex_lock_leave_ok m s Hi Hs Hni) as H. unfold wp in H. rewrite E' in H.
    by destruct H as [_ H].
Qed.
End steps.

(** ** Scripts

    A list of events that is checked and executed; for examples. *)
Class Checks (E A : Type) `{!EventSys E, !EventSysLaws E, !Dispatch E A, !DispatchLaws E A} := {
  validb : list pollfd → bool;
  answerb : A → @_st_vp E → bool;
  validb_ok fds : validb fds = true → fds_valid fds;
  answerb_ok a s : answerb a s = true → answer_ok a s;
}.

Section scripts.
Context {E A : Type} `{!EventSys E, !EventSysLaws E, !Dispatch E A, !DispatchLaws E A, !Checks E A}.
Notation vp := (@_st_vp E).
Notation events := (list (@event A)).
Implicit Types (s : vp).

#[export] Instance room_dec s : Decision (room s).
Proof. unfold room. apply _. Defined.

Definition userb s : bool :=
  bool_decide (this_thread s ≠ idle_thread s) &&
  match threads s !! this_thread s with Some th => bool_decide (context th = None) | None => false end.

Definition resumes (k : option call) : bool :=
  match k with
  | None | Some In_exit | Some Exited | Some In_idle => false
  | Some _ => true
  end.

Definition allowedb (ev : @event A) s : bool :=
  match ev with
  | Resume => bool_decide (this_thread s ≠ idle_thread s) &&
      match threads s !! this_thread s with Some th => resumes (context th) | None => false end
  | Idle a _ _ => bool_decide (this_thread s = idle_thread s) && bool_decide (0 < active_count s) && answerb a s
  | Interrupt t => userb s && bool_decide (is_Some (threads s !! t))
  | Usleep _ => userb s && bool_decide (room s)
  | Poll fds _ => userb s && bool_decide (room s) && validb fds
  | Cond_wait c _ => userb s && bool_decide (room s) && bool_decide (is_Some (conds s !! c))
  | Cond_new c => userb s && bool_decide (c ∉ dom (conds s))
  | Cond_destroy c | Cond_signal c _ => userb s && bool_decide (is_Some (conds s !! c))
  | Mutex_new m => userb s && bool_decide (m ∉ dom (mutexes s))
  | Mutex_destroy m | Lock m | Unlock m | Trylock m => userb s && bool_decide (is_Some (mutexes s !! m))
  | Create t => userb s && bool_decide (t ∉ dom (threads s))
  | Exit _ => userb s
  end.

Lemma userb_user s : userb s = true → user s.
Proof.
  unfold userb, user. destruct (threads s !! this_thread s) as [th |]; [| by rewrite andb_false_r].
  rewrite andb_true_iff, !bool_decide_eq_true. intros [? ?]. split; [done | by exists th].
Qed.

Lemma allowedb_allowed ev s : allowedb ev s = true → allowed ev s.
Proof.
  destruct ev; cbn [allowedb allowed]; rewrite ?andb_true_iff, ?bool_decide_eq_true;
    try (intros H; destruct_and?; split_and?; by auto using userb_user).
  - intros [Hn H]. split; [done |]. destruct (threads s !! this_thread s) as [th |]; [| done].
    destruct (context th) as [k |] eqn:Ec; [| done]. exists th, k. by destruct k.
  - intros [[Hu Hr] Hv]. split_and!; [by apply userb_user | done | by apply validb_ok].
  - intros [[Hid Hac] Ha]. split_and!; [done | done | by apply answerb_ok].
Qed.

(** The state after a script, if every event is allowed. *)
Fixpoint run_events (evs : events) s : option vp :=
  match evs with
  | [] => Some s
  | ev :: evs =>
      if allowedb ev s then
        match attempt (exec ev) s with (Ok _, s') => run_events evs s' | _ => None end
      else None
  end.

Lemma run_events_rtc evs s s' : run_events evs s = Some s' → rtc (step (A := A)) s s'.
Proof.
  revert s. induction evs as [| ev evs IH]; intros s; cbn; [by intros [= <-] |].
  destruct (allowedb ev s) eqn:Ha; [| done]. destruct (attempt (exec ev) s) as [[[] | | | |] s1] eqn:E1; try done.
  intros H. apply rtc_l with s1; [| by apply IH]. exists ev. split; [by apply allowedb_allowed | done].
Qed.

(** The thread 1 is the idle thread, 2 the primordial one. *)
Definition init (e : E) : vp := st_init 1 2 1000 e.

Definition reached (e : E) (evs : events) : vp := default (init e) (run_events evs (init e)).

Lemma reached_rtc e evs : is_Some (run_events evs (init e)) → rtc (step (A := A)) (init e) (reached e evs).
Proof. intros [s Hs]. unfold reached. rewrite Hs. by apply run_events_rtc with evs. Qed.

Lemma reached_inv e evs : ev_ok e → is_Some (run_events evs (init e)) → inv (reached e evs).
Proof. intros He H. apply (rtc_step_ok (A := A) (init e)); [by apply init_ok | by apply reached_rtc]. Qed.

(** The states on the way. *)
Fixpoint states (evs : events) s : list vp :=
  match evs with
  | [] => []
  | ev :: evs => let s' := (attempt (exec ev) s).2 in s' :: states evs s'
  end.

Lemma run_events_steps evs s : is_Some (run_events evs s) → steps (A := A) s (states evs s).
Proof.
  revert s. induction evs as [| ev evs IH]; intros s; cbn; [constructor |].
  destruct (allowedb ev s) eqn:Ha; [| by intros []].
  destruct (attempt (exec ev) s) as [[[] | | | |] s1] eqn:E1; try by intros [].
  intros H. constructor; [| by apply IH]. exists ev. split; [by apply allowedb_allowed | done].
Qed.
End scripts.

(** ** A run of three threads *)
Section witness.
(** An event system that accepts every descriptor. *)
#[local] Instance any_fds : EventSys unit := {
  pollset_add _ := ret tt;
  pollset_del _ := ret tt;
}.
#[local] Instance any_fds_laws : EventSysLaws unit.
Proof.
  refine {| ev_ok _ := True; fds_valid _ := True; fds_ok _ _ := True |}.
  - intros fds e _ _. exists (Ok tt), e. split; [done |]. split; [by left | done].
  - intros fds e _ _. by exists e.
Defined.

(** Nothing is ever ready. *)
#[local] Instance never_ready : Dispatch unit unit := { dispatch _ := ret tt }.
#[local] Instance never_ready_laws : DispatchLaws unit unit.
Proof.
  refine {| answer_ok _ _ := True |}.
  - intros [] s Hi _ _. by apply wp_ret.
  - done.
  - intros []. apply pres_ret, _.
Defined.
#[local] Instance any_checks : Checks unit unit := {|
  validb _ := true; answerb _ _ := true; validb_ok _ _ := I; answerb_ok _ _ _ := I |}.

Notation script_of := (list (@event unit)).
Notation reached := (reached (A := unit) tt).

(** The primordial thread 2 starts 3 and 4, takes the mutex 50 and sleeps; 3 and 4 wait for
    it, 3 sleeps before. *)
Definition script : script_of :=
  [Create 3; Create 4; Mutex_new 50; Cond_new 60; Lock 50; Usleep 7; Resume; Usleep 5; Resume; Lock 50;
   Idle tt 1006 0; Resume; Lock 50; Idle tt 1010 0; Resume].

Example script_run : is_Some (run_events script (init tt)) ∧ this_thread (reached script) = 2 ∧ run_q (reached script) = [] ∧
  (λ y, (owner y, mwait_q y)) <$> mutexes (reached script) !! 50 = Some (Some 2, [4; 3]).
Proof. vm_compute. split_and!; try done. by eexists. Qed.

Lemma vp_calls_keep_queues_witness :
  allowed (Unlock 50) (reached script) ∧ ok (reached script) ∧
  ∃ s', attempt (exec (Unlock 50)) (reached script) = (Ok tt, s') ∧ ok s'.
Proof.
  assert (allowed (Unlock 50) (reached script)) as Ha by (apply allowedb_allowed; vm_compute; done).
  destruct (vp_calls_keep_queues 1 2 1000 tt (reached script)) as [Hok H].
  - lia.
  - exact I.
  - apply reached_rtc. vm_compute. by eexists.
  - split; [exact Ha |]. split; [exact Hok |]. exact (H _ Ha).
Defined.

(** 3 and 4 are created; when 2 and 3 went to sleep, 4 ran. *)
Lemma run_queue_is_fair_witness :
  let s := reached [Create 3; Create 4] in
  run_q s = [3; 4] ∧ ∃ s', s' ∈ states [Usleep 7; Resume; Usleep 5] s ∧ this_thread s' = 4.
Proof.
  intros s. assert (run_q s = [3] ++ 4 :: []) as Hq by (vm_compute; done). split; [exact Hq |].
  apply (run_queue_is_fair s _ 4 [3] [] Hq).
  - apply run_events_steps. vm_compute. by eexists.
  - vm_compute. lia.
Defined.

(** 2 sleeps until 1007 and 3 until 1005. *)
Definition two_sleep : script_of := [Create 3; Usleep 7; Resume; Usleep 5].

Lemma clock_wakes_due_threads_witness :
  let s := reached two_sleep in
  size (sleeping (sleep_q s)) = 2%nat ∧
  ∃ s' l, _st_vp_check_clock 1006 0 s = (Ok tt, s') ∧ inv s' ∧ woke 1006 l (with_last_clock 1006 s) s'.
Proof.
  intros s. split; [vm_compute; done |]. apply (clock_wakes_due_threads 1006 0 s).
  apply reached_inv; [exact I |]. vm_compute. by eexists.
Defined.

Example clock_wakes_three : run_q (_st_vp_check_clock 1006 0 (reached two_sleep)).2 = [3] ∧
  run_q (_st_vp_check_clock 1007 0 (reached two_sleep)).2 = [3; 2].
Proof. vm_compute. done. Qed.

Lemma mutex_unlock_hands_over_witness :
  ∃ s', st_mutex_unlock 50 (reached script) = (Ok tt, s') ∧ run_q s' = [4] ∧
    mutexes s' = <[50 := Mutex (Some 4) [4; 3]]> (mutexes (reached script)).
Proof.
  destruct (mutex_unlock_hands_over 50 (Mutex (Some 2) [4; 3]) (reached script)) as [H _].
  - apply reached_inv; [exact I |]. vm_compute. by eexists.
  - apply userb_user. vm_compute. done.
  - vm_compute. done.
  - destruct H as (s' & E' & _ & Em & Er & _); [vm_compute; done |].
    exists s'. split; [exact E' |]. split; [rewrite Er; vm_compute; done |]. rewrite Em. f_equal.
Defined.

(** 2 and 3 wait, 4 signals. *)
Definition two_wait : script_of :=
  [Create 3; Create 4; Cond_new 60; Cond_wait 60 ST_UTIME_NO_TIMEOUT; Resume; Cond_wait 60 ST_UTIME_NO_TIMEOUT; Resume].

Lemma cond_signal_wakes_in_order_witness :
  ∃ s', _st_cond_signal 60 false (reached two_wait) = (Ok tt, s') ∧ run_q s' = [2].
Proof.
  destruct (cond_signal_wakes_in_order 60 [2; 3] false (reached two_wait)) as (s' & E' & _ & _ & _ & Er).
  - apply reached_inv; [exact I |]. vm_compute. by eexists.
  - vm_compute. done.
  - exists s'. split; [exact E' |]. rewrite Er. vm_compute. done.
Defined.

(** After the script 2 unlocks and sleeps; 4 goes on in [st_mutex_lock]. *)
Definition handed_over : script_of := script ++ [Unlock 50; Usleep 100].

Lemma mutex_lock_returns_owner_witness :
  let s := reached handed_over in
  this_thread s = 4 ∧ ∃ s', st_mutex_lock_leave 50 s = (Ok tt, s') ∧ owns s' 50 4.
Proof.
  intros s. assert (this_thread s = 4) as Ht by (vm_compute; done). split; [exact Ht |].
  destruct (mutex_lock_returns_owner 50 s) as [_ H].
  - apply reached_inv; [exact I |]. vm_compute. by eexists.
  - vm_compute. done.
  - exists (st_mutex_lock_leave 50 s).2. split; [vm_compute; done |]. rewrite <- Ht. apply H.
    + vm_compute. eexists. split; reflexivity.
    + vm_compute. reflexivity.
Defined.
End witness.
