(* ===== verification/IoQueue.v ===== *)
(** * event.c, sched.c: properties of the I/O queue and the event system that every call keeps

    Between the calls of an event system the I/O queue and its tables change in few ways: [st_poll] joins the queue
    and leaves it, a dispatch takes polls off it.  A property of a state that survives these survives every
    step of the threads and of the idle thread. *)

From stdpp Require Import base list sets gmap relations.
From Stdlib Require Import Lia ZArith.
From S2P Require Import Prelude.
From S2P Require Import Bytes.
From S2P Require Import TimeoutHeap.
From S2P Require Import Vp.
From S2P Require Import Sync.
From S2P Require Import Fair.
From S2P Require Import Sched.
From S2P Require Import SchedOps.
From S2P Require Import SchedCalls.
From S2P Require Import SchedSteps.

Local Open Scope Z_scope.

Section queue.
Context {E : Type} `{!EventSys E, HL : !EventSysLaws E}.
Notation vp := (@_st_vp E).
Implicit Types (s : vp) (t : Z).

Lemma bind_inv {A B : Type} (c : M vp A) (k : A → M vp B) s o s' :
  bind c k s = (o, s') → returned o →
  (∃ a s1, c s = (Ok a, s1) ∧ k a s1 = (o, s')) ∨ (c s = (Fail, s') ∧ o = Fail).
Proof.
  unfold bind. destruct (c s) as [[a | | | |] s1]; intros H Ho; simplify_eq; try done; [left; eauto | by right].
Qed.

(** The descriptors of the poll of [t]. *)
Definition fds_of s t : list pollfd := from_option pds [] (pollqs s !! t).

(** [kept_refused]: the event system does not take the descriptors; [kept_joined]: it does, and the poll of [t] is
    queued; [kept_left]: the poll of [t] ends while it is on the queue; [kept_dropped]: after it was taken off. *)
Class IoKept (P : vp → Prop) : Prop := {
  kept_same s s' : same_io s s' → P s → P s';
  kept_refused fds s e : ev_ok (eventsys s) → fds_valid fds → pollset_add fds (eventsys s) = (Fail, e) →
    P s → P (with_eventsys e s);
  kept_joined t fds s s' : ev_ok (eventsys s) → fds_valid fds → pollset_add fds (eventsys s) = (Ok tt, eventsys s') →
    t ∉ io_q s → io_q s' = io_q s ++ [t] → pollqs s' = <[t := Pollq fds true]> (pollqs s) → P s → P s';
  kept_left t s s' : ev_ok (eventsys s) → fds_ok (eventsys s) (fds_of s t) → NoDup (io_q s) → t ∈ io_q s →
    pollset_del (fds_of s t) (eventsys s) = (Ok tt, eventsys s') → io_q s' = remove t (io_q s) →
    (∀ u, u ≠ t → pollqs s' !! u = pollqs s !! u) → P s → P s';
  kept_dropped t s s' : t ∉ io_q s → io_q s' = io_q s → (∀ u, u ≠ t → pollqs s' !! u = pollqs s !! u) →
    eventsys s' = eventsys s → P s → P s';
}.

Section kept.
Context (P : vp → Prop) `{HP : !IoKept P}.

Lemma joins_kept fds s o s' :
  ev_ok (eventsys s) → fds_valid fds → P s →
  (s1 <- (on_ev (pollset_add fds) ;; gets id) ;;
   modify (λ s, with_pollqs (<[this_thread s1 := Pollq fds true]> (pollqs s)) s) ;; _ST_ADD_IOQ (this_thread s1)) s = (o, s') →
  returned o → P s'.
Proof.
  intros Hev Hv Hp Hs Ho. unfold bind, on_ev in Hs. destruct (pollset_add fds (eventsys s)) as [[[] | | | |] e] eqn:Ea; simplify_eq/=; try done.
  - set (me := this_thread s) in *. unfold _ST_ADD_IOQ, bind, check in Hs. cbn [modify] in Hs.
    destruct (decide (me ∉ io_q s)) as [Hn | Hn].
    + rewrite bool_decide_true in Hs by done. injection Hs as <- <-. by apply (kept_joined me fds s).
    + rewrite bool_decide_false in Hs by done. by injection Hs as <- <-.
  - by apply (kept_refused fds).
Qed.

Lemma poll_enter_kept fds timeout s o s' :
  inv s → P s → fds_valid fds → st_poll_enter fds timeout s = (o, s') → returned o → P s'.
Proof.
  intros Hi Hp Hv Hs Ho. unfold st_poll_enter in Hs.
  destruct (bind_inv _ _ _ _ _ Hs Ho) as [([] & s1 & E1 & H1) | [E1 _]].
  2: { eapply kept_same; [| exact Hp]. by apply (pres_check_interrupt same_io s _ _ E1). }
  pose proof (pres_check_interrupt same_io s _ _ E1 I) as Hsame.
  assert (ev_ok (eventsys s1)) as Hev by (destruct Hsame as (_ & _ & ->); apply (inv_all s Hi 0)).
  apply (kept_same s s1 Hsame) in Hp. clear Hs E1 Hsame Hi s.
  destruct (bind_inv _ _ _ _ _ H1 Ho) as [([] & s2 & E2 & H2) | [E2 _]].
  2: { apply (joins_kept fds s1 Fail s' Hev Hv Hp); [| done]. unfold bind at 1. by rewrite (bind_fail _ _ _ _ E2). }
  clear H1. unfold bind at 1 in H2. cbn [gets id] in H2. unfold bind at 1 in H2. cbn [modify] in H2.
  destruct (bind_inv _ _ _ _ _ H2 Ho) as [([] & s4 & E4 & H4) | [E4 _]].
  - assert (P s4) as Hp4.
    { apply (joins_kept fds s1 (Ok tt) s4 Hev Hv Hp); [| done]. unfold bind at 1. by rewrite (bind_ok _ _ _ _ _ E2). }
    assert (pres same_io (add_sleepq_unless_forever (this_thread s2) timeout ;; upd (this_thread s2) (with_state IO_WAIT) ;;
      _ST_SWITCH_CONTEXT In_poll : M vp unit)) as Hpr by pres.
    exact (kept_same _ _ (Hpr s4 o s' H4 Ho) Hp4).
  - unfold _ST_ADD_IOQ, bind, check in E4. by destruct (bool_decide _).
Qed.

(** The middle of [st_poll_leave]. *)
Lemma leaves_kept s0 s pq n s' :
  inv s0 → same_io s0 s → P s → pollqs s !! this_thread s0 = Some pq →
  (if on_ioq pq then _ST_DEL_IOQ (this_thread s0) ;; on_ev (pollset_del (pds pq)) ;; ret 0
   else ret (ready_count (pds pq))) s = (Ok n, s') →
  P (with_pollqs (delete (this_thread s0) (pollqs s')) s').
Proof.
  intros Hi (Ei & Ep & Ee) Hp Hpq. set (me := this_thread s0) in *. destruct (running s0 Hi) as (th & Ht & _ & _ & Hl).
  pose proof (live_io _ _ _ _ Hl) as Hlio. unfold polling in Hlio. fold me in Hlio. rewrite <- Ei, <- Ep in Hlio.
  pose proof (ib_fds _ _ _ (inv_all s0 Hi 0) me pq) as Hfo. rewrite <- Ep, <- Ee in Hfo. specialize (Hfo Hpq).
  pose proof (ib_ev _ _ _ (inv_all s0 Hi 0)) as Hev. rewrite <- Ee in Hev.
  pose proof (ib_io _ _ _ (inv_all s0 Hi 0)) as Hnd. rewrite <- Ei in Hnd.
  destruct (on_ioq pq) eqn:Hon; intros H.
  - assert (me ∈ io_q s) as Hin by (apply Hlio; eauto).
    assert (fds_of s me = pds pq) as Hfds by (unfold fds_of; by rewrite Hpq). rewrite <- Hfds in Hfo, H.
    unfold _ST_DEL_IOQ, bind, check, on_ev in H. cbn [modify ret] in H. rewrite bool_decide_true in H by done. cbn in H.
    destruct (pollset_del (fds_of s me) (eventsys s)) as [[[] | | | |] e] eqn:Ed; simplify_eq.
    apply (kept_left me s); try done. intros u Hu. cbn. by rewrite lookup_delete_ne.
  - injection H as _ <-. apply (kept_dropped me s); try done; [| intros u Hu; cbn; by rewrite lookup_delete_ne].
    intros (q & Hq & Hq')%Hlio. congruence.
Qed.

Lemma poll_leave_kept s o s' : inv s → P s → st_poll_leave s = (o, s') → returned o → P s'.
Proof.
  intros Hi Hp Hs Ho. unfold st_poll_leave in Hs.
  destruct (bind_inv _ _ _ _ _ Hs Ho) as [(me & s1 & E1 & H1) | [E1 _]].
  2: { eapply kept_same; [| exact Hp]. by apply (pres_resume same_io s _ _ E1). }
  assert (same_io s s1) as Hio by (by apply (pres_resume same_io s _ _ E1)).
  assert (me = this_thread s) as ->.
  { unfold resume in E1. unfold bind at 1 in E1. cbn [gets id] in E1.
    destruct (bind_inv _ _ _ _ _ E1 I) as [(? & s2 & _ & H2) | [_ ?]]; [| done]. by injection H2. }
  apply (kept_same _ _ Hio) in Hp. clear Hs E1.
  destruct (bind_inv _ _ _ _ _ H1 Ho) as [(pq & s2 & E2 & H2) | [E2 _]].
  2: { unfold the_pollq in E2. by destruct (pollqs s1 !! this_thread s). }
  unfold the_pollq in E2. destruct (pollqs s1 !! this_thread s) as [pq' |] eqn:Hpq; [| done]. injection E2 as -> <-.
  destruct (bind_inv _ _ _ _ _ H2 Ho) as [(n & s3 & E3 & H3) | [E3 _]].
  - pose proof (leaves_kept s s1 pq n s3 Hi Hio Hp Hpq E3) as Hp3. unfold bind at 1 in H3. cbn [modify] in H3.
    assert (pres same_io (check_interrupt ;; ret n : M vp Z)) as Hrest by pres. exact (kept_same _ _ (Hrest _ o s' H3 Ho) Hp3).
  - exfalso. destruct (on_ioq pq); [| done]. unfold _ST_DEL_IOQ, bind, check, on_ev in E3. cbn [modify ret] in E3.
    destruct (bool_decide (this_thread s ∈ io_q s1)); [| done]. cbn in E3. destruct Hio as (_ & Ep & Ee). rewrite Ep in Hpq.
    destruct (pollset_del_total (pds pq) (eventsys s1)) as (e & Ed & _); [rewrite Ee; apply (inv_all s Hi 0) | |].
    + rewrite Ee. apply (ib_fds _ _ _ (inv_all s Hi 0) (this_thread s) pq Hpq).
    + by rewrite Ed in E3.
Qed.
End kept.
End queue.

(** ** Steps *)
Class DispatchKept (E A : Type) `{DispatchLaws E A} (P : @_st_vp E → Prop) : Prop := {
  kept_dispatch a s : inv s → polls_wait s → answer_ok a s → P s → wp (dispatch a) (λ _, P) (λ _, False) s;
}.

Section steps.
Context {E A : Type} `{!EventSys E, !EventSysLaws E, !Dispatch E A, !DispatchLaws E A}.
Notation vp := (@_st_vp E).
Context (P : vp → Prop) `{!IoKept P, !DispatchKept E A P}.
Implicit Types (s : vp).

Lemma idle_kept (a : A) now secs s o s' :
  ok s → P s → allowed (Idle a now secs) s → exec (Idle a now secs) s = (o, s') → returned o → P s'.
Proof.
  intros Hok Hm (Hid & _ & Ha) He Ho. cbn [exec] in He.
  destruct (bind_inv _ _ _ _ _ He Ho) as [(r & s1 & E1 & H1) | [E1 _]].
  - pose proof (idle_resume s (λ _, False) Hok Hid) as Hr. unfold wp in Hr. rewrite E1 in Hr.
    destruct Hr as (Hi1 & Hq1 & Hid1 & Ee1). apply (kept_same _ _ Ee1) in Hm. unfold idle_round in H1.
    assert (polls_wait s1) as Hpw by (by apply idle_polls_wait; [| | apply Hq1]).
    apply (answer_same a s s1 Ee1) in Ha. pose proof (kept_dispatch a s1 Hi1 Hpw Ha Hm) as Hd. unfold wp in Hd.
    destruct (bind_inv _ _ _ _ _ H1 Ho) as [([] & s2 & E2 & H2) | [E2 _]]; rewrite E2 in Hd; [| done].
    assert (pres same_io (_st_vp_check_clock now secs ;; s <- gets id ;; upd (this_thread s) (with_state RUNNABLE) ;;
      _ST_SWITCH_CONTEXT In_idle : M vp unit)) as Hp by pres.
    exact (kept_same _ _ (Hp s2 o s' H2 Ho) Hd).
  - eapply kept_same; [| exact Hm]. by apply (pres_resume same_io s _ _ E1).
Qed.

Lemma exec_kept (ev : @event A) s o s' : ok s → P s → allowed ev s → exec ev s = (o, s') → returned o → P s'.
Proof.
  intros Hok Hm Ha He Ho.
  assert (pres same_io (exec ev) → P s') as Hsame by (intros Hp; exact (kept_same _ _ (Hp s o s' He Ho) Hm)).
  destruct ev; try (apply Hsame; cbn [exec]; pres; fail).
  - destruct Ha as (_ & th & k & Ht & Hc & _). cbn [exec] in He. unfold bind at 1 in He. cbn [gets id] in He.
    unfold bind at 1, the_thread in He. rewrite Ht, Hc in He. destruct (decide (k = In_poll)) as [-> | Hk].
    + cbn [go_on] in He. destruct (bind_inv _ _ _ _ _ He Ho) as [(n & s1 & E1 & H1) | [E1 _]].
      * injection H1 as _ <-. by apply (poll_leave_kept P s (Ok n)); [apply Hok | | |].
      * by apply (poll_leave_kept P s Fail); [apply Hok | | |].
    + assert (pres same_io (go_on k : M vp unit)) as Hp by (destruct k; try done; cbn [go_on]; pres).
      exact (kept_same _ _ (Hp s o s' He Ho) Hm).
  - by apply (poll_enter_kept P fds timeout s o s'); [apply Hok | | apply Ha | |].
  - by apply (idle_kept a now secs s o s').
Qed.

Lemma step_kept s s' : ok s → P s → step s s' → P s'.
Proof.
  intros Hok Hm (ev & Ha & He). unfold attempt in He. destruct (exec ev s) as [o s1] eqn:E1.
  assert (s1 = s' ∧ returned o) as [<- Ho] by (destruct o; simplify_eq; done).
  by apply (exec_kept ev s o s1).
Qed.

Lemma steps_kept s s' : rtc step s s' → ok s → P s → P s'.
Proof.
  induction 1 as [s | s1 s2 s3 Hs _ IH]; [done |]. intros Hok Hm. apply IH; [by eapply step_ok | by eapply step_kept].
Qed.
End steps.
