(* ===== verification/Interest.v ===== *)
(** * event.c: descriptors, the events asked for, and their counts

    Every event system counts, for each descriptor and each of the three events, the
    polls on the I/O queue that ask for it.  Here that is a promise of the event system
    ([Counting]); that the counts are right in every state is proved from it. *)

From stdpp Require Import base list sets gmap relations.
From Stdlib Require Import Lia ZArith.
From S2P Require Import Prelude.
From S2P Require Import Bytes.
From S2P Require Import TimeoutHeap.
From S2P Require Import Vp.
From S2P Require Import Sync.
From S2P Require Import Fair.
From S2P Require Import Sched.
From S2P Require Import SchedOps.
From S2P Require Import SchedCalls.
From S2P Require Import SchedSteps.
From S2P Require Import IoQueue.

Local Open Scope Z_scope.

(** poll.h *)
Definition POLLIN : Z := 0x001.
Definition POLLPRI : Z := 0x002.
Definition POLLOUT : Z := 0x004.
Definition POLLERR : Z := 0x008.
Definition POLLHUP : Z := 0x010.
Definition POLLNVAL : Z := 0x020.

(** sys/select.h *)
Definition FD_SETSIZE : Z := 1024.

(** The three columns of [fd_ref_cnts]. *)
Inductive interest := Rd | Wr | Ex.

#[export] Instance interest_eq_dec : EqDecision interest.
Proof. solve_decision. Defined.

Definition mask (i : interest) : Z :=
  match i with Rd => POLLIN | Wr => POLLOUT | Ex => POLLPRI end.

(** [pd->events & POLLIN] and so on. *)
Definition asks (pd : pollfd) (i : interest) : bool := negb (Z.land (events pd) (mask i) =? 0).

(** How often the descriptor [f] is listed for the event [i]. *)
Definition occurs (i : interest) (f : Z) (l : list pollfd) : Z :=
  Z.of_nat (length (filter (λ pd, fd pd = f ∧ asks pd i = true) l)).

Lemma occurs_cons i f pd l :
  occurs i f (pd :: l) = (if bool_decide (fd pd = f) && asks pd i then 1 else 0) + occurs i f l.
Proof.
  unfold occurs. destruct (decide (fd pd = f ∧ asks pd i = true)) as [[H1 H2] | H].
  - rewrite filter_cons_True by done. rewrite bool_decide_true, H2 by done. cbn. lia.
  - rewrite filter_cons_False by done. destruct (decide (fd pd = f)) as [Hf |].
    + rewrite bool_decide_true by done. destruct (asks pd i); [by destruct H | cbn; lia].
    + rewrite bool_decide_false by done. cbn. lia.
Qed.

Lemma occurs_nil i f : occurs i f [] = 0.
Proof. done. Qed.

(** Only [revents] differs. *)
Definition same_fds (l l' : list pollfd) : Prop := (λ p, (fd p, events p)) <$> l = (λ p, (fd p, events p)) <$> l'.

Lemma same_fds_occurs l l' i f : same_fds l l' → occurs i f l = occurs i f l'.
Proof.
  revert l'. induction l as [| p l IH]; intros [| p' l'] H; try done. injection H as Hf He Hl.
  rewrite !occurs_cons, (IH l' Hl). unfold asks. by rewrite Hf, He.
Qed.

Lemma same_fds_map l g : (∀ p, fd (g p) = fd p ∧ events (g p) = events p) → same_fds (g <$> l) l.
Proof.
  intros Hg. unfold same_fds. rewrite <- list_fmap_compose. apply list_fmap_ext. intros _ p _. cbn.
  by destruct (Hg p) as [-> ->].
Qed.

(** [cnt]: the count of a descriptor; [watched]: the kernel is asked about it; [consistent]:
    the kernel is asked about all that is counted. *)
Class Counting (E : Type) `{EventSys E} := {
  cnt : E → interest → Z → Z;
  watched : E → interest → Z → Prop;
  consistent : E → Prop;
}.

Class CountingLaws (E : Type) `{EventSysLaws E, !Counting E} : Prop := {
  consistent_watched e i f : consistent e → 0 < cnt e i f → watched e i f;
  add_counts fds e e' i f : ev_ok e → fds_valid fds → pollset_add fds e = (Ok tt, e') → cnt e' i f = cnt e i f + occurs i f fds;
  add_fail_counts fds e e' i f : ev_ok e → fds_valid fds → pollset_add fds e = (Fail, e') → cnt e' i f = cnt e i f;
  add_consistent fds o e e' : ev_ok e → fds_valid fds → pollset_add fds e = (o, e') → returned o →
    (∀ i f, 0 <= cnt e i f) → consistent e → consistent e';
  del_counts fds e e' i f : ev_ok e → fds_ok e fds → pollset_del fds e = (Ok tt, e') →
    cnt e' i f = cnt e i f - occurs i f fds;
  del_consistent fds e e' : ev_ok e → fds_ok e fds → pollset_del fds e = (Ok tt, e') →
    (∀ i f, occurs i f fds <= cnt e i f) → consistent e → consistent e';
}.

(** Nor is the kernel asked about descriptors that are not counted. *)
Class CountingExact (E : Type) `{EventSysLaws E, !Counting E} : Prop :=
  consistent_idle e f : consistent e → (∀ i, cnt e i f = 0) → ∀ i, ¬ watched e i f.

Section counting.
Context {E : Type} `{!EventSys E, HL : !EventSysLaws E, !Counting E, !CountingLaws E}.
Notation vp := (@_st_vp E).
Implicit Types (s : vp) (t : Z).

(** How many entries of polls on the I/O queue ask for the event [i] of [f]. *)
Definition wanted s (i : interest) (f : Z) : Z :=
  foldr (λ t n, occurs i f (fds_of s t) + n) 0 (io_q s).

Record matched s : Prop := {
  matched_cnt i f : cnt (eventsys s) i f = wanted s i f;
  matched_watched : consistent (eventsys s);
}.

Lemma same_io_matched s s' : same_io s s' → matched s → matched s'.
Proof.
  intros (Hi & Hp & He) [Hm Hw]. split; [| by rewrite He].
  intros i f. unfold wanted, fds_of. rewrite Hi, Hp, He. apply Hm.
Qed.

Lemma occurs_nonneg i f l : 0 <= occurs i f l.
Proof. unfold occurs. lia. Qed.

Lemma wanted_bounds s t i f : 0 <= wanted s i f ∧ (t ∈ io_q s → occurs i f (fds_of s t) <= wanted s i f).
Proof. apply (total_bounds (λ t, occurs i f (fds_of s t))). intros u. apply occurs_nonneg. Qed.

Lemma wanted_app s s' t i f :
  io_q s' = io_q s ++ [t] → t ∉ io_q s → (∀ u, u ≠ t → pollqs s' !! u = pollqs s !! u) →
  wanted s' i f = wanted s i f + occurs i f (fds_of s' t).
Proof.
  intros Hi Hn Hp. unfold wanted. rewrite Hi.
  change (total (λ u, occurs i f (fds_of s' u)) (io_q s ++ [t]) =
    total (λ u, occurs i f (fds_of s u)) (io_q s) + occurs i f (fds_of s' t)).
  rewrite total_app. f_equal; [| cbn; lia]. apply total_ext. intros u Hu. unfold fds_of.
  rewrite Hp; [done |]. by intros ->.
Qed.

Lemma wanted_remove s s' t i f :
  io_q s' = remove t (io_q s) → NoDup (io_q s) → t ∈ io_q s → (∀ u, u ≠ t → pollqs s' !! u = pollqs s !! u) →
  wanted s' i f = wanted s i f - occurs i f (fds_of s t).
Proof.
  intros Hi Hnd Ht Hp. unfold wanted. rewrite Hi.
  change (total (λ u, occurs i f (fds_of s' u)) (remove t (io_q s)) =
    total (λ u, occurs i f (fds_of s u)) (io_q s) - occurs i f (fds_of s t)).
  rewrite <- (total_remove (λ u, occurs i f (fds_of s u))) by done. apply total_ext.
  intros u Hu. unfold fds_of. rewrite Hp; [done |]. intros ->. unfold remove in Hu.
  by apply list_elem_of_filter in Hu as [[] _].
Qed.

Lemma occurs_pos i f l : 0 < occurs i f l → ∃ pd, pd ∈ l ∧ fd pd = f ∧ asks pd i = true.
Proof.
  unfold occurs. intros H. destruct (filter _ l) as [| pd r] eqn:Ef; [done |].
  assert (pd ∈ filter (λ pd, fd pd = f ∧ asks pd i = true) l) as Hpd by (rewrite Ef; left).
  apply list_elem_of_filter in Hpd as [[? ?] ?]. by exists pd.
Qed.

Lemma wanted_pos s i f :
  0 < wanted s i f → ∃ t pd, t ∈ io_q s ∧ pd ∈ fds_of s t ∧ fd pd = f ∧ asks pd i = true.
Proof.
  unfold wanted. induction (io_q s) as [| t l IH]; cbn; [lia |]. intros H.
  destruct (decide (0 < occurs i f (fds_of s t))) as [Hp | Hp].
  - apply occurs_pos in Hp as (pd & ? & ? & ?). exists t, pd. split; [left | done].
  - destruct IH as (u & pd & Hu & Hpd); [lia |]. exists u, pd. split; [by right | done].
Qed.

Lemma wanted_same s s' i f :
  io_q s' = io_q s → (∀ u, u ∈ io_q s → same_fds (fds_of s' u) (fds_of s u)) → wanted s' i f = wanted s i f.
Proof.
  intros Hi Hp. unfold wanted. rewrite Hi. apply total_ext. intros u Hu. by apply same_fds_occurs, Hp.
Qed.

(** ** Every call keeps the counts *)
#[export] Instance matched_kept : IoKept matched.
Proof.
  split.
  - apply same_io_matched.
  - intros fds s e Hev Hv Ha Hm. split; [intros i f | apply (add_consistent _ _ _ _ Hev Hv Ha I); [| apply Hm]].
    + cbn. rewrite (add_fail_counts _ _ _ i f Hev Hv Ha). apply Hm.
    + intros i f. rewrite (matched_cnt _ Hm). by apply (wanted_bounds s 0).
  - intros t fds s s' Hev Hv Ha Hn Ei Ep Hm. split; [intros i f | apply (add_consistent _ _ _ _ Hev Hv Ha I); [| apply Hm]].
    + rewrite (wanted_app s s' t i f Ei Hn); [| intros u Hu; by rewrite Ep, lookup_insert_ne].
      rewrite (add_counts _ _ _ i f Hev Hv Ha), (matched_cnt _ Hm). unfold fds_of. by rewrite Ep, lookup_insert_eq.
    + intros i f. rewrite (matched_cnt _ Hm). by apply (wanted_bounds s 0).
  - intros t s s' Hev Hfo Hnd Ht Hd Ei Ep Hm. split; [intros i f | apply (del_consistent _ _ _ Hev Hfo Hd); [| apply Hm]].
    + by rewrite (del_counts _ _ _ i f Hev Hfo Hd), (matched_cnt _ Hm), (wanted_remove s s' t i f Ei Hnd Ht Ep).
    + intros i f. rewrite (matched_cnt _ Hm). by apply wanted_bounds.
  - intros t s s' Ht Ei Ep Ee Hm. split; [intros i f | rewrite Ee; apply Hm]. rewrite Ee, (matched_cnt _ Hm).
    symmetry. apply wanted_same; [done |]. intros u Hu. unfold fds_of. rewrite Ep; [done |]. by intros ->.
Qed.
End counting.

Section init.
Context {E : Type} `{!EventSys E, HL : !EventSysLaws E, !Counting E, !CountingLaws E}.

Lemma init_matched idle primordial clock (e : E) :
  (∀ i f, cnt e i f = 0) → consistent e → matched (st_init idle primordial clock e).
Proof. intros H0 Hc. by split. Qed.
End init.

Section exact.
Context {E : Type} `{!EventSys E, !EventSysLaws E, !Counting E, !CountingLaws E, !CountingExact E}.
Implicit Types (s : @_st_vp E).

(** What [matched] says of the event system of a state. *)
Lemma matched_means s :
  matched s →
  (∀ i f, cnt (eventsys s) i f = wanted s i f) ∧
  (∀ i f, 0 < wanted s i f → watched (eventsys s) i f) ∧
  (∀ f, (∀ i, wanted s i f = 0) → ∀ i, ¬ watched (eventsys s) i f).
Proof.
  intros [Hc Hw]. split; [exact Hc |]. split.
  - intros i f H. apply consistent_watched; [done | by rewrite Hc].
  - intros f H. apply consistent_idle; [done |]. intros i. by rewrite Hc.
Qed.
End exact.

Section matched.
Context {E A : Type} `{!EventSys E, !EventSysLaws E, !Counting E, !CountingLaws E, !CountingExact E, !Dispatch E A, !DispatchLaws E A,
  !DispatchKept E A matched}.
Notation vp := (@_st_vp E).
Implicit Types (s : vp).

(** C15: from [st_init] on, whatever the threads do and whatever the kernel answers, the event system's count of
    a descriptor and an event is the number of entries of polls on the I/O queue that ask for it; the kernel is
    asked about every descriptor and event some thread waits for, and about no descriptor that nobody waits for.
    About a descriptor somebody waits for it may be asked for more events than that: [epoll_ctl] may fail to
    take one away.  For [select] see [select_sets_exact].  With epoll the process does not fork; EpollEv.v says
    what happens if it does. *)
Theorem polls_are_counted idle primordial clock (e : E) s :
  idle ≠ primordial → ev_ok e → (∀ i f, cnt e i f = 0) → consistent e →
  rtc step (st_init idle primordial clock e) s →
  (∀ i f, cnt (eventsys s) i f = wanted s i f) ∧
  (∀ i f, 0 < wanted s i f → watched (eventsys s) i f) ∧
  (∀ f, (∀ i, wanted s i f = 0) → ∀ i, ¬ watched (eventsys s) i f).
Proof.
  intros Hne Hev H0 Hc Hr. assert (ok (st_init idle primordial clock e)) as Hok by (by apply init_ok).
  exact (matched_means s (steps_kept matched _ _ Hr Hok (init_matched idle primordial clock e H0 Hc))).
Qed.
End matched.
