(* ===== verification/Rounds.v ===== *)
(** * event.c: the loop over the I/O queue that every dispatch ends with

    A round looks at the poll of one thread: either some descriptor has an event and the
    thread is made runnable, or the poll goes on waiting.  What the loop does to the queues is the same
    for every event system. *)

From stdpp Require Import base list sets gmap.
From Stdlib Require Import Lia ZArith.
From S2P Require Import Prelude.
From S2P Require Import Bytes.
From S2P Require Import TimeoutHeap.
From S2P Require Import Vp.
From S2P Require Import Sync.
From S2P Require Import Fair.
From S2P Require Import Sched.
From S2P Require Import SchedOps.
From S2P Require Import SchedCalls.
From S2P Require Import SchedSteps.
From S2P Require Import IoQueue.
From S2P Require Import Interest.

Local Open Scope Z_scope.

Section rounds.
Context {E : Type} `{!EventSys E}.
Notation vp := (@_st_vp E).
Implicit Types (s : vp) (t : Z) (look : pollfd → Z).

(** [min_timeout]; [None] if nobody sleeps. *)
Definition min_timeout s : option Z :=
  match root (sleep_q s) with
  | Null => None
  | Node t _ _ => Some (if due t <=? last_clock s then 0 else wrap 64 (due t - last_clock s))
  end.

Definition timeout_ms s : Z := match min_timeout s with None => -1 | Some m => swrap 32 (m / 1000) end.

(** [revents] is stored for every descriptor of a poll. *)
Definition looked look (l : list pollfd) : list pollfd :=
  (λ pd, Pollfd (fd pd) (events pd) (look pd)) <$> l.

Definition has_event (pd : pollfd) : bool := negb (revents pd =? 0).

(** [release]: what is done with the descriptors of a poll that is told; [skip]: with those of a
    poll that goes on waiting. *)
Definition round look (release : list pollfd → M E unit) (skip : list pollfd → M vp unit) t : M vp unit :=
  pq <- the_pollq t ;;
  let l := looked look (pds pq) in
  if existsb has_event l then notify t l (release l) else look_at t l ;; skip l.

Lemma looked_same look l : same_fds (looked look l) l.
Proof. by apply same_fds_map. Qed.

Lemma looked_ext look look' l : (∀ pd, pd ∈ l → look pd = look' pd) → looked look l = looked look' l.
Proof. intros H. apply list_fmap_ext. intros i pd Hpd. f_equal. apply H. by eapply list_elem_of_lookup_2. Qed.

(** A descriptor of the poll of [t] has an event. *)
Definition ready look s t : bool := existsb has_event (looked look (fds_of s t)).

(** What a round does to the queues. *)
Definition round_queues look t s s' : Prop :=
  if ready look s t then
    io_q s' = remove t (io_q s) ∧ run_q s' = run_q s ++ [t] ∧
    pollqs s' = <[t := Pollq (looked look (fds_of s t)) false]> (pollqs s)
  else
    io_q s' = io_q s ∧ run_q s' = run_q s ∧ pollqs s' = <[t := Pollq (looked look (fds_of s t)) true]> (pollqs s).

(** After the polls [v] were looked at. *)
Record told look s (v : list Z) s' : Prop := {
  told_run : run_q s' = run_q s ++ filter (λ t, ready look s t = true) v;
  told_io : io_q s' = filter (λ t, ready look s t = true → t ∉ v) (io_q s);
  told_fds t : t ∈ v → pollqs s' !! t = Some (Pollq (looked look (fds_of s t)) (negb (ready look s t)));
  told_rest t : t ∉ v → pollqs s' !! t = pollqs s !! t;
}.

Lemma told_nil look s s' : run_q s' = run_q s → io_q s' = io_q s → pollqs s' = pollqs s → told look s [] s'.
Proof.
  intros Hr Hi Hp. split; [by rewrite Hr, app_nil_r | | by intros ? ?%not_elem_of_nil | by rewrite Hp].
  rewrite Hi. symmetry. apply filter_all. intros u _ _. apply not_elem_of_nil.
Qed.

Lemma told_round look s v t s1 s' : told look s v s1 → t ∉ v → round_queues look t s1 s' → told look s (v ++ [t]) s'.
Proof.
  intros [Hr Hi Hf Hn] Ht He. unfold round_queues in He.
  assert (fds_of s1 t = fds_of s t) as Efds by (unfold fds_of; by rewrite Hn).
  assert (ready look s1 t = ready look s t) as Erd by (unfold ready; by rewrite Efds).
  rewrite Erd, Efds in He. destruct (ready look s t) eqn:Hrd.
  - destruct He as (Eio & Erq & Epq). split.
    + rewrite Erq, Hr, filter_app, filter_cons_True by done. by rewrite <- app_assoc.
    + rewrite Eio, Hi. unfold remove. rewrite list_filter_filter. apply list_filter_iff. intros u. cbn.
      rewrite not_elem_of_app, list_elem_of_singleton. split.
      * intros [Hne Hu] Hru. split; [by apply Hu | done].
      * intros Hu. split; [intros ->; by apply (Hu Hrd) |]. intros Hru. by apply Hu.
    + intros u [Hu | ->%list_elem_of_singleton]%elem_of_app; rewrite Epq.
      * rewrite lookup_insert_ne by (intros ->; done). by apply Hf.
      * by rewrite lookup_insert_eq, Hrd.
    + intros u [Hu Hut]%not_elem_of_app. rewrite Epq, lookup_insert_ne by set_solver. by apply Hn.
  - destruct He as (Eio & Erq & Epq). split.
    + rewrite Erq, Hr, filter_app, filter_cons_False by congruence. by rewrite app_nil_r.
    + rewrite Eio, Hi. apply list_filter_iff. intros u. cbn.
      rewrite not_elem_of_app, list_elem_of_singleton. split; [| naive_solver].
      intros Hu Hru. split; [by apply Hu | intros ->; congruence].
    + intros u [Hu | ->%list_elem_of_singleton]%elem_of_app; rewrite Epq.
      * rewrite lookup_insert_ne by (intros ->; done). by apply Hf.
      * by rewrite lookup_insert_eq, Hrd.
    + intros u [Hu Hut]%not_elem_of_app. rewrite Epq, lookup_insert_ne by set_solver. by apply Hn.
Qed.

Lemma told_ext look look' s v s' : (∀ pd, look pd = look' pd) → told look s v s' → told look' s v s'.
Proof.
  intros H [A1 A2 A3 A4]. assert (∀ l, looked look' l = looked look l) as Hl by (intros l; apply looked_ext; intros pd _; by rewrite H).
  unfold ready in *. split; try done.
  - etransitivity; [exact A1 |]. f_equal. apply filter_ext_in. intros u _. unfold ready. by rewrite Hl.
  - etransitivity; [exact A2 |]. apply filter_ext_in. intros u _. unfold ready. by rewrite Hl.
  - intros t Ht. unfold ready. rewrite !Hl. by apply A3.
Qed.

(** What a dispatch has to have done when [look] is what the kernel said. *)
Definition all_told look s s' : Prop :=
  run_q s' = run_q s ++ filter (λ t, ready look s t = true) (io_q s) ∧
  io_q s' = filter (λ t, ready look s t = false) (io_q s) ∧
  ∀ t, t ∈ io_q s → pollqs s' !! t = Some (Pollq (looked look (fds_of s t)) (negb (ready look s t))).

Lemma told_all look s s' : told look s (io_q s) s' → all_told look s s'.
Proof.
  intros [Hr Hio Hf _]. split; [done |]. split; [| done]. rewrite Hio. apply filter_ext_in.
  intros u Hu. destruct (ready look s u); [| done]. split; [| done]. intros H. by destruct (H eq_refl).
Qed.
End rounds.

Section laws.
Context {E : Type} `{!EventSys E, !EventSysLaws E}.
Notation vp := (@_st_vp E).
Implicit Types (s : vp) (t : Z) (look : pollfd → Z).

Lemma polling_fds s t : inv s → t ∈ io_q s →
  ∃ pq, pollqs s !! t = Some pq ∧ fds_of s t = pds pq ∧ fds_ok (eventsys s) (pds pq).
Proof.
  intros Hi Ht. pose proof (inv_thread s t Hi) as Hok. unfold thread_ok in Hok.
  destruct (threads s !! t) as [th |]; [| by destruct Hok as (_ & ? & _)].
  apply (live_io _ _ _ _ Hok) in Ht as (pq & Hpq & _). exists pq. split; [done |].
  split; [unfold fds_of; by rewrite Hpq |]. apply (ib_fds _ _ _ (inv_all s Hi 0) t pq Hpq).
Qed.

(** The parts of the state a round leaves alone. *)
Definition calm s s' : Prop :=
  inv s' ∧ polls_wait s' ∧ this_thread s' = this_thread s ∧ idle_thread s' = idle_thread s.

Lemma round_wp look release skip t s e F Q :
  inv s → polls_wait s → t ∈ io_q s → fds_ok (eventsys s) (looked look (fds_of s t)) →
  (ready look s t = true →
    release (looked look (fds_of s t)) (eventsys s) = (Ok tt, e) ∧ ev_step (eventsys s) e) →
  (∀ s', calm s s' → round_queues look t s s' → ready look s t = true → eventsys s' = e → Q tt s') →
  (∀ s', calm s s' → round_queues look t s s' → ready look s t = false → eventsys s' = eventsys s →
    wp (skip (looked look (fds_of s t))) Q F s') →
  wp (round look release skip t) Q F s.
Proof.
  intros Hi Hp Ht Hl He HQ1 HQ2. destruct (polling_fds s t Hi Ht) as (pq & Hpq & Hf & _). unfold round.
  apply wp_bind. unfold wp at 1, the_pollq. rewrite Hpq, <- Hf. unfold round_queues in *.
  apply wp_if; intros Hb; fold (ready look s t) in Hb; rewrite Hb in *.
  - destruct (He eq_refl) as [E1 Hs]. clear He.
    eapply wp_mono; [| | apply (notify_ok t _ _ e s F Hi Hp Ht Hl E1 Hs)]; [| done].
    cbn beta. intros [] s' (Hi' & Hp' & Et & Ei & Eio & Er & Epq & Ee). by apply HQ1.
  - apply wp_bind. eapply wp_mono; [| | apply (look_at_ok t _ s F Hi Hp Ht Hl)]; [| done].
    cbn beta. intros _ s1 (Hi1 & Hp1 & Et & Ei & Eio & Er & Epq & Ee). by apply HQ2.
Qed.

(** A call into the event system. *)
Lemma wp_ev {B : Type} (c : M E B) (x : B) e s F (Q : B → vp → Prop) :
  c (eventsys s) = (Ok x, e) → Q x (with_eventsys e s) → wp (on_ev c) Q F s.
Proof. intros Hc HQ. unfold wp, on_ev. by rewrite Hc. Qed.

(** The polls other than [t]'s stay on the I/O queue. *)
Lemma round_keeps look t s s' u : round_queues look t s s' → u ≠ t → u ∈ io_q s → u ∈ io_q s'.
Proof.
  unfold round_queues. intros H Hu Hin. destruct (ready look s t); destruct H as (-> & _); [| done].
  by apply elem_of_remove.
Qed.

(** [P l]: what holds while the polls of [l] are still to come. *)
Lemma loop_wp (P : list Z → vp → Prop) (body : Z → M vp unit) s F :
  inv s → polls_wait s → P (io_q s) s →
  (∀ t l s F, inv s → polls_wait s → P (t :: l) s → t ∈ io_q s → t ∉ l →
    wp (body t) (λ _ s', calm s s' ∧ P l s' ∧ ∃ look, round_queues look t s s') F s) →
  wp (for_each body (io_q s)) (λ _ s', calm s s' ∧ P [] s') F s.
Proof.
  intros Hi Hp HP Hb. eapply wp_mono; [| | apply (rounds_ok P body (io_q s) s F)]; try done.
  - cbn beta. intros _ s' (Hi' & Hp' & HP' & Et & Ei). done.
  - intros t l s1 F1 Hi1 Hp1 HP1 Ht Htl. eapply wp_mono; [| | apply (Hb t l s1 F1)]; try done.
    cbn beta. intros _ s2 ((Hi2 & Hp2 & Et & Ei) & HP2 & look & Hq). split_and!; try done.
    intros u. by apply (round_keeps look).
  - apply (inv_all s Hi 0).
Qed.

(** The polls told so far, whatever else the loop does. *)
Lemma loop_told look s (l : list Z) s1 t v s2 :
  inv s → io_q s = v ++ t :: l → told look s v s1 → round_queues look t s1 s2 →
  io_q s = (v ++ [t]) ++ l ∧ told look s (v ++ [t]) s2.
Proof.
  intros Hi Hv Ht Hq. split; [by rewrite <- app_assoc |]. apply (told_round look s v t s1); [done | | done].
  pose proof (ib_io _ _ _ (inv_all s Hi 0)) as Hnd. rewrite Hv in Hnd. apply NoDup_app in Hnd as (_ & Hnd & _).
  intros Htv. by apply (Hnd t Htv); left.
Qed.
End laws.

(** ** The counts during the loop *)
Section counts.
Context {E : Type} `{!EventSys E, HL : !EventSysLaws E, !Counting E, !CountingLaws E}.
Notation vp := (@_st_vp E).
Implicit Types (s : vp) (t : Z) (look : pollfd → Z).

Definition counted s : Prop := ∀ i f, cnt (eventsys s) i f = wanted s i f.

Lemma round_counted look t s s' :
  inv s → t ∈ io_q s → round_queues look t s s' → counted s →
  (∀ i f, cnt (eventsys s') i f =
    cnt (eventsys s) i f - (if ready look s t then occurs i f (looked look (fds_of s t)) else 0)) →
  counted s'.
Proof.
  intros Hi Ht Hq Hc He i f. rewrite He, Hc. unfold round_queues in Hq. destruct (ready look s t).
  - destruct Hq as (Eio & _ & Epq). rewrite (same_fds_occurs _ _ i f (looked_same look _)).
    symmetry. apply wanted_remove; [done | apply (inv_all s Hi 0) | done |].
    intros u Hu. by rewrite Epq, lookup_insert_ne.
  - destruct Hq as (Eio & _ & Epq). rewrite Z.sub_0_r. symmetry. apply wanted_same; [done |].
    intros u _. unfold fds_of at 1. rewrite Epq. destruct (decide (u = t)) as [-> |].
    + rewrite lookup_insert_eq. apply looked_same.
    + by rewrite lookup_insert_ne.
Qed.

(** What [release] subtracts is counted. *)
Lemma round_bounds look t s i f : t ∈ io_q s → counted s → occurs i f (looked look (fds_of s t)) <= cnt (eventsys s) i f.
Proof. intros Ht Hc. rewrite Hc, (same_fds_occurs _ _ i f (looked_same look _)). by apply wanted_bounds. Qed.
End counts.
