(* ===== verification/SelectEv.v ===== *)
(** * event.c: the select event system *)

From stdpp Require Import functions.
From stdpp Require Import base list sets gmap.
From Stdlib Require Import Lia ZArith.
From S2P Require Import Prelude.
From S2P Require Import Bytes.
From S2P Require Import TimeoutHeap.
From S2P Require Import Vp.
From S2P Require Import Sync.
From S2P Require Import Fair.
From S2P Require Import Sched.
From S2P Require Import SchedOps.
From S2P Require Import SchedCalls.
From S2P Require Import SchedSteps.
From S2P Require Import IoQueue.
From S2P Require Import Interest.
From S2P Require Import Rounds.

Local Open Scope Z_scope.

(** [fd_read_set], [fd_write_set], [fd_exception_set] and the columns of
    [fd_ref_cnts] by the event. *)
Record _st_seldata := Seldata {
  fd_set : interest → gset Z;
  fd_ref_cnts : interest → list Z;
  maxfd : Z;
}.

(** The array index of a descriptor. *)
Definition fd_index (f : Z) (l : list Z) : option Z := if 0 <=? f then l !! Z.to_nat f else None.

Definition _st_select_init (mem : bool) : outcome _st_seldata :=
  if mem then Ok (Seldata (λ _, ∅) (λ _, replicate (Z.to_nat FD_SETSIZE) 0) (-1)) else Fail.

Definition when {S : Type} (b : bool) (c : M S unit) : M S unit := if b then c else ret tt.

(** [FD_SET(fd, &set); CNT(fd)++;] *)
Definition select_inc (i : interest) (f : Z) : M _st_seldata unit := λ e,
  match fd_index f (fd_ref_cnts e i) with
  | Some n => (Ok tt, Seldata (<[i := {[f]} ∪ fd_set e i]> (fd_set e))
                (<[i := <[Z.to_nat f := n + 1]> (fd_ref_cnts e i)]> (fd_ref_cnts e)) (maxfd e))
  | None => (Undef, e)
  end.

(** [if (--CNT(fd) == 0) FD_CLR(fd, &set);] *)
Definition select_dec (i : interest) (f : Z) : M _st_seldata unit := λ e,
  match fd_index f (fd_ref_cnts e i) with
  | Some n => (Ok tt, Seldata (if n - 1 =? 0 then <[i := fd_set e i ∖ {[f]}]> (fd_set e) else fd_set e)
                (<[i := <[Z.to_nat f := n - 1]> (fd_ref_cnts e i)]> (fd_ref_cnts e)) (maxfd e))
  | None => (Undef, e)
  end.

(** [if (MAXFD < fd) MAXFD = fd;] *)
Definition raise_maxfd (f : Z) : M _st_seldata unit :=
  modify (λ e, Seldata (fd_set e) (fd_ref_cnts e) (if maxfd e <? f then f else maxfd e)).
Definition reset_maxfd : M _st_seldata unit := modify (λ e, Seldata (fd_set e) (fd_ref_cnts e) (-1)).

Definition select_bad (pd : pollfd) : bool :=
  (fd pd <? 0) || (FD_SETSIZE <=? fd pd) || (events pd =? 0) ||
  negb (Z.land (events pd) (Z.lnot (Z.lor POLLIN (Z.lor POLLOUT POLLPRI))) =? 0).

Definition select_add_fd (pd : pollfd) : M _st_seldata unit :=
  when (asks pd Rd) (select_inc Rd (fd pd)) ;;
  when (asks pd Wr) (select_inc Wr (fd pd)) ;;
  when (asks pd Ex) (select_inc Ex (fd pd)) ;;
  raise_maxfd (fd pd).

Definition _st_select_pollset_add (pds : list pollfd) : M _st_seldata unit :=
  if existsb select_bad pds then fail else for_each select_add_fd pds.

Definition select_del_fd (pd : pollfd) : M _st_seldata unit :=
  when (asks pd Rd) (select_dec Rd (fd pd)) ;;
  when (asks pd Wr) (select_dec Wr (fd pd)) ;;
  when (asks pd Ex) (select_dec Ex (fd pd)).

Definition _st_select_pollset_del (pds : list pollfd) : M _st_seldata unit := for_each select_del_fd pds.

#[export] Instance select_eventsys : EventSys _st_seldata := {
  pollset_add := _st_select_pollset_add;
  pollset_del := _st_select_pollset_del;
}.

(** What [select] returns: a positive number and the three sets, 0, or -1 with an
    [errno] that is [EBADF] or not. *)
Inductive select_result :=
| Selected (r w e : gset Z)
| Select_timeout
| Select_failed (ebadf : bool).

(** The kernel: [select], and whether [fcntl(fd, F_GETFL, 0)] fails. *)
Record select_os := SelectOs {
  select : Z → gset Z → gset Z → gset Z → option (Z * Z) → select_result;
  fcntl_fails : Z → bool;
}.

Notation vp := (@_st_vp _st_seldata).

Definition max_osfd (osfds : list Z) : Z := foldl (λ m f, if m <? f then f else m) (-1) osfds.

(** One round of the loops: the polls with [notify] are told. *)
Definition select_round (look : pollfd → Z) (counts : pollfd → bool) : Z → M vp unit :=
  round look _st_select_pollset_del
    (λ l, on_ev (raise_maxfd (max_osfd (fd <$> filter (λ pd, counts pd = true) l)))).

(** [revents] of the loop of [_st_select_find_bad_fd]. *)
Definition bad_revents (os : select_os) (pd : pollfd) : Z :=
  if events pd =? 0 then 0 else if fcntl_fails os (fd pd) then POLLNVAL else 0.

Definition _st_select_find_bad_fd (os : select_os) : M vp unit :=
  on_ev reset_maxfd ;;
  s <- gets id ;;
  for_each (select_round (bad_revents os) (λ pd, negb (events pd =? 0))) (io_q s).

(** [revents] of the loop of [_st_select_dispatch]. *)
Definition select_revents (sets : interest → gset Z) (pd : pollfd) : Z :=
  let r := if asks pd Rd && bool_decide (fd pd ∈ sets Rd) then POLLIN else 0 in
  let w := if asks pd Wr && bool_decide (fd pd ∈ sets Wr) then Z.lor r POLLOUT else r in
  if asks pd Ex && bool_decide (fd pd ∈ sets Ex) then Z.lor w POLLPRI else w.

Definition select_timeval (s : vp) : option (Z * Z) :=
  match min_timeout s with
  | None => None
  | Some m => Some (swrap 32 (m / 1000000), swrap 32 (m mod 1000000))
  end.

Definition _st_select_dispatch (os : select_os) : M vp unit :=
  s <- gets id ;;
  let e := eventsys s in
  match select os (maxfd e + 1) (fd_set e Rd) (fd_set e Wr) (fd_set e Ex) (select_timeval s) with
  | Selected r w x =>
      on_ev reset_maxfd ;;
      for_each (select_round (select_revents (λ i, match i with Rd => r | Wr => w | Ex => x end)) (λ _, true)) (io_q s)
  | Select_timeout => ret tt
  | Select_failed ebadf => if ebadf then _st_select_find_bad_fd os else ret tt
  end.

#[export] Instance select_dispatch : Dispatch _st_seldata select_os := { dispatch := _st_select_dispatch }.

Definition _st_select_fd_new (osfd : Z) : outcome unit := if FD_SETSIZE <=? osfd then Fail else Ok tt.

Definition _st_select_fd_close (osfd : Z) : M _st_seldata unit := λ e,
  match fd_index osfd (fd_ref_cnts e Rd), fd_index osfd (fd_ref_cnts e Wr), fd_index osfd (fd_ref_cnts e Ex) with
  | Some r, Some w, Some x =>
      (if negb (r =? 0) || negb (w =? 0) || negb (x =? 0) then Fail else Ok tt, e)
  | _, _, _ => (Undef, e)
  end.

Definition _st_select_fd_getlimit : Z := FD_SETSIZE.

(** ** The counts and the sets *)
#[export] Instance select_counting : Counting _st_seldata := {
  cnt e i f := default 0 (fd_index f (fd_ref_cnts e i));
  watched e i f := f ∈ fd_set e i ∧ f <= maxfd e;
  consistent e := ∀ i f, (f ∈ fd_set e i ↔ 0 < default 0 (fd_index f (fd_ref_cnts e i))) ∧
    (f ∈ fd_set e i → f <= maxfd e);
}.

Definition tables_ok (e : _st_seldata) : Prop := ∀ i, length (fd_ref_cnts e i) = Z.to_nat FD_SETSIZE.

Lemma fd_index_some e i f : tables_ok e → 0 <= f < FD_SETSIZE → fd_index f (fd_ref_cnts e i) = Some (cnt e i f).
Proof.
  intros He Hf. cbn. unfold fd_index. rewrite (proj2 (Z.leb_le _ _)) by lia.
  destruct (lookup_lt_is_Some_2 (fd_ref_cnts e i) (Z.to_nat f)) as [n ->]; [| done]. rewrite He. lia.
Qed.

Lemma fd_index_insert f g n l :
  0 <= f → (Z.to_nat f < length l)%nat →
  default 0 (fd_index g (<[Z.to_nat f := n]> l)) = if bool_decide (g = f) then n else default 0 (fd_index g l).
Proof.
  intros Hf Hl. unfold fd_index. destruct (Z.leb_spec 0 g).
  - case_bool_decide as Hg.
    + subst. by rewrite list_lookup_insert_eq.
    + rewrite list_lookup_insert_ne; [done |]. lia.
  - rewrite bool_decide_false by lia. done.
Qed.

(** One event of one descriptor. *)
Definition bump (pd : pollfd) (i j : interest) (g : Z) : Z :=
  if bool_decide (j = i) && bool_decide (g = fd pd) && asks pd i then 1 else 0.

Lemma when_inc pd i e :
  tables_ok e → 0 <= fd pd < FD_SETSIZE →
  ∃ e', when (asks pd i) (select_inc i (fd pd)) e = (Ok tt, e') ∧ tables_ok e' ∧ maxfd e' = maxfd e ∧
    (∀ j g, cnt e' j g = cnt e j g + bump pd i j g) ∧
    (∀ j g, g ∈ fd_set e' j ↔ g ∈ fd_set e j ∨ 0 < bump pd i j g).
Proof.
  intros He Hf. unfold when, bump. destruct (asks pd i).
  - unfold select_inc. rewrite fd_index_some by done. eexists. split; [done |]. split_and!; [| done | |].
    + intros j. cbn. destruct (decide (j = i)) as [-> |]; [| by rewrite fn_lookup_insert_ne].
      by rewrite fn_lookup_insert, length_insert.
    + intros j g. cbn -[fd_index]. destruct (decide (j = i)) as [-> |].
      * rewrite fn_lookup_insert, fd_index_insert; [| lia | rewrite He; lia].
        rewrite (bool_decide_true (i = i)) by done. case_bool_decide; [subst; cbn; lia | cbn; lia].
      * rewrite fn_lookup_insert_ne by done. rewrite (bool_decide_false (j = i)) by done. cbn. lia.
    + intros j g. cbn. destruct (decide (j = i)) as [-> |].
      * rewrite fn_lookup_insert, (bool_decide_true (i = i)) by done. rewrite elem_of_union, elem_of_singleton.
        case_bool_decide; cbn; [intuition lia | intuition lia].
      * rewrite fn_lookup_insert_ne by done. rewrite (bool_decide_false (j = i)) by done. cbn. intuition lia.
  - exists e. split; [done |]. split_and!; try done; intros; rewrite ?andb_false_r; [lia |].
    intuition lia.
Qed.

Lemma when_dec pd i e :
  tables_ok e → 0 <= fd pd < FD_SETSIZE →
  ∃ e', when (asks pd i) (select_dec i (fd pd)) e = (Ok tt, e') ∧ tables_ok e' ∧ maxfd e' = maxfd e ∧
    (∀ j g, cnt e' j g = cnt e j g - bump pd i j g) ∧
    (∀ j g, g ∈ fd_set e' j ↔ g ∈ fd_set e j ∧ ¬ (0 < bump pd i j g ∧ cnt e j g = 1)).
Proof.
  intros He Hf. unfold when, bump. destruct (asks pd i).
  - unfold select_dec. rewrite fd_index_some by done. eexists. split; [done |]. split_and!; [| done | |].
    + intros j. cbn. destruct (decide (j = i)) as [-> |]; [| by rewrite fn_lookup_insert_ne].
      by rewrite fn_lookup_insert, length_insert.
    + intros j g. cbn -[fd_index]. destruct (decide (j = i)) as [-> |].
      * rewrite fn_lookup_insert, fd_index_insert; [| lia | rewrite He; lia].
        rewrite (bool_decide_true (i = i)) by done. case_bool_decide; [subst; cbn; lia | cbn; lia].
      * rewrite fn_lookup_insert_ne by done. rewrite (bool_decide_false (j = i)) by done. cbn. lia.
    + intros j g. cbn -[cnt].
      destruct (decide (j = i ∧ g = fd pd)) as [[-> ->] | Hne].
      * rewrite !bool_decide_true by done. cbn -[cnt]. destruct (Z.eqb_spec (cnt e i (fd pd) - 1) 0).
        -- rewrite fn_lookup_insert. set_solver by lia.
        -- intuition lia.
      * assert (bool_decide (j = i) && bool_decide (g = fd pd) = false) as ->.
        { apply andb_false_iff. rewrite !bool_decide_eq_false. destruct (decide (j = i)); [right | left]; naive_solver. }
        cbn -[cnt]. destruct (cnt e i (fd pd) - 1 =? 0); [| intuition lia].
        destruct (decide (j = i)) as [-> |]; [rewrite fn_lookup_insert | rewrite fn_lookup_insert_ne by done].
        -- assert (g ≠ fd pd) by naive_solver. set_solver by lia.
        -- intuition lia.
  - exists e. split; [done |]. split_and!; try done; intros; rewrite ?andb_false_r; [lia |].
    intuition lia.
Qed.

Lemma bump_sum pd j g : bump pd Rd j g + bump pd Wr j g + bump pd Ex j g = occurs j g [pd].
Proof.
  rewrite occurs_cons, occurs_nil. unfold bump. rewrite (bool_decide_ext (g = fd pd) (fd pd = g)) by intuition congruence.
  destruct (bool_decide (fd pd = g)); [| by rewrite !andb_false_r].
  destruct j, (asks pd Rd), (asks pd Wr), (asks pd Ex); vm_compute; done.
Qed.

Lemma bump_bounds pd i j g : 0 <= bump pd i j g <= 1.
Proof. unfold bump. destruct (_ && _); lia. Qed.

Lemma bump_disjoint pd i j g : i ≠ j → bump pd i j g = 0.
Proof. intros H. unfold bump. by rewrite bool_decide_false. Qed.

Lemma add_fd_ok pd e :
  tables_ok e → 0 <= fd pd < FD_SETSIZE →
  ∃ e', select_add_fd pd e = (Ok tt, e') ∧ tables_ok e' ∧ maxfd e' = Z.max (maxfd e) (fd pd) ∧
    (∀ j g, cnt e' j g = cnt e j g + occurs j g [pd]) ∧
    (∀ j g, g ∈ fd_set e' j ↔ g ∈ fd_set e j ∨ 0 < occurs j g [pd]).
Proof.
  intros He Hf. unfold select_add_fd.
  destruct (when_inc pd Rd e He Hf) as (e1 & E1 & T1 & M1 & C1 & S1).
  destruct (when_inc pd Wr e1 T1 Hf) as (e2 & E2 & T2 & M2 & C2 & S2).
  destruct (when_inc pd Ex e2 T2 Hf) as (e3 & E3 & T3 & M3 & C3 & S3).
  rewrite (bind_ok _ _ _ _ _ E1), (bind_ok _ _ _ _ _ E2), (bind_ok _ _ _ _ _ E3). unfold raise_maxfd. cbn [modify].
  eexists. split; [done |]. split_and!; [done | | |].
  - cbn. destruct (Z.ltb_spec (maxfd e3) (fd pd)); lia.
  - intros j g. change (cnt e3 j g = cnt e j g + occurs j g [pd]). rewrite C3, C2, C1, <- bump_sum. lia.
  - intros j g. cbn. rewrite S3, S2, S1, <- bump_sum.
    pose proof (bump_bounds pd Rd j g). pose proof (bump_bounds pd Wr j g). pose proof (bump_bounds pd Ex j g).
    intuition lia.
Qed.

Lemma del_fd_ok pd e :
  tables_ok e → 0 <= fd pd < FD_SETSIZE →
  ∃ e', select_del_fd pd e = (Ok tt, e') ∧ tables_ok e' ∧ maxfd e' = maxfd e ∧
    (∀ j g, cnt e' j g = cnt e j g - occurs j g [pd]) ∧
    (∀ j g, g ∈ fd_set e' j ↔ g ∈ fd_set e j ∧ ¬ (0 < occurs j g [pd] ∧ cnt e j g = 1)).
Proof.
  intros He Hf. unfold select_del_fd.
  destruct (when_dec pd Rd e He Hf) as (e1 & E1 & T1 & M1 & C1 & S1).
  destruct (when_dec pd Wr e1 T1 Hf) as (e2 & E2 & T2 & M2 & C2 & S2).
  destruct (when_dec pd Ex e2 T2 Hf) as (e3 & E3 & T3 & M3 & C3 & S3).
  rewrite (bind_ok _ _ _ _ _ E1), (bind_ok _ _ _ _ _ E2). exists e3. split; [done |]. split_and!; [done | lia | |].
  - intros j g. rewrite C3, C2, C1, <- bump_sum. lia.
  - intros j g. rewrite S3, S2, S1, C2, C1, <- bump_sum.
    destruct j; rewrite ?(bump_disjoint pd Rd Wr), ?(bump_disjoint pd Rd Ex), ?(bump_disjoint pd Wr Rd),
      ?(bump_disjoint pd Wr Ex), ?(bump_disjoint pd Ex Rd), ?(bump_disjoint pd Ex Wr) by done;
      rewrite ?Z.add_0_r, ?Z.add_0_l, ?Z.sub_0_r; intuition lia.
Qed.

Definition in_range (l : list pollfd) : Prop := Forall (λ pd, 0 <= fd pd < FD_SETSIZE ∧ events pd ≠ 0) l.

Lemma occurs_cons' i f pd l : occurs i f (pd :: l) = occurs i f [pd] + occurs i f l.
Proof. rewrite !occurs_cons, occurs_nil. lia. Qed.

Lemma add_fds_ok l e :
  tables_ok e → in_range l →
  ∃ e', for_each select_add_fd l e = (Ok tt, e') ∧ tables_ok e' ∧ maxfd e <= maxfd e' ∧
    (∀ pd, pd ∈ l → fd pd <= maxfd e') ∧
    (∀ j g, cnt e' j g = cnt e j g + occurs j g l) ∧
    (∀ j g, g ∈ fd_set e' j ↔ g ∈ fd_set e j ∨ 0 < occurs j g l).
Proof.
  intros He Hl. revert e He. induction Hl as [| pd l [Hf _] Hl IH]; intros e He; cbn [for_each].
  - exists e. split; [done |]. split_and!; try done; [by intros ? ?%not_elem_of_nil | |]; intros; rewrite occurs_nil; [lia | intuition lia].
  - destruct (add_fd_ok pd e He Hf) as (e1 & E1 & T1 & M1 & C1 & S1).
    destruct (IH e1 T1) as (e2 & E2 & T2 & M2 & L2 & C2 & S2).
    rewrite (bind_ok _ _ _ _ _ E1). exists e2. split; [done |]. split_and!; [done | lia | | |].
    + intros pd' [-> | Hin]%elem_of_cons; [lia | by apply L2].
    + intros j g. rewrite C2, C1, (occurs_cons' _ _ pd l). lia.
    + intros j g. rewrite S2, S1, (occurs_cons' _ _ pd l).
      pose proof (occurs_nonneg j g [pd]). pose proof (occurs_nonneg j g l). intuition lia.
Qed.

Lemma del_fds_ok l e :
  tables_ok e → in_range l →
  ∃ e', for_each select_del_fd l e = (Ok tt, e') ∧ tables_ok e' ∧ maxfd e' = maxfd e ∧
    (∀ j g, cnt e' j g = cnt e j g - occurs j g l) ∧
    ((∀ j g, occurs j g l <= cnt e j g) → (∀ j g, g ∈ fd_set e j ↔ 0 < cnt e j g) →
      ∀ j g, (g ∈ fd_set e' j ↔ 0 < cnt e' j g) ∧ (g ∈ fd_set e' j → g ∈ fd_set e j)).
Proof.
  intros He Hl. revert e He. induction Hl as [| pd l [Hf _] Hl IH]; intros e He; cbn [for_each].
  - exists e. split; [done |]. split_and!; try done. intros; rewrite occurs_nil; lia.
  - destruct (del_fd_ok pd e He Hf) as (e1 & E1 & T1 & M1 & C1 & S1).
    destruct (IH e1 T1) as (e2 & E2 & T2 & M2 & C2 & S2).
    rewrite (bind_ok _ _ _ _ _ E1). exists e2. split; [done |]. split_and!; [done | lia | |].
    + intros j g. rewrite C2, C1, (occurs_cons' _ _ pd l). lia.
    + intros Hle Hset j g. destruct (S2) with (j := j) (g := g) as [Ha Hb].
      * intros j' g'. rewrite C1. specialize (Hle j' g'). rewrite (occurs_cons' _ _ pd l) in Hle. lia.
      * intros j' g'. rewrite S1, C1, Hset. specialize (Hle j' g'). rewrite (occurs_cons' _ _ pd l) in Hle.
        pose proof (occurs_nonneg j' g' l). pose proof (bump_sum pd j' g') as Hb.
        assert (occurs j' g' [pd] <= 1) by (rewrite occurs_cons, occurs_nil; destruct (_ && _); lia).
        pose proof (occurs_nonneg j' g' [pd]). intuition lia.
      * split; [done |]. intros H%Hb. by apply S1 in H as [H _].
Qed.

Lemma not_bad_in_range pds : existsb select_bad pds = false → in_range pds.
Proof.
  unfold in_range. induction pds as [| pd pds IH]; cbn; [constructor |].
  intros [Hb Hr]%orb_false_iff. constructor; [| by apply IH]. unfold select_bad in Hb.
  rewrite !orb_false_iff in Hb. destruct Hb as (((H1 & H2) & H3) & _).
  apply Z.ltb_ge in H1. apply Z.leb_gt in H2. apply Z.eqb_neq in H3. lia.
Qed.

#[export] Instance select_laws : EventSysLaws _st_seldata.
Proof.
  refine {| ev_ok := tables_ok; fds_valid _ := True; fds_ok _ l := in_range l |}.
  - intros fds e He _. cbn [pollset_add select_eventsys]. unfold _st_select_pollset_add.
    destruct (existsb select_bad fds) eqn:Hb.
    + exists Fail, e. split; [done |]. split; [by right | done].
    + apply not_bad_in_range in Hb as Hr. destruct (add_fds_ok fds e He Hr) as (e' & E1 & T1 & _).
      exists (Ok tt), e'. split; [done |]. split; [by left | done].
  - intros fds e He Hr. destruct (del_fds_ok fds e He Hr) as (e' & E1 & T1 & _). by exists e'.
Defined.

(** The sets hold what is counted, whatever the largest descriptor is. *)
Definition sets_ok (e : _st_seldata) : Prop := ∀ j g, g ∈ fd_set e j ↔ 0 < cnt e j g.

(** The result of a call on tables in order; [_st_select_pollset_add] and
    [_st_select_pollset_del] need them to be so, and they are in every state of interest. *)
Lemma select_add_effect fds e o e' :
  tables_ok e → pollset_add fds e = (o, e') →
  (o = Fail ∧ e' = e) ∨ (o = Ok tt ∧ in_range fds ∧ tables_ok e' ∧ maxfd e <= maxfd e' ∧
    (∀ pd, pd ∈ fds → fd pd <= maxfd e') ∧ (∀ j g, cnt e' j g = cnt e j g + occurs j g fds) ∧
    (∀ j g, g ∈ fd_set e' j ↔ g ∈ fd_set e j ∨ 0 < occurs j g fds)).
Proof.
  intros He H. cbn [pollset_add select_eventsys] in H. unfold _st_select_pollset_add in H.
  destruct (existsb select_bad fds) eqn:Hb; [left; by injection H as <- <- |].
  apply not_bad_in_range in Hb as Hr. destruct (add_fds_ok fds e He Hr) as (e1 & E1 & T1 & M1 & L1 & C1 & S1).
  rewrite E1 in H. injection H as <- <-. right. done.
Qed.

#[export] Instance select_counting_laws : CountingLaws _st_seldata.
Proof.
  split.
  - intros e i f Hc H. destruct (Hc i f) as [H1 H2]. apply H1 in H as Hin. split; [done | by apply H2].
  - intros fds e e' i f He _ H.
    destruct (select_add_effect fds e _ e' He H) as [[? _] | (_ & _ & _ & _ & _ & Hc & _)]; [done | apply Hc].
  - intros fds e e' i f He _ H. destruct (select_add_effect fds e _ e' He H) as [[_ ->] | [? _]]; done.
  - intros fds o e e' He _ H _ H0 Hc.
    destruct (select_add_effect fds e o e' He H) as [[_ ->] | (_ & _ & _ & Hmax & Hl & Hcnt & Hs)]; [done |].
    intros i f. change (default 0 _) with (cnt e' i f). rewrite Hs, Hcnt. destruct (Hc i f) as [H1 H2].
    change (default 0 _) with (cnt e i f) in H1. specialize (H0 i f). pose proof (occurs_nonneg i f fds).
    split; [rewrite H1; lia |]. intros [Hin | Hin]; [specialize (H2 Hin); lia |].
    apply occurs_pos in Hin as (pd & Hpd & <- & _). by apply Hl.
  - intros fds e e' i f He Hr H. destruct (del_fds_ok fds e He Hr) as (e1 & E1 & _ & _ & Hc & _).
    cbn in H. unfold _st_select_pollset_del in H. rewrite E1 in H. injection H as <-. apply Hc.
  - intros fds e e' He Hr H Hle Hc. destruct (del_fds_ok fds e He Hr) as (e1 & E1 & _ & Hm & _ & Hs).
    cbn in H. unfold _st_select_pollset_del in H. rewrite E1 in H. injection H as <-.
    intros i f. destruct (Hs Hle) with (j := i) (g := f) as [Ha Hb]; [intros j g; apply Hc |].
    split; [apply Ha |]. intros Hin. rewrite Hm. apply Hc with (i := i). by apply Hb.
Qed.

#[export] Instance select_counting_exact : CountingExact _st_seldata.
Proof. intros e f Hc H i [Hin _]. apply (proj1 (Hc i f)) in Hin. change (0 < cnt e i f) in Hin. rewrite H in Hin. lia. Qed.

(** ** The loops *)
Lemma looked_range look l : in_range l → in_range (looked look l).
Proof. unfold in_range, looked. intros H. apply Forall_fmap. eapply Forall_impl; [exact H |]. done. Qed.

Lemma max_osfd_spec l : -1 <= max_osfd l ∧ ∀ f, f ∈ l → f <= max_osfd l.
Proof.
  unfold max_osfd. assert (∀ m, m <= foldl (λ m f, if m <? f then f else m) m l ∧
    ∀ f, f ∈ l → f <= foldl (λ m f, if m <? f then f else m) m l) as H; [| apply (H (-1))].
  induction l as [| x l IH]; intros m; cbn; [split; [lia | by intros ? ?%not_elem_of_nil] |].
  destruct (Z.ltb_spec m x) as [Hlt | Hge].
  - destruct (IH x) as [H1 H2]. split; [lia |]. intros f [-> | Hf]%elem_of_cons; [lia | by apply H2].
  - destruct (IH m) as [H1 H2]. split; [lia |]. intros f [-> | Hf]%elem_of_cons; [lia | by apply H2].
Qed.

(** What a round does to the queues and to the tables. *)
Definition round_effect (look : pollfd → Z) (counts : pollfd → bool) (t : Z) (s s' : vp) : Prop :=
  let l := looked look (fds_of s t) in
  round_queues look t s s' ∧
  if ready look s t then
    _st_select_pollset_del l (eventsys s) = (Ok tt, eventsys s') ∧ maxfd (eventsys s') = maxfd (eventsys s)
  else eventsys s' = (raise_maxfd (max_osfd (fd <$> filter (λ pd, counts pd = true) l)) (eventsys s)).2.

Lemma select_round_ok look counts t s F :
  inv s → polls_wait s → t ∈ io_q s →
  wp (select_round look counts t) (λ _ s', calm s s' ∧ round_effect look counts t s s') F s.
Proof.
  intros Hi Hp Ht. destruct (polling_fds s t Hi Ht) as (pq & _ & Hf & Hr).
  assert (in_range (looked look (fds_of s t))) as Hl by (rewrite Hf; by apply looked_range).
  destruct (del_fds_ok (looked look (fds_of s t)) (eventsys s)) as (e & E1 & T1 & M1 & _); [apply (inv_all s Hi 0) | done |].
  apply (round_wp look _ _ t s e); try done.
  - intros s' Hc Hq Hrd Ee. split; [done |]. unfold round_effect. rewrite Hrd, Ee. done.
  - intros s1 Hc Hq Hrd Ee. unfold wp, on_ev, raise_maxfd. cbn [modify]. destruct Hc as (Hi1 & Hp1 & Et & Ei).
    unfold round_effect. rewrite Hrd. split; [split_and!; try done | split; [done |]; cbn; by rewrite Ee].
    apply with_eventsys_inv; [| done]. rewrite Ee. split; [apply (inv_all s Hi 0) | done].
Qed.

Lemma reset_ok s F (Q : unit → vp → Prop) :
  inv s → polls_wait s →
  (∀ s', inv s' → polls_wait s' → s' = with_eventsys (Seldata (fd_set (eventsys s)) (fd_ref_cnts (eventsys s)) (-1)) s →
    Q tt s') → wp (on_ev reset_maxfd) Q F s.
Proof.
  intros Hi Hp HQ. unfold wp, on_ev, reset_maxfd. cbn [modify]. apply HQ; [| done | done].
  apply with_eventsys_inv; [| done]. split; [apply (inv_all s Hi 0) | done].
Qed.

Lemma loop_ok look counts s F :
  inv s → polls_wait s →
  wp (on_ev reset_maxfd ;; s <- gets id ;; for_each (select_round look counts) (io_q s)) (λ _, calm s) F s.
Proof.
  intros Hi Hp. apply wp_bind, reset_ok; [done | done |]. intros s1 Hi1 Hp1 E1.
  apply wp_bind, wp_gets. cbn [id].
  assert (this_thread s1 = this_thread s ∧ idle_thread s1 = idle_thread s) as [Et Ei] by (by subst s1).
  eapply wp_mono; [| | apply (loop_wp (λ _ _, True) (select_round look counts) s1 F)]; try done.
  - cbn beta. intros _ s2 ((Hi2 & Hp2 & Et2 & Ei2) & _). unfold calm. split_and!; congruence || done.
  - intros t l s' F' Hi' Hp' _ Ht _. eapply wp_mono; [| | apply (select_round_ok look counts t s' F' Hi' Hp' Ht)]; [| done].
    cbn beta. intros _ s2 (Hc & Hq & _). split; [done |]. split; [done |]. by exists look.
Qed.

Lemma calm_ends s s' : calm s s' → inv s' ∧ this_thread s' = this_thread s ∧ idle_thread s' = idle_thread s.
Proof. by intros (? & ? & ? & ?). Qed.

Lemma dispatch_by_loop look counts s :
  inv s → polls_wait s →
  wp (on_ev reset_maxfd ;; s <- gets id ;; for_each (select_round look counts) (io_q s))
    (λ _ s', inv s' ∧ this_thread s' = this_thread s ∧ idle_thread s' = idle_thread s) (λ _, False) s.
Proof.
  intros Hi Hp. eapply wp_mono; [| | by apply (loop_ok look counts s (λ _, False))]; [| done].
  intros [] s'. apply calm_ends.
Qed.

#[export] Instance select_dispatch_laws : DispatchLaws _st_seldata select_os.
Proof.
  refine {| answer_ok _ _ := True |}.
  - intros os s Hi Hp _. unfold dispatch, select_dispatch, _st_select_dispatch. apply wp_bind, wp_gets. cbn [id].
    destruct (select os _ _ _ _ _) as [r w x | | ebadf].
    + by apply dispatch_by_loop.
    + by apply wp_ret.
    + destruct ebadf; [by apply dispatch_by_loop | by apply wp_ret].
  - done.
  - intros os. unfold dispatch, select_dispatch, _st_select_dispatch, _st_select_find_bad_fd, grows.
    assert (∀ look counts (l : list Z), pres goes_on (for_each (select_round look counts) l)) as Hl.
    { intros look counts l. apply pres_for_each; [apply _ |]. intros t. unfold select_round, round. pres. }
    pres; apply Hl.
Defined.

(** The counts while the polls of [l] are still to come. *)
Record partly_matched (l : list Z) (s : vp) : Prop := {
  pm_cnt : counted s;
  pm_sets : sets_ok (eventsys s);
  pm_max t pd : t ∈ io_q s → t ∉ l → pd ∈ fds_of s t → fd pd <= maxfd (eventsys s);
}.

Lemma partly_matched_all s : partly_matched [] s → matched s.
Proof.
  intros [Hc Hs Hm]. split; [done |]. intros i f. split; [apply Hs |]. intros Hin. apply Hs in Hin.
  rewrite Hc in Hin. apply wanted_pos in Hin as (t & pd & Ht & Hpd & <- & _).
  apply (Hm t pd Ht); [apply not_elem_of_nil | done].
Qed.

Lemma told_round_matched look counts t l s s' :
  ready look s t = true →
  inv s → t ∈ io_q s → round_effect look counts t s s' → partly_matched (t :: l) s → partly_matched l s'.
Proof.
  intros Hrd Hi Ht [Hq He] [Hc Hs Hm]. rewrite Hrd in He. destruct He as [Ed Em].
  destruct (polling_fds s t Hi Ht) as (pq & _ & Ef & Hrange). set (l' := looked look (fds_of s t)) in *.
  assert (in_range l') as Hl' by (unfold l'; rewrite Ef; by apply looked_range).
  destruct (del_fds_ok l' (eventsys s)) as (e & E1 & _ & _ & C1 & S1); [apply (inv_all s Hi 0) | done |].
  unfold _st_select_pollset_del in Ed. rewrite Ed in E1. injection E1 as <-. split.
  - apply (round_counted look t s s' Hi Ht Hq Hc). intros i f. by rewrite Hrd, C1.
  - intros i f. apply S1; [| done]. intros j g. by apply round_bounds.
  - unfold round_queues in Hq. rewrite Hrd in Hq. destruct Hq as (Eio & _ & Epq).
    intros u pd Hin Hul Hpd. rewrite Eio, elem_of_remove in Hin. destruct Hin as [Hin Hne]. rewrite Em.
    apply (Hm u pd Hin); [by rewrite not_elem_of_cons |]. unfold fds_of in *. by rewrite Epq, lookup_insert_ne in Hpd.
Qed.

Lemma skipped_round_matched look counts t l s s' :
  ready look s t = false → (∀ pd, events pd ≠ 0 → counts pd = true) →
  inv s → t ∈ io_q s → round_effect look counts t s s' → partly_matched (t :: l) s → partly_matched l s'.
Proof.
  intros Hrd Hcounts Hi Ht [Hq He] [Hc Hs Hm]. rewrite Hrd in He.
  destruct (polling_fds s t Hi Ht) as (pq & _ & Ef & Hrange). set (l' := looked look (fds_of s t)) in *.
  assert (in_range l') as Hl' by (unfold l'; rewrite Ef; by apply looked_range).
  unfold raise_maxfd in He. cbn [modify snd] in He. set (m := max_osfd _) in *. split.
  - apply (round_counted look t s s' Hi Ht Hq Hc). intros i f. rewrite Hrd, He, Z.sub_0_r. done.
  - by rewrite He.
  - unfold round_queues in Hq. rewrite Hrd in Hq. destruct Hq as (Eio & _ & Epq).
    intros u pd Hin Hul Hpd. rewrite Eio in Hin. rewrite He. cbn [maxfd].
    assert (fd pd <= m ∨ fd pd <= maxfd (eventsys s)) as H; [| destruct (Z.ltb_spec (maxfd (eventsys s)) m); lia].
    destruct (decide (u = t)) as [-> | Hne].
    + left. unfold fds_of in Hpd. rewrite Epq, lookup_insert_eq in Hpd. cbn in Hpd. apply max_osfd_spec.
      apply list_elem_of_fmap. exists pd. split; [done |]. apply list_elem_of_filter. split; [| done].
      apply Hcounts. by apply (proj1 (Forall_forall _ _) Hl' pd).
    + right. unfold fds_of in Hpd. rewrite Epq, lookup_insert_ne in Hpd by done.
      apply (Hm u pd Hin); [by rewrite not_elem_of_cons | done].
Qed.

Lemma loop_matched look counts s F :
  (∀ pd, events pd ≠ 0 → counts pd = true) → inv s → polls_wait s → matched s →
  wp (on_ev reset_maxfd ;; s <- gets id ;; for_each (select_round look counts) (io_q s)) (λ _, matched) F s.
Proof.
  intros Hcounts Hi Hp [Hc Hcons]. apply wp_bind, reset_ok; [done | done |]. intros s1 Hi1 Hp1 E1.
  apply wp_bind, wp_gets. cbn [id].
  eapply wp_mono; [| | apply (loop_wp partly_matched (select_round look counts) s1 F)]; try done.
  - cbn beta. intros _ s2 (_ & Hm). by apply partly_matched_all.
  - subst s1. split; [done | intros i f; by apply Hcons | done].
  - intros t l s' F' Hi' Hp' Hm' Ht Htl.
    eapply wp_mono; [| | apply (select_round_ok look counts t s' F' Hi' Hp' Ht)]; [| done].
    cbn beta. intros _ s2 (Hca & Hr). split; [done |]. split; [| exists look; apply Hr].
    destruct (ready look s' t) eqn:Hrd;
      [by apply (told_round_matched look counts t l s' s2) | by apply (skipped_round_matched look counts t l s' s2)].
Qed.

#[export] Instance select_counting_dispatch : DispatchKept _st_seldata select_os matched.
Proof.
  split. intros os s Hi Hp _ Hm. unfold dispatch, select_dispatch, _st_select_dispatch.
  apply wp_bind, wp_gets. cbn [id]. destruct (select os _ _ _ _ _) as [r w x | | ebadf].
  - by apply loop_matched.
  - by apply wp_ret.
  - destruct ebadf; [| by apply wp_ret]. apply loop_matched; try done. intros pd Hpd. by apply negb_true_iff, Z.eqb_neq.
Qed.

(** With [select] it is exact for each event too: in every state the three sets hold what some thread
    waits for and nothing else, and no member is beyond [maxfd]. *)
Theorem select_sets_exact idle primordial clock (e : _st_seldata) s :
  idle ≠ primordial → tables_ok e → (∀ i f, cnt e i f = 0) → (∀ i, fd_set e i = ∅) →
  rtc (step (A := select_os)) (st_init idle primordial clock e) s →
  ∀ i f, watched (eventsys s) i f ↔ 0 < wanted s i f.
Proof.
  intros Hne He H0 Hs Hr. assert (ok (st_init idle primordial clock e)) as Hok by (by apply init_ok).
  assert (consistent e) as Hc.
  { intros i f. change (default 0 _) with (cnt e i f). rewrite H0, Hs. set_solver by lia. }
  destruct (steps_kept (A := select_os) matched _ _ Hr Hok (init_matched idle primordial clock e H0 Hc)) as [Hcnt Hw].
  intros i f. rewrite <- Hcnt. destruct (Hw i f) as [H1 H2]. cbn. tauto.
Qed.

Definition answered (r w x : gset Z) : interest → gset Z := λ i, match i with Rd => r | Wr => w | Ex => x end.

(** When [select] returns descriptors, [_st_select_dispatch] makes exactly those polling
    threads runnable that wait for one of them, in the order of the I/O queue, stores in
    [revents] of every waiting poll what occurred, and leaves the others waiting. *)
Theorem select_notifies_ready os s r w x :
  inv s → polls_wait s →
  select os (maxfd (eventsys s) + 1) (fd_set (eventsys s) Rd) (fd_set (eventsys s) Wr) (fd_set (eventsys s) Ex)
    (select_timeval s) = Selected r w x →
  ∃ s', _st_select_dispatch os s = (Ok tt, s') ∧ inv s' ∧ all_told (select_revents (answered r w x)) s s'.
Proof.
  intros Hi Hp Hs. set (look := select_revents (answered r w x)).
  assert (wp (_st_select_dispatch os) (λ _ s', inv s' ∧ told look s (io_q s) s') (λ _, False) s) as H.
  { unfold _st_select_dispatch. apply wp_bind, wp_gets. cbn [id]. rewrite Hs. apply wp_bind, reset_ok; [done | done |].
    intros s1 Hi1 Hp1 E1. assert (io_q s = io_q s1) as Eio by (by subst s1). rewrite Eio.
    eapply wp_mono; [| | apply (loop_wp (λ l s', ∃ v, io_q s = v ++ l ∧ told look s v s')
      (select_round look (λ _, true)) s1 (λ _, False))]; try done.
    - cbn beta. intros _ s2 ((Hi2 & _) & (v & Hv & Ht)). rewrite app_nil_r in Hv. subst v. by rewrite <- Eio.
    - exists []. split; [done |]. by apply told_nil; subst s1.
    - intros t l s' F' Hi' Hp' (v & Hv & Ht) Hin Htl.
      eapply wp_mono; [| | apply (select_round_ok look (λ _, true) t s' F' Hi' Hp' Hin)]; [| done].
      cbn beta. intros _ s2 (Hca & Hq & _). split; [done |]. split; [| by exists look].
      exists (v ++ [t]). by apply (loop_told look s l s'). }
  unfold wp in H. destruct (_st_select_dispatch os s) as [[[] | | | |] s'] eqn:Ed; try done.
  destruct H as [Hi' Ht]. exists s'. split; [done |]. split; [done |]. by apply told_all.
Qed.

(** ** Two threads wait for the descriptors 5 and 7, and one of them becomes readable. *)
Definition no_fds : _st_seldata := Seldata (λ _, ∅) (λ _, replicate (Z.to_nat FD_SETSIZE) 0) (-1).

#[export] Instance select_checks : Checks _st_seldata select_os := {|
  validb _ := true; answerb _ _ := true; validb_ok _ _ := I; answerb_ok _ _ _ := I |}.

Definition two_polls : list (@event select_os) :=
  [Create 3; Poll [Pollfd 5 POLLIN 0] ST_UTIME_NO_TIMEOUT; Resume;
   Poll [Pollfd 7 (Z.lor POLLIN POLLOUT) 0; Pollfd 5 POLLIN 0] 100].

Definition seven_readable : select_os := SelectOs (λ _ _ _ _ _, Selected {[7]} ∅ ∅) (λ _, false).

Definition polling_two : vp := reached (A := select_os) no_fds two_polls.

Lemma polling_two_run : is_Some (run_events two_polls (init no_fds)).
Proof. vm_compute. by eexists. Qed.

Lemma polls_are_counted_witness :
  cnt (eventsys polling_two) Rd 5 = 2 ∧ cnt (eventsys polling_two) Wr 5 = 0 ∧
  watched (eventsys polling_two) Rd 5 ∧ ¬ watched (eventsys polling_two) Rd 6.
Proof.
  pose proof (polls_are_counted (A := select_os) 1 2 1000 no_fds polling_two) as H.
  assert (∀ i f, cnt no_fds i f = 0) as H0.
  { intros i f. unfold cnt, select_counting, no_fds, fd_index. cbn [fd_ref_cnts]. destruct (0 <=? f); [| done].
    destruct (replicate _ 0 !! Z.to_nat f) as [n |] eqn:En; [| done]. by apply lookup_replicate in En as [-> _]. }
  destruct (H ltac:(lia) ltac:(intros i; apply length_replicate) H0) as (Hc & Hw & Hn).
  - intros i f. change (default 0 _) with (cnt no_fds i f). rewrite H0.
    assert (f ∉ fd_set no_fds i) as Hf by apply not_elem_of_empty.
    split; [split; [intros Hin; by destruct (Hf Hin) | lia] | intros Hin; by destruct (Hf Hin)].
  - apply reached_rtc, polling_two_run.
  - rewrite !Hc. split; [vm_compute; reflexivity |]. split; [vm_compute; reflexivity |]. split.
    + apply Hw. vm_compute. reflexivity.
    + apply Hn. intros i. destruct i; vm_compute; reflexivity.
Defined.

Lemma select_sets_exact_witness : watched (eventsys polling_two) Wr 7 ∧ ¬ watched (eventsys polling_two) Wr 5.
Proof.
  assert (∀ i f, cnt no_fds i f = 0) as H0.
  { intros i f. unfold cnt, select_counting, no_fds, fd_index. cbn [fd_ref_cnts]. destruct (0 <=? f); [| done].
    destruct (replicate _ 0 !! Z.to_nat f) as [n |] eqn:En; [| done]. by apply lookup_replicate in En as [-> _]. }
  pose proof (select_sets_exact 1 2 1000 no_fds polling_two ltac:(lia) ltac:(intros i; apply length_replicate) H0
    ltac:(done) (reached_rtc _ _ polling_two_run)) as H.
  split; [apply H; vm_compute; reflexivity | rewrite H; vm_compute; discriminate].
Defined.

Lemma select_notifies_ready_witness :
  polls_wait polling_two ∧
  ∃ s', _st_select_dispatch seven_readable polling_two = (Ok tt, s') ∧ run_q s' = [3] ∧ io_q s' = [2] ∧
    pollqs s' !! 3 = Some (Pollq [Pollfd 7 5 1; Pollfd 5 1 0] false).
Proof.
  assert (inv polling_two) as Hi.
  { apply reached_inv; [intros i; apply length_replicate | apply polling_two_run]. }
  assert (polls_wait polling_two) as Hp by (apply idle_polls_wait; [exact Hi | vm_compute; done | vm_compute; done]).
  split; [exact Hp |].
  destruct (select_notifies_ready seven_readable polling_two {[7]} ∅ ∅ Hi Hp eq_refl) as (s' & E1 & _ & Er & Eio & Ef).
  exists s'. split; [exact E1 |]. split; [rewrite Er; vm_compute; reflexivity |].
  split; [rewrite Eio; vm_compute; reflexivity |].
  rewrite (Ef 3); [vm_compute; reflexivity |]. vm_compute. right. left.
Defined.
