(* ===== verification/PollEv.v ===== *)
(** * event.c: the poll event system

    It counts no descriptors: only how many there are in all the polls on the I/O queue ([fdcnt]), so as to know how large an array
    to pass to [poll].  A dispatch copies the descriptors of all polls into that array, one poll after
    the other, and afterwards reads the answer in the same order.  That the copies fit is the
    invariant [tallied]. *)

From stdpp Require Import base list sets gmap relations.
From Stdlib Require Import Lia ZArith.
From S2P Require Import Prelude.
From S2P Require Import Bytes.
From S2P Require Import TimeoutHeap.
From S2P Require Import Vp.
From S2P Require Import Sync.
From S2P Require Import Fair.
From S2P Require Import Sched.
From S2P Require Import SchedOps.
From S2P Require Import SchedCalls.
From S2P Require Import SchedSteps.
From S2P Require Import IoQueue.
From S2P Require Import Interest.
From S2P Require Import Rounds.

Local Open Scope Z_scope.

(** [pollfds]: the cells of the array. *)
Record _st_polldata := Polldata {
  pollfds : list pollfd;
  pollfds_size : Z;
  fdcnt : Z;
}.

Definition ST_MIN_POLLFDS_SIZE : Z := 64.

(** [data]: whether there is memory for the structure; [mem]: what [malloc] returns for so many elements,
    cells of any contents or NULL. *)
Definition _st_poll_init (data : bool) (mem : Z → option (list pollfd)) : outcome _st_polldata :=
  if negb data then Fail else
  match mem ST_MIN_POLLFDS_SIZE with
  | None => Fail
  | Some l => Ok (Polldata l ST_MIN_POLLFDS_SIZE 0)
  end.

Definition poll_bad (pd : pollfd) : bool := (fd pd <? 0) || (events pd =? 0).

Definition with_fdcnt (n : Z) (e : _st_polldata) : _st_polldata := Polldata (pollfds e) (pollfds_size e) n.
Definition with_pollfds (l : list pollfd) (e : _st_polldata) : _st_polldata := Polldata l (pollfds_size e) (fdcnt e).

Definition npds (l : list pollfd) : Z := Z.of_nat (length l).

Definition _st_poll_pollset_add (pds : list pollfd) : M _st_polldata unit :=
  if existsb poll_bad pds then fail else modify (λ e, with_fdcnt (fdcnt e + npds pds) e).

(** The assertion that the count is not negative is a consequence of [tallied]. *)
Definition _st_poll_pollset_del (pds : list pollfd) : M _st_polldata unit :=
  modify (λ e, with_fdcnt (fdcnt e - npds pds) e).

#[export] Instance poll_eventsys : EventSys _st_polldata := {
  pollset_add := _st_poll_pollset_add;
  pollset_del := _st_poll_pollset_del;
}.

(** [poll]: the [revents] of all elements, or [None] for -1; it returns how many of them are not zero. *)
Record poll_os := PollOs {
  poll : list pollfd → Z → option (list Z);
  malloc : Z → option (list pollfd);
}.

Notation vp := (@_st_vp _st_polldata).

(** A larger array if the old one is too small. *)
Definition grow (os : poll_os) : M _st_polldata unit := λ e,
  if pollfds_size e <? fdcnt e then
    match malloc os (fdcnt e + 10) with
    | Some l => (Ok tt, Polldata l (fdcnt e + 10) (fdcnt e))
    | None => (Undef, e)
    end
  else (Ok tt, e).

(** [memcpy(pollfds, pq->pds, ...)], [pollfds] at the index [p]. *)
Definition put_fds (p : nat) (l : list pollfd) : M _st_polldata unit := λ e,
  if (p + length l <=? length (pollfds e))%nat
  then (Ok tt, with_pollfds (take p (pollfds e) ++ l ++ drop (p + length l) (pollfds e)) e) else (Undef, e).

(** The elements from [p] on. *)
Definition get_fds (p n : nat) : M _st_polldata (list pollfd) := λ e,
  if (p + n <=? length (pollfds e))%nat then (Ok (take n (drop p (pollfds e))), e) else (Undef, e).

(** The loop that fills the array; the result is the final index. *)
Fixpoint gather (l : list Z) (p : nat) : M vp nat :=
  match l with
  | [] => ret p
  | t :: l => pq <- the_pollq t ;; on_ev (put_fds p (pds pq)) ;; gather l (p + length (pds pq))
  end.

Definition answered (l : list pollfd) (revs : list Z) : list pollfd :=
  zip_with (λ pd r, Pollfd (fd pd) (events pd) r) l revs.

(** [nfd = poll(_ST_POLLFDS, _ST_POLL_OSFD_CNT, timeout);] *)
Definition call_poll (os : poll_os) (timeout : Z) : M _st_polldata Z :=
  e <- gets id ;;
  l <- get_fds 0 (Z.to_nat (fdcnt e)) ;;
  match poll os l timeout with
  | None => ret (-1)
  | Some revs => put_fds 0 (answered l revs) ;; ret (ready_count (answered l revs))
  end.

(** [_ST_POLL_OSFD_CNT -= pq->npds;] and the assertion. *)
Definition drop_fds (n : Z) : M _st_polldata unit := λ e,
  let e := with_fdcnt (fdcnt e - n) e in ((if 0 <=? fdcnt e then Ok tt else Undef), e).

(** The loop that tells the threads; [p] is where the answer of the poll at hand begins. *)
Fixpoint tell (l : list Z) (p : nat) : M vp unit :=
  match l with
  | [] => ret tt
  | t :: l =>
      pq <- the_pollq t ;;
      fds <- on_ev (get_fds p (length (pds pq))) ;;
      (if existsb has_event fds then notify t fds (ret tt) ;; on_ev (drop_fds (npds (pds pq))) else ret tt) ;;
      tell l (p + length (pds pq))
  end.

Definition _st_poll_dispatch (os : poll_os) : M vp unit :=
  check (λ s, 0 <=? fdcnt (eventsys s)) ;;
  on_ev (grow os) ;;
  s <- gets id ;;
  p <- gather (io_q s) 0 ;;
  check (λ s, Z.of_nat p <=? pollfds_size (eventsys s)) ;;
  nfd <- on_ev (call_poll os (timeout_ms s)) ;;
  if 0 <? nfd then tell (io_q s) 0 else ret tt.

#[export] Instance poll_dispatch : Dispatch _st_polldata poll_os := { dispatch := _st_poll_dispatch }.

Definition _st_poll_fd_new (osfd : Z) : outcome unit := Ok tt.
Definition _st_poll_fd_close (osfd : Z) : M _st_polldata unit := ret tt.
Definition _st_poll_fd_getlimit : Z := 0.

(** ** The count *)
#[export] Instance poll_laws : EventSysLaws _st_polldata.
Proof.
  refine {| ev_ok e := Z.of_nat (length (pollfds e)) = pollfds_size e; fds_valid _ := True; fds_ok _ _ := True |}.
  - intros fds e He _. unfold pollset_add, poll_eventsys, _st_poll_pollset_add.
    destruct (existsb poll_bad fds); eexists _, _; (split; [reflexivity |]).
    + split; [by right | done].
    + split; [by left | done].
  - intros fds e He _. by eexists.
Defined.

(** How many descriptors the polls on the I/O queue have. *)
Definition pending (s : vp) : Z := total (λ t, npds (fds_of s t)) (io_q s).

Definition tallied (s : vp) : Prop := fdcnt (eventsys s) = pending s.

Lemma npds_nonneg l : 0 <= npds l.
Proof. unfold npds. lia. Qed.

Lemma tallied_nonneg s : tallied s → 0 <= fdcnt (eventsys s).
Proof. intros ->. apply (total_bounds _ _ 0). intros u. apply npds_nonneg. Qed.

Lemma pending_remove s s' t :
  NoDup (io_q s) → t ∈ io_q s → io_q s' = remove t (io_q s) → (∀ u, u ≠ t → pollqs s' !! u = pollqs s !! u) →
  pending s' = pending s - npds (fds_of s t).
Proof.
  intros Hnd Ht Ei Hp. unfold pending. rewrite Ei, <- (total_remove (λ u, npds (fds_of s u))) by done.
  apply total_ext. intros u [_ Hu]%elem_of_remove. unfold fds_of. by rewrite Hp.
Qed.

#[export] Instance tallied_kept : IoKept tallied.
Proof.
  unfold tallied. split.
  - intros s s' (Ei & Ep & Ee) H. rewrite Ee, H. unfold pending, fds_of. by rewrite Ei, Ep.
  - intros fds s e _ _ Ha H. cbn in Ha. unfold _st_poll_pollset_add in Ha. 
    destruct (existsb poll_bad fds); [by injection Ha as <- | done].
  - intros t fds s s' _ _ Ha Ht Ei Ep H. cbn in Ha. unfold _st_poll_pollset_add in Ha.
    destruct (existsb poll_bad fds); [done |]. injection Ha as <-. cbn. rewrite H. unfold pending.
    rewrite Ei, total_app. f_equal; [| unfold total, fds_of; cbn; rewrite Ep, lookup_insert_eq; cbn; lia].
    apply total_ext. intros u Hu. unfold fds_of. rewrite Ep, lookup_insert_ne; [done |]. by intros ->.
  - intros t s s' _ _ Hnd Ht Hd Ei Ep H. cbn in Hd. unfold _st_poll_pollset_del in Hd. injection Hd as <-. cbn.
    by rewrite H, (pending_remove s s' t).
  - intros t s s' Ht Ei Ep Ee H. rewrite Ee, H. unfold pending. rewrite Ei. apply total_ext.
    intros u Hu. unfold fds_of. rewrite Ep; [done |]. by intros ->.
Qed.

(** ** Filling the array *)
Definition gathered (s : vp) (l : list Z) : list pollfd := l ≫= fds_of s.

Lemma gathered_cons s t l : gathered s (t :: l) = fds_of s t ++ gathered s l.
Proof. done. Qed.

Lemma gathered_ext s s' l : (∀ u, u ∈ l → fds_of s' u = fds_of s u) → gathered s' l = gathered s l.
Proof.
  induction l as [| t l IH]; intros H; [done |]. rewrite !gathered_cons, (H t) by left. f_equal.
  apply IH. intros u Hu. apply H. by right.
Qed.

Lemma gathered_length s l : npds (gathered s l) = total (λ t, npds (fds_of s t)) l.
Proof.
  induction l as [| t l IH]; [done |]. rewrite gathered_cons. unfold npds in *.
  rewrite length_app, Nat2Z.inj_add, IH. done.
Qed.

Lemma put_ok a l r size n :
  (length l <= length r)%nat →
  put_fds (length a) l (Polldata (a ++ r) size n) = (Ok tt, Polldata (a ++ l ++ drop (length l) r) size n).
Proof.
  intros Hl. unfold put_fds. cbn [pollfds]. rewrite (proj2 (Nat.leb_le _ _)) by (rewrite length_app; lia).
  unfold with_pollfds. cbn. by rewrite take_app_length, drop_app_add'.
Qed.

Lemma gather_ok l a r size n s :
  (∀ t, t ∈ l → is_Some (pollqs s !! t)) → (length (gathered s l) <= length r)%nat →
  eventsys s = Polldata (a ++ r) size n →
  gather l (length a) s = (Ok (length (a ++ gathered s l)),
    with_eventsys (Polldata (a ++ gathered s l ++ drop (length (gathered s l)) r) size n) s).
Proof.
  revert a r s. induction l as [| t l IH]; intros a r s Hl Hlen He; cbn [gather].
  - cbn. rewrite app_nil_r, drop_0, <- He. by destruct s.
  - destruct (Hl t) as [pq Hpq]; [left |]. assert (fds_of s t = pds pq) as Hf by (unfold fds_of; by rewrite Hpq).
    rewrite gathered_cons in *. rewrite Hf in *. rewrite length_app in Hlen. unfold bind at 1, the_pollq. rewrite Hpq.
    unfold bind, on_ev. rewrite He, put_ok by lia.
    set (s1 := with_eventsys _ s). rewrite <- length_app.
    rewrite (IH (a ++ pds pq) (drop (length (pds pq)) r) s1).
    + change (gathered s1 l) with (gathered s l). rewrite drop_drop, <- !app_assoc, !length_app, Nat.add_assoc. done.
    + intros u Hu. apply Hl. by right.
    + change (gathered s1 l) with (gathered s l). rewrite length_drop. lia.
    + unfold s1. cbn. by rewrite <- app_assoc.
Qed.

Lemma get_ok a l r e : pollfds e = a ++ l ++ r → get_fds (length a) (length l) e = (Ok l, e).
Proof.
  intros He. unfold get_fds. rewrite He, (proj2 (Nat.leb_le _ _)) by (rewrite !length_app; lia).
  by rewrite drop_app_length, take_app_length.
Qed.

Lemma wp_on_ev {B : Type} (c : M _st_polldata B) (x : B) (s : vp) F (Q : B → vp → Prop) :
  c (eventsys s) = (Ok x, eventsys s) → Q x s → wp (on_ev c) Q F s.
Proof. intros Hc HQ. unfold wp, on_ev. rewrite Hc. by destruct s. Qed.

Lemma answered_length l revs : length revs = length l → length (answered l revs) = length l.
Proof. intros H. unfold answered. rewrite length_zip_with. lia. Qed.

(** What the kernel is told and what it is allowed to answer. *)
Definition kernel_ok (os : poll_os) : Prop :=
  (∀ l timeout revs, poll os l timeout = Some revs → length revs = length l) ∧
  (∀ n, 0 <= n → ∃ l, malloc os n = Some l ∧ Z.of_nat (length l) = n).

Lemma call_poll_ok os timeout l r size :
  kernel_ok os →
  call_poll os timeout (Polldata (l ++ r) size (npds l)) =
  match poll os l timeout with
  | None => (Ok (-1), Polldata (l ++ r) size (npds l))
  | Some revs => (Ok (ready_count (answered l revs)), Polldata (answered l revs ++ r) size (npds l))
  end.
Proof.
  intros [Hk _]. unfold call_poll, bind at 1. cbn [gets id fdcnt]. unfold npds at 1. rewrite Nat2Z.id.
  rewrite (bind_ok _ _ _ _ _ (get_ok [] l r (Polldata (l ++ r) size (npds l)) eq_refl)).
  destruct (poll os l timeout) as [revs |] eqn:Hp; [| done]. apply Hk in Hp. apply answered_length in Hp.
  assert (put_fds 0 (answered l revs) (Polldata (l ++ r) size (npds l)) =
    (Ok tt, Polldata (answered l revs ++ r) size (npds l))) as Hput.
  { etransitivity; [apply (put_ok [] (answered l revs) (l ++ r) size (npds l)); rewrite length_app; lia |].
    cbn. by rewrite Hp, drop_app_length. }
  by rewrite (bind_ok _ _ _ _ _ Hput).
Qed.

(** ** Telling the threads *)
(** Which part of the answer [a] each poll of [l] gets. *)
Fixpoint reply (s : vp) (l : list Z) (a : list pollfd) : list (Z * list pollfd) :=
  match l with
  | [] => []
  | t :: l => let n := length (fds_of s t) in (t, take n a) :: reply s l (drop n a)
  end.

(** The threads that are told. *)
Definition hit (r : list (Z * list pollfd)) : list Z := (filter (λ x, existsb has_event x.2 = true) r).*1.

Lemma reply_ext s s' l a : (∀ u, u ∈ l → fds_of s' u = fds_of s u) → reply s' l a = reply s l a.
Proof.
  revert a. induction l as [| t l IH]; intros a H; [done |]. cbn. rewrite (H t) by left. f_equal.
  apply IH. intros u Hu. apply H. by right.
Qed.

Lemma reply_threads s l a : (reply s l a).*1 = l.
Proof. revert a. induction l as [| t l IH]; intros a; cbn; [done |]. by rewrite IH. Qed.

Lemma hit_in s l a t : t ∈ hit (reply s l a) → t ∈ l.
Proof.
  intros (x & -> & [_ Hx]%list_elem_of_filter)%list_elem_of_fmap. rewrite <- (reply_threads s l a). by apply list_elem_of_fmap_2.
Qed.

(** The state after the polls with the answers [r] were looked at. *)
Record spread (r : list (Z * list pollfd)) (s s' : vp) : Prop := {
  spread_run : run_q s' = run_q s ++ hit r;
  spread_io : io_q s' = filter (λ t, t ∉ hit r) (io_q s);
  spread_hit t fds : (t, fds) ∈ r → existsb has_event fds = true → pollqs s' !! t = Some (Pollq fds false);
  spread_rest t : t ∉ hit r → pollqs s' !! t = pollqs s !! t;
}.

Lemma spread_nil s : spread [] s s.
Proof.
  split; [by rewrite app_nil_r | | by intros ? ? ?%not_elem_of_nil | done].
  symmetry. apply filter_all. intros u _. apply not_elem_of_nil.
Qed.

Lemma spread_skip t fds r s s' : existsb has_event fds = false → spread r s s' → spread ((t, fds) :: r) s s'.
Proof.
  intros Hf [Hr Hi Hh Hs]. assert (hit ((t, fds) :: r) = hit r) as E.
  { unfold hit. rewrite filter_cons_False; [done |]. cbn. congruence. }
  split; rewrite ?E; [done | done | | done].
  intros u fds' [[= -> ->] | Hin]%elem_of_cons Hev; [congruence | by apply Hh].
Qed.

Lemma spread_tell t fds r s s1 s' :
  existsb has_event fds = true → t ∉ hit r → (∀ fds', (t, fds') ∉ r) →
  io_q s1 = remove t (io_q s) → run_q s1 = run_q s ++ [t] → pollqs s1 = <[t := Pollq fds false]> (pollqs s) →
  spread r s1 s' → spread ((t, fds) :: r) s s'.
Proof.
  intros Hf Ht Hnt Ei Er Ep [Hr Hi Hh Hs]. assert (hit ((t, fds) :: r) = t :: hit r) as E.
  { unfold hit. by rewrite filter_cons_True. }
  split; rewrite ?E.
  - by rewrite Hr, Er, <- app_assoc.
  - rewrite Hi, Ei. unfold remove. rewrite list_filter_filter. apply list_filter_iff. intros u.
    rewrite not_elem_of_cons. tauto.
  - intros u fds' [[= -> ->] | Hin]%elem_of_cons Hev; [| by apply Hh].
    by rewrite Hs, Ep, lookup_insert_eq.
  - intros u Hu. rewrite not_elem_of_cons in Hu. destruct Hu as [Hut Hu]. by rewrite Hs, Ep, lookup_insert_ne.
Qed.

(** One poll that has an event. *)
Lemma tell_round_ok t fds s F :
  inv s → polls_wait s → t ∈ io_q s → tallied s →
  wp (notify t fds (ret tt) ;; on_ev (drop_fds (npds (fds_of s t))))
    (λ _ s', calm s s' ∧ tallied s' ∧ pollfds (eventsys s') = pollfds (eventsys s) ∧ io_q s' = remove t (io_q s) ∧
      run_q s' = run_q s ++ [t] ∧ pollqs s' = <[t := Pollq fds false]> (pollqs s)) F s.
Proof.
  intros Hi Hp Ht Hta. apply wp_bind.
  eapply wp_mono; [| | apply (notify_ok t fds (ret tt) (eventsys s) s F Hi Hp Ht)]; [| done | done | done |].
  2: { split; [apply (inv_all s Hi 0) | done]. }
  cbn beta. intros _ s1 (Hi1 & Hp1 & Et & Ed & Eio & Er & Ep & Ee).
  set (s2 := with_eventsys (with_fdcnt (fdcnt (eventsys s1) - npds (fds_of s t)) (eventsys s1)) s1).
  assert (tallied s2) as Hta2.
  { unfold tallied. cbn. rewrite Ee, Hta. symmetry.
    apply (pending_remove s s2 t); [apply (inv_all s Hi 0) | done | done |].
    intros u Hu. cbn. by rewrite Ep, lookup_insert_ne. }
  pose proof (tallied_nonneg s2 Hta2) as H0. cbn in H0. unfold wp, on_ev, drop_fds. cbn [fdcnt with_fdcnt].
  rewrite (proj2 (Z.leb_le _ _)) by done. fold s2. split_and!; try done; [| by rewrite <- Ee].
  split_and!; try done. apply with_eventsys_inv; [| done]. split; [| done]. cbn. rewrite Ee. apply (inv_all s Hi 0).
Qed.

Lemma tell_ok l a b r s F :
  inv s → polls_wait s → NoDup l → (∀ t, t ∈ l → t ∈ io_q s) → tallied s →
  pollfds (eventsys s) = a ++ b ++ r → length b = length (gathered s l) →
  wp (tell l (length a)) (λ _ s', calm s s' ∧ tallied s' ∧ spread (reply s l b) s s') F s.
Proof.
  intros Hi Hp Hnd. revert a b s Hi Hp. induction Hnd as [| t l Htl Hnd IH]; intros a b s Hi Hp Hl Hta He Hb; cbn [tell reply].
  - split; [done |]. split; [done | apply spread_nil].
  - destruct (polling_fds s t Hi) as (pq & Hpq & Hf & _); [apply Hl; left |].
    rewrite gathered_cons, length_app in Hb.
    set (n := length (fds_of s t)) in *. rewrite <- (take_drop n b), <- app_assoc in He.
    assert (length (take n b) = n) as Hn by (rewrite length_take; lia). set (b1 := take n b) in *.
    assert (∀ s', calm s s' → (∀ u, u ∈ l → fds_of s' u = fds_of s u) → (∀ u, u ∈ l → u ∈ io_q s') → tallied s' →
      pollfds (eventsys s') = pollfds (eventsys s) →
      (∀ s'', spread (reply s l (drop n b)) s' s'' → spread ((t, b1) :: reply s l (drop n b)) s s'') →
      wp (tell l (length a + length (pds pq))) (λ _ s'', calm s s'' ∧ tallied s'' ∧
        spread ((t, b1) :: reply s l (drop n b)) s s'') F s') as Hrest.
    { intros s' (Hi' & Hp' & Et & Ed) Hfs Hio Hta' Hpf Hsp. assert (length a + length (pds pq) = length (a ++ b1))%nat as -> by (rewrite length_app, Hn, <- Hf; done).
      eapply wp_mono; [| | apply (IH (a ++ b1) (drop n b) s' Hi' Hp' Hio Hta')]; [| done | |].
      - cbn beta. intros _ s'' ((Hi2 & Hp2 & Et2 & Ed2) & Hta2 & Hs2). split; [split_and!; congruence || done |].
        split; [done |]. apply Hsp. by rewrite <- (reply_ext s s').
      - by rewrite Hpf, He, <- app_assoc.
      - rewrite length_drop, Hb, Nat.add_comm, Nat.add_sub.
        f_equal. symmetry. by apply gathered_ext. }
    apply wp_bind. unfold wp at 1, the_pollq. rewrite Hpq. apply wp_bind, (wp_on_ev _ b1).
    { assert (length (pds pq) = length b1) as -> by (rewrite Hn, <- Hf; done). by apply (get_ok a b1 (drop n b ++ r)). }
    apply wp_bind. apply wp_if; intros Hev.
    + assert (npds (pds pq) = npds (fds_of s t)) as -> by (by rewrite Hf).
      eapply wp_mono; [| | apply (tell_round_ok t b1 s F Hi Hp)]; [| done | apply Hl; left | done].
      cbn beta. intros _ s1 (Hc & Hta1 & Ea & Eio & Er & Ep). apply Hrest; try done.
      * intros u Hu. unfold fds_of. rewrite Ep, lookup_insert_ne; [done |]. by intros ->.
      * intros u Hu. rewrite Eio, elem_of_remove. split; [apply Hl; by right |]. by intros ->.
      * intros s'' Hs. apply (spread_tell t b1 _ s s1 s''); try done; [by intros ?%hit_in |].
        intros fds' Hin. apply Htl. rewrite <- (reply_threads s l (drop n b)). apply list_elem_of_fmap. by exists (t, fds').
    + apply wp_ret, Hrest; try done; [intros u Hu; apply Hl; by right |]. intros s'' Hs. by apply spread_skip.
Qed.

(** ** The dispatch *)
Lemma grow_ok os e :
  kernel_ok os → ev_ok e → 0 <= fdcnt e →
  ∃ arr size, grow os e = (Ok tt, Polldata arr size (fdcnt e)) ∧ Z.of_nat (length arr) = size ∧ fdcnt e <= size.
Proof.
  intros [_ Hm] He H0. unfold grow. destruct (Z.ltb_spec (pollfds_size e) (fdcnt e)).
  - destruct (Hm (fdcnt e + 10)) as (arr & -> & Hl); [lia |]. exists arr, (fdcnt e + 10). split; [done |]. lia.
  - exists (pollfds e), (pollfds_size e). destruct e. done.
Qed.

(** The state when [poll] has returned: the answer stands at the beginning of the array. *)
Definition polled (arr : list pollfd) (size : Z) (s s' : vp) : Prop := s' = with_eventsys (Polldata arr size (fdcnt (eventsys s))) s.

Lemma polled_ok arr size s s' :
  inv s → polls_wait s → tallied s → Z.of_nat (length arr) = size → polled arr size s s' →
  calm s s' ∧ tallied s' ∧ pollfds (eventsys s') = arr.
Proof.
  intros Hi Hp Ht Hl ->. split; [| done]. split; [| done]. by apply with_eventsys_inv.
Qed.

Definition told (os : poll_os) (s : vp) : list (Z * list pollfd) :=
  match poll os (gathered s (io_q s)) (timeout_ms s) with
  | Some revs => reply s (io_q s) (answered (gathered s (io_q s)) revs)
  | None => []
  end.

(** Up to the second loop. *)
Lemma before_tell os s Q F :
  inv s → polls_wait s → tallied s → kernel_ok os →
  (∀ arr r size s', polled (arr ++ r) size s s' → Z.of_nat (length (arr ++ r)) = size → match poll os (gathered s (io_q s)) (timeout_ms s) with
     | Some revs => arr = answered (gathered s (io_q s)) revs → wp (if 0 <? ready_count arr then tell (io_q s) 0 else ret tt) Q F s'
     | None => Q tt s'
     end) →
  wp (_st_poll_dispatch os) Q F s.
Proof.
  intros Hi Hp Ht Hk HQ. pose proof (tallied_nonneg s Ht) as H0. unfold _st_poll_dispatch.
  destruct (grow_ok os (eventsys s) Hk (ib_ev _ _ _ (inv_all s Hi 0)) H0) as (arr & size & Eg & Hl & Hsize).
  set (G := gathered s (io_q s)) in *. assert (npds G = fdcnt (eventsys s)) as HG by (rewrite Ht; apply gathered_length).
  assert (length G <= length arr)%nat as HGl by (unfold npds in HG; lia).
  apply wp_bind. unfold wp at 1, check. rewrite (proj2 (Z.leb_le _ _)) by done.
  apply wp_bind. unfold wp at 1, on_ev. rewrite Eg. set (s1 := with_eventsys _ s). apply wp_bind, wp_gets. cbn [id].
  pose proof (gather_ok (io_q s1) [] arr size (fdcnt (eventsys s)) s1) as Hga.
  change (gathered s1 (io_q s1)) with G in Hga. cbn [app length] in Hga. set (r := drop (length G) arr) in *.
  apply wp_bind. unfold wp at 1. rewrite Hga; [| | done | done].
  2: { intros t Hin. destruct (polling_fds s t Hi Hin) as (pq & Hpq & _). by exists pq. }
  assert (length (G ++ r) = length arr) as HGr by (unfold r; rewrite length_app, length_drop; lia).
  apply wp_bind. unfold wp at 1, check. cbn [eventsys with_eventsys pollfds_size]. rewrite (proj2 (Z.leb_le _ _)) by lia.
  apply wp_bind. unfold wp at 1, on_ev. cbn [eventsys with_eventsys]. rewrite <- HG, (call_poll_ok os _ G r size Hk).
  change (timeout_ms s1) with (timeout_ms s). change (io_q s1) with (io_q s). destruct (poll os G (timeout_ms s)) as [revs |] eqn:Er.
  - assert (length (answered G revs) = length G) as Ha by (by apply answered_length, (proj1 Hk _ (timeout_ms s))).
    specialize (HQ (answered G revs) r size). eapply HQ; [unfold polled; by rewrite <- HG | | done].
    rewrite length_app, Ha, <- length_app. lia.
  - apply wp_ret, (HQ G r size); [unfold polled; by rewrite <- HG | lia].
Qed.

Lemma spread_quiet r s s' :
  (∀ x, x ∈ r → existsb has_event x.2 = false) → spread [] s s' → spread r s s'.
Proof.
  intros Hr Hs. induction r as [| [t fds] r IH]; [done |].
  apply spread_skip; [apply (Hr (t, fds)); left |]. apply IH. intros x Hx. apply Hr. by right.
Qed.

Lemma spread_from r e s s' : spread r (with_eventsys e s) s' → spread r s s'.
Proof. by intros []. Qed.

Lemma none_ready l : ready_count l <= 0 → existsb has_event l = false.
Proof.
  unfold ready_count. intros H. destruct (existsb has_event l) eqn:E; [| done].
  apply existsb_exists in E as (pd & Hin & Hpd). apply list_elem_of_In in Hin.
  assert (pd ∈ filter (λ p, revents p ≠ 0) l) as Hf.
  { apply list_elem_of_filter. split; [| done]. unfold has_event in Hpd. by apply negb_true_iff, Z.eqb_neq in Hpd. }
  destruct (filter _ l); [by apply not_elem_of_nil in Hf | cbn in H; lia].
Qed.

Lemma quiet_reply s l a x : existsb has_event a = false → x ∈ reply s l a → existsb has_event x.2 = false.
Proof.
  revert a. induction l as [| t l IH]; intros a Ha; cbn; [by intros ?%not_elem_of_nil |].
  rewrite <- (take_drop (length (fds_of s t)) a), existsb_app, orb_false_iff in Ha. destruct Ha as [H1 H2].
  intros [-> | Hx]%elem_of_cons; [done | by apply (IH (drop (length (fds_of s t)) a))].
Qed.

Lemma poll_dispatch_ok os s F :
  inv s → polls_wait s → tallied s → kernel_ok os →
  wp (_st_poll_dispatch os) (λ _ s', calm s s' ∧ tallied s' ∧ spread (told os s) s s') F s.
Proof.
  intros Hi Hp Ht Hk. apply before_tell; try done. intros arr r size s' Hs' Hl. unfold told.
  destruct (polled_ok _ _ _ _ Hi Hp Ht Hl Hs') as ((Hi' & Hp' & Et & Ed) & Ht' & Ea).
  assert (∀ x s'', spread x s' s'' → spread x s s'') as Hfrom by (rewrite Hs'; intros x s''; apply spread_from).
  destruct (poll os _ _) as [revs |] eqn:Er; [| split; [split_and!; done |]; split; [done | apply Hfrom, spread_nil]].
  intros ->. set (G := gathered s (io_q s)) in *. apply wp_if; intros Hn.
  - eapply wp_mono; [| | apply (tell_ok (io_q s) [] (answered G revs) r s' F Hi' Hp')]; try done.
    + cbn beta. intros _ s'' ((Hi2 & Hp2 & Et2 & Ed2) & Ht2 & Hs2). split; [split_and!; congruence || done |].
      split; [done |]. rewrite <- (reply_ext s s') by (by rewrite Hs'). by apply Hfrom.
    + apply (inv_all s Hi 0).
    + by rewrite Hs'.
    + rewrite Hs'. change (gathered (with_eventsys _ s) (io_q s)) with G. by apply answered_length, (proj1 Hk _ (timeout_ms s)).
  - apply wp_ret. split; [split_and!; done |]. split; [done |]. apply Hfrom, spread_quiet; [| apply spread_nil].
    intros x Hx. apply (quiet_reply s (io_q s) (answered G revs)); [apply none_ready | done].
    by apply Z.ltb_ge.
Qed.

#[export] Instance poll_dispatch_laws : DispatchLaws _st_polldata poll_os.
Proof.
  refine {| answer_ok os s := tallied s ∧ kernel_ok os |}.
  - intros os s Hi Hp [Ht Hk]. eapply wp_mono; [| | by apply (poll_dispatch_ok os s (λ _, False))]; [| done].
    by intros _ s' ((? & ? & ? & ?) & _).
  - intros os s s' Hsame [Ht Hk]. split; [by apply (kept_same s) | done].
  - intros os. unfold dispatch, poll_dispatch, _st_poll_dispatch, grows.
    assert (∀ (l : list Z) p, pres (goes_on (E := _st_polldata)) (gather l p)) as Hg.
    { intros l. induction l as [| t l IH]; intros p; cbn [gather]; pres. }
    assert (∀ (l : list Z) p, pres (goes_on (E := _st_polldata)) (tell l p)) as Ht.
    { intros l. induction l as [| t l IH]; intros p; cbn [tell]; pres. }
    pres.
Defined.

#[export] Instance poll_tallied : DispatchKept _st_polldata poll_os tallied.
Proof.
  split. intros os s Hi Hp [Ht Hk] _. eapply wp_mono; [| | by apply (poll_dispatch_ok os s (λ _, False))]; [| done].
  by intros _ s' (_ & ? & _).
Qed.

(** A dispatch of the poll event system passes the descriptors of all polls on the I/O queue to [poll], in order, in an array
    that is large enough; it makes exactly those threads runnable, in the order of the
    queue, for whose poll some [revents] of the answer is not zero, stores the answer in their polls, leaves the other polls as they
    are, and the count is that of the polls that still wait. *)
Theorem poll_notifies_ready os s :
  inv s → polls_wait s → fdcnt (eventsys s) = pending s → kernel_ok os →
  ∃ s', _st_poll_dispatch os s = (Ok tt, s') ∧ inv s' ∧ spread (told os s) s s' ∧ fdcnt (eventsys s') = pending s'.
Proof.
  intros Hi Hp Ht Hk. pose proof (poll_dispatch_ok os s (λ _, False) Hi Hp Ht Hk) as H. unfold wp in H.
  destruct (_st_poll_dispatch os s) as [[[] | | | |] s']; try done. destruct H as ((Hi' & _) & Ht' & Hs). by exists s'.
Qed.

(** C17: from [st_init] on [fdcnt] is the number of descriptors of the polls on the I/O queue, so that it is never
    negative and no copy leaves the array; whenever the idle thread runs and the kernel keeps to its
    documentation its round returns. *)
Theorem poll_counts_pending idle primordial clock (e : _st_polldata) s :
  idle ≠ primordial → ev_ok e → fdcnt e = 0 → rtc (step (A := poll_os)) (st_init idle primordial clock e) s →
  fdcnt (eventsys s) = pending s ∧ 0 <= fdcnt (eventsys s) ∧
  ∀ os now secs, kernel_ok os → this_thread s = idle_thread s → 0 < active_count s →
    ∃ s', attempt (exec (Idle os now secs)) s = (Ok tt, s') ∧ fdcnt (eventsys s') = pending s'.
Proof.
  intros Hne Hev H0 Hr. pose proof (init_ok idle primordial clock e Hne Hev) as Hok0.
  assert (tallied s) as Ht by (apply (steps_kept tallied _ _ Hr Hok0); done).
  assert (ok s) as Hok by (by apply (rtc_step_ok _ _ Hok0 Hr)).
  split; [done |]. split; [by apply tallied_nonneg |]. intros os now secs Hk Hid Hac.
  assert (allowed (Idle os now secs) s) as Ha by done.
  destruct (attempt_ok _ _ _ (exec_ok (Idle os now secs) s Hok Ha)) as (s' & E1 & Hok').
  exists s'. split; [done |]. apply (step_kept tallied s); [done | done |]. by exists (Idle os now secs).
Qed.

(** ** Two threads wait for the descriptors 5 and 7, the second for both, and 7 becomes readable; the array has room
    for two descriptors at first. *)
#[export] Instance poll_checks : Checks _st_polldata poll_os.
Proof. refine {| validb _ := true; answerb _ _ := false |}; done. Defined.

Definition no_polls : _st_polldata := Polldata (replicate 2 (Pollfd (-1) 0 0)) 2 0.

Definition poll_script : list (@event poll_os) :=
  [Create 3; Poll [Pollfd 5 POLLIN 0] ST_UTIME_NO_TIMEOUT; Resume;
   Poll [Pollfd 7 (Z.lor POLLIN POLLOUT) 0; Pollfd 5 POLLIN 0] ST_UTIME_NO_TIMEOUT].

Definition seven_in : poll_os := PollOs
  (λ l _, Some ((λ pd, if fd pd =? 7 then POLLIN else 0) <$> l))
  (λ n, Some (replicate (Z.to_nat n) (Pollfd (-1) 0 0))).

Lemma seven_in_ok : kernel_ok seven_in.
Proof.
  split.
  - intros l timeout revs [= <-]. apply length_fmap.
  - intros n Hn. eexists. split; [done |]. rewrite length_replicate. lia.
Qed.

Definition polling_array : vp := reached (A := poll_os) no_polls poll_script.

Lemma polling_array_run : is_Some (run_events poll_script (init no_polls)).
Proof. vm_compute. by eexists. Qed.

Lemma poll_notifies_ready_witness :
  ∃ s', _st_poll_dispatch seven_in polling_array = (Ok tt, s') ∧ run_q s' = [3] ∧ io_q s' = [2] ∧
    pollqs s' !! 3 = Some (Pollq [Pollfd 7 5 1; Pollfd 5 1 0] false) ∧ fdcnt (eventsys s') = 1.
Proof.
  assert (inv polling_array) as Hi by (apply reached_inv; [done | apply polling_array_run]).
  assert (polls_wait polling_array) as Hp by (apply idle_polls_wait; [exact Hi | vm_compute; done | vm_compute; done]).
  assert (fdcnt (eventsys polling_array) = pending polling_array) as Ht by (vm_compute; reflexivity).
  destruct (poll_notifies_ready seven_in polling_array Hi Hp Ht seven_in_ok) as (s' & E1 & _ & Hs & Hc).
  exists s'. split; [exact E1 |]. pose proof (spread_io _ _ _ Hs) as Hio.
  split; [rewrite (spread_run _ _ _ Hs); vm_compute; reflexivity |].
  assert (io_q s' = [2]) as Eio by (rewrite Hio; vm_compute; reflexivity). split; [exact Eio |].
  split; [apply (spread_hit _ _ _ Hs); [vm_compute; right; left | reflexivity] |].
  rewrite Hc. unfold pending. rewrite Eio. unfold total, fds_of. cbn [foldr].
  rewrite (spread_rest _ _ _ Hs); [vm_compute; reflexivity |]. vm_compute. by intros ?%list_elem_of_singleton.
Defined.

Lemma poll_counts_pending_witness :
  fdcnt (eventsys polling_array) = 3 ∧
  ∃ s', attempt (exec (Idle seven_in 2000 5)) polling_array = (Ok tt, s') ∧ fdcnt (eventsys s') = pending s'.
Proof.
  destruct (poll_counts_pending 1 2 1000 no_polls polling_array) as (Hc & _ & Hidle);
    [done | done | done | apply reached_rtc, polling_array_run |].
  split; [rewrite Hc; vm_compute; reflexivity |].
  apply Hidle; [exact seven_in_ok | vm_compute; reflexivity | vm_compute; reflexivity].
Defined.
