(* ===== verification/KqEv.v ===== *)
(** * event.c: the kqueue event system

    Changes are not passed to the kernel when they are made.  [_st_kq_pollset_add] collects them in [addlist], which the next
    dispatch hands over; an event that is reported is gone ([EV_ONESHOT]); deletions are handed over
    at once and may be lost.  So a filter may be registered, or about to be, that nobody waits for; what
    holds is that every filter some thread waits for is registered or in [addlist]. *)

From stdpp Require Import base list sets gmap fin_maps.
From Stdlib Require Import Lia ZArith.
From S2P Require Import Prelude.
From S2P Require Import Bytes.
From S2P Require Import TimeoutHeap.
From S2P Require Import Vp.
From S2P Require Import Sync.
From S2P Require Import Fair.
From S2P Require Import Sched.
From S2P Require Import SchedOps.
From S2P Require Import SchedCalls.
From S2P Require Import SchedSteps.
From S2P Require Import IoQueue.
From S2P Require Import Interest.
From S2P Require Import Rounds.

Local Open Scope Z_scope.

(** sys/event.h.  The filters are those that the code registers. *)
Inductive filt := EVFILT_READ | EVFILT_WRITE.

#[export] Instance filt_eq_dec : EqDecision filt.
Proof. solve_decision. Defined.

#[export] Program Instance filt_countable : Countable filt :=
  inj_countable' (λ f, match f with EVFILT_READ => true | EVFILT_WRITE => false end)
    (λ b : bool, if b then EVFILT_READ else EVFILT_WRITE) _.
Next Obligation. by intros []. Qed.

Definition EV_ERROR : Z := 0x4000.
Definition EBADF : Z := 9.
Definition EINTR : Z := 4.

(** [ident] and [filter] of a [struct kevent]: what a change is about. *)
Notation key := (Z * filt)%type.

(** An entry of [evtlist]. *)
Record kevent := Kevent { ident : Z; kfilter : filt; kflags : Z; kev_data : Z }.

Definition key_of (ev : kevent) : key := (ident ev, kfilter ev).

(** 0, or -1 with [errno] [EINTR], or -1 with another. *)
Inductive kq_result := Kq_ok | Kq_intr | Kq_error.

(** The system calls, and [realloc] for a number of entries.  [kevent_delete]: [kevent] with deletions and no room for events.
    It is interrupted at most [retries] times in a row. *)
Class KqKernel (K : Type) := {
  kqueue : K → option Z * K;
  kevent_delete : Z → list key → K → kq_result * K;
  retries : K → nat;
  kq_realloc : Z → K → bool * K;
}.

(** [on_kq]: the filters a kqueue has.  Deletions that failed may have left the rest undone (kevent(2)). *)
Class KqLaws (K : Type) `{KqKernel K} := {
  on_kq : Z → K → gset key;
  kqueue_law k kq k' : kqueue k = (Some kq, k') → 0 <= kq ∧ on_kq kq k' = ∅;
  no_kqueue_law k : on_kq (-1) k = ∅;
  delete_law kq l k r k' : kevent_delete kq l k = (r, k') →
    on_kq kq k ∖ list_to_set l ⊆ on_kq kq k' ∧ on_kq kq k' ⊆ on_kq kq k;
  retries_law kq l k k' : kevent_delete kq l k = (Kq_intr, k') → (retries k' < retries k)%nat;
  kq_realloc_law n k b k' kq : kq_realloc n k = (b, k') → on_kq kq k' = on_kq kq k;
}.

(** [rd_ref_cnt] and [wr_ref_cnt] by the filter. *)
Record _kq_fd_data_t := KqFd { kq_cnt : filt → Z; kq_revents : Z }.

Definition ST_KQ_MIN_EVTLIST_SIZE : Z := 64.

(** [events] and [revents] of a filter. *)
Definition pollbit (f : filt) : Z := match f with EVFILT_READ => POLLIN | EVFILT_WRITE => POLLOUT end.

Definition wants (pd : pollfd) (f : filt) : bool := negb (Z.land (events pd) (pollbit f) =? 0).

Section kqueue.
Context {K : Type} `{!KqKernel K}.

(** [fd_data_size] is the length of [fd_data], [addlist_cnt] and [dellist_cnt] those of the lists. *)
Record _st_kqdata := Kqdata {
  fd_data : list _kq_fd_data_t;
  evtlist_size : Z;
  addlist : list key;
  addlist_size : Z;
  dellist : list key;
  dellist_size : Z;
  kq : Z;
  pid : Z;
  kernel : K;
}.

Implicit Types (e : _st_kqdata).

Definition with_fd_data v e := Kqdata v (evtlist_size e) (addlist e) (addlist_size e) (dellist e) (dellist_size e) (kq e) (pid e) (kernel e).
Definition with_evtlist_size v e := Kqdata (fd_data e) v (addlist e) (addlist_size e) (dellist e) (dellist_size e) (kq e) (pid e) (kernel e).
Definition with_addlist v e := Kqdata (fd_data e) (evtlist_size e) v (addlist_size e) (dellist e) (dellist_size e) (kq e) (pid e) (kernel e).
Definition with_addlist_size v e := Kqdata (fd_data e) (evtlist_size e) (addlist e) v (dellist e) (dellist_size e) (kq e) (pid e) (kernel e).
Definition with_dellist v e := Kqdata (fd_data e) (evtlist_size e) (addlist e) (addlist_size e) v (dellist_size e) (kq e) (pid e) (kernel e).
Definition with_dellist_size v e := Kqdata (fd_data e) (evtlist_size e) (addlist e) (addlist_size e) (dellist e) v (kq e) (pid e) (kernel e).
Definition with_kq v e := Kqdata (fd_data e) (evtlist_size e) (addlist e) (addlist_size e) (dellist e) (dellist_size e) v (pid e) (kernel e).
Definition with_pid v e := Kqdata (fd_data e) (evtlist_size e) (addlist e) (addlist_size e) (dellist e) (dellist_size e) (kq e) v (kernel e).
Definition with_kernel v e := Kqdata (fd_data e) (evtlist_size e) (addlist e) (addlist_size e) (dellist e) (dellist_size e) (kq e) (pid e) v.

Definition fd_data_size e : Z := Z.of_nat (length (fd_data e)).
Definition addlist_cnt e : Z := Z.of_nat (length (addlist e)).
Definition dellist_cnt e : Z := Z.of_nat (length (dellist e)).

Definition no_data : _kq_fd_data_t := KqFd (λ _, 0) 0.

(** [mem], [data], [lists]: whether the memory is there; [close]: the system call. *)
Definition _st_kq_init (close : Z → K → K) (mypid : Z) (mem data lists : bool) (k : K) : outcome _st_kqdata * K :=
  if negb mem then (Fail, k) else
  match kqueue k with
  | (None, k) => (Fail, k)
  | (Some q, k) =>
      if data && lists then
        (Ok (Kqdata (replicate (Z.to_nat FD_SETSIZE) no_data) ST_KQ_MIN_EVTLIST_SIZE [] ST_KQ_MIN_EVTLIST_SIZE
          [] ST_KQ_MIN_EVTLIST_SIZE q mypid k), k)
      else (Fail, close q k)
  end.

Definition alloc (n : Z) : M _st_kqdata bool := λ e,
  let '(b, k) := kq_realloc n (kernel e) in (Ok b, with_kernel k e).

(** [n <<= 1] overflowed. *)
Definition check_int (n : Z) : M _st_kqdata unit := if n <? 2 ^ 31 then ret tt else lift Undef.

Definition _st_kq_fd_data_expand (maxfd : Z) : M _st_kqdata unit :=
  e <- gets id ;;
  n <- lift (doubled maxfd (fd_data_size e)) ;;
  check_int n ;;
  b <- alloc n ;;
  if b then modify (λ e, with_fd_data (fd_data e ++ replicate (Z.to_nat (n - fd_data_size e)) no_data) e) else fail.

(** [avail > n - addlist_cnt] *)
Definition _st_kq_addlist_expand (avail : Z) : M _st_kqdata unit :=
  e <- gets id ;;
  n <- lift (doubled (avail + addlist_cnt e - 1) (addlist_size e)) ;;
  b <- alloc n ;;
  if negb b then fail else
  modify (with_addlist_size n) ;;
  b <- alloc n ;;
  if b then modify (with_evtlist_size n) else ret tt.

(** The assertion is part of the definition. *)
Definition _st_kq_addlist_add (kev : key) : M _st_kqdata unit := λ e,
  if addlist_cnt e <? addlist_size e then (Ok tt, with_addlist (addlist e ++ [kev]) e) else (Undef, e).

Definition _st_kq_dellist_add (kev : key) : M _st_kqdata unit :=
  e <- gets id ;;
  let n := dellist_size e in
  let put := modify (λ e, with_dellist (dellist e ++ [kev]) e) in
  if n <=? dellist_cnt e then
    b <- alloc (2 * n) ;;
    if b then modify (with_dellist_size (2 * n)) ;; put else ret tt
  else put.

(** [fd_data[fd]] *)
Definition fd_at (f : Z) : M _st_kqdata _kq_fd_data_t := λ e,
  match (if 0 <=? f then fd_data e !! Z.to_nat f else None) with Some x => (Ok x, e) | None => (Undef, e) end.

Definition set_fd (f : Z) (x : _kq_fd_data_t) : M _st_kqdata unit :=
  fd_at f ;; modify (λ e, with_fd_data (<[Z.to_nat f := x]> (fd_data e)) e).

(** [_ST_KQ_READ_CNT(fd) + d] *)
Definition recount (f : filt) (d : Z) (x : _kq_fd_data_t) : _kq_fd_data_t :=
  KqFd (λ g, if decide (g = f) then kq_cnt x g + d else kq_cnt x g) (kq_revents x).

Definition kq_bad (pd : pollfd) : bool :=
  (fd pd <? 0) || (events pd =? 0) || negb (Z.land (events pd) (Z.lnot (Z.lor POLLIN POLLOUT)) =? 0).

(** The checks of one descriptor. *)
Definition kq_check_fd (pd : pollfd) : M _st_kqdata unit :=
  if kq_bad pd then fail else
  e <- gets id ;;
  if fd_data_size e <=? fd pd then _st_kq_fd_data_expand (fd pd) else ret tt.

(** [if ((pd->events & POLLIN) && (_ST_KQ_READ_CNT(pd->fd)++ == 0)) ...] *)
Definition kq_add_filter (pd : pollfd) (f : filt) : M _st_kqdata unit :=
  if negb (wants pd f) then ret tt else
  x <- fd_at (fd pd) ;;
  set_fd (fd pd) (recount f 1 x) ;;
  if kq_cnt x f =? 0 then _st_kq_addlist_add (fd pd, f) else ret tt.

Definition kq_add_fd (pd : pollfd) : M _st_kqdata unit := kq_add_filter pd EVFILT_READ ;; kq_add_filter pd EVFILT_WRITE.

Definition _st_kq_pollset_add (pds : list pollfd) : M _st_kqdata unit :=
  for_each kq_check_fd pds ;;
  e <- gets id ;;
  let npds := 2 * Z.of_nat (length pds) in
  (if addlist_size e - addlist_cnt e <? npds then _st_kq_addlist_expand npds else ret tt) ;;
  for_each kq_add_fd pds.

(** [if ((events & POLLIN) && (--_ST_KQ_READ_CNT(osfd) == 0) ...) ...]; [fired]: whether a filter that was reported needs no deletion. *)
Definition kq_del_filter (fired : bool) (pd : pollfd) (f : filt) : M _st_kqdata unit :=
  if negb (wants pd f) then ret tt else
  x <- fd_at (fd pd) ;;
  set_fd (fd pd) (recount f (-1) x) ;;
  if (kq_cnt x f - 1 =? 0) && negb (fired && negb (Z.land (kq_revents x) (pollbit f) =? 0))
  then _st_kq_dellist_add (fd pd, f) else ret tt.

Definition kq_del_fd (fired : bool) (pd : pollfd) : M _st_kqdata unit :=
  kq_del_filter fired pd EVFILT_READ ;; kq_del_filter fired pd EVFILT_WRITE.

(** [do { rv = kevent(...); } while (rv < 0 && errno == EINTR);] *)
Fixpoint delete_loop (fuel : nat) : M _st_kqdata unit :=
  match fuel with
  | O => lift Hang
  | S fuel => λ e,
      match kevent_delete (kq e) (dellist e) (kernel e) with
      | (Kq_intr, k) => delete_loop fuel (with_kernel k e)
      | (_, k) => (Ok tt, with_kernel k e)
      end
  end.

Definition kq_delete : M _st_kqdata unit := λ e,
  if 0 <? dellist_cnt e then delete_loop (S (retries (kernel e))) e else (Ok tt, e).

Definition _st_kq_pollset_del (pds : list pollfd) : M _st_kqdata unit :=
  modify (with_dellist []) ;; for_each (kq_del_fd false) pds ;; kq_delete.

#[export] Instance kq_eventsys : EventSys _st_kqdata := {
  pollset_add := _st_kq_pollset_add;
  pollset_del := _st_kq_pollset_del;
}.

(** What [kevent] with [addlist] returns: events, none when the time is over, or -1 with an [errno]. *)
Inductive kq_answer := Kq_events (l : list kevent) | Kq_failed (errno : Z).

(** [getpid], and [kevent] with additions: the kqueue, the additions, the size of [evtlist], the time. *)
Record kq_os := KqOs {
  getpid : Z;
  kevent_wait : Z → list key → Z → option (Z * Z) → K → kq_answer * K;
}.

Notation vp := (@_st_vp _st_kqdata).

(** [tsp]: seconds and nanoseconds. *)
Definition timespec (s : vp) : option (Z * Z) :=
  match min_timeout s with None => None | Some m => Some (m / 1000000, m mod 1000000 * 1000) end.

Definition kq_wait (os : kq_os) (tsp : option (Z * Z)) : M _st_kqdata kq_answer := λ e,
  let '(a, k) := kevent_wait os (kq e) (addlist e) (evtlist_size e) tsp (kernel e) in
  (Ok a, with_addlist [] (with_kernel k e)).

(** [_ST_KQ_REVENTS(osfd)] of an event. *)
Definition kq_fire (ev : kevent) : M _st_kqdata unit :=
  x <- fd_at (ident ev) ;;
  let r := Z.lor (kq_revents x) (pollbit (kfilter ev)) in
  let r := if Z.land (kflags ev) EV_ERROR =? 0 then r else Z.lor r (if kev_data ev =? EBADF then POLLNVAL else POLLERR) in
  set_fd (ident ev) (KqFd (kq_cnt x) r).

(** [pds->revents]; [r] is [_ST_KQ_REVENTS(osfd)]. *)
Definition kq_look_revents (r : Z) (pd : pollfd) : Z :=
  let v := swrap 16 (Z.land r (Z.lnot (Z.lor POLLIN POLLOUT))) in
  let v := if wants pd EVFILT_READ && negb (Z.land r POLLIN =? 0) then Z.lor v POLLIN else v in
  if wants pd EVFILT_WRITE && negb (Z.land r POLLOUT =? 0) then Z.lor v POLLOUT else v.

Definition entry e (f : Z) : _kq_fd_data_t :=
  default no_data (if 0 <=? f then fd_data e !! Z.to_nat f else None).

Definition in_table e (f : Z) : bool := (0 <=? f) && (f <? fd_data_size e).

Definition kq_look e (pd : pollfd) : Z := kq_look_revents (kq_revents (entry e (fd pd))) pd.

(** One poll of the I/O queue; the table is indexed by its descriptors. *)
Definition kq_round (t : Z) : M vp unit :=
  s <- gets id ;;
  pq <- the_pollq t ;;
  check (λ s, forallb (λ pd, in_table (eventsys s) (fd pd)) (pds pq)) ;;
  round (kq_look (eventsys s)) (for_each (kq_del_fd true)) (λ _, ret tt) t.

Definition kq_reset (ev : kevent) : M _st_kqdata unit :=
  x <- fd_at (ident ev) ;; set_fd (ident ev) (KqFd (kq_cnt x) 0).

(** The branch [nfd > 0]. *)
Definition kq_pass (fired : list kevent) : M vp unit :=
  on_ev (for_each kq_fire fired) ;;
  on_ev (modify (with_dellist [])) ;;
  s <- gets id ;;
  for_each kq_round (io_q s) ;;
  on_ev kq_delete ;;
  on_ev (for_each kq_reset fired).

(** -1 is ignored. *)
Definition ignore_error {S : Type} (c : M S unit) : M S unit := λ s,
  match c s with (Fail, s') => (Ok tt, s') | r => r end.

(** A new kqueue after [fork]; [false]: [kqueue] failed. *)
Definition kq_recreate (mypid : Z) : M _st_kqdata bool := λ e,
  match kqueue (kernel e) with
  | (None, k) => (Ok false, with_kq (-1) (with_kernel k e))
  | (Some q, k) =>
      let e := with_pid mypid (with_kq q (with_kernel k e)) in
      (Ok true, with_fd_data (replicate (length (fd_data e)) no_data) e)
  end.

Definition readd (t : Z) : M vp unit :=
  pq <- the_pollq t ;; on_ev (ignore_error (_st_kq_pollset_add (pds pq))).

(** From [retry_kevent] on; the second round is the last, since [pid] is then up to date. *)
Fixpoint retry_kevent (fuel : nat) (os : kq_os) (tsp : option (Z * Z)) : M vp unit :=
  match fuel with
  | O => lift Hang
  | S fuel =>
      a <- on_ev (kq_wait os tsp) ;;
      match a with
      | Kq_events [] => ret tt
      | Kq_events fired => kq_pass fired
      | Kq_failed errno =>
          s <- gets id ;;
          if (errno =? EBADF) && negb (pid (eventsys s) =? getpid os) then
            b <- on_ev (kq_recreate (getpid os)) ;;
            if negb b then ret tt else
            for_each readd (io_q s) ;;
            retry_kevent fuel os tsp
          else ret tt
      end
  end.

Definition _st_kq_dispatch (os : kq_os) : M vp unit :=
  s <- gets id ;; retry_kevent 2 os (timespec s).

#[export] Instance kq_dispatch : Dispatch _st_kqdata kq_os := { dispatch := _st_kq_dispatch }.

Definition _st_kq_fd_new (osfd : Z) : M _st_kqdata unit :=
  e <- gets id ;; if fd_data_size e <=? osfd then _st_kq_fd_data_expand osfd else ret tt.

Definition _st_kq_fd_close (osfd : Z) : M _st_kqdata unit :=
  x <- fd_at osfd ;;
  if negb (kq_cnt x EVFILT_READ =? 0) || negb (kq_cnt x EVFILT_WRITE =? 0) then fail else ret tt.

Definition _st_kq_fd_getlimit : Z := 0.
End kqueue.

(** ** Keys *)
(** The filters a list of descriptors asks for, in the order in which the loops treat them. *)
Definition keys_of (pd : pollfd) : list key :=
  (if wants pd EVFILT_READ then [(fd pd, EVFILT_READ)] else []) ++ (if wants pd EVFILT_WRITE then [(fd pd, EVFILT_WRITE)] else []).

Definition keys (l : list pollfd) : list key := l ≫= keys_of.

Definition tally (k : key) (ks : list key) : Z := Z.of_nat (length (filter (λ x, x = k) ks)).

Lemma tally_cons k x ks : tally k (x :: ks) = (if decide (x = k) then 1 else 0) + tally k ks.
Proof.
  unfold tally. destruct (decide (x = k)); [rewrite filter_cons_True by done | rewrite filter_cons_False by done]; cbn [length]; lia.
Qed.

Lemma tally_nonneg k ks : 0 <= tally k ks.
Proof. unfold tally. lia. Qed.

Lemma keys_cons pd l : keys (pd :: l) = keys_of pd ++ keys l.
Proof. done. Qed.

Lemma keys_fd k l : k ∈ keys l → ∃ pd, pd ∈ l ∧ fd pd = k.1.
Proof.
  unfold keys, keys_of. intros (pd & Hk & Hpd)%list_elem_of_bind. exists pd. split; [done |].
  apply elem_of_app in Hk as [Hk | Hk]; destruct (wants pd _); try (by apply not_elem_of_nil in Hk);
    apply list_elem_of_singleton in Hk; by subst k.
Qed.

(** The columns of the counts. *)
Definition column (f : filt) : interest := match f with EVFILT_READ => Rd | EVFILT_WRITE => Wr end.
Definition filt_of (i : interest) : option filt :=
  match i with Rd => Some EVFILT_READ | Wr => Some EVFILT_WRITE | Ex => None end.

Lemma keys_occurs f d l : tally (d, f) (keys l) = occurs (column f) d l.
Proof.
  induction l as [| pd l IH]; [done |]. rewrite keys_cons, occurs_cons, <- IH. unfold tally.
  rewrite filter_app, length_app, Nat2Z.inj_add. f_equal. unfold keys_of.
  assert (asks pd (column f) = wants pd f) as -> by (by destruct f).
  destruct (decide (fd pd = d)) as [Hd | Hd].
  - rewrite bool_decide_true by done. cbn [andb].
    destruct (wants pd EVFILT_READ) eqn:H1, (wants pd EVFILT_WRITE) eqn:H2, f; rewrite ?H1, ?H2; cbn [app];
      rewrite ?filter_cons, ?filter_nil; repeat case_decide; simplify_eq; done.
  - rewrite bool_decide_false by done. cbn [andb].
    destruct (wants pd EVFILT_READ), (wants pd EVFILT_WRITE); cbn [app];
      rewrite ?filter_cons, ?filter_nil; repeat case_decide; simplify_eq; done.
Qed.

(** ** Tables *)
Section tables.
Context {K : Type} `{!KqKernel K, !KqLaws K}.
Notation kdata := (@_st_kqdata K).
Implicit Types (e : kdata) (k : key) (ks : list key).

Definition kreg e : gset key := on_kq (kq e) (kernel e).

(** What the kernel is asked about from the next [kevent] on. *)
Definition asked e : gset key := kreg e ∪ list_to_set (addlist e).

Definition kcnt e k : Z := kq_cnt (entry e k.1) k.2.

Definition in_tables e ks : Prop := Forall (λ k, in_table e k.1 = true) ks.

Record tables_ok e : Prop := {
  to_data : 0 < fd_data_size e;
  to_size : 0 < addlist_size e;
  to_room : addlist_cnt e <= addlist_size e;
  to_asked k : k ∈ asked e → in_table e k.1 = true;
}.

(** What no call changes, and that the table does not shrink. *)
Record kept e e' : Prop := {
  kept_size : fd_data_size e <= fd_data_size e';
  kept_kq : kq e' = kq e;
  kept_pid : pid e' = pid e;
}.

#[export] Instance kept_preorder : PreOrder kept.
Proof. split; [done |]. intros e1 e2 e3 [] []. split; congruence || lia. Qed.

Lemma kq_in_table_spec e f : in_table e f = true ↔ 0 <= f < fd_data_size e.
Proof. unfold in_table. rewrite andb_true_iff, Z.leb_le, Z.ltb_lt. done. Qed.

Lemma kq_in_table_kept e e' f : kept e e' → in_table e f = true → in_table e' f = true.
Proof. intros [H _ _]. rewrite !kq_in_table_spec. lia. Qed.

Lemma kq_in_tables_kept e e' ks : kept e e' → in_tables e ks → in_tables e' ks.
Proof. intros H Hl. eapply Forall_impl; [exact Hl |]. intros k. by apply kq_in_table_kept. Qed.

Definition put (f : Z) (x : _kq_fd_data_t) e : kdata := with_fd_data (<[Z.to_nat f := x]> (fd_data e)) e.

Lemma kq_fd_at_ok f e : in_table e f = true → fd_at f e = (Ok (entry e f), e).
Proof.
  rewrite kq_in_table_spec. intros Hf. unfold fd_at, entry. rewrite (proj2 (Z.leb_le _ _)) by lia.
  destruct (lookup_lt_is_Some_2 (fd_data e) (Z.to_nat f)) as [x ->]; [| done]. unfold fd_data_size in Hf. lia.
Qed.

Lemma kq_set_fd_ok f x e : in_table e f = true → set_fd f x e = (Ok tt, put f x e).
Proof. intros Hf. unfold set_fd. by rewrite (bind_ok _ _ _ _ _ (kq_fd_at_ok f e Hf)). Qed.

Lemma kq_entry_put f x e g : in_table e f = true → entry (put f x e) g = if decide (g = f) then x else entry e g.
Proof.
  rewrite kq_in_table_spec. unfold fd_data_size. intros Hf. unfold entry, put. cbn [fd_data with_fd_data].
  destruct (Z.leb_spec 0 g); [| destruct (decide (g = f)); [lia | done]]. destruct (decide (g = f)) as [-> | Hg].
  - rewrite list_lookup_insert_eq by lia. done.
  - rewrite list_lookup_insert_ne by lia. done.
Qed.

Lemma kq_put_kept f x e : kept e (put f x e).
Proof. split; try done. unfold fd_data_size. cbn. by rewrite length_insert. Qed.

Lemma entry_replicate n f e : entry (with_fd_data (replicate n no_data) e) f = no_data.
Proof.
  unfold entry. cbn. destruct (0 <=? f); [| done].
  destruct (replicate _ _ !! _) as [y |] eqn:Hy; [| done]. by apply lookup_replicate in Hy as [-> _].
Qed.

Lemma kq_entry_grow e f n : entry (with_fd_data (fd_data e ++ replicate n no_data) e) f = entry e f.
Proof.
  unfold entry. cbn. destruct (0 <=? f); [| done]. destruct (fd_data e !! Z.to_nat f) as [x |] eqn:Hx.
  - by rewrite (lookup_app_l_Some _ _ _ _ Hx).
  - apply lookup_ge_None in Hx. rewrite lookup_app_r by done.
    destruct (replicate n no_data !! _) as [y |] eqn:Hy; [| done]. by apply lookup_replicate in Hy as [-> _].
Qed.

Lemma kq_tables_kept e e' :
  kept e e' → addlist_size e' = addlist_size e → addlist_cnt e' <= addlist_size e →
  (∀ k, k ∈ asked e' → k ∈ asked e ∨ in_table e k.1 = true) → tables_ok e → tables_ok e'.
Proof.
  intros Hk Hs Hc Hr [H1 H2 H3 H4]. pose proof (kept_size _ _ Hk). split; [lia | lia | lia |].
  intros k [H' | H']%Hr; apply (kq_in_table_kept _ _ _ Hk); [by apply H4 | done].
Qed.

(** The counts after the filters [ks] were counted [d] times more. *)
Definition recounted ks (d : Z) e e' : Prop :=
  (∀ k, kcnt e' k = kcnt e k + d * tally k ks) ∧ (∀ f, kq_revents (entry e' f) = kq_revents (entry e f)).

Lemma kq_recounted_nil d e e' : (∀ f, entry e' f = entry e f) → recounted [] d e e'.
Proof. intros H. split; [| intros f; by rewrite H]. intros k. unfold kcnt, tally. rewrite H. cbn. lia. Qed.

Lemma recounted_trans ks1 ks2 d e1 e2 e3 : recounted ks1 d e1 e2 → recounted ks2 d e2 e3 → recounted (ks1 ++ ks2) d e1 e3.
Proof.
  intros [H1 R1] [H2 R2]. split; [| congruence]. intros k. rewrite H2, H1. unfold tally. rewrite filter_app, length_app. lia.
Qed.

Lemma kq_put_recounted k d e :
  in_table e k.1 = true → recounted [k] d e (put k.1 (recount k.2 d (entry e k.1)) e).
Proof.
  destruct k as [f g]. cbn [fst snd]. intros Hf. split.
  - intros [f' g']. unfold kcnt. cbn [fst snd]. rewrite kq_entry_put, tally_cons by done. change (tally _ []) with 0.
    destruct (decide (f' = f)) as [-> | Hn].
    + cbn [kq_cnt recount]. destruct (decide (g' = g)) as [-> |]; [rewrite decide_True by done; lia |].
      rewrite decide_False by congruence. lia.
    + rewrite decide_False by congruence. lia.
  - intros f'. rewrite kq_entry_put by done. by destruct (decide (f' = f)) as [-> |].
Qed.

(** Everything that is counted, the kernel is asked about. *)
Definition waited e : Prop := ∀ k, 0 < kcnt e k → k ∈ asked e.

Definition quiet e : Prop := ∀ f, kq_revents (entry e f) = 0.

#[export] Instance kq_counting : Counting kdata := {
  cnt e i f := match filt_of i with Some g => kcnt e (f, g) | None => 0 end;
  watched e i f := match filt_of i with Some g => (f, g) ∈ asked e | None => False end;
  consistent e := quiet e ∧ waited e;
}.

(** ** Adding *)
Definition add_key k : M kdata unit :=
  x <- fd_at k.1 ;; set_fd k.1 (recount k.2 1 x) ;; if kq_cnt x k.2 =? 0 then _st_kq_addlist_add k else ret tt.

(** The loops over descriptors are loops over their filters. *)
Lemma for_each_keys (c1 : pollfd → M kdata unit) (c : key → M kdata unit) (l : list pollfd) e :
  (∀ pd e, c1 pd e = for_each c (keys_of pd) e) → for_each c1 l e = for_each c (keys l) e.
Proof.
  intros H. revert e. induction l as [| pd l IH]; intros e; [done |]. cbn [for_each]. rewrite keys_cons, for_each_app.
  unfold bind. rewrite H. destruct (for_each c (keys_of pd) e) as [[] e1]; [apply IH | done..].
Qed.

Lemma bind_ret_r {S : Type} (c : M S unit) (s : S) : bind c (λ _ s, (Ok tt, s)) s = c s.
Proof. unfold bind. by destruct (c s) as [[[] | | | |] s']. Qed.

Lemma by_filters (c : filt → M kdata unit) (c' : key → M kdata unit) (pd : pollfd) e :
  (∀ f e, c f e = if wants pd f then c' (fd pd, f) e else (Ok tt, e)) →
  (c EVFILT_READ ;; c EVFILT_WRITE) e = for_each c' (keys_of pd) e.
Proof.
  intros H. unfold keys_of. unfold bind. rewrite H. destruct (wants pd EVFILT_READ).
  - cbn [app for_each]. unfold bind. destruct (c' (fd pd, EVFILT_READ) e) as [[[] | | | |] s1]; try done.
    rewrite H. destruct (wants pd EVFILT_WRITE); [| done]. cbn. by rewrite bind_ret_r.
  - rewrite H. destruct (wants pd EVFILT_WRITE); [| done]. cbn. by rewrite bind_ret_r.
Qed.

Lemma add_fds_keys (l : list pollfd) e : for_each kq_add_fd l e = for_each add_key (keys l) e.
Proof.
  apply for_each_keys. intros pd e'. apply by_filters. intros f e1. unfold kq_add_filter. by destruct (wants pd f).
Qed.

Lemma add_keys_ok ks e :
  tables_ok e → in_tables e ks → addlist_cnt e + Z.of_nat (length ks) <= addlist_size e →
  ∃ e', for_each add_key ks e = (Ok tt, e') ∧ tables_ok e' ∧ kept e e' ∧ recounted ks 1 e e' ∧
    ((∀ k, 0 <= kcnt e k) → waited e → waited e').
Proof.
  revert e. induction ks as [| k ks IH]; intros e He Hl Hr; cbn [for_each].
  - exists e. split; [done |]. split; [done |]. split; [done |]. split; [by apply kq_recounted_nil | done].
  - apply Forall_cons in Hl as [Hf Hl]. cbn [length] in Hr.
    pose proof (kq_put_recounted k 1 e Hf) as Hc. set (e1 := put k.1 (recount k.2 1 (entry e k.1)) e) in *.
    pose proof (kq_put_kept k.1 (recount k.2 1 (entry e k.1)) e : kept e e1) as K1.
    set (e2 := if kcnt e k =? 0 then with_addlist (addlist e ++ [k]) e1 else e1).
    assert (add_key k e = (Ok tt, e2)) as E1.
    { unfold add_key. rewrite (bind_ok _ _ _ _ _ (kq_fd_at_ok _ e Hf)), (bind_ok _ _ _ _ _ (kq_set_fd_ok _ _ e Hf)).
      fold e1. unfold e2, kcnt. destruct (kq_cnt _ _ =? 0); [| done]. unfold _st_kq_addlist_add.
      change (addlist_cnt e1) with (addlist_cnt e). change (addlist_size e1) with (addlist_size e).
      by rewrite (proj2 (Z.ltb_lt _ _)) by lia. }
    assert (addlist_size e2 = addlist_size e ∧ addlist_cnt e2 <= addlist_cnt e + 1 ∧ kept e e2 ∧ recounted [k] 1 e e2) as (Hs & Hn & K2 & C2).
    { unfold e2. destruct (kcnt e k =? 0); (split; [done | split; [| split; [split; apply K1 | exact Hc]]]);
        unfold addlist_cnt; cbn; [rewrite length_app; cbn; lia | lia]. }
    assert (asked e ⊆ asked e2 ∧ (kcnt e k = 0 → k ∈ asked e2) ∧ ∀ x, x ∈ asked e2 → x ∈ asked e ∨ x = k) as (A1 & A2 & A3).
    { unfold e2, asked, kreg. destruct (Z.eqb_spec (kcnt e k) 0); [| split_and!; try done; by left]. cbn.
      rewrite list_to_set_app_L. cbn. split_and!; set_solver. }
    assert (tables_ok e2) as He2.
    { apply (kq_tables_kept e); try done; [lia |]. intros x [Hx | ->]%A3; [by left | by right]. }
    destruct (IH e2 He2) as (e3 & E3 & T3 & K3 & C3 & W3); [by apply (kq_in_tables_kept e) | lia |].
    rewrite (bind_ok _ _ _ _ _ E1). exists e3. split; [done |]. split; [done |]. split; [by transitivity e2 |].
    split; [by apply (recounted_trans [k] ks _ _ e2) |]. intros H0 Hw.
    assert (∀ x, kcnt e2 x = kcnt e x + (if decide (k = x) then 1 else 0)) as Hcnt.
    { intros x. rewrite (proj1 C2), tally_cons. change (tally x []) with 0. destruct (decide (k = x)); lia. }
    apply W3; [intros x; specialize (H0 x); rewrite Hcnt; destruct (decide (k = x)); lia |].
    intros x Hx. rewrite Hcnt in Hx. destruct (decide (k = x)) as [<- |].
    + destruct (decide (kcnt e k = 0)); [by apply A2 |]. apply A1, Hw. specialize (H0 k). lia.
    + apply A1, Hw. lia.
Qed.
(** Only the sizes of arrays may differ. *)
Record same_data e e' : Prop := {
  sd_entry f : entry e' f = entry e f;
  sd_reg : kreg e' = kreg e;
  sd_add : addlist e' = addlist e;
  sd_size : addlist_size e <= addlist_size e';
  sd_kept : kept e e';
}.

Lemma kq_same_data_refl e : same_data e e.
Proof. by split. Qed.

Lemma kq_same_data_trans e1 e2 e3 : same_data e1 e2 → same_data e2 e3 → same_data e1 e3.
Proof. intros [] []. split; [intros f; congruence | congruence | congruence | lia | by transitivity e2]. Qed.

Lemma same_data_asked e e' : same_data e e' → asked e' = asked e.
Proof. intros [_ H1 H2 _ _]. unfold asked. by rewrite H1, H2. Qed.

Lemma same_data_kcnt e e' k : same_data e e' → kcnt e' k = kcnt e k.
Proof. intros H. unfold kcnt. by rewrite (sd_entry _ _ H). Qed.

Lemma kq_same_data_recounted e e' d : same_data e e' → recounted [] d e e'.
Proof. intros H. apply kq_recounted_nil, H. Qed.

Lemma same_data_waited e e' : same_data e e' → waited e → waited e'.
Proof. intros H Hw k. rewrite (same_data_kcnt _ _ _ H), (same_data_asked _ _ H). apply Hw. Qed.

Lemma kq_same_data_tables e e' : same_data e e' → tables_ok e → tables_ok e'.
Proof.
  intros H [H1 H2 H3 H4]. pose proof (sd_kept _ _ H) as Hk. pose proof (kept_size _ _ Hk). pose proof (sd_size _ _ H).
  split; [lia | lia | unfold addlist_cnt in *; rewrite (sd_add _ _ H); lia |].
  intros k. rewrite (same_data_asked _ _ H). intros Hin. by apply (kq_in_table_kept _ _ _ Hk), H4.
Qed.

Lemma kq_alloc_ok n e : ∃ b e', alloc n e = (Ok b, e') ∧ same_data e e' ∧ fd_data e' = fd_data e ∧ addlist_size e' = addlist_size e.
Proof.
  unfold alloc. destruct (kq_realloc n (kernel e)) as [b k] eqn:Hr. exists b, (with_kernel k e). split; [done |].
  split; [| done]. split; [done | | done | done | by split]. unfold kreg. cbn. by rewrite (kq_realloc_law _ _ _ _ _ Hr).
Qed.

Lemma kq_fd_data_expand_ok f e :
  tables_ok e → fd_data_size e <= f < 2 ^ 30 →
  ∃ o e', _st_kq_fd_data_expand f e = (o, e') ∧ same_data e e' ∧ (o = Fail ∨ o = Ok tt ∧ in_table e' f = true).
Proof.
  intros [Hpos _ _ _] Hf. unfold _st_kq_fd_data_expand. unfold bind at 1. cbn [gets id].
  destruct (doubled_ok f (fd_data_size e) Hpos) as (n & Hn & Hlt & Hle & Hmax). unfold bind at 1. cbn [lift]. rewrite Hn.
  unfold bind at 1, check_int. rewrite (proj2 (Z.ltb_lt n (2 ^ 31))) by lia. cbn [ret].
  destruct (kq_alloc_ok n e) as (b & e' & Ha & [D1 D2 D3 D4 D5] & D6 & _). rewrite (bind_ok _ _ _ _ _ Ha).
  destruct b; [| exists Fail, e'; split; [done |]; split; [done | by left]].
  eexists _, _. split; [reflexivity |]. split.
  - split; [intros g; rewrite kq_entry_grow; apply D1 | done | done | done |].
    destruct D5 as [K1 K2 K3]. split; try done. unfold fd_data_size in *. cbn. rewrite length_app. lia.
  - right. split; [done |]. rewrite kq_in_table_spec. unfold fd_data_size in *. cbn. rewrite length_app, length_replicate, D6. lia.
Qed.

Lemma not_kq_bad pd : kq_bad pd = false → 0 <= fd pd ∧ Z.land (events pd) (Z.lnot (Z.lor POLLIN POLLOUT)) = 0.
Proof.
  unfold kq_bad. rewrite !orb_false_iff, negb_false_iff. intros [[H1 _] H2]. apply Z.ltb_ge in H1. by apply Z.eqb_eq in H2.
Qed.

Lemma kq_check_fd_ok pd e :
  tables_ok e → fd pd < 2 ^ 30 →
  ∃ o e', kq_check_fd pd e = (o, e') ∧ same_data e e' ∧
    (o = Fail ∨ o = Ok tt ∧ in_table e' (fd pd) = true ∧ kq_bad pd = false).
Proof.
  intros He Hf. unfold kq_check_fd. destruct (kq_bad pd) eqn:Hb.
  - exists Fail, e. split; [done |]. split; [apply kq_same_data_refl | by left].
  - apply not_kq_bad in Hb as Hb'. destruct Hb' as [Hb' _].
    unfold bind at 1. cbn [gets id]. destruct (Z.leb_spec (fd_data_size e) (fd pd)).
    + destruct (kq_fd_data_expand_ok (fd pd) e He) as (o & e' & E1 & D1 & Ho); [lia |]. exists o, e'. naive_solver.
    + exists (Ok tt), e. split; [done |]. split; [apply kq_same_data_refl | right]. split; [done |].
      split; [by apply kq_in_table_spec | done].
Qed.

(** Descriptors that were accepted. *)
Definition accepted e (l : list pollfd) : Prop :=
  Forall (λ pd, in_table e (fd pd) = true) l ∧ Forall (λ pd, fd pd < 2 ^ 30 ∧ kq_bad pd = false) l.

Lemma accepted_nil e : accepted e [].
Proof. by split; constructor. Qed.

Lemma kq_accepted_kept e e' l : kept e e' → accepted e l → accepted e' l.
Proof. intros H [H1 H2]. split; [| done]. eapply Forall_impl; [exact H1 |]. intros pd. by apply kq_in_table_kept. Qed.

Lemma accepted_keys e l : accepted e l → in_tables e (keys l).
Proof.
  intros [H _]. apply Forall_forall. intros k (pd & Hpd & <-)%keys_fd. by apply (proj1 (Forall_forall _ _) H pd).
Qed.

Lemma kq_check_fds_ok l e :
  tables_ok e → Forall (λ pd, fd pd < 2 ^ 30) l →
  ∃ o e', for_each kq_check_fd l e = (o, e') ∧ same_data e e' ∧ (o = Fail ∨ o = Ok tt ∧ accepted e' l).
Proof.
  revert e. induction l as [| pd l IH]; intros e He Hl; cbn [for_each].
  - exists (Ok tt), e. split; [done |]. split; [apply kq_same_data_refl | right]. split; [done | apply accepted_nil].
  - apply Forall_cons in Hl as [Hf Hl]. destruct (kq_check_fd_ok pd e He Hf) as (o & e1 & E1 & D1 & Ho).
    destruct Ho as [-> | (-> & Hin & Hb)].
    + rewrite (bind_fail _ _ _ _ E1). exists Fail, e1. split; [done |]. split; [done | by left].
    + rewrite (bind_ok _ _ _ _ _ E1). destruct (IH e1) as (o & e2 & E2 & D2 & Ho); [by apply (kq_same_data_tables e) | done |].
      exists o, e2. split; [done |]. split; [by apply (kq_same_data_trans e e1) |].
      destruct Ho as [-> | (-> & H1 & H2)]; [by left | right]. split; [done |].
      split; apply Forall_cons; split; try done. by apply (kq_in_table_kept e1); [apply D2 |].
Qed.

Lemma kq_accepted_checks e l : accepted e l → for_each kq_check_fd l e = (Ok tt, e).
Proof.
  intros [Hl Hb]. induction l as [| pd l IH]; [done |]. apply Forall_cons in Hl as [Hf Hl], Hb as [[_ Hp] Hb].
  cbn [for_each]. assert (kq_check_fd pd e = (Ok tt, e)) as E1; [| rewrite (bind_ok _ _ _ _ _ E1); by apply IH].
  unfold kq_check_fd. rewrite Hp. unfold bind. cbn [gets id]. apply kq_in_table_spec in Hf.
  by rewrite (proj2 (Z.leb_gt _ _)) by lia.
Qed.

(** Enough memory. *)
Definition has_memory : Prop := ∀ n (k : K), (kq_realloc n k).1 = true.

Lemma alloc_memory n e e' b : has_memory → alloc n e = (Ok b, e') → b = true.
Proof. intros H. unfold alloc. specialize (H n (kernel e)). destruct (kq_realloc _ _) as [b' k]. cbn in H. congruence. Qed.

Lemma addlist_expand_ok avail e :
  tables_ok e →
  ∃ o e', _st_kq_addlist_expand avail e = (o, e') ∧ same_data e e' ∧
    (o = Fail ∧ ¬ has_memory ∨ o = Ok tt ∧ addlist_cnt e' + avail <= addlist_size e').
Proof.
  intros He. unfold _st_kq_addlist_expand. unfold bind at 1. cbn [gets id].
  destruct (doubled_ok (avail + addlist_cnt e - 1) (addlist_size e)) as (n & Hn & Hlt & Hle & _); [apply He |].
  unfold bind at 1. cbn [lift]. rewrite Hn. destruct (kq_alloc_ok n e) as (b & e1 & Ha & D1 & _ & S1).
  rewrite (bind_ok _ _ _ _ _ Ha). destruct b; cbn [negb].
  2: { exists Fail, e1. split; [done |]. split; [done | left]. split; [done |]. intros H. by apply (alloc_memory _ _ _ _ H) in Ha. }
  unfold bind at 1. cbn [modify]. destruct (kq_alloc_ok n (with_addlist_size n e1)) as (b & e2 & Hb & D2 & _ & S2).
  assert (same_data e1 (with_addlist_size n e1)) as D12 by (split; [done | done | done | cbn; lia | by split]).
  rewrite (bind_ok _ _ _ _ _ Hb). pose proof (kq_same_data_trans _ _ _ D1 (kq_same_data_trans _ _ _ D12 D2)) as D.
  assert (addlist_cnt e2 + avail <= addlist_size e2) as Hr.
  { unfold addlist_cnt in *. rewrite S2, (sd_add _ _ D). cbn. lia. }
  destruct b; [| by exists (Ok tt), e2; split; [| split; [| right]]].
  exists (Ok tt), (with_evtlist_size n e2). split; [done |].
  split; [| by right]. destruct D as [A1 A2 A3 A4 [K1 K2 K3]]. by split.
Qed.

Lemma keys_length l : (length (keys l) <= 2 * length l)%nat.
Proof.
  induction l as [| pd l IH]; [done |]. rewrite keys_cons, length_app. unfold keys_of. rewrite length_app. cbn [length].
  destruct (wants pd EVFILT_READ), (wants pd EVFILT_WRITE); cbn [length]; lia.
Qed.

Lemma kq_pollset_add_ok l e :
  tables_ok e → Forall (λ pd, fd pd < 2 ^ 30) l →
  ∃ o e', _st_kq_pollset_add l e = (o, e') ∧ tables_ok e' ∧ kept e e' ∧
    (o = Ok tt ∧ accepted e' l ∧ recounted (keys l) 1 e e' ∨ o = Fail ∧ recounted [] 1 e e' ∧ (has_memory → ¬ accepted e l)) ∧
    ((∀ k, 0 <= kcnt e k) → waited e → waited e').
Proof.
  intros He Hl. unfold _st_kq_pollset_add. destruct (kq_check_fds_ok l e He Hl) as (o & e1 & E1 & D1 & Ho).
  pose proof (kq_same_data_tables _ _ D1 He) as He1. pose proof (sd_kept _ _ D1) as K1.
  destruct Ho as [-> | (-> & Hacc)].
  { rewrite (bind_fail _ _ _ _ E1). exists Fail, e1. split; [done |]. split; [done |]. split; [done |].
    split; [| intros _; by apply same_data_waited]. right. split; [done |]. split; [by apply kq_same_data_recounted |].
    intros _ Hacc%kq_accepted_checks. congruence. }
  rewrite (bind_ok _ _ _ _ _ E1). unfold bind at 1. cbn [gets id].
  assert (∃ o e2, (if addlist_size e1 - addlist_cnt e1 <? 2 * Z.of_nat (length l) then _st_kq_addlist_expand (2 * Z.of_nat (length l)) else ret tt) e1
    = (o, e2) ∧ same_data e1 e2 ∧ (o = Fail ∧ ¬ has_memory ∨ o = Ok tt ∧ addlist_cnt e2 + 2 * Z.of_nat (length l) <= addlist_size e2))
    as (o & e2 & E2 & D2 & Ho).
  { destruct (Z.ltb_spec (addlist_size e1 - addlist_cnt e1) (2 * Z.of_nat (length l))); [by apply addlist_expand_ok |].
    exists (Ok tt), e1. split; [done |]. split; [apply kq_same_data_refl | right]. split; [done | lia]. }
  pose proof (kq_same_data_trans _ _ _ D1 D2) as D. pose proof (kq_same_data_tables _ _ D He) as He2. pose proof (sd_kept _ _ D) as K2.
  destruct Ho as [[-> Hm] | [-> Hroom]].
  { rewrite (bind_fail _ _ _ _ E2). exists Fail, e2. split; [done |]. split; [done |]. split; [done |].
    split; [right; split; [done |]; split; [by apply kq_same_data_recounted | by intros H%Hm] | intros _; by apply same_data_waited]. }
  rewrite (bind_ok _ _ _ _ _ E2), add_fds_keys. pose proof (kq_accepted_kept _ _ _ (sd_kept _ _ D2) Hacc) as Hacc2.
  destruct (add_keys_ok (keys l) e2 He2) as (e3 & E3 & T3 & K3 & C3 & W3).
  { by apply accepted_keys. } { pose proof (keys_length l). lia. }
  exists (Ok tt), e3. split; [done |]. split; [done |]. split; [by transitivity e2 |]. split.
  - left. split; [done |]. split; [by apply (kq_accepted_kept e2) |].
    apply (recounted_trans [] (keys l) 1 e e2); [by apply kq_same_data_recounted | done].
  - intros H0 Hw. apply W3; [intros k; by rewrite (same_data_kcnt _ _ _ D) | by apply (same_data_waited e)].
Qed.

(** ** Deleting *)
Definition del_key (fired : bool) k : M kdata unit :=
  x <- fd_at k.1 ;;
  set_fd k.1 (recount k.2 (-1) x) ;;
  if (kq_cnt x k.2 - 1 =? 0) && negb (fired && negb (Z.land (kq_revents x) (pollbit k.2) =? 0))
  then _st_kq_dellist_add k else ret tt.

Lemma del_fds_keys fired (l : list pollfd) e : for_each (kq_del_fd fired) l e = for_each (del_key fired) (keys l) e.
Proof.
  apply for_each_keys. intros pd e'. apply by_filters. intros f e1. unfold kq_del_filter. by destruct (wants pd f).
Qed.

(** Nobody waits for what is to be deleted. *)
Definition idle_dels e : Prop := ∀ k, k ∈ dellist e → kcnt e k <= 0.

Lemma dellist_add_ok k e :
  ∃ e', _st_kq_dellist_add k e = (Ok tt, e') ∧ same_data e e' ∧ addlist_size e' = addlist_size e ∧
    ∀ x, x ∈ dellist e' → x ∈ dellist e ∨ x = k.
Proof.
  assert (∀ e1, same_data e e1 → addlist_size e1 = addlist_size e → dellist e1 = dellist e →
    same_data e (with_dellist (dellist e1 ++ [k]) e1) ∧ addlist_size e1 = addlist_size e ∧
    ∀ x, x ∈ dellist e1 ++ [k] → x ∈ dellist e ∨ x = k) as Hput.
  { intros e1 [A1 A2 A3 A4 [K1 K2 K3]] Hs Hd. split; [by split |]. split; [done |].
    intros x. rewrite Hd, elem_of_app, list_elem_of_singleton. done. }
  unfold _st_kq_dellist_add. unfold bind at 1. cbn [gets id]. destruct (Z.leb_spec (dellist_size e) (dellist_cnt e)).
  - unfold alloc, bind. destruct (kq_realloc (2 * dellist_size e) (kernel e)) as [b k'] eqn:Hr.
    assert (same_data e (with_kernel k' e)) as D1.
    { split; [done | | done | done | by split]. unfold kreg. cbn. by rewrite (kq_realloc_law _ _ _ _ _ Hr). }
    destruct b; cbn [modify ret].
    + eexists. split; [reflexivity |]. apply (Hput (with_dellist_size (2 * dellist_size e) (with_kernel k' e))); try done.
      destruct D1 as [A1 A2 A3 A4 [K1 K2 K3]]. by split.
    + exists (with_kernel k' e). split; [done |]. split; [done |]. split; [done |]. by left.
  - eexists. split; [reflexivity |]. apply Hput; try done.
Qed.

Lemma del_keys_ok fired ks e :
  tables_ok e → in_tables e ks →
  ∃ e', for_each (del_key fired) ks e = (Ok tt, e') ∧ tables_ok e' ∧ kept e e' ∧ asked e' = asked e ∧ addlist e' = addlist e ∧
    recounted ks (-1) e e' ∧ (idle_dels e → idle_dels e').
Proof.
  revert e. induction ks as [| k ks IH]; intros e He Hl; cbn [for_each].
  - exists e. split; [done |]. split; [done |]. split; [done |]. split; [done |]. split; [done |].
    split; [by apply kq_recounted_nil | done].
  - apply Forall_cons in Hl as [Hf Hl].
    pose proof (kq_put_recounted k (-1) e Hf) as Hc. pose proof (kq_put_kept k.1 (recount k.2 (-1) (entry e k.1)) e) as K1.
    set (e1 := put k.1 (recount k.2 (-1) (entry e k.1)) e) in *.
    assert (∃ e2, del_key fired k e = (Ok tt, e2) ∧ same_data e1 e2 ∧ addlist_size e2 = addlist_size e ∧
      ∀ x, x ∈ dellist e2 → x ∈ dellist e ∨ x = k ∧ kcnt e k - 1 = 0) as (e2 & E1 & D2 & S2 & L2).
    { unfold del_key. rewrite (bind_ok _ _ _ _ _ (kq_fd_at_ok _ e Hf)), (bind_ok _ _ _ _ _ (kq_set_fd_ok _ _ e Hf)). fold e1.
      destruct (_ && _) eqn:Hb.
      - apply andb_true_iff in Hb as [Hb%Z.eqb_eq _]. destruct (dellist_add_ok k e1) as (e2 & E2 & D2 & S2 & L2).
        exists e2. split; [done |]. split; [done |]. split; [done |]. intros x [Hx | ->]%L2; [by left | by right].
      - exists e1. split; [done |]. split; [apply kq_same_data_refl |]. split; [done |]. by left. }
    assert (kept e e2) as K2 by (transitivity e1; [done | apply D2]).
    assert (asked e2 = asked e) as A2 by (by rewrite (same_data_asked _ _ D2)).
    assert (recounted [k] (-1) e e2) as C2.
    { rewrite <- (app_nil_r [k]). apply (recounted_trans _ _ _ _ e1); [done | by apply kq_same_data_recounted]. }
    assert (tables_ok e2) as He2.
    { apply (kq_tables_kept e); try done; [| by rewrite A2; left]. unfold addlist_cnt. rewrite (sd_add _ _ D2). apply He. }
    destruct (IH e2 He2 (kq_in_tables_kept _ _ _ K2 Hl)) as (e3 & E3 & T3 & K3 & A3 & L3 & C3 & I3).
    rewrite (bind_ok _ _ _ _ _ E1). exists e3. split; [done |]. split; [done |]. split; [by transitivity e2 |].
    split; [congruence |]. split; [by rewrite L3, (sd_add _ _ D2) |].
    split; [by apply (recounted_trans [k] ks _ _ e2) |]. intros Hi. apply I3. intros x Hx. rewrite (proj1 C2), tally_cons.
    change (tally x []) with 0. destruct (L2 x Hx) as [Hin | [-> H0]].
    + specialize (Hi x Hin). destruct (decide (k = x)); lia.
    + rewrite decide_True by done. lia.
Qed.

(** [kq_delete] *)
Lemma kq_delete_ok e :
  ∃ e', kq_delete e = (Ok tt, e') ∧ e' = with_kernel (kernel e') e ∧
    kreg e ∖ list_to_set (dellist e) ⊆ kreg e' ∧ kreg e' ⊆ kreg e.
Proof.
  unfold kq_delete. destruct (0 <? dellist_cnt e); [| exists e; split; [done |]; split; [by destruct e | set_solver]].
  assert (∀ n e, (retries (kernel e) < n)%nat → ∃ e', delete_loop n e = (Ok tt, e') ∧ e' = with_kernel (kernel e') e ∧
    kreg e ∖ list_to_set (dellist e) ⊆ kreg e' ∧ kreg e' ⊆ kreg e) as H; [| apply H; lia].
  clear e. induction n as [| n IH]; intros e Hn; [lia |]. cbn [delete_loop].
  destruct (kevent_delete (kq e) (dellist e) (kernel e)) as [r k] eqn:Hd. pose proof (delete_law _ _ _ _ _ Hd) as [H1 H2].
  change (on_kq (kq e) (kernel e)) with (kreg e) in H1, H2. change (on_kq (kq e) k) with (kreg (with_kernel k e)) in H1, H2.
  destruct r; [by exists (with_kernel k e) | | by exists (with_kernel k e)].
  apply retries_law in Hd. destruct (IH (with_kernel k e)) as (e' & E1 & E2 & H3 & H4); [cbn; lia |].
  exists e'. split; [done |]. split; [done |]. change (dellist (with_kernel k e)) with (dellist e) in H3. set_solver.
Qed.

Lemma kernel_only e (kn : K) :
  kreg (with_kernel kn e) ⊆ kreg e → tables_ok e →
  tables_ok (with_kernel kn e) ∧ kept e (with_kernel kn e) ∧ asked (with_kernel kn e) ⊆ asked e.
Proof.
  intros Hr He. assert (kept e (with_kernel kn e)) as Hk by (by split).
  assert (asked (with_kernel kn e) ⊆ asked e) as Ha by (unfold asked; cbn; set_solver).
  split; [| done]. apply (kq_tables_kept e); try done; [apply He |]. intros x Hx. left. by apply Ha.
Qed.

Lemma pollset_del_ok l e :
  tables_ok e → accepted e l →
  ∃ e', _st_kq_pollset_del l e = (Ok tt, e') ∧ tables_ok e' ∧ kept e e' ∧ recounted (keys l) (-1) e e' ∧ (waited e → waited e').
Proof.
  intros He Hl. unfold _st_kq_pollset_del. unfold bind at 1. cbn [modify]. set (e0 := with_dellist [] e).
  assert (tables_ok e0 ∧ kept e e0) as [He0 K0] by (destruct He; by split).
  destruct (del_keys_ok false (keys l) e0 He0) as (e1 & E1 & T1 & K1 & A1 & _ & C1 & I1).
  { by apply (accepted_keys e). }
  rewrite <- del_fds_keys in E1. rewrite (bind_ok _ _ _ _ _ E1).
  destruct (kq_delete_ok e1) as (e2 & E2 & Ek & H1 & H2). rewrite Ek in H1, H2.
  destruct (kernel_only e1 (kernel e2) H2 T1) as (T2 & K2 & A2). rewrite <- Ek in *.
  exists e2. split; [done |]. split; [done |]. split; [by transitivity e0; [| transitivity e1] |].
  assert (∀ f, entry e2 f = entry e1 f) as Hent by (intros f; by rewrite Ek).
  split; [split; [intros k | intros f]; unfold kcnt; rewrite Hent; apply C1 |].
  intros Hw k. unfold kcnt at 1. rewrite Hent. change (0 < kcnt e1 k → k ∈ asked e2). intros Hk.
  assert (k ∉ dellist e1) as Hn. { intros Hin. apply I1 in Hin; [lia |]. by intros x ?%not_elem_of_nil. }
  assert (k ∈ asked e1) as Hin.
  { rewrite A1. apply Hw. rewrite (proj1 C1) in Hk. change (kcnt e0 k) with (kcnt e k) in Hk. pose proof (tally_nonneg k (keys l)). lia. }
  unfold asked in *. apply elem_of_union. apply elem_of_union in Hin as [Hin | Hin]; [left | right; by rewrite Ek].
  apply H1. apply elem_of_difference. split; [done |]. by rewrite elem_of_list_to_set.
Qed.
End tables.

(** ** The event system *)
Section system.
Context {K : Type} `{!KqKernel K, !KqLaws K}.
Notation kdata := (@_st_kqdata K).
Notation vp := (@_st_vp kdata).
Implicit Types (e : kdata) (s : vp) (t : Z).

#[export] Instance kq_laws : EventSysLaws kdata.
Proof.
  refine {| ev_ok := tables_ok; fds_valid := Forall (λ pd, fd pd < 2 ^ 30); fds_ok := accepted |}.
  - intros fds e He Hv. destruct (kq_pollset_add_ok fds e He Hv) as (o & e' & E1 & T1 & K1 & H & _).
    exists o, e'. split; [exact E1 |]. split; [| split; [done |]].
    + destruct H as [(-> & Ha & _) | (-> & _)]; [by left | by right].
    + intros l. by apply kq_accepted_kept.
  - intros fds e He Hl. destruct (pollset_del_ok fds e He Hl) as (e' & E1 & T1 & K1 & _).
    exists e'. split; [exact E1 |]. split; [done |]. intros l. by apply kq_accepted_kept.
Defined.

(** Nothing is accepted that asks for a third event. *)
Lemma accepted_occurs e l f : accepted e l → occurs Ex f l = 0.
Proof.
  intros [_ H]. induction l as [| pd l IH]; [done |]. apply Forall_cons in H as [[_ Hb] H]. rewrite occurs_cons, (IH H).
  apply not_kq_bad in Hb as [_ Hb]. assert (asks pd Ex = false) as ->; [| by rewrite andb_false_r].
  unfold asks. apply negb_false_iff, Z.eqb_eq. change (mask Ex) with (Z.land (Z.lnot (Z.lor POLLIN POLLOUT)) POLLPRI).
  by rewrite Z.land_assoc, Hb.
Qed.

Lemma kcnt_counts (d : Z) l e e' i f :
  (∀ k, kcnt e' k = kcnt e k + d * tally k (keys l)) → occurs Ex f l = 0 → cnt e' i f = cnt e i f + d * occurs i f l.
Proof.
  intros H Hx. destruct i; cbn [cnt kq_counting filt_of]; [| | rewrite Hx; lia]; by rewrite H, keys_occurs.
Qed.

Lemma counts_nonneg e : (∀ i f, 0 <= cnt e i f) → ∀ k, 0 <= kcnt e k.
Proof. intros H [f g]. specialize (H (column g) f). by destruct g. Qed.

#[export] Instance kq_counting_laws : CountingLaws kdata.
Proof.
  split.
  - intros e i f [_ H]. cbn. destruct (filt_of i) as [g |]; [apply H | lia].
  - intros fds e e' i f He Hv H. destruct (kq_pollset_add_ok fds e He Hv) as (o & e1 & E1 & _ & _ & Ho & _).
    cbn [pollset_add kq_eventsys] in H. rewrite E1 in H. simplify_eq.
    destruct Ho as [(_ & Ha & [Hc _]) | (? & _)]; [| done].
    rewrite (kcnt_counts 1 fds e e' i f Hc); [lia | by apply (accepted_occurs e')].
  - intros fds e e' i f He Hv H. destruct (kq_pollset_add_ok fds e He Hv) as (o & e1 & E1 & _ & _ & Ho & _).
    cbn [pollset_add kq_eventsys] in H. rewrite E1 in H. simplify_eq.
    destruct Ho as [(? & _) | (_ & [Hc _] & _)]; [done |]. rewrite (kcnt_counts 1 [] e e' i f Hc), occurs_nil; [lia | done].
  - intros fds o e e' He Hv H _ H0 [Hq Hw]. destruct (kq_pollset_add_ok fds e He Hv) as (o1 & e1 & E1 & _ & _ & Ho & Hc).
    cbn [pollset_add kq_eventsys] in H. rewrite E1 in H. simplify_eq. split; [| by apply Hc; [apply counts_nonneg |]].
    intros f. destruct Ho as [(_ & _ & [_ Hr]) | (_ & [_ Hr] & _)]; by rewrite Hr.
  - intros fds e e' i f He Hl H. destruct (pollset_del_ok fds e He Hl) as (e1 & E1 & _ & _ & [Hc _] & _).
    cbn [pollset_del kq_eventsys] in H. rewrite E1 in H. simplify_eq.
    rewrite (kcnt_counts (-1) fds e e' i f Hc); [lia | by apply (accepted_occurs e)].
  - intros fds e e' He Hl H _ [Hq Hw]. destruct (pollset_del_ok fds e He Hl) as (e1 & E1 & _ & _ & [_ Hr] & Hw').
    cbn [pollset_del kq_eventsys] in H. rewrite E1 in H. simplify_eq. split; [intros f; by rewrite Hr | auto].
Qed.
Lemma cnt_kcnt e e' i f : (∀ k, kcnt e' k = kcnt e k) → cnt e' i f = cnt e i f.
Proof. intros H. cbn. destruct (filt_of i); [apply H | done]. Qed.
End system.
