(* ===== verification/KqDispatch.v ===== *)
(** * event.c: the dispatch of the kqueue event system

    What was reported decides who is told ([reported_look]); the loop over the I/O queue; the branch for events;
    the loop that starts again after a fork; the theorems about all of them, with a kernel to try them on. *)

From stdpp Require Import base list sets gmap fin_maps.
From Stdlib Require Import Lia ZArith.
From S2P Require Import Prelude.
From S2P Require Import Bytes.
From S2P Require Import TimeoutHeap.
From S2P Require Import Vp.
From S2P Require Import Sync.
From S2P Require Import Fair.
From S2P Require Import Sched.
From S2P Require Import SchedOps.
From S2P Require Import SchedCalls.
From S2P Require Import SchedSteps.
From S2P Require Import IoQueue.
From S2P Require Import Interest.
From S2P Require Import Rounds.
From S2P Require Import KqEv.

Local Open Scope Z_scope.

Section system.
Context {K : Type} `{!KqKernel K, !KqLaws K}.
Notation kdata := (@_st_kqdata K).
Notation vp := (@_st_vp kdata).
Implicit Types (e : kdata) (s : vp) (t : Z).

(** ** What was reported *)
(** The bits one event adds to [_ST_KQ_REVENTS]. *)
Definition fire_bits (ev : kevent) (r : Z) : Z :=
  let r := Z.lor r (pollbit (kfilter ev)) in
  if Z.land (kflags ev) EV_ERROR =? 0 then r else Z.lor r (if kev_data ev =? EBADF then POLLNVAL else POLLERR).

Definition fold_events (h : kevent → Z → Z) (l : list kevent) (f r : Z) : Z :=
  foldl (λ r ev, if decide (ident ev = f) then h ev r else r) r l.

(** [_ST_KQ_REVENTS] of a descriptor when [l] was reported. *)
Definition reported (l : list kevent) (f : Z) : Z := fold_events fire_bits l f 0.

Definition reported_look (l : list kevent) (pd : pollfd) : Z := kq_look_revents (reported l (fd pd)) pd.

Definition bits (b1 b2 b3 b4 : bool) : Z :=
  Z.lor (Z.lor (if b1 then POLLIN else 0) (if b2 then POLLOUT else 0)) (Z.lor (if b3 then POLLERR else 0) (if b4 then POLLNVAL else 0)).

Definition failed (ev : kevent) : bool := negb (Z.land (kflags ev) EV_ERROR =? 0).

Definition about (l : list kevent) (f : Z) (P : kevent → bool) : bool := existsb (λ ev, bool_decide (ident ev = f) && P ev) l.

Lemma about_cons ev l f P : about (ev :: l) f P = (bool_decide (ident ev = f) && P ev) || about l f P.
Proof. done. Qed.

Lemma about_true l f P : about l f P = true ↔ ∃ ev, ev ∈ l ∧ ident ev = f ∧ P ev = true.
Proof.
  unfold about. rewrite existsb_exists. split.
  - intros (ev & Hin%list_elem_of_In & [H1%bool_decide_eq_true H2]%andb_true_iff). by exists ev.
  - intros (ev & Hin%list_elem_of_In & H1 & H2). exists ev. split; [done |]. by rewrite bool_decide_true.
Qed.

Definition is_read (ev : kevent) : bool := bool_decide (kfilter ev = EVFILT_READ).

Lemma reported_bits l f :
  reported l f = bits (about l f is_read) (about l f (λ ev, negb (is_read ev)))
    (about l f (λ ev, failed ev && negb (kev_data ev =? EBADF))) (about l f (λ ev, failed ev && (kev_data ev =? EBADF))).
Proof.
  assert (∀ b1 b2 b3 b4, fold_events fire_bits l f (bits b1 b2 b3 b4) =
    bits (b1 || about l f is_read) (b2 || about l f (λ ev, negb (is_read ev)))
      (b3 || about l f (λ ev, failed ev && negb (kev_data ev =? EBADF))) (b4 || about l f (λ ev, failed ev && (kev_data ev =? EBADF)))) as H.
  2: { apply (H false false false false). }
  unfold fold_events. induction l as [| ev l IH]; intros b1 b2 b3 b4; [cbn; by rewrite !orb_false_r |].
  cbn [foldl]. rewrite !about_cons. destruct (decide (ident ev = f)) as [Hf | Hf].
  2: { rewrite bool_decide_false by done. cbn [andb orb]. apply IH. }
  rewrite bool_decide_true by done. cbn [andb]. rewrite !orb_assoc, <- IH. f_equal.
  unfold fire_bits, is_read, failed. destruct (Z.land (kflags ev) EV_ERROR =? 0), (kev_data ev =? EBADF), (kfilter ev);
    cbn; destruct b1, b2, b3, b4; vm_compute; done.
Qed.

(** An event is for what is asked for, or an error. *)
Definition concerns (ev : kevent) (pd : pollfd) : Prop := ident ev = fd pd ∧ (wants pd (kfilter ev) = true ∨ failed ev = true).

Lemma look_concerns l pd : reported_look l pd ≠ 0 ↔ ∃ ev, ev ∈ l ∧ concerns ev pd.
Proof.
  set (f := fd pd). transitivity (about l f is_read && wants pd EVFILT_READ || about l f (λ ev, negb (is_read ev)) && wants pd EVFILT_WRITE ||
    (about l f (λ ev, failed ev && negb (kev_data ev =? EBADF)) || about l f (λ ev, failed ev && (kev_data ev =? EBADF))) = true).
  - unfold reported_look. fold f. rewrite reported_bits. unfold kq_look_revents.
    destruct (about l f is_read), (about l f _), (about l f _), (about l f _), (wants pd EVFILT_READ), (wants pd EVFILT_WRITE);
      vm_compute; split; congruence.
  - rewrite !orb_true_iff, !andb_true_iff, !about_true. unfold concerns, is_read. split.
    + intros [[[(ev & H1 & H2 & H3) Hw] | [(ev & H1 & H2 & H3) Hw]] | [(ev & H1 & H2 & H3) | (ev & H1 & H2 & H3)]]; exists ev; split_and!; try done.
      * apply bool_decide_eq_true in H3. rewrite H3. by left.
      * destruct (kfilter ev); [done | by left].
      * apply andb_true_iff in H3 as [? _]. by right.
      * apply andb_true_iff in H3 as [? _]. by right.
    + intros (ev & Hin & Hf & [Hw | He]).
      * left. destruct (kfilter ev) eqn:Hfl; [left | right]; (split; [| done]); exists ev; rewrite Hfl; done.
      * right. destruct (kev_data ev =? EBADF) eqn:Hd; [right | left]; exists ev; by rewrite He, Hd.
Qed.

(** [l] reports an event for a descriptor of the poll of [t]. *)
Definition polled_event (l : list kevent) s t : Prop := ∃ pd ev, pd ∈ fds_of s t ∧ ev ∈ l ∧ concerns ev pd.

Lemma ready_spec look s t : ready look s t = true ↔ ∃ pd, pd ∈ fds_of s t ∧ look pd ≠ 0.
Proof.
  unfold ready, looked. rewrite existsb_exists. split.
  - intros (p & Hp & Hb). apply list_elem_of_In, list_elem_of_fmap in Hp as (pd & -> & Hpd). exists pd. split; [done |].
    unfold has_event in Hb. by apply negb_true_iff, Z.eqb_neq in Hb.
  - intros (pd & Hpd & Hl). eexists. split; [apply list_elem_of_In, list_elem_of_fmap; by exists pd |].
    unfold has_event. by apply negb_true_iff, Z.eqb_neq.
Qed.

Lemma kq_ready_polled l s t : ready (reported_look l) s t = true ↔ polled_event l s t.
Proof.
  rewrite ready_spec. unfold polled_event. split.
  - intros (pd & Hpd & (ev & H1 & H2)%look_concerns). by exists pd, ev.
  - intros (pd & ev & Hpd & H1 & H2). exists pd. split; [done |]. apply look_concerns. by exists ev.
Qed.

(** ** The loops over the events *)
Definition touch (h : kevent → Z → Z) (ev : kevent) : M kdata unit :=
  x <- fd_at (ident ev) ;; set_fd (ident ev) (KqFd (kq_cnt x) (h ev (kq_revents x))).

(** Only [_ST_KQ_REVENTS] of some descriptors differs. *)
Record touched (h : kevent → Z → Z) (l : list kevent) e e' : Prop := {
  tc_cnt k : kcnt e' k = kcnt e k;
  tc_kernel : kernel e' = kernel e;
  tc_lists : addlist e' = addlist e ∧ addlist_size e' = addlist_size e;
  tc_kept : kept e e';
  tc_revents f : kq_revents (entry e' f) = fold_events h l f (kq_revents (entry e f));
}.

Lemma touched_asked h l e e' : touched h l e e' → asked e' = asked e.
Proof. intros [_ H1 [H2 _] [_ H3 _] _]. unfold asked, kreg. by rewrite H1, H2, H3. Qed.

Lemma touched_tables h l e e' : touched h l e e' → tables_ok e → tables_ok e'.
Proof.
  intros H He. pose proof (touched_asked _ _ _ _ H) as Ha. destruct H as [_ _ [H2 H3] Hk _].
  apply (kq_tables_kept e); try done; [unfold addlist_cnt; rewrite H2; apply He |]. rewrite Ha. by left.
Qed.

Lemma kq_touch_ok h l e :
  Forall (λ ev, in_table e (ident ev) = true) l → ∃ e', for_each (touch h) l e = (Ok tt, e') ∧ touched h l e e'.
Proof.
  revert e. induction l as [| ev l IH]; intros e Hl; cbn [for_each].
  - exists e. split; [done |]. by split.
  - apply Forall_cons in Hl as [Hf Hl]. set (x := KqFd (kq_cnt (entry e (ident ev))) (h ev (kq_revents (entry e (ident ev))))).
    assert (touch h ev e = (Ok tt, put (ident ev) x e)) as E1.
    { unfold touch. rewrite (bind_ok _ _ _ _ _ (kq_fd_at_ok _ e Hf)). by apply kq_set_fd_ok. }
    pose proof (kq_put_kept (ident ev) x e) as K1. destruct (IH (put (ident ev) x e)) as (e2 & E2 & [C2 N2 L2 K2 R2]).
    { eapply Forall_impl; [exact Hl |]. intros p. by apply kq_in_table_kept. }
    rewrite (bind_ok _ _ _ _ _ E1). exists e2. split; [done |]. split; [| done | done | by transitivity (put (ident ev) x e) |].
    + intros k. rewrite C2. unfold kcnt. rewrite kq_entry_put by done. by destruct (decide (k.1 = ident ev)) as [-> |].
    + intros f. rewrite R2, kq_entry_put by done. unfold fold_events. cbn [foldl].
      destruct (decide (f = ident ev)) as [-> | Hn]; [by rewrite decide_True |]. by rewrite (decide_False (P := ident ev = f)) by congruence.
Qed.

Lemma fold_reset l f r : fold_events (λ _ _, 0) l f r = 0 ∨ fold_events (λ _ _, 0) l f r = r ∧ f ∉ ident <$> l.
Proof.
  unfold fold_events. revert r. induction l as [| ev l IH]; intros r; [right; split; [done | apply not_elem_of_nil] |].
  cbn [foldl]. rewrite fmap_cons, not_elem_of_cons. destruct (decide (ident ev = f)) as [Hf | Hf].
  - left. destruct (IH 0) as [-> | [-> _]]; done.
  - destruct (IH r) as [-> | [-> Hn]]; [by left | right]. split; [done |]. split; [congruence | done].
Qed.

Lemma fold_other h l f r : f ∉ ident <$> l → fold_events h l f r = r.
Proof.
  unfold fold_events. revert r. induction l as [| ev l IH]; intros r; [done |].
  rewrite fmap_cons, not_elem_of_cons. intros [H1 H2]. cbn [foldl]. rewrite decide_False by congruence. by apply IH.
Qed.

(** ** The loop over the I/O queue *)
(** One poll is looked at. *)
Record round_done (look : pollfd → Z) t s s' : Prop := {
  rd_queues : round_queues look t s s';
  rd_revents f : kq_revents (entry (eventsys s') f) = kq_revents (entry (eventsys s) f);
  rd_cnt i f : cnt (eventsys s') i f =
    cnt (eventsys s) i f - (if ready look s t then occurs i f (looked look (fds_of s t)) else 0);
  rd_kept : kept (eventsys s) (eventsys s');
  rd_asked : asked (eventsys s') = asked (eventsys s);
  rd_down k : kcnt (eventsys s') k <= kcnt (eventsys s) k;
  rd_dels : idle_dels (eventsys s) → idle_dels (eventsys s');
}.

Lemma kq_looked_accepted e look l : accepted e l → accepted e (looked look l).
Proof. intros [H1 H2]. split; unfold looked; apply Forall_fmap; [by apply (Forall_impl _ _ _ H1) | by apply (Forall_impl _ _ _ H2)]. Qed.

Lemma kq_round_ok t s F :
  inv s → polls_wait s → t ∈ io_q s →
  wp (kq_round t) (λ _ s', calm s s' ∧ round_done (kq_look (eventsys s)) t s s') F s.
Proof.
  intros Hi Hp Ht. destruct (polling_fds s t Hi Ht) as (pq & Hpq & Hf & Hl). unfold kq_round.
  set (look := kq_look (eventsys s)). pose proof (kq_looked_accepted _ look _ Hl) as Hl'.
  destruct (del_keys_ok true (keys (looked look (pds pq))) (eventsys s) (ib_ev _ _ _ (inv_all s Hi 0)) (accepted_keys _ _ Hl'))
    as (e & E1 & T1 & K1 & A1 & _ & [C1 R1] & I1).
  rewrite <- del_fds_keys in E1.
  apply wp_bind, wp_gets. cbn [id]. apply wp_bind. unfold wp at 1, the_pollq. rewrite Hpq.
  apply wp_bind, wp_check.
  { apply forallb_forall. intros pd Hpd. apply (proj1 (Forall_forall _ _) (proj1 Hl) pd). by apply list_elem_of_In. }
  apply (round_wp look _ _ t s e); try done.
  - by rewrite Hf.
  - intros _. rewrite Hf. split; [exact E1 |]. split; [done |]. intros l. by apply kq_accepted_kept.
  - intros s' Hc Hq Hrd Ee. split; [done |]. split; rewrite ?Ee; try done.
    + intros i f. rewrite (kcnt_counts (-1) _ _ _ i f C1), Hrd, Hf; [lia | by apply (accepted_occurs (eventsys s))].
    + intros k. rewrite C1. pose proof (tally_nonneg k (keys (looked look (pds pq)))). lia.
  - intros s' Hc Hq Hrd Ee. apply wp_ret. split; [done |]. split; rewrite ?Ee, ?Hrd; try done. intros. lia.
Qed.

(** While the polls of [l] are still to come. *)
Record passing (look : pollfd → Z) s e1 (l : list Z) s' : Prop := {
  pa_told : ∃ v, io_q s = v ++ l ∧ told look s v s';
  pa_revents f : kq_revents (entry (eventsys s') f) = kq_revents (entry e1 f);
  pa_kept : kept e1 (eventsys s');
  pa_asked : asked (eventsys s') = asked e1;
  pa_down k : kcnt (eventsys s') k <= kcnt e1 k;
  pa_dels : idle_dels (eventsys s');
  pa_counts : counted s → counted s';
}.

Lemma kq_passing_round look s e1 t l s1 s2 :
  inv s → inv s1 → t ∈ io_q s1 → (∀ pd, look pd = kq_look (eventsys s1) pd) →
  passing look s e1 (t :: l) s1 → round_done (kq_look (eventsys s1)) t s1 s2 → passing look s e1 l s2.
Proof.
  intros Hi Hi1 Ht Hl [(v & Hv & Htold) Hr Hk Ha Hd Hi' Hc] [Q2 R2 C2 K2 A2 D2 I2].
  assert (round_queues look t s1 s2) as Q2'.
  { unfold round_queues, ready in *. assert (∀ k, looked look k = looked (kq_look (eventsys s1)) k) as E.
    { intros k. apply looked_ext. intros pd _. apply Hl. }
    by rewrite !E. }
  split.
  - exists (v ++ [t]). by apply (loop_told look s l s1).
  - intros f. by rewrite R2.
  - by transitivity (eventsys s1).
  - congruence.
  - intros k. specialize (D2 k). specialize (Hd k). lia.
  - auto.
  - intros Hm. by apply (round_counted (kq_look (eventsys s1)) t s1 s2 Hi1 Ht Q2 (Hc Hm)).
Qed.

Lemma kq_rounds_ok s F :
  inv s → polls_wait s → dellist (eventsys s) = [] →
  wp (for_each kq_round (io_q s)) (λ _ s', calm s s' ∧ passing (kq_look (eventsys s)) s (eventsys s) [] s') F s.
Proof.
  intros Hi Hp Hd. set (look := kq_look (eventsys s)).
  apply (loop_wp (passing look s (eventsys s)) kq_round s F); try done.
  - split; try done; [exists []; split; [done | by apply told_nil] |]. unfold idle_dels. rewrite Hd. by intros k ?%not_elem_of_nil.
  - intros t k s' F' Hi' Hp' HP Hin Htk.
    eapply wp_mono; [| | apply (kq_round_ok t s' F' Hi' Hp' Hin)]; [| done].
    cbn beta. intros _ s2 (Hca & Hrd). split; [done |]. split; [| exists (kq_look (eventsys s')); apply Hrd].
    apply (kq_passing_round look s (eventsys s) t k s'); try done.
    intros pd. unfold look, kq_look. by rewrite (pa_revents _ _ _ _ _ HP).
Qed.

(** Nobody who goes on waiting waits for a filter that was reported. *)
Lemma fired_not_wanted l s s' k :
  inv s → told (reported_look l) s (io_q s) s' → counted s' → 0 < kcnt (eventsys s') k → k ∉ key_of <$> l.
Proof.
  destruct k as [f g]. intros Hi [_ Hio Hf _] Hc Hk (ev & Hev & Hin)%list_elem_of_fmap. injection Hev as -> ->.
  assert (0 < wanted s' (column (kfilter ev)) (ident ev)) as Hw by (rewrite <- Hc; by destruct (kfilter ev)).
  apply wanted_pos in Hw as (t & pd & Ht & Hpd & Hfd & Hasks). rewrite Hio in Ht. apply list_elem_of_filter in Ht as [Hn Ht].
  assert (fds_of s' t = looked (reported_look l) (fds_of s t)) as Efds by (unfold fds_of at 1; by rewrite Hf).
  rewrite Efds in Hpd. apply list_elem_of_fmap in Hpd as (pd' & -> & Hpd').
  apply Hn; [| done]. apply kq_ready_polled. exists pd', ev. split; [done |]. split; [done |]. split; [by symmetry |]. left.
  unfold wants. unfold asks in Hasks. by destruct (kfilter ev).
Qed.

(** ** The branch for events *)
Definition in_answer e (l : list kevent) : Prop := Forall (λ ev, in_table e (ident ev) = true) l.

(** Every filter that is counted is registered or was just reported. *)
Definition waited_or (l : list kevent) e : Prop := ∀ k, 0 < kcnt e k → k ∈ asked e ∨ k ∈ key_of <$> l.

Record passed (l : list kevent) s s' : Prop := {
  ps_told : quiet (eventsys s) → all_told (reported_look l) s s';
  ps_quiet : quiet (eventsys s) → quiet (eventsys s');
  ps_counted : counted s → counted s';
  ps_waited : quiet (eventsys s) → counted s → waited_or l (eventsys s) → waited (eventsys s');
}.

(** From the state [s2] after the loop to the end. *)
Lemma pass_end l s s1 s2 :
  inv s → inv s2 → in_answer (eventsys s2) l → touched fire_bits l (eventsys s) (eventsys s1) →
  io_q s1 = io_q s → counted s1 ↔ counted s → (∀ look s', told look s1 (io_q s1) s' → told look s (io_q s) s') →
  passing (kq_look (eventsys s1)) s1 (eventsys s1) [] s2 →
  ∃ e3, (kq_delete ;; for_each kq_reset l) (eventsys s2) = (Ok tt, e3) ∧ ev_step (eventsys s2) e3 ∧ passed l s (with_eventsys e3 s2).
Proof.
  intros Hi Hi2 Hl Hfire Eio Hcs Hts [(v & Hv & Ht) Hr Hk Ha Hd Hdel Hc]. rewrite app_nil_r in Hv. subst v.
  pose proof (ib_ev _ _ _ (inv_all s2 Hi2 0)) as T2. cbn in T2.
  destruct (kq_delete_ok (eventsys s2)) as (e & E1 & Ek & D1 & D2). rewrite Ek in D1, D2.
  destruct (kernel_only (eventsys s2) (kernel e) D2 T2) as (Te & Ke & Ae). rewrite <- Ek in *.
  assert (∀ f, entry e f = entry (eventsys s2) f) as Hent by (intros f; by rewrite Ek).
  destruct (kq_touch_ok (λ _ _, 0) l e) as (e3 & E3 & H3).
  { eapply Forall_impl; [exact Hl |]. intros ev. by apply kq_in_table_kept. }
  exists e3. split; [by rewrite (bind_ok _ _ _ _ _ E1) |]. pose proof (touched_tables _ _ _ _ H3 Te) as T3.
  split; [split; [done |]; intros k; apply kq_accepted_kept; transitivity e; [done | apply H3] |].
  assert (∀ k, kcnt e3 k = kcnt (eventsys s2) k) as C3 by (intros k; rewrite (tc_cnt _ _ _ _ H3); unfold kcnt; by rewrite Hent).
  assert (counted s → counted s2) as Hcnt by (intros H; by apply Hc, Hcs).
  assert (quiet (eventsys s) → ∀ f, kq_revents (entry (eventsys s1) f) = reported l f) as Hrep.
  { intros Hq f. rewrite (tc_revents _ _ _ _ Hfire), Hq. done. }
  assert (quiet (eventsys s) → told (reported_look l) s (io_q s) s2) as Htold.
  { intros Hq. apply Hts. apply (told_ext (kq_look (eventsys s1))); [| exact Ht].
    intros pd. unfold kq_look, reported_look. by rewrite Hrep. }
  split.
  - intros Hq. exact (told_all _ _ _ (Htold Hq)).
  - intros Hq f. cbn [eventsys with_eventsys]. rewrite (tc_revents _ _ _ _ H3).
    destruct (fold_reset l f (kq_revents (entry e f))) as [-> | [-> Hn]]; [done |].
    rewrite Hent, Hr, Hrep by done. by apply fold_other.
  - intros H i f. cbn [eventsys with_eventsys]. rewrite (cnt_kcnt _ _ i f C3). apply (Hcnt H).
  - intros Hq H Hw k. cbn [eventsys with_eventsys]. rewrite C3. intros Hpos. rewrite (touched_asked _ _ _ _ H3).
    assert (k ∉ dellist (eventsys s2)) as Hnd by (intros Hin; apply Hdel in Hin; lia).
    assert (k ∈ asked (eventsys s2)) as Hin.
    { rewrite Ha, (touched_asked _ _ _ _ Hfire). destruct (Hw k) as [| Hin]; [| done |].
      - rewrite <- (tc_cnt _ _ _ _ Hfire). specialize (Hd k). lia.
      - exfalso. exact (fired_not_wanted l s s2 k Hi (Htold Hq) (Hcnt H) Hpos Hin). }
    unfold asked in *. apply elem_of_union. apply elem_of_union in Hin as [Hin | Hin]; [left | right; by rewrite Ek].
    apply D1, elem_of_difference. split; [done |]. by rewrite elem_of_list_to_set.
Qed.

Lemma on_ev_seq (c1 c2 : M kdata unit) (s : vp) : (on_ev c1 ;; on_ev c2) s = on_ev (c1 ;; c2) s.
Proof. unfold bind, on_ev. destruct (c1 (eventsys s)) as [[[] | | | |] e]; done. Qed.

Lemma kq_pass_ok l s F :
  inv s → polls_wait s → in_answer (eventsys s) l →
  wp (kq_pass l) (λ _ s', calm s s' ∧ passed l s s') F s.
Proof.
  intros Hi Hp Hl. pose proof (ib_ev _ _ _ (inv_all s Hi 0)) as He. unfold kq_pass.
  destruct (kq_touch_ok fire_bits l (eventsys s) Hl) as (e1 & E1 & H1). apply wp_bind, (wp_ev _ tt e1); [exact E1 |].
  set (e1' := with_dellist [] e1). apply wp_bind, (wp_ev _ tt e1'); [done |].
  assert (touched fire_bits l (eventsys s) e1 → tables_ok e1') as T1.
  { intros H. pose proof (touched_tables _ _ _ _ H He) as []. by split. }
  specialize (T1 H1). set (s1 := with_eventsys e1' s). change (with_eventsys e1' (with_eventsys e1 s)) with s1.
  assert (kept (eventsys s) e1') as K1 by (destruct H1 as [_ _ _ [] _]; by split).
  assert (inv s1) as Hi1 by (apply with_eventsys_inv; [split; [done |]; intros k; by apply kq_accepted_kept | done]).
  apply wp_bind, wp_gets. cbn [id]. change (io_q s) with (io_q s1). apply wp_bind.
  eapply wp_mono; [| | apply (kq_rounds_ok s1 F)]; try done. cbn beta. intros _ s2 ((Hi2 & Hp2 & Et & Ed) & Hpass).
  assert (∃ e3, (kq_delete ;; for_each kq_reset l) (eventsys s2) = (Ok tt, e3) ∧ ev_step (eventsys s2) e3 ∧ passed l s (with_eventsys e3 s2))
    as (e3 & E3 & H3 & Hps).
  { apply (pass_end l s s1 s2); try done.
    - eapply Forall_impl; [exact Hl |]. intros ev H. apply (kq_in_table_kept e1'); [apply Hpass |]. by apply (kq_in_table_kept (eventsys s)).
    - destruct H1 as [C1 N1 L1 [K2 K3 K4] R1]. by split.
    - assert (∀ i f, cnt (eventsys s1) i f = cnt (eventsys s) i f) as C1 by (intros i f; apply cnt_kcnt, H1).
      split; intros H i f; [rewrite <- C1 | rewrite C1]; apply H.
    - intros look s' []. by split. }
  eapply (wp_eq _ _ tt (with_eventsys e3 s2)); [rewrite on_ev_seq; unfold on_ev; by rewrite E3 |].
  split; [| done]. split; [by apply with_eventsys_inv |]. done.
Qed.

(** ** The branch for events adds nothing to [addlist] *)
Definition keeps_adds {A : Type} (c : M kdata A) : Prop := ∀ e, addlist (c e).2 = addlist e.

Lemma keeps_adds_bind {A B : Type} (c : M kdata A) (k : A → M kdata B) :
  keeps_adds c → (∀ a, keeps_adds (k a)) → keeps_adds (bind c k).
Proof.
  intros Hc Hk e. specialize (Hc e). unfold bind. destruct (c e) as [[a | | | |] e1]; try done. by rewrite Hk.
Qed.

Lemma keeps_adds_for_each {A : Type} (c : A → M kdata unit) l : (∀ x, keeps_adds (c x)) → keeps_adds (for_each c l).
Proof. intros Hc. induction l as [| x l IH]; cbn [for_each]; [done | by apply keeps_adds_bind]. Qed.

Lemma keeps_adds_fd_at f : keeps_adds (fd_at f).
Proof. intros e. unfold fd_at. by destruct (if 0 <=? f then fd_data e !! Z.to_nat f else None). Qed.

Lemma keeps_adds_set_fd f x : keeps_adds (set_fd f x).
Proof. apply keeps_adds_bind; [apply keeps_adds_fd_at | done]. Qed.

Lemma keeps_adds_dellist k : keeps_adds (_st_kq_dellist_add k).
Proof.
  apply keeps_adds_bind; [done |]. intros e. cbn zeta. destruct (dellist_size e <=? dellist_cnt e); [| done]. apply keeps_adds_bind; [| by intros []].
  intros e'. unfold alloc. by destruct (kq_realloc _ _).
Qed.

Lemma keeps_adds_del fired pd : keeps_adds (kq_del_fd fired pd).
Proof.
  assert (∀ f, keeps_adds (kq_del_filter fired pd f)) as H; [| by apply keeps_adds_bind].
  intros f. unfold kq_del_filter. destruct (negb _); [done |]. apply keeps_adds_bind; [apply keeps_adds_fd_at |]. intros x.
  apply keeps_adds_bind; [apply keeps_adds_set_fd |]. intros _. destruct (_ && _); [apply keeps_adds_dellist | done].
Qed.

Lemma keeps_adds_delete : keeps_adds kq_delete.
Proof.
  intros e. unfold kq_delete. destruct (0 <? _); [| done]. generalize (S (retries (kernel e))) as n. intros n. revert e.
  induction n as [| n IH]; intros e; [done |]. cbn [delete_loop]. destruct (kevent_delete _ _ _) as [[] k]; [done | | done].
  by rewrite IH.
Qed.

Definition same_adds s s' : Prop := addlist (eventsys s') = addlist (eventsys s).

#[export] Instance same_adds_frame : Frame same_adds.
Proof. split; try done. split; [done |]. intros s1 s2 s3 H1 H2. unfold same_adds in *. congruence. Qed.

Lemma same_adds_on_ev {A : Type} (c : M kdata A) : keeps_adds c → pres same_adds (on_ev c).
Proof. intros H s o s'. unfold on_ev. specialize (H (eventsys s)). destruct (c (eventsys s)). by intros [= <- <-] _. Qed.

Lemma kq_pass_adds l : pres same_adds (kq_pass l).
Proof.
  assert (∀ f : vp → vp, (∀ s, eventsys (f s) = eventsys s) → pres same_adds (modify f)) as Hmod.
  { intros f Hf. apply pres_modify. intros s. unfold same_adds. by rewrite Hf. }
  assert (∀ k (h : kevent → _kq_fd_data_t → _kq_fd_data_t) ev, k ev = (x <- fd_at (ident ev) ;; set_fd (ident ev) (h ev x)) →
    keeps_adds (k ev)) as Hset.
  { intros k h ev ->. apply keeps_adds_bind; [apply keeps_adds_fd_at | intros; apply keeps_adds_set_fd]. }
  unfold kq_pass. apply pres_bind; [apply _ | |].
  { apply same_adds_on_ev, keeps_adds_for_each. intros ev. by apply (Hset _ (λ ev x, KqFd (kq_cnt x) (fire_bits ev (kq_revents x)))). }
  intros _. apply pres_bind; [apply _ | by apply same_adds_on_ev |]. intros _. apply pres_bind; [apply _ | apply pres_gets; apply _ |].
  intros s. apply pres_bind; [apply _ | |].
  - apply pres_for_each; [apply _ |]. intros t. unfold kq_round, round, notify, look_at, _ST_DEL_IOQ. pres; try (apply Hmod; intros; done).
    apply same_adds_on_ev, keeps_adds_for_each. intros. apply keeps_adds_del.
  - intros _. apply pres_bind; [apply _ | apply same_adds_on_ev, keeps_adds_delete |]. intros _.
    apply same_adds_on_ev, keeps_adds_for_each. intros ev. by apply (Hset _ (λ _ x, KqFd (kq_cnt x) 0)).
Qed.

(** ** [kevent] with additions *)
(** From the filters [R] that are registered or added to those registered afterwards: what was
    reported is gone; the rest stays, also if the call was interrupted (kevent(2)). *)
Inductive kevent_spec (R R' : gset key) : kq_answer → Prop :=
| kev_events l : (∀ ev, ev ∈ l → key_of ev ∈ R) → R ∖ list_to_set (key_of <$> l) ⊆ R' → R' ⊆ R → kevent_spec R R' (Kq_events l)
| kev_intr : R' = R → kevent_spec R R' (Kq_failed EINTR)
| kev_failed errno : errno ≠ EINTR → R' ⊆ R → kevent_spec R R' (Kq_failed errno).

Definition kq_answer_ok (os : kq_os (K := K)) : Prop := ∀ q adds size tsp kn a kn',
  kevent_wait os q adds size tsp kn = (a, kn') → kevent_spec (on_kq q kn ∪ list_to_set adds) (on_kq q kn') a.

Lemma wait_ok os tsp e :
  tables_ok e → kq_answer_ok os →
  ∃ a e', kq_wait os tsp e = (Ok a, e') ∧ tables_ok e' ∧ kept e e' ∧ fd_data e' = fd_data e ∧ addlist e' = [] ∧
    kevent_spec (asked e) (asked e') a.
Proof.
  intros He Ha. unfold kq_wait. destruct (kevent_wait os _ _ _ _ _) as [a kn] eqn:Hw. apply Ha in Hw.
  set (e' := with_addlist [] (with_kernel kn e)). exists a, e'. split; [done |].
  assert (asked e' = kreg e') as Hr by (unfold asked; cbn; set_solver).
  change (kevent_spec (asked e) (kreg e') a) in Hw. rewrite <- Hr in Hw. clear Hr.
  assert (kept e e') as Hk by (by split). split; [| done].
  apply (kq_tables_kept e); try done; [unfold addlist_cnt; cbn; apply Z.lt_le_incl, He |].
  intros k Hin. left. inversion Hw as [l _ _ H | H | err _ H]; [auto | congruence | auto].
Qed.

(** What [kq_wait] leaves, in the state of the scheduler. *)
Lemma waited_state os tsp s :
  inv s → kq_answer_ok os →
  ∃ a e', kq_wait os tsp (eventsys s) = (Ok a, e') ∧ ev_step (eventsys s) e' ∧ fd_data e' = fd_data (eventsys s) ∧
    pid e' = pid (eventsys s) ∧ addlist e' = [] ∧ kevent_spec (asked (eventsys s)) (asked e') a.
Proof.
  intros Hi Ha. destruct (wait_ok os tsp (eventsys s) (ib_ev _ _ _ (inv_all s Hi 0)) Ha) as (a & e' & E1 & T1 & K1 & D1 & L1 & S1).
  exists a, e'. split; [done |]. split; [split; [done |]; intros k; by apply kq_accepted_kept |]. split; [done |]. split; [apply K1 | done].
Qed.

(** The part of a round of the retry loop that does not retry. *)
Lemma events_ok l s e F :
  inv s → polls_wait s → ev_step (eventsys s) e → fd_data e = fd_data (eventsys s) →
  kevent_spec (asked (eventsys s)) (asked e) (Kq_events l) →
  wp (match l with [] => ret tt | _ :: _ => kq_pass l end)
    (λ _ s', calm s s' ∧ (matched s → matched s') ∧ (matched s → l ≠ [] → all_told (reported_look l) s s')) F (with_eventsys e s).
Proof.
  intros Hi Hp He Hd Hs. inversion Hs as [l' H1 H2 H3 | |]; subst l'. set (s1 := with_eventsys e s).
  assert (inv s1) as Hi1 by (by apply with_eventsys_inv).
  assert (∀ f, entry e f = entry (eventsys s) f) as Hent by (intros f; unfold entry; by rewrite Hd).
  assert (∀ k, kcnt e k = kcnt (eventsys s) k) as Hcnt by (intros k; unfold kcnt; by rewrite Hent).
  assert (matched s → quiet e ∧ counted s1 ∧ waited_or l e) as Hm.
  { intros [Hc [Hq Hw]]. split; [intros f; rewrite Hent; apply Hq |]. split.
    - intros i f. cbn [eventsys s1 with_eventsys]. rewrite (cnt_kcnt _ _ i f Hcnt). apply Hc.
    - intros k Hk. rewrite Hcnt in Hk. apply Hw in Hk. destruct (decide (k ∈ key_of <$> l)) as [| Hn]; [by right | left].
      apply H2, elem_of_difference. split; [done |]. by rewrite elem_of_list_to_set. }
  destruct l as [| ev l].
  - apply wp_ret. split; [done |]. split; [| done]. intros [Hq [Hc Hw]]%Hm. split; [done |]. split; [done |].
    intros k Hk. by destruct (Hw k Hk) as [| ?%not_elem_of_nil].
  - eapply wp_mono; [| | apply (kq_pass_ok (ev :: l) s1 F Hi1 Hp)]; [| done |].
    + cbn beta. intros _ s' (Hc & [P1 P2 P3 P4]). split; [done |]. split.
      * intros [Hq [Hcs Hw]]%Hm. split; [by apply P3 | split; [by apply P2 | by apply P4]].
      * intros [Hq _]%Hm _. by apply P1.
    + apply Forall_forall. intros x Hx. apply H1 in Hx. apply (to_asked (eventsys s)) in Hx; [| apply (inv_all s Hi 0)].
      unfold in_table, fd_data_size in *. cbn [eventsys s1 with_eventsys]. by rewrite Hd.
Qed.

(** ** After a fork *)
Lemma kq_recreate_ok mypid e :
  tables_ok e →
  ∃ b e', kq_recreate mypid e = (Ok b, e') ∧ fd_data_size e' = fd_data_size e ∧ (addlist e = [] → tables_ok e') ∧
    (b = true → pid e' = mypid ∧ quiet e' ∧ ∀ k, kcnt e' k = 0).
Proof.
  intros [H1 H2 H3 H4]. unfold kq_recreate. destruct (kqueue (kernel e)) as [[q |] kn] eqn:Hk.
  - apply kqueue_law in Hk as [Hq Hr]. eexists true, _. split; [reflexivity |]. set (e' := with_fd_data _ _).
    assert (fd_data_size e' = fd_data_size e) as Hs by (unfold fd_data_size; cbn; by rewrite length_replicate).
    assert (∀ f, entry e' f = no_data) as He by (intros f; apply entry_replicate).
    split; [done |]. split.
    + intros Ha. split; [lia | done | done |]. intros k. unfold asked, kreg. cbn. rewrite Hr, Ha. set_solver.
    + intros _. split; [done |]. split; [intros f; by rewrite He | intros k; unfold kcnt; by rewrite He].
  - eexists false, _. split; [reflexivity |]. split; [done |]. split; [| done]. intros Ha. split; try done.
    intros k. unfold asked, kreg. cbn. rewrite no_kqueue_law, Ha. set_solver.
Qed.

Lemma kq_readd_one l e :
  tables_ok e → accepted e l →
  ∃ e', ignore_error (_st_kq_pollset_add l) e = (Ok tt, e') ∧ tables_ok e' ∧ kept e e' ∧
    (has_memory (K := K) → (∀ k, 0 <= kcnt e k) → quiet e ∧ waited e →
      (quiet e' ∧ waited e') ∧ ∀ k, kcnt e' k = kcnt e k + tally k (keys l)).
Proof.
  intros He Hl. assert (Forall (λ pd, fd pd < 2 ^ 30) l) as Hv by (destruct Hl as [_ H]; by apply (Forall_impl _ _ _ H); intros pd []).
  destruct (kq_pollset_add_ok l e He Hv) as (o & e' & E1 & T1 & K1 & Ho & Hw).
  exists e'. split; [unfold ignore_error; rewrite E1; by destruct Ho as [(-> & _) | (-> & _)] |].
  split; [done |]. split; [done |]. intros Hm H0 [Hq Hwe]. destruct Ho as [(_ & _ & [Hc Hr]) | (_ & _ & Hf)]; [| by destruct (Hf Hm)].
  split; [split; [intros f; by rewrite Hr | by apply Hw] |]. intros k. rewrite Hc. lia.
Qed.

Lemma kq_readd_loop s (l : list Z) e :
  inv s → (∀ t, t ∈ l → t ∈ io_q s) → tables_ok e → (∀ k, accepted (eventsys s) k → accepted e k) →
  ∃ e', for_each readd l (with_eventsys e s) = (Ok tt, with_eventsys e' s) ∧ tables_ok e' ∧ kept e e' ∧
    (has_memory (K := K) → (∀ k, 0 <= kcnt e k) → quiet e ∧ waited e →
      (quiet e' ∧ waited e') ∧ ∀ i f, cnt e' i f = cnt e i f + total (λ t, occurs i f (fds_of s t)) l).
Proof.
  intros Hi. revert e. induction l as [| t l IH]; intros e Hl He Ha; cbn [for_each].
  - exists e. split; [done |]. split; [done |]. split; [done |]. intros _ _ Hc. split; [done |]. intros. cbn. lia.
  - destruct (polling_fds s t Hi) as (pq & Hpq & Hf & Hacc); [apply Hl; left |].
    destruct (kq_readd_one (pds pq) e He (Ha _ Hacc)) as (e1 & E1 & T1 & K1 & C1).
    assert (readd t (with_eventsys e s) = (Ok tt, with_eventsys e1 s)) as Et.
    { unfold readd, bind, the_pollq, on_ev. cbn [pollqs with_eventsys eventsys].
      rewrite Hpq. change (eventsys (with_eventsys e s)) with e. by rewrite E1. }
    destruct (IH e1) as (e2 & E2 & T2 & K2 & C2); [intros u Hu; apply Hl; by right | done | |].
    + intros k Hk. by apply (kq_accepted_kept e), Ha.
    + rewrite (bind_ok _ _ _ _ _ Et). exists e2. split; [done |]. split; [done |]. split; [by transitivity e1 |].
      intros Hm H0 Hc. destruct (C1 Hm H0 Hc) as [Hc1 Hcnt1]. destruct C2 as [Hc2 Hcnt2]; [done | | done |].
      { intros k. rewrite Hcnt1. pose proof (tally_nonneg k (keys (pds pq))). specialize (H0 k). lia. }
      split; [done |]. intros i f. rewrite Hcnt2. unfold total. cbn [foldr]. rewrite Hf.
      rewrite (kcnt_counts 1 (pds pq) e e1 i f); [lia | intros k; rewrite Hcnt1; lia | by apply (accepted_occurs (eventsys s))].
Qed.

(** ** [_st_kq_dispatch] *)
(** No failure but interruption. *)
Definition kq_sound (os : kq_os (K := K)) : Prop := ∀ q adds size tsp kn err kn',
  kevent_wait os q adds size tsp kn = (Kq_failed err, kn') → err = EINTR.

Lemma interrupted s e :
  fd_data e = fd_data (eventsys s) → asked e = asked (eventsys s) → matched s → matched (with_eventsys e s).
Proof.
  intros Hd Ha [Hc [Hq Hw]]. assert (∀ f, entry e f = entry (eventsys s) f) as Hent by (intros f; unfold entry; by rewrite Hd).
  assert (∀ k, kcnt e k = kcnt (eventsys s) k) as Hcnt by (intros k; unfold kcnt; by rewrite Hent).
  split; [intros i f; cbn [eventsys with_eventsys]; rewrite (cnt_kcnt _ _ i f Hcnt); apply Hc |].
  split; [intros f; cbn [eventsys with_eventsys]; rewrite Hent; apply Hq |].
  intros k. cbn [eventsys with_eventsys]. rewrite Hcnt, Ha. apply Hw.
Qed.

(** One process: the loop ends with the first answer. *)
Lemma retry_same n os tsp s F :
  inv s → polls_wait s → kq_answer_ok os → pid (eventsys s) = getpid os →
  wp (retry_kevent (S n) os tsp) (λ _ s', calm s s' ∧ (kq_sound os → matched s → matched s')) F s.
Proof.
  intros Hi Hp Ha Hpid. cbn [retry_kevent]. destruct (waited_state os tsp s Hi Ha) as (a & e & E1 & He & Hd & Hpe & _ & Hs).
  assert (inv (with_eventsys e s)) as Hi1 by (by apply with_eventsys_inv).
  apply wp_bind, (wp_ev _ a e); [exact E1 |]. destruct a as [l | err].
  - eapply wp_mono; [| | apply (events_ok l s e F Hi Hp He Hd Hs)]; [| done]. cbn beta. naive_solver.
  - apply wp_bind, wp_gets. cbn [id eventsys with_eventsys]. rewrite Hpe, Hpid, Z.eqb_refl, andb_false_r.
    apply wp_ret. split; [done |]. intros Hsound Hm. apply (interrupted s e Hd); [| done].
    unfold kq_wait in E1. destruct (kevent_wait os _ _ _ _ _) as [a' kn] eqn:Hw. injection E1 as -> _. apply Hsound in Hw as ->.
    by inversion Hs.
Qed.

(** After [fork]: the state in which the loop starts again. *)
Lemma restarted s e mypid :
  inv s → polls_wait s → ev_step (eventsys s) e → addlist e = [] → pid e ≠ mypid →
  ∃ b e', kq_recreate mypid e = (Ok b, e') ∧ ev_step (eventsys s) e' ∧
    (b = true → ∃ e2, for_each readd (io_q s) (with_eventsys e' s) = (Ok tt, with_eventsys e2 s) ∧ ev_step (eventsys s) e2 ∧
      pid e2 = mypid ∧ (has_memory (K := K) → matched (with_eventsys e2 s))).
Proof.
  intros Hi Hp [He Hacc] Hl Hne. destruct (kq_recreate_ok mypid e He) as (b & e' & E1 & S1 & T1 & C1). specialize (T1 Hl).
  assert (∀ k, accepted (eventsys s) k → accepted e' k) as Ha.
  { intros k Hk%Hacc. destruct Hk as [H1 H2]. split; [| done]. eapply Forall_impl; [exact H1 |]. intros pd. rewrite !kq_in_table_spec. lia. }
  exists b, e'. split; [done |]. split; [done |]. intros Hb. destruct (C1 Hb) as (P1 & Q1 & Z1).
  destruct (kq_readd_loop s (io_q s) e' Hi) as (e2 & E2 & T2 & K2 & C2); [done | done | done |].
  exists e2. split; [done |]. split; [split; [done |]; intros k Hk; by apply (kq_accepted_kept e'), Ha |].
  split; [rewrite <- P1; apply K2 |]. intros Hm. destruct C2 as [Hc Hcnt]; [done | intros k; by rewrite Z1 | |].
  - split; [done |]. intros k Hk. by rewrite Z1 in Hk.
  - split; [| done]. intros i f. cbn [eventsys with_eventsys]. rewrite Hcnt.
    assert (cnt e' i f = 0) as -> by (cbn; destruct (filt_of i); [apply Z1 | done]). done.
Qed.

Lemma kq_dispatch_ok os s F :
  inv s → polls_wait s → kq_answer_ok os →
  wp (_st_kq_dispatch os) (λ _ s', calm s s' ∧ (pid (eventsys s) = getpid os → kq_sound os → matched s → matched s')) F s.
Proof.
  intros Hi Hp Ha. unfold _st_kq_dispatch. apply wp_bind, wp_gets. cbn [id]. set (tsp := timespec s).
  destruct (decide (pid (eventsys s) = getpid os)) as [Hpid | Hne].
  { eapply wp_mono; [| | apply (retry_same 1 os tsp s F Hi Hp Ha Hpid)]; [| done]. cbn beta. naive_solver. }
  cbn [retry_kevent]. fold (retry_kevent 1 os tsp).
  destruct (waited_state os tsp s Hi Ha) as (a & e & E1 & He & Hd & Hpe & Hl & Hs).
  assert (inv (with_eventsys e s)) as Hi1 by (by apply with_eventsys_inv).
  apply wp_bind, (wp_ev _ a e); [exact E1 |]. destruct a as [l | err].
  { eapply wp_mono; [| | apply (events_ok l s e F Hi Hp He Hd Hs)]; [| done]. cbn beta. naive_solver. }
  apply wp_bind, wp_gets. cbn [id eventsys with_eventsys]. apply wp_if; intros _; [| by apply wp_ret].
  destruct (restarted s e (getpid os) Hi Hp He Hl) as (b & e' & E2 & He' & Hb); [congruence |].
  apply wp_bind, (wp_ev _ b e'); [exact E2 |]. change (with_eventsys e' (with_eventsys e s)) with (with_eventsys e' s).
  destruct b; cbn [negb]; [| apply wp_ret; split; [by split; [apply with_eventsys_inv |] | done]].
  destruct (Hb eq_refl) as (e2 & E3 & He2 & Hp2 & _). apply wp_bind, (wp_eq _ _ _ _ _ _ E3).
  eapply wp_mono; [| | apply (retry_same 0 os tsp (with_eventsys e2 s) F)]; try done; [| by apply with_eventsys_inv].
  cbn beta. intros _ s' [Hc _]. by split.
Qed.

#[export] Instance kq_dispatch_laws : DispatchLaws kdata (kq_os (K := K)).
Proof.
  refine {| answer_ok os _ := kq_answer_ok os |}.
  - intros os s Hi Hp Ha. eapply wp_mono; [| | by apply (kq_dispatch_ok os s (λ _, False))]; [| done].
    cbn beta. intros _ s' ((? & ? & ? & ?) & _). done.
  - done.
  - intros os. unfold dispatch, kq_dispatch, _st_kq_dispatch, grows.
    assert (∀ l : list kevent, pres (goes_on (E := kdata)) (kq_pass l)) as Hp.
    { intros l. unfold kq_pass. pres. apply pres_for_each; [apply _ |]. intros t. unfold kq_round, round. pres. }
    assert (∀ l : list Z, pres (goes_on (E := kdata)) (for_each readd l)) as Hr.
    { intros l. apply pres_for_each; [apply _ |]. intros t. unfold readd. pres. }
    assert (∀ n tsp, pres (goes_on (E := kdata)) (retry_kevent n os tsp)) as H.
    { induction n as [| n IH]; intros tsp; cbn [retry_kevent]; pres; auto. }
    pres.
Defined.

(** A process that does not fork, and a kernel whose [kevent] fails with [EINTR] only. *)
Record kq_here := KqHere { waits : Z → list key → Z → option (Z * Z) → K → kq_answer * K }.

Definition here (a : kq_here) s : kq_os := KqOs (pid (eventsys s)) (waits a).

#[export] Instance kq_here_dispatch : Dispatch kdata kq_here := {
  dispatch a := s <- gets id ;; _st_kq_dispatch (here a s)
}.

#[export] Instance kq_here_laws : DispatchLaws kdata kq_here.
Proof.
  refine {| answer_ok a _ := ∀ p, kq_answer_ok (KqOs p (waits a)) ∧ kq_sound (KqOs p (waits a)) |}.
  - intros a s Hi Hp Ha. apply wp_bind, wp_gets. exact (dispatch_ok (here a s) s Hi Hp (proj1 (Ha _))).
  - done.
  - intros a. unfold dispatch, kq_here_dispatch, grows. pres. exact (dispatch_grows (here a a0)).
Defined.

#[export] Instance kq_here_kept : DispatchKept kdata kq_here matched.
Proof.
  split. intros a s Hi Hp Ha Hm. apply wp_bind, wp_gets. cbn [id].
  eapply wp_mono; [| | apply (kq_dispatch_ok (here a s) s (λ _, False) Hi Hp (proj1 (Ha _)))]; [| done].
  cbn beta. intros _ s' [_ H]. apply H; [done | apply Ha | done].
Qed.
End system.

(** ** Tables as [_st_kq_init] leaves them *)
Lemma kq_init_ok {K : Type} `{!KqKernel K, !KqLaws K} close mypid mem dat lists k (e : @_st_kqdata K) k' :
  _st_kq_init close mypid mem dat lists k = (Ok e, k') →
  tables_ok e ∧ consistent e ∧ (∀ i f, cnt e i f = 0) ∧ pid e = mypid.
Proof.
  unfold _st_kq_init. destruct mem; [| done]. cbn [negb].
  destruct (kqueue k) as [[q |] k1] eqn:Ek; [| done]. destruct (dat && lists); [| done].
  intros [= <- <-]. apply kqueue_law in Ek as [Hq Hr].
  match goal with |- tables_ok ?x ∧ _ => set (e := x) end.
  assert (∀ f, entry e f = no_data) as He by (intros f; exact (entry_replicate (Z.to_nat FD_SETSIZE) f e)).
  assert (∀ k, kcnt e k = 0) as Hc by (intros x; unfold kcnt; by rewrite He).
  split; [| split; [| split; [intros i f; cbn; destruct (filt_of i); [apply Hc | done] | done]]].
  - split; [done | done | done |]. intros x. unfold asked, kreg. cbn. rewrite Hr. set_solver.
  - split; [intros f; by rewrite He |]. intros x. rewrite Hc. lia.
Qed.

(** C21: when [kevent] reports events, [_st_kq_dispatch] makes exactly those polling threads runnable that have a descriptor
    with an event of a filter they asked for, or with an error, in the order of the I/O queue, stores what occurred in [revents] and
    leaves the others waiting; although every reported filter is gone from the kqueue and deletions may fail, every filter
    that is still waited for is registered afterwards. *)
Theorem kq_notifies_ready {K : Type} `{!KqKernel K, !KqLaws K} (os : kq_os (K := K)) s ev fired k :
  inv s → polls_wait s → matched s → kq_answer_ok os →
  let e := eventsys s in
  kevent_wait os (kq e) (addlist e) (evtlist_size e) (timespec s) (kernel e) = (Kq_events (ev :: fired), k) →
  ∃ s', _st_kq_dispatch os s = (Ok tt, s') ∧ inv s' ∧ all_told (reported_look (ev :: fired)) s s' ∧
    (∀ t, ready (reported_look (ev :: fired)) s t = true ↔ polled_event (ev :: fired) s t) ∧ matched s' ∧
    ∀ f g, 0 < wanted s' (column g) f → (f, g) ∈ kreg (eventsys s').
Proof.
  intros Hi Hp Hm Ha e Hw. set (l := ev :: fired). destruct (waited_state os (timespec s) s Hi Ha) as (a & e' & E1 & He & Hd & _ & Hadd & Hs).
  assert (a = Kq_events l) as ->.
  { unfold kq_wait in E1. unfold e in Hw. rewrite Hw in E1. by injection E1 as <- _. }
  pose proof (events_ok l s e' (λ _, False) Hi Hp He Hd Hs) as H.
  assert (_st_kq_dispatch os s = kq_pass l (with_eventsys e' s)) as ->.
  { unfold _st_kq_dispatch, retry_kevent. unfold bind at 1. cbn [gets id]. unfold bind at 1, on_ev. by rewrite E1. }
  unfold wp in H. cbn [l] in H. destruct (kq_pass l (with_eventsys e' s)) as [[[] | | | |] s'] eqn:Ep; try done.
  destruct H as ((Hi' & _) & Hm' & Ht). exists s'. split; [done |]. split; [done |]. split; [by apply Ht |].
  split; [intros t; apply kq_ready_polled |]. specialize (Hm' Hm). split; [done |]. destruct Hm' as [Hcnt [_ Hwait]].
  apply kq_pass_adds in Ep. intros f g Hpos.
  assert (kcnt (eventsys s') (f, g) = wanted s' (column g) f) as Hk by (rewrite <- Hcnt; by destruct g).
  rewrite <- Hk in Hpos. specialize (Hwait _ Hpos). unfold asked in Hwait.
  apply elem_of_union in Hwait as [| Hin]; [done |]. unfold same_adds in Ep. cbn [eventsys with_eventsys] in Ep. rewrite (Ep I), Hadd in Hin. set_solver.
Qed.

(** C22: in a process that does not fork, and while [kevent] fails only with [EINTR] ([kq_sound]): from [st_init] on, whatever the
    threads do and whichever events are reported, a descriptor's count for a filter is the number of entries of waiting polls that ask
    for it, and every filter with a waiting poll is registered or will be with the next [kevent].  After another failure it may be
    neither ([failed_kevent_loses]). *)
Theorem kq_polls_registered {K : Type} `{!KqKernel K, !KqLaws K} idle primordial clock (e : @_st_kqdata K) s :
  idle ≠ primordial → tables_ok e → (∀ i f, cnt e i f = 0) → consistent e →
  rtc (step (A := kq_here)) (st_init idle primordial clock e) s →
  ∀ f g, kcnt (eventsys s) (f, g) = wanted s (column g) f ∧
    (0 < wanted s (column g) f → (f, g) ∈ kreg (eventsys s) ∨ (f, g) ∈ addlist (eventsys s)).
Proof.
  intros Hne Hev H0 Hc Hr f g. assert (ok (st_init idle primordial clock e)) as Hok by (by apply init_ok).
  destruct (steps_kept (A := kq_here) matched _ _ Hr Hok (init_matched idle primordial clock e H0 Hc)) as [Hcnt [_ Hw]].
  assert (kcnt (eventsys s) (f, g) = wanted s (column g) f) as Hk by (rewrite <- Hcnt; by destruct g).
  split; [done |]. rewrite <- Hk. intros Hpos%Hw. unfold asked in Hpos. by rewrite elem_of_union, elem_of_list_to_set in Hpos.
Qed.

(** [addlist_cnt] is reset before the result of [kevent] is looked at: when the call fails for another reason than [EINTR], the dispatch
    returns as if nothing had happened, and a filter that was only in [addlist] is neither registered nor will it be, while the poll that
    waits for it stays on the I/O queue. *)
Theorem failed_kevent_loses {K : Type} `{!KqKernel K, !KqLaws K} (os : kq_os (K := K)) s err kn k :
  let e := eventsys s in
  pid e = getpid os → kevent_wait os (kq e) (addlist e) (evtlist_size e) (timespec s) (kernel e) = (Kq_failed err, kn) →
  k ∉ on_kq (kq e) kn →
  ∃ e', _st_kq_dispatch os s = (Ok tt, with_eventsys e' s) ∧ kcnt e' k = kcnt e k ∧ k ∉ asked e'.
Proof.
  intros e Hpid Hw Hk. exists (with_addlist [] (with_kernel kn e)). split; [| split; [done |]].
  - unfold _st_kq_dispatch, retry_kevent. unfold bind at 1. cbn [gets id]. unfold bind at 1, on_ev, kq_wait. fold e. rewrite Hw.
    unfold bind at 1. cbn [gets id eventsys with_eventsys]. change (pid (with_addlist [] (with_kernel kn e))) with (pid e).
    by rewrite Hpid, Z.eqb_refl, andb_false_r.
  - unfold asked, kreg. cbn. set_solver.
Qed.

(** A forked process has no kqueue: [kevent] fails.  If a new one can be made and there is memory, the same dispatch goes on with a
    kqueue for which every filter some poll waits for is in [addlist], and waits only now. *)
Theorem kq_fork_restarts {K : Type} `{!KqKernel K, !KqLaws K} (os : kq_os (K := K)) s kn q kn' :
  inv s → polls_wait s → kq_answer_ok os → pid (eventsys s) ≠ getpid os → has_memory (K := K) →
  let e := eventsys s in
  kevent_wait os (kq e) (addlist e) (evtlist_size e) (timespec s) (kernel e) = (Kq_failed EBADF, kn) →
  kqueue kn = (Some q, kn') →
  ∃ e', _st_kq_dispatch os s = retry_kevent 1 os (timespec s) (with_eventsys e' s) ∧
    inv (with_eventsys e' s) ∧ matched (with_eventsys e' s) ∧ pid e' = getpid os.
Proof.
  intros Hi Hp Ha Hne Hmem e Hw Hk. destruct (waited_state os (timespec s) s Hi Ha) as (a & e1 & E1 & He & Hd & Hpe & Hl & _).
  assert (a = Kq_failed EBADF ∧ kernel e1 = kn) as [-> Hkn].
  { unfold kq_wait in E1. unfold e in Hw. rewrite Hw in E1. by injection E1 as <- <-. }
  destruct (restarted s e1 (getpid os) Hi Hp He Hl) as (b & e' & E2 & He' & Hb); [congruence |].
  assert (b = true) as ->. { unfold kq_recreate in E2. rewrite Hkn, Hk in E2. by injection E2 as <-. }
  destruct (Hb eq_refl) as (e2 & E3 & He2 & Hp2 & Hm). exists e2.
  split; [| split; [by apply with_eventsys_inv | by split; [apply Hm |]]].
  assert (∀ B (c : M (@_st_kqdata K) B) x e0 e', c e0 = (Ok x, e') →
    on_ev c (with_eventsys e0 s) = (Ok x, with_eventsys e' s)) as Hev by (intros B c x e0 e3 Hc; unfold on_ev; cbn; by rewrite Hc).
  unfold _st_kq_dispatch. unfold bind at 1. cbn [gets id]. remember (timespec s) as tsp.
  assert (s = with_eventsys (eventsys s) s) as Es by (by destruct s). cbn [retry_kevent]. rewrite Es at 1.
  rewrite (bind_ok _ _ _ _ _ (Hev _ _ _ _ _ E1)). unfold bind at 1. cbn [gets id eventsys with_eventsys].
  rewrite Hpe, (proj2 (Z.eqb_neq _ _) Hne). cbn [negb andb]. change (EBADF =? EBADF) with true. cbn [andb].
  rewrite (bind_ok _ _ _ _ _ (Hev _ _ _ _ _ E2)). cbn [negb]. by rewrite (bind_ok _ _ _ _ _ E3).
Qed.

(** ** A kernel: kqueues by their descriptors *)
Notation kqueues := (gmap Z (gset key)).

Definition filters_of (q : Z) (k : kqueues) : gset key := if q <? 0 then ∅ else default ∅ (k !! q).

#[export] Instance kqueues_kernel : KqKernel kqueues := {
  kqueue k := let q := 3 + Z.of_nat (size k) in (Some q, <[q := ∅]> k);
  kevent_delete q l k :=
    let m := filters_of q k in
    (if forallb (λ x, bool_decide (x ∈ m)) l then Kq_ok else Kq_error, if q <? 0 then k else <[q := m ∖ list_to_set l]> k);
  retries _ := O;
  kq_realloc _ k := (true, k);
}.

#[export] Instance kqueues_laws : KqLaws kqueues.
Proof.
  refine {| on_kq := filters_of |}; try done.
  - intros k q k' [= <- <-]. split; [lia |]. unfold filters_of. rewrite (proj2 (Z.ltb_ge _ _)) by lia. by rewrite lookup_insert_eq.
  - intros q l k r k' [= <- <-]. unfold filters_of. destruct (q <? 0); [set_solver |]. rewrite lookup_insert_eq. cbn. set_solver.
  - intros q l k k' H. cbn in H. by destruct (forallb _ _).
  - intros n k b k' q [= <- <-]. done.
Defined.

(** ** Two threads wait for the descriptors 5 and 7, and the second is readable. *)
#[export] Instance kq_checks : Checks (@_st_kqdata kqueues) (kq_here (K := kqueues)).
Proof.
  refine {| validb := forallb (λ pd, fd pd <? 2 ^ 30); answerb _ _ := false |}; [| done].
  intros fds H. apply Forall_forall. intros pd Hpd. apply Z.ltb_lt.
  by apply (proj1 (forallb_forall _ _) H pd), list_elem_of_In.
Defined.

Definition kq_start : @_st_kqdata kqueues :=
  match _st_kq_init (λ _ k, k) 77 true true true ∅ with (Ok e, _) => e | (_, k) => Kqdata [] 0 [] 0 [] 0 0 0 k end.

Lemma kq_start_ok : tables_ok kq_start ∧ consistent kq_start ∧ (∀ i f, cnt kq_start i f = 0) ∧ pid kq_start = 77.
Proof. apply (kq_init_ok (λ _ k, k) 77 true true true ∅ kq_start (kernel kq_start)). vm_compute. reflexivity. Qed.

Definition kq_polls : list (@event (kq_here (K := kqueues))) :=
  [Create 3; Poll [Pollfd 5 POLLIN 0] ST_UTIME_NO_TIMEOUT; Resume;
   Poll [Pollfd 7 (Z.lor POLLIN POLLOUT) 0; Pollfd 5 POLLIN 0] 100].

Definition kq_two : @_st_vp (@_st_kqdata kqueues) := reached (A := kq_here) kq_start kq_polls.

Lemma kq_two_run : is_Some (run_events kq_polls (init kq_start)).
Proof. vm_compute. by eexists. Qed.

Lemma kq_two_inv : inv kq_two ∧ polls_wait kq_two ∧ matched kq_two.
Proof.
  assert (inv kq_two) as Hi by (apply reached_inv; [apply kq_start_ok | apply kq_two_run]).
  split; [exact Hi |]. split; [apply idle_polls_wait; [exact Hi | vm_compute; done | vm_compute; done] |].
  apply (steps_kept (A := kq_here) matched (init kq_start)).
  - apply reached_rtc, kq_two_run.
  - apply init_ok; [done | apply kq_start_ok].
  - apply init_matched; apply kq_start_ok.
Qed.

(** A kernel that reports, of the filters that are registered or added, those in [ready]; [gone]: the kqueue of the
    parent process, if the process was forked. *)
Definition kq_reports (mypid : Z) (gone : option Z) (events : list kevent) : kq_os (K := kqueues) :=
  KqOs mypid (λ q adds _ _ k,
    if (q <? 0) || bool_decide (gone = Some q) then (Kq_failed EBADF, k) else
    let m := filters_of q k ∪ list_to_set adds in
    let l := filter (λ ev, key_of ev ∈ m) events in
    (Kq_events l, <[q := m ∖ list_to_set (key_of <$> l)]> k)).

Lemma kq_reports_ok mypid gone events : kq_answer_ok (kq_reports mypid gone events).
Proof.
  intros q adds size tsp k a k' H. cbn in H. destruct (Z.ltb_spec q 0); cbn [orb] in H.
  { injection H as <- <-. constructor; [done | set_solver]. }
  case_bool_decide; injection H as <- <-; [constructor; [done | set_solver] |].
  assert (∀ m, filters_of q (<[q := m]> k) = m) as Hq.
  { intros m. unfold filters_of. rewrite (proj2 (Z.ltb_ge _ _)) by lia. by rewrite lookup_insert_eq. }
  rewrite Hq. constructor; [| done | set_solver]. intros ev Hev. by apply list_elem_of_filter in Hev as [? _].
Qed.

Definition seven_read : kq_os (K := kqueues) := kq_reports 77 None [Kevent 7 EVFILT_READ 0 1].

Lemma kq_notifies_ready_witness :
  ∃ s', _st_kq_dispatch seven_read kq_two = (Ok tt, s') ∧ run_q s' = [3] ∧ io_q s' = [2] ∧
    pollqs s' !! 3 = Some (Pollq [Pollfd 7 5 1; Pollfd 5 1 0] false) ∧ (5, EVFILT_READ) ∈ kreg (eventsys s').
Proof.
  destruct kq_two_inv as (Hi & Hp & Hm).
  destruct (kq_notifies_ready seven_read kq_two (Kevent 7 EVFILT_READ 0 1) []
    {[3 := {[(5, EVFILT_READ); (7, EVFILT_WRITE)]}]} Hi Hp Hm) as (s' & E1 & _ & (Er & Eio & Ef) & _ & _ & Hreg).
  - apply kq_reports_ok.
  - vm_compute. reflexivity.
  - exists s'. split; [exact E1 |]. split; [rewrite Er; vm_compute; reflexivity |].
    split; [rewrite Eio; vm_compute; reflexivity |].
    split; [rewrite (Ef 3); [vm_compute; reflexivity |]; vm_compute; right; left |].
    apply Hreg. assert (s' = (_st_kq_dispatch seven_read kq_two).2) as -> by (by rewrite E1). vm_compute. reflexivity.
Defined.

(** No memory for the two filters of [kq_two] that wait in [addlist]: the thread 3 is never told that 7 is readable. *)
Definition kq_no_memory : kq_os (K := kqueues) := KqOs 77 (λ _ _ _ _ k, (Kq_failed 12, k)).

Example poll_forgotten :
  let '(r, s) := _st_kq_dispatch kq_no_memory kq_two in
  r = Ok tt ∧ io_q s = [2; 3] ∧ wanted s Rd 7 = 1 ∧ kcnt (eventsys s) (7, EVFILT_READ) = 1 ∧
  (7, EVFILT_READ) ∈ asked (eventsys kq_two) ∧ (7, EVFILT_READ) ∉ asked (eventsys s).
Proof.
  destruct (failed_kevent_loses kq_no_memory kq_two 12 (kernel (eventsys kq_two)) (7, EVFILT_READ)) as (e' & E1 & _ & Hn).
  - vm_compute. reflexivity.
  - vm_compute. reflexivity.
  - apply (bool_decide_unpack _). vm_compute. exact I.
  - rewrite E1. assert (e' = eventsys (_st_kq_dispatch kq_no_memory kq_two).2) as -> by (by rewrite E1).
    split_and!; [done | vm_compute; reflexivity.. | | exact Hn]. apply (bool_decide_unpack _). vm_compute. exact I.
Qed.

Lemma kq_polls_registered_witness :
  wanted kq_two Rd 5 = 2 ∧ ((5, EVFILT_READ) ∈ kreg (eventsys kq_two) ∨ (5, EVFILT_READ) ∈ addlist (eventsys kq_two)).
Proof.
  destruct (kq_polls_registered 1 2 1000 kq_start kq_two) with (f := 5) (g := EVFILT_READ) as [_ H];
    [done | apply kq_start_ok | apply kq_start_ok | apply kq_start_ok | apply reached_rtc, kq_two_run |].
  split; [vm_compute; reflexivity |]. apply H. vm_compute. reflexivity.
Defined.

Lemma kq_fork_restarts_witness :
  ∃ e', _st_kq_dispatch (kq_reports 78 (Some 3) []) kq_two =
      retry_kevent 1 (kq_reports 78 (Some 3) []) (timespec kq_two) (with_eventsys e' kq_two) ∧
    matched (with_eventsys e' kq_two) ∧ pid e' = 78.
Proof.
  destruct kq_two_inv as (Hi & Hp & _).
  destruct (kq_fork_restarts (kq_reports 78 (Some 3) []) kq_two {[3 := ∅]} 4 {[3 := ∅; 4 := ∅]} Hi Hp) as (e' & E1 & _ & Hm & Hpid).
  - apply kq_reports_ok.
  - vm_compute. done.
  - done.
  - vm_compute. reflexivity.
  - vm_compute. reflexivity.
  - exact (ex_intro _ e' (conj E1 (conj Hm Hpid))).
Defined.
