(* ===== verification/StInit.v ===== *)
(** * Starting State Threads: st_init and what may be set before it

    [st_init] of sched.c step by step, with [_st_io_init] of io.c, the choice of the event
    system of event.c and the time function of sync.c.  Sync.v has the state it leads to. *)

From stdpp Require Import base list sets gmap.
From Stdlib Require Import Lia ZArith.
From S2P Require Import Prelude.
From S2P Require Import Bytes.
From S2P Require Import TimeoutHeap.
From S2P Require Import Vp.
From S2P Require Import Sync.
From S2P Require Import Interest.
From S2P Require Import SelectEv.

Local Open Scope Z_scope.

Definition ST_EVENTSYS_DEFAULT : Z := 0.
Definition ST_EVENTSYS_SELECT : Z := 1.
Definition ST_EVENTSYS_POLL : Z := 2.
Definition ST_EVENTSYS_ALT : Z := 3.

Inductive event_system := Select_sys | Poll_sys | Epoll_sys.

Definition sys_val (k : event_system) : Z :=
  match k with Select_sys => ST_EVENTSYS_SELECT | Poll_sys => ST_EVENTSYS_POLL | Epoll_sys => ST_EVENTSYS_ALT end.

Definition sys_name (k : event_system) : list byte :=
  match k with Select_sys => cstr "select" | Poll_sys => cstr "poll" | Epoll_sys => cstr "epoll" end.

(** [errno]: after [epoll_ctl] of a descriptor that is not one. *)
Definition ENOSYS : Z := 38.
Definition _st_epoll_is_supported (errno : Z) : bool := negb (errno =? ENOSYS).

Section init.
Context {E : Type} `{!EventSys E}.
Notation vp := (@_st_vp E).

(** [_st_this_vp]: [None] as long as there is nothing but zeroes in it. *)
Record lib := Lib {
  _st_eventsys : option event_system;
  _st_osfd_limit : Z;
  _st_utime : option Z;
  _st_this_vp : option vp;
}.
Implicit Types (l : lib) (k : event_system).

Definition set_eventsys k : M lib unit :=
  modify (λ l, Lib (Some k) (_st_osfd_limit l) (_st_utime l) (_st_this_vp l)).

(** [supported]: [_st_epoll_is_supported]; when epoll is not, nothing is set and 0 is returned. *)
Definition st_set_eventsys (supported : bool) (eventsys : Z) : M lib unit :=
  l <- gets id ;;
  match _st_eventsys l with
  | Some _ => fail
  | None =>
      if eventsys =? ST_EVENTSYS_DEFAULT then set_eventsys Select_sys else
      if eventsys =? ST_EVENTSYS_SELECT then set_eventsys Select_sys else
      if eventsys =? ST_EVENTSYS_POLL then set_eventsys Poll_sys else
      if eventsys =? ST_EVENTSYS_ALT then (if supported then set_eventsys Epoll_sys else ret tt) else
      fail
  end.

Definition st_get_eventsys l : Z := match _st_eventsys l with Some k => sys_val k | None => -1 end.

Definition st_get_eventsys_name l : list byte := match _st_eventsys l with Some k => sys_name k | None => cstr "" end.

Definition active l : bool := match _st_this_vp l with Some v => negb (active_count v =? 0) | None => false end.

Definition st_set_utime_function (func : option Z) : M lib unit :=
  l <- gets id ;;
  if active l then fail
  else modify (λ l, Lib (_st_eventsys l) (_st_osfd_limit l) func (_st_this_vp l)).

(** [tv]: the seconds and microseconds of [gettimeofday]; [call]: the function that was set. *)
Definition st_utime (tv : Z * Z) (call : Z → Z) l : Z :=
  match _st_utime l with
  | None => wrap 64 (tv.1 * 1000000 + tv.2)
  | Some f => call f
  end.

(** [rlim_max]: the hard limit that [getrlimit] reports, [None] when the call fails. *)
Definition _st_io_init (fd_getlimit : event_system → Z) (sigaction_ok setrlimit_ok : bool) (rlim_max : option Z) : M lib unit :=
  if negb sigaction_ok then fail else
  match rlim_max with
  | None => fail
  | Some rlim_max =>
      l <- gets id ;;
      match _st_eventsys l with
      | None => lift Undef
      | Some k =>
          let fdlim := fd_getlimit k in
          let rlim_max := if (0 <? fdlim) && (fdlim <? rlim_max) then fdlim else rlim_max in
          if negb setrlimit_ok then fail else
          modify (λ l, Lib (_st_eventsys l) (swrap 32 rlim_max) (_st_utime l) (_st_this_vp l))
      end
  end.

Definition st_getfdlimit l : Z := _st_osfd_limit l.

(** [memset] and [init] of the event system *)
Definition blank (clock : Z) (e : E) : vp := Vp ∅ 0 0 0 clock [] [] [] (SleepQ Null 0) ∅ ∅ ∅ e 0 0.

Definition with_idle_thread v (s : vp) : vp :=
  Vp (threads s) v (this_thread s) (active_count s) (last_clock s) (run_q s) (io_q s) (zombie_q s) (sleep_q s)
    (pollqs s) (conds s) (mutexes s) (eventsys s) (curr_time s) (last_tset s).

(** The idle thread is created like any other and then taken out again. *)
Definition create_idle (addr : option Z) : M vp unit :=
  t <- st_thread_create addr false None ;;
  modify (with_idle_thread t) ;;
  upd t (with_flags _ST_FL_IDLE_THREAD) ;;
  modify (λ s, with_active_count (active_count s - 1) s) ;;
  _ST_DEL_RUNQ t.

Definition create_primordial (addr : option Z) : M vp unit :=
  match addr with
  | None => fail
  | Some p =>
      check (λ s, bool_decide (p ∉ dom (threads s))) ;;
      modify (λ s, with_threads (<[p := Thread RUNNING _ST_FL_PRIMORDIAL 0 None None]> (threads s)) s) ;;
      modify (with_this_thread p) ;;
      modify (λ s, with_active_count (active_count s + 1) s)
  end.

(** [init]: what the event system's [init] makes, [None] for -1. *)
Definition st_init (fd_getlimit : event_system → Z) (init : event_system → option E)
    (sigaction_ok setrlimit_ok : bool) (rlim_max : option Z) (tv : Z * Z) (call : Z → Z)
    (idle primordial : option Z) : M lib unit :=
  l <- gets id ;;
  if active l then ret tt else
  (λ l, (Ok tt, (st_set_eventsys true ST_EVENTSYS_DEFAULT l).2)) ;;
  _st_io_init fd_getlimit sigaction_ok setrlimit_ok rlim_max ;;
  modify (λ l, Lib (_st_eventsys l) (_st_osfd_limit l) (_st_utime l) None) ;;
  l <- gets id ;;
  match _st_eventsys l with
  | None => lift Undef
  | Some k =>
      match init k with
      | None => fail
      | Some e =>
          let '(o, v) := (create_idle idle ;; create_primordial primordial) (blank (st_utime tv call l) e) in
          modify (λ l, Lib (_st_eventsys l) (_st_osfd_limit l) (_st_utime l) (Some v)) ;;
          lift o
      end
  end.

(** ** The state after [st_init] *)
Lemma thread_create_run t (v : vp) :
  t ∉ dom (threads v) → linked t v = false →
  st_thread_create (Some t) false None v =
  (Ok t, with_run_q (run_q v ++ [t]) (with_active_count (active_count v + 1)
    (with_threads (<[t := Thread RUNNABLE 0 0 None (Some Start)]> (threads v)) v))).
Proof.
  intros Ht Hl. unfold st_thread_create, bind, check. rewrite (bool_decide_true _ Ht).
  unfold ret, modify, _ST_ADD_RUNQ, bind, check. cbn -[linked].
  change (linked t (with_active_count _ _)) with (linked t v). by rewrite Hl.
Qed.

(** What [create_idle] leaves: the idle thread, on no queue, and not counted. *)
Definition only_idle idle clock (e : E) : vp :=
  Vp {[idle := Thread RUNNABLE _ST_FL_IDLE_THREAD 0 None (Some Start)]} idle 0 0 clock [] [] [] (SleepQ Null 0) ∅ ∅ ∅ e 0 0.

Lemma create_idle_ok idle clock (e : E) : create_idle (Some idle) (blank clock e) = (Ok tt, only_idle idle clock e).
Proof.
  unfold create_idle. rewrite (bind_ok _ _ _ _ _ (thread_create_run idle (blank clock e) ltac:(by apply not_elem_of_dom)
    ltac:(by apply bool_decide_false, not_elem_of_nil))).
  unfold bind, modify, upd, the_thread, _ST_DEL_RUNQ, check, remove, bind. cbn -[bool_decide filter].
  rewrite lookup_insert_eq. cbn -[bool_decide filter]. rewrite bool_decide_true by (by left).
  unfold only_idle. rewrite insert_insert_eq. rewrite filter_cons_False by naive_solver. done.
Qed.

Lemma create_threads_ok idle primordial clock (e : E) :
  idle ≠ primordial →
  (create_idle (Some idle) ;; create_primordial (Some primordial)) (blank clock e) =
  (Ok tt, Sync.st_init idle primordial clock e).
Proof.
  intros Hne. rewrite (bind_ok _ _ _ _ _ (create_idle_ok idle clock e)).
  unfold create_primordial, bind, check. rewrite bool_decide_true.
  - assert (∀ x y : _st_thread, <[primordial := x]> {[idle := y]} = (<[idle := y]> {[primordial := x]} : gmap Z _st_thread)) as Hm
      by (intros x y; rewrite <- !insert_empty; by apply insert_insert_ne, not_eq_sym).
    unfold modify, Sync.st_init, only_idle. cbn [threads with_threads]. by rewrite Hm.
  - cbn. rewrite dom_singleton. set_solver.
Qed.

(** The event system that is used. *)
Definition chosen l : event_system := default Select_sys (_st_eventsys l).

Lemma default_eventsys l supported :
  (st_set_eventsys supported ST_EVENTSYS_DEFAULT l).2 = Lib (Some (chosen l)) (_st_osfd_limit l) (_st_utime l) (_st_this_vp l).
Proof. destruct l as [[k |] n u v]; done. Qed.

Definition lower_limit (fdlim rlim_max : Z) : Z := if (0 <? fdlim) && (fdlim <? rlim_max) then fdlim else rlim_max.

Lemma io_init_ok limit sigaction_ok setrlimit_ok rlim_max l k :
  _st_eventsys l = Some k →
  _st_io_init limit sigaction_ok setrlimit_ok rlim_max l =
  match rlim_max with
  | Some m => if sigaction_ok && setrlimit_ok
      then (Ok tt, Lib (Some k) (swrap 32 (lower_limit (limit k) m)) (_st_utime l) (_st_this_vp l)) else (Fail, l)
  | None => (Fail, l)
  end.
Proof.
  intros Hk. unfold _st_io_init, lower_limit. destruct sigaction_ok, setrlimit_ok, rlim_max; try done; cbn;
    unfold bind; cbn; rewrite Hk; cbn; by rewrite ?Hk.
Qed.
End init.

(** C31: [st_init] leaves the library with the event system that was chosen before, or select, initialised,
    an idle thread on no queue and the primordial thread running; the number of descriptors is
    limited to what the event system takes.  From then on another call changes nothing and the event
    system and the clock can no longer be set.  A call that fails leaves no active thread, so that it can be made again, and
    the idle thread only if there was no memory for the primordial one; a call that is made again has the same results, whatever
    the one before left. *)
Theorem st_init_starts {E : Type} `{!EventSys E} limit (init : event_system → option E) (sigaction_ok setrlimit_ok : bool)
    rlim_max tv call idle primordial l :
  active l = false → (∀ t, idle = Some t → primordial ≠ Some t) →
  match st_init limit init sigaction_ok setrlimit_ok rlim_max tv call idle primordial l with
  | (Ok _, l') => ∃ e t p, init (chosen l) = Some e ∧ idle = Some t ∧ primordial = Some p ∧
      _st_eventsys l' = Some (chosen l) ∧ _st_this_vp l' = Some (Sync.st_init t p (st_utime tv call l) e) ∧
      (0 < limit (chosen l) < 2 ^ 31 → (∀ m, rlim_max = Some m → 0 <= m) → st_getfdlimit l' <= limit (chosen l)) ∧
      (∀ limit' init' b b' m tv' call' i j, st_init limit' init' b b' m tv' call' i j l' = (Ok tt, l')) ∧
      (∀ b x, st_set_eventsys b x l' = (Fail, l')) ∧ ∀ f, st_set_utime_function f l' = (Fail, l')
  | (o, l') => o = Fail ∧ active l' = false ∧
      match _st_this_vp l' with
      | None => True
      | Some v => _st_this_vp l = Some v ∨ (∃ clock e, v = blank clock e) ∨
          primordial = None ∧ ∃ t clock e, idle = Some t ∧ v = only_idle t clock e
      end
  end.
Proof.
  intros Hl Hne. unfold st_init. unfold bind at 1. cbn [gets id]. rewrite Hl.
  unfold bind at 1. rewrite default_eventsys. set (l1 := Lib _ _ _ _). unfold bind at 1.
  assert (∀ l', _st_this_vp l' = _st_this_vp l → active l' = false) as Hact by (unfold active; by intros l' ->).
  assert (Fail = @Fail unit ∧ active l1 = false ∧ match _st_this_vp l1 with
      | None => True
      | Some v => _st_this_vp l = Some v ∨ (∃ clock e, v = blank clock e) ∨
          primordial = None ∧ ∃ t clock e, idle = Some t ∧ v = only_idle t clock e
      end) as Hsame.
  { split; [done |]. split; [by apply Hact |]. cbn. destruct (_st_this_vp l); [by left | done]. }
  rewrite (io_init_ok limit _ _ _ l1 (chosen l)) by done. destruct rlim_max as [m |]; [| done].
  destruct (sigaction_ok && setrlimit_ok); [| done]. unfold bind at 1. cbn [modify]. unfold bind at 1. cbn [gets id _st_eventsys].
  destruct (init (chosen l)) as [e |] eqn:Ei; [| done]. destruct idle as [t |].
  2: { cbn. split; [done |]. split; [done |]. right. left. by eexists _, _. }
  destruct primordial as [p |].
  2: { rewrite (bind_ok _ _ _ _ _ (create_idle_ok t _ e)). cbn. split; [done |]. split; [done |]. right. right.
       split; [done |]. by eexists t, _, _. }
  rewrite create_threads_ok by (intros ->; by apply (Hne p)). cbn.
  exists e, t, p. do 5 (split; [done |]). split; [| done].
  intros H0 Hm. specialize (Hm m eq_refl). unfold st_getfdlimit. cbn [_st_osfd_limit]. unfold lower_limit.
  destruct (Z.ltb_spec 0 (limit (chosen l))), (Z.ltb_spec (limit (chosen l)) m); cbn [andb]; try lia; by rewrite swrap_small by lia.
Qed.

(** ** The server: nothing is set before, and the hard limit is 4096 *)
Definition only_select (k : event_system) : option _st_seldata :=
  match k, _st_select_init true with Select_sys, Ok e => Some e | _, _ => None end.

Definition not_started : @lib _st_seldata := Lib None (-1) None None.

Definition started : outcome unit * lib :=
  st_init (λ _, _st_select_fd_getlimit) only_select true true (Some 4096) (1700000000, 5) id (Some 1) (Some 2) not_started.

Lemma st_init_starts_witness :
  started.1 = Ok tt ∧ st_get_eventsys started.2 = ST_EVENTSYS_SELECT ∧ st_getfdlimit started.2 <= FD_SETSIZE ∧
  st_set_eventsys true ST_EVENTSYS_ALT started.2 = (Fail, started.2).
Proof.
  pose proof (st_init_starts (λ _, _st_select_fd_getlimit) only_select true true (Some 4096) (1700000000, 5) id (Some 1) (Some 2)
    not_started eq_refl) as H.
  assert (∀ t, Some 1 = Some t → Some 2 ≠ Some t) as Hne by (by intros t [= <-]).
  specialize (H Hne). match type of H with context [st_init ?a ?b ?c ?d ?e ?f ?g ?h ?i ?j] => change (st_init a b c d e f g h i j) with started in H end.
  assert (started.1 = Ok tt) as E1 by (vm_compute; reflexivity).
  destruct started as [o l']. cbn [fst] in E1. subst o.
  destruct H as (e & t & p & _ & _ & _ & Hs & _ & Hlim & _ & Hset & _). split; [done |]. split.
  - unfold st_get_eventsys. cbn [snd]. by rewrite Hs.
  - split; [apply Hlim; [done | by intros m [= <-]] | apply Hset].
Defined.

(** Without memory for the primordial thread the idle thread stays behind; the next call forgets it, and nothing frees it. *)
Example idle_thread_is_lost :
  let try idle primordial := st_init (λ _, _st_select_fd_getlimit) only_select true true (Some 4096) (1700000000, 5) id idle primordial in
  let l1 := (try (Some 1) None not_started).2 in
  let l2 := (try (Some 3) (Some 4) l1).2 in
  (try (Some 1) None not_started).1 = Fail ∧ (try (Some 3) (Some 4) l1).1 = Ok tt ∧
  (v ← _st_this_vp l1; threads v !! 1) ≠ None ∧ (v ← _st_this_vp l2; threads v !! 1) = None.
Proof. cbv zeta. split_and!; try (vm_compute; reflexivity). vm_compute. discriminate. Qed.
