(* ===== verification/EpollEv.v ===== *)
(** * event.c: the epoll event system

    The kernel and the allocator are parameters ([EpollKernel]).  Events that fired are handled in two
    passes: while the polls are told, [_st_epoll_pollset_del] leaves descriptors that
    fired alone, and the last loop of the dispatch brings the kernel up to date. *)

From stdpp Require Import base list sets gmap fin_maps.
From Stdlib Require Import Lia ZArith.
From S2P Require Import Prelude.
From S2P Require Import Bytes.
From S2P Require Import TimeoutHeap.
From S2P Require Import Vp.
From S2P Require Import Sync.
From S2P Require Import Fair.
From S2P Require Import Sched.
From S2P Require Import SchedOps.
From S2P Require Import SchedCalls.
From S2P Require Import SchedSteps.
From S2P Require Import IoQueue.
From S2P Require Import Interest.
From S2P Require Import Rounds.

Local Open Scope Z_scope.

(** sys/epoll.h *)
Definition EPOLLIN : Z := 0x001.
Definition EPOLLPRI : Z := 0x002.
Definition EPOLLOUT : Z := 0x004.
Definition EPOLLERR : Z := 0x008.
Definition EPOLLHUP : Z := 0x010.

Inductive ctl_op := EPOLL_CTL_ADD | EPOLL_CTL_DEL | EPOLL_CTL_MOD.

#[export] Instance ctl_op_eq_dec : EqDecision ctl_op.
Proof. solve_decision. Defined.

(** 0, or -1 with [errno] [EEXIST], or -1 with another. *)
Inductive ctl_result := Ctl_ok | Ctl_exist | Ctl_error.

#[export] Instance ctl_result_eq_dec : EqDecision ctl_result.
Proof. solve_decision. Defined.

(** The system calls, and [realloc] for a number of entries. *)
Class EpollKernel (K : Type) := {
  epoll_create : Z → K → option Z * K;
  epoll_ctl : Z → ctl_op → Z → Z → K → ctl_result * K;
  close_epoll : Z → K → K;
  realloc : Z → K → bool * K;
}.

(** [rd_ref_cnt], [wr_ref_cnt] and [ex_ref_cnt] by the event. *)
Record _epoll_fd_data_t := FdData { ref_cnt : interest → Z; fd_revents : Z }.

Definition ST_EPOLL_EVTLIST_SIZE : Z := 4096.

(** The epoll set of a descriptor maps what is registered to its events.  [EPOLL_CTL_ADD]
    and [EPOLL_CTL_MOD] may fail for want of memory, [EPOLL_CTL_DEL] only if there is nothing to
    delete (epoll_ctl(2)). *)
Inductive ctl_spec : ctl_op → gmap Z Z → Z → Z → ctl_result → gmap Z Z → Prop :=
| ctl_added m f ev : m !! f = None → ctl_spec EPOLL_CTL_ADD m f ev Ctl_ok (<[f := ev]> m)
| ctl_present m f ev : is_Some (m !! f) → ctl_spec EPOLL_CTL_ADD m f ev Ctl_exist m
| ctl_not_added m f ev : m !! f = None → ctl_spec EPOLL_CTL_ADD m f ev Ctl_error m
| ctl_modified m f ev : is_Some (m !! f) → ctl_spec EPOLL_CTL_MOD m f ev Ctl_ok (<[f := ev]> m)
| ctl_not_modified m f ev : ctl_spec EPOLL_CTL_MOD m f ev Ctl_error m
| ctl_deleted m f ev : is_Some (m !! f) → ctl_spec EPOLL_CTL_DEL m f ev Ctl_ok (delete f m)
| ctl_not_deleted m f ev : m !! f = None → ctl_spec EPOLL_CTL_DEL m f ev Ctl_error m.

Class EpollLaws (K : Type) `{EpollKernel K} := {
  registered : Z → K → gmap Z Z;
  ctl_law ep op f ev k r k' : epoll_ctl ep op f ev k = (r, k') →
    ctl_spec op (registered ep k) f ev r (registered ep k');
  create_law n k ep k' : epoll_create n k = (Some ep, k') → 0 <= ep ∧ registered ep k' = ∅;
  closed_law k : registered (-1) k = ∅;
  realloc_law n k b k' ep : realloc n k = (b, k') → registered ep k' = registered ep k;
}.

Section epoll.
Context {K : Type} `{!EpollKernel K}.

(** [fd_data_size] is the length of [fd_data]. *)
Record _st_epolldata := Epolldata {
  fd_data : list _epoll_fd_data_t;
  evtlist_size : Z;
  evtlist_cnt : Z;
  fd_hint : Z;
  epfd : Z;
  pid : Z;
  kernel : K;
}.

Implicit Types (e : _st_epolldata).

Definition with_fd_data v e := Epolldata v (evtlist_size e) (evtlist_cnt e) (fd_hint e) (epfd e) (pid e) (kernel e).
Definition with_evtlist_size v e := Epolldata (fd_data e) v (evtlist_cnt e) (fd_hint e) (epfd e) (pid e) (kernel e).
Definition with_evtlist_cnt v e := Epolldata (fd_data e) (evtlist_size e) v (fd_hint e) (epfd e) (pid e) (kernel e).
Definition with_epfd v e := Epolldata (fd_data e) (evtlist_size e) (evtlist_cnt e) (fd_hint e) v (pid e) (kernel e).
Definition with_pid v e := Epolldata (fd_data e) (evtlist_size e) (evtlist_cnt e) (fd_hint e) (epfd e) v (kernel e).
Definition with_kernel v e := Epolldata (fd_data e) (evtlist_size e) (evtlist_cnt e) (fd_hint e) (epfd e) (pid e) v.

Definition fd_data_size e : Z := Z.of_nat (length (fd_data e)).

Definition no_data : _epoll_fd_data_t := FdData (λ _, 0) 0.

(** [fdlim]: [st_getfdlimit()]; [mem], [data], [lists]: whether the memory is there. *)
Definition _st_epoll_init (fdlim mypid : Z) (mem data lists : bool) (k : K) : outcome _st_epolldata * K :=
  if negb mem then (Fail, k) else
  let hint := if (0 <? fdlim) && (fdlim <? ST_EPOLL_EVTLIST_SIZE) then fdlim else ST_EPOLL_EVTLIST_SIZE in
  match epoll_create hint k with
  | (None, k) => (Fail, k)
  | (Some ep, k) =>
      if data && lists then (Ok (Epolldata (replicate (Z.to_nat hint) no_data) hint 0 hint ep mypid k), k)
      else (Fail, close_epoll ep k)
  end.

Definition alloc (n : Z) : M _st_epolldata bool := λ e,
  let '(b, k) := realloc n (kernel e) in (Ok b, with_kernel k e).

(** [n <<= 1] overflowed. *)
Definition check_int (n : Z) : M _st_epolldata unit := if n <? 2 ^ 31 then ret tt else lift Undef.

Definition _st_epoll_fd_data_expand (maxfd : Z) : M _st_epolldata unit :=
  e <- gets id ;;
  n <- lift (doubled maxfd (fd_data_size e)) ;;
  check_int n ;;
  b <- alloc n ;;
  if b then modify (λ e, with_fd_data (fd_data e ++ replicate (Z.to_nat (n - fd_data_size e)) no_data) e) else fail.

Definition _st_epoll_evtlist_expand : M _st_epolldata unit :=
  e <- gets id ;;
  n <- lift (doubled (evtlist_cnt e - 1) (evtlist_size e)) ;;
  b <- alloc n ;;
  if b then modify (with_evtlist_size n) else ret tt.

(** [fd_data[fd]] *)
Definition fd_at (f : Z) : M _st_epolldata _epoll_fd_data_t := λ e,
  match (if 0 <=? f then fd_data e !! Z.to_nat f else None) with Some x => (Ok x, e) | None => (Undef, e) end.

Definition set_fd (f : Z) (x : _epoll_fd_data_t) : M _st_epolldata unit :=
  fd_at f ;; modify (λ e, with_fd_data (<[Z.to_nat f := x]> (fd_data e)) e).

Definition bit (n : Z) (i : interest) : Z := if n =? 0 then 0 else mask i.

Definition _ST_EPOLL_EVENTS (x : _epoll_fd_data_t) : Z :=
  Z.lor (Z.lor (bit (ref_cnt x Rd) Rd) (bit (ref_cnt x Wr) Wr)) (bit (ref_cnt x Ex) Ex).

(** The counts of the events asked for go up or down by [d]. *)
Definition count (pd : pollfd) (d : Z) (x : _epoll_fd_data_t) : _epoll_fd_data_t :=
  FdData (λ i, if asks pd i then ref_cnt x i + d else ref_cnt x i) (fd_revents x).

Definition ctl (op : ctl_op) (f ev : Z) : M _st_epolldata ctl_result := λ e,
  let '(r, k) := epoll_ctl (epfd e) op f ev (kernel e) in (Ok r, with_kernel k e).

(** [op = events ? EPOLL_CTL_MOD : EPOLL_CTL_DEL], and [evtlist_cnt] when it is a deletion. *)
Definition mod_or_del (f ev : Z) : M _st_epolldata unit :=
  let op := if ev =? 0 then EPOLL_CTL_DEL else EPOLL_CTL_MOD in
  r <- ctl op f ev ;;
  if bool_decide (r = Ctl_ok) && bool_decide (op = EPOLL_CTL_DEL)
  then modify (λ e, with_evtlist_cnt (evtlist_cnt e - 1) e) else ret tt.

Definition epoll_del_fd (pd : pollfd) : M _st_epolldata unit :=
  x <- fd_at (fd pd) ;;
  let old_events := _ST_EPOLL_EVENTS x in
  let x := count pd (-1) x in
  set_fd (fd pd) x ;;
  let events := _ST_EPOLL_EVENTS x in
  if negb (events =? old_events) && (fd_revents x =? 0) then mod_or_del (fd pd) events else ret tt.

Definition _st_epoll_pollset_del (pds : list pollfd) : M _st_epolldata unit := for_each epoll_del_fd pds.

Definition epoll_bad (pd : pollfd) : bool :=
  (fd pd <? 0) || (events pd =? 0) || negb (Z.land (events pd) (Z.lnot (Z.lor POLLIN (Z.lor POLLOUT POLLPRI))) =? 0).

(** The checks of one descriptor. *)
Definition epoll_check_fd (pd : pollfd) : M _st_epolldata unit :=
  if epoll_bad pd then fail else
  e <- gets id ;;
  if fd_data_size e <=? fd pd then _st_epoll_fd_data_expand (fd pd) else ret tt.

(** One round of the loop; [false]: [break]. *)
Definition epoll_add_fd (pd : pollfd) : M _st_epolldata bool :=
  x <- fd_at (fd pd) ;;
  let old_events := _ST_EPOLL_EVENTS x in
  let x := count pd 1 x in
  set_fd (fd pd) x ;;
  let events := _ST_EPOLL_EVENTS x in
  if events =? old_events then ret true else
  let op := if old_events =? 0 then EPOLL_CTL_ADD else EPOLL_CTL_MOD in
  r <- ctl op (fd pd) events ;;
  if negb (bool_decide (r = Ctl_ok)) &&
    (negb (bool_decide (op = EPOLL_CTL_ADD)) || negb (bool_decide (r = Ctl_exist))) then ret false else
  (if bool_decide (op = EPOLL_CTL_ADD) then
     modify (λ e, with_evtlist_cnt (evtlist_cnt e + 1) e) ;;
     e <- gets id ;;
     if evtlist_size e <? evtlist_cnt e then _st_epoll_evtlist_expand else ret tt
   else ret tt) ;;
  ret true.

(** How many rounds ended without [break]. *)
Fixpoint epoll_add_fds (pds : list pollfd) : M _st_epolldata nat :=
  match pds with
  | [] => ret O
  | pd :: pds => b <- epoll_add_fd pd ;; if b then n <- epoll_add_fds pds ;; ret (S n) else ret O
  end.

Definition _st_epoll_pollset_add (pds : list pollfd) : M _st_epolldata unit :=
  for_each epoll_check_fd pds ;;
  i <- epoll_add_fds pds ;;
  if (i <? length pds)%nat then _st_epoll_pollset_del (take (S i) pds) ;; fail else ret tt.

#[export] Instance epoll_eventsys : EventSys _st_epolldata := {
  pollset_add := _st_epoll_pollset_add;
  pollset_del := _st_epoll_pollset_del;
}.

(** [getpid], and what [epoll_wait] stores: descriptors and events; nothing for 0 or -1. *)
Record epoll_os := EpollOs {
  getpid : Z;
  epoll_wait : K → Z → Z → Z → list (Z * Z);
}.

Notation vp := (@_st_vp _st_epolldata).

(** -1 is ignored. *)
Definition ignore_error {S : Type} (c : M S unit) : M S unit := λ s,
  match c s with (Fail, s') => (Ok tt, s') | r => r end.

(** A new epoll set after [fork]; [false]: [epoll_create] failed. *)
Definition epoll_recreate (mypid : Z) : M _st_epolldata bool := λ e,
  let k := close_epoll (epfd e) (kernel e) in
  match epoll_create (fd_hint e) k with
  | (None, k) => (Ok false, with_epfd (-1) (with_kernel k e))
  | (Some ep, k) =>
      let e := with_pid mypid (with_epfd ep (with_kernel k e)) in
      (Ok true, with_evtlist_cnt 0 (with_fd_data (replicate (length (fd_data e)) no_data) e))
  end.

Definition epoll_reinit (mypid : Z) : M vp bool :=
  s <- gets id ;;
  if pid (eventsys s) =? mypid then ret true else
  b <- on_ev (epoll_recreate mypid) ;;
  if negb b then ret false else
  s <- gets id ;;
  for_each (λ t, pq <- the_pollq t ;; on_ev (ignore_error (_st_epoll_pollset_add (pds pq)))) (io_q s) ;;
  ret true.

(** [REVENTS(osfd)] of an event. *)
Definition epoll_fire (p : Z * Z) : M _st_epolldata unit :=
  x <- fd_at p.1 ;;
  let ev := p.2 in
  set_fd p.1 (FdData (ref_cnt x)
    (if negb (Z.land ev (Z.lor EPOLLERR EPOLLHUP) =? 0) then Z.lor ev (_ST_EPOLL_EVENTS x) else ev)).

(** [pds->revents]; [r] is [REVENTS] of the descriptor. *)
Definition epoll_revents (r : Z) (pd : pollfd) : Z :=
  if r =? 0 then 0 else
  let has b := negb (Z.land r b =? 0) in
  let v := if asks pd Rd && has EPOLLIN then POLLIN else 0 in
  let v := if asks pd Wr && has EPOLLOUT then Z.lor v POLLOUT else v in
  let v := if asks pd Ex && has EPOLLPRI then Z.lor v POLLPRI else v in
  let v := if has EPOLLERR then Z.lor v POLLERR else v in
  if has EPOLLHUP then Z.lor v POLLHUP else v.

Definition entry e (f : Z) : _epoll_fd_data_t :=
  default no_data (if 0 <=? f then fd_data e !! Z.to_nat f else None).

Definition in_table e (f : Z) : bool := (0 <=? f) && (f <? fd_data_size e).

Definition epoll_look e (pd : pollfd) : Z := epoll_revents (fd_revents (entry e (fd pd))) pd.

(** The table is indexed by the descriptors of the poll. *)
Definition epoll_round (t : Z) : M vp unit :=
  s <- gets id ;;
  pq <- the_pollq t ;;
  check (λ s, forallb (λ pd, in_table (eventsys s) (fd pd)) (pds pq)) ;;
  round (epoll_look (eventsys s)) _st_epoll_pollset_del (λ _, ret tt) t.

(** The last loop: descriptors that fired are deleted or modified. *)
Definition epoll_settle (p : Z * Z) : M _st_epolldata unit :=
  x <- fd_at p.1 ;;
  set_fd p.1 (FdData (ref_cnt x) 0) ;;
  mod_or_del p.1 (_ST_EPOLL_EVENTS x).

Definition _st_epoll_dispatch (os : epoll_os) : M vp unit :=
  s <- gets id ;;
  let timeout := timeout_ms s in
  b <- epoll_reinit (getpid os) ;;
  if negb b then ret tt else
  s <- gets id ;;
  let e := eventsys s in
  match epoll_wait os (kernel e) (epfd e) (evtlist_size e) timeout with
  | [] => ret tt
  | fired =>
      on_ev (for_each epoll_fire fired) ;;
      for_each epoll_round (io_q s) ;;
      on_ev (for_each epoll_settle fired)
  end.

#[export] Instance epoll_dispatch : Dispatch _st_epolldata epoll_os := { dispatch := _st_epoll_dispatch }.

Definition _st_epoll_fd_new (osfd : Z) : M _st_epolldata unit :=
  e <- gets id ;; if fd_data_size e <=? osfd then _st_epoll_fd_data_expand osfd else ret tt.

Definition _st_epoll_fd_close (osfd : Z) : M _st_epolldata unit :=
  x <- fd_at osfd ;;
  if negb (ref_cnt x Rd =? 0) || negb (ref_cnt x Wr =? 0) || negb (ref_cnt x Ex =? 0) then fail else ret tt.

Definition _st_epoll_fd_getlimit : Z := 0.
End epoll.

(** ** Tables *)
Section tables.
Context {K : Type} `{!EpollKernel K, !EpollLaws K}.
Notation data := (@_st_epolldata K).
Implicit Types (e : data).

Definition reg e : gmap Z Z := registered (epfd e) (kernel e).

Definition tables_ok e : Prop :=
  0 < fd_data_size e ∧ 0 < evtlist_size e ∧ ∀ f, is_Some (reg e !! f) → in_table e f = true.

(** What no call changes, and that the table does not shrink. *)
Record kept e e' : Prop := {
  kept_size : fd_data_size e <= fd_data_size e';
  kept_list : 0 < evtlist_size e → 0 < evtlist_size e';
  kept_epfd : epfd e' = epfd e;
  kept_pid : pid e' = pid e;
}.

#[export] Instance kept_preorder : PreOrder kept.
Proof. split; [done |]. intros e1 e2 e3 [] []. split; auto; congruence || lia. Qed.

Lemma in_table_spec e f : in_table e f = true ↔ 0 <= f < fd_data_size e.
Proof. unfold in_table. rewrite andb_true_iff, Z.leb_le, Z.ltb_lt. done. Qed.

Lemma in_table_kept e e' f : kept e e' → in_table e f = true → in_table e' f = true.
Proof. intros [H _ _ _]. rewrite !in_table_spec. lia. Qed.

Definition put (f : Z) (x : _epoll_fd_data_t) e : data := with_fd_data (<[Z.to_nat f := x]> (fd_data e)) e.

Lemma fd_at_ok f e : in_table e f = true → fd_at f e = (Ok (entry e f), e).
Proof.
  rewrite in_table_spec. intros Hf. unfold fd_at, entry. rewrite (proj2 (Z.leb_le _ _)) by lia.
  destruct (lookup_lt_is_Some_2 (fd_data e) (Z.to_nat f)) as [x ->]; [| done]. unfold fd_data_size in Hf. lia.
Qed.

Lemma set_fd_ok f x e : in_table e f = true → set_fd f x e = (Ok tt, put f x e).
Proof. intros Hf. unfold set_fd. by rewrite (bind_ok _ _ _ _ _ (fd_at_ok f e Hf)). Qed.

Lemma entry_put f x e g : in_table e f = true → entry (put f x e) g = if decide (g = f) then x else entry e g.
Proof.
  rewrite in_table_spec. unfold fd_data_size. intros Hf. unfold entry, put. cbn [fd_data with_fd_data].
  destruct (Z.leb_spec 0 g); [| destruct (decide (g = f)); [lia | done]]. destruct (decide (g = f)) as [-> | Hg].
  - rewrite list_lookup_insert_eq by lia. done.
  - rewrite list_lookup_insert_ne by lia. done.
Qed.

Lemma put_kept f x e : kept e (put f x e).
Proof. split; try done. unfold fd_data_size. cbn. by rewrite length_insert. Qed.

(** [EPOLL_CTL_MOD] or [EPOLL_CTL_DEL] *)
Definition reg_step (f ev : Z) (m m' : gmap Z Z) : Prop :=
  if ev =? 0 then m' = delete f m else m' = m ∨ (is_Some (m !! f) ∧ m' = <[f := ev]> m).

Lemma reg_step_ne f ev m m' g : reg_step f ev m m' → g ≠ f → m' !! g = m !! g.
Proof.
  unfold reg_step. destruct (ev =? 0); [intros -> Hg; by rewrite lookup_delete_ne |].
  intros [-> | [_ ->]] Hg; [done | by rewrite lookup_insert_ne].
Qed.

Lemma reg_step_some f ev m m' g : reg_step f ev m m' → is_Some (m' !! g) → is_Some (m !! g).
Proof.
  intros H. destruct (decide (g = f)) as [-> |]; [| by rewrite (reg_step_ne _ _ _ _ _ H)].
  unfold reg_step in H. destruct (ev =? 0); [subst; rewrite lookup_delete_eq; by intros [] |].
  destruct H as [-> | [Hm _]]; done.
Qed.

Lemma mod_or_del_ok f ev e :
  ∃ e', mod_or_del f ev e = (Ok tt, e') ∧ kept e e' ∧ fd_data e' = fd_data e ∧ reg_step f ev (reg e) (reg e').
Proof.
  unfold mod_or_del, ctl, bind. destruct (epoll_ctl _ _ f ev (kernel e)) as [r k] eqn:Ek.
  apply ctl_law in Ek. change (registered _ _) with (reg e) in Ek at 1. unfold reg_step.
  destruct (ev =? 0); inversion Ek; subst; cbn; eexists; (split; [reflexivity |]); (split; [by split |]);
    (split; [done |]); change (reg (with_evtlist_cnt _ _)) with (registered (epfd e) k) || idtac;
    change (reg (with_kernel k e)) with (registered (epfd e) k) || idtac.
  - congruence.
  - rewrite delete_id; congruence.
  - right. split; congruence.
  - left. congruence.
Qed.

(** ** Events and counts *)
Lemma events_has x i : Z.land (_ST_EPOLL_EVENTS x) (mask i) ≠ 0 ↔ ref_cnt x i ≠ 0.
Proof.
  unfold _ST_EPOLL_EVENTS, bit.
  assert (∀ r w v : bool, Z.land (Z.lor (Z.lor (if r then 0 else mask Rd) (if w then 0 else mask Wr)) (if v then 0 else mask Ex))
    (mask i) ≠ 0 ↔ match i with Rd => r | Wr => w | Ex => v end = false) as ->.
  { intros [] [] []; destruct i; vm_compute; split; congruence. }
  destruct i; apply Z.eqb_neq.
Qed.

Lemma events_zero x : _ST_EPOLL_EVENTS x = 0 ↔ ∀ i, ref_cnt x i = 0.
Proof.
  split.
  - intros H i. destruct (decide (ref_cnt x i = 0)) as [| Hn]; [done |]. apply events_has in Hn. by rewrite H in Hn.
  - intros H. unfold _ST_EPOLL_EVENTS, bit. by rewrite !H.
Qed.

Definition quiet e : Prop := ∀ f, fd_revents (entry e f) = 0.

#[export] Instance epoll_counting : Counting data := {
  cnt e i f := ref_cnt (entry e f) i;
  watched e i f := ∃ ev, reg e !! f = Some ev ∧ Z.land ev (mask i) ≠ 0;
  consistent e := (∀ f, fd_revents (entry e f) = 0) ∧
    (∀ f, (∀ i, ref_cnt (entry e f) i = 0) → reg e !! f = None) ∧
    (∀ i f, 0 < ref_cnt (entry e f) i → ∃ ev, reg e !! f = Some ev ∧ Z.land ev (mask i) ≠ 0);
}.

(** What fires is registered for the events counted by [c]; a descriptor that did not fire just now
    and is not counted is not registered. *)
Record covers e (c : interest → Z → Z) : Prop := {
  cov_idle f : fd_revents (entry e f) = 0 → (∀ i, cnt e i f = 0) → reg e !! f = None;
  cov_watched i f : 0 < c i f → watched e i f;
}.

Lemma covers_mono e c c' : (∀ i f, c' i f <= c i f) → covers e c → covers e c'.
Proof. intros Hle [H1 H2]. split; [done |]. intros i f H. apply H2. specialize (Hle i f). lia. Qed.

Lemma consistent_covers e : consistent e ↔ quiet e ∧ covers e (cnt e).
Proof.
  split.
  - intros (H1 & H2 & H3). split; [done |]. split; [intros f _; apply H2 | done].
  - intros (H1 & [H2 H3]). split; [done |]. split; [intros f; by apply H2 | done].
Qed.

(** [asks pd i] as a number. *)
Lemma count_cnt pd d x i : ref_cnt (count pd d x) i = ref_cnt x i + d * (if asks pd i then 1 else 0).
Proof. cbn. destruct (asks pd i); lia. Qed.

Lemma occurs_one i f pd : occurs i f [pd] = if decide (f = fd pd) then (if asks pd i then 1 else 0) else 0.
Proof.
  rewrite occurs_cons, occurs_nil. destruct (decide (f = fd pd)) as [-> |].
  - rewrite bool_decide_true by done. destruct (asks pd i); done.
  - rewrite bool_decide_false by done. done.
Qed.

(** The effect of one descriptor on the counts. *)
Definition recounted (l : list pollfd) (d : Z) e e' : Prop :=
  (∀ i f, cnt e' i f = cnt e i f + d * occurs i f l) ∧ (∀ f, fd_revents (entry e' f) = fd_revents (entry e f)).

Lemma put_recounted pd d e :
  in_table e (fd pd) = true → recounted [pd] d e (put (fd pd) (count pd d (entry e (fd pd))) e).
Proof.
  intros Hf. split; [intros i f | intros f]; cbn; rewrite entry_put by done.
  - rewrite occurs_one. destruct (decide (f = fd pd)) as [-> |]; [by rewrite count_cnt | lia].
  - destruct (decide (f = fd pd)) as [-> |]; done.
Qed.

Lemma recounted_app l1 l2 d e1 e2 e3 : recounted l1 d e1 e2 → recounted l2 d e2 e3 → recounted (l1 ++ l2) d e1 e3.
Proof.
  intros [H1 R1] [H2 R2]. split; [| congruence]. intros i f. rewrite H2, H1. unfold occurs. rewrite filter_app, length_app. lia.
Qed.

Lemma recounted_kernel l d e1 e2 e3 : fd_data e3 = fd_data e2 → recounted l d e1 e2 → recounted l d e1 e3.
Proof. intros E [H1 R1]. split; unfold cnt in *; cbn in *; unfold entry in *; by rewrite E. Qed.

Definition in_tables e (l : list pollfd) : Prop := Forall (λ pd, in_table e (fd pd) = true) l.

Lemma in_tables_kept e e' l : kept e e' → in_tables e l → in_tables e' l.
Proof. intros H Hl. eapply Forall_impl; [exact Hl |]. intros pd. by apply in_table_kept. Qed.

(** ** [_st_epoll_pollset_del] *)
Lemma epoll_del_fd_ok pd e :
  in_table e (fd pd) = true →
  ∃ e', epoll_del_fd pd e = (Ok tt, e') ∧ kept e e' ∧ recounted [pd] (-1) e e' ∧
    let x := count pd (-1) (entry e (fd pd)) in
    (reg_step (fd pd) (_ST_EPOLL_EVENTS x) (reg e) (reg e') ∧ fd_revents x = 0 ∨
     reg e' = reg e ∧ (_ST_EPOLL_EVENTS x = _ST_EPOLL_EVENTS (entry e (fd pd)) ∨ fd_revents x ≠ 0)).
Proof.
  intros Hf. unfold epoll_del_fd. rewrite (bind_ok _ _ _ _ _ (fd_at_ok _ e Hf)).
  set (x := count pd (-1) (entry e (fd pd))). rewrite (bind_ok _ _ _ _ _ (set_fd_ok _ x e Hf)).
  pose proof (put_recounted pd (-1) e Hf) as Hr. fold x in Hr. pose proof (put_kept (fd pd) x e) as Hk.
  destruct (negb _ && _) eqn:Hb.
  - apply andb_true_iff in Hb as [_ H2]. apply Z.eqb_eq in H2.
    destruct (mod_or_del_ok (fd pd) (_ST_EPOLL_EVENTS x) (put (fd pd) x e)) as (e' & E1 & K1 & D1 & R1).
    exists e'. split; [exact E1 |]. split; [by transitivity (put (fd pd) x e) |].
    split; [by apply (recounted_kernel _ _ _ (put (fd pd) x e)) |]. left. by split.
  - exists (put (fd pd) x e). split; [done |]. split; [done |]. split; [done |]. right. split; [done |].
    apply andb_false_iff in Hb as [Hb | Hb]; [left | right].
    + by apply negb_false_iff, Z.eqb_eq in Hb.
    + by apply Z.eqb_neq in Hb.
Qed.

Lemma del_fd_covers pd e e' c :
  in_table e (fd pd) = true → epoll_del_fd pd e = (Ok tt, e') →
  (∀ i f, c i f <= cnt e' i f) → covers e c → covers e' c.
Proof.
  intros Hf He Hle [Hi Hw]. destruct (epoll_del_fd_ok pd e Hf) as (e1 & E1 & _ & [Hc Hrv] & Hreg).
  rewrite He in E1. injection E1 as <-. cbn zeta in Hreg. set (x := count pd (-1) (entry e (fd pd))) in *.
  assert (∀ i, ref_cnt x i = cnt e' i (fd pd)) as Hx.
  { intros i. rewrite Hc, occurs_one, decide_True by done. unfold x. by rewrite count_cnt. }
  assert (∀ i f, f ≠ fd pd → cnt e' i f = cnt e i f) as Hne.
  { intros i f H. rewrite Hc, occurs_one, decide_False by done. lia. }
  split.
  - intros f Hr Hz. rewrite Hrv in Hr. destruct (decide (f = fd pd)) as [-> |].
    + assert (_ST_EPOLL_EVENTS x = 0) as Ex by (apply events_zero; intros i; by rewrite Hx).
      destruct Hreg as [[Hstep _] | [-> Hsame]].
      * unfold reg_step in Hstep. rewrite Ex in Hstep. rewrite Hstep. apply lookup_delete_eq.
      * apply Hi; [done |]. destruct Hsame as [Hsame | H]; [| by cbn in H].
        apply events_zero. congruence.
    + assert (reg e' !! f = reg e !! f) as ->.
      { destruct Hreg as [[Hstep _] | [-> _]]; [by apply (reg_step_ne _ _ _ _ _ Hstep) | done]. }
      apply Hi; [done |]. intros i. by rewrite <- Hne.
  - intros i f H. destruct (Hw i f H) as (ev & Hev & Hb). destruct Hreg as [[Hstep _] | [Hsame _]].
    2: { exists ev. by rewrite Hsame. }
    destruct (decide (f = fd pd)) as [-> |].
    + assert (ref_cnt x i ≠ 0) as Hn by (rewrite Hx; specialize (Hle i (fd pd)); lia).
      unfold reg_step in Hstep. destruct (Z.eqb_spec (_ST_EPOLL_EVENTS x) 0) as [Hz | _].
      { by rewrite (proj1 (events_zero x) Hz) in Hn. }
      destruct Hstep as [Hs | [_ Hs]]; [exists ev; by rewrite Hs |]. exists (_ST_EPOLL_EVENTS x).
      rewrite Hs, lookup_insert_eq. split; [done | by apply events_has].
    + exists ev. by rewrite (reg_step_ne _ _ _ _ _ Hstep).
Qed.

Lemma tables_kept e e' :
  kept e e' → (∀ f, is_Some (reg e' !! f) → is_Some (reg e !! f) ∨ in_table e f = true) → tables_ok e → tables_ok e'.
Proof.
  intros Hk Hr (H1 & H2 & H3). split; [pose proof (kept_size _ _ Hk); lia |]. split; [by apply (kept_list _ _ Hk) |].
  intros f [H | H]%Hr; apply (in_table_kept _ _ _ Hk); [by apply H3 | done].
Qed.

Lemma epoll_del_fds_ok l e :
  tables_ok e → in_tables e l →
  ∃ e', for_each epoll_del_fd l e = (Ok tt, e') ∧ tables_ok e' ∧ kept e e' ∧ recounted l (-1) e e' ∧
    ∀ c, (∀ i f, c i f <= cnt e' i f) → covers e c → covers e' c.
Proof.
  intros He Hl. revert e He Hl. induction l as [| pd l IH]; intros e He Hl; cbn [for_each].
  - exists e. split; [done |]. split_and!; try done. split; [| done]. intros. rewrite occurs_nil. lia.
  - apply Forall_cons in Hl as [Hf Hl]. destruct (epoll_del_fd_ok pd e Hf) as (e1 & E1 & K1 & C1 & R1).
    assert (tables_ok e1) as He1.
    { apply (tables_kept e e1 K1); [| done]. intros f H. left. cbn zeta in R1.
      destruct R1 as [[R1 _] | [<- _]]; [by apply (reg_step_some _ _ _ _ _ R1) | done]. }
    destruct (IH e1 He1 (in_tables_kept _ _ _ K1 Hl)) as (e2 & E2 & T2 & K2 & C2 & V2).
    rewrite (bind_ok _ _ _ _ _ E1). exists e2. split; [done |]. split; [done |]. split; [by transitivity e1 |].
    split; [by apply (recounted_app [pd] l _ _ e1) |]. intros c Hle Hc. apply V2; [done |].
    apply (del_fd_covers pd e e1 c); try done. intros i f. specialize (Hle i f). destruct C2 as [C2 _].
    rewrite C2 in Hle. pose proof (occurs_nonneg i f l). lia.
Qed.

(** ** Growing *)
(** Only the size of an array may differ. *)
Record same_data e e' : Prop := {
  sd_entry f : entry e' f = entry e f;
  sd_reg : reg e' = reg e;
  sd_kept : kept e e';
}.

Lemma alloc_ok n e : ∃ b e', alloc n e = (Ok b, e') ∧ same_data e e' ∧ fd_data e' = fd_data e ∧ evtlist_size e' = evtlist_size e
  ∧ evtlist_cnt e' = evtlist_cnt e.
Proof.
  unfold alloc. destruct (realloc n (kernel e)) as [b k] eqn:Hr. exists b, (with_kernel k e). split; [done |].
  split; [| done]. split; [done | | by split]. unfold reg. cbn. by rewrite (realloc_law _ _ _ _ _ Hr).
Qed.

Lemma evtlist_expand_ok e :
  0 < evtlist_size e → ∃ e', _st_epoll_evtlist_expand e = (Ok tt, e') ∧ same_data e e' ∧ fd_data e' = fd_data e.
Proof.
  intros Hs. unfold _st_epoll_evtlist_expand. unfold bind at 1. cbn [gets id].
  destruct (doubled_ok (evtlist_cnt e - 1) (evtlist_size e) Hs) as (n & Hn & _ & Hle & _). unfold bind at 1.
  cbn [lift]. rewrite Hn. destruct (alloc_ok n e) as (b & e' & Ha & [D1 D2 D3] & D4 & D5 & D6).
  rewrite (bind_ok _ _ _ _ _ Ha). destruct b; [| by exists e'].
  eexists. split; [reflexivity |]. split; [| done]. split; [done | done |]. destruct D3. split; try done. cbn. lia.
Qed.

Lemma entry_grow e f n : entry (with_fd_data (fd_data e ++ replicate n no_data) e) f = entry e f.
Proof.
  unfold entry. cbn. destruct (0 <=? f); [| done]. destruct (fd_data e !! Z.to_nat f) as [x |] eqn:Hx.
  - by rewrite (lookup_app_l_Some _ _ _ _ Hx).
  - apply lookup_ge_None in Hx. rewrite lookup_app_r by done.
    destruct (replicate n no_data !! _) as [y |] eqn:Hy; [| done]. by apply lookup_replicate in Hy as [-> _].
Qed.

Lemma fd_data_expand_ok f e :
  tables_ok e → fd_data_size e <= f < 2 ^ 30 →
  ∃ o e', _st_epoll_fd_data_expand f e = (o, e') ∧ same_data e e' ∧ (o = Fail ∨ o = Ok tt ∧ in_table e' f = true).
Proof.
  intros (Hpos & _) Hf. unfold _st_epoll_fd_data_expand. unfold bind at 1. cbn [gets id].
  destruct (doubled_ok f (fd_data_size e) Hpos) as (n & Hn & Hlt & Hle & Hmax). unfold bind at 1. cbn [lift]. rewrite Hn.
  unfold bind at 1, check_int. rewrite (proj2 (Z.ltb_lt n (2 ^ 31))) by lia. cbn [ret].
  destruct (alloc_ok n e) as (b & e' & Ha & [D1 D2 D3] & D4 & _). rewrite (bind_ok _ _ _ _ _ Ha).
  destruct b; [| exists Fail, e'; split; [done |]; split; [done | by left]].
  eexists _, _. split; [reflexivity |]. split.
  - split; [| done |].
    + intros g. rewrite entry_grow. apply D1.
    + destruct D3 as [K1 K2 K3 K4]. split; try done. unfold fd_data_size in *. cbn. rewrite length_app. lia.
  - right. split; [done |]. rewrite in_table_spec. unfold fd_data_size in *. cbn. rewrite length_app, length_replicate, D4. lia.
Qed.

Lemma same_data_tables e e' : same_data e e' → tables_ok e → tables_ok e'.
Proof. intros [D1 D2 D3]. apply (tables_kept e e' D3). intros f. rewrite D2. by left. Qed.

Lemma same_data_refl e : same_data e e.
Proof. by split. Qed.

Lemma same_data_trans e1 e2 e3 : same_data e1 e2 → same_data e2 e3 → same_data e1 e3.
Proof. intros [A1 A2 A3] [B1 B2 B3]. split; [intros f; by rewrite B1 | congruence | by transitivity e2]. Qed.

Lemma same_data_recounted l d e1 e2 e3 : same_data e2 e3 → recounted l d e1 e2 → recounted l d e1 e3.
Proof. intros [D _ _] [H1 R1]. split; unfold cnt in *; cbn in *; intros; rewrite D; done. Qed.

Lemma same_data_covers e e' c : same_data e e' → covers e c → covers e' c.
Proof. intros [D1 D2 _] [H1 H2]. split; unfold watched, cnt in *; cbn in *.
  - intros f. rewrite D1, D2. apply H1.
  - intros i f. rewrite D2. apply H2.
Qed.

(** ** [_st_epoll_pollset_add] *)
Lemma not_epoll_bad pd : epoll_bad pd = false → 0 <= fd pd ∧ events pd ≠ 0.
Proof.
  unfold epoll_bad. rewrite !orb_false_iff. intros [[H1 H2] _]. apply Z.ltb_ge in H1. by apply Z.eqb_neq in H2.
Qed.

Lemma check_fd_ok pd e :
  tables_ok e → fd pd < 2 ^ 30 →
  ∃ o e', epoll_check_fd pd e = (o, e') ∧ same_data e e' ∧
    (o = Fail ∨ o = Ok tt ∧ in_table e' (fd pd) = true ∧ epoll_bad pd = false).
Proof.
  intros He Hf. unfold epoll_check_fd. destruct (epoll_bad pd) eqn:Hb.
  - exists Fail, e. split; [done |]. split; [apply same_data_refl | by left].
  - apply not_epoll_bad in Hb as Hb'. destruct Hb' as [Hb' _].
    unfold bind at 1. cbn [gets id]. destruct (Z.leb_spec (fd_data_size e) (fd pd)).
    + destruct (fd_data_expand_ok (fd pd) e He) as (o & e' & E1 & D1 & Ho); [lia |]. exists o, e'. naive_solver.
    + exists (Ok tt), e. split; [done |]. split; [apply same_data_refl | right]. split; [done |].
      split; [by apply in_table_spec | done].
Qed.

Lemma check_fds_ok l e :
  tables_ok e → Forall (λ pd, fd pd < 2 ^ 30) l →
  ∃ o e', for_each epoll_check_fd l e = (o, e') ∧ same_data e e' ∧
    (o = Fail ∨ o = Ok tt ∧ in_tables e' l ∧ Forall (λ pd, epoll_bad pd = false) l).
Proof.
  revert e. induction l as [| pd l IH]; intros e He Hl; cbn [for_each].
  - exists (Ok tt), e. split; [done |]. split; [apply same_data_refl | right]. split; [done | by split; constructor].
  - apply Forall_cons in Hl as [Hf Hl]. destruct (check_fd_ok pd e He Hf) as (o & e1 & E1 & D1 & Ho).
    destruct Ho as [-> | (-> & Hin & Hb)].
    + rewrite (bind_fail _ _ _ _ E1). exists Fail, e1. split; [done |]. split; [done | by left].
    + rewrite (bind_ok _ _ _ _ _ E1). destruct (IH e1) as (o & e2 & E2 & D2 & Ho); [by apply (same_data_tables e) | done |].
      exists o, e2. split; [done |]. split; [by apply (same_data_trans e e1) |].
      destruct Ho as [-> | (-> & Hl' & Hb')]; [by left | right]. split; [done |].
      split; [| by constructor]. apply Forall_cons. split; [| done]. by apply (in_table_kept e1); [apply D2 |].
Qed.

(** Registering a descriptor and changing its events do not fail. *)
Definition has_room (ep : Z) : Prop := ∀ f ev k,
  (epoll_ctl ep EPOLL_CTL_ADD f ev k).1 ≠ Ctl_error ∧
  (is_Some (registered ep k !! f) → (epoll_ctl ep EPOLL_CTL_MOD f ev k).1 = Ctl_ok).

(** What [epoll_ctl] was asked for one descriptor, and what it answered. *)
Definition add_step (ep f old ev : Z) (b : bool) (m m' : gmap Z Z) : Prop :=
  if b then ev = old ∧ m' = m ∨ ev ≠ old ∧ (m' = <[f := ev]> m ∨ old = 0 ∧ is_Some (m !! f) ∧ m' = m)
  else ev ≠ old ∧ m' = m ∧ (has_room ep → old ≠ 0 ∧ m !! f = None).

Lemma epoll_add_fd_ok pd e :
  tables_ok e → in_table e (fd pd) = true →
  ∃ b e', epoll_add_fd pd e = (Ok b, e') ∧ kept e e' ∧ recounted [pd] 1 e e' ∧
    add_step (epfd e) (fd pd) (_ST_EPOLL_EVENTS (entry e (fd pd))) (_ST_EPOLL_EVENTS (count pd 1 (entry e (fd pd)))) b (reg e) (reg e').
Proof.
  intros He Hf. unfold epoll_add_fd. rewrite (bind_ok _ _ _ _ _ (fd_at_ok _ e Hf)). cbn zeta.
  set (x := count pd 1 (entry e (fd pd))). rewrite (bind_ok _ _ _ _ _ (set_fd_ok _ x e Hf)).
  pose proof (put_recounted pd 1 e Hf) as Hr. fold x in Hr. pose proof (put_kept (fd pd) x e) as Hk.
  set (e1 := put (fd pd) x e) in *. set (old := _ST_EPOLL_EVENTS (entry e (fd pd))). set (ev := _ST_EPOLL_EVENTS x).
  destruct (Z.eqb_spec ev old) as [Hev | Hev].
  { exists true, e1. split; [done |]. split; [done |]. split; [done |]. left. by split. }
  set (op := if old =? 0 then EPOLL_CTL_ADD else EPOLL_CTL_MOD). unfold bind at 1, ctl.
  destruct (epoll_ctl (epfd e1) op (fd pd) ev (kernel e1)) as [r k] eqn:Er. pose proof (ctl_law _ _ _ _ _ _ _ Er) as Ek.
  change (registered (epfd e1) (kernel e1)) with (reg e) in Ek.
  assert (kept e (with_kernel k e1)) as K2 by (destruct Hk; by split).
  assert (∀ e2, same_data (with_kernel k e1) e2 → fd_data e2 = fd_data e1 → kept e e2 ∧ recounted [pd] 1 e e2) as Hsame.
  { intros e2 H2 Hd. split; [by transitivity (with_kernel k e1); [| apply H2] | by apply (recounted_kernel _ _ _ e1)]. }
  destruct (negb _ && _) eqn:Hbreak.
  - exists false, (with_kernel k e1). split; [done |]. split; [done |]. split; [by apply (recounted_kernel _ _ _ e1) |].
    split; [done |]. change (registered (epfd e1) k = reg e ∧ (has_room (epfd e) → old ≠ 0 ∧ reg e !! fd pd = None)).
    apply andb_true_iff in Hbreak as [H1 H2]. split; [unfold op in *; destruct (old =? 0); inversion Ek; subst; done |].
    intros Hroom. specialize (Hroom (fd pd) ev (kernel e1)). change (epfd e) with (epfd e1) in Hroom. destruct Hroom as [Ha Hm].
    unfold op in *. destruct (Z.eqb_spec old 0) as [| Ho].
    + exfalso. rewrite Er in Ha. cbn in Ha. by destruct r.
    + split; [done |]. destruct (reg e !! fd pd) eqn:Hreg; [| done]. exfalso.
      change (registered (epfd e1) (kernel e1)) with (reg e) in Hm. rewrite Hreg, Er in Hm. cbn in Hm. rewrite Hm in H1; done.
  - assert (add_step (epfd e) (fd pd) old ev true (reg e) (registered (epfd e1) k)) as Hstep.
    { right. split; [done |]. unfold op in *. destruct (Z.eqb_spec old 0); inversion Ek; subst; auto; done. }
    unfold bind at 1. destruct (bool_decide (op = EPOLL_CTL_ADD)).
    + unfold bind at 1. cbn [modify]. unfold bind at 1. cbn [gets id]. set (e2 := with_evtlist_cnt _ _).
      assert (same_data (with_kernel k e1) e2) as H2 by (split; [done | done | by split]).
      destruct (evtlist_size e2 <? evtlist_cnt e2).
      * destruct (evtlist_expand_ok e2) as (e3 & E3 & D3 & Hd3); [apply He |]. rewrite E3. exists true, e3. split; [done |].
        destruct (Hsame e3) as [K3 C3]; [by apply (same_data_trans _ e2) | done |]. split; [done |]. split; [done |].
        by rewrite (sd_reg _ _ D3).
      * exists true, e2. destruct (Hsame e2 H2 eq_refl) as [K3 C3]. done.
    + exists true, (with_kernel k e1). destruct (Hsame (with_kernel k e1) (same_data_refl _) eq_refl). done.
Qed.

(** The kernel is told of the new events, or the loop ends with what it was told before. *)
Lemma add_fd_covers pd e e' b :
  quiet e → (∀ i f, 0 <= cnt e i f) → recounted [pd] 1 e e' →
  add_step (epfd e) (fd pd) (_ST_EPOLL_EVENTS (entry e (fd pd))) (_ST_EPOLL_EVENTS (count pd 1 (entry e (fd pd)))) b (reg e) (reg e') →
  covers e (cnt e) → covers e' (if b then cnt e' else cnt e).
Proof.
  intros Hq H0 [Hc Hrv] Hreg [Hi Hw]. set (x := count pd 1 (entry e (fd pd))) in *.
  set (old := _ST_EPOLL_EVENTS (entry e (fd pd))) in *.
  assert (∀ i, ref_cnt x i = cnt e' i (fd pd)) as Hx.
  { intros i. rewrite Hc, occurs_one, decide_True by done. unfold x. by rewrite count_cnt. }
  assert (∀ i f, f ≠ fd pd → cnt e' i f = cnt e i f) as Hne.
  { intros i f H. rewrite Hc, occurs_one, decide_False by done. lia. }
  assert (∀ i f, cnt e i f <= cnt e' i f) as Hle.
  { intros i f. rewrite Hc. pose proof (occurs_nonneg i f [pd]). lia. }
  assert ((∀ i, cnt e' i (fd pd) = 0) → _ST_EPOLL_EVENTS x = old) as Hzero.
  { intros Hz. assert (_ST_EPOLL_EVENTS x = 0) as -> by (apply events_zero; intros i; by rewrite Hx).
    symmetry. apply events_zero. intros i. specialize (Hle i (fd pd)). specialize (H0 i (fd pd)). rewrite Hz in Hle.
    cbn in *. lia. }
  assert (∀ f, f ≠ fd pd → reg e' !! f = reg e !! f) as Hrne.
  { intros f Hf. unfold add_step in Hreg. destruct b; [| by destruct Hreg as (_ & -> & _)].
    destruct Hreg as [[_ ->] | [_ [-> | (_ & _ & ->)]]]; [done | by rewrite lookup_insert_ne | done]. }
  split.
  - intros f _ Hz. destruct (decide (f = fd pd)) as [-> | Hf].
    + specialize (Hzero Hz). assert (reg e' = reg e) as ->.
      { unfold add_step in Hreg. destruct b; [| by destruct Hreg]. destruct Hreg as [[_ ->] | [Hn _]]; done. }
      apply Hi; [apply Hq |]. intros i. specialize (Hle i (fd pd)). specialize (H0 i (fd pd)). rewrite Hz in Hle. lia.
    + rewrite Hrne by done. apply Hi; [apply Hq |]. intros i. by rewrite <- Hne.
  - intros i f H. destruct (decide (f = fd pd)) as [-> | Hf].
    2: { destruct (Hw i f) as (ev & Hev & Hb); [destruct b; [by rewrite <- Hne | done] |].
         exists ev. by rewrite Hrne. }
    unfold add_step in Hreg. destruct b.
    + assert (ref_cnt x i ≠ 0) as Hn by (rewrite Hx; lia). apply events_has in Hn.
      destruct Hreg as [[Hev Hr] | [Hne' [Hr | (Hold & [ev Hev] & _)]]].
      * rewrite Hev in Hn. apply events_has in Hn. destruct (Hw i (fd pd)) as (ev & H1 & H2).
        { specialize (H0 i (fd pd)). cbn in *. lia. }
        exists ev. by rewrite Hr.
      * exists (_ST_EPOLL_EVENTS x). by rewrite Hr, lookup_insert_eq.
      * rewrite Hi in Hev; [done | apply Hq |]. by apply events_zero.
    + destruct Hreg as (_ & Hr & _). destruct (Hw i (fd pd) H) as (ev & Hev & Hb). exists ev. by rewrite Hr.
Qed.

Lemma epoll_add_fds_ok l e :
  tables_ok e → in_tables e l →
  ∃ n e', epoll_add_fds l e = (Ok n, e') ∧ (n <= length l)%nat ∧ tables_ok e' ∧ kept e e' ∧
    recounted (take (S n) l) 1 e e' ∧
    (quiet e → (∀ i f, 0 <= cnt e i f) → covers e (cnt e) →
      covers e' (if decide (n = length l) then cnt e' else cnt e) ∧ (has_room (epfd e) → n = length l)).
Proof.
  revert e. induction l as [| pd l IH]; intros e He Hl; cbn [epoll_add_fds].
  - exists O, e. split; [done |]. split_and!; try done. split; [| done].
    intros i f. rewrite take_nil, occurs_nil. lia.
  - apply Forall_cons in Hl as [Hf Hl]. destruct (epoll_add_fd_ok pd e He Hf) as (b & e1 & E1 & K1 & C1 & R1).
    rewrite (bind_ok _ _ _ _ _ E1).
    assert (tables_ok e1) as He1.
    { apply (tables_kept e e1 K1); [| done]. intros f H. unfold add_step in R1.
      destruct b; [| left; by destruct R1 as (_ & <- & _)].
      destruct R1 as [[_ <-] | [_ [R1 | (_ & _ & <-)]]]; [by left | | by left].
      rewrite R1 in H. destruct (decide (f = fd pd)) as [-> |]; [by right | left; by rewrite lookup_insert_ne in H]. }
    destruct b.
    + destruct (IH e1 He1 (in_tables_kept _ _ _ K1 Hl)) as (n & e2 & E2 & Hn & T2 & K2 & C2 & V2).
      rewrite (bind_ok _ _ _ _ _ E2). exists (S n), e2. split; [done |]. split; [cbn; lia |]. split; [done |].
      split; [by transitivity e1 |]. split; [by apply (recounted_app [pd] (take (S n) l) _ _ e1) |].
      intros Hq H0 Hc. pose proof (add_fd_covers pd e e1 true Hq H0 C1 R1 Hc) as Hc1. destruct C1 as [C1 Hrv].
      assert (∀ i f, 0 <= cnt e i f <= cnt e1 i f) as Hle.
      { intros i f. rewrite C1. pose proof (occurs_nonneg i f [pd]). specialize (H0 i f). lia. }
      specialize (V2 ltac:(intros f; rewrite Hrv; apply Hq) ltac:(intros i f; specialize (Hle i f); lia) Hc1).
      destruct V2 as [V2 Hroom]. rewrite (kept_epfd _ _ K1) in Hroom. cbn [length]. split; [| intros H; by rewrite (Hroom H)].
      destruct (decide (n = length l)) as [-> | Hne]; [by rewrite decide_True |].
      rewrite decide_False by congruence. eapply covers_mono; [| exact V2]. apply Hle.
    + exists O, e1. split; [done |]. split; [cbn; lia |]. split; [done |]. split; [done |]. split; [done |].
      intros Hq H0 Hc. cbn [length]. rewrite decide_False by done. split; [by apply (add_fd_covers pd e e1 false) |].
      intros Hroom. exfalso. destruct R1 as (_ & _ & Hfull). destruct (Hfull Hroom) as [Hold Hnone].
      assert (∃ i, 0 < cnt e i (fd pd)) as [i Hi].
      { destruct (decide (ref_cnt (entry e (fd pd)) Rd = 0)) as [Hr | Hr]; [| exists Rd; specialize (H0 Rd (fd pd)); cbn in *; lia].
        destruct (decide (ref_cnt (entry e (fd pd)) Wr = 0)) as [Hw | Hw]; [| exists Wr; specialize (H0 Wr (fd pd)); cbn in *; lia].
        destruct (decide (ref_cnt (entry e (fd pd)) Ex = 0)) as [Hx | Hx]; [| exists Ex; specialize (H0 Ex (fd pd)); cbn in *; lia].
        exfalso. apply Hold, events_zero. by intros []. }
      apply (cov_watched _ _ Hc) in Hi as (ev & Hev & _). congruence.
Qed.

Lemma pollset_add_ok l e :
  tables_ok e → Forall (λ pd, fd pd < 2 ^ 30) l →
  ∃ o e', _st_epoll_pollset_add l e = (o, e') ∧ tables_ok e' ∧ kept e e' ∧
    (o = Ok tt ∧ (in_tables e' l ∧ Forall (λ pd, epoll_bad pd = false) l) ∧ recounted l 1 e e' ∨ o = Fail ∧ recounted [] 1 e e') ∧
    ((∀ i f, 0 <= cnt e i f) → consistent e → consistent e').
Proof.
  intros He Hl. unfold _st_epoll_pollset_add. destruct (check_fds_ok l e He Hl) as (o & e1 & E1 & D1 & Ho).
  pose proof (same_data_tables _ _ D1 He) as He1. pose proof (sd_kept _ _ D1) as K1.
  assert (recounted [] 1 e e) as Hnil by (split; [| done]; intros i f; rewrite occurs_nil; lia).
  assert (consistent e → consistent e1) as Hcons.
  { rewrite !consistent_covers. intros [Hq Hc]. split; [intros f; by rewrite (sd_entry _ _ D1) |].
    apply (same_data_covers e); [done |]. eapply covers_mono; [| exact Hc]. intros i f. cbn. by rewrite (sd_entry _ _ D1). }
  destruct Ho as [-> | (-> & Hin & Hbad)].
  { rewrite (bind_fail _ _ _ _ E1). exists Fail, e1. split; [done |]. split; [done |]. split; [done |]. split; [| done].
    right. split; [done |]. by apply (same_data_recounted _ _ _ e). }
  rewrite (bind_ok _ _ _ _ _ E1). destruct (epoll_add_fds_ok l e1 He1 Hin) as (n & e2 & E2 & Hn & T2 & K2 & C2 & V2).
  rewrite (bind_ok _ _ _ _ _ E2). pose proof C2 as [C2c C2r].
  assert (∀ i f, cnt e1 i f = cnt e i f) as Hsame by (intros i f; cbn; by rewrite (sd_entry _ _ D1)).
  destruct (Nat.ltb_spec n (length l)) as [Hlt | Hge].
  - destruct (epoll_del_fds_ok (take (S n) l) e2 T2) as (e3 & E3 & T3 & K3 & C3 & V3).
    { apply Forall_take, (in_tables_kept e1); done. }
    unfold _st_epoll_pollset_del. rewrite (bind_ok _ _ _ _ _ E3). exists Fail, e3. split; [done |]. split; [done |].
    split; [transitivity e1; [done | by transitivity e2] |]. pose proof C3 as [C3c C3r].
    assert (∀ i f, cnt e3 i f = cnt e1 i f) as Hback by (intros i f; rewrite C3c, C2c; lia). split.
    + right. split; [done |]. split.
      * intros i f. rewrite Hback, Hsame, occurs_nil. lia.
      * intros f. rewrite C3r, C2r. by rewrite (sd_entry _ _ D1).
    + intros H0 [Hq Hc]%Hcons%consistent_covers. apply consistent_covers.
      split; [intros f; rewrite C3r, C2r; apply Hq |].
      apply V3; [done |]. apply (covers_mono e2 (cnt e1)); [intros i f; by rewrite Hback |].
      rewrite decide_False in V2 by lia. apply V2; try done. intros i f. by rewrite Hsame.
  - assert (n = length l) as -> by lia. exists (Ok tt), e2. split; [done |]. split; [done |].
    split; [by transitivity e1 |]. rewrite take_ge in C2 by lia. split.
    + left. split; [done |]. split; [by split; [apply (in_tables_kept e1) |] |]. destruct C2 as [C2 Hr]. split.
      * intros i f. by rewrite C2, Hsame.
      * intros f. by rewrite Hr, (sd_entry _ _ D1).
    + intros H0 [Hq Hc]%Hcons%consistent_covers. apply consistent_covers.
      split; [intros f; rewrite C2r; apply Hq |]. rewrite decide_True in V2 by done. apply V2; try done.
      intros i f. by rewrite Hsame.
Qed.
End tables.

(** ** The event system *)
Section system.
Context {K : Type} `{!EpollKernel K, !EpollLaws K}.
Notation data := (@_st_epolldata K).
Notation vp := (@_st_vp data).
Implicit Types (e : data) (s : vp) (t : Z).

Definition accepted e (l : list pollfd) : Prop :=
  in_tables e l ∧ Forall (λ pd, fd pd < 2 ^ 30 ∧ epoll_bad pd = false) l.

#[export] Instance epoll_laws : EventSysLaws data.
Proof.
  refine {| ev_ok := tables_ok; fds_valid := Forall (λ pd, fd pd < 2 ^ 30); fds_ok := accepted |}.
  - intros fds e He Hv. destruct (pollset_add_ok fds e He Hv) as (o & e' & E1 & T1 & K1 & H & _).
    exists o, e'. split; [exact E1 |]. split; [| split; [done |]].
    + destruct H as [(-> & [Hin Hb] & _) | [-> _]]; [left | by right]. split; [done |]. split; [done |].
      by apply Forall_and.
    + intros l [Hl Hv']. split; [by apply (in_tables_kept e) | done].
  - intros fds e He [Hl _]. destruct (epoll_del_fds_ok fds e He Hl) as (e' & E1 & T1 & K1 & _).
    exists e'. split; [exact E1 |]. split; [done |]. intros l [Hl' Hv']. split; [by apply (in_tables_kept e) | done].
Defined.

Lemma recounted_nil e e' i f : recounted [] 1 e e' → cnt e' i f = cnt e i f.
Proof. intros [H _]. rewrite H, occurs_nil. lia. Qed.

#[export] Instance epoll_counting_laws : CountingLaws data.
Proof.
  split.
  - intros e i f (_ & _ & H). apply H.
  - intros fds e e' i f He Hv H. destruct (pollset_add_ok fds e He Hv) as (o & e1 & E1 & _ & _ & Ho & _).
    cbn [pollset_add epoll_eventsys] in H. rewrite E1 in H. simplify_eq.
    destruct Ho as [(_ & _ & [Hc _]) | [? _]]; [| done]. rewrite Hc. lia.
  - intros fds e e' i f He Hv H. destruct (pollset_add_ok fds e He Hv) as (o & e1 & E1 & _ & _ & Ho & _).
    cbn [pollset_add epoll_eventsys] in H. rewrite E1 in H. simplify_eq.
    destruct Ho as [[? _] | [_ Hc]]; [done | by apply recounted_nil].
  - intros fds o e e' He Hv H _ H0. destruct (pollset_add_ok fds e He Hv) as (o1 & e1 & E1 & _ & _ & _ & Hc).
    cbn [pollset_add epoll_eventsys] in H. rewrite E1 in H. simplify_eq. by apply Hc.
  - intros fds e e' i f He [Hl _] H. destruct (epoll_del_fds_ok fds e He Hl) as (e1 & E1 & _ & _ & [Hc _] & _).
    cbn in H. unfold _st_epoll_pollset_del in H. rewrite E1 in H. simplify_eq. rewrite Hc. lia.
  - intros fds e e' He [Hl _] H Hle Hc. destruct (epoll_del_fds_ok fds e He Hl) as (e1 & E1 & _ & _ & [Hcnt Hr] & Hcov).
    cbn in H. unfold _st_epoll_pollset_del in H. rewrite E1 in H. simplify_eq.
    apply consistent_covers in Hc as [Hq Hc]. apply consistent_covers.
    split; [intros f; rewrite Hr; apply Hq |]. apply Hcov; [done |]. eapply covers_mono; [| exact Hc].
    intros i f. rewrite Hcnt. pose proof (occurs_nonneg i f fds). lia.
Qed.

#[export] Instance epoll_counting_exact : CountingExact data.
Proof. intros e f (_ & H & _) Hz i (ev & Hev & _). by rewrite (H f Hz) in Hev. Qed.

(** ** The loops of the dispatch *)
Definition in_answer e (l : list (Z * Z)) : Prop := Forall (λ p, in_table e p.1 = true) l.

Lemma in_answer_kept e e' l : kept e e' → in_answer e l → in_answer e' l.
Proof. intros H Hl. eapply Forall_impl; [exact Hl |]. intros p. by apply in_table_kept. Qed.

(** [REVENTS] of a descriptor for the events [ev]. *)
Definition fired_revents (x : _epoll_fd_data_t) (ev : Z) : Z :=
  if negb (Z.land ev (Z.lor EPOLLERR EPOLLHUP) =? 0) then Z.lor ev (_ST_EPOLL_EVENTS x) else ev.

(** Only [REVENTS] of some descriptors differs. *)
Record refired e e' : Prop := {
  rf_cnt i f : cnt e' i f = cnt e i f;
  rf_reg : reg e' = reg e;
  rf_kept : kept e e';
}.

Lemma events_cnt x y : (∀ i, ref_cnt x i = ref_cnt y i) → _ST_EPOLL_EVENTS x = _ST_EPOLL_EVENTS y.
Proof. intros H. unfold _ST_EPOLL_EVENTS. by rewrite !H. Qed.

Lemma fire_ok l e :
  tables_ok e → in_answer e l → NoDup l.*1 →
  ∃ e', for_each epoll_fire l e = (Ok tt, e') ∧ tables_ok e' ∧ refired e e' ∧
    (∀ f, f ∉ l.*1 → fd_revents (entry e' f) = fd_revents (entry e f)) ∧
    (∀ f ev, (f, ev) ∈ l → fd_revents (entry e' f) = fired_revents (entry e f) ev).
Proof.
  revert e. induction l as [| [f ev] l IH]; intros e He Hl Hnd; cbn [for_each].
  - exists e. split; [done |]. split; [done |]. split; [by split |]. split; [done |]. by intros ? ? ?%not_elem_of_nil.
  - apply Forall_cons in Hl as [Hf Hl]. rewrite fmap_cons in Hnd. apply NoDup_cons in Hnd as [Hfl Hnd]. cbn in Hf, Hfl.
    set (x := FdData (ref_cnt (entry e f)) (fired_revents (entry e f) ev)).
    assert (epoll_fire (f, ev) e = (Ok tt, put f x e)) as E1.
    { unfold epoll_fire. rewrite (bind_ok _ _ _ _ _ (fd_at_ok _ e Hf)). by apply set_fd_ok. }
    rewrite (bind_ok _ _ _ _ _ E1). pose proof (put_kept f x e) as K1.
    assert (∀ i g, cnt (put f x e) i g = cnt e i g) as C1.
    { intros i g. cbn. rewrite entry_put by done. by destruct (decide (g = f)) as [-> |]. }
    destruct (IH (put f x e)) as (e2 & E2 & T2 & R2 & N2 & S2).
    + apply (tables_kept e); [done | by left | done].
    + by apply (in_answer_kept e).
    + done.
    + exists e2. split; [done |]. split; [done |]. destruct R2 as [Rc Rr Rk]. split.
      { split; [intros i g; by rewrite Rc, C1 | done | by transitivity (put f x e)]. }
      split.
      * intros g Hg. rewrite fmap_cons, not_elem_of_cons in Hg. destruct Hg as [Hg1 Hg2].
        rewrite N2, entry_put, decide_False by done. done.
      * intros g ev' [[= -> ->] | Hin]%elem_of_cons.
        -- rewrite N2, entry_put, decide_True by done. done.
        -- assert (g ≠ f) as Hg.
           { intros ->. apply Hfl. apply list_elem_of_fmap. by exists (f, ev'). }
           rewrite (S2 g ev' Hin), entry_put, decide_False by done. done.
Qed.

Lemma settle_one p e :
  tables_ok e → in_table e p.1 = true →
  ∃ e', epoll_settle p e = (Ok tt, e') ∧ tables_ok e' ∧ kept e e' ∧ (∀ i f, cnt e' i f = cnt e i f) ∧
    (∀ f, fd_revents (entry e' f) = if decide (f = p.1) then 0 else fd_revents (entry e f)) ∧
    (covers e (cnt e) → covers e' (cnt e')).
Proof.
  destruct p as [f ev]. cbn [fst]. intros He Hf. set (x := FdData (ref_cnt (entry e f)) 0).
  set (v := _ST_EPOLL_EVENTS (entry e f)). set (e1 := put f x e).
  destruct (mod_or_del_ok f v e1) as (e' & E1 & K1 & D1 & R1). change (reg e1) with (reg e) in R1.
  exists e'. split.
  { unfold epoll_settle. cbn [fst]. rewrite (bind_ok _ _ _ _ _ (fd_at_ok _ e Hf)). fold x v.
    by rewrite (bind_ok _ _ _ _ _ (set_fd_ok _ x e Hf)). }
  assert (∀ g, entry e' g = if decide (g = f) then x else entry e g) as Hent.
  { intros g. unfold entry at 1. rewrite D1. change (entry e1 g = if decide (g = f) then x else entry e g). by apply entry_put. }
  assert (∀ i g, cnt e' i g = cnt e i g) as Hcnt by (intros i g; cbn; rewrite Hent; by destruct (decide (g = f)) as [-> |]).
  assert (kept e e') as Hk by (transitivity e1; [apply put_kept | done]).
  split; [apply (tables_kept e e' Hk); [| done]; intros g H; left; by apply (reg_step_some _ _ _ _ _ R1) |].
  split; [done |]. split; [done |]. split; [intros g; rewrite Hent; by destruct (decide (g = f)) |].
  intros [Hi Hw]. split.
  - intros g Hr Hz. destruct (decide (g = f)) as [-> |].
    + assert (v = 0) as Hv by (apply events_zero; intros i; rewrite <- (Hz i); symmetry; apply Hcnt).
      unfold reg_step in R1. rewrite Hv in R1. rewrite R1. apply lookup_delete_eq.
    + rewrite (reg_step_ne _ _ _ _ _ R1) by done. apply Hi; [by rewrite Hent, decide_False in Hr |].
      intros i. by rewrite <- Hcnt.
  - intros i g H. rewrite Hcnt in H. destruct (Hw i g H) as (ev' & Hev & Hb). destruct (decide (g = f)) as [-> |].
    2: { exists ev'. by rewrite (reg_step_ne _ _ _ _ _ R1). }
    assert (ref_cnt (entry e f) i ≠ 0) as Hn by (cbn in H; lia). apply events_has in Hn. fold v in Hn.
    unfold reg_step in R1. destruct (Z.eqb_spec v 0) as [Hv | _]; [by rewrite Hv in Hn |].
    destruct R1 as [R1 | [_ R1]]; [exists ev'; by rewrite R1 | exists v; by rewrite R1, lookup_insert_eq].
Qed.

Lemma settle_ok l e :
  tables_ok e → in_answer e l →
  ∃ e', for_each epoll_settle l e = (Ok tt, e') ∧ tables_ok e' ∧ kept e e' ∧ (∀ i f, cnt e' i f = cnt e i f) ∧
    (∀ f, fd_revents (entry e' f) = if decide (f ∈ l.*1) then 0 else fd_revents (entry e f)) ∧
    (covers e (cnt e) → covers e' (cnt e')).
Proof.
  revert e. induction l as [| p l IH]; intros e He Hl; cbn [for_each].
  - exists e. split; [done |]. split_and!; done.
  - apply Forall_cons in Hl as [Hf Hl]. destruct (settle_one p e He Hf) as (e1 & E1 & T1 & K1 & C1 & R1 & V1).
    destruct (IH e1 T1 (in_answer_kept _ _ _ K1 Hl)) as (e2 & E2 & T2 & K2 & C2 & R2 & V2).
    rewrite (bind_ok _ _ _ _ _ E1). exists e2. split; [done |]. split; [done |]. split; [by transitivity e1 |].
    split; [intros i f; by rewrite C2 |]. split; [| auto]. intros f. rewrite R2, R1, fmap_cons.
    destruct (decide (f ∈ l.*1)); [by rewrite decide_True by (by right) |].
    destruct (decide (f = p.1)) as [-> |]; [by rewrite decide_True by left |]. rewrite decide_False; [done |].
    by rewrite not_elem_of_cons.
Qed.

(** One poll is looked at. *)
Record round_done (look : pollfd → Z) t s s' : Prop := {
  rd_queues : round_queues look t s s';
  rd_revents f : fd_revents (entry (eventsys s') f) = fd_revents (entry (eventsys s) f);
  rd_cnt i f : cnt (eventsys s') i f =
    cnt (eventsys s) i f - (if ready look s t then occurs i f (looked look (fds_of s t)) else 0);
  rd_kept : kept (eventsys s) (eventsys s');
  rd_covers : covers (eventsys s) (cnt (eventsys s)) → covers (eventsys s') (cnt (eventsys s'));
}.

Lemma looked_accepted e look l : accepted e l → accepted e (looked look l).
Proof. intros [H1 H2]. split; unfold in_tables, looked in *; apply Forall_fmap; [by apply (Forall_impl _ _ _ H1) | by apply (Forall_impl _ _ _ H2)]. Qed.

Lemma epoll_round_ok t s F :
  inv s → polls_wait s → t ∈ io_q s →
  wp (epoll_round t) (λ _ s', calm s s' ∧ round_done (epoll_look (eventsys s)) t s s') F s.
Proof.
  intros Hi Hp Ht. destruct (polling_fds s t Hi Ht) as (pq & Hpq & Hf & Hl). unfold epoll_round.
  set (look := epoll_look (eventsys s)). pose proof (looked_accepted _ look _ Hl) as Hl'.
  destruct (epoll_del_fds_ok (looked look (pds pq)) (eventsys s) (ib_ev _ _ _ (inv_all s Hi 0)) (proj1 Hl'))
    as (e & E1 & T1 & K1 & [C1 R1] & V1).
  apply wp_bind, wp_gets. cbn [id]. apply wp_bind. unfold wp at 1, the_pollq. rewrite Hpq.
  apply wp_bind, wp_check.
  { apply forallb_forall. intros pd Hpd. apply (proj1 (Forall_forall _ _) (proj1 Hl) pd). by apply list_elem_of_In. }
  apply (round_wp look _ _ t s e); try done.
  - by rewrite Hf.
  - intros _. rewrite Hf. split; [exact E1 |]. split; [done |]. intros l [Hl1 Hl2]. split; [by apply (in_tables_kept (eventsys s)) | done].
  - intros s' Hc Hq Hrd Ee. split; [done |]. split; rewrite ?Ee; try done.
    + intros i f. rewrite C1, Hrd, Hf. lia.
    + intros Hcov. apply V1; [done |]. eapply covers_mono; [| exact Hcov]. intros i f. rewrite C1.
      pose proof (occurs_nonneg i f (looked look (pds pq))). lia.
  - intros s' Hc Hq Hrd Ee. apply wp_ret. split; [done |]. split; rewrite ?Ee, ?Hrd; try done. intros. lia.
Qed.

(** ** After a fork *)
Lemma recreate_ok mypid e :
  tables_ok e →
  ∃ b e', epoll_recreate mypid e = (Ok b, e') ∧ tables_ok e' ∧ fd_data_size e' = fd_data_size e ∧
    (b = true → 0 <= epfd e' ∧ pid e' = mypid ∧ consistent e' ∧ ∀ i f, cnt e' i f = 0).
Proof.
  intros (H1 & H2 & _). unfold epoll_recreate.
  destruct (epoll_create (fd_hint e) _) as [[ep |] k] eqn:Ek.
  - eexists true, _. split; [reflexivity |]. set (e' := with_evtlist_cnt _ _).
    assert (reg e' = ∅) as Hr by (by apply (create_law _ _ _ _ Ek)).
    assert (fd_data_size e' = fd_data_size e) as Hs by (unfold fd_data_size; cbn; by rewrite length_replicate).
    assert (∀ f, entry e' f = no_data) as He.
    { intros f. unfold entry. cbn. destruct (0 <=? f); [| done].
      destruct (replicate _ _ !! _) as [y |] eqn:Hy; [| done]. by apply lookup_replicate in Hy as [-> _]. }
    split; [split_and!; [lia | done | intros f; rewrite Hr, lookup_empty; by intros []] |]. split; [done |].
    intros _. split; [by apply (create_law _ _ _ _ Ek) |]. split; [done |]. split; [| intros i f; cbn; by rewrite He].
    split; [intros f; by rewrite He |]. split; [intros f _; by rewrite Hr |]. intros i f. by rewrite He.
  - eexists false, _. split; [reflexivity |]. split; [| done]. split; [done |]. split; [done |].
    intros f. unfold reg. cbn. rewrite closed_law, lookup_empty. by intros [].
Qed.

(** The polls on the I/O queue are added again, one after the other. *)
Definition readd : Z → M vp unit := λ t,
  pq <- the_pollq t ;; on_ev (ignore_error (_st_epoll_pollset_add (pds pq))).

Lemma accepted_kept e e' l : kept e e' → accepted e l → accepted e' l.
Proof. intros Hk [Hl Hb]. split; [by apply (in_tables_kept e) | done]. Qed.

Lemma accepted_valid e l : accepted e l → Forall (λ pd, fd pd < 2 ^ 30) l.
Proof. intros [_ H]. by apply (Forall_impl _ _ _ H); intros pd []. Qed.

Lemma accepted_checks e l : accepted e l → for_each epoll_check_fd l e = (Ok tt, e).
Proof.
  intros [Hl Hb]. induction l as [| pd l IH]; [done |]. apply Forall_cons in Hl as [Hf Hl], Hb as [[_ Hp] Hb].
  cbn [for_each]. assert (epoll_check_fd pd e = (Ok tt, e)) as E1; [| rewrite (bind_ok _ _ _ _ _ E1); by apply IH].
  unfold epoll_check_fd. rewrite Hp. unfold bind. cbn [gets id]. apply in_table_spec in Hf.
  by rewrite (proj2 (Z.leb_gt _ _)) by lia.
Qed.

Lemma readd_one l e :
  tables_ok e → accepted e l →
  ∃ e', ignore_error (_st_epoll_pollset_add l) e = (Ok tt, e') ∧ tables_ok e' ∧ kept e e' ∧
    (has_room (epfd e) → (∀ i f, 0 <= cnt e i f) → consistent e →
      consistent e' ∧ ∀ i f, cnt e' i f = cnt e i f + occurs i f l).
Proof.
  intros He Hl. destruct (pollset_add_ok l e He (accepted_valid _ _ Hl)) as (o & e' & E1 & T1 & K1 & Ho & Hc).
  exists e'. split; [unfold ignore_error; rewrite E1; by destruct Ho as [[-> _] | [-> _]] |].
  split; [done |]. split; [done |]. intros Hroom H0 Hcons. split; [by apply Hc |].
  destruct Ho as [(_ & _ & [Hcnt _]) | [-> _]]; [intros i f; rewrite Hcnt; lia |]. exfalso.
  unfold _st_epoll_pollset_add in E1. rewrite (bind_ok _ _ _ _ _ (accepted_checks e l Hl)) in E1.
  destruct (epoll_add_fds_ok l e He (proj1 Hl)) as (n & e1 & E2 & _ & _ & _ & _ & V).
  rewrite (bind_ok _ _ _ _ _ E2) in E1. apply consistent_covers in Hcons as [Hq Hcov].
  destruct (V Hq H0 Hcov) as [_ Hn]. rewrite (Hn Hroom), Nat.ltb_irrefl in E1. done.
Qed.

Lemma readd_loop s (l : list Z) e :
  inv s → (∀ t, t ∈ l → t ∈ io_q s) → tables_ok e → (∀ k, accepted (eventsys s) k → accepted e k) →
  ∃ e', for_each readd l (with_eventsys e s) = (Ok tt, with_eventsys e' s) ∧ tables_ok e' ∧ kept e e' ∧
    (has_room (epfd e) → (∀ i f, 0 <= cnt e i f) → consistent e →
      consistent e' ∧ ∀ i f, cnt e' i f = cnt e i f + total (λ t, occurs i f (fds_of s t)) l).
Proof.
  intros Hi. revert e. induction l as [| t l IH]; intros e Hl He Ha; cbn [for_each].
  - exists e. split; [done |]. split; [done |]. split; [done |]. intros _ _ Hc. split; [done |]. intros. cbn. lia.
  - destruct (polling_fds s t Hi) as (pq & Hpq & Hf & Hacc); [apply Hl; left |].
    destruct (readd_one (pds pq) e He (Ha _ Hacc)) as (e1 & E1 & T1 & K1 & C1).
    assert (readd t (with_eventsys e s) = (Ok tt, with_eventsys e1 s)) as Et.
    { unfold readd, bind, the_pollq, on_ev. cbn [pollqs with_eventsys eventsys].
      rewrite Hpq. change (eventsys (with_eventsys e s)) with e. by rewrite E1. }
    destruct (IH e1) as (e2 & E2 & T2 & K2 & C2); [intros u Hu; apply Hl; by right | done | |].
    + intros k Hk. by apply (accepted_kept e), Ha.
    + rewrite (bind_ok _ _ _ _ _ Et). exists e2. split; [done |]. split; [done |]. split; [by transitivity e1 |].
      intros Hroom H0 Hc. destruct (C1 Hroom H0 Hc) as [Hc1 Hcnt1]. destruct C2 as [Hc2 Hcnt2]; [by rewrite (kept_epfd _ _ K1) | | done |].
      { intros i f. rewrite Hcnt1. pose proof (occurs_nonneg i f (pds pq)). specialize (H0 i f). lia. }
      split; [done |]. intros i f. rewrite Hcnt2, Hcnt1. unfold total. cbn [foldr]. rewrite Hf. lia.
Qed.

Lemma reinit_ok mypid s :
  inv s → polls_wait s →
  ∃ b e, epoll_reinit mypid s = (Ok b, with_eventsys e s) ∧ ev_step (eventsys s) e ∧
    (pid (eventsys s) = mypid → b = true ∧ e = eventsys s) ∧
    (pid (eventsys s) ≠ mypid → (∀ ep, 0 <= ep → has_room ep) → b = true → consistent e ∧ ∀ i f, cnt e i f = wanted s i f).
Proof.
  intros Hi Hp. unfold epoll_reinit. unfold bind at 1. cbn [gets id].
  pose proof (ib_ev _ _ _ (inv_all s Hi 0)) as Hev. destruct (Z.eqb_spec (pid (eventsys s)) mypid) as [He | Hne].
  - exists true, (eventsys s). split; [by destruct s |]. split; [by split |]. done.
  - destruct (recreate_ok mypid (eventsys s) Hev) as (b & e & E1 & T1 & S1 & C1).
    assert (on_ev (epoll_recreate mypid) s = (Ok b, with_eventsys e s)) as E2 by (unfold on_ev; by rewrite E1).
    assert (∀ k, accepted (eventsys s) k → accepted e k) as Ha.
    { intros k [H1 H2]. split; [| done]. eapply Forall_impl; [exact H1 |]. intros pd. rewrite !in_table_spec. lia. }
    rewrite (bind_ok _ _ _ _ _ E2). destruct b; cbn [negb].
    + unfold bind at 1. cbn [gets id]. fold readd.
      destruct (readd_loop s (io_q s) e Hi) as (e2 & E3 & T3 & K3 & C3); [done | done | done |].
      change (io_q (with_eventsys e s)) with (io_q s). rewrite (bind_ok _ _ _ _ _ E3).
      exists true, e2. split; [done |]. split; [split; [done |]; intros k Hk; by apply (accepted_kept e), Ha |].
      split; [done |]. intros _ Hroom _. destruct (C1 eq_refl) as (Hep & _ & Hc & Hz).
      destruct (C3 (Hroom _ Hep)) as [Hc' Hcnt]; [intros i f; by rewrite Hz | done |]. split; [done |].
      intros i f. rewrite Hcnt, Hz. done.
    + exists false, e. split; [done |]. split; [by split |]. done.
Qed.

(** ** [_st_epoll_dispatch] *)
(** [epoll_wait] reports registered descriptors, each once (epoll_wait(2)). *)
Definition epoll_answer_ok (os : epoll_os (K := K)) : Prop := ∀ k ep size timeout,
  NoDup (epoll_wait os k ep size timeout).*1 ∧
  Forall (λ p, is_Some (registered ep k !! p.1)) (epoll_wait os k ep size timeout).

(** [REVENTS] of every descriptor when [l] was reported. *)
Definition reported e (l : list (Z * Z)) (f : Z) : Z :=
  match list_find (λ p, p.1 = f) l with Some (_, p) => fired_revents (entry e f) p.2 | None => 0 end.

Definition reported_look e l (pd : pollfd) : Z := epoll_revents (reported e l (fd pd)) pd.

(** While the polls of [l] are still to come. *)
Record passing (look : pollfd → Z) s e1 (l : list Z) s' : Prop := {
  pa_told : ∃ v, io_q s = v ++ l ∧ told look s v s';
  pa_revents f : fd_revents (entry (eventsys s') f) = fd_revents (entry e1 f);
  pa_kept : kept e1 (eventsys s');
  pa_counts : matched s → counted s' ∧ covers (eventsys s') (cnt (eventsys s'));
}.

Lemma passing_round look s e1 t l s1 s2 :
  inv s → inv s1 → t ∈ io_q s1 → (∀ pd, look pd = epoll_look (eventsys s1) pd) →
  passing look s e1 (t :: l) s1 → round_done (epoll_look (eventsys s1)) t s1 s2 → passing look s e1 l s2.
Proof.
  intros Hi Hi1 Ht Hl [(v & Hv & Htold) Hr Hk Hc] [Q2 R2 C2 K2 V2].
  assert (round_queues look t s1 s2) as Q2'.
  { unfold round_queues, ready in *. assert (∀ k, looked look k = looked (epoll_look (eventsys s1)) k) as E.
    { intros k. apply looked_ext. intros pd _. apply Hl. }
    by rewrite !E. }
  split.
  - exists (v ++ [t]). by apply (loop_told look s l s1).
  - intros f. by rewrite R2.
  - by transitivity (eventsys s1).
  - intros Hm. destruct (Hc Hm) as [H1 H2]. split; [| by apply V2].
    by apply (round_counted (epoll_look (eventsys s1)) t s1 s2).
Qed.

Lemma pass_ok l s F :
  inv s → polls_wait s → in_answer (eventsys s) l → NoDup l.*1 →
  wp (on_ev (for_each epoll_fire l) ;; for_each epoll_round (io_q s) ;; on_ev (for_each epoll_settle l))
    (λ _ s', calm s s' ∧ (quiet (eventsys s) → all_told (reported_look (eventsys s) l) s s') ∧ (matched s → matched s')) F s.
Proof.
  intros Hi Hp Hl Hnd. set (e := eventsys s) in *. pose proof (ib_ev _ _ _ (inv_all s Hi 0)) as He.
  destruct (fire_ok l e He Hl Hnd) as (e1 & E1 & T1 & [Rc Rr Rk] & N1 & F1).
  set (s1 := with_eventsys e1 s). assert (on_ev (for_each epoll_fire l) s = (Ok tt, s1)) as H1.
  { unfold on_ev. fold e. by rewrite E1. }
  assert (inv s1) as Hi1.
  { apply with_eventsys_inv; [| done]. split; [done |]. intros k. by apply accepted_kept. }
  apply wp_bind. eapply (wp_eq _ _ _ _ _ _ H1). apply wp_bind.
  set (look := epoll_look e1). change (io_q s) with (io_q s1).
  eapply wp_mono; [| | apply (loop_wp (passing look s e1) epoll_round s1 F)]; try done.
  - cbn beta. intros _ s2 ((Hi2 & Hp2 & Et2 & Ei2) & [(v & Hv & Ht) Hr Hk Hc]). rewrite app_nil_r in Hv. subst v.
    destruct (settle_ok l (eventsys s2)) as (e3 & E3 & T3 & K3 & C3 & R3 & V3).
    { apply (inv_all s2 Hi2 0). } { apply (in_answer_kept e1); [done |]. by apply (in_answer_kept e). }
    eapply (wp_eq _ _ tt (with_eventsys e3 s2)); [unfold on_ev; by rewrite E3 |].
    split; [| split].
    + split; [| done]. apply with_eventsys_inv; [| done]. split; [done |]. intros k. by apply accepted_kept.
    + intros Hq. refine (told_all _ _ _ (told_ext look _ _ _ _ _ Ht)).
      intros pd. unfold look, epoll_look, reported_look, reported. f_equal.
      destruct (list_find _ l) as [[n [f ev]] |] eqn:Hfind.
      * apply list_find_Some in Hfind as (Hn & Hf & _). cbn in Hf. subst f.
        apply F1. by eapply list_elem_of_lookup_2.
      * apply list_find_None in Hfind. rewrite N1; [apply Hq |].
        intros (p & Hpf & Hpl)%list_elem_of_fmap. rewrite Forall_forall in Hfind. by apply (Hfind p Hpl).
    + intros Hm. destruct (Hc Hm) as [Hcnt Hcov]. split; [intros i f; cbn [eventsys with_eventsys]; rewrite C3; apply Hcnt |].
      apply consistent_covers. split; [| by apply V3]. intros f. cbn [eventsys with_eventsys]. rewrite R3, Hr.
      destruct (decide (f ∈ l.*1)); [done |]. rewrite N1 by done.
      pose proof (matched_watched _ Hm) as Hw. apply consistent_covers in Hw as [Hq _]. apply Hq.
  - split; [exists []; split; [done | by apply told_nil] | done | done |].
    intros [Hcnt Hw]. split; [intros i f; cbn [eventsys s1 with_eventsys]; rewrite Rc; apply Hcnt |].
    apply consistent_covers in Hw as [Hq [W1 W2]]. split.
    + intros f _ Hz. cbn [eventsys s1 with_eventsys]. rewrite Rr. apply W1; [apply Hq |]. intros i. rewrite <- Rc. apply Hz.
    + intros i f H. cbn [eventsys s1 with_eventsys] in *. rewrite Rc in H. destruct (W2 i f H) as (ev & H2 & H3).
      exists ev. by rewrite Rr.
  - intros t k s' F' Hi' Hp' HP Hin Htk.
    eapply wp_mono; [| | apply (epoll_round_ok t s' F' Hi' Hp' Hin)]; [| done].
    cbn beta. intros _ s2 (Hca & Hd). split; [done |]. split; [| exists (epoll_look (eventsys s')); apply Hd].
    apply (passing_round look s e1 t k s'); try done.
    intros pd. unfold look, epoll_look. by rewrite (pa_revents _ _ _ _ _ HP).
Qed.

Lemma answer_in_tables os e timeout :
  epoll_answer_ok os → tables_ok e →
  let l := epoll_wait os (kernel e) (epfd e) (evtlist_size e) timeout in in_answer e l ∧ NoDup l.*1.
Proof.
  intros Ha (_ & _ & H3). destruct (Ha (kernel e) (epfd e) (evtlist_size e) timeout) as [Hnd Hreg].
  split; [| done]. eapply Forall_impl; [exact Hreg |]. intros p. apply H3.
Qed.

(** The part of the dispatch after the check for a fork. *)
Lemma dispatch_from e (os : epoll_os) timeout s F :
  inv s → polls_wait s → epoll_answer_ok os → ev_step (eventsys s) e →
  wp (s <- gets id ;;
      match epoll_wait os (kernel (eventsys s)) (epfd (eventsys s)) (evtlist_size (eventsys s)) timeout with
      | [] => ret tt
      | fired => on_ev (for_each epoll_fire fired) ;; for_each epoll_round (io_q s) ;; on_ev (for_each epoll_settle fired)
      end)
    (λ _ s', calm s s' ∧ (matched (with_eventsys e s) → matched s')) F (with_eventsys e s).
Proof.
  intros Hi Hp Ha He. apply wp_bind, wp_gets. cbn [id]. set (s1 := with_eventsys e s).
  assert (inv s1) as Hi1 by (by apply with_eventsys_inv).
  destruct (answer_in_tables os (eventsys s1) timeout Ha) as [H1 H2]; [apply He |].
  destruct (epoll_wait _ _ _ _ _) as [| p l]; [by apply wp_ret |].
  eapply wp_mono; [| | apply (pass_ok (p :: l) s1 F)]; try done.
  cbn beta. intros _ s2 ((Hi2 & Hp2 & Et & Ei) & _ & Hm). done.
Qed.

Lemma epoll_dispatch_ok os s F :
  inv s → polls_wait s → epoll_answer_ok os →
  wp (_st_epoll_dispatch os) (λ _ s', calm s s' ∧ (getpid os = pid (eventsys s) → matched s → matched s')) F s.
Proof.
  intros Hi Hp Ha. unfold _st_epoll_dispatch. apply wp_bind, wp_gets. cbn [id]. cbn zeta.
  destruct (reinit_ok (getpid os) s Hi Hp) as (b & e & E1 & He & Hsame & _).
  apply wp_bind. eapply (wp_eq _ _ _ _ _ _ E1). destruct b; cbn [negb].
  - eapply wp_mono; [| | apply (dispatch_from e os (timeout_ms s) s F)]; try done.
    cbn beta. intros _ s' [Hc Hm]. split; [done |]. intros Hpid Hms. apply Hm.
    destruct (Hsame (eq_sym Hpid)) as [_ ->]. by destruct s.
  - apply wp_ret. split; [| intros Hpid; by destruct (Hsame (eq_sym Hpid))].
    split; [by apply with_eventsys_inv | done].
Qed.

#[export] Instance epoll_dispatch_laws : DispatchLaws data (epoll_os (K := K)).
Proof.
  refine {| answer_ok os _ := epoll_answer_ok os |}.
  - intros os s Hi Hp Ha. eapply wp_mono; [| | by apply (epoll_dispatch_ok os s (λ _, False))]; [| done].
    cbn beta. intros _ s' ((? & ? & ? & ?) & _). done.
  - done.
  - intros os. unfold dispatch, epoll_dispatch, _st_epoll_dispatch, epoll_reinit, grows.
    assert (∀ l : list Z, pres (goes_on (E := data)) (for_each epoll_round l)) as Hl.
    { intros l. apply pres_for_each; [apply _ |]. intros t. unfold epoll_round, round. pres. }
    assert (∀ l : list Z, pres (goes_on (E := data)) (for_each readd l)) as Hr.
    { intros l. apply pres_for_each; [apply _ |]. intros t. unfold readd. pres. }
    fold readd. pres; (apply Hr || apply Hl).
Defined.

(** A process that does not fork. *)
Record epoll_here := EpollHere { waits : K → Z → Z → Z → list (Z * Z) }.

Definition here (a : epoll_here) (s : vp) : epoll_os := EpollOs (pid (eventsys s)) (waits a).

#[export] Instance epoll_here_dispatch : Dispatch data epoll_here := {
  dispatch a := s <- gets id ;; _st_epoll_dispatch (here a s)
}.

#[export] Instance epoll_here_laws : DispatchLaws data epoll_here.
Proof.
  refine {| answer_ok a _ := ∀ p, epoll_answer_ok (EpollOs p (waits a)) |}.
  - intros a s Hi Hp Ha. apply wp_bind, wp_gets. exact (dispatch_ok (here a s) s Hi Hp (Ha _)).
  - done.
  - intros a. unfold dispatch, epoll_here_dispatch, grows. pres. exact (dispatch_grows (here a a0)).
Defined.

#[export] Instance epoll_here_counting : DispatchKept data epoll_here matched.
Proof.
  split. intros a s Hi Hp Ha Hm. apply wp_bind, wp_gets. cbn [id].
  eapply wp_mono; [| | apply (epoll_dispatch_ok (here a s) s (λ _, False))]; [| done | done | done | apply Ha].
  cbn beta. intros _ s' [_ H]. by apply H.
Qed.

(** ** Who is told, and when *)
(** The events [ev] concern what is asked for, or report an error or a hang-up. *)
Definition concerns (ev : Z) (pd : pollfd) : Prop :=
  (∃ i, asks pd i = true ∧ Z.land ev (mask i) ≠ 0) ∨ Z.land ev (Z.lor EPOLLERR EPOLLHUP) ≠ 0.

Lemma land_lor_zero a b c : Z.land a (Z.lor b c) = 0 ↔ Z.land a b = 0 ∧ Z.land a c = 0.
Proof. rewrite Z.land_lor_distr_r. apply Z.lor_eq_0_iff. Qed.

Lemma revents_concern r pd : epoll_revents r pd ≠ 0 ↔ concerns r pd.
Proof.
  unfold epoll_revents, concerns. rewrite land_lor_zero.
  destruct (Z.eqb_spec r 0) as [-> | Hr].
  { split; [done |]. intros [(i & _ & H) | H]; [done | by destruct H]. }
  change EPOLLIN with (mask Rd). change EPOLLOUT with (mask Wr). change EPOLLPRI with (mask Ex).
  assert ((∃ i, asks pd i = true ∧ Z.land r (mask i) ≠ 0) ↔
    asks pd Rd && negb (Z.land r (mask Rd) =? 0) = true ∨ asks pd Wr && negb (Z.land r (mask Wr) =? 0) = true ∨
    asks pd Ex && negb (Z.land r (mask Ex) =? 0) = true) as ->.
  { rewrite !andb_true_iff, !negb_true_iff, !Z.eqb_neq. split; [intros ([] & H); tauto |].
    intros [H | [H | H]]; [by exists Rd | by exists Wr | by exists Ex]. }
  assert (Z.land r EPOLLERR = 0 ∧ Z.land r EPOLLHUP = 0 ↔
    negb (Z.land r EPOLLERR =? 0) = false ∧ negb (Z.land r EPOLLHUP =? 0) = false) as ->.
  { by rewrite !negb_false_iff, !Z.eqb_eq. }
  destruct (asks pd Rd && _), (asks pd Wr && _), (asks pd Ex && _), (negb (Z.land r EPOLLERR =? 0)),
    (negb (Z.land r EPOLLHUP =? 0)); vm_compute; intuition congruence.
Qed.

Lemma fired_concern x ev pd : concerns (fired_revents x ev) pd ↔ concerns ev pd.
Proof.
  unfold fired_revents. destruct (Z.eqb_spec (Z.land ev (Z.lor EPOLLERR EPOLLHUP)) 0) as [| Hn]; [done |]. cbn [negb].
  split; intros _; right; [done |]. rewrite Z.land_lor_distr_l, Z.lor_eq_0_iff. tauto.
Qed.

(** [l] reports an event for a descriptor of the poll of [t]. *)
Definition polled_event (l : list (Z * Z)) s t : Prop :=
  ∃ pd ev, pd ∈ fds_of s t ∧ (fd pd, ev) ∈ l ∧ concerns ev pd.

Lemma ready_polled e l s t : NoDup l.*1 → ready (reported_look e l) s t = true ↔ polled_event l s t.
Proof.
  intros Hnd. unfold ready, looked. rewrite existsb_exists. split.
  - intros (p & Hp & Hb). apply list_elem_of_In, list_elem_of_fmap in Hp as (pd & -> & Hpd).
    unfold has_event in Hb. cbn [revents] in Hb. apply negb_true_iff, Z.eqb_neq in Hb.
    unfold reported_look, reported in Hb. destruct (list_find _ l) as [[n [f ev]] |] eqn:Hfind.
    + apply list_find_Some in Hfind as (Hn & Hf & _). cbn in Hf. subst f. apply revents_concern, fired_concern in Hb.
      exists pd, ev. split; [done |]. split; [by eapply list_elem_of_lookup_2 | done].
    + apply revents_concern in Hb as [(i & _ & H) | H]; by cbn in H.
  - intros (pd & ev & Hpd & Hev & Hc). eexists. split; [apply list_elem_of_In, list_elem_of_fmap; by exists pd |].
    unfold has_event. cbn [revents]. apply negb_true_iff, Z.eqb_neq, revents_concern. unfold reported.
    destruct (list_find (λ p, p.1 = fd pd) l) as [[n [f ev']] |] eqn:Hfind.
    + apply list_find_Some in Hfind as (Hn & Hf & _). cbn in Hf. subst f. apply fired_concern.
      apply list_elem_of_lookup in Hev as [m Hm]. assert (n = m) as ->.
      { eapply NoDup_lookup; [exact Hnd | |]; rewrite list_lookup_fmap; [by rewrite Hn | by rewrite Hm]. }
      rewrite Hm in Hn. by injection Hn as ->.
    + apply list_find_None in Hfind. rewrite Forall_forall in Hfind. by destruct (Hfind _ Hev).
Qed.
End system.

(** ** Tables as [_st_epoll_init] leaves them *)
Lemma epoll_init_ok {K : Type} `{!EpollKernel K, !EpollLaws K} fdlim mypid mem dat lists k (e : @_st_epolldata K) k' :
  _st_epoll_init fdlim mypid mem dat lists k = (Ok e, k') →
  tables_ok e ∧ consistent e ∧ (∀ i f, cnt e i f = 0) ∧ pid e = mypid.
Proof.
  unfold _st_epoll_init. destruct mem; [| done]. cbn [negb].
  set (hint := if (0 <? fdlim) && (fdlim <? ST_EPOLL_EVTLIST_SIZE) then fdlim else ST_EPOLL_EVTLIST_SIZE).
  assert (0 < hint) as Hh.
  { unfold hint. destruct (Z.ltb_spec 0 fdlim); [| done]. by destruct (fdlim <? ST_EPOLL_EVTLIST_SIZE). }
  destruct (epoll_create hint k) as [[ep |] k1] eqn:Ek; [| done]. destruct (dat && lists); [| done].
  intros [= <- <-]. apply create_law in Ek as [Hep Hr].
  match goal with |- tables_ok ?x ∧ _ => set (e := x) end.
  assert (reg e = ∅) as Hreg by exact Hr.
  assert (∀ f, entry e f = no_data) as He.
  { intros f. unfold entry. cbn. destruct (0 <=? f); [| done].
    destruct (replicate _ _ !! _) as [y |] eqn:Hy; [| done]. by apply lookup_replicate in Hy as [-> _]. }
  split; [| split; [| split; [intros i f; cbn; by rewrite He | done]]].
  - split; [unfold fd_data_size; cbn; rewrite length_replicate; lia |]. split; [done |].
    intros f. rewrite Hreg, lookup_empty. by intros [].
  - split; [intros f; by rewrite He |]. split; [intros f _; by rewrite Hreg |]. intros i f. by rewrite He.
Qed.

(** C16: when [epoll_wait] reports events in a process that did not fork, [_st_epoll_dispatch] makes exactly those polling threads
    runnable that have a descriptor with an event they asked for, an error or a hang-up, in the
    order of the I/O queue, stores what occurred in [revents] and leaves the others waiting;
    afterwards the counts are again the events the waiting polls ask for, the epoll set holds every one of them
    and no descriptor that nobody waits for. *)
Theorem epoll_notifies_ready {K : Type} `{!EpollKernel K, !EpollLaws K} (os : epoll_os (K := K)) s p fired :
  inv s → polls_wait s → matched s → epoll_answer_ok os → getpid os = pid (eventsys s) →
  epoll_wait os (kernel (eventsys s)) (epfd (eventsys s)) (evtlist_size (eventsys s)) (timeout_ms s) = p :: fired →
  ∃ s', _st_epoll_dispatch os s = (Ok tt, s') ∧ inv s' ∧ all_told (reported_look (eventsys s) (p :: fired)) s s' ∧
    (∀ t, ready (reported_look (eventsys s) (p :: fired)) s t = true ↔ polled_event (p :: fired) s t) ∧
    (∀ i f, cnt (eventsys s') i f = wanted s' i f) ∧
    (∀ i f, 0 < wanted s' i f → watched (eventsys s') i f) ∧
    (∀ f, (∀ i, wanted s' i f = 0) → ∀ i, ¬ watched (eventsys s') i f).
Proof.
  intros Hi Hp Hm Ha Hpid Hw. destruct (answer_in_tables os (eventsys s) (timeout_ms s) Ha) as [Hin Hnd].
  { apply (inv_all s Hi 0). }
  rewrite Hw in Hin, Hnd. pose proof (pass_ok (p :: fired) s (λ _, False) Hi Hp Hin Hnd) as H.
  assert (_st_epoll_dispatch os s = (on_ev (for_each epoll_fire (p :: fired)) ;; for_each epoll_round (io_q s) ;;
    on_ev (for_each epoll_settle (p :: fired))) s) as ->.
  { unfold _st_epoll_dispatch, epoll_reinit. unfold bind at 1. cbn [gets id]. rewrite Hpid. unfold bind at 1.
    unfold bind at 1. cbn [gets id]. rewrite Z.eqb_refl. cbn [ret negb]. unfold bind at 1. cbn [gets id]. by rewrite Hw. }
  unfold wp in H. destruct (bind _ _ s) as [[[] | | | |] s']; try done. destruct H as ((Hi' & _) & Ht & Hm').
  assert (consistent (eventsys s)) as Hc by apply Hm.
  exists s'. split; [done |]. split; [done |]. split; [apply Ht; by apply consistent_covers in Hc as [Hq _] |].
  split; [intros t; by apply ready_polled |]. by apply matched_means, Hm'.
Qed.

(** C29: after a fork [_st_epoll_dispatch] first creates a new epoll set.  When that succeeds and the kernel has room, the counts are
    those of the polls on the I/O queue and every one of them is in the new set, while the queues are untouched. *)
Theorem fork_restores_polls {K : Type} `{!EpollKernel K, !EpollLaws K} mypid (s : @_st_vp (@_st_epolldata K)) ep k :
  inv s → polls_wait s → pid (eventsys s) ≠ mypid →
  epoll_create (fd_hint (eventsys s)) (close_epoll (epfd (eventsys s)) (kernel (eventsys s))) = (Some ep, k) →
  (∀ ep, 0 <= ep → has_room ep) →
  ∃ e, epoll_reinit mypid s = (Ok true, with_eventsys e s) ∧ inv (with_eventsys e s) ∧
    matched (with_eventsys e s) ∧ pid e = mypid ∧ epfd e = ep.
Proof.
  intros Hi Hp Hne Hk Hroom. destruct (reinit_ok mypid s Hi Hp) as (b & e & E1 & He & _ & Hm).
  assert (b = true ∧ pid e = mypid ∧ epfd e = ep) as (-> & Hpid & Hepfd).
  { unfold epoll_reinit in E1. unfold bind at 1 in E1. cbn [gets id] in E1. apply Z.eqb_neq in Hne. rewrite Hne in E1.
    unfold bind at 1, on_ev, epoll_recreate in E1. rewrite Hk in E1. cbn [negb] in E1. unfold bind at 1 in E1.
    cbn [gets id] in E1. set (e0 := with_evtlist_cnt _ _) in E1.
    destruct (recreate_ok mypid (eventsys s)) as (b' & e' & E2 & T2 & S2 & _); [apply (inv_all s Hi 0) |].
    unfold epoll_recreate in E2. rewrite Hk in E2. fold e0 in E2. injection E2 as <- <-. fold readd in E1.
    destruct (readd_loop s (io_q s) e0 Hi) as (e3 & E3 & _ & K3 & _); [done | done | |].
    { intros l [H1 H2]. split; [| done]. eapply Forall_impl; [exact H1 |]. intros pd. rewrite !in_table_spec. lia. }
    change (io_q (with_eventsys e0 s)) with (io_q s) in E1. rewrite (bind_ok _ _ _ _ _ E3) in E1. injection E1 as <- E1.
    subst e. split; [done |].
    rewrite (kept_pid _ _ K3), (kept_epfd _ _ K3). done. }
  exists e. split; [done |]. split; [by apply with_eventsys_inv |]. destruct (Hm Hne Hroom eq_refl) as [H1 H2].
  split; [by split |]. done.
Qed.

(** ** A kernel: epoll sets by their descriptors *)
Notation epoll_sets := (gmap Z (gmap Z Z)).

Definition set_of (ep : Z) (k : epoll_sets) : gmap Z Z := if ep <? 0 then ∅ else default ∅ (k !! ep).

#[export] Instance sets_kernel : EpollKernel epoll_sets := {
  epoll_create _ k := let ep := 3 + Z.of_nat (size k) in (Some ep, <[ep := ∅]> k);
  epoll_ctl ep op f ev k :=
    if ep <? 0 then (Ctl_error, k) else
    let m := set_of ep k in
    match op, m !! f with
    | EPOLL_CTL_ADD, None | EPOLL_CTL_MOD, Some _ => (Ctl_ok, <[ep := <[f := ev]> m]> k)
    | EPOLL_CTL_DEL, Some _ => (Ctl_ok, <[ep := delete f m]> k)
    | EPOLL_CTL_ADD, Some _ => (Ctl_exist, k)
    | _, None => (Ctl_error, k)
    end;
  close_epoll ep k := delete ep k;
  realloc _ k := (true, k);
}.

#[export] Instance sets_laws : EpollLaws epoll_sets.
Proof.
  refine {| registered := set_of |}; try done.
  - intros ep op f ev k r k' H. cbn in H. unfold set_of in *. destruct (ep <? 0) eqn:He.
    + injection H as <- <-. destruct op; constructor; apply lookup_empty.
    + assert (∀ x : gmap Z Z, default ∅ (<[ep := x]> k !! ep) = x) as Hx by (intros x; by rewrite lookup_insert_eq).
      remember (default ∅ (k !! ep)) as m eqn:Em. destruct op, (m !! f) eqn:Hm; injection H as <- <-;
        rewrite ?Hx; rewrite <- ?Em; constructor; rewrite ?Hm; eauto.
  - intros n k ep k' H. injection H as <- <-. split; [lia |]. unfold set_of.
    rewrite (proj2 (Z.ltb_ge _ _)) by lia. by rewrite lookup_insert_eq.
  - intros n k b k' ep H. cbn in H. by injection H as <- <-.
Defined.

(** ** Two threads wait for the descriptors 5 and 7, and the second is readable. *)
#[export] Instance epoll_checks : Checks (@_st_epolldata epoll_sets) (epoll_here (K := epoll_sets)).
Proof.
  refine {| validb := forallb (λ pd, fd pd <? 2 ^ 30); answerb _ _ := false |}; [| done].
  intros fds H. apply Forall_forall. intros pd Hpd. apply Z.ltb_lt.
  by apply (proj1 (forallb_forall _ _) H pd), list_elem_of_In.
Defined.

Definition sets_data : @_st_epolldata epoll_sets :=
  match _st_epoll_init 4 77 true true true ∅ with (Ok e, _) => e | (_, k) => Epolldata [] 0 0 0 0 0 k end.

Lemma sets_data_ok : tables_ok sets_data ∧ consistent sets_data ∧ (∀ i f, cnt sets_data i f = 0) ∧ pid sets_data = 77.
Proof. apply (epoll_init_ok 4 77 true true true ∅ sets_data (kernel sets_data)). vm_compute. reflexivity. Qed.

Definition epoll_polls : list (@event (epoll_here (K := epoll_sets))) :=
  [Create 3; Poll [Pollfd 5 POLLIN 0] ST_UTIME_NO_TIMEOUT; Resume;
   Poll [Pollfd 7 (Z.lor POLLIN POLLOUT) 0; Pollfd 5 POLLIN 0] 100].

Definition epoll_two : @_st_vp (@_st_epolldata epoll_sets) := reached (A := epoll_here) sets_data epoll_polls.

Lemma epoll_two_run : is_Some (run_events epoll_polls (init sets_data)).
Proof. vm_compute. by eexists. Qed.

Lemma epoll_two_inv : inv epoll_two ∧ polls_wait epoll_two ∧ matched epoll_two.
Proof.
  assert (inv epoll_two) as Hi by (apply reached_inv; [apply sets_data_ok | apply epoll_two_run]).
  split; [exact Hi |]. split; [apply idle_polls_wait; [exact Hi | vm_compute; done | vm_compute; done] |].
  apply (steps_kept (A := epoll_here) matched (init sets_data)).
  - apply reached_rtc, epoll_two_run.
  - apply init_ok; [done | apply sets_data_ok].
  - apply init_matched; apply sets_data_ok.
Qed.

Definition seven_fires : epoll_os (K := epoll_sets) :=
  EpollOs 77 (λ k ep _ _, if set_of ep k !! 7 then [(7, EPOLLIN)] else []).

Lemma seven_fires_ok : epoll_answer_ok seven_fires.
Proof.
  intros k ep size timeout. cbn [epoll_wait seven_fires].
  destruct (set_of ep k !! 7) eqn:H; (split; [cbn; repeat constructor; try apply not_elem_of_nil |]).
  - constructor; [| constructor]. change (is_Some (set_of ep k !! 7)). by rewrite H.
  - constructor.
Qed.

Lemma epoll_notifies_ready_witness :
  ∃ s', _st_epoll_dispatch seven_fires epoll_two = (Ok tt, s') ∧ run_q s' = [3] ∧ io_q s' = [2] ∧
    pollqs s' !! 3 = Some (Pollq [Pollfd 7 5 1; Pollfd 5 1 0] false) ∧ watched (eventsys s') Rd 5 ∧
    ¬ watched (eventsys s') Rd 7.
Proof.
  destruct epoll_two_inv as (Hi & Hp & Hc).
  destruct (epoll_notifies_ready seven_fires epoll_two (7, EPOLLIN) [] Hi Hp Hc seven_fires_ok) as (s' & E1 & _ & (Er & Eio & Ef) & _ & _ & Hw & Hn).
  - vm_compute. reflexivity.
  - vm_compute. reflexivity.
  - exists s'. split; [exact E1 |]. split; [rewrite Er; vm_compute; reflexivity |].
    split; [rewrite Eio; vm_compute; reflexivity |].
    split; [rewrite (Ef 3); [vm_compute; reflexivity |]; vm_compute; right; left |].
    assert (s' = (_st_epoll_dispatch seven_fires epoll_two).2) as -> by (by rewrite E1). split.
    + apply Hw. vm_compute. reflexivity.
    + apply Hn. intros i. destruct i; vm_compute; reflexivity.
Defined.

Lemma sets_have_room ep : 0 <= ep → has_room (K := epoll_sets) ep.
Proof.
  intros Hep f ev k. cbn. unfold set_of. rewrite (proj2 (Z.ltb_ge _ _)) by lia. split.
  - by destruct (default ∅ (k !! ep) !! f).
  - by intros [x ->].
Qed.

Lemma fork_restores_polls_witness :
  ∃ e, epoll_reinit 78 epoll_two = (Ok true, with_eventsys e epoll_two) ∧ epfd e = 3 ∧
    set_of 3 (kernel e) = {[5 := 1; 7 := 5]} ∧ wanted (with_eventsys e epoll_two) Rd 5 = 2.
Proof.
  destruct epoll_two_inv as (Hi & Hp & _).
  destruct (fork_restores_polls 78 epoll_two 3 {[3 := ∅]} Hi Hp) as (e & E1 & _ & _ & _ & Hep).
  - vm_compute. done.
  - vm_compute. reflexivity.
  - apply sets_have_room.
  - exists e. split; [exact E1 |]. split; [exact Hep |].
    assert (e = eventsys (epoll_reinit 78 epoll_two).2) as -> by (by rewrite E1).
    split; vm_compute; reflexivity.
Defined.
