(* ===== verification/NetFd.v ===== *)
(** * 3rdpart/st-1.9/io.c: descriptor objects and their free list

    A [_st_netfd_t] is never given back to the allocator: freed objects are kept on a list linked by
    [next].  The state is laid over that of the scheduler, because closing asks the event
    system whether a thread still polls the descriptor. *)

From stdpp Require Import base list sets gmap.
From Stdlib Require Import Lia ZArith.
From S2P Require Import Prelude.
From S2P Require Import TimeoutHeap.
From S2P Require Import Vp.
From S2P Require Import Sync.
From S2P Require Import Fair.
From S2P Require Import Sched.
From S2P Require Import SchedOps.
From S2P Require Import SchedCalls.
From S2P Require Import SchedSteps.
From S2P Require Import IoQueue.
From S2P Require Import Interest.
From S2P Require Import Rounds.
From S2P Require Import SelectEv.
From S2P Require Import PollEv.
From S2P Require Import KqEv.
From S2P Require Import EpollEv.

Local Open Scope Z_scope.

#[export] Instance interest_all_dec (P : interest → Prop) `{∀ i, Decision (P i)} : Decision (∀ i, P i).
Proof.
  destruct (decide (P Rd)) as [H1 | H1]; [| right; intros HP; apply H1, HP].
  destruct (decide (P Wr)) as [H2 | H2]; [| right; intros HP; apply H2, HP].
  destruct (decide (P Ex)) as [H3 | H3]; [| right; intros HP; apply H3, HP].
  left. by intros [].
Defined.

(** The rest of the event system's interface. *)
Class FdEvents (E : Type) := {
  fd_new : Z → M E unit;
  fd_close : Z → M E unit;
}.

(** [fd_known]: the tables have room for the descriptor. *)
Class FdEventsLaws (E : Type) `{!EventSys E, !EventSysLaws E, !Counting E, !FdEvents E} := {
  fd_known : E → Z → Prop;
  fd_new_ok f e : ev_ok e → 0 <= f < 2 ^ 30 →
    ∃ o e', fd_new f e = (o, e') ∧ (o = Ok tt ∧ fd_known e' f ∨ o = Fail) ∧ ev_step e e' ∧
      ∀ i g, cnt e' i g = cnt e i g;
  fd_close_ok f e : ev_ok e → fd_known e f →
    fd_close f e = (if decide (∀ i, cnt e i f = 0) then Ok tt else Fail, e);
}.

#[export] Instance select_fd_events : FdEvents _st_seldata := {
  fd_new f e := (_st_select_fd_new f, e);
  fd_close := _st_select_fd_close;
}.

(** It counts no descriptors, so that it never refuses to close one; it is no instance of the laws. *)
#[export] Instance poll_fd_events : FdEvents _st_polldata := {
  fd_new f e := (_st_poll_fd_new f, e);
  fd_close := _st_poll_fd_close;
}.

#[export] Instance epoll_fd_events {K : Type} `{!EpollKernel K} : FdEvents (@_st_epolldata K) := {
  fd_new := _st_epoll_fd_new;
  fd_close := _st_epoll_fd_close;
}.

#[export] Instance kq_fd_events {K : Type} `{!KqKernel K} : FdEvents (@_st_kqdata K) := {
  fd_new := _st_kq_fd_new;
  fd_close := _st_kq_fd_close;
}.

Lemma three_counts (n : interest → Z) :
  (if negb (n Rd =? 0) || negb (n Wr =? 0) || negb (n Ex =? 0) then Fail else Ok tt) =
  (if decide (∀ i, n i = 0) then Ok tt else Fail).
Proof.
  case_decide as H; [by rewrite !H |]. destruct (negb (n Rd =? 0) || negb (n Wr =? 0) || negb (n Ex =? 0)) eqn:Hb; [done |]. exfalso. apply H.
  rewrite !orb_false_iff, !negb_false_iff, !Z.eqb_eq in Hb. destruct Hb as [[? ?] ?]. by intros [].
Qed.

#[export] Instance select_fd_laws : FdEventsLaws _st_seldata.
Proof.
  refine {| fd_known _ f := 0 <= f < FD_SETSIZE |}.
  - intros f e He Hf. unfold fd_new, select_fd_events, _st_select_fd_new. eexists _, e. split; [done |].
    split; [| split; [by split | done]]. destruct (Z.leb_spec FD_SETSIZE f); [by right | left]. split; [done | lia].
  - intros f e He Hf. unfold fd_close, select_fd_events, _st_select_fd_close.
    rewrite !fd_index_some by done. f_equal. apply (three_counts (λ i, cnt e i f)).
Defined.

#[export] Instance epoll_fd_laws {K : Type} `{!EpollKernel K, !EpollLaws K} : FdEventsLaws (@_st_epolldata K).
Proof.
  refine {| fd_known e f := in_table e f = true |}.
  - intros f e He Hf. unfold fd_new, epoll_fd_events, _st_epoll_fd_new. unfold bind at 1. cbn [gets id].
    destruct (Z.leb_spec (fd_data_size e) f).
    + destruct (fd_data_expand_ok f e He) as (o & e' & E1 & D1 & Ho); [lia |]. exists o, e'. split; [exact E1 |].
      split; [tauto |]. split; [split; [by apply (same_data_tables e) |]; intros l; apply accepted_kept, D1 |].
      intros i g. cbn. by rewrite (sd_entry _ _ D1).
    + exists (Ok tt), e. split; [done |]. split; [left; split; [done |]; apply in_table_spec; lia |]. split; [by split | done].
  - intros f e He Hf. unfold fd_close, epoll_fd_events, _st_epoll_fd_close.
    rewrite (bind_ok _ _ _ _ _ (fd_at_ok _ e Hf)).
    pose proof (three_counts (λ i, ref_cnt (entry e f) i)) as H3. cbn beta in H3. cbn [cnt epoll_counting].
    rewrite <- H3. by destruct (ref_cnt _ Rd =? 0), (ref_cnt _ Wr =? 0), (ref_cnt _ Ex =? 0).
Defined.

#[export] Instance kq_fd_laws {K : Type} `{!KqKernel K, !KqLaws K} : FdEventsLaws (@_st_kqdata K).
Proof.
  refine {| fd_known e f := KqEv.in_table e f = true |}.
  - intros f e He Hf. unfold fd_new, kq_fd_events, _st_kq_fd_new. unfold bind at 1. cbn [gets id].
    destruct (Z.leb_spec (KqEv.fd_data_size e) f).
    + destruct (KqEv.kq_fd_data_expand_ok f e He) as (o & e' & E1 & D1 & Ho); [lia |]. exists o, e'. split; [exact E1 |].
      split; [tauto |]. split; [split; [by apply (KqEv.kq_same_data_tables e) |]; intros l; apply KqEv.kq_accepted_kept, D1 |].
      intros i g. apply cnt_kcnt. intros k. by apply KqEv.same_data_kcnt.
    + exists (Ok tt), e. split; [done |]. split; [left; split; [done |]; apply KqEv.kq_in_table_spec; lia |]. split; [by split | done].
  - intros f e He Hf. unfold fd_close, kq_fd_events, _st_kq_fd_close.
    rewrite (bind_ok _ _ _ _ _ (KqEv.kq_fd_at_ok _ e Hf)). pose proof (three_counts (λ i, cnt e i f)) as H3. cbn beta in H3.
    rewrite <- H3. change (cnt e Rd f) with (kq_cnt (KqEv.entry e f) EVFILT_READ).
    change (cnt e Wr f) with (kq_cnt (KqEv.entry e f) EVFILT_WRITE). change (cnt e Ex f) with 0.
    by destruct (kq_cnt _ EVFILT_READ =? 0), (kq_cnt _ EVFILT_WRITE =? 0).
Defined.

(** NULL is 0. *)
Record _st_netfd := Netfd {
  osfd : Z;
  inuse : bool;
  private_data : Z;
  destructor : option Z;
  aux_data : Z;
  next : Z;
}.

Section netfd.
Context {E : Type} `{!EventSys E, HL : !EventSysLaws E, !Counting E, !FdEvents E, !FdEventsLaws E}.
Notation vp := (@_st_vp E).

(** [destroyed]: the calls of destructors; [closed]: those of [close]. *)
Record io := Io {
  sched : vp;
  netfds : gmap Z _st_netfd;
  _st_netfd_freelist : Z;
  destroyed : list (Z * Z);
  closed : list Z;
}.
Implicit Types (s : io) (a f : Z) (o : _st_netfd).

Definition the_netfd a : M io _st_netfd := λ s,
  match netfds s !! a with Some o => (Ok o, s) | None => (Undef, s) end.
Definition set_netfd a o : M io unit :=
  modify (λ s, Io (sched s) (<[a := o]> (netfds s)) (_st_netfd_freelist s) (destroyed s) (closed s)).
Definition set_freelist a : M io unit :=
  modify (λ s, Io (sched s) (netfds s) a (destroyed s) (closed s)).
Definition destroy (d v : Z) : M io unit :=
  modify (λ s, Io (sched s) (netfds s) (_st_netfd_freelist s) (destroyed s ++ [(d, v)]) (closed s)).
Definition close f : M io unit :=
  modify (λ s, Io (sched s) (netfds s) (_st_netfd_freelist s) (destroyed s) (closed s ++ [f])).

(** Whether the call returned 0; -1 is not passed on. *)
Definition succeeds (c : M E unit) : M io bool := λ s,
  match c (eventsys (sched s)) with
  | (o, e) =>
      let s' := Io (with_eventsys e (sched s)) (netfds s) (_st_netfd_freelist s) (destroyed s) (closed s) in
      match o with Ok _ => (Ok true, s') | Fail => (Ok false, s') | _ => (Undef, s') end
  end.

(** The destructor is called for a value that is not NULL. *)
Definition destroy_data o : M io unit :=
  if private_data o =? 0 then ret tt else
  match destructor o with Some d => destroy d (private_data o) | None => ret tt end.

(** [_st_netfd_free_aux_data] only clears [aux_data]
    ([MD_ALWAYS_UNSERIALIZED_ACCEPT]). *)
Definition st_netfd_free a : M io unit :=
  o <- the_netfd a ;;
  if negb (inuse o) then ret tt else
  destroy_data o ;;
  s <- gets id ;;
  set_netfd a (Netfd (osfd o) false 0 None 0 (_st_netfd_freelist s)) ;;
  set_freelist a.

(** An object off the free list, or a new one at the address [mem] that [calloc] returns. *)
Definition grab (mem : option Z) : M io (option Z) :=
  s <- gets id ;;
  if _st_netfd_freelist s =? 0 then
    match mem with
    | None => ret None
    | Some a => set_netfd a (Netfd 0 false 0 None 0 0) ;; ret (Some a)
    end
  else o <- the_netfd (_st_netfd_freelist s) ;; set_freelist (next o) ;; ret (Some (_st_netfd_freelist s)).

(** [ioctl_ok], [fcntl_ok]: whether the calls succeed. *)
Definition _st_netfd_new (mem : option Z) (ioctl_ok fcntl_ok : bool) f (nonblock is_socket : bool) : M io (option Z) :=
  b <- succeeds (fd_new f) ;;
  if negb b then ret None else
  fd <- grab mem ;;
  match fd with
  | None => ret None
  | Some a =>
      o <- the_netfd a ;;
      set_netfd a (Netfd f true (private_data o) (destructor o) (aux_data o) 0) ;;
      if nonblock then
        if is_socket && ioctl_ok then ret (Some a) else
        if fcntl_ok then ret (Some a) else st_netfd_free a ;; ret None
      else ret (Some a)
  end.

Definition st_netfd_open mem (ioctl_ok fcntl_ok : bool) f : M io (option Z) :=
  _st_netfd_new mem ioctl_ok fcntl_ok f true false.
Definition st_netfd_open_socket mem (ioctl_ok fcntl_ok : bool) f : M io (option Z) :=
  _st_netfd_new mem ioctl_ok fcntl_ok f true true.

(** [r]: what [close] returns. *)
Definition st_netfd_close (r : Z) a : M io Z :=
  o <- the_netfd a ;;
  b <- succeeds (fd_close (osfd o)) ;;
  if negb b then ret (-1) else
  st_netfd_free a ;;
  o <- the_netfd a ;;
  close (osfd o) ;;
  ret r.

Definition st_netfd_fileno a : M io Z := o <- the_netfd a ;; ret (osfd o).

Definition st_netfd_setspecific a (value : Z) (d : option Z) : M io unit :=
  o <- the_netfd a ;;
  (if value =? private_data o then ret tt else destroy_data o) ;;
  set_netfd a (Netfd (osfd o) (inuse o) value d (aux_data o) (next o)).

Definition st_netfd_getspecific a : M io Z := o <- the_netfd a ;; ret (private_data o).

Definition st_netfd_serialize_accept a : M io Z :=
  o <- the_netfd a ;;
  set_netfd a (Netfd (osfd o) (inuse o) (private_data o) (destructor o) 0 (next o)) ;;
  ret 0.

(** ** The free list *)
Fixpoint flist (m : gmap Z _st_netfd) (p : Z) (l : list Z) : Prop :=
  match l with
  | [] => p = 0
  | a :: l => p = a ∧ a ≠ 0 ∧ ∃ o, m !! a = Some o ∧ inuse o = false ∧ flist m (next o) l
  end.

(** The free list holds exactly the objects that are not in use, each once, and they carry no data. *)
Record pool_ok s (l : list Z) : Prop := {
  po_list : flist (netfds s) (_st_netfd_freelist s) l;
  po_nodup : NoDup l;
  po_null : netfds s !! 0 = None;
  po_free a o : netfds s !! a = Some o → inuse o = false → a ∈ l ∧ private_data o = 0 ∧ destructor o = None;
}.
Definition netfds_ok s : Prop := ∃ l, pool_ok s l.

Lemma flist_insert m p l a o : a ∉ l → flist m p l → flist (<[a := o]> m) p l.
Proof.
  revert p. induction l as [| b l IH]; intros p Hn; [done |]. apply not_elem_of_cons in Hn as [Hab Hn].
  intros (-> & H0 & ob & Hb & Hu & Hl). split; [done |]. split; [done |]. exists ob.
  rewrite lookup_insert_ne by done. split; [done |]. split; [done | by apply IH].
Qed.

Lemma flist_free m p l a : flist m p l → a ∈ l → ∃ o, m !! a = Some o ∧ inuse o = false.
Proof.
  revert p. induction l as [| b l IH]; intros p; [by intros _ ?%not_elem_of_nil |].
  intros (-> & H0 & ob & Hb & Hu & Hl) [-> | Ha]%elem_of_cons; [by exists ob | by apply (IH (next ob))].
Qed.

(** Objects in use other than [a] are not touched. *)
Definition others_kept a s s' : Prop :=
  ∀ b o, b ≠ a → netfds s !! b = Some o → inuse o = true → netfds s' !! b = Some o.

Lemma destroy_data_ok o s :
  destroy_data o s = (Ok tt, Io (sched s) (netfds s) (_st_netfd_freelist s)
    (destroyed s ++ match destructor o with Some d => if private_data o =? 0 then [] else [(d, private_data o)] | None => [] end)
    (closed s)).
Proof.
  unfold destroy_data. destruct s as [v m p d c]. destruct (private_data o =? 0), (destructor o); cbn; by rewrite ?app_nil_r.
Qed.

(** What the destructor of an object is owed. *)
Definition owed o : list (Z * Z) :=
  match destructor o with Some d => if private_data o =? 0 then [] else [(d, private_data o)] | None => [] end.

Lemma netfd_free_ok a o s :
  netfds_ok s → netfds s !! a = Some o →
  ∃ s' o', st_netfd_free a s = (Ok tt, s') ∧ netfds_ok s' ∧ sched s' = sched s ∧ closed s' = closed s ∧
    netfds s' !! a = Some o' ∧ inuse o' = false ∧ osfd o' = osfd o ∧
    destroyed s' = destroyed s ++ (if inuse o then owed o else []) ∧ (∀ b, b ≠ a → netfds s' !! b = netfds s !! b).
Proof.
  intros (l & [Hl Hnd Hn0 Hfree]) Ha. unfold st_netfd_free. unfold bind at 1, the_netfd. rewrite Ha.
  destruct (inuse o) eqn:Hu; cbn [negb].
  2: { exists s, o. split; [done |]. split; [by exists l |]. rewrite app_nil_r. by repeat split. }
  rewrite (bind_ok _ _ _ _ _ (destroy_data_ok o s)). eexists _, _. split; [reflexivity |].
  split; [exists (a :: l) | cbn; rewrite lookup_insert_eq; repeat split; intros; by rewrite lookup_insert_ne].
  assert (a ∉ l) as Hal by (intros Hin; destruct (flist_free _ _ _ _ Hl Hin) as (o' & Ho' & Hu'); congruence).
  split; cbn.
  - split; [done |]. split; [intros ->; congruence |]. rewrite lookup_insert_eq. eexists. split; [done |].
    split; [done |]. by apply flist_insert.
  - by apply NoDup_cons.
  - rewrite lookup_insert_ne; [done |]. intros ->. congruence.
  - intros b ob. destruct (decide (b = a)) as [-> |].
    + rewrite lookup_insert_eq. intros [= <-] _. cbn. split; [left | done].
    + rewrite lookup_insert_ne by done. intros Hb Hub. destruct (Hfree b ob Hb Hub). split; [by right | done].
Qed.

Lemma grab_ok mem s :
  netfds_ok s → (∀ a, mem = Some a → a ≠ 0 ∧ netfds s !! a = None) →
  ∃ r s', grab mem s = (Ok r, s') ∧ sched s' = sched s ∧ destroyed s' = destroyed s ∧ closed s' = closed s ∧
    match r with
    | None => s' = s
    | Some a => a ≠ 0 ∧ (∀ o, netfds s !! a = Some o → inuse o = false) ∧ (∀ b, b ≠ a → netfds s' !! b = netfds s !! b) ∧
        ∃ o, netfds s' !! a = Some o ∧ private_data o = 0 ∧ destructor o = None ∧
          ∀ o' v, inuse o' = true → netfds_ok (Io v (<[a := o']> (netfds s')) (_st_netfd_freelist s') (destroyed s') (closed s'))
    end.
Proof.
  intros (l & [Hl Hnd Hn0 Hfree]) Hmem. unfold grab. unfold bind at 1. cbn [gets id].
  destruct (Z.eqb_spec (_st_netfd_freelist s) 0) as [Hz | Hz].
  - destruct mem as [a |]; [| by exists None, s]. destruct (Hmem a eq_refl) as [Ha0 Ha].
    eexists (Some a), _. split; [reflexivity |]. cbn. split_and!; try done.
    + intros o Ho. congruence.
    + intros b Hb. by rewrite lookup_insert_ne.
    + exists (Netfd 0 false 0 None 0 0). rewrite lookup_insert_eq. split; [done |]. split; [done |]. split; [done |].
      intros o' v Hu. exists l. destruct l as [| b l]; [| by destruct Hl as (? & ? & _); congruence]. split; cbn; try done.
      * rewrite !lookup_insert_ne by done. done.
      * intros b ob. destruct (decide (b = a)) as [-> |]; [rewrite lookup_insert_eq; congruence |].
        rewrite !lookup_insert_ne by done. apply Hfree.
  - destruct l as [| a l]; [done |]. destruct Hl as (Hp & Ha0 & o & Ho & Hu & Hl). rewrite Hp in *.
    apply NoDup_cons in Hnd as [Hal Hnd].
    unfold bind at 1, the_netfd. rewrite Ho. eexists (Some a), _. split; [reflexivity |]. cbn. split_and!; try done.
    + intros o' Ho'. congruence.
    + destruct (Hfree a o Ho Hu) as (_ & H1 & H2). exists o. split; [done |]. split; [done |]. split; [done |].
      intros o' v Hu'. exists l. split; cbn; try done.
      * by apply flist_insert.
      * by rewrite lookup_insert_ne.
      * intros b ob. destruct (decide (b = a)) as [-> |]; [rewrite lookup_insert_eq; congruence |].
        rewrite lookup_insert_ne by done. intros Hb Hub. destruct (Hfree b ob Hb Hub) as [Hin ?]. split; [| done].
        by apply elem_of_cons in Hin as [-> | Hin].
Qed.

(** What the caller sees of a descriptor that was opened. *)
Definition opened f s s' (r : option Z) : Prop :=
  match r with
  | Some a => (∀ o, netfds s !! a = Some o → inuse o = false) ∧
      ∃ o, netfds s' !! a = Some o ∧ osfd o = f ∧ inuse o = true ∧ private_data o = 0 ∧ fd_known (eventsys (sched s')) f
  | None => True
  end.

(** The scheduler's state, the event system's tables apart. *)
Definition sched_kept s s' : Prop := ∃ e, sched s' = with_eventsys e (sched s) ∧ ev_step (eventsys (sched s)) e.

Lemma succeeds_ok (c : M E unit) s (r : outcome unit) e :
  c (eventsys (sched s)) = (r, e) → r = Ok tt ∨ r = Fail →
  succeeds c s = (Ok (match r with Ok _ => true | _ => false end),
    Io (with_eventsys e (sched s)) (netfds s) (_st_netfd_freelist s) (destroyed s) (closed s)).
Proof. intros H Ho. unfold succeeds. rewrite H. by destruct Ho as [-> | ->]. Qed.

Lemma netfds_ok_io v d c s : netfds_ok s → netfds_ok (Io v (netfds s) (_st_netfd_freelist s) d c).
Proof. intros (l & []). exists l. by split. Qed.
End netfd.

(** An object that [_st_netfd_new] returns was not in use, whether it comes off the free list or from the
    allocator, and holds the descriptor; every other object in use stays as it is, also
    when the call fails. *)
Lemma netfd_new_ok {E : Type} `{!EventSys E, !EventSysLaws E, !Counting E, !FdEvents E, !FdEventsLaws E}
    mem (ioctl_ok fcntl_ok nonblock is_socket : bool) f (s : @io E) :
  netfds_ok s → ev_ok (eventsys (sched s)) → 0 <= f < 2 ^ 30 → (∀ a, mem = Some a → a ≠ 0 ∧ netfds s !! a = None) →
  ∃ r s', _st_netfd_new mem ioctl_ok fcntl_ok f nonblock is_socket s = (Ok r, s') ∧ netfds_ok s' ∧ sched_kept s s' ∧
    opened f s s' r ∧ closed s' = closed s ∧
    (∀ b o, netfds s !! b = Some o → inuse o = true → r ≠ Some b ∧ netfds s' !! b = Some o) ∧
    (∀ b o, netfds s' !! b = Some o → inuse o = true → r = Some b ∨ netfds s !! b = Some o).
Proof.
  intros Hok Hev Hf Hmem. unfold _st_netfd_new.
  destruct (fd_new_ok f (eventsys (sched s)) Hev Hf) as (o & e & E1 & Ho & Hstep & _).
  rewrite (bind_ok _ _ _ _ _ (succeeds_ok _ s o e E1 ltac:(tauto))). set (s1 := Io _ (netfds s) _ _ _).
  assert (netfds_ok s1) as Hok1 by (by apply netfds_ok_io).
  assert (sched_kept s s1) as Hk1 by (by exists e).
  destruct Ho as [[-> Hknown] | ->]; cbn [negb].
  2: { exists None, s1. split_and!; try done. by right. }
  destruct (grab_ok mem s1 Hok1 Hmem) as (r & s2 & E2 & S2 & _ & C2 & Hr). rewrite (bind_ok _ _ _ _ _ E2).
  destruct r as [a |]; [| subst s2; exists None, s1; split_and!; try done; by right].
  destruct Hr as (Ha0 & Hunused & Hne & oa & Hoa & Hpd & Hd & Hins).
  unfold bind at 1, the_netfd. rewrite Hoa. unfold bind at 1. cbn [set_netfd modify].
  set (s3 := Io _ (<[a := _]> _) _ _ _). assert (netfds_ok s3) as Hok3 by (by apply Hins).
  assert (sched_kept s s3) as Hk3 by (by exists e; cbn; rewrite S2).
  assert (∀ b o, netfds s !! b = Some o → inuse o = true → b ≠ a) as Hba.
  { intros b ob Hb Hu ->. by rewrite (Hunused ob Hb) in Hu. }
  assert (∀ b o, netfds s !! b = Some o → inuse o = true → netfds s3 !! b = Some o) as Hrest.
  { intros b ob Hb Hu. cbn. pose proof (Hba b ob Hb Hu) as Hn. rewrite lookup_insert_ne by done. by rewrite Hne. }
  assert (∀ b, b ≠ a → netfds s3 !! b = netfds s !! b) as Hsame.
  { intros b Hb. cbn. rewrite lookup_insert_ne by done. by rewrite Hne. }
  assert (∃ r s', (if nonblock then if is_socket && ioctl_ok then ret (Some a) else
      if fcntl_ok then ret (Some a) else st_netfd_free a ;; ret None else ret (Some a)) s3 = (Ok r, s') ∧
    (r = Some a ∧ s' = s3 ∨ r = None ∧ st_netfd_free a s3 = (Ok tt, s'))) as (r & s' & E3 & Hr).
  { destruct nonblock; [| exists (Some a), s3; split; [done | by left]].
    destruct (is_socket && ioctl_ok); [exists (Some a), s3; split; [done | by left] |].
    destruct fcntl_ok; [exists (Some a), s3; split; [done | by left] |].
    destruct (netfd_free_ok a (Netfd f true (private_data oa) (destructor oa) (aux_data oa) 0) s3 Hok3) as (s' & o' & E4 & _);
      [cbn; by rewrite lookup_insert_eq |]. exists None, s'. rewrite (bind_ok _ _ _ _ _ E4). split; [done | by right]. }
  exists r, s'. split; [exact E3 |]. destruct Hr as [[-> ->] | [-> E4]].
  - split; [done |]. split; [done |]. split; [| split; [cbn; by rewrite C2 | split]].
    + split; [exact Hunused |]. eexists. split; [cbn; by rewrite lookup_insert_eq |]. cbn. rewrite S2. done.
    + intros b ob Hb Hu. split; [intros [= ->]; by eapply Hba | by apply Hrest].
    + intros b ob Hb Hu. destruct (decide (b = a)) as [-> |]; [by left | right]. by rewrite <- Hsame.
  - destruct (netfd_free_ok a (Netfd f true (private_data oa) (destructor oa) (aux_data oa) 0) s3 Hok3)
      as (s4 & o' & E5 & Hok4 & S4 & C4 & Ha4 & Hu4 & _ & _ & Hb4); [cbn; by rewrite lookup_insert_eq |].
    rewrite E4 in E5. injection E5 as <-. split; [done |].
    split; [destruct Hk3 as (e' & He' & ?); exists e'; split; [congruence | done] |].
    split; [done |]. split; [rewrite C4; cbn; by rewrite C2 |].
    split.
    + intros b ob Hb Hu. split; [done |]. rewrite Hb4 by (by eapply Hba). by apply Hrest.
    + intros b ob Hb Hu. right. destruct (decide (b = a)) as [-> |]; [congruence |]. by rewrite <- Hsame, <- Hb4.
Qed.

(** C19: with the event systems that count, select, epoll and kqueue: while some thread polls a descriptor [st_netfd_close] refuses to close it and changes
    nothing; otherwise its data is destroyed, the object goes to the free list and the
    descriptor is closed once. *)
Theorem polled_descriptor_stays_open {E : Type} `{!EventSys E, !EventSysLaws E, !Counting E, !FdEvents E, !FdEventsLaws E}
    r a o (s : @io E) :
  netfds_ok s → inv (sched s) → counted (sched s) → netfds s !! a = Some o → inuse o = true →
  fd_known (eventsys (sched s)) (osfd o) →
  if decide (∀ i, wanted (sched s) i (osfd o) = 0)
  then ∃ s' o', st_netfd_close r a s = (Ok r, s') ∧ netfds_ok s' ∧ sched s' = sched s ∧
    netfds s' !! a = Some o' ∧ inuse o' = false ∧ closed s' = closed s ++ [osfd o] ∧ destroyed s' = destroyed s ++ owed o
  else st_netfd_close r a s = (Ok (-1), s).
Proof.
  intros Hok Hi Hc Ha Hu Hk.
  pose proof (fd_close_ok (osfd o) (eventsys (sched s)) (ib_ev _ _ _ (inv_all _ Hi 0)) Hk) as E1.
  assert (Io (with_eventsys (eventsys (sched s)) (sched s)) (netfds s) (_st_netfd_freelist s) (destroyed s) (closed s) = s) as Hs.
  { destruct s as [v m p d c]. by destruct v. }
  assert ((∀ i, wanted (sched s) i (osfd o) = 0) ↔ ∀ i, cnt (eventsys (sched s)) i (osfd o) = 0) as Hw.
  { split; intros H i; specialize (H i); by rewrite Hc in *. }
  assert (the_netfd a s = (Ok o, s)) as E0 by (unfold the_netfd; by rewrite Ha).
  destruct (decide (∀ i, wanted (sched s) i (osfd o) = 0)) as [H | H]; unfold st_netfd_close;
    rewrite (bind_ok _ _ _ _ _ E0); rewrite Hw in H.
  - rewrite decide_True in E1 by done.
    rewrite (bind_ok _ _ _ _ _ (succeeds_ok _ s _ _ E1 ltac:(tauto))), Hs. cbn [negb].
    destruct (netfd_free_ok a o s Hok Ha) as (s' & o' & E2 & Hok' & Hsch & Hcl & Ha' & Hu' & Hf & Hd & _).
    rewrite (bind_ok _ _ _ _ _ E2). assert (the_netfd a s' = (Ok o', s')) as E3 by (unfold the_netfd; by rewrite Ha').
    rewrite (bind_ok _ _ _ _ _ E3). unfold bind, close. cbn [modify ret].
    eexists _, o'. split; [reflexivity |]. cbn. rewrite Hcl, Hf, Hd, Hu. split; [by apply (netfds_ok_io _ _ _ s') |]. done.
  - rewrite decide_False in E1 by done.
    rewrite (bind_ok _ _ _ _ _ (succeeds_ok _ s _ _ E1 ltac:(tauto))), Hs. done.
Qed.

(** ** Descriptors 5 and 6 of the threads of EpollEv.v, and a free object *)
Definition three_netfds : @io (@_st_epolldata epoll_sets) :=
  Io epoll_two {[100 := Netfd 5 true 0 None 0 0; 101 := Netfd 6 true 33 (Some 70) 0 0; 102 := Netfd 9 false 0 None 0 0]} 102 [] [].

Lemma three_netfds_ok : netfds_ok three_netfds.
Proof.
  exists [102]. split.
  - cbn. split; [done |]. split; [done |]. eexists. split; [vm_compute; reflexivity |]. done.
  - apply NoDup_singleton.
  - vm_compute. done.
  - intros a o Ha Hu. cbn [netfds three_netfds] in Ha.
    apply lookup_insert_Some in Ha as [[_ <-] | [_ Ha]]; [done |].
    apply lookup_insert_Some in Ha as [[_ <-] | [_ Ha]]; [done |].
    apply lookup_singleton_Some in Ha as [<- <-]. split; [left | done].
Qed.

Lemma epoll_two_counted : counted epoll_two.
Proof.
  intros i f. apply matched_cnt, (steps_kept (A := epoll_here) matched (init sets_data)).
  - apply reached_rtc, epoll_two_run.
  - apply init_ok; [done | apply sets_data_ok].
  - apply init_matched; apply sets_data_ok.
Qed.

Lemma polled_descriptor_stays_open_witness :
  st_netfd_close 0 100 three_netfds = (Ok (-1), three_netfds) ∧
  ∃ s', st_netfd_close 0 101 three_netfds = (Ok 0, s') ∧ closed s' = [6] ∧ destroyed s' = [(70, 33)].
Proof.
  pose proof epoll_two_inv as (Hi & _). pose proof epoll_two_counted as Hc. split.
  - pose proof (polled_descriptor_stays_open 0 100 (Netfd 5 true 0 None 0 0) three_netfds three_netfds_ok Hi Hc) as H.
    rewrite decide_False in H; [apply H; vm_compute; reflexivity |].
    intros Hw. specialize (Hw Rd). vm_compute in Hw. discriminate Hw.
  - pose proof (polled_descriptor_stays_open 0 101 (Netfd 6 true 33 (Some 70) 0 0) three_netfds three_netfds_ok Hi Hc) as H.
    rewrite decide_True in H by (intros []; vm_compute; reflexivity).
    destruct H as (s' & o' & E & _ & _ & _ & _ & Hcl & Hd); [vm_compute; reflexivity | done | vm_compute; reflexivity |].
    exists s'. split; [exact E |]. split; [exact Hcl | exact Hd].
Defined.
