(* ===== verification/NetCalls.v ===== *)
(** * 3rdpart/st-1.9/io.c: accept, connect, datagrams and open

    Every one of these calls retries a system call until it succeeds or fails for good, waiting in
    [st_netfd_poll] when the descriptor is not ready.  [script] has the results of the system calls to come, and
    [waits] what will happen during the waits; [calls] records what was asked.  At the end of the script nothing is ready, and
    at the end of the waits nothing happens any more: a wait with a time limit times out, and one without does not
    return ([Hang]). *)

From stdpp Require Import base list sets gmap.
From Stdlib Require Import Lia ZArith.
From S2P Require Import Prelude.
From S2P Require Import TimeoutHeap.
From S2P Require Import Vp.
From S2P Require Import Sync.
From S2P Require Import Fair.
From S2P Require Import Sched.
From S2P Require Import SchedCalls.
From S2P Require Import IoQueue.
From S2P Require Import Interest.
From S2P Require Import EpollEv.
From S2P Require Import NetFd.

Local Open Scope Z_scope.

(** What a system call returns: a number that is not negative, or -1 and [errno]. *)
Inductive answer := Val (n : Z) | Eintr | Eagain | Einprogress | Eaddrinuse | Eother.

(** The system calls with their arguments, and the waits. *)
Inductive request :=
| Accept (fd : Z)
| Connect (fd addr : Z)
| Getsockopt (fd : Z)
| Recvfrom (fd len : Z)
| Sendto (fd : Z) (msg : list Z) (to : Z)
| Recvmsg (fd flags : Z)
| Sendmsg (fd : Z) (msg : list Z) (flags : Z)
| Open (path : Z) (oflags mode : Z)
| Wait (fd events timeout : Z).

(** What happens while [st_poll] waits: it fails (an interruption, bad arguments), an event is reported, or nothing happens
    before the time is over. *)
Inductive happening := Poll_error | Event (revents : Z) | Nothing.

(** [so_error]: what [getsockopt] stores. *)
Record net := Net {
  script : list answer;
  waits : list happening;
  so_error : Z;
  calls : list request;
}.

Implicit Types (k : net) (f n : Z).

Definition sys (r : request) : M net answer := λ k,
  match script k with
  | [] => (Ok Eagain, Net [] (waits k) (so_error k) (calls k ++ [r]))
  | a :: script => (Ok a, Net script (waits k) (so_error k) (calls k ++ [r]))
  end.

(** [st_poll] of one descriptor: its result and [revents].  Here it is what io.c sees of it: the result of the whole call, [Hang] for a wait
    that nothing ends; what it does to the queues of the scheduler is [st_poll] of Vp.v and SchedCalls.v. *)
Definition st_poll (f how timeout : Z) : M net (Z * Z) := λ k,
  let k' := Net (script k) (tail (waits k)) (so_error k) (calls k ++ [Wait f how timeout]) in
  match default Nothing (head (waits k)) with
  | Poll_error => (Ok (-1, 0), k')
  | Event revents => (Ok (1, revents), k')
  | Nothing => (if timeout =? ST_UTIME_NO_TIMEOUT then Hang else Ok (0, 0), k')
  end.

Definition st_netfd_poll (f how timeout : Z) : M net Z :=
  '(n, revents) <- st_poll f how timeout ;;
  ret (if n <? 0 then -1 else if n =? 0 then -1 else if negb (Z.land revents POLLNVAL =? 0) then -1 else 0).

(** Every round that goes on uses up a result or an event. *)
Definition fuel k : nat := S (length (script k) + length (waits k)).

(** [while ((n = call()) < 0) { ... }] *)
Fixpoint retry (fuel : nat) (r : request) (f how timeout : Z) : M net Z :=
  match fuel with
  | O => lift Hang
  | S fuel =>
      a <- sys r ;;
      match a with
      | Val n => ret n
      | Eintr => retry fuel r f how timeout
      | Eagain =>
          p <- st_netfd_poll f how timeout ;;
          if p <? 0 then fail else retry fuel r f how timeout
      | _ => fail
      end
  end.

Definition st_recvfrom f len timeout : M net Z := λ k, retry (fuel k) (Recvfrom f len) f POLLIN timeout k.
Definition st_sendto f msg to timeout : M net Z := λ k, retry (fuel k) (Sendto f msg to) f POLLOUT timeout k.
Definition st_recvmsg f flags timeout : M net Z := λ k, retry (fuel k) (Recvmsg f flags) f POLLIN timeout k.
Definition st_sendmsg f msg flags timeout : M net Z := λ k, retry (fuel k) (Sendmsg f msg flags) f POLLOUT timeout k.

(** [interrupted]: [err] of the loop. *)
Fixpoint connect_loop (fuel : nat) (interrupted : bool) (f addr timeout : Z) : M net unit :=
  match fuel with
  | O => lift Hang
  | S fuel =>
      a <- sys (Connect f addr) ;;
      match a with
      | Val _ => ret tt
      | Eintr => connect_loop fuel true f addr timeout
      | _ =>
          if negb (match a with Einprogress => true | Eaddrinuse => interrupted | _ => false end) then fail else
          p <- st_netfd_poll f POLLOUT timeout ;;
          if p <? 0 then fail else
          g <- sys (Getsockopt f) ;;
          match g with
          | Val _ => k <- gets id ;; if so_error k =? 0 then ret tt else fail
          | _ => fail
          end
      end
  end.

Definition st_connect f addr timeout : M net unit := λ k, connect_loop (fuel k) false f addr timeout k.

(** ** Calls that make a descriptor object *)
Section descriptors.
Context {E : Type} `{!EventSys E, HL : !EventSysLaws E, !Counting E, !FdEvents E, !FdEventsLaws E}.

Record process := Process { files : @io E; kernel : net }.

Definition on_files {A : Type} (c : M (@io E) A) : M process A := λ s,
  let '(o, v) := c (files s) in (o, Process v (kernel s)).
Definition on_kernel {A : Type} (c : M net A) : M process A := λ s,
  let '(o, k) := c (kernel s) in (o, Process (files s) k).

(** The new descriptor is closed when there is no object for it. *)
Definition new_or_close (mem : option Z) (ioctl_ok fcntl_ok : bool) f (nonblock is_socket : bool) : M process Z :=
  r <- on_files (_st_netfd_new mem ioctl_ok fcntl_ok f nonblock is_socket) ;;
  match r with
  | Some a => ret a
  | None => on_files (close f) ;; fail
  end.

(** [MD_ALWAYS_UNSERIALIZED_ACCEPT], [MD_ACCEPT_NB_NOT_INHERITED] *)
Definition st_accept (mem : option Z) (ioctl_ok fcntl_ok : bool) (a : Z) (timeout : Z) : M process Z :=
  o <- on_files (the_netfd a) ;;
  f <- on_kernel (λ k, retry (fuel k) (Accept (osfd o)) (osfd o) POLLIN timeout k) ;;
  new_or_close mem ioctl_ok fcntl_ok f true true.

(** O_NONBLOCK is part of [oflags]. *)
Fixpoint open_loop (fuel : nat) (path oflags mode : Z) : M net Z :=
  match fuel with
  | O => lift Hang
  | S fuel =>
      a <- sys (Open path oflags mode) ;;
      match a with
      | Val n => ret n
      | Eintr => open_loop fuel path oflags mode
      | _ => fail
      end
  end.

Definition O_NONBLOCK : Z := 0x800.

Definition st_open (mem : option Z) (path oflags mode : Z) : M process Z :=
  f <- on_kernel (λ k, open_loop (fuel k) path (Z.lor oflags O_NONBLOCK) mode k) ;;
  new_or_close mem true true f false false.
End descriptors.

(** ** Waiting *)
(** The event lets the loop go on. *)
Definition wakes (x : happening) : bool := match x with Event revents => Z.land revents POLLNVAL =? 0 | _ => false end.

(** The outcome of a wait that does not. *)
Definition wait_over (timeout : Z) (x : happening) : outcome Z :=
  match x with Nothing => if timeout =? ST_UTIME_NO_TIMEOUT then Hang else Ok (-1) | _ => Ok (-1) end.

Definition next_wait k : happening := default Nothing (head (waits k)).

Definition waited f how timeout k : net := Net (script k) (tail (waits k)) (so_error k) (calls k ++ [Wait f how timeout]).

Lemma netfd_poll_ok f how timeout k :
  st_netfd_poll f how timeout k =
  (if wakes (next_wait k) then Ok 0 else wait_over timeout (next_wait k), waited f how timeout k).
Proof.
  unfold st_netfd_poll, bind, st_poll, next_wait. destruct (default Nothing (head (waits k))) as [| r |]; cbn [wakes wait_over]; [done | |].
  - cbn. by destruct (Z.land r POLLNVAL =? 0).
  - by destruct (timeout =? ST_UTIME_NO_TIMEOUT).
Qed.

(** ** Retrying *)
(** The calls before the last one were interrupted, or not ready and then an event came.
    [l]: the answers, [EAGAIN] at the end of the script; [ws]: what happened during the waits; [c]: what was asked. *)
Inductive retried (r w : request) : list answer → list happening → list request → Prop :=
| retried_now : retried r w [] [] []
| retried_intr l ws c : retried r w l ws c → retried r w (Eintr :: l) ws (r :: c)
| retried_wait l ws c x : wakes x = true → retried r w l ws c → retried r w (Eagain :: l) (x :: ws) (r :: w :: c)
| retried_none ws c x : wakes x = true → retried r w [] ws c → retried r w [] (x :: ws) (r :: w :: c).

(** The last call: it succeeded, or failed for good, or the wait after it was in vain. *)
Inductive ended (timeout : Z) (r w : request) : outcome Z → list answer → list happening → list request → list answer → list happening → Prop :=
| ended_value n rest ws : ended timeout r w (Ok n) [Val n] [] [r] rest ws
| ended_error a rest ws : a = Einprogress ∨ a = Eaddrinuse ∨ a = Eother → ended timeout r w Fail [a] [] [r] rest ws
| ended_wait l x rest ws : wakes x = false → l = [Eagain] ∨ l = [] ∧ rest = [] →
    ended timeout r w (match wait_over timeout x with Hang => Hang | _ => Fail end) l [x] [r; w] rest ws
| ended_nothing l rest : l = [Eagain] ∨ l = [] ∧ rest = [] →
    ended timeout r w (if timeout =? ST_UTIME_NO_TIMEOUT then Hang else Fail) l [] [r; w] rest [].

Definition retry_spec (timeout : Z) (r w : request) k (o : outcome Z) k' : Prop :=
  so_error k' = so_error k ∧ ∃ l ws c l' ws' c',
    retried r w l ws c ∧ ended timeout r w o l' ws' c' (script k') (waits k') ∧
    script k = l ++ l' ++ script k' ∧ waits k = ws ++ ws' ++ waits k' ∧ calls k' = calls k ++ c ++ c'.

(** The round in which the descriptor is not ready. *)
Lemma retry_not_ready m r f how timeout k k1 :
  sys r k = (Ok Eagain, k1) → waits k1 = waits k →
  retry (S m) r f how timeout k =
  if wakes (next_wait k) then retry m r f how timeout (waited f how timeout k1)
  else (match wait_over timeout (next_wait k) with Hang => Hang | _ => Fail end, waited f how timeout k1).
Proof.
  intros E Hw. cbn [retry]. rewrite (bind_ok _ _ _ _ _ E). unfold bind. rewrite netfd_poll_ok.
  assert (next_wait k1 = next_wait k) as -> by (unfold next_wait; by rewrite Hw).
  destruct (next_wait k) as [| v |]; cbn [wakes wait_over]; [done | by destruct (Z.land v POLLNVAL =? 0) |].
  by destruct (timeout =? ST_UTIME_NO_TIMEOUT).
Qed.

Lemma retry_ok m r f how timeout k :
  (length (script k) + length (waits k) < m)%nat →
  ∃ o k', retry m r f how timeout k = (o, k') ∧ retry_spec timeout r (Wait f how timeout) k o k'.
Proof.
  set (w := Wait f how timeout). revert k. induction m as [| m IH]; intros [l ws e c]; cbn [script waits]; [lia |]. intros Hm.
  assert (∀ o k' l' ws' c', ended timeout r w o l' ws' c' (script k') (waits k') → so_error k' = e →
    l = l' ++ script k' → ws = ws' ++ waits k' → calls k' = c ++ c' → retry_spec timeout r w (Net l ws e c) o k') as Hend.
  { intros o k' l' ws' c' He Hs Hl Hws Hc. split; [done |]. exists [], [], [], l', ws', c'. split; [constructor |]. done. }
  (* not ready: [l0] is what is used up of the script *)
  assert (∀ l0 l1, l = l0 ++ l1 → l0 = [Eagain] ∨ l0 = [] ∧ l1 = [] → sys r (Net l ws e c) = (Ok Eagain, Net l1 ws e (c ++ [r])) →
    ∃ o k', retry (S m) r f how timeout (Net l ws e c) = (o, k') ∧ retry_spec timeout r w (Net l ws e c) o k') as Hwait.
  { intros l0 l1 Hl H0 Hs. rewrite (retry_not_ready _ _ _ _ _ _ _ Hs eq_refl). unfold next_wait, waited. cbn [script waits so_error calls].
    destruct ws as [| x ws]; [change (default Nothing (head [])) with Nothing | change (default Nothing (head (x :: ws))) with x]; cbn [tail].
    - cbn [wakes wait_over]. eexists _, _. split; [reflexivity |]. apply (Hend _ _ l0 [] [r; w]); [| done | done | done | cbn; by rewrite <- app_assoc].
      pose proof (ended_nothing timeout r w l0 l1 H0) as H1. cbn. by destruct (timeout =? ST_UTIME_NO_TIMEOUT).
    - destruct (wakes x) eqn:Hx.
      2: { eexists _, _. split; [reflexivity |]. apply (Hend _ _ l0 [x] [r; w]); try done; [by apply ended_wait | cbn; by rewrite <- app_assoc]. }
      destruct (IH (Net l1 ws e ((c ++ [r]) ++ [w]))) as (o & k' & E1 & He & l2 & ws2 & c2 & l3 & ws3 & c3 & H1 & H2 & H3 & H4 & H5).
      { cbn in *. rewrite Hl, length_app in Hm. lia. }
      exists o, k'. split; [done |]. split; [done |]. cbn in *. exists (l0 ++ l2), (x :: ws2), (r :: w :: c2), l3, ws3, c3.
      split; [| split; [done |]; split; [by rewrite Hl, H3, <- app_assoc |]; split; [by rewrite H4 | rewrite H5, <- !app_assoc; done]].
      destruct H0 as [-> | [-> ->]]; [by constructor |]. symmetry in H3. apply app_nil in H3 as [-> _]. by constructor. }
  destruct l as [| a l]; [by apply (Hwait [] []); [| right |] |]. cbn [length] in Hm. destruct a.
  - eexists (Ok n), _. split; [reflexivity |]. by apply (Hend _ _ [Val n] [] [r]); try done; apply ended_value.
  - destruct (IH (Net l ws e (c ++ [r]))) as (o & k' & E1 & He & l0 & ws0 & c0 & l1 & ws1 & c1 & H1 & H2 & H3 & H4 & H5); [cbn in *; lia |].
    exists o, k'. split; [done |]. split; [done |]. exists (Eintr :: l0), ws0, (r :: c0), l1, ws1, c1.
    split; [by constructor |]. split; [done |]. cbn in *. split; [congruence |]. split; [done |].
    rewrite H5, <- app_assoc. done.
  - by apply (Hwait [Eagain] l); [| left |].
  - eexists Fail, _. split; [reflexivity |]. apply (Hend _ _ [Einprogress] [] [r]); try done. apply ended_error. tauto.
  - eexists Fail, _. split; [reflexivity |]. apply (Hend _ _ [Eaddrinuse] [] [r]); try done. apply ended_error. tauto.
  - eexists Fail, _. split; [reflexivity |]. apply (Hend _ _ [Eother] [] [r]); try done. apply ended_error. tauto.
Qed.

(** The fuel is enough: the loop hangs only in a wait without a time limit. *)
Lemma retried_call r f how timeout k :
  ∃ o k', retry (fuel k) r f how timeout k = (o, k') ∧ retry_spec timeout r (Wait f how timeout) k o k' ∧
    match o with Ok n => Val n ∈ script k | Fail => True | Hang => timeout = ST_UTIME_NO_TIMEOUT | _ => False end.
Proof.
  destruct (retry_ok (fuel k) r f how timeout k) as (o & k' & E & H); [unfold fuel; lia |].
  exists o, k'. split; [done |]. split; [done |]. destruct H as (_ & l & ws & c & l' & ws' & c' & _ & He & Hs & _).
  destruct He as [n rest ws0 | | l' x rest ws0 Hx | l' rest]; try done.
  - rewrite Hs. apply elem_of_app. right. by left.
  - destruct x as [| v |]; cbn; [done | done |]. by destruct (Z.eqb_spec timeout ST_UTIME_NO_TIMEOUT).
  - by destruct (Z.eqb_spec timeout ST_UTIME_NO_TIMEOUT).
Qed.

Lemma on_kernel_ok {E A : Type} (c : M net A) (s : @process E) o k :
  c (kernel s) = (o, k) → on_kernel c s = (o, Process (files s) k).
Proof. unfold on_kernel. by intros ->. Qed.

Lemma on_files_ok {E A : Type} (c : M (@io E) A) (s : @process E) o v :
  c (files s) = (o, v) → on_files c s = (o, Process v (kernel s)).
Proof. unfold on_files. by intros ->. Qed.

Section not_leaked.
Context {E : Type} `{!EventSys E, HL : !EventSysLaws E, !Counting E, !FdEvents E, !FdEventsLaws E}.
Implicit Type s : @process E.

(** A descriptor that the kernel handed out is in a new object or closed. *)
Definition kept_or_closed f s s' (r : outcome Z) : Prop :=
  (∃ b, r = Ok b ∧ opened f (files s) (files s') (Some b) ∧ closed (files s') = closed (files s)) ∨
  (r = Fail ∧ closed (files s') = closed (files s) ++ [f]).

Definition objects_kept s s' : Prop :=
  ∀ b o, netfds (files s) !! b = Some o → inuse o = true → netfds (files s') !! b = Some o.

(** No object but the one that is returned has come into use. *)
Definition no_others s s' (r : outcome Z) : Prop :=
  ∀ b o, netfds (files s') !! b = Some o → inuse o = true → r = Ok b ∨ netfds (files s) !! b = Some o.

Definition can_allocate (mem : option Z) s : Prop :=
  ∀ a, mem = Some a → a ≠ 0 ∧ netfds (files s) !! a = None.

Lemma new_or_close_ok mem (ioctl_ok fcntl_ok nonblock is_socket : bool) f s :
  netfds_ok (files s) → ev_ok (eventsys (sched (files s))) → 0 <= f < 2 ^ 30 → can_allocate mem s →
  ∃ r s', new_or_close mem ioctl_ok fcntl_ok f nonblock is_socket s = (r, s') ∧ kernel s' = kernel s ∧
    netfds_ok (files s') ∧ kept_or_closed f s s' r ∧ objects_kept s s' ∧ no_others s s' r ∧ sched_kept (files s) (files s').
Proof.
  intros Hok Hev Hf Hmem.
  destruct (netfd_new_ok mem ioctl_ok fcntl_ok nonblock is_socket f (files s) Hok Hev Hf Hmem) as (r & v & E1 & Hv & Hs & Ho & Hc & Hk & Hn).
  unfold new_or_close. rewrite (bind_ok _ _ _ _ _ (on_files_ok _ _ _ _ E1)). destruct r as [a |].
  - exists (Ok a), (Process v (kernel s)). split; [done |]. split; [done |]. split; [done |]. split.
    + left. by exists a.
    + split_and!; [by intros b o Hb Hu; apply (Hk b o) | | done]. intros b o Hb Hu. destruct (Hn b o Hb Hu) as [[= ->] |]; [by left | by right].
  - eexists Fail, _. split; [reflexivity |]. split; [done |]. split; [by apply (netfds_ok_io _ _ _ v) |]. split.
    + right. cbn. by rewrite Hc.
    + split_and!; [by intros b o Hb Hu; apply (Hk b o) | | done]. intros b o Hb Hu. destruct (Hn b o Hb Hu); [done | by right].
Qed.
End not_leaked.

(** C18: [st_accept] repeats the same call of [accept] while that is interrupted or not ready, and a
    descriptor that the kernel hands out ends up in an object that was not in use, or is closed, exactly once; no other
    object in use changes.  Without a descriptor nothing changes: the call fails, or, only when it has no time limit and
    nothing happens any more, waits for ever. *)
Theorem accepted_not_leaked {E : Type} `{!EventSys E, !EventSysLaws E, !Counting E, !FdEvents E, !FdEventsLaws E}
    mem (ioctl_ok fcntl_ok : bool) a o timeout (s : @process E) :
  netfds_ok (files s) → ev_ok (eventsys (sched (files s))) → can_allocate mem s → netfds (files s) !! a = Some o →
  (∀ n, Val n ∈ script (kernel s) → 0 <= n < 2 ^ 30) →
  ∃ g r s', st_accept mem ioctl_ok fcntl_ok a timeout s = (r, s') ∧ netfds_ok (files s') ∧ objects_kept s s' ∧
    retry_spec timeout (Accept (osfd o)) (Wait (osfd o) POLLIN timeout) (kernel s) g (kernel s') ∧
    match g with
    | Ok f => kept_or_closed f s s' r
    | Fail => r = Fail ∧ files s' = files s
    | Hang => r = Hang ∧ files s' = files s ∧ timeout = ST_UTIME_NO_TIMEOUT
    | _ => False
    end.
Proof.
  intros Hok Hev Hmem Ha Hn. unfold st_accept.
  assert (on_files (the_netfd a) s = (Ok o, s)) as E0.
  { rewrite (on_files_ok _ s (Ok o) (files s)); [by destruct s | unfold the_netfd; by rewrite Ha]. }
  rewrite (bind_ok _ _ _ _ _ E0).
  destruct (retried_call (Accept (osfd o)) (osfd o) POLLIN timeout (kernel s)) as (g & k & E1 & Hk & Hg).
  pose proof (on_kernel_ok (λ k, retry (fuel k) (Accept (osfd o)) (osfd o) POLLIN timeout k) s _ _ E1) as E2.
  exists g. destruct g as [f | | | |]; try done.
  - rewrite (bind_ok _ _ _ _ _ E2).
    destruct (new_or_close_ok mem ioctl_ok fcntl_ok true true f (Process (files s) k)) as (r & s' & E3 & K3 & H); try done; [by apply Hn |].
    exists r, s'. split; [done |]. rewrite K3. destruct H as (? & ? & ? & _). by split_and!.
  - eexists Fail, _. split; [unfold bind; rewrite E2; reflexivity |]. split; [done |]. split; [by intros b ob |]. done.
  - eexists Hang, _. split; [unfold bind; rewrite E2; reflexivity |]. split; [done |]. split; [by intros b ob |]. done.
Qed.

(** ** Connecting *)
Fixpoint interruptions (l : list answer) : nat :=
  match l with Eintr :: l => S (interruptions l) | _ => O end.

(** What is done about the first answer that is not an interruption, after [n] of them; [x]: what happens during the
    wait. *)
Definition connect_result (n : nat) (l : list answer) (x : happening) (e f timeout : Z) : outcome unit * list request :=
  match l with
  | Val _ :: _ => (Ok tt, [])
  | a :: l =>
      if match a with Einprogress => true | Eaddrinuse => (0 <? n)%nat | _ => false end then
        if wakes x then
          (match l with Val _ :: _ => if e =? 0 then Ok tt else Fail | _ => Fail end, [Wait f POLLOUT timeout; Getsockopt f])
        else (match wait_over timeout x with Hang => Hang | _ => Fail end, [Wait f POLLOUT timeout])
      else (Fail, [])
  | [] => (Fail, [])
  end.

(** The part after [connect] that is under way. *)
Lemma connect_pending f timeout k :
  let '(o, c) := connect_result 1 (Einprogress :: script k) (next_wait k) (so_error k) f timeout in
  ∃ k', (p <- st_netfd_poll f POLLOUT timeout ;;
    if p <? 0 then fail else
    g <- sys (Getsockopt f) ;;
    match g with Val _ => k <- gets id ;; if so_error k =? 0 then ret tt else fail | _ => fail end) k = (o, k') ∧
  calls k' = calls k ++ c.
Proof.
  unfold connect_result. unfold bind at 1. rewrite netfd_poll_ok. destruct (wakes (next_wait k)).
  - cbn. unfold bind, sys, waited. cbn. destruct (script k) as [| [] ?]; cbn; try destruct (so_error k =? 0);
      eexists; (split; [reflexivity |]); cbn; by rewrite <- app_assoc.
  - unfold wait_over. destruct (next_wait k); [| | destruct (timeout =? ST_UTIME_NO_TIMEOUT)]; eexists; (split; [reflexivity |]); done.
Qed.

Lemma connect_loop_ok m (i : nat) f addr timeout k :
  (length (script k) < m)%nat →
  let n := interruptions (script k) in
  let '(o, c) := connect_result (i + n) (drop n (script k)) (next_wait k) (so_error k) f timeout in
  ∃ k', connect_loop m (0 <? i)%nat f addr timeout k = (o, k') ∧
    calls k' = calls k ++ replicate (S n) (Connect f addr) ++ c.
Proof.
  revert i k. induction m as [| m IH]; intros i [l ws e c]; cbn [script]; [lia |]. intros Hm.
  cbn [connect_loop]. unfold bind at 1, sys. cbn [script waits so_error calls].
  destruct l as [| a l]; [cbn; eexists; split; [reflexivity |]; done |]. cbn [length] in Hm.
  pose proof (connect_pending f timeout (Net l ws e (c ++ [Connect f addr]))) as Hp. cbn [connect_result] in Hp.
  cbn [script so_error calls] in Hp. change (next_wait (Net l ws e (c ++ [Connect f addr]))) with (next_wait (Net (a :: l) ws e c)) in Hp.
  destruct a.
  - cbn. eexists. split; [reflexivity |]. done.
  - cbn [interruptions drop]. specialize (IH (S i) (Net l ws e (c ++ [Connect f addr])) ltac:(cbn; lia)).
    cbn [script waits so_error calls] in IH. rewrite Nat.add_succ_r. cbn zeta in *. rewrite Nat.add_succ_l in IH.
    change (next_wait (Net (Eintr :: l) ws e c)) with (next_wait (Net l ws e (c ++ [Connect f addr]))).
    destruct (connect_result _ _ _ _ _ _) as [o d]. destruct IH as (k' & E & Hc). exists k'. split; [exact E |].
    rewrite Hc, <- app_assoc. done.
  - cbn. eexists. split; [reflexivity |]. done.
  - cbn [interruptions drop connect_result negb]. destruct (wakes _); destruct Hp as (k' & E & Hc);
      (eexists; split; [exact E |]); rewrite Hc, <- app_assoc; done.
  - cbn [interruptions drop connect_result]. rewrite Nat.add_0_r. destruct (0 <? i)%nat; cbn [negb].
    2: { eexists. split; [reflexivity |]. done. }
    destruct (wakes _); destruct Hp as (k' & E & Hc); (eexists; split; [exact E |]); rewrite Hc, <- app_assoc; done.
  - cbn. eexists. split; [reflexivity |]. done.
Qed.

(** C20: [connect] is called once more than it is interrupted, and only then is [EADDRINUSE] taken for a connection under
    way; the call succeeds exactly when [connect] did, or when the socket became writable and no error was pending on it.  It
    fails otherwise, but for one case: it never returns when it has no time limit and nothing happens to a connection under
    way. *)
Theorem connect_outcome f addr timeout k :
  let n := interruptions (script k) in
  let '(o, c) := connect_result n (drop n (script k)) (next_wait k) (so_error k) f timeout in
  (∃ k', st_connect f addr timeout k = (o, k') ∧ calls k' = calls k ++ replicate (S n) (Connect f addr) ++ c) ∧
  (o = Ok tt ∨ o = Fail ∨ o = Hang ∧ timeout = ST_UTIME_NO_TIMEOUT ∧ next_wait k = Nothing).
Proof.
  cbv zeta. pose proof (connect_loop_ok (fuel k) 0 f addr timeout k ltac:(unfold fuel; lia)) as H. cbv zeta in H. cbn [Nat.add] in H.
  destruct (connect_result _ _ _ _ _ _) as [o c] eqn:E. split; [exact H |]. clear H. unfold connect_result in E.
  destruct (drop _ _) as [| a l]; [injection E as <- _; auto |].
  assert (∀ b : bool, (if b then
        if wakes (next_wait k) then
          (match l with Val _ :: _ => if so_error k =? 0 then Ok tt else Fail | _ => Fail end, [Wait f POLLOUT timeout; Getsockopt f])
        else (match wait_over timeout (next_wait k) with Hang => Hang | _ => Fail end, [Wait f POLLOUT timeout])
      else (Fail, [])) = (o, c) → o = Ok tt ∨ o = Fail ∨ o = Hang ∧ timeout = ST_UTIME_NO_TIMEOUT ∧ next_wait k = Nothing) as H.
  { intros b Hb. destruct b; [| injection Hb as <- _; auto]. destruct (wakes (next_wait k)).
    - injection Hb as <- _. destruct l as [| [] ?]; auto. destruct (so_error k =? 0); auto.
    - injection Hb as <- _. unfold wait_over. destruct (next_wait k); auto. destruct (Z.eqb_spec timeout ST_UTIME_NO_TIMEOUT); auto. }
  destruct a; try exact (H true E); try exact (H _ E); injection E as <- _; auto.
Qed.

(** ** The objects of NetFd.v; the kernel accepts descriptor 7 at the third call *)
Definition accepting : @process (@_st_epolldata epoll_sets) :=
  Process three_netfds (Net [Eintr; Eagain; Val 7] [Event POLLIN] 0 []).

Lemma accepted_not_leaked_witness :
  (∃ s', st_accept None true true 100 1000 accepting = (Ok 102, s') ∧ closed (files s') = [] ∧
     calls (kernel s') = [Accept 5; Accept 5; Wait 5 POLLIN 1000; Accept 5]) ∧
  (∃ s', st_accept None false false 100 1000 accepting = (Fail, s') ∧ closed (files s') = [7]).
Proof.
  assert (∀ io fc, ∃ g r s', st_accept None io fc 100 1000 accepting = (r, s') ∧ netfds_ok (files s') ∧
    objects_kept accepting s' ∧ retry_spec 1000 (Accept 5) (Wait 5 POLLIN 1000) (kernel accepting) g (kernel s') ∧
    match g with
    | Ok f => kept_or_closed f accepting s' r
    | Fail => r = Fail ∧ files s' = files accepting
    | Hang => r = Hang ∧ files s' = files accepting ∧ 1000 = ST_UTIME_NO_TIMEOUT
    | _ => False
    end) as H.
  { intros io fc. apply (accepted_not_leaked None io fc 100 (Netfd 5 true 0 None 0 0)); [exact three_netfds_ok | | done | vm_compute; reflexivity |].
    - exact (ib_ev _ _ _ (inv_all epoll_two (proj1 epoll_two_inv) 0)).
    - intros n Hn. assert (n = 7) as ->; [| lia]. cbn in Hn. set_solver. }
  split.
  - destruct (H true true) as (g & r & s' & E & _). exists s'.
    assert ((st_accept None true true 100 1000 accepting).1 = Ok 102) as H1 by (vm_compute; reflexivity).
    assert (closed (files (st_accept None true true 100 1000 accepting).2) = []) as H2 by (vm_compute; reflexivity).
    assert (calls (kernel (st_accept None true true 100 1000 accepting).2) = [Accept 5; Accept 5; Wait 5 POLLIN 1000; Accept 5])
      as H3 by (vm_compute; reflexivity).
    rewrite E in *. cbn in H1, H2, H3. by subst.
  - destruct (H false false) as (g & r & s' & E & _). exists s'.
    assert ((st_accept None false false 100 1000 accepting).1 = Fail) as H1 by (vm_compute; reflexivity).
    assert (closed (files (st_accept None false false 100 1000 accepting).2) = [7]) as H2 by (vm_compute; reflexivity).
    rewrite E in *. cbn in H1, H2. by subst.
Defined.

(** [EADDRINUSE] before and after an interruption, and a host that does not answer. *)
Example connect_after_interruption :
  let writable := [Event POLLOUT] in
  (st_connect 4 9 1000 (Net [Eaddrinuse; Val 0] writable 0 [])).1 = Fail ∧
  (st_connect 4 9 1000 (Net [Eintr; Eaddrinuse; Val 0] writable 0 [])).1 = Ok tt ∧
  (st_connect 4 9 1000 (Net [Eintr; Eaddrinuse; Val 0] writable 111 [])).1 = Fail ∧
  (st_connect 4 9 1000 (Net [Einprogress; Val 0] [Nothing] 0 [])).1 = Fail ∧
  (st_connect 4 9 ST_UTIME_NO_TIMEOUT (Net [Einprogress; Val 0] [Nothing] 0 [])).1 = Hang.
Proof. vm_compute. done. Qed.
