(* ===== verification/SerialAccept.v ===== *)
(** * 3rdpart/st-1.9/io.c: [accept] by one process at a time

    On systems where several processes must not be in [accept] for the same socket (none of those Linux is), [st_accept] takes a
    byte out of a pipe that they share before the call, and puts it back after it.  A step is what one caller does
    between two system calls; the steps of the callers interleave. *)

From stdpp Require Import base list relations.
From Stdlib Require Import Lia ZArith.
From S2P Require Import Prelude.
From S2P Require Import Bytes.

Local Open Scope Z_scope.

(** What [accept] returns: a descriptor; EINTR; an error that says to wait; another error. *)
Inductive accepting := Descriptor (osfd : Z) | Interrupted | Not_ready | Broken.

(** A thread of some process that serves the socket: not in [st_accept]; in [st_read] of the lock; before and after
    [accept] with the byte read; in [st_netfd_poll]; with a result ([None]: NULL); the process has ended. *)
Inductive caller :=
| Outside
| Locking
| Locked (c : byte)
| Unlocking (c : byte) (r : accepting)
| Polling
| Done (osfd : option Z)
| Dead.

(** [pipe]: the bytes in the pipe. *)
Record shared := Shared { pipe : list byte; callers : list caller }.

Implicit Types (s : shared) (i : nat) (x : caller).

(** Where the loop goes after the byte was put back. *)
Definition after_accept (r : accepting) : caller :=
  match r with
  | Descriptor f => Done (Some f)
  | Interrupted => Locking
  | Not_ready => Polling
  | Broken => Done None
  end.

(** What the environment decides in a step of [st_accept]. *)
Inductive input :=
| Call
| Read_lock
| Read_fails
| Accept (r : accepting)
| Write_lock
| Poll_ready
| Poll_fails
| Return.

(** The caller after the step and the bytes in the pipe; [None]: the step is not possible (an empty pipe blocks). *)
Definition st_accept_step (ev : input) x (pipe : list byte) : option (caller * list byte) :=
  match x, ev with
  | Outside, Call => Some (Locking, pipe)
  | Locking, Read_lock => match pipe with c :: l => Some (Locked c, l) | [] => None end
  | Locking, Read_fails => Some (Done None, pipe)
  | Locked c, Accept r => Some (Unlocking c r, pipe)
  | Unlocking c r, Write_lock => Some (after_accept r, pipe ++ [c])
  | Polling, Poll_ready => Some (Locking, pipe)
  | Polling, Poll_fails => Some (Done None, pipe)
  | Done _, Return => Some (Outside, pipe)
  | _, _ => None
  end.

(** What [st_netfd_serialize_accept] leaves in the pipe; the callers come after it. *)
Definition serialized (n : nat) : shared := Shared [x20] (replicate n Outside).

Definition exec_step i ev s : option shared :=
  match callers s !! i with
  | Some x =>
      match st_accept_step ev x (pipe s) with
      | Some (x', l) => Some (Shared l (<[i := x']> (callers s)))
      | None => None
      end
  | None => None
  end.

Definition live_step s s' : Prop := ∃ i ev, exec_step i ev s = Some s'.

(** A process that ends takes what it read with it. *)
Definition dies i s : shared := Shared (pipe s) (<[i := Dead]> (callers s)).

Inductive shared_step s : shared → Prop :=
| step_live s' : live_step s s' → shared_step s s'
| step_dies i : shared_step s (dies i s).

(** ** One byte *)
(** Between [st_read] and [st_write] of the lock. *)
Definition holds x : bool := match x with Locked _ | Unlocking _ _ => true | _ => false end.

(** The callers that hold the lock. *)
Definition holders s : nat := length (filter (λ x, holds x = true) (callers s)).

Lemma holders_insert i x y s :
  callers s !! i = Some x →
  (holders (Shared (pipe s) (<[i := y]> (callers s))) + (if holds x then 1 else 0) = holders s + (if holds y then 1 else 0))%nat.
Proof.
  intros H. unfold holders. cbn [callers]. pose proof (lookup_lt_Some _ _ _ H) as Hi.
  pose proof (take_drop_middle _ _ _ H) as E. rewrite insert_take_drop by done.
  set (l1 := take i (callers s)) in *. set (l2 := drop (S i) (callers s)) in *. rewrite <- E, !filter_app, !filter_cons, !length_app.
  assert (∀ z (l : list caller), length (if decide (holds z = true) then z :: l else l) = ((if holds z then 1 else 0) + length l)%nat) as Hz
    by (intros z l; by destruct (holds z)).
  rewrite !Hz. lia.
Qed.

(** The bytes and the holders together. *)
Lemma live_step_token s s' : live_step s s' → (length (pipe s') + holders s' = length (pipe s) + holders s)%nat.
Proof.
  intros (i & ev & H). unfold exec_step in H. destruct (callers s !! i) as [x |] eqn:Ex; [| done].
  destruct (st_accept_step ev x (pipe s)) as [[y l] |] eqn:Ey; [| done]. injection H as <-.
  pose proof (holders_insert i x y s Ex) as Hh. unfold holders in *. cbn [callers pipe] in *.
  assert (length l + (if holds y then 1 else 0) = length (pipe s) + (if holds x then 1 else 0))%nat; [| lia].
  destruct x, ev; cbn in Ey; simplify_eq; try (cbn; lia); destruct (pipe s); simplify_eq; try (cbn; lia);
    try (rewrite length_app); destruct r; cbn; lia.
Qed.

Lemma dies_token i s : (holders (dies i s) <= holders s)%nat.
Proof.
  unfold dies. destruct (callers s !! i) as [x |] eqn:Ex.
  - pose proof (holders_insert i x Dead s Ex) as Hh. change (holds Dead) with false in Hh. destruct (holds x); lia.
  - unfold holders. cbn. rewrite list_insert_ge; [done | by apply lookup_ge_None].
Qed.

Lemma steps_token s s' : rtc shared_step s s' → (length (pipe s') + holders s' <= length (pipe s) + holders s)%nat.
Proof.
  induction 1 as [| s s1 s' H _ IH]; [done |]. destruct H as [s1 H | i].
  - apply live_step_token in H. lia.
  - pose proof (dies_token i s). cbn [pipe dies] in IH. lia.
Qed.

Lemma live_steps_token s s' : rtc live_step s s' → (length (pipe s') + holders s' = length (pipe s) + holders s)%nat.
Proof. induction 1 as [| s s1 s' H _ IH]; [done |]. apply live_step_token in H. lia. Qed.

Lemma start_token n : (length (pipe (serialized n)) + holders (serialized n) = 1)%nat.
Proof.
  unfold holders. cbn. assert (filter (λ x, holds x = true) (replicate n Outside) = []) as ->; [| done].
  induction n as [| n IH]; [done |]. cbn [replicate]. rewrite filter_cons, decide_False by done. exact IH.
Qed.

(** Two callers between the lock and the unlock would both count. *)
Lemma two_holders s i j x y :
  i ≠ j → callers s !! i = Some x → callers s !! j = Some y → holds x = true → holds y = true → (2 <= holders s)%nat.
Proof.
  intros Hij Hi Hj Hx Hy. pose proof (holders_insert i x Outside s Hi) as H1. rewrite Hx in H1. cbn in H1.
  assert (callers (Shared (pipe s) (<[i := Outside]> (callers s))) !! j = Some y) as Hj' by (cbn; by rewrite list_lookup_insert_ne).
  pose proof (holders_insert j y Outside _ Hj') as H2. rewrite Hy in H2. cbn in H2. lia.
Qed.

(** ** The theorems *)
(** However the callers interleave and whichever processes end, at most one of them is between taking the byte and putting it
    back, so that no two are in [accept]. *)
Theorem one_accepts n s :
  rtc shared_step (serialized n) s →
  ∀ i j x y, callers s !! i = Some x → callers s !! j = Some y → holds x = true → holds y = true → i = j.
Proof.
  intros H i j x y Hi Hj Hx Hy. destruct (decide (i = j)) as [| Hij]; [done |].
  pose proof (two_holders s i j x y Hij Hi Hj Hx Hy). apply steps_token in H. pose proof (start_token n). lia.
Qed.

(** A caller in [st_read] of the lock gets it, or another caller holds it and can go on. *)
Theorem lock_is_free n s i :
  rtc live_step (serialized n) s → callers s !! i = Some Locking →
  (∃ s', exec_step i Read_lock s = Some s') ∨
  ∃ j x ev s', callers s !! j = Some x ∧ holds x = true ∧ exec_step j ev s = Some s'.
Proof.
  intros H Hi. apply live_steps_token in H. pose proof (start_token n) as H1. destruct (pipe s) as [| c l] eqn:Ep.
  - right. assert (∃ x, x ∈ filter (λ x, holds x = true) (callers s)) as [x Hx].
    { unfold holders in H. destruct (filter _ (callers s)) as [| x ?] eqn:E; [cbn in H; unfold holders in H1; cbn in *; lia |]. exists x. left. }
    apply list_elem_of_filter in Hx as [Hx [j Hj]%list_elem_of_lookup]. exists j, x.
    destruct x as [| | c | c r | | |]; try done.
    + eexists (Accept Interrupted), _. split; [done |]. split; [done |]. unfold exec_step. rewrite Hj. done.
    + eexists Write_lock, _. split; [done |]. split; [done |]. unfold exec_step. rewrite Hj. done.
  - left. eexists. unfold exec_step. rewrite Hi. cbn. by rewrite Ep.
Qed.

(** A process that ends between the two takes the byte with it: nobody accepts a connection any more. *)
Theorem holder_dies n s i x s' :
  rtc shared_step (serialized n) s → callers s !! i = Some x → holds x = true →
  rtc shared_step (dies i s) s' → pipe s' = [] ∧ ∀ j y, callers s' !! j = Some y → holds y = false.
Proof.
  intros H Hi Hx H'. apply steps_token in H, H'. pose proof (start_token n). pose proof (holders_insert i x Dead s Hi) as Hh.
  rewrite Hx in Hh. change (holds Dead) with false in Hh. cbv iota in Hh. fold (dies i s) in Hh. change (pipe (dies i s)) with (pipe s) in H'. split.
  - destruct (pipe s'); [done | cbn [length] in H'; lia].
  - intros j y Hj. destruct (holds y) eqn:Hy; [| done]. exfalso.
    pose proof (holders_insert j y Outside s' Hj) as H2. rewrite Hy in H2. change (holds Outside) with false in H2. cbv iota in H2. lia.
Qed.

(** ** Making the lock *)
(** The descriptors that are open, the descriptor objects in use, the blocks of memory, what was written to the pipe;
    [aux_data]: whether the socket has a lock. *)
Record setup := Setup { open_fds : Z; objects : Z; blocks : Z; written : list byte; aux_data : bool }.

Definition add_setup (f o b : Z) (k : setup) := Setup (open_fds k + f) (objects k + o) (blocks k + b) (written k) (aux_data k).

(** What the system does: [calloc], [pipe], the two calls of [st_netfd_open], [write]. *)
Record answers := Answers { mem_ok : bool; pipe_ok : bool; open0_ok : bool; open1_ok : bool; write_ok : bool }.

(** Returns 0 or -1. *)
Definition st_netfd_serialize_accept (a : answers) : M setup Z :=
  k <- gets id ;;
  if aux_data k then ret (-1) else
  if negb (mem_ok a) then ret (-1) else
  modify (add_setup 0 0 1) ;;
  if negb (pipe_ok a) then modify (add_setup 0 0 (-1)) ;; ret (-1) else
  modify (add_setup 2 0 0) ;;
  (if open0_ok a then modify (add_setup 0 1 0) else ret tt) ;;
  (if open0_ok a && open1_ok a then modify (add_setup 0 1 0) else ret tt) ;;
  if open0_ok a && open1_ok a && write_ok a then
    modify (λ k, Setup (open_fds k) (objects k) (blocks k) (written k ++ [x20]) true) ;; ret 0
  else
    (if open0_ok a then modify (add_setup 0 (-1) 0) else ret tt) ;;
    (if open0_ok a && open1_ok a then modify (add_setup 0 (-1) 0) else ret tt) ;;
    modify (add_setup (-2) 0 0) ;;
    modify (add_setup 0 0 (-1)) ;; ret (-1).

(** A call that fails gives everything back; one that succeeds leaves one byte in a new pipe. *)
Lemma serialize_accept_ok a k :
  ∃ r k', st_netfd_serialize_accept a k = (Ok r, k') ∧
    (r = -1 ∧ k' = k ∨ r = 0 ∧ k' = Setup (open_fds k + 2) (objects k + 2) (blocks k + 1) (written k ++ [x20]) true ∧ aux_data k = false).
Proof.
  destruct k as [f o b w aux], a as [[] [] [] [] []], aux; unfold st_netfd_serialize_accept, bind, add_setup; cbn;
    eexists _, _; (split; [reflexivity |]); try (left; split; [done |]; f_equal; lia); right; (split; [done |]); split; try done; f_equal; lia.
Qed.
