(* ===== verification/Server.v ===== *)
(** * server.cpp, main_server.cpp: the accept loop and the table of clients

    The server is laid over the descriptor objects and the scheduler.  A round of the accept
    loop blocks in [st_accept]; what follows when the kernel hands out a descriptor runs up to
    [st_usleep(0)] without another thread running, and is one step ([Accepted]); the calls of all threads
    are the steps of SchedSteps.v; of what [process_thread] does to its [Client] object there is the assignment to
    [chunk_size] ([Resized]): it deletes no client and closes no descriptor, also when it returns. *)

From stdpp Require Import base list sets gmap.
From Stdlib Require Import Lia ZArith.
From S2P Require Import Prelude.
From S2P Require Import TimeoutHeap.
From S2P Require Import Vp.
From S2P Require Import Sync.
From S2P Require Import Fair.
From S2P Require Import Sched.
From S2P Require Import SchedOps.
From S2P Require Import SchedCalls.
From S2P Require Import SchedSteps.
From S2P Require Import IoQueue.
From S2P Require Import Interest.
From S2P Require Import SelectEv.
From S2P Require Import EpollEv.
From S2P Require Import NetFd.
From S2P Require Import NetCalls.

Local Open Scope Z_scope.

(** What the constructor of [Client] stores; the objects it makes are those of IoBuffer.v, IoSocket.v and
    Session.v. *)
Record Client := Client_new { stfd_client : Z; chunk_size : Z }.

(** NULL or -1 instead of a result. *)
Definition or_null {S B : Type} (c : M S B) : M S (option B) := λ s,
  match c s with
  | (Ok r, s') => (Ok (Some r), s')
  | (Fail, s') => (Ok None, s')
  | (Throw, s') => (Throw, s')
  | (Undef, s') => (Undef, s')
  | (Hang, s') => (Hang, s')
  end.

Section server.
Context {E A : Type} `{!EventSys E, HL : !EventSysLaws E, !Dispatch E A, !DispatchLaws E A}.
Context `{!Counting E, !FdEvents E, !FdEventsLaws E}.
Notation vp := (@_st_vp E).

(** [objects]: the [Client] objects.  NULL is 0. *)
Record Server := Server_state {
  proc : @process E;
  stfd : Z;
  clients : gmap Z Z;
  objects : gmap Z Client;
}.
Implicit Types (s : Server) (a b c f t : Z).

Definition vp_of s : vp := sched (files (proc s)).
Definition with_sched (v : vp) (s : @process E) : @process E :=
  Process (Io v (netfds (files s)) (_st_netfd_freelist (files s)) (destroyed (files s)) (closed (files s))) (kernel s).
Definition with_proc (p : process) s : Server := Server_state p (stfd s) (clients s) (objects s).

Definition with_vp (v : vp) s : Server := with_proc (with_sched v (proc s)) s.

Definition on_proc {B : Type} (c : M process B) : M Server B := λ s,
  let '(o, p) := c (proc s) in (o, with_proc p s).
Definition on_sched {B : Type} (c : M vp B) : M Server B := λ s,
  let '(o, v) := c (vp_of s) in (o, with_vp v s).

(** [Client::cycle]; [thread]: the memory for the thread, NULL when there is none. *)
Definition cycle (thread : option Z) : M Server unit :=
  or_null (on_sched (st_thread_create thread false None)) ;; ret tt.

(** [new Client(client_stfd)] at the address [c]. *)
Definition new_client c a : M Server unit :=
  modify (λ s, Server_state (proc s) (stfd s) (clients s) (<[c := Client_new a 128]> (objects s))).

(** [unordered_map::insert] leaves an entry with the same key. *)
Definition insert_client a c : M Server unit :=
  modify (λ s, Server_state (proc s) (stfd s)
    (match clients s !! a with Some _ => clients s | None => <[a := c]> (clients s) end) (objects s)).

(** The round after [st_accept] has returned, up to the switch of [st_usleep]. *)
Definition welcome (client_stfd : option Z) c (thread : option Z) : M Server unit :=
  match client_stfd with
  | None => ret tt
  | Some a =>
      new_client c a ;;
      insert_client a c ;;
      cycle thread ;;
      or_null (on_sched (st_usleep_enter 0)) ;;
      ret tt
  end.

Definition accept_round (mem : option Z) (ioctl_ok fcntl_ok : bool) c (thread : option Z) : M Server unit :=
  s <- gets id ;;
  client_stfd <- or_null (on_proc (st_accept mem ioctl_ok fcntl_ok (stfd s) ST_UTIME_NO_TIMEOUT)) ;;
  welcome client_stfd c thread.

(** The part of the round after the kernel has handed out the descriptor [f]. *)
Definition served (mem : option Z) (ioctl_ok fcntl_ok : bool) f c (thread : option Z) : M Server unit :=
  client_stfd <- or_null (on_proc (new_or_close mem ioctl_ok fcntl_ok f true true)) ;;
  welcome client_stfd c thread.

(** [socket]: what the call returns, NULL for -1; the flags say whether the calls succeed. *)
Definition listen (socket : option Z) (setsockopt_ok bind_ok listen_ok : bool)
    (mem : option Z) (ioctl_ok fcntl_ok : bool) (thread : option Z) : M Server unit :=
  match socket with
  | None => fail
  | Some fd =>
      if negb setsockopt_ok then fail else
      if negb bind_ok then fail else
      if negb listen_ok then fail else
      a <- on_proc (on_files (st_netfd_open_socket mem ioctl_ok fcntl_ok fd)) ;;
      modify (λ s, Server_state (proc s) (default 0 a) (clients s) (objects s)) ;;
      match a with
      | None => fail
      | Some _ => on_sched (st_thread_create thread false None) ;; ret tt
      end
  end.

(** [main] after [st_init]: the results of [initialize] and [listen] are not looked at, and [cycle] ends the
    primordial thread. *)
Definition main (socket : option Z) (setsockopt_ok bind_ok listen_ok : bool)
    (mem : option Z) (ioctl_ok fcntl_ok : bool) (thread : option Z) : M Server unit :=
  or_null (listen socket setsockopt_ok bind_ok listen_ok mem ioctl_ok fcntl_ok thread) ;;
  on_sched (st_thread_exit_enter 0).

Definition start (v : vp) (k : net) : Server := Server_state (Process (Io v ∅ 0 [] []) k) 0 ∅ ∅.

(** ** Steps *)
(** The kernel does not hand out a descriptor that is open. *)
Definition fresh_fd f s : Prop :=
  0 <= f < 2 ^ 30 ∧ ∀ a o, netfds (files (proc s)) !! a = Some o → inuse o = true → osfd o ≠ f.

Definition thread_ready (thread : option Z) s : Prop := ∀ t, thread = Some t → t ∉ dom (threads (vp_of s)).

(** [client->chunk_size = 4096;] *)
Definition resize c (cl : Client) s : Server :=
  Server_state (proc s) (stfd s) (clients s) (<[c := Client_new (stfd_client cl) 4096]> (objects s)).

Inductive server_step s : Server → Prop :=
| Resized c cl : objects s !! c = Some cl → server_step s (resize c cl s)
| Calls v : step (A := A) (vp_of s) v → server_step s (with_vp v s)
| Accepted mem ioctl_ok fcntl_ok f c thread s' :
    user (vp_of s) → room (vp_of s) → fresh_fd f s → can_allocate mem (proc s) → c ∉ dom (objects s) →
    thread_ready thread s → served mem ioctl_ok fcntl_ok f c thread s = (Ok tt, s') → server_step s s'.

(** ** The invariant *)
(** Every client has an object and a descriptor of its own, and every object in use other than
    the listener's belongs to a client. *)
Record connections s : Prop := {
  cn_client a c : clients s !! a = Some c → ∃ o, netfds (files (proc s)) !! a = Some o ∧ inuse o = true ∧
    stfd_client <$> objects s !! c = Some a;
  cn_served a o : netfds (files (proc s)) !! a = Some o → inuse o = true → a ≠ stfd s → is_Some (clients s !! a);
  cn_fds a b o o' : netfds (files (proc s)) !! a = Some o → netfds (files (proc s)) !! b = Some o' →
    inuse o = true → inuse o' = true → osfd o = osfd o' → a = b;
  cn_stfd : clients s !! stfd s = None ∧ ∃ o, netfds (files (proc s)) !! stfd s = Some o ∧ inuse o = true;
}.

Record server_ok s : Prop := {
  so_sched : ok (vp_of s);
  so_netfds : netfds_ok (files (proc s));
  so_connections : connections s;
}.

(** The objects are still there, with their descriptors. *)
Definition same_stfd s s' : Prop := ∀ c, is_Some (objects s !! c) → stfd_client <$> objects s' !! c = stfd_client <$> objects s !! c.

(** The clients of [s] are still there, with the same objects. *)
Definition clients_kept s s' : Prop :=
  stfd s' = stfd s ∧ clients s ⊆ clients s' ∧ same_stfd s s' ∧ objects_kept (proc s) (proc s').

#[export] Instance clients_kept_preorder : PreOrder clients_kept.
Proof.
  split.
  - intros s. split_and!; try done. by intros b o.
  - intros s1 s2 s3 (T1 & C1 & O1 & K1) (T2 & C2 & O2 & K2). split_and!; [congruence | by etrans | |].
    { intros c [x Hx]. pose proof (O1 c (mk_is_Some _ _ Hx)) as E1. rewrite <- E1. apply O2. rewrite Hx in E1.
      destruct (objects s2 !! c); [by eexists | done]. }
    intros b o Hb Hu. apply K2; [by apply K1 | done].
Qed.

(** ** A round of the accept loop *)
Lemma on_sched_ok {B : Type} (c : M vp B) Q F s :
  wp c Q F (vp_of s) →
  ∃ r v, or_null (on_sched c) s = (Ok r, with_vp v s) ∧ match r with Some x => Q x v | None => F v end.
Proof.
  unfold wp, or_null, on_sched. destruct (c (vp_of s)) as [[] v]; try done; intros H; by eexists _, v.
Qed.

Lemma connections_vp v s : connections s → connections (with_vp v s).
Proof. by intros []. Qed.

Lemma server_ok_vp v s : server_ok s → ok v → server_ok (with_vp v s).
Proof. intros [_ Hn Hc] Hv. split; [done | by apply netfds_ok_io | by apply connections_vp]. Qed.

Lemma vp_kept v s : clients_kept s (with_vp v s).
Proof. split_and!; try done. by intros b o. Qed.

Lemma with_vp_twice v w s : with_vp v (with_vp w s) = with_vp v s.
Proof. done. Qed.

(** A thread that is runnable stays so, or runs. *)
Definition awaits_turn t (v : vp) : Prop := this_thread v = t ∨ t ∈ run_q v.

Lemma yields_awaits {B : Type} (c : M vp B) v o v' t :
  yields c → c v = (o, v') → returned o → t ∈ run_q v → awaits_turn t v'.
Proof.
  intros Hy E1 Ho Ht. destruct (Hy v o v' E1 Ho) as [(_ & _ & [l Hl]) | (_ & l & Hl)].
  - right. rewrite Hl. apply elem_of_app. by left.
  - assert (t ∈ run_q v ++ l) as Hin by (apply elem_of_app; by left).
    destruct (run_q v ++ l) as [| u q]; [by apply not_elem_of_nil in Hin |]. destruct Hl as [Eu Eq].
    destruct (decide (t = u)) as [-> |]; [by left | right]. rewrite Eq. by apply elem_of_remove.
Qed.

Lemma cycle_ok thread s :
  ok (vp_of s) → user (vp_of s) → room (vp_of s) → thread_ready thread s →
  ∃ v, cycle thread s = (Ok tt, with_vp v s) ∧ ok v ∧ user v ∧ room v ∧ ∀ t, thread = Some t → t ∈ run_q v.
Proof.
  intros Hok Hu Hr Ht. unfold cycle. destruct thread as [t |].
  2: { exists (vp_of s). split; [| done]. unfold bind, or_null, on_sched. cbn. done. }
  destruct (on_sched_ok _ _ _ s (create_runnable t (vp_of s) (λ _, False) (proj1 Hok) Hu (Ht t eq_refl))) as (r & v & E1 & H).
  rewrite (bind_ok _ _ _ _ _ E1). exists v. split; [done |]. destruct r as [r |]; [| done].
  destruct H as (Hv & -> & Hq & Hth & _ & Hsl & _ & Et & Eid). split; [done |]. split.
  - destruct Hu as (Hni & th & Hcur & Hctx). split; [congruence |]. exists th. split; [| done].
    rewrite Hth, Et, lookup_insert_ne; [done |]. intros ->. apply (Ht (this_thread (vp_of s)) eq_refl). apply elem_of_dom. by eexists.
  - split; [unfold room; by rewrite Hsl |]. intros u [= <-]. rewrite Hq. apply elem_of_app. right. by left.
Qed.

Lemma welcome_none c thread s : welcome None c thread s = (Ok tt, s).
Proof. done. Qed.

Lemma welcome_ok a c thread s :
  ok (vp_of s) → user (vp_of s) → room (vp_of s) → thread_ready thread s → clients s !! a = None →
  ∃ v, welcome (Some a) c thread s = (Ok tt, with_vp v
      (Server_state (proc s) (stfd s) (<[a := c]> (clients s)) (<[c := Client_new a 128]> (objects s)))) ∧
    ok v ∧ ∀ t, thread = Some t → awaits_turn t v.
Proof.
  intros Hok Hu Hr Ht Hn. unfold welcome. unfold bind at 1, new_client. cbn [modify].
  unfold bind at 1, insert_client. cbn [modify clients proc stfd objects]. rewrite Hn. set (s1 := Server_state _ _ _ _).
  destruct (cycle_ok thread s1 Hok Hu Hr Ht) as (v & E1 & Hv & Hu1 & Hr1 & Hq). rewrite (bind_ok _ _ _ _ _ E1).
  assert (wp (st_usleep_enter 0) (λ _ v', ok v' ∧ ∀ t, thread = Some t → awaits_turn t v')
    (λ v', ok v' ∧ ∀ t, thread = Some t → awaits_turn t v') (vp_of (with_vp v s1))) as Hw.
  { pose proof (usleep_enter_ok 0 v (proj1 Hv) Hu1 Hr1) as H. cbn. unfold wp in *.
    destruct (st_usleep_enter 0 v) as [[] v'] eqn:E2; try done; (split; [done |]); intros t ->;
      by eapply (yields_awaits (st_usleep_enter 0)); [apply yields_usleep_enter | exact E2 | | apply Hq]. }
  destruct (on_sched_ok _ _ _ _ Hw) as (r & v' & E2 & H). rewrite (bind_ok _ _ _ _ _ E2).
  exists v'. split; [done |]. by destruct r.
Qed.

(** What a round does with the descriptor [f]. *)
Definition taken f c (thread : option Z) s s' : Prop :=
  (∃ a o, clients s !! a = None ∧ clients s' = <[a := c]> (clients s) ∧ netfds (files (proc s')) !! a = Some o ∧
     osfd o = f ∧ inuse o = true ∧ closed (files (proc s')) = closed (files (proc s)) ∧
     stfd_client <$> objects s' !! c = Some a ∧ ∀ t, thread = Some t → awaits_turn t (vp_of s')) ∨
  (clients s' = clients s ∧ closed (files (proc s')) = closed (files (proc s)) ++ [f]).

Lemma eventsys_ok s v : ok (vp_of s) → (∃ e, v = with_eventsys e (vp_of s) ∧ ev_step (eventsys (vp_of s)) e) → ok v.
Proof. intros [Hi Hq] (e & -> & He). split; [by apply with_eventsys_inv | exact Hq]. Qed.

Lemma add_client_ok a c f s p v o :
  server_ok s → netfds_ok (files p) → ok v → objects_kept (proc s) p → no_others (proc s) p (Ok a) →
  netfds (files p) !! a = Some o → osfd o = f → inuse o = true → clients s !! a = None → a ≠ stfd s → c ∉ dom (objects s) →
  fresh_fd f s →
  let s' := with_vp v (Server_state p (stfd s) (<[a := c]> (clients s)) (<[c := Client_new a 128]> (objects s))) in
  server_ok s' ∧ clients_kept s s'.
Proof.
  intros [Hok Hn [C1 C2 C3 (C4 & ol & C5 & C6)]] Hp Hv Hk Hno Ha Hf Hu Hnone Hst Hc [_ Hff] s'. apply not_elem_of_dom in Hc.
  assert (∀ b ob, netfds (files p) !! b = Some ob → inuse ob = true → b ≠ a → netfds (files (proc s)) !! b = Some ob) as Hold.
  { intros b ob Hb Hub Hne. destruct (Hno b ob Hb Hub) as [[= <-] |]; [done | done]. }
  split; [split; [done | by apply netfds_ok_io | split] | split_and!]; cbn [clients proc files netfds objects stfd with_vp with_proc with_sched s'].
  - intros b d. destruct (decide (b = a)) as [-> | Hb].
    + rewrite lookup_insert_eq. intros [= <-]. exists o. by rewrite lookup_insert_eq.
    + rewrite lookup_insert_ne by done. intros Hbd. destruct (C1 b d Hbd) as (ob & H1 & H2 & H3). exists ob.
      split; [by apply Hk |]. split; [done |]. rewrite lookup_insert_ne; [done |]. intros ->. by rewrite Hc in H3.
  - intros b ob Hb Hub Hne. destruct (decide (b = a)) as [-> | Hab]; [rewrite lookup_insert_eq; by eexists |].
    rewrite lookup_insert_ne by done. by eapply C2; [apply Hold | |].
  - intros b1 b2 o1 o2 H1 H2 U1 U2 Heq. destruct (decide (b1 = a)) as [-> | N1], (decide (b2 = a)) as [-> | N2]; [done | | |].
    + exfalso. assert (o1 = o) as -> by congruence. apply (Hff b2 o2); [by apply Hold | done | congruence].
    + exfalso. assert (o2 = o) as -> by congruence. apply (Hff b1 o1); [by apply Hold | done | congruence].
    + apply (C3 b1 b2 o1 o2); try done; by apply Hold.
  - rewrite lookup_insert_ne by done. split; [done |]. exists ol. split; [by apply Hk | done].
  - done.
  - by apply insert_subseteq.
  - intros d Hd. cbn. rewrite lookup_insert_ne; [done |]. intros ->. rewrite Hc in Hd. by destruct Hd.
  - exact Hk.
Qed.

Lemma served_ok mem (ioctl_ok fcntl_ok : bool) f c thread s :
  server_ok s → user (vp_of s) → room (vp_of s) → fresh_fd f s → can_allocate mem (proc s) → c ∉ dom (objects s) →
  thread_ready thread s →
  ∃ s', served mem ioctl_ok fcntl_ok f c thread s = (Ok tt, s') ∧ server_ok s' ∧ clients_kept s s' ∧ taken f c thread s s'.
Proof.
  intros Hs Hu Hr Hf Hmem Hc Ht. pose proof Hs as [Hok Hn Hcn].
  destruct (new_or_close_ok mem ioctl_ok fcntl_ok true true f (proc s) Hn (ib_ev _ _ _ (inv_all _ (proj1 Hok) 0)) (proj1 Hf) Hmem)
    as (r & p & E1 & Kp & Hp & Hkc & Hk & Hno & He).
  assert (ok (sched (files p))) as Hokp by (by apply (eventsys_ok s)).
  unfold served. destruct Hkc as [(a & -> & [Hun (o & Ho & Hof & Hou & _)] & Hcl) | [-> Hcl]].
  - assert (or_null (on_proc (new_or_close mem ioctl_ok fcntl_ok f true true)) s = (Ok (Some a), with_proc p s)) as E2
      by (unfold or_null, on_proc; by rewrite E1).
    assert (clients s !! a = None) as Hna.
    { destruct (clients s !! a) as [d |] eqn:Hd; [| done]. destruct (cn_client _ Hcn a d Hd) as (o' & Ho' & Hu' & _). by rewrite (Hun o' Ho') in Hu'. }
    assert (a ≠ stfd s) as Hast.
    { intros ->. destruct (cn_stfd _ Hcn) as (_ & o' & Ho' & Hu'). by rewrite (Hun o' Ho') in Hu'. }
    assert (user (sched (files p)) ∧ room (sched (files p)) ∧ threads (sched (files p)) = threads (vp_of s)) as (Hu2 & Hr2 & Ht2).
    { destruct He as (e & -> & _). split_and!; [exact Hu | exact Hr | done]. }
    destruct (welcome_ok a c thread (with_proc p s)) as (v & E3 & Hv & Hw); try done.
    { intros t Hth. cbn. unfold vp_of. cbn. rewrite Ht2. by apply Ht. }
    rewrite (bind_ok _ _ _ _ _ E2). eexists. split; [exact E3 |].
    destruct (add_client_ok a c f s p v o Hs Hp Hv Hk Hno Ho Hof Hou Hna Hast Hc Hf) as [Hso Hck].
    split; [exact Hso |]. split; [exact Hck |]. left. exists a, o. split_and!; try done. cbn. by rewrite lookup_insert_eq.
  - assert (or_null (on_proc (new_or_close mem ioctl_ok fcntl_ok f true true)) s = (Ok None, with_proc p s)) as E2
      by (unfold or_null, on_proc; by rewrite E1).
    rewrite (bind_ok _ _ _ _ _ E2). exists (with_proc p s). split; [done |].
    assert (∀ b o, netfds (files p) !! b = Some o → inuse o = true → netfds (files (proc s)) !! b = Some o) as Hold.
    { intros b o Hb Hub. by destruct (Hno b o Hb Hub). }
    destruct Hcn as [C1 C2 C3 (C4 & ol & C5 & C6)].
    split; [split; [exact Hokp | exact Hp | split] | split; [by split_and! | by right]]; cbn [clients proc stfd objects with_proc].
    + intros a d Ha. destruct (C1 a d Ha) as (o & H1 & H2 & H3). exists o. split; [by apply Hk | done].
    + intros a o Ha Huo. apply (C2 a o); [by apply Hold | done].
    + intros a b o o' Ha Hb U1 U2. apply (C3 a b o o'); try done; by apply Hold.
    + split; [done |]. exists ol. split; [by apply Hk | done].
Qed.

Lemma server_step_ok s s' : server_ok s → server_step s s' → server_ok s' ∧ clients_kept s s'.
Proof.
  intros Hs [c cl Hcl | v Hstep | mem io fc f c thread s1 Hu Hr Hf Hmem Hc Ht E1].
  - assert (∀ d, stfd_client <$> objects (resize c cl s) !! d = stfd_client <$> objects s !! d) as Ho.
    { intros d. cbn. destruct (decide (d = c)) as [-> |]; [by rewrite lookup_insert_eq, Hcl | by rewrite lookup_insert_ne]. }
    destruct Hs as [H1 H2 [C1 C2 C3 C4]]. split; [split; [done | done | split; try done] | split_and!; try done].
    + intros a d Ha. destruct (C1 a d Ha) as (o & ? & ? & Hd). exists o. by rewrite Ho.
    + intros d _. apply Ho.
    + by intros b o.
  - split; [| apply vp_kept]. apply server_ok_vp; [done |]. by eapply step_ok; [apply Hs |].
  - destruct (served_ok mem io fc f c thread s Hs Hu Hr Hf Hmem Hc Ht) as (s2 & E2 & H2 & H3 & _).
    rewrite E1 in E2. by injection E2 as <-.
Qed.

Lemma server_steps_ok s s' : server_ok s → rtc server_step s s' → server_ok s' ∧ clients_kept s s'.
Proof.
  intros Hs Hr. induction Hr as [| s s1 s2 H1 Hr IH]; [by split |].
  destruct (server_step_ok s s1 Hs H1) as [Hs1 Hk1]. destruct (IH Hs1) as [Hs2 Hk2]. split; [done | by etrans].
Qed.

(** A round of the loop is the wait for the kernel and then what [served] does. *)
Lemma accept_round_served mem (ioctl_ok fcntl_ok : bool) c thread s o f k :
  netfds (files (proc s)) !! stfd s = Some o →
  retry (fuel (kernel (proc s))) (Accept (osfd o)) (osfd o) POLLIN ST_UTIME_NO_TIMEOUT (kernel (proc s)) = (Ok f, k) →
  accept_round mem ioctl_ok fcntl_ok c thread s =
  served mem ioctl_ok fcntl_ok f c thread (with_proc (Process (files (proc s)) k) s).
Proof.
  intros Ho E1. unfold accept_round, served. unfold bind at 1. cbn [gets id].
  assert (st_accept mem ioctl_ok fcntl_ok (stfd s) ST_UTIME_NO_TIMEOUT (proc s) =
    new_or_close mem ioctl_ok fcntl_ok f true true (Process (files (proc s)) k)) as E2.
  { unfold st_accept. assert (on_files (the_netfd (stfd s)) (proc s) = (Ok o, proc s)) as E0.
    { rewrite (on_files_ok _ (proc s) (Ok o) (files (proc s))); [by destruct (proc s) | unfold the_netfd; by rewrite Ho]. }
    rewrite (bind_ok _ _ _ _ _ E0).
    by rewrite (bind_ok _ _ _ _ _ (on_kernel_ok (λ k, retry (fuel k) (Accept (osfd o)) (osfd o) POLLIN ST_UTIME_NO_TIMEOUT k) _ _ _ E1)). }
  unfold bind, or_null, on_proc. rewrite E2. cbn [proc with_proc]. done.
Qed.

(** ** From the start *)
Lemma start_netfds v k : netfds_ok (files (proc (start v k))).
Proof. exists []. split; [done | apply NoDup_nil_2 | done | by intros a o]. Qed.

Lemma listen_ok v k socket (setsockopt_ok bind_ok listen_ok : bool) mem (ioctl_ok fcntl_ok : bool) thread s :
  ok v → user v → (∀ fd, socket = Some fd → 0 <= fd < 2 ^ 30) → mem ≠ Some 0 → (∀ t, thread = Some t → t ∉ dom (threads v)) →
  listen socket setsockopt_ok bind_ok listen_ok mem ioctl_ok fcntl_ok thread (start v k) = (Ok tt, s) →
  server_ok s ∧ clients s = ∅ ∧ ∀ t, thread = Some t → t ∈ run_q (vp_of s).
Proof.
  intros Hok Hu Hsock Hmem Ht. unfold listen. destruct socket as [fd |]; [| done].
  destruct setsockopt_ok, bind_ok, listen_ok; cbn [negb]; try done.
  destruct (netfd_new_ok mem ioctl_ok fcntl_ok true true fd (files (proc (start v k)))) as (r & io & E1 & Hn & He & Ho & _ & _ & Hno).
  { apply start_netfds. }
  { exact (ib_ev _ _ _ (inv_all v (proj1 Hok) 0)). }
  { by apply Hsock. }
  { intros a ->. split; [congruence | done]. }
  assert (on_proc (on_files (st_netfd_open_socket mem ioctl_ok fcntl_ok fd)) (start v k) =
    (Ok r, with_proc (Process io k) (start v k))) as E2 by (unfold on_proc, on_files, st_netfd_open_socket; by rewrite E1).
  rewrite (bind_ok _ _ _ _ _ E2). unfold bind at 1. cbn [modify]. destruct r as [a |]; [| done].
  assert (ok (sched io)) as Hio by (by apply (eventsys_ok (start v k))).
  destruct He as (e & He & _). destruct thread as [t |]; [| done].
  assert (user (sched io) ∧ t ∉ dom (threads (sched io))) as [Hu' Ht'].
  { rewrite He. split; [exact Hu | by apply Ht]. }
  set (s1 := Server_state _ _ _ _).
  pose proof (create_runnable t (sched io) (λ _, False) (proj1 Hio) Hu' Ht') as Hw. unfold wp in Hw.
  unfold bind, on_sched. change (vp_of s1) with (sched io).
  destruct (st_thread_create (Some t) false None (sched io)) as [[u | | | |] w]; try done. destruct Hw as (Hw & _ & Hq & _).
  cbn [ret]. intros [= <-]. split; [| split; [done |]].
  - apply server_ok_vp; [| done]. destruct Ho as (_ & o & Ho & _ & Huo & _). split; [done | done | split].
    + done.
    + intros b ob Hb Hub Hne. destruct (Hno b ob Hb Hub) as [[= <-] |]; [by destruct Hne | done].
    + intros b1 b2 o1 o2 H1 H2 U1 U2 _. destruct (Hno b1 o1 H1 U1) as [[= <-] | [=]], (Hno b2 o2 H2 U2) as [[= <-] | [=]]. done.
    + split; [done |]. by exists o.
  - intros t' [= <-]. cbn. rewrite Hq. apply elem_of_app. right. by left.
Qed.

Lemma calls_steps s v : rtc (step (A := A)) (vp_of s) v → rtc server_step s (with_vp v s).
Proof.
  intros Hr. remember (vp_of s) as w eqn:Ew. revert s Ew. induction Hr as [w | w w1 v Hw Hr IH]; intros s ->.
  - destruct s as [[[] ?]]. done.
  - eapply rtc_l; [by apply Calls |]. by apply (IH (with_vp w1 s)).
Qed.

Lemma init_user idle primordial clock (e : E) : idle ≠ primordial → user (st_init idle primordial clock e).
Proof.
  intros Hne. split; [by apply not_eq_sym |]. exists (Thread RUNNING _ST_FL_PRIMORDIAL 0 None None).
  cbn. by rewrite lookup_insert_ne, lookup_singleton_eq.
Qed.

(** The states of a server that listens. *)
Definition serving (e : E) s : Prop :=
  ∃ idle primordial clock k fd mem (ioctl_ok fcntl_ok : bool) t s0,
    idle ≠ primordial ∧ ev_ok e ∧ 0 <= fd < 2 ^ 30 ∧ mem ≠ Some 0 ∧ t ≠ idle ∧ t ≠ primordial ∧
    listen (Some fd) true true true mem ioctl_ok fcntl_ok (Some t) (start (st_init idle primordial clock e) k) = (Ok tt, s0) ∧
    rtc server_step s0 s.

Lemma serving_ok e s : serving e s → server_ok s.
Proof.
  intros (idle & primordial & clock & k & fd & mem & io & fc & t & s0 & Hne & He & Hfd & Hm & H1 & H2 & E1 & Hr).
  apply (server_steps_ok s0); [| done].
  apply (listen_ok (st_init idle primordial clock e) k (Some fd) true true true mem io fc (Some t)); try done.
  - by apply init_ok.
  - by apply init_user.
  - by intros ? [= <-].
  - intros ? [= <-]. cbn. rewrite dom_insert, dom_singleton. set_solver.
Qed.
End server.

Section theorems.
Context {E A : Type} `{!EventSys E, HL : !EventSysLaws E, !Dispatch E A, !DispatchLaws E A}.
Context `{!Counting E, !FdEvents E, !FdEventsLaws E}.

(** In every state of a server that listens, each client has a [Client] object, a descriptor object
    and a descriptor that no other client has, and so has every object in use but the listener's;
    and from there on none of the steps of the server, which has no other code for its clients, gives up any of the three,
    also for clients that have left. *)
Theorem connections_are_kept (e : E) s :
  serving (A := A) e s → connections s ∧ ∀ s', rtc (server_step (A := A)) s s' → clients_kept s s'.
Proof.
  intros Hs%serving_ok. split; [apply Hs |]. intros s' Hr. by apply server_steps_ok.
Qed.

End theorems.

(** ** The listener's thread is 3; it accepts the descriptor 6 for a client whose thread is 4 *)
Definition listening : @Server _st_seldata :=
  (listen (Some 5) true true true (Some 100) true true (Some 3) (start (init no_fds) (Net [] [] 0 []))).2.

Definition listener_calls : list (@event select_os) := [Exit 0; Resume].

Definition in_accept : @Server _st_seldata :=
  with_vp (default (init no_fds) (run_events listener_calls (vp_of listening))) listening.

Definition with_client : @Server _st_seldata := (served (Some 101) true true 6 50 (Some 4) in_accept).2.

Lemma in_accept_serving : serving (A := select_os) no_fds in_accept.
Proof.
  exists 1, 2, 1000, (Net [] [] 0 []), 5, (Some 100), true, true, 3, listening. do 6 (split; [done || (intros i; apply length_replicate) |]).
  split; [vm_compute; reflexivity |]. unfold in_accept.
  destruct (run_events listener_calls (vp_of listening)) as [v |] eqn:Ev.
  - cbn [default]. apply calls_steps. by apply run_events_rtc with listener_calls.
  - exfalso. revert Ev. vm_compute. discriminate.
Qed.

Lemma in_accept_round :
  user (vp_of in_accept) ∧ room (vp_of in_accept) ∧ fresh_fd 6 in_accept ∧ can_allocate (Some 101) (proc in_accept) ∧
  50 ∉ dom (objects in_accept) ∧ thread_ready (Some 4) in_accept.
Proof.
  assert (netfds (files (proc in_accept)) = {[100 := Netfd 5 true 0 None 0 0]}) as Hn by (vm_compute; reflexivity).
  split; [apply userb_user; vm_compute; reflexivity |]. split; [vm_compute; reflexivity |]. split; [| split; [| split]].
  - split; [lia |]. intros a o. rewrite Hn. by intros [<- <-]%lookup_singleton_Some _.
  - intros a [= <-]. split; [done |]. by rewrite Hn.
  - apply not_elem_of_dom. vm_compute. reflexivity.
  - intros t [= <-]. apply not_elem_of_dom. vm_compute. reflexivity.
Qed.

Lemma connections_are_kept_witness : connections in_accept ∧ clients_kept in_accept with_client.
Proof.
  destruct (connections_are_kept no_fds in_accept in_accept_serving) as [Hc Hk]. split; [exact Hc |].
  destruct in_accept_round as (H1 & H2 & H3 & H4 & H5 & H6).
  apply Hk, rtc_once, (Accepted _ (Some 101) true true 6 50 (Some 4)); [exact H1 | exact H2 | exact H3 | exact H4 | exact H5 | exact H6 |].
  vm_compute. reflexivity.
Defined.


(** Without memory for the thread: a client that nothing serves, and an open descriptor. *)
Example client_without_thread :
  let s := (served (Some 101) true true 6 50 None in_accept).2 in
  clients s = {[101 := 50]} ∧ closed (files (proc s)) = [] ∧ inuse <$> netfds (files (proc s)) !! 101 = Some true ∧
  run_q (vp_of s) = run_q (vp_of in_accept) ∧ 4 ∉ dom (threads (vp_of s)).
Proof. split_and!; try (vm_compute; reflexivity). apply not_elem_of_dom. vm_compute. reflexivity. Qed.

(** Without a listening socket [main] still ends the primordial thread: there is no active thread, and the
    idle thread, which runs now, ends the process with status 0. *)
Example main_without_a_socket :
  let s := (main None true true true (Some 100) true true (Some 3) (start (init no_fds) (Net [] [] 0 []))).2 in
  this_thread (vp_of s) = idle_thread (vp_of s) ∧ active_count (vp_of s) = 0.
Proof. vm_compute. done. Qed.
