(* ===== verification/StApi.v ===== *)
(** * The contract of the State Threads socket calls

    The RTMP code uses a connection through [st_read_fully], [st_write] and
    [st_writev] only.  [StSocket] is that interface and [StSocketLaws] what the
    RTMP theorems use of it; StIo.v proves the laws for the translation of
    3rdpart/st-1.9/io.c. *)

From stdpp Require Import base list.
From Stdlib Require Import Lia ZArith.
From S2P Require Import Prelude.
From S2P Require Import Bytes.

Local Open Scope Z_scope.

(** [st_read] and [st_read_fully] return [None] for -1 and the bytes placed in
    the buffer otherwise (their number is the return value); [st_write] and
    [st_writev] return the number of bytes written, or -1. *)
Class StSocket (S : Type) := {
  st_read : S → nat → option (list byte) * S;
  st_read_fully : S → nat → option (list byte) * S;
  st_write : S → list byte → Z * S;
  st_writev : S → list (list byte) → Z * S;
}.

Class StSocketLaws (S : Type) `{StSocket S} := {
  (** the bytes of the peer that are still to be read, and the bytes handed to
      the kernel for the peer so far *)
  rx : S → list byte;
  tx : S → list byte;
  (** no error, time-out or end of stream before [rx] is consumed *)
  healthy : S → Prop;
  (** the peer has closed and nothing is left to read *)
  at_eof : S → Prop;

  st_read_fully_frame s n r s' :
    st_read_fully s n = (r, s') →
    tx s' = tx s ∧
    ∃ got, rx s = got ++ rx s' ∧ (length got ≤ n)%nat ∧ (∀ bs, r = Some bs → bs = got);
  st_read_fully_short s n bs s' :
    st_read_fully s n = (Some bs, s') → (length bs < n)%nat → at_eof s';
  st_read_fully_eof s n :
    at_eof s → st_read_fully s n = (Some [], s);
  st_read_fully_healthy s n :
    healthy s → (n ≤ length (rx s))%nat →
    ∃ s', st_read_fully s n = (Some (take n (rx s)), s') ∧
          rx s' = drop n (rx s) ∧ tx s' = tx s ∧ healthy s';
  st_writev_frame s iov r s' :
    st_writev s iov = (r, s') →
    rx s' = rx s ∧
    ∃ sent rest, tx s' = tx s ++ sent ∧ concat iov = sent ++ rest ∧
      (r = -1 ∨ (r = Z.of_nat (length (concat iov)) ∧ rest = []));
  st_writev_healthy s iov :
    healthy s →
    ∃ s', st_writev s iov = (Z.of_nat (length (concat iov)), s') ∧
          rx s' = rx s ∧ tx s' = tx s ++ concat iov ∧ healthy s';
  st_write_healthy s bs :
    healthy s →
    ∃ s', st_write s bs = (Z.of_nat (length bs), s') ∧
          rx s' = rx s ∧ tx s' = tx s ++ bs ∧ healthy s';
}.

(** What a single read takes and a write that may fail sends. *)
Class StSocketSteps (S : Type) `{StSocketLaws S} := {
  st_read_frame s n r s' :
    st_read s n = (r, s') →
    tx s' = tx s ∧
    match r with Some bs => rx s = bs ++ rx s' ∧ (length bs ≤ n)%nat | None => rx s' = rx s end;
  st_write_frame s bs r s' :
    st_write s bs = (r, s') →
    rx s' = rx s ∧
    ∃ sent rest, tx s' = tx s ++ sent ∧ bs = sent ++ rest ∧ (r = -1 ∨ (r = Z.of_nat (length bs) ∧ rest = []));
}.
