(* ===== verification/StIo.v ===== *)
(** * 3rdpart/st-1.9/io.c: blocking reads and writes on a non-blocking descriptor

    The kernel and the scheduler are arguments of the model: a [ksock] holds
    the results that the successive [read], [write] and [st_poll] calls on the
    descriptor will return, and the theorems quantify over all of them.
    [read] hands out at most what was asked for and leaves the rest for the
    next call; an end of stream is permanent; when no result is left a read
    finds nothing and the wait for more times out, and a write is accepted
    whole. *)

From stdpp Require Import base list.
From Stdlib Require Import Lia ZArith.
From S2P Require Import Prelude.
From S2P Require Import Bytes.
From S2P Require Import StApi.

Local Open Scope Z_scope.

Inductive errno := EINTR | EAGAIN | EOTHER.

Inductive rd_ev :=
| RdData (b : byte) (bs : list byte)
| RdEof
| RdErr (e : errno).

Inductive wr_ev :=
| WrSome (n : nat)
| WrErr (e : errno).

(** The result of [st_poll] and the [revents] it stores. *)
Record poll_ev := PollEv { pe_n : Z; pe_revents : Z }.

Record ksock := KSock {
  k_rds : list rd_ev;
  k_wrs : list wr_ev;
  k_polls : list poll_ev;
  k_tx : list byte;
}.

Inductive poll_how := POLLIN | POLLOUT.
Definition POLLNVAL : Z := 0x20.

Definition sys_read (n : nat) : M ksock (list byte + errno) := λ k,
  match n, k_rds k with
  | O, _ => (Ok (inl []), k)
  | _, [] => (Ok (inr EAGAIN), k)
  | _, RdEof :: _ => (Ok (inl []), k)
  | _, RdErr e :: r => (Ok (inr e), KSock r (k_wrs k) (k_polls k) (k_tx k))
  | _, RdData b bs :: r =>
      let data := b :: bs in
      (Ok (inl (take n data)),
       KSock (match drop n data with [] => r | b' :: bs' => RdData b' bs' :: r end)
             (k_wrs k) (k_polls k) (k_tx k))
  end.

Definition sys_writev (iov : list (list byte)) : M ksock (nat + errno) := λ k,
  let total := length (concat iov) in
  match k_wrs k with
  | [] => (Ok (inl total), KSock (k_rds k) [] (k_polls k) (k_tx k ++ concat iov))
  | WrErr e :: w => (Ok (inr e), KSock (k_rds k) w (k_polls k) (k_tx k))
  | WrSome m :: w =>
      (Ok (inl (min m total)),
       KSock (k_rds k) w (k_polls k) (k_tx k ++ take (min m total) (concat iov)))
  end.

Definition st_poll (how : poll_how) : M ksock poll_ev := λ k,
  match how, k_rds k, k_polls k with
  | POLLIN, [], _ => (Ok (PollEv 0 0), k)
  | _, _, [] => (Ok (PollEv 1 0), k)
  | _, _, p :: ps => (Ok p, KSock (k_rds k) (k_wrs k) ps (k_tx k))
  end.

(** ** st_netfd_poll *)
Definition st_netfd_poll (how : poll_how) : M ksock Z :=
  pd <- st_poll how ;;
  ret (if pe_n pd <? 0 then -1
       else if pe_n pd =? 0 then -1
       else if negb (Z.land (pe_revents pd) POLLNVAL =? 0) then -1
       else 0).

(** ** Reads *)

(** [while (n >= iov->iov_len) { n -= iov->iov_len; iov++; ...; if (n == 0) break; }]
    and the adjustment of the first vector left. *)
Fixpoint iov_advance (n : nat) (iov : list nat) : list nat :=
  match iov with
  | [] => []
  | l :: iov =>
      if (l <=? n)%nat then
        (if (n - l =? 0)%nat then iov else iov_advance (n - l) iov)
      else (l - n)%nat :: iov
  end.

(** The bytes read and the vectors left (their lengths). *)
Fixpoint st_readv_resid (fuel : nat) (iov : list nat) : M ksock (list byte * list nat) :=
  match fuel with
  | O => lift Hang
  | S fuel =>
      match iov with
      | [] => ret ([], [])
      | _ =>
          n <- sys_read (list_sum iov) ;;
          match n with
          | inr EINTR => st_readv_resid fuel iov
          | inr EOTHER => fail
          | inr EAGAIN =>
              p <- st_netfd_poll POLLIN ;;
              if p <? 0 then fail else st_readv_resid fuel iov
          | inl [] => ret ([], iov)
          | inl bs =>
              match iov_advance (length bs) iov with
              | [] => ret (bs, [])
              | iov' =>
                  p <- st_netfd_poll POLLIN ;;
                  if p <? 0 then fail else
                  ' (bs', r) <- st_readv_resid fuel iov' ;;
                  ret (bs ++ bs', r)
              end
          end
      end
  end.

(** Every result of [read] that lets the loop go on uses up one event. *)
Definition rd_fuel (k : ksock) : nat := S (length (k_rds k)).

(** The bytes read and [*resid]. *)
Definition st_read_resid (resid : nat) : M ksock (list byte * nat) := λ k,
  (' (bs, iov) <- st_readv_resid (rd_fuel k) [resid] ;;
   ret (bs, match iov with [] => 0%nat | l :: _ => l end)) k.

(** The return value, and the bytes stored in [buf]. *)
Definition st_read_fully_c (nbyte : nat) : M ksock (Z * list byte) := λ k,
  match st_read_resid nbyte k with
  | (Ok (bs, resid), k') => (Ok (Z.of_nat nbyte - Z.of_nat resid, bs), k')
  | (Fail, k') => (Ok (-1, []), k')
  | (o, k') => (omap (λ _, (-1, [])) o, k')
  end.

Fixpoint st_read_loop (fuel nbyte : nat) : M ksock (list byte) :=
  match fuel with
  | O => lift Hang
  | S fuel =>
      n <- sys_read nbyte ;;
      match n with
      | inl bs => ret bs
      | inr EINTR => st_read_loop fuel nbyte
      | inr EOTHER => fail
      | inr EAGAIN =>
          p <- st_netfd_poll POLLIN ;;
          if p <? 0 then fail else st_read_loop fuel nbyte
      end
  end.

Definition st_read_c (nbyte : nat) : M ksock (list byte) := λ k,
  st_read_loop (rd_fuel k) nbyte k.

(** [readv] fills the vectors, whose lengths are [iov], one after the other. *)
Fixpoint scatter (iov : list nat) (bs : list byte) : list (list byte) :=
  match iov with
  | [] => []
  | n :: iov => take n bs :: scatter iov (drop n bs)
  end.

Fixpoint st_readv_loop (fuel : nat) (iov : list nat) : M ksock (list (list byte)) :=
  match fuel with
  | O => lift Hang
  | S fuel =>
      n <- sys_read (list_sum iov) ;;
      match n with
      | inl bs => ret (scatter iov bs)
      | inr EINTR => st_readv_loop fuel iov
      | inr EOTHER => fail
      | inr EAGAIN =>
          p <- st_netfd_poll POLLIN ;;
          if p <? 0 then fail else st_readv_loop fuel iov
      end
  end.

Definition st_readv_c (iov : list nat) : M ksock (list (list byte)) := λ k,
  st_readv_loop (rd_fuel k) iov k.

Lemma concat_scatter iov bs : (length bs <= list_sum iov)%nat → concat (scatter iov bs) = bs.
Proof.
  revert bs. induction iov as [| n iov IH]; intros bs Hl; cbn [scatter concat].
  - destruct bs; [done | cbn in Hl; lia].
  - rewrite IH; [apply take_drop |]. rewrite length_drop. change (length bs <= n + list_sum iov)%nat in Hl. lia.
Qed.

(** [st_readv] is [st_read] into the vectors. *)
Lemma st_readv_scatters iov k : st_readv_c iov k = (bs <- st_read_c (list_sum iov) ;; ret (scatter iov bs)) k.
Proof.
  unfold st_readv_c, st_read_c, bind at 1. generalize (rd_fuel k) as fuel. intros fuel. revert k.
  induction fuel as [| fuel IH]; intros k; [done |]. cbn [st_readv_loop st_read_loop]. unfold bind at 1 3.
  destruct (sys_read (list_sum iov) k) as [[[bs | []] | | | |] k1]; try done.
  - unfold bind. destruct (st_netfd_poll POLLIN k1) as [[p | | | |] k2]; try done. destruct (p <? 0); [done | apply IH].
Qed.

(** ** Writes *)
Fixpoint wv_advance (n : nat) (iov : list (list byte)) : list (list byte) :=
  match iov with
  | [] => []
  | l :: iov =>
      if (length l <=? n)%nat then
        (if (n - length l =? 0)%nat then iov else wv_advance (n - length l) iov)
      else drop n l :: iov
  end.

Fixpoint st_writev_resid (fuel : nat) (iov : list (list byte)) : M ksock (list (list byte)) :=
  match fuel with
  | O => lift Hang
  | S fuel =>
      match iov with
      | [] => ret []
      | _ =>
          n <- sys_writev iov ;;
          match n with
          | inr EINTR => st_writev_resid fuel iov
          | inr EOTHER => fail
          | inr EAGAIN =>
              p <- st_netfd_poll POLLOUT ;;
              if p <? 0 then fail else st_writev_resid fuel iov
          | inl n =>
              match wv_advance n iov with
              | [] => ret []
              | iov' =>
                  p <- st_netfd_poll POLLOUT ;;
                  if p <? 0 then fail else st_writev_resid fuel iov'
              end
          end
      end
  end.

Definition wr_fuel (k : ksock) : nat := S (length (k_wrs k)).

(** [*resid] after the call. *)
Definition st_write_resid (buf : list byte) : M ksock nat := λ k,
  (iov <- st_writev_resid (wr_fuel k) [buf] ;;
   ret (match iov with [] => 0%nat | l :: _ => length l end)) k.

Definition st_write_c (buf : list byte) : M ksock Z := λ k,
  match st_write_resid buf k with
  | (Ok resid, k') => (Ok (Z.of_nat (length buf) - Z.of_nat resid), k')
  | (Fail, k') => (Ok (-1), k')
  | (o, k') => (omap (λ _, -1) o, k')
  end.

(** [for (index = 0; n >= iov[index].iov_len; index++) n -= iov[index].iov_len;]
    and the vectors from byte [n] on. *)
Fixpoint iov_from (n : nat) (iov : list (list byte)) : list (list byte) :=
  match iov with
  | [] => []
  | l :: iov =>
      if (length l <=? n)%nat then iov_from (n - length l) iov else drop n l :: iov
  end.

(** The vectors that are left are copied, for more than 16 into memory of [calloc], and a failure of that is not modelled: the program
    passes two vectors. *)
Fixpoint st_writev_loop (fuel : nat) (iov : list (list byte)) (nbyte nleft : nat)
    (tmp_iov : list (list byte)) : M ksock Z :=
  match fuel with
  | O => lift Hang
  | S fuel =>
      if (nleft =? 0)%nat then ret (Z.of_nat nbyte) else
      if decide (length tmp_iov = 1%nat) then
        let base := hd [] tmp_iov in
        if (length base <? nleft)%nat then lift Undef else
        r <- st_write_c (take nleft base) ;;
        ret (if r =? Z.of_nat nleft then Z.of_nat nbyte else -1)
      else
        n <- sys_writev tmp_iov ;;
        match n with
        | inr EINTR => st_writev_loop fuel iov nbyte nleft tmp_iov
        | inr EOTHER => ret (-1)
        | inr EAGAIN =>
            p <- st_netfd_poll POLLOUT ;;
            if p <? 0 then ret (-1) else st_writev_loop fuel iov nbyte nleft tmp_iov
        | inl n =>
            if (n =? nleft)%nat then ret (Z.of_nat nbyte) else
            let nleft' := (nleft - n)%nat in
            p <- st_netfd_poll POLLOUT ;;
            if p <? 0 then ret (-1) else
            st_writev_loop fuel iov nbyte nleft' (iov_from (nbyte - nleft') iov)
        end
  end.

Definition st_writev_c (iov : list (list byte)) : M ksock Z := λ k,
  let nbyte := length (concat iov) in
  st_writev_loop (wr_fuel k) iov nbyte nbyte iov k.

(** ** The peer's bytes still to come, and well-behaved sockets *)
Fixpoint pending (rds : list rd_ev) : list byte :=
  match rds with
  | [] => []
  | RdData b bs :: r => (b :: bs) ++ pending r
  | RdEof :: _ => []
  | RdErr _ :: r => pending r
  end.

Definition k_rx (k : ksock) : list byte := pending (k_rds k).

Definition k_eof (k : ksock) : Prop :=
  match k_rds k with RdEof :: _ => True | _ => False end.

Definition rd_ok (e : rd_ev) : Prop := e ≠ RdErr EOTHER.
Definition wr_ok (e : wr_ev) : Prop := e ≠ WrErr EOTHER.
Definition poll_ok (p : poll_ev) : Prop :=
  0 < pe_n p ∧ Z.land (pe_revents p) POLLNVAL = 0.

Definition k_healthy (k : ksock) : Prop :=
  Forall rd_ok (k_rds k) ∧ Forall wr_ok (k_wrs k) ∧ Forall poll_ok (k_polls k).

(** [k'] differs from [k] in what was read only. *)
Definition same_tx (k k' : ksock) : Prop := k_wrs k' = k_wrs k ∧ k_tx k' = k_tx k.
Definition same_rx (k k' : ksock) : Prop := k_rds k' = k_rds k.

Lemma sys_read_spec n k r k' :
  sys_read n k = (r, k') →
  same_tx k k' ∧ k_polls k' = k_polls k ∧
  ∃ got, k_rx k = got ++ k_rx k' ∧ (length got ≤ n)%nat ∧
    match r with
    | Ok (inl bs) =>
        bs = got ∧ (bs = [] → n = 0%nat ∨ k_eof k') ∧
        (bs ≠ [] → (length bs < n)%nat → (length (k_rds k') < length (k_rds k))%nat)
    | Ok (inr e) =>
        got = [] ∧
        ((length (k_rds k') < length (k_rds k))%nat ∨ (k_rds k = [] ∧ e = EAGAIN ∧ k' = k))
    | _ => False
    end.
Proof.
  unfold sys_read, same_tx, k_rx, k_eof. intros H.
  destruct n as [| n].
  { simplify_eq. split_and!; try done. exists []. naive_solver lia. }
  destruct (k_rds k) as [| [b bs | | e] rds] eqn:E; simplify_eq; cbn.
  - split_and!; try done. exists []. rewrite E. naive_solver lia.
  - split_and!; try done. exists (b :: take n bs). cbn. split_and!; try done.
    + destruct (drop n bs) as [| b' bs'] eqn:Ed; cbn.
      * f_equal. rewrite <- (take_drop n bs) at 1. by rewrite Ed, app_nil_r.
      * f_equal. rewrite <- (take_drop n bs) at 1. rewrite Ed. by rewrite <- app_assoc.
    + rewrite length_take. lia.
    + intros _ Hlt. rewrite length_take in Hlt.
      rewrite (drop_ge bs n) by lia. lia.
  - split_and!; try done. exists []. rewrite E. naive_solver lia.
  - split_and!; try done. exists []. naive_solver lia.
Qed.

Lemma sys_read_eof n k : k_eof k → sys_read n k = (Ok (inl []), k).
Proof.
  unfold k_eof, sys_read. destruct n, (k_rds k) as [| [] ?]; naive_solver.
Qed.

Lemma sys_read_healthy n k r k' :
  sys_read n k = (r, k') → k_healthy k → k_healthy k' ∧ r ≠ Ok (inr EOTHER).
Proof.
  unfold sys_read, k_healthy, rd_ok. intros H (H1 & H2 & H3).
  destruct n as [| n]; [naive_solver |].
  destruct (k_rds k) as [| [b bs | | e] rds] eqn:E; simplify_eq; cbn.
  - rewrite E. naive_solver.
  - apply Forall_cons in H1 as [_ H1]. split; [| done]. split_and!; try done.
    destruct (drop n bs); [done |]. by constructor.
  - rewrite E. naive_solver.
  - apply Forall_cons in H1 as [He H1]. split; [| congruence]. done.
Qed.

Lemma st_netfd_poll_spec how k r k' :
  st_netfd_poll how k = (r, k') →
  same_tx k k' ∧ same_rx k k' ∧ (r = Ok 0 ∨ r = Ok (-1)).
Proof.
  unfold st_netfd_poll, bind, st_poll, ret, same_tx, same_rx.
  intros H. destruct how, (k_rds k) eqn:Er, (k_polls k); cbn in H; simplify_eq; cbn;
    repeat case_match; simplify_eq; split_and!; auto.
Qed.

Lemma st_netfd_poll_healthy how k r k' :
  st_netfd_poll how k = (r, k') → k_healthy k →
  (how = POLLIN → k_rds k ≠ []) → r = Ok 0 ∧ k_healthy k'.
Proof.
  unfold st_netfd_poll, bind, st_poll, ret. intros H (H1 & H2 & H3) Hin.
  assert (∀ p ps, k_polls k = p :: ps → poll_ok p ∧ Forall poll_ok ps) as Hp.
  { intros p ps E. rewrite E in H3. by apply Forall_cons in H3. }
  destruct how, (k_rds k) eqn:Er, (k_polls k) as [| p ps] eqn:Ep; cbn in H; simplify_eq;
    try (by destruct Hin); try (split; [done |]; unfold k_healthy; by rewrite ?Er, ?Ep);
    destruct (Hp _ _ eq_refl) as [[Hp1 Hp2] Hps]; unfold k_healthy; cbn;
    rewrite Hp2; destruct (Z.ltb_spec (pe_n p) 0), (Z.eqb_spec (pe_n p) 0); try lia; done.
Qed.

Lemma poll_in_empty k : k_rds k = [] → st_netfd_poll POLLIN k = (Ok (-1), k).
Proof. unfold st_netfd_poll, bind, st_poll. by intros ->. Qed.

Lemma iov_advance_one n l :
  (n ≤ l)%nat → iov_advance n [l] = if decide (n = l) then [] else [(l - n)%nat].
Proof.
  intros Hn. cbn. destruct (decide (n = l)) as [-> | Hne].
  - by rewrite Nat.leb_refl, Nat.sub_diag.
  - rewrite (proj2 (Nat.leb_gt l n)) by lia. done.
Qed.

Lemma same_tx_trans k1 k2 k3 : same_tx k1 k2 → same_tx k2 k3 → same_tx k1 k3.
Proof. unfold same_tx. intuition congruence. Qed.

Lemma same_rx_k_rx k k' : same_rx k k' → k_rx k' = k_rx k.
Proof. unfold same_rx, k_rx. by intros ->. Qed.

(** The loop of [st_readv_resid] on one vector ends within [rd_fuel], loses
    nothing on success, and is short only at the end of the stream. *)
Lemma st_readv_resid_spec fuel l k r k' :
  (length (k_rds k) < fuel)%nat →
  st_readv_resid fuel [l] k = (r, k') →
  same_tx k k' ∧ ∃ got, k_rx k = got ++ k_rx k' ∧ (length got ≤ l)%nat ∧
    match r with
    | Ok (bs, iov) =>
        bs = got ∧ ((iov = [] ∧ length bs = l) ∨
          ∃ m, iov = [m] ∧ (length bs + m)%nat = l ∧ (m = 0%nat ∨ k_eof k'))
    | Fail => True
    | _ => False
    end.
Proof.
  revert l k r k'. induction fuel as [| fuel IH]; intros l k r k' Hf H; [lia |].
  cbn [st_readv_resid] in H. replace (list_sum [l]) with l in H by (cbn; lia).
  destruct (sys_read l k) as [r1 k1] eqn:E1.
  destruct (sys_read_spec _ _ _ _ E1) as (Htx & Hpo & got & Hgot & Hlen & Hr).
  destruct r1 as [[bs | e] | | | |]; try done; rewrite (bind_ok _ _ _ _ _ E1) in H.
  - destruct Hr as (-> & Heof & Hdec). destruct got as [| b got].
    + cbn in H. simplify_eq. split; [done |]. exists []. split_and!; try done.
      right. exists l. naive_solver.
    + rewrite iov_advance_one in H by lia. case_decide as Hl.
      * cbn in H. simplify_eq. split; [done |]. exists (b :: got). naive_solver.
      * destruct (st_netfd_poll POLLIN k1) as [r2 k2] eqn:E2.
        destruct (st_netfd_poll_spec _ _ _ _ E2) as (Htx2 & Hrx2 & [-> | ->]);
          rewrite (bind_ok _ _ _ _ _ E2) in H; cbn [Z.ltb Z.compare] in H.
        2:{ cbn in H. simplify_eq. split; [by eapply same_tx_trans |].
            exists (b :: got). rewrite (same_rx_k_rx _ _ Hrx2). done. }
        match type of H with context [st_readv_resid fuel ?x] =>
          destruct (st_readv_resid fuel x k2) as [r3 k3] eqn:E3 end.
        pose proof E3 as E3'. apply IH in E3' as (Htx3 & got3 & Hgot3 & Hlen3 & Hr3).
        2:{ rewrite Hrx2. specialize (Hdec ltac:(done) ltac:(lia)). lia. }
        unfold bind in H. change (0 <? 0) with false in H. cbn match in H. rewrite E3 in H.
        assert (same_tx k k3) as Htx13 by eauto using same_tx_trans.
        rewrite (same_rx_k_rx _ _ Hrx2) in Hgot3.
        destruct r3 as [[bs3 iov3] | | | |]; try done; cbn in H; simplify_eq; split; try done;
          exists ((b :: got) ++ got3); rewrite Hgot, Hgot3, <- app_assoc;
          (split; [done |]); rewrite length_app; (split; [lia |]); [| done].
        destruct Hr3 as [-> Hr3]. split; [done |].
        assert (length (b :: got ++ got3) = (length (b :: got) + length got3)%nat) as Hlg
          by (by rewrite app_comm_cons, length_app).
        destruct Hr3 as [[-> Hl3] | (m & -> & Hm & Hm')]; [left; split; [done | lia] |].
        right. exists m. split_and!; [done | lia | done].
  - destruct Hr as [-> Hr]. destruct e.
    + destruct Hr as [Hr | (_ & ? & _)]; [| done].
      apply IH in H as (Htx' & got' & Hgot' & ?); [| lia].
      split; [by eapply same_tx_trans |]. exists got'. by rewrite Hgot, Hgot'.
    + destruct (st_netfd_poll POLLIN k1) as [r2 k2] eqn:E2.
      destruct (st_netfd_poll_spec _ _ _ _ E2) as (Htx2 & Hrx2 & [-> | ->]);
        rewrite (bind_ok _ _ _ _ _ E2) in H; cbn [Z.ltb Z.compare] in H.
      2:{ cbn in H. simplify_eq. split; [by eapply same_tx_trans |].
          exists []. rewrite (same_rx_k_rx _ _ Hrx2). naive_solver lia. }
      destruct Hr as [Hr | (Hr & _ & ->)].
      * apply IH in H as (Htx' & got' & Hgot' & ?); [| rewrite Hrx2; lia].
        split; [by eauto using same_tx_trans |]. exists got'.
        by rewrite Hgot, <- (same_rx_k_rx _ _ Hrx2), Hgot'.
      * rewrite poll_in_empty in E2 by done. done.
    + cbn in H. simplify_eq. split; [done |]. exists []. naive_solver lia.
Qed.

Lemma pending_nonempty rds : (0 < length (pending rds))%nat → rds ≠ [].
Proof. intros H ->. simpl in H. lia. Qed.

Lemma sys_read_eagain_pos n k k' :
  sys_read n k = (Ok (inr EAGAIN), k') → (0 < n)%nat.
Proof. unfold sys_read. destruct n; [done | lia]. Qed.

(** On a healthy socket with enough bytes coming, the loop does not fail. *)
Lemma st_readv_resid_healthy fuel l k r k' :
  (length (k_rds k) < fuel)%nat → k_healthy k → (l ≤ length (k_rx k))%nat →
  st_readv_resid fuel [l] k = (r, k') →
  r ≠ Fail ∧ k_healthy k'.
Proof.
  revert l k r k'. induction fuel as [| fuel IH]; intros l k r k' Hf Hk Hl H; [lia |].
  cbn [st_readv_resid] in H. replace (list_sum [l]) with l in H by (cbn; lia).
  destruct (sys_read l k) as [r1 k1] eqn:E1.
  destruct (sys_read_spec _ _ _ _ E1) as (Htx & Hpo & got & Hgot & Hlen & Hr).
  destruct (sys_read_healthy _ _ _ _ E1 Hk) as [Hk1 Hne].
  destruct r1 as [[bs | e] | | | |]; try done; rewrite (bind_ok _ _ _ _ _ E1) in H.
  - destruct Hr as (-> & Heof & Hdec). destruct got as [| b got].
    { cbn in H. by simplify_eq. }
    rewrite iov_advance_one in H by lia. case_decide as Hlg.
    { cbn in H. by simplify_eq. }
    assert (length (k_rx k) = (length (b :: got) + length (k_rx k1))%nat) as Hk_rx
      by by rewrite Hgot, length_app.
    destruct (st_netfd_poll POLLIN k1) as [r2 k2] eqn:E2.
    destruct (st_netfd_poll_spec _ _ _ _ E2) as (_ & Hrx2 & _).
    destruct (st_netfd_poll_healthy _ _ _ _ E2 Hk1) as [-> Hk2].
    { intros _. apply pending_nonempty. fold (k_rx k1). lia. }
    rewrite (bind_ok _ _ _ _ _ E2) in H. change (0 <? 0) with false in H. cbn match in H.
    match type of H with context [st_readv_resid fuel ?x] =>
      destruct (st_readv_resid fuel x k2) as [r3 k3] eqn:E3 end.
    pose proof E3 as E3'. apply IH in E3' as [Hr3 Hk3].
    + unfold bind in H. rewrite E3 in H.
      destruct r3 as [[] | | | |]; cbn in H; by simplify_eq.
    + rewrite Hrx2. specialize (Hdec ltac:(done) ltac:(lia)). lia.
    + done.
    + rewrite (same_rx_k_rx _ _ Hrx2). lia.
  - destruct Hr as [-> Hr]. assert (k_rx k1 = k_rx k) as Hrx1 by done.
    destruct e; [| | done].
    + destruct Hr as [Hr | (_ & ? & _)]; [| done].
      apply IH in H; [done | lia | done | by rewrite Hrx1].
    + pose proof (sys_read_eagain_pos _ _ _ E1) as Hpos.
      destruct (st_netfd_poll POLLIN k1) as [r2 k2] eqn:E2.
      destruct (st_netfd_poll_spec _ _ _ _ E2) as (_ & Hrx2 & _).
      destruct (st_netfd_poll_healthy _ _ _ _ E2 Hk1) as [-> Hk2].
      { intros _. apply pending_nonempty. fold (k_rx k1). rewrite Hrx1. lia. }
      rewrite (bind_ok _ _ _ _ _ E2) in H. change (0 <? 0) with false in H. cbn match in H.
      destruct Hr as [Hr | (Hr & _ & ->)].
      * apply IH in H; [done | rewrite Hrx2; lia | done |].
        by rewrite (same_rx_k_rx _ _ Hrx2), Hrx1.
      * unfold k_rx in Hl. rewrite Hr in Hl. simpl in Hl. lia.
Qed.

(** ** st_read_fully *)
Lemma st_read_fully_spec n k r k' :
  st_read_fully_c n k = (r, k') →
  same_tx k k' ∧ ∃ got nread bs,
    r = Ok (nread, bs) ∧ k_rx k = got ++ k_rx k' ∧ (length got ≤ n)%nat ∧
    ((nread = -1 ∧ bs = []) ∨
     (nread = Z.of_nat (length bs) ∧ bs = got ∧ (length bs = n ∨ k_eof k'))).
Proof.
  unfold st_read_fully_c, st_read_resid, rd_fuel. intros H.
  destruct (st_readv_resid (S (length (k_rds k))) [n] k) as [r1 k1] eqn:E.
  destruct (st_readv_resid_spec _ _ _ _ _ (Nat.lt_succ_diag_r _) E)
    as (Htx & got & Hgot & Hlen & Hr).
  unfold bind in H. rewrite E in H.
  destruct r1 as [[bs iov] | | | |]; try done; cbn in H; simplify_eq; (split; [done |]).
  - destruct Hr as [-> Hr]. eexists got, _, got. split_and!; try done. right.
    destruct Hr as [[-> Hl] | (m & -> & Hm & [-> | Hm'])];
      (split; [lia | split; [done |]]); [left; lia | left; lia | by right].
  - exists got, (-1), []. naive_solver.
Qed.

Lemma st_read_fully_ok n k :
  k_healthy k → (n ≤ length (k_rx k))%nat →
  ∃ k', st_read_fully_c n k = (Ok (Z.of_nat n, take n (k_rx k)), k') ∧
    k_rx k' = drop n (k_rx k) ∧ same_tx k k' ∧ k_healthy k'.
Proof.
  intros Hk Hn.
  destruct (st_readv_resid (S (length (k_rds k))) [n] k) as [r1 k1] eqn:E.
  destruct (st_readv_resid_spec _ _ _ _ _ (Nat.lt_succ_diag_r _) E)
    as (Htx & got & Hgot & Hlen & Hr).
  destruct (st_readv_resid_healthy _ _ _ _ _ (Nat.lt_succ_diag_r _) Hk Hn E) as [Hf Hk1].
  destruct r1 as [[bs iov] | | | |]; try done. destruct Hr as [-> Hr].
  assert (length got = n) as Hl.
  { destruct Hr as [[_ ?] | (m & _ & Hm & [-> | Heof])]; [done | lia |].
    assert (k_rx k1 = []) as Hnil.
    { unfold k_eof in Heof. unfold k_rx. destruct (k_rds k1) as [| [] ?]; done. }
    rewrite Hgot, Hnil, app_nil_r in Hn. lia. }
  exists k1. unfold st_read_fully_c, st_read_resid, rd_fuel, bind. rewrite E. cbn.
  rewrite Hgot, <- Hl, take_app_length, drop_app_length. split_and!; try done.
  do 2 f_equal. destruct Hr as [[-> _] | (m & -> & Hm & _)]; simpl; f_equal; lia.
Qed.

(** ** Writes: a call delivers a prefix, and all of it when it succeeds *)

Lemma sys_writev_spec iov k r k' :
  sys_writev iov k = (r, k') →
  same_rx k k' ∧ k_polls k' = k_polls k ∧
  (k_healthy k → k_healthy k' ∧ r ≠ Ok (inr EOTHER)) ∧
  match r with
  | Ok (inl n) =>
      (n ≤ length (concat iov))%nat ∧ k_tx k' = k_tx k ++ take n (concat iov) ∧
      ((n < length (concat iov))%nat → (length (k_wrs k') < length (k_wrs k))%nat)
  | Ok (inr e) => k_tx k' = k_tx k ∧ (length (k_wrs k') < length (k_wrs k))%nat
  | _ => False
  end.
Proof.
  unfold sys_writev, same_rx, k_healthy, wr_ok. intros H.
  destruct (k_wrs k) as [| [n | e] w] eqn:E; simplify_eq; cbn; (split; [done |]); (split; [done |]).
  - split; [naive_solver |]. rewrite firstn_all. split_and!; [lia | done | lia].
  - split; [| split_and!; [lia | done | lia]].
    intros (? & [_ ?]%Forall_cons & ?). done.
  - split; [| split; [done | lia]].
    intros (? & [He ?]%Forall_cons & ?). split; [done | congruence].
Qed.

Lemma wv_advance_one n b :
  (n ≤ length b)%nat → wv_advance n [b] = if decide (n = length b) then [] else [drop n b].
Proof.
  intros Hn. cbn. destruct (decide (n = length b)) as [-> | Hne].
  - by rewrite Nat.leb_refl, Nat.sub_diag.
  - by rewrite (proj2 (Nat.leb_gt _ _)) by lia.
Qed.

Lemma same_rx_trans k1 k2 k3 : same_rx k1 k2 → same_rx k2 k3 → same_rx k1 k3.
Proof. unfold same_rx. congruence. Qed.

(** What a call that has [b] to send, started in [k], did when it ended in [k']. *)
Definition wrote (b : list byte) (k k' : ksock) (complete : Prop) : Prop :=
  same_rx k k' ∧ ∃ sent rest, b = sent ++ rest ∧ k_tx k' = k_tx k ++ sent ∧
    (complete → rest = []).

Lemma wrote_step b n k k1 k' C :
  same_rx k k1 → k_tx k1 = k_tx k ++ take n b → wrote (drop n b) k1 k' C → wrote b k k' C.
Proof.
  intros H1 Htx (H2 & sent & rest & Hb & Htx' & HC). split; [by eapply same_rx_trans |].
  exists (take n b ++ sent), rest. split_and!; [| | done].
  - by rewrite <- app_assoc, <- Hb, take_drop.
  - by rewrite Htx', Htx, <- app_assoc.
Qed.

Lemma wrote_nothing b k k1 k' C :
  same_rx k k1 → k_tx k1 = k_tx k → wrote b k1 k' C → wrote b k k' C.
Proof.
  intros H1 Htx H. apply (wrote_step b 0 k k1); [done | | by rewrite drop_0].
  by rewrite Htx, take_0, app_nil_r.
Qed.

Lemma wrote_stop b k k' (C : Prop) :
  same_rx k k' → k_tx k' = k_tx k → ¬ C → wrote b k k' C.
Proof.
  intros. split; [done |]. exists [], b. by rewrite app_nil_r.
Qed.

Lemma wrote_all b n k k' C :
  same_rx k k' → k_tx k' = k_tx k ++ take n b → (length b ≤ n)%nat → wrote b k k' C.
Proof.
  intros. split; [done |]. exists (take n b), (drop n b).
  rewrite take_drop. split_and!; [done | done |]. intros _. by apply drop_ge.
Qed.

Lemma poll_out_step {A} (k k' : ksock) (c1 c2 : M ksock A) r :
  (p <- st_netfd_poll POLLOUT ;; if p <? 0 then c1 else c2) k = (r, k') →
  ∃ k1, same_tx k k1 ∧ same_rx k k1 ∧ (k_healthy k → k_healthy k1) ∧
    ((¬ k_healthy k ∧ c1 k1 = (r, k')) ∨ c2 k1 = (r, k')).
Proof.
  destruct (st_netfd_poll POLLOUT k) as [r1 k1] eqn:E.
  destruct (st_netfd_poll_spec _ _ _ _ E) as (Htx & Hrx & Hr). intros H. exists k1.
  split_and!; [done | done | |].
  { intros Hk. eapply st_netfd_poll_healthy; [done | done |]. done. }
  destruct Hr as [-> | ->]; rewrite (bind_ok _ _ _ _ _ E) in H; [by right |].
  left. split; [| done]. intros Hk.
  by destruct (st_netfd_poll_healthy _ _ _ _ E Hk ltac:(done)).
Qed.

Lemma st_writev_resid_spec fuel b k r k' :
  (length (k_wrs k) < fuel)%nat →
  st_writev_resid fuel [b] k = (r, k') →
  wrote b k k' (r ≠ Fail) ∧ (r = Ok [] ∨ r = Fail) ∧ (k_healthy k → r = Ok [] ∧ k_healthy k').
Proof.
  revert b k r k'. induction fuel as [| fuel IH]; intros b k r k' Hf H; [lia |].
  cbn [st_writev_resid] in H.
  destruct (sys_writev [b] k) as [r1 k1] eqn:E1.
  destruct (sys_writev_spec _ _ _ _ E1) as (Hrx & Hpo & Hk & Hr).
  cbn [concat] in Hr. rewrite app_nil_r in Hr.
  destruct r1 as [[n | []] | | | |]; try done; rewrite (bind_ok _ _ _ _ _ E1) in H.
  - destruct Hr as (Hn & Htx & Hdec). rewrite wv_advance_one in H by done.
    case_decide as Hnb.
    + cbn in H. simplify_eq. split; [by eapply wrote_all |].
      split; [by left | intros Hk0; split; [done | apply Hk, Hk0]].
    + apply poll_out_step in H as (k2 & [Hw2 Htx2] & Hrx2 & Hk2 & [[Hnk H] | H]).
      * cbn in H. simplify_eq. split; [| split; [by right | intros Hk0; by destruct Hnk; apply Hk]].
        apply (wrote_step b n k k1); [done | done |]. apply wrote_stop; [done | done |].
        by intros [].
      * apply IH in H as (Hwr & Hr & Hh); [| rewrite Hw2; lia].
        split; [| split; [done |]]; [| intros Hk0; apply Hh, Hk2, Hk, Hk0].
        apply (wrote_step b n k k1); [done | done |]. by eapply wrote_nothing.
  - destruct Hr as [Htx Hdec]. apply IH in H as (Hwr & Hr & Hh); [| lia].
    split; [by eapply wrote_nothing |]. split; [done |]. intros Hk0. apply Hh, Hk, Hk0.
  - destruct Hr as [Htx Hdec].
    apply poll_out_step in H as (k2 & [Hw2 Htx2] & Hrx2 & Hk2 & [[Hnk H] | H]).
    + cbn in H. simplify_eq. split; [| split; [by right | intros Hk0; by destruct Hnk; apply Hk]].
      eapply wrote_nothing; [done | done |]. apply wrote_stop; [done | done |]. by intros [].
    + apply IH in H as (Hwr & Hr & Hh); [| rewrite Hw2; lia].
      split; [| split; [done | intros Hk0; apply Hh, Hk2, Hk, Hk0]].
      eapply wrote_nothing; [done | done |]. by eapply wrote_nothing.
  - destruct Hr as [Htx Hdec]. cbn in H. simplify_eq.
    split; [apply wrote_stop; [done | done | by intros []] |].
    split; [by right | intros Hk0; by destruct (Hk Hk0) as [_ []]].
Qed.

Lemma st_write_c_spec b k r k' :
  st_write_c b k = (r, k') →
  ∃ z, r = Ok z ∧ wrote b k k' (z ≠ -1) ∧ (z = -1 ∨ z = Z.of_nat (length b)) ∧
    (k_healthy k → z = Z.of_nat (length b) ∧ k_healthy k').
Proof.
  unfold st_write_c, st_write_resid, wr_fuel. intros H.
  destruct (st_writev_resid (S (length (k_wrs k))) [b] k) as [r1 k1] eqn:E.
  destruct (st_writev_resid_spec _ _ _ _ _ (Nat.lt_succ_diag_r _) E) as (Hw & Hr & Hk).
  unfold bind in H. rewrite E in H.
  assert (∀ C : Prop, (C → r1 ≠ Fail) → wrote b k k1 C) as Hw'.
  { intros C HC. destruct Hw as (? & s & t & ? & ? & Ht). split; [done |].
    exists s, t. split_and!; [done | done |]. intros. by apply Ht, HC. }
  destruct Hr as [-> | ->]; cbn in H; simplify_eq.
  - exists (Z.of_nat (length b)). rewrite Z.sub_0_r.
    split_and!; [done | by apply Hw' | by right |].
    intros Hk0. split; [done | apply Hk, Hk0].
  - exists (-1). split_and!; [done | by apply Hw'; intros [] | by left |].
    intros Hk0. by destruct (Hk Hk0).
Qed.

Lemma concat_iov_from n iov : concat (iov_from n iov) = drop n (concat iov).
Proof.
  revert n. induction iov as [| l iov IH]; intros n; [cbn; by rewrite drop_nil |].
  cbn [iov_from concat]. destruct (Nat.leb_spec (length l) n).
  - rewrite IH, drop_app, (drop_ge l) by lia. done.
  - cbn [concat]. rewrite drop_app_le by lia. done.
Qed.

Lemma wrote_impl b k k' (C D : Prop) : (D → C) → wrote b k k' C → wrote b k k' D.
Proof.
  intros HDC (? & s & t & ? & ? & Ht). split; [done |].
  exists s, t. split_and!; [done | done |]. intros. by apply Ht, HDC.
Qed.

(** What [st_writev] promises of its return value [z]. *)
Definition writev_result (b : list byte) (nbyte : nat) (k k' : ksock) (r : outcome Z) : Prop :=
  ∃ z, r = Ok z ∧ wrote b k k' (z ≠ -1) ∧ (z = -1 ∨ z = Z.of_nat nbyte) ∧
    (k_healthy k → z = Z.of_nat nbyte ∧ k_healthy k').

Lemma writev_result_stop b nbyte k k' :
  same_rx k k' → k_tx k' = k_tx k → ¬ k_healthy k → writev_result b nbyte k k' (Ok (-1)).
Proof.
  intros. exists (-1). split_and!; [done | by apply wrote_stop; [..| intros []] | by left | done].
Qed.

Lemma writev_result_step b n nbyte k k1 k' r :
  same_rx k k1 → k_tx k1 = k_tx k ++ take n b → (k_healthy k → k_healthy k1) →
  writev_result (drop n b) nbyte k1 k' r → writev_result b nbyte k k' r.
Proof.
  intros Hrx Htx Hk (z & -> & Hw & Hz & Hh). exists z.
  split_and!; [done | by eapply wrote_step | done | by intros ?; apply Hh, Hk].
Qed.

Lemma writev_result_nothing b nbyte k k1 k' r :
  same_rx k k1 → k_tx k1 = k_tx k → (k_healthy k → k_healthy k1) →
  writev_result b nbyte k1 k' r → writev_result b nbyte k k' r.
Proof.
  intros Hrx Htx Hk H. apply (writev_result_step b 0 nbyte k k1); [done | | done |].
  - by rewrite take_0, app_nil_r.
  - by rewrite drop_0.
Qed.

(** ** st_writev: [tmp_iov] always holds the bytes not yet written *)
Lemma st_writev_loop_spec fuel iov nleft tmp k r k' :
  let nbyte := length (concat iov) in
  (length (k_wrs k) < fuel)%nat →
  (nleft ≤ nbyte)%nat →
  concat tmp = drop (nbyte - nleft) (concat iov) →
  st_writev_loop fuel iov nbyte nleft tmp k = (r, k') →
  writev_result (concat tmp) nbyte k k' r.
Proof.
  cbv zeta. revert nleft tmp k r k'.
  induction fuel as [| fuel IH]; intros nleft tmp k r k' Hf Hn Htmp H; [lia |].
  assert (length (concat tmp) = nleft) as Hlt by (rewrite Htmp, length_drop; lia).
  cbn [st_writev_loop] in H. destruct (Nat.eqb_spec nleft 0) as [Hz | Hz].
  { cbn in H. simplify_eq. apply nil_length_inv in Hz. rewrite Hz.
    eexists. split; [done |]. split_and!; [| by right | done].
    apply (wrote_all [] 0); [done | | done]. by rewrite app_nil_r. }
  case_decide as Hcnt.
  - destruct tmp as [| base [| ? ?]]; try done. cbn [hd] in H.
    cbn [concat] in *. rewrite app_nil_r in *. rewrite (proj2 (Nat.ltb_ge _ _)) in H by lia.
    rewrite take_ge in H by lia.
    destruct (st_write_c base k) as [r1 k1] eqn:E.
    destruct (st_write_c_spec _ _ _ _ E) as (z & -> & Hw & Hzz & Hk).
    rewrite (bind_ok _ _ _ _ _ E) in H. cbn in H. injection H as <- <-.
    rewrite Hlt in Hzz, Hk. destruct (Z.eqb_spec z (Z.of_nat nleft)) as [-> | Hne].
    + eexists. split; [done |]. split_and!; [| by right | intros; split; [done | by apply Hk]].
      eapply wrote_impl; [| done]. lia.
    + destruct Hzz as [-> | ?]; [| lia]. exists (-1).
      split_and!; [done | done | by left |]. intros Hk0. by destruct (Hk Hk0).
  - destruct (sys_writev tmp k) as [r1 k1] eqn:E1.
    destruct (sys_writev_spec _ _ _ _ E1) as (Hrx & Hpo & Hk & Hr).
    destruct r1 as [[n | []] | | | |]; try done; rewrite (bind_ok _ _ _ _ _ E1) in H.
    + destruct Hr as (Hnl & Htx & Hdec). destruct (Nat.eqb_spec n nleft) as [-> | Hne].
      * cbn in H. simplify_eq. eexists. split; [done |].
        split_and!; [| by right | intros Hk0; split; [done | apply Hk, Hk0]].
        eapply wrote_all; [done | done | lia].
      * apply (writev_result_step _ n _ _ k1); [done | done | apply Hk |].
        apply poll_out_step in H as (k2 & [Hw2 Htx2] & Hrx2 & Hk2 & [[Hnk H] | H]).
        { cbn in H. simplify_eq. by apply writev_result_stop. }
        apply (writev_result_nothing _ _ _ k2); [done | done | done |].
        assert (concat (iov_from (length (concat iov) - (nleft - n)) iov)
                  = drop n (concat tmp)) as Hfrom.
        { rewrite concat_iov_from, Htmp, drop_drop. f_equal. lia. }
        apply IH in H; [| rewrite Hw2; lia | lia | by rewrite concat_iov_from].
        by rewrite Hfrom in H.
    + destruct Hr as [Htx Hdec]. apply (writev_result_nothing _ _ _ k1);
        [done | done | apply Hk |]. apply IH in H; [done | lia | lia | done].
    + destruct Hr as [Htx Hdec]. apply (writev_result_nothing _ _ _ k1);
        [done | done | apply Hk |].
      apply poll_out_step in H as (k2 & [Hw2 Htx2] & Hrx2 & Hk2 & [[Hnk H] | H]).
      { cbn in H. simplify_eq. by apply writev_result_stop. }
      apply (writev_result_nothing _ _ _ k2); [done | done | done |].
      apply IH in H; [done | rewrite Hw2; lia | lia | done].
    + destruct Hr as [Htx Hdec]. cbn in H. simplify_eq. apply writev_result_stop; [done | done |].
      intros Hk0. by destruct (Hk Hk0) as [_ []].
Qed.

Lemma st_writev_c_spec iov k r k' :
  st_writev_c iov k = (r, k') →
  writev_result (concat iov) (length (concat iov)) k k' r.
Proof.
  unfold st_writev_c, wr_fuel. intros H.
  apply st_writev_loop_spec in H; [done | lia | lia |]. by rewrite Nat.sub_diag, drop_0.
Qed.

(** ** The instance of the socket interface *)
Definition c_read {A B : Type} (c : M ksock A) (f : A → option B) (k : ksock) :
    option B * ksock :=
  match c k with
  | (Ok a, k') => (f a, k')
  | (_, k') => (None, k')
  end.

Definition c_write (c : M ksock Z) (k : ksock) : Z * ksock :=
  match c k with
  | (Ok z, k') => (z, k')
  | (_, k') => (-1, k')
  end.

#[export] Instance ksock_socket : StSocket ksock := {
  st_read k n := c_read (st_read_c n) Some k;
  st_read_fully k n :=
    c_read (st_read_fully_c n) (λ '(z, bs), if z <? 0 then None else Some bs) k;
  st_write k bs := c_write (st_write_c bs) k;
  st_writev k iov := c_write (st_writev_c iov) k;
}.

Lemma c_read_fully_inv n k r k' :
  st_read_fully k n = (r, k') →
  ∃ got, same_tx k k' ∧ k_rx k = got ++ k_rx k' ∧ (length got ≤ n)%nat ∧
    (r = None ∨ (r = Some got ∧ (length got = n ∨ k_eof k'))).
Proof.
  cbn. unfold c_read. intros H.
  destruct (st_read_fully_c n k) as [r1 k1] eqn:E.
  destruct (st_read_fully_spec _ _ _ _ E) as (Htx & got & z & bs & -> & Hgot & Hl & Hr).
  destruct Hr as [[-> ->] | (-> & -> & Hr)].
  - cbn in H. simplify_eq. exists got. split_and!; try done. by left.
  - rewrite (proj2 (Z.ltb_ge _ _)) in H by lia. simplify_eq.
    exists got. split_and!; try done. by right.
Qed.

#[export] Program Instance ksock_socket_laws : StSocketLaws ksock := {
  rx := k_rx;
  tx := k_tx;
  healthy := k_healthy;
  at_eof := k_eof;
}.
Next Obligation.
  intros s n r s' H. destruct (c_read_fully_inv _ _ _ _ H) as (got & [_ Ht] & Hg & Hl & Hr).
  split; [done |]. exists got. split_and!; [done | done |]. naive_solver.
Qed.
Next Obligation.
  intros s n bs s' H Hlt. destruct (c_read_fully_inv _ _ _ _ H) as (got & _ & _ & Hl & Hr).
  destruct Hr as [? | [? [? | ?]]]; simplify_eq; [lia | done].
Qed.
Next Obligation.
  intros s n Heof. cbn. unfold c_read, st_read_fully_c, st_read_resid, rd_fuel, bind.
  cbn [st_readv_resid]. rewrite (bind_ok _ _ _ _ _ (sys_read_eof _ _ Heof)). cbn.
  by rewrite Z.sub_diag.
Qed.
Next Obligation.
  intros s n Hk Hn. destruct (st_read_fully_ok n s Hk Hn) as (s' & E & Hrx & [_ Htx] & Hk').
  exists s'. cbn. unfold c_read. rewrite E.
  by rewrite (proj2 (Z.ltb_ge _ _)) by lia.
Qed.
Next Obligation.
  intros s iov r s' H. cbn in H. unfold c_write in H.
  destruct (st_writev_c iov s) as [r1 s1] eqn:E.
  destruct (st_writev_c_spec _ _ _ _ E) as (z & -> & (Hrx & sent & rest & Hb & Htx & Hc) & Hz & _).
  simplify_eq. split; [by apply same_rx_k_rx |]. exists sent, rest.
  split_and!; [done | done |]. destruct Hz as [-> | ->]; [by left |]. right. split; [done |].
  apply Hc. lia.
Qed.
Next Obligation.
  intros s iov Hk. cbn. unfold c_write. destruct (st_writev_c iov s) as [r1 s1] eqn:E.
  destruct (st_writev_c_spec _ _ _ _ E) as (z & -> & (Hrx & sent & rest & Hb & Htx & Hc) & _ & Hh).
  destruct (Hh Hk) as [-> Hk']. exists s1. split_and!; [done | by apply same_rx_k_rx | | done].
  rewrite Hc, app_nil_r in Hb by lia. by rewrite Hb.
Qed.
Next Obligation.
  intros s bs Hk. cbn. unfold c_write. destruct (st_write_c bs s) as [r1 s1] eqn:E.
  destruct (st_write_c_spec _ _ _ _ E) as (z & -> & (Hrx & sent & rest & Hb & Htx & Hc) & _ & Hh).
  destruct (Hh Hk) as [-> Hk']. exists s1. split_and!; [done | by apply same_rx_k_rx | | done].
  rewrite Hc, app_nil_r in Hb by lia. by rewrite Hb.
Qed.

(** A read takes at most what was asked for, and a read that fails takes nothing. *)
Lemma st_read_loop_spec fuel n k r k' :
  st_read_loop fuel n k = (r, k') →
  k_tx k' = k_tx k ∧ match r with Ok bs => k_rx k = bs ++ k_rx k' ∧ (length bs ≤ n)%nat | _ => k_rx k' = k_rx k end.
Proof.
  revert k. induction fuel as [| fuel IH]; intros k H; cbn [st_read_loop] in H; [cbn in H; by simplify_eq |].
  destruct (sys_read n k) as [r1 k1] eqn:E1. destruct (sys_read_spec _ _ _ _ E1) as ([_ Htx] & _ & got & Hg & Hl & Hr).
  destruct r1 as [[bs | e] | | | |]; try done; rewrite (bind_ok _ _ _ _ _ E1) in H.
  { cbn in H. simplify_eq. destruct Hr as (-> & _). done. }
  destruct Hr as [-> _]. cbn [app] in Hg.
  assert (∀ k2, k_rx k2 = k_rx k1 → k_tx k2 = k_tx k1 → st_read_loop fuel n k2 = (r, k') →
    k_tx k' = k_tx k ∧ match r with Ok bs => k_rx k = bs ++ k_rx k' ∧ (length bs ≤ n)%nat | _ => k_rx k' = k_rx k end) as Hnext.
  { intros k2 Hrx2 Htx2 H2. destruct (IH k2 H2) as [Ht Hm]. rewrite Ht, Htx2. split; [done |]. by rewrite Hg, <- Hrx2. }
  destruct e; [by apply (Hnext k1) | |].
  - destruct (st_netfd_poll POLLIN k1) as [r2 k2] eqn:E2. destruct (st_netfd_poll_spec _ _ _ _ E2) as ([_ Ht2] & Hr2 & Hz).
    destruct Hz as [-> | ->]; rewrite (bind_ok _ _ _ _ _ E2) in H; cbn in H.
    + apply (Hnext k2); [by apply same_rx_k_rx | done | done].
    + simplify_eq. rewrite Ht2, Hg. split; [done | by apply same_rx_k_rx].
  - cbn in H. by simplify_eq.
Qed.

#[export] Instance ksock_socket_steps : StSocketSteps ksock.
Proof.
  split.
  - intros s n r s' H. cbn in *. unfold c_read, st_read_c in H. destruct (st_read_loop _ n s) as [r1 k1] eqn:E.
    apply st_read_loop_spec in E as [Ht Hm]. destruct r1; simplify_eq; done.
  - intros s bs r s' H. cbn in *. unfold c_write in H. destruct (st_write_c bs s) as [r1 k1] eqn:E.
    destruct (st_write_c_spec _ _ _ _ E) as (z & -> & (Hrx & sent & rest & Hb & Htx & Hc) & Hz & _). simplify_eq.
    split; [by apply same_rx_k_rx |]. exists sent, rest. split_and!; [done | done |].
    destruct Hz as [-> | ->]; [by left |]. right. split; [done |]. apply Hc. lia.
Qed.

(** C13: whatever the kernel answers, [st_read_fully] ends, takes a prefix of the
    bytes to come off the stream, and returns either -1 or the number of those
    bytes with the bytes themselves in the buffer; the count is less than what
    was asked for only at the end of the stream, and nothing is written. *)
Theorem st_read_fully_exact (n : nat) (k : ksock) :
  ∃ z bs got k', st_read_fully_c n k = (Ok (z, bs), k') ∧
    k_rx k = got ++ k_rx k' ∧ (length got ≤ n)%nat ∧ k_tx k' = k_tx k ∧
    (z = -1 ∨ (z = Z.of_nat (length got) ∧ bs = got ∧ (length got = n ∨ k_eof k'))).
Proof.
  destruct (st_read_fully_c n k) as [r k'] eqn:E.
  destruct (st_read_fully_spec _ _ _ _ E) as ([_ Htx] & got & z & bs & -> & Hgot & Hl & Hr).
  exists z, bs, got, k'. split_and!; try done.
  destruct Hr as [[? _] | (-> & -> & ?)]; [by left | by right].
Qed.

(** Whatever partial writes, interruptions and full buffers the kernel
    produces, [st_writev] ends and sends the vectors' bytes in order and
    without repetition: it returns their total number after sending all of
    them, or -1 after sending a prefix; on a socket without errors and
    time-outs it returns the total. *)
Theorem st_writev_all_or_error (iov : list (list byte)) (k : ksock) :
  ∃ z sent rest k', st_writev_c iov k = (Ok z, k') ∧
    concat iov = sent ++ rest ∧ k_tx k' = k_tx k ++ sent ∧ k_rx k' = k_rx k ∧
    (z = -1 ∨ (z = Z.of_nat (length (concat iov)) ∧ rest = [])) ∧
    (k_healthy k → z = Z.of_nat (length (concat iov))).
Proof.
  destruct (st_writev_c iov k) as [r k'] eqn:E.
  destruct (st_writev_c_spec _ _ _ _ E) as (z & -> & (Hrx & sent & rest & Hb & Htx & Hc) & Hz & Hh).
  exists z, sent, rest, k'. split_and!; try done; [by apply same_rx_k_rx | | naive_solver].
  destruct Hz as [-> | ->]; [by left | right]. split; [done |]. apply Hc. lia.
Qed.
