(* ===== verification/State.v ===== *)
(** * The data of the server: values, chunk headers, and the state a client
    coroutine works on

    [world] gathers what the functions of the RTMP layer read and write: the
    connection, the client's [IO_Buffer] and [chunk_size], the fields of the
    [IO_Message] being handled, and the globals of io_message.cpp. *)

From stdpp Require Import base list gmap.
From Stdlib Require Import Lia ZArith.
From S2P Require Import Prelude.
From S2P Require Import Bytes.

Local Open Scope Z_scope.

(** ** value_object.h

    A [double] is its 64-bit pattern: the program stores, swaps and sends it
    and never computes with it. *)
Inductive Value_Object :=
| Value_String (value : list byte)
| Value_Num (value : Z)
| Value_Len (value : Z)
| Value_0x01 (value : byte).

#[export] Instance Value_Object_eq_dec : EqDecision Value_Object.
Proof. solve_decision. Defined.

(** The pattern of a non-negative integer constant below 2^53. *)
Definition double_bits (n : Z) : Z :=
  if n =? 0 then 0 else
  let e := Z.log2 n in (1023 + e) * 2 ^ 52 + (n - 2 ^ e) * 2 ^ (52 - e).

(** Decoding sign, exponent and fraction gives the integer back. *)
Lemma double_bits_value n :
  0 < n < 2 ^ 53 →
  let b := double_bits n in
  let e := b / 2 ^ 52 - 1023 in
  0 <= e <= 52 ∧ (2 ^ 52 + b mod 2 ^ 52) = n * 2 ^ (52 - e).
Proof.
  intros Hn. cbv zeta. unfold double_bits.
  destruct (Z.eqb_spec n 0) as [| _]; [lia |].
  destruct (Z.log2_spec n ltac:(lia)) as [Hl1 Hl2].
  pose proof (Z.log2_nonneg n) as He.
  assert (Z.log2 n <= 52) as He2.
  { apply Z.lt_succ_r, Z.log2_lt_pow2; simpl; lia. }
  set (e := Z.log2 n) in *. rewrite Z.pow_succ_r in Hl2 by lia.
  assert (2 ^ e * 2 ^ (52 - e) = 2 ^ 52) as Hp by (rewrite <- Z.pow_add_r by lia; f_equal; lia).
  assert (0 < 2 ^ (52 - e)) by (apply Z.pow_pos_nonneg; lia).
  assert (0 <= (n - 2 ^ e) * 2 ^ (52 - e) < 2 ^ 52) as Hm by nia.
  rewrite Z.add_comm, Z.div_add by lia. rewrite (Z.div_small _ (2 ^ 52)) by lia.
  replace (0 + (1023 + e) - 1023) with e by lia. split; [lia |].
  rewrite Z.add_mod, Z.mod_mul, Z.add_0_r, Z.mod_mod, Z.mod_small by lia. nia.
Qed.

(** ** io_message.h: the header remembered for each chunk stream id *)
Record Message_Header := MkHeader {
  header_length : Z;
  timestamp : Z;
  timestamp_delta : Z;
  message_length : Z;
  message_type : Z;
  stream_id : Z;
}.

#[export] Instance Message_Header_eq_dec : EqDecision Message_Header.
Proof. solve_decision. Defined.

(** [Message_Header::Message_Header] *)
Definition Message_Header_new : Message_Header := MkHeader (-1) (-1) (-1) (-1) (-1) (-1).

Definition set_header_length v h :=
  MkHeader v (timestamp h) (timestamp_delta h) (message_length h) (message_type h) (stream_id h).
Definition set_timestamp v h :=
  MkHeader (header_length h) v (timestamp_delta h) (message_length h) (message_type h) (stream_id h).
Definition set_timestamp_delta v h :=
  MkHeader (header_length h) (timestamp h) v (message_length h) (message_type h) (stream_id h).
Definition set_message_length v h :=
  MkHeader (header_length h) (timestamp h) (timestamp_delta h) v (message_type h) (stream_id h).
Definition set_message_type v h :=
  MkHeader (header_length h) (timestamp h) (timestamp_delta h) (message_length h) v (stream_id h).
Definition set_stream_id v h :=
  MkHeader (header_length h) (timestamp h) (timestamp_delta h) (message_length h) (message_type h) v.

(** [Message_Header::clear] *)
Definition Message_Header_clear (h : Message_Header) : Message_Header :=
  set_stream_id (-1) (set_message_type (-1) (set_message_length (-1)
    (set_timestamp_delta (-1) (set_timestamp (-1) (set_header_length (-1) h))))).

(** The protected fields of an [IO_Message]. *)
Record IO_Message := MkMessage {
  command_name : list byte;
  transaction_id : Z;
  object : gmap (list byte) Value_Object;
}.

(** [IO_Message::IO_Message] *)
Definition IO_Message_new : IO_Message := MkMessage [] 0 ∅.

(** A vector of named values, and the vectors of objects the messages carry. *)
Notation properties := (list (list byte * Value_Object)).

Section world.
Context {S : Type}.

Record world := World {
  sock : S;
  io_buffer : list byte;
  chunk_size : Z;
  this : IO_Message;
  csid_header : gmap Z Message_Header;
  audio_video_buffer : list byte;
  set_data_frame : properties;
  curr_csid : Z;
}.

Definition with_sock v w := World v (io_buffer w) (chunk_size w) (this w)
  (csid_header w) (audio_video_buffer w) (set_data_frame w) (curr_csid w).
Definition with_io_buffer v w := World (sock w) v (chunk_size w) (this w)
  (csid_header w) (audio_video_buffer w) (set_data_frame w) (curr_csid w).
Definition with_chunk_size v w := World (sock w) (io_buffer w) v (this w)
  (csid_header w) (audio_video_buffer w) (set_data_frame w) (curr_csid w).
Definition with_this v w := World (sock w) (io_buffer w) (chunk_size w) v
  (csid_header w) (audio_video_buffer w) (set_data_frame w) (curr_csid w).
Definition with_csid_header v w := World (sock w) (io_buffer w) (chunk_size w) (this w)
  v (audio_video_buffer w) (set_data_frame w) (curr_csid w).
Definition with_audio_video_buffer v w := World (sock w) (io_buffer w) (chunk_size w) (this w)
  (csid_header w) v (set_data_frame w) (curr_csid w).
Definition with_set_data_frame v w := World (sock w) (io_buffer w) (chunk_size w) (this w)
  (csid_header w) (audio_video_buffer w) v (curr_csid w).
Definition with_curr_csid v w := World (sock w) (io_buffer w) (chunk_size w) (this w)
  (csid_header w) (audio_video_buffer w) (set_data_frame w) v.

(** A call on the connection. *)
Definition on_sock {A : Type} (f : S → A * S) : M world A := λ w,
  let '(a, s) := f (sock w) in (Ok a, with_sock s w).

(** [csid_header[csid]]: a missing entry is created with the default header. *)
Definition csid_header_at (csid : Z) : M world Message_Header := λ w,
  match csid_header w !! csid with
  | Some h => (Ok h, w)
  | None =>
      (Ok Message_Header_new,
       with_csid_header (<[csid := Message_Header_new]> (csid_header w)) w)
  end.

(** [csid_header[csid].field = v] *)
Definition csid_header_set (csid : Z) (f : Message_Header → Message_Header) : M world unit :=
  h <- csid_header_at csid ;;
  modify (λ w, with_csid_header (<[csid := f h]> (csid_header w)) w).
End world.
Arguments world S : clear implicits.
