(* ===== verification/IoBuffer.v ===== *)
(** * io_buffer.cpp and reads through [char *] into a [std::string]

    A buffer is the list of its bytes and a pointer into it is an offset.
    [data()] is null-terminated, so the byte at offset [size()] may be read and
    is 0; beyond it an access is [Undef]. *)

From stdpp Require Import base list.
From Stdlib Require Import Lia ZArith.
From S2P Require Import Prelude.
From S2P Require Import Bytes.
From S2P Require Import Util.

Local Open Scope Z_scope.

(** libstdc++'s bound on the size of a [std::string]. *)
Definition max_size : Z := 2 ^ 62.

(** [std::string::append(p, n)] with [data] the bytes readable at [p] and [n]
    converted to [size_t]: too large a count throws [std::length_error]
    before anything is read. *)
Definition append (buf data : list byte) (n : Z) : outcome (list byte) :=
  let n := wrap 64 n in
  if max_size <=? Z.of_nat (length buf) + n then Throw
  else if n <=? Z.of_nat (length data) then Ok (buf ++ take (Z.to_nat n) data)
  else Undef.

(** ** IO_Buffer *)
Module IO_Buffer.
Definition get_data (buf : list byte) : list byte := buf ++ [x00].
Definition push_back (buf data : list byte) (len : Z) : outcome (list byte) :=
  append buf data len.
Definition clear (buf : list byte) : list byte := [].
Definition size (buf : list byte) : nat := length buf.
(** [std::string::erase] throws [std::out_of_range] past the end. *)
Definition erase (buf : list byte) (pos len : Z) : outcome (list byte) :=
  let pos := wrap 64 pos in
  let len := wrap 64 len in
  if Z.of_nat (length buf) <? pos then Throw
  else Ok (take (Z.to_nat pos) buf ++ drop (Z.to_nat (pos + len)) buf).
(** [std::string::npos] when absent. *)
Definition find (buf : list byte) (target : byte) (pos : nat) : Z :=
  match list_find (λ b, b = target) (drop pos buf) with
  | Some (i, _) => Z.of_nat (pos + i)
  | None => 2 ^ 64 - 1
  end.
End IO_Buffer.

Lemma append_ok buf data n :
  0 <= n <= Z.of_nat (length data) → Z.of_nat (length buf) + n < max_size →
  append buf data n = Ok (buf ++ take (Z.to_nat n) data).
Proof.
  intros Hn Hm. unfold append, max_size in *. rewrite wrap_small by lia.
  rewrite (proj2 (Z.leb_gt _ _)), (proj2 (Z.leb_le _ _)) by lia. done.
Qed.

Lemma append_all buf data :
  Z.of_nat (length buf) + Z.of_nat (length data) < max_size →
  append buf data (Z.of_nat (length data)) = Ok (buf ++ data).
Proof. intros. rewrite append_ok by lia. by rewrite Nat2Z.id, firstn_all. Qed.

Lemma append_negative buf data n :
  - 2 ^ 63 <= n < 0 → append buf data n = Throw.
Proof.
  intros Hn. unfold append, wrap, max_size.
  replace (n mod 2 ^ 64) with (n + 2 ^ 64).
  - rewrite (proj2 (Z.leb_le _ _)) by lia. done.
  - rewrite <- (Z.mod_small (n + 2 ^ 64) (2 ^ 64)) by lia.
    by rewrite <- Z.add_mod_idemp_r, Z.mod_same, Z.add_0_r by lia.
Qed.

Lemma append_no_fail buf data n : append buf data n ≠ Fail ∧ append buf data n ≠ Hang.
Proof. unfold append. by repeat case_match. Qed.

Lemma erase_at (l : list byte) b r :
  Z.of_nat (length l + 1 + length r) < 2 ^ 64 →
  IO_Buffer.erase (l ++ b :: r) (Z.of_nat (length l)) 1 = Ok (l ++ r).
Proof.
  intros Hl. unfold IO_Buffer.erase. rewrite !wrap_small by lia.
  rewrite length_app. cbn [length]. rewrite (proj2 (Z.ltb_ge _ _)) by lia.
  rewrite Nat2Z.id, take_app_length.
  replace (Z.to_nat (Z.of_nat (length l) + 1)) with (length l + 1)%nat by lia.
  rewrite cons_middle, app_assoc, drop_app_length'; [done |].
  rewrite length_app. simpl. lia.
Qed.

(** ** Cursors

    [M nat A]: code with a [const char *p] into [buf]; [io_buffer->get_data() +
    io_buffer->size()] is the offset [length buf]. *)
Section cursor.
Context (buf : list byte).

Definition at_end (p : nat) : bool := (length buf <=? p)%nat.

(** [*p] *)
Definition deref (p : nat) : outcome byte :=
  match IO_Buffer.get_data buf !! p with
  | Some b => Ok b
  | None => Undef
  end.

Definition tell : M nat nat := gets (λ p, p).
(** [p += n;] *)
Definition advance (n : nat) : M nat unit := modify (λ p, (p + n)%nat).
(** [*p++] *)
Definition next : M nat byte := p <- tell ;; b <- lift (deref p) ;; advance 1 ;; ret b.

(** [if (p >= end || *p++ != m) return -1;] *)
Definition expect (m : Z) : M nat unit :=
  p <- tell ;;
  if at_end p then fail else b <- next ;; guard_fail (sc b =? m).

(** [if (p + n > end || be2se_nbytes(p, &v) == -1) return -1;] with [v] of [n]
    bytes (cast to a byte pointer): the memory image of [v] afterwards. *)
Definition be2se (f : option (list byte) → option (list byte) → outcome (list byte))
    (n : nat) : M nat (list byte) :=
  p <- tell ;;
  if (length buf <? p + n)%nat then fail
  else lift (f (Some (drop p (IO_Buffer.get_data buf))) (Some (replicate n x00))).

Definition be2se_int16 : M nat Z := l <- be2se be2se_2bytes 2 ;; ret (of_le_s 16 l).
Definition be2se_uint16 : M nat Z := l <- be2se be2se_2bytes 2 ;; ret (of_le l).
Definition be2se_int32 : M nat Z := l <- be2se be2se_4bytes 4 ;; ret (of_le_s 32 l).
Definition be2se_int64 : M nat Z := l <- be2se be2se_8bytes 8 ;; ret (of_le_s 64 l).
Definition be2se_double : M nat Z := l <- be2se be2se_8bytes 8 ;; ret (of_le l).

(** [std::string s; s.append(p, len);] *)
Definition append_from (len : Z) : M nat (list byte) :=
  p <- tell ;; lift (append [] (drop p (IO_Buffer.get_data buf)) len).
End cursor.

(** [cursor_at buf p rest]: the bytes from [p] to the end of the buffer. *)
Definition cursor_at (buf : list byte) (p : nat) (rest : list byte) : Prop :=
  (p ≤ length buf)%nat ∧ drop p buf = rest.

Section cursor_lemmas.
Implicit Types buf rest l : list byte.

Lemma cursor_at_app buf rest : cursor_at (buf ++ rest) (length buf) rest.
Proof. split; [rewrite length_app; lia | apply drop_app_length]. Qed.

Lemma cursor_at_length buf p rest :
  cursor_at buf p rest → length buf = (p + length rest)%nat.
Proof. intros [Hp <-]. rewrite length_drop. lia. Qed.

Lemma cursor_at_skip buf p l rest :
  cursor_at buf p (l ++ rest) → cursor_at buf (p + length l) rest.
Proof.
  intros H. pose proof (cursor_at_length _ _ _ H) as Hl. rewrite length_app in Hl.
  split; [lia |]. rewrite <- drop_drop, (proj2 H). apply drop_app_length.
Qed.

Lemma cursor_at_get_data buf p rest :
  cursor_at buf p rest → drop p (IO_Buffer.get_data buf) = rest ++ [x00].
Proof. intros [Hp <-]. unfold IO_Buffer.get_data. by rewrite drop_app_le. Qed.

Lemma at_end_at buf p rest :
  cursor_at buf p rest → at_end buf p = bool_decide (rest = []).
Proof.
  intros H. apply cursor_at_length in H. unfold at_end. rewrite H.
  destruct rest; simpl; [apply Nat.leb_le | apply Nat.leb_gt]; lia.
Qed.

Lemma next_at buf p b rest :
  cursor_at buf p (b :: rest) → next buf p = (Ok b, (p + 1)%nat).
Proof.
  intros H. unfold next, bind, tell, deref. cbn.
  replace (IO_Buffer.get_data buf !! p) with (Some b); [done |].
  apply cursor_at_get_data in H.
  rewrite <- (Nat.add_0_r p), <- lookup_drop, H. done.
Qed.

(** At the end of the buffer [*p++] reads the terminator. *)
Lemma next_nil buf p : cursor_at buf p [] → next buf p = (Ok x00, (p + 1)%nat).
Proof.
  intros H. unfold next, bind, tell, deref. cbn.
  replace (IO_Buffer.get_data buf !! p) with (Some x00); [done |].
  apply cursor_at_get_data in H.
  rewrite <- (Nat.add_0_r p), <- lookup_drop, H. done.
Qed.

Lemma expect_at buf m p b rest :
  cursor_at buf p (b :: rest) →
  expect buf m p = ((if sc b =? m then Ok tt else Fail), (p + 1)%nat).
Proof.
  intros H. unfold expect, bind at 1, tell. cbn [gets fst snd].
  rewrite (at_end_at _ _ _ H). cbn.
  rewrite (bind_ok _ _ _ _ _ (next_at _ _ _ _ H)). done.
Qed.

Lemma expect_nil buf m p : cursor_at buf p [] → expect buf m p = (Fail, p).
Proof.
  intros H. unfold expect, bind at 1, tell. cbn [gets fst snd].
  by rewrite (at_end_at _ _ _ H).
Qed.

Lemma be2se_at buf f n p l rest :
  swaps f n → length l = n → cursor_at buf p (l ++ rest) →
  be2se buf f n p = (Ok (rev l), p).
Proof.
  intros Hf Hl H. unfold be2se, bind, tell. cbn.
  pose proof (cursor_at_length _ _ _ H) as Hlen. rewrite length_app in Hlen.
  rewrite (proj2 (Nat.ltb_ge _ _)) by lia. cbn.
  rewrite (cursor_at_get_data _ _ _ H), Hf.
  - rewrite <- app_assoc, take_app_le, take_ge, drop_ge, app_nil_r by
      (rewrite ?length_replicate; lia). done.
  - rewrite !length_app. lia.
  - rewrite length_replicate. lia.
Qed.

(** The integer readers, on the bytes of an integer in range. *)
Lemma be2se_int16_at buf p z rest :
  - 2 ^ 15 <= z < 2 ^ 15 →
  cursor_at buf p (be_bytes 2 z ++ rest) → be2se_int16 buf p = (Ok z, p).
Proof.
  intros Hz H. unfold be2se_int16.
  rewrite (bind_ok _ _ _ _ _ (be2se_at _ _ _ _ _ _ be2se_2bytes_swaps (length_be_bytes 2 z) H)).
  unfold be_bytes. rewrite rev_involutive.
  pose proof (of_le_s_le_bytes 2 z ltac:(lia) ltac:(done)) as E. unfold ret. do 2 f_equal. exact E.
Qed.

Lemma be2se_int64_at buf p z rest :
  - 2 ^ 63 <= z < 2 ^ 63 →
  cursor_at buf p (be_bytes 8 z ++ rest) → be2se_int64 buf p = (Ok z, p).
Proof.
  intros Hz H. unfold be2se_int64.
  rewrite (bind_ok _ _ _ _ _ (be2se_at _ _ _ _ _ _ be2se_8bytes_swaps (length_be_bytes 8 z) H)).
  unfold be_bytes. rewrite rev_involutive.
  pose proof (of_le_s_le_bytes 8 z ltac:(lia) ltac:(done)) as E. unfold ret. do 2 f_equal. exact E.
Qed.

Lemma be2se_int32_at buf p z rest :
  - 2 ^ 31 <= z < 2 ^ 31 →
  cursor_at buf p (be_bytes 4 z ++ rest) → be2se_int32 buf p = (Ok z, p).
Proof.
  intros Hz H. unfold be2se_int32.
  rewrite (bind_ok _ _ _ _ _ (be2se_at _ _ _ _ _ _ be2se_4bytes_swaps (length_be_bytes 4 z) H)).
  unfold be_bytes. rewrite rev_involutive.
  pose proof (of_le_s_le_bytes 4 z ltac:(lia) ltac:(done)) as E. unfold ret. do 2 f_equal. exact E.
Qed.

Lemma be2se_uint16_at buf p z rest :
  0 <= z < 2 ^ 16 →
  cursor_at buf p (be_bytes 2 z ++ rest) → be2se_uint16 buf p = (Ok z, p).
Proof.
  intros Hz H. unfold be2se_uint16.
  rewrite (bind_ok _ _ _ _ _ (be2se_at _ _ _ _ _ _ be2se_2bytes_swaps (length_be_bytes 2 z) H)).
  unfold be_bytes. rewrite rev_involutive. cbn [ret].
  rewrite of_le_le_bytes, Z.mod_small by (simpl; lia). done.
Qed.

Lemma be2se_double_at buf p z rest :
  0 <= z < 2 ^ 64 →
  cursor_at buf p (be_bytes 8 z ++ rest) → be2se_double buf p = (Ok z, p).
Proof.
  intros Hz H. unfold be2se_double.
  rewrite (bind_ok _ _ _ _ _ (be2se_at _ _ _ _ _ _ be2se_8bytes_swaps (length_be_bytes 8 z) H)).
  unfold be_bytes. rewrite rev_involutive. cbn [ret].
  rewrite of_le_le_bytes, Z.mod_small by (simpl; lia). done.
Qed.

Lemma be2se_short buf f n p rest :
  cursor_at buf p rest → (length rest < n)%nat → be2se buf f n p = (Fail, p).
Proof.
  intros H Hn. unfold be2se, bind, tell. cbn.
  rewrite (cursor_at_length _ _ _ H), (proj2 (Nat.ltb_lt _ _)) by lia. done.
Qed.

Lemma append_from_at buf p l rest :
  cursor_at buf p (l ++ rest) → Z.of_nat (length l) < max_size →
  append_from buf (Z.of_nat (length l)) p = (Ok l, p).
Proof.
  intros H Hm. unfold append_from, bind, tell. cbn.
  rewrite (cursor_at_get_data _ _ _ H), append_ok;
    rewrite ?length_app; simpl; [| lia | lia].
  rewrite Nat2Z.id, <- app_assoc, take_app_length. done.
Qed.

(** A length up to one byte too large copies the terminator; a larger one
    reads outside the buffer. *)
Lemma append_from_over buf p rest n :
  cursor_at buf p rest → Z.of_nat (length rest) + 1 < n < max_size →
  append_from buf n p = (Undef, p).
Proof.
  intros H Hn. unfold append_from, bind, tell. cbn.
  rewrite (cursor_at_get_data _ _ _ H). unfold append, max_size in *.
  rewrite wrap_small, length_app by lia. cbn [length].
  rewrite (proj2 (Z.leb_gt _ _)), (proj2 (Z.leb_gt _ _)) by lia. done.
Qed.

(** Wherever the pointer is, [be2se] fails or reads inside the buffer. *)
Lemma be2se_total buf f n p :
  swaps f n →
  be2se buf f n p = (Fail, p) ∨
  ((p + n ≤ length buf)%nat ∧ ∃ l, length l = n ∧ be2se buf f n p = (Ok l, p)).
Proof.
  intros Hf. unfold be2se, bind, tell. cbn.
  destruct (Nat.ltb_spec (length buf) (p + n)) as [| Hp]; [by left |]. right. split; [done |].
  rewrite Hf; unfold IO_Buffer.get_data; rewrite ?length_drop, ?length_app, ?length_replicate;
    [| simpl; lia | lia].
  eexists. split; [| done].
  rewrite length_app, length_rev, length_take, length_drop, length_drop, length_replicate, length_app.
  simpl. lia.
Qed.
End cursor_lemmas.
