(* ===== verification/IoSocket.v ===== *)
(** * io_socket.cpp: reading the connection into a buffer

    The functions exist twice in the source, once for the client's [IO_Buffer]
    and once for the global [audio_video_buffer]; [which] names the buffer. *)

From stdpp Require Import base list gmap.
From Stdlib Require Import Lia ZArith.
From S2P Require Import Prelude.
From S2P Require Import Bytes.
From S2P Require Import StApi.
From S2P Require Import StIo.
From S2P Require Import State.
From S2P Require Import IoBuffer.

Local Open Scope Z_scope.

Inductive which := IoBuf | AvBuf.

Section io_socket.
Context {S : Type} `{!StSocket S}.

Definition buf (b : which) (w : world S) : list byte :=
  match b with IoBuf => io_buffer w | AvBuf => audio_video_buffer w end.

Definition with_buf (b : which) (v : list byte) (w : world S) : world S :=
  match b with IoBuf => with_io_buffer v w | AvBuf => with_audio_video_buffer v w end.

(** [buffer.append(data, n);] *)
Definition push (b : which) (data : list byte) (n : Z) : M (world S) unit := λ w,
  match append (buf b w) data n with
  | Ok v => (Ok tt, with_buf b v w)
  | o => (omap (λ _, tt) o, w)
  end.

(** [IO_Socket::read_nbytes] and [read_nbytes_av]; the result is [*nread]
    (whose value on entry is [nread0]). *)
Definition read_nbytes_on (b : which) (nbytes : Z) (nread0 : Z) : M (world S) Z :=
  w <- gets id ;;
  if Z.of_nat (length (buf b w)) <? nbytes then
    let nbytes := nbytes - Z.of_nat (length (buf b w)) in
    r <- on_sock (λ s, st_read_fully s (Z.to_nat nbytes)) ;;
    match r with
    | None => fail
    | Some bs =>
        let nread := Z.of_nat (length bs) in
        if negb (nread =? nbytes) then fail else
        push b bs nread ;; ret nread
    end
  else ret nread0.

(** The loop of [read_nbytes_cycle]; [acc] holds [buffer[0 .. *nread)]. *)
Fixpoint read_cycle (fuel : nat) (nbytes : nat) (acc : list byte) : M (world S) (list byte) :=
  match fuel with
  | O => lift Hang
  | Datatypes.S fuel =>
      if (length acc <? nbytes)%nat then
        r <- on_sock (λ s, st_read_fully s (nbytes - length acc)) ;;
        match r with
        | None => fail
        | Some bs =>
            if (length acc + length bs <? nbytes)%nat
            then read_cycle fuel nbytes (acc ++ bs)
            else ret (acc ++ bs)
        end
      else ret acc
  end.

(** Two rounds: [st_read_fully] is short only at the end of the stream, and
    from there on every round reads nothing ([read_cycle_hangs]). *)
Definition cycle_fuel : nat := 2.

(** [IO_Socket::read_nbytes_cycle] and [read_nbytes_cycle_av] *)
Definition read_nbytes_cycle_on (b : which) (nbytes : Z) (nread0 : Z) : M (world S) Z :=
  w <- gets id ;;
  if Z.of_nat (length (buf b w)) <? nbytes then
    let nbytes := nbytes - Z.of_nat (length (buf b w)) in
    bs <- read_cycle cycle_fuel (Z.to_nat nbytes) [] ;;
    push b bs (Z.of_nat (length bs)) ;;
    ret (Z.of_nat (length bs))
  else ret nread0.

Definition read_nbytes := read_nbytes_on IoBuf.
Definition read_nbytes_av := read_nbytes_on AvBuf.
Definition read_nbytes_cycle := read_nbytes_cycle_on IoBuf.
Definition read_nbytes_cycle_av := read_nbytes_cycle_on AvBuf.

Definition SOCKET_READ_SIZE : nat := 4096.

(** [IO_Socket::read]; the length passed to [push_back] is
    [(size_t)nread], the address of the result, here [nread_addr]. *)
Definition read (nread_addr : Z) : M (world S) Z :=
  r <- on_sock (λ s, st_read s SOCKET_READ_SIZE) ;;
  match r with
  | None => fail
  | Some bs =>
      if (length bs =? 0)%nat then fail else
      push IoBuf (bs ++ replicate (SOCKET_READ_SIZE - length bs) x00) nread_addr ;;
      ret (Z.of_nat (length bs))
  end.

(** [IO_Socket::write] *)
Definition write (buffer : list byte) : M (world S) Z :=
  nwrite <- on_sock (λ s, st_write s buffer) ;;
  if negb (nwrite =? Z.of_nat (length buffer)) then fail else ret nwrite.

(** [IO_Socket::writev] ([iov] is never null) *)
Definition writev (iov : list (list byte)) : M (world S) Z :=
  nwrite <- on_sock (λ s, st_writev s iov) ;;
  if nwrite =? -1 then fail else ret nwrite.
End io_socket.

(** ** What the reads do, on any connection that keeps the socket contract *)
Section laws.
Context {S : Type} `{!StSocket S, !StSocketLaws S}.
Implicit Types w : world S.

Lemma with_buf_id b w : with_buf b (buf b w) w = w.
Proof. by destruct b, w. Qed.
Lemma with_sock_id w : with_sock (sock w) w = w.
Proof. by destruct w. Qed.
Lemma buf_with_buf b v w : buf b (with_buf b v w) = v.
Proof. by destruct b. Qed.
Lemma buf_with_sock b s w : buf b (with_sock s w) = buf b w.
Proof. by destruct b. Qed.
Lemma sock_with_buf b v w : sock (with_buf b v w) = sock w.
Proof. by destruct b. Qed.
Lemma with_buf_with_buf b v v' w : with_buf b v (with_buf b v' w) = with_buf b v w.
Proof. by destruct b. Qed.
Lemma with_buf_with_sock b v s w : with_sock s (with_buf b v w) = with_buf b v (with_sock s w).
Proof. by destruct b. Qed.
Lemma with_sock_with_sock s s' w : with_sock s (with_sock s' w) = with_sock s w.
Proof. done. Qed.

Lemma push_ok b data w :
  Z.of_nat (length (buf b w)) + Z.of_nat (length data) < max_size →
  push b data (Z.of_nat (length data)) w = (Ok tt, with_buf b (buf b w ++ data) w).
Proof. intros. unfold push. by rewrite append_all. Qed.

Lemma read_cycle_step fuel n acc w :
  (length acc < n)%nat →
  read_cycle (Datatypes.S fuel) n acc w =
    match st_read_fully (sock w) (n - length acc) with
    | (None, s') => (Fail, with_sock s' w)
    | (Some bs, s') =>
        if (length acc + length bs <? n)%nat
        then read_cycle fuel n (acc ++ bs) (with_sock s' w)
        else (Ok (acc ++ bs), with_sock s' w)
    end.
Proof.
  intros Hn. cbn [read_cycle]. rewrite (proj2 (Nat.ltb_lt _ _) Hn).
  unfold bind, on_sock. destruct (st_read_fully _ _) as [[bs |] s']; [| done].
  by destruct (_ <? _)%nat.
Qed.

(** Once the peer has closed, a round of the loop changes nothing. *)
Lemma read_cycle_hangs fuel n acc w :
  at_eof (sock w) → (length acc < n)%nat → read_cycle fuel n acc w = (Hang, w).
Proof.
  intros Heof Hn. induction fuel as [| fuel IH]; [done |].
  rewrite read_cycle_step, st_read_fully_eof by done. cbn [length].
  rewrite with_sock_id, Nat.add_0_r, app_nil_r, (proj2 (Nat.ltb_lt _ _) Hn). apply IH.
Qed.

(** The number of rounds does not matter: with more of them the loop gives
    the same answer, or is still running. *)
Lemma read_cycle_fuel fuel n w :
  (0 < n)%nat → (1 ≤ fuel)%nat →
  read_cycle fuel n [] w =
    match st_read_fully (sock w) n with
    | (None, s') => (Fail, with_sock s' w)
    | (Some bs, s') =>
        if (length bs <? n)%nat then (Hang, with_sock s' w) else (Ok bs, with_sock s' w)
    end.
Proof.
  intros Hn Hf. destruct fuel as [| fuel]; [lia |].
  rewrite read_cycle_step by done. cbn [length Nat.add app]. rewrite Nat.sub_0_r.
  destruct (st_read_fully (sock w) n) as [[bs |] s1] eqn:E; [| done].
  destruct (Nat.ltb_spec (length bs) n) as [Hlt | Hge]; [| done].
  apply read_cycle_hangs; [by eapply st_read_fully_short | done].
Qed.

Lemma read_cycle_spec n w r w' :
  (0 < n)%nat →
  read_cycle cycle_fuel n [] w = (r, w') →
  ∃ s' got, w' = with_sock s' w ∧ rx (sock w) = got ++ rx s' ∧ tx s' = tx (sock w) ∧
    (length got ≤ n)%nat ∧
    (r = Fail ∨ (r = Ok got ∧ length got = n) ∨
     (r = Hang ∧ (length got < n)%nat ∧ at_eof s')).
Proof.
  intros Hn H. rewrite read_cycle_fuel in H by (done || unfold cycle_fuel; lia).
  destruct (st_read_fully (sock w) n) as [o s1] eqn:E.
  destruct (st_read_fully_frame _ _ _ _ E) as (Htx & got & Hgot & Hl & Ho).
  exists s1, got. destruct o as [bs |].
  2:{ simplify_eq. split_and!; try done. by left. }
  rewrite (Ho _ eq_refl) in *.
  destruct (Nat.ltb_spec (length got) n) as [Hlt | Hge]; simplify_eq; split_and!; try done.
  - right; right. split_and!; [done | done | by eapply st_read_fully_short].
  - right; left. split; [done | lia].
Qed.

Definition small (b : which) (n : Z) (w : world S) : Prop :=
  n < max_size ∧ Z.of_nat (length (buf b w)) < max_size.

Lemma read_nbytes_cycle_spec b n nread0 w r w' :
  small b n w →
  read_nbytes_cycle_on b n nread0 w = (r, w') →
  ∃ s' got, rx (sock w) = got ++ rx s' ∧ tx s' = tx (sock w) ∧
    match r with
    | Ok z =>
        w' = with_buf b (buf b w ++ got) (with_sock s' w) ∧
        ((n <= Z.of_nat (length (buf b w)) ∧ got = [] ∧ s' = sock w ∧ z = nread0) ∨
         (Z.of_nat (length (buf b w)) < n ∧
          Z.of_nat (length (buf b w) + length got) = n ∧ z = Z.of_nat (length got)))
    | Fail => w' = with_sock s' w
    | Hang => w' = with_sock s' w ∧ at_eof s' ∧
        Z.of_nat (length (buf b w) + length got) < n
    | _ => False
    end.
Proof.
  intros [Hs1 Hs2] H. unfold read_nbytes_cycle_on in H.
  unfold bind at 1 in H. cbn [gets id] in H.
  destruct (Z.ltb_spec (Z.of_nat (length (buf b w))) n) as [Hlt | Hge].
  2:{ cbn in H. simplify_eq. exists (sock w'), []. cbn [app].
      rewrite app_nil_r, with_sock_id, with_buf_id. split_and!; try done. by left. }
  set (need := n - Z.of_nat (length (buf b w))) in *.
  destruct (read_cycle cycle_fuel (Z.to_nat need) [] w) as [r1 w1] eqn:E.
  destruct (read_cycle_spec (Z.to_nat need) _ _ _ ltac:(lia) E) as (s' & got & -> & Hrx & Htx & Hl & Hr).
  exists s', got. unfold bind at 1 in H. rewrite E in H.
  destruct Hr as [-> | [[-> Hlen] | (-> & Hlen & Heof)]].
  - simplify_eq. done.
  - rewrite (bind_ok _ _ _ _ _ (push_ok b got (with_sock s' w) ltac:(rewrite buf_with_sock; lia))) in H.
    cbn in H. simplify_eq. rewrite buf_with_sock. split_and!; try done.
    right. split_and!; lia.
  - simplify_eq. split_and!; try done. lia.
Qed.

(** On a healthy connection that has the bytes. *)
Lemma read_nbytes_cycle_ok b n nread0 w :
  small b n w → healthy (sock w) →
  Z.of_nat (length (buf b w)) < n →
  n <= Z.of_nat (length (buf b w) + length (rx (sock w))) →
  let need := Z.to_nat (n - Z.of_nat (length (buf b w))) in
  ∃ s', rx s' = drop need (rx (sock w)) ∧ tx s' = tx (sock w) ∧ healthy s' ∧
    read_nbytes_cycle_on b n nread0 w =
      (Ok (Z.of_nat need), with_buf b (buf b w ++ take need (rx (sock w))) (with_sock s' w)).
Proof.
  intros [Hs1 Hs2] Hh Hlt Hrx need.
  destruct (st_read_fully_healthy (sock w) need Hh) as (s' & E & Hrx' & Htx & Hh'); [lia |].
  exists s'. split_and!; [done | done | done |].
  assert (length (take need (rx (sock w))) = need) as Hlen by (rewrite length_take; lia).
  unfold read_nbytes_cycle_on. unfold bind at 1. cbn [gets id].
  rewrite (proj2 (Z.ltb_lt _ _) Hlt). fold need.
  assert (read_cycle cycle_fuel need [] w
            = (Ok (take need (rx (sock w))), with_sock s' w)) as Hc.
  { rewrite read_cycle_fuel, E, Hlen, Nat.ltb_irrefl by (unfold cycle_fuel; lia). done. }
  rewrite (bind_ok _ _ _ _ _ Hc).
  rewrite (bind_ok _ _ _ _ _ (push_ok b (take need (rx (sock w))) (with_sock s' w)
    ltac:(rewrite buf_with_sock; lia))).
  cbn. by rewrite buf_with_sock, Hlen.
Qed.

Lemma read_nbytes_cycle_enough b n nread0 w :
  n <= Z.of_nat (length (buf b w)) → read_nbytes_cycle_on b n nread0 w = (Ok nread0, w).
Proof.
  intros Hn. unfold read_nbytes_cycle_on, bind at 1. cbn.
  by rewrite (proj2 (Z.ltb_ge _ _) Hn).
Qed.

Lemma read_nbytes_enough b n nread0 w :
  n <= Z.of_nat (length (buf b w)) → read_nbytes_on b n nread0 w = (Ok nread0, w).
Proof.
  intros Hn. unfold read_nbytes_on, bind at 1. cbn.
  by rewrite (proj2 (Z.ltb_ge _ _) Hn).
Qed.

Lemma read_nbytes_ok b n nread0 w :
  small b n w → healthy (sock w) →
  Z.of_nat (length (buf b w)) < n →
  n <= Z.of_nat (length (buf b w) + length (rx (sock w))) →
  let need := Z.to_nat (n - Z.of_nat (length (buf b w))) in
  ∃ s', rx s' = drop need (rx (sock w)) ∧ tx s' = tx (sock w) ∧ healthy s' ∧
    read_nbytes_on b n nread0 w =
      (Ok (Z.of_nat need), with_buf b (buf b w ++ take need (rx (sock w))) (with_sock s' w)).
Proof.
  intros [Hs1 Hs2] Hh Hlt Hrx need.
  destruct (st_read_fully_healthy (sock w) need Hh) as (s' & E & Hrx' & Htx & Hh'); [lia |].
  exists s'. split_and!; [done | done | done |].
  assert (length (take need (rx (sock w))) = need) as Hlen by (rewrite length_take; lia).
  unfold read_nbytes_on. unfold bind at 1. cbn [gets id].
  rewrite (proj2 (Z.ltb_lt _ _) Hlt). fold need. unfold bind at 1, on_sock. rewrite E.
  rewrite Hlen. replace (Z.of_nat need =? n - Z.of_nat (length (buf b w))) with true by
    (symmetry; apply Z.eqb_eq; lia). cbn [negb].
  rewrite <- Hlen at 2.
  rewrite (bind_ok _ _ _ _ _ (push_ok b (take need (rx (sock w))) (with_sock s' w)
    ltac:(rewrite buf_with_sock; lia))).
  cbn. by rewrite buf_with_sock.
Qed.
End laws.

(** ** The calls as a stream reader

    [streaming b str k w]: the connection delivers the bytes [str], and the
    first [k] of them are in the buffer. *)
Section stream.
Context {S : Type} `{!StSocket S, !StSocketLaws S}.
Implicit Types (w : world S) (str : list byte).

Definition streaming (b : which) str (k : nat) w : Prop :=
  healthy (sock w) ∧ buf b w = take k str ∧ rx (sock w) = drop k str ∧
  (k ≤ length str)%nat ∧ Z.of_nat (length str) < max_size.

(** [w'] is [w] with only the connection and the buffer changed. *)
Definition same_world (b : which) w w' : Prop :=
  tx (sock w') = tx (sock w) ∧ ∃ s v, w' = with_buf b v (with_sock s w).

Lemma same_world_refl b w : same_world b w w.
Proof. split; [done |]. exists (sock w), (buf b w). by rewrite with_sock_id, with_buf_id. Qed.

Lemma same_world_trans b w1 w2 w3 :
  same_world b w1 w2 → same_world b w2 w3 → same_world b w1 w3.
Proof.
  intros [H1 (s1 & v1 & ->)] [H2 (s2 & v2 & ->)]. split; [congruence |].
  exists s2, v2. by rewrite with_buf_with_sock, with_buf_with_buf.
Qed.

Lemma same_world_this b w w' :
  same_world b w w' →
  csid_header w' = csid_header w ∧ this w' = this w ∧ chunk_size w' = chunk_size w.
Proof. intros [_ (s & v & ->)]. by destruct b. Qed.

Lemma streaming_length b str k w : streaming b str k w → length (buf b w) = k.
Proof. intros (_ & -> & _ & Hk & _). rewrite length_take. lia. Qed.

Lemma streaming_take b str k n w :
  streaming b str k w → (k ≤ n ≤ length str)%nat →
  buf b w ++ take (n - k) (rx (sock w)) = take n str ∧
  drop (n - k) (rx (sock w)) = drop n str.
Proof.
  intros (_ & -> & -> & Hk & _) Hn. rewrite drop_drop. replace (k + (n - k))%nat with n by lia.
  split; [| done]. rewrite <- (firstn_skipn k (take n str)) at 1.
  rewrite take_take, Nat.min_l by lia. f_equal.
  rewrite skipn_firstn_comm. done.
Qed.

Lemma streaming_read (c : which → Z → Z → M (world S) Z) b str k n z w :
  streaming b str k w → (k ≤ n ≤ length str)%nat →
  (Z.of_nat n <= Z.of_nat (length (buf b w)) → c b (Z.of_nat n) z w = (Ok z, w)) →
  (small b (Z.of_nat n) w → healthy (sock w) →
   Z.of_nat (length (buf b w)) < Z.of_nat n →
   Z.of_nat n <= Z.of_nat (length (buf b w) + length (rx (sock w))) →
   let need := Z.to_nat (Z.of_nat n - Z.of_nat (length (buf b w))) in
   ∃ s', rx s' = drop need (rx (sock w)) ∧ tx s' = tx (sock w) ∧ healthy s' ∧
     c b (Z.of_nat n) z w =
       (Ok (Z.of_nat need), with_buf b (buf b w ++ take need (rx (sock w))) (with_sock s' w))) →
  ∃ z' w', c b (Z.of_nat n) z w = (Ok z', w') ∧ streaming b str n w' ∧ same_world b w w' ∧
    ((k < n)%nat → z' = Z.of_nat (n - k)).
Proof.
  intros Hs Hn Henough Hmore.
  pose proof (streaming_length _ _ _ _ Hs) as Hl.
  destruct (streaming_take _ _ _ n _ Hs Hn) as [Ht Hd].
  destruct (decide (k = n)) as [<- | Hne].
  { exists z, w. split_and!; [apply Henough; lia | done | apply same_world_refl | lia]. }
  destruct Hs as (Hh & Hb & Hrx & Hk & Hm).
  destruct Hmore as (s' & Hrx' & Htx & Hh' & E).
  { split; lia. }
  { done. }
  { lia. }
  { rewrite Hrx, length_drop. lia. }
  replace (Z.to_nat (Z.of_nat n - Z.of_nat (length (buf b w)))) with (n - k)%nat in * by lia.
  rewrite Ht in E. rewrite Hd in Hrx'.
  eexists _, _. split; [exact E |]. split_and!; [| | done].
  - unfold streaming. rewrite buf_with_buf, sock_with_buf. cbn [sock with_sock].
    split_and!; [done | done | done | lia | done].
  - split; [by rewrite sock_with_buf | by eexists _, _].
Qed.

Lemma read_nbytes_cycle_streaming b str k n z w :
  streaming b str k w → (k ≤ n ≤ length str)%nat →
  ∃ z' w', read_nbytes_cycle_on b (Z.of_nat n) z w = (Ok z', w') ∧ streaming b str n w' ∧
    same_world b w w' ∧ ((k < n)%nat → z' = Z.of_nat (n - k)).
Proof.
  intros Hs Hn. apply (streaming_read (λ b n z, read_nbytes_cycle_on b n z) b str k n); auto.
  - apply read_nbytes_cycle_enough.
  - intros. by apply read_nbytes_cycle_ok.
Qed.

Lemma read_nbytes_streaming b str k n z w :
  streaming b str k w → (k ≤ n ≤ length str)%nat →
  ∃ z' w', read_nbytes_on b (Z.of_nat n) z w = (Ok z', w') ∧ streaming b str n w' ∧
    same_world b w w' ∧ ((k < n)%nat → z' = Z.of_nat (n - k)).
Proof.
  intros Hs Hn. apply (streaming_read (λ b n z, read_nbytes_on b n z) b str k n); auto.
  - apply read_nbytes_enough.
  - intros. by apply read_nbytes_ok.
Qed.

(** A byte that is in the buffer. *)
Lemma next_streaming b str k i w x :
  streaming b str k w → (i < k)%nat → str !! i = Some x →
  next (buf b w) i = (Ok x, (i + 1)%nat).
Proof.
  intros (_ & -> & _ & Hk & _) Hi Hx.
  apply (next_at _ _ _ (drop (Datatypes.S i) (take k str))). split.
  - rewrite length_take. lia.
  - apply drop_S. by rewrite lookup_take_lt.
Qed.
End stream.

(** ** Properties *)
Section properties.
Context {S : Type} `{!StSocket S, !StSocketLaws S}.

(** [read_nbytes_cycle] (and its copy for [audio_video_buffer]) moves
    bytes from the connection to the buffer without losing, repeating or
    reordering any: when it returns 0 the buffer has at least the requested
    size, grown by exactly the bytes taken off the stream; on -1 the buffer is
    as before; and the only other outcome is that the loop never ends, which
    happens only after the peer closed before sending enough. *)
Theorem read_nbytes_cycle_result (b : which) (n nread0 : Z) (w w' : world S) (r : outcome Z) :
  n < max_size → Z.of_nat (length (buf b w)) < max_size →
  read_nbytes_cycle_on b n nread0 w = (r, w') →
  ∃ s' got, rx (sock w) = got ++ rx s' ∧ tx s' = tx (sock w) ∧
    match r with
    | Ok z =>
        w' = with_buf b (buf b w ++ got) (with_sock s' w) ∧
        n <= Z.of_nat (length (buf b w')) ∧
        (Z.of_nat (length (buf b w)) < n →
         Z.of_nat (length (buf b w')) = n ∧ z = Z.of_nat (length got))
    | Fail => w' = with_sock s' w
    | Hang => w' = with_sock s' w ∧ at_eof s' ∧
        Z.of_nat (length (buf b w) + length got) < n
    | _ => False
    end.
Proof.
  intros Hn Hb H.
  destruct (read_nbytes_cycle_spec b n nread0 w r w' (conj Hn Hb) H) as (s' & got & Hrx & Htx & Hr).
  exists s', got. split_and!; [done | done |]. destruct r as [z | | | |]; try done.
  destruct Hr as [-> Hr]. rewrite buf_with_buf, length_app. split; [done |].
  destruct Hr as [(? & -> & _) | (? & ? & ?)]; simpl; lia.
Qed.

(** When the peer has closed the connection, the loop of
    [read_nbytes_cycle] runs for ever: no number of rounds ends it, because
    [st_read_fully] returns 0 and 0 is taken for a short read.  (The loop
    contains no blocking call then, so no other coroutine runs again.) *)
Theorem read_nbytes_cycle_spins_at_eof (fuel n : nat) (acc : list byte) (w : world S) :
  at_eof (sock w) → (length acc < n)%nat → read_cycle fuel n acc w = (Hang, w).
Proof. apply read_cycle_hangs. Qed.

(** [IO_Socket::read] never succeeds: it passes the address of [nread]
    to [push_back] as the number of bytes, so on any data received it copies
    from beyond its 4096-byte array. *)
Theorem IO_Socket_read_overruns (nread_addr : Z) (w : world S) (bs : list byte) (s' : S) :
  st_read (sock w) SOCKET_READ_SIZE = (Some bs, s') → (0 < length bs ≤ SOCKET_READ_SIZE)%nat →
  4096 < nread_addr → Z.of_nat (length (io_buffer w)) + nread_addr < max_size →
  read nread_addr w = (Undef, with_sock s' w).
Proof.
  intros E Hl Ha Hm. unfold read, bind, on_sock. rewrite E.
  destruct (Nat.eqb_spec (length bs) 0) as [| _]; [lia |].
  unfold push. cbn [buf io_buffer with_sock]. unfold append.
  rewrite wrap_small by (unfold max_size in *; lia).
  rewrite (proj2 (Z.leb_gt _ _)) by lia.
  rewrite length_app, length_replicate, (proj2 (Z.leb_gt _ _)); [done |].
  unfold SOCKET_READ_SIZE in *. lia.
Qed.
End properties.

(** ** Witnesses: a connection of StIo.v *)
Definition world_on (k : ksock) : world ksock := World k [] 128 IO_Message_new ∅ [] [] 0.

(** Three bytes, then the peer closes. *)
Definition closing : ksock := KSock [RdData x01 [x02]; RdData x03 []; RdEof] [] [] [].

Definition closed : ksock := KSock [RdEof] [] [] [].

Lemma read_nbytes_cycle_closing :
  read_nbytes_cycle_on IoBuf 3 0 (world_on closing)
    = (Ok 3, with_buf IoBuf [x01; x02; x03] (world_on closed)).
Proof. vm_compute. reflexivity. Qed.

Lemma read_nbytes_cycle_result_witness :
  ∃ s' got,
    rx (sock (world_on closing)) = got ++ rx s' ∧ tx s' = tx (sock (world_on closing)) ∧
    with_buf IoBuf [x01; x02; x03] (world_on closed)
      = with_buf IoBuf (buf IoBuf (world_on closing) ++ got) (with_sock s' (world_on closing)).
Proof.
  destruct (read_nbytes_cycle_result IoBuf 3 0 (world_on closing) _ _
    ltac:(done) ltac:(done) read_nbytes_cycle_closing) as (s' & got & H1 & H2 & H3 & _).
  exists s', got. split; [exact H1 |]. split; [exact H2 | exact H3].
Defined.

Lemma read_nbytes_cycle_spins_at_eof_witness :
  read_cycle 1000 1 [] (world_on closed)
    = (Hang, world_on (KSock [RdEof] [] [] [])).
Proof.
  apply (read_nbytes_cycle_spins_at_eof 1000 1 []).
  - exact I.
  - cbn. lia.
Defined.

Lemma IO_Socket_read_overruns_witness :
  read 140737488347136 (world_on closing) = (Undef, world_on (KSock [RdData x03 []; RdEof] [] [] [])).
Proof.
  apply (IO_Socket_read_overruns 140737488347136 (world_on closing) [x01; x02]);
    [reflexivity | cbn; unfold SOCKET_READ_SIZE; lia | lia | reflexivity].
Defined.

(** A connection that delivers [str] at once, and a world that has read none of it. *)
Definition feed (str : list byte) : ksock :=
  KSock match str with [] => [] | b :: bs => [RdData b bs] end [] [] [].

Lemma feed_healthy str : healthy (feed str).
Proof. split_and!; cbn; destruct str; repeat constructor; done. Qed.

Lemma feed_rx str : rx (feed str) = str.
Proof. destruct str; [done |]. cbn. by rewrite app_nil_r. Qed.

Lemma feed_streaming b str :
  Z.of_nat (length str) < max_size → streaming b str 0 (world_on (feed str)).
Proof.
  intros Hm. split_and!; [apply feed_healthy | by destruct b | | lia | done].
  cbn [sock world_on]. by rewrite feed_rx.
Qed.
