(* ===== verification/Emit.v ===== *)
(** * Writing into the client's buffer

    [emits c l]: the code [c] appends exactly [l] to [io_buffer] and returns 0.
    The lemmas follow the shape of the code, so that the bytes of a message are
    computed by walking through the function that writes it. *)

From stdpp Require Import base list gmap.
From Stdlib Require Import Lia ZArith.
From S2P Require Import Prelude.
From S2P Require Import Bytes.
From S2P Require Import Util.
From S2P Require Import State.
From S2P Require Import IoBuffer.
From S2P Require Import IoSocket.

Local Open Scope Z_scope.

Section emit.
Context {S : Type}.
Implicit Types (w : world S) (l : list byte).

(** [io_buffer->push_back(p, n)] where [p] points to [n] bytes. *)
Definition push_bytes l : M (world S) unit := push IoBuf l (Z.of_nat (length l)).

Definition emits (c : M (world S) unit) l : Prop :=
  ∀ w, Z.of_nat (length (io_buffer w)) + Z.of_nat (length l) < max_size →
    c w = (Ok tt, with_io_buffer (io_buffer w ++ l) w).

Lemma emits_ret : emits (ret tt) [].
Proof. intros w _. cbn. rewrite app_nil_r. by destruct w. Qed.

Lemma emits_push l n :
  0 <= n <= Z.of_nat (length l) → emits (push IoBuf l n) (take (Z.to_nat n) l).
Proof.
  intros Hn w Hw. unfold push. cbn [buf]. rewrite append_ok; [done | lia |].
  rewrite length_take in Hw. lia.
Qed.

Lemma emits_push_all l n : n = Z.of_nat (length l) → emits (push IoBuf l n) l.
Proof.
  intros ->. pose proof (emits_push l (Z.of_nat (length l)) ltac:(lia)) as H.
  by rewrite Nat2Z.id, firstn_all in H.
Qed.

Lemma emits_push_bytes l : emits (push_bytes l) l.
Proof. by apply emits_push_all. Qed.

Lemma emits_seq c1 c2 l1 l2 :
  emits c1 l1 → emits c2 l2 → emits (c1 ;; c2) (l1 ++ l2).
Proof.
  intros H1 H2 w Hw. rewrite length_app in Hw. unfold bind.
  rewrite H1 by lia. rewrite H2 by (cbn [io_buffer with_io_buffer]; rewrite length_app; lia).
  destruct w. cbn. by rewrite app_assoc.
Qed.

Lemma emits_bind_unit c (k : unit → M (world S) unit) l1 l2 :
  emits c l1 → emits (k tt) l2 → emits (bind c k) (l1 ++ l2).
Proof.
  intros H1 H2 w Hw. unfold bind. rewrite length_app in Hw.
  rewrite H1 by lia. rewrite H2 by (cbn [io_buffer with_io_buffer]; rewrite length_app; lia).
  destruct w. cbn. by rewrite app_assoc.
Qed.

Lemma emits_lift {A : Type} (o : outcome A) (a : A) (k : A → M (world S) unit) l :
  o = Ok a → emits (k a) l → emits (bind (lift o) k) l.
Proof. intros -> H w Hw. unfold bind. cbn. by apply H. Qed.

Lemma emits_if (b : bool) c1 c2 l1 l2 :
  emits c1 l1 → emits c2 l2 → emits (if b then c1 else c2) (if b then l1 else l2).
Proof. by destruct b. Qed.

(** Running a piece of code that emits [l] before other code. *)
Lemma emits_then {A : Type} c l (k : unit → M (world S) A) w :
  emits c l → Z.of_nat (length (io_buffer w)) + Z.of_nat (length l) < max_size →
  bind c k w = k tt (with_io_buffer (io_buffer w ++ l) w).
Proof. intros Hc Hw. by rewrite (bind_ok _ _ _ _ _ (Hc w Hw)). Qed.

Lemma emits_eq c l l' : emits c l → l = l' → emits c l'.
Proof. by intros ? ->. Qed.

Lemma emits_for_each {A : Type} (c : A → M (world S) unit) (f : A → list byte) (xs : list A) :
  Forall (λ x, emits (c x) (f x)) xs → emits (for_each c xs) (xs ≫= f).
Proof.
  induction 1 as [| x xs Hx _ IH]; [apply emits_ret |]. cbn. by apply emits_bind_unit.
Qed.

(** The common form of an integer field: swap it into a local array of its
    size and push the array. *)
Lemma emits_swap f n m z d :
  swaps f n → (n ≤ m)%nat → length d = n →
  emits (x <- lift (f (Some (le_bytes m z)) (Some d)) ;; push IoBuf x (Z.of_nat n)) (be_bytes n z).
Proof.
  intros Hf Hm Hd. eapply emits_lift; [by apply swaps_le_bytes_low |].
  apply emits_push_all. by rewrite length_be_bytes.
Qed.

(** [int16_t v = z; char b[2] = {0}; se2be_2bytes(&v, b); push_back(b, 2);] and
    the same for other sizes. *)
Definition put_int16 (z : Z) : M (world S) unit :=
  b <- lift (se2be_2bytes (Some (le_bytes 2 z)) (Some (replicate 2 x00))) ;; push IoBuf b 2.
Definition put_int32 (z : Z) : M (world S) unit :=
  b <- lift (se2be_4bytes (Some (le_bytes 4 z)) (Some (replicate 4 x00))) ;; push IoBuf b 4.
Definition put_int64 (z : Z) : M (world S) unit :=
  b <- lift (se2be_8bytes (Some (le_bytes 8 z)) (Some (replicate 8 x00))) ;; push IoBuf b 8.

Lemma emits_put_int16 z : emits (put_int16 z) (be_bytes 2 z).
Proof. unfold put_int16. apply (emits_swap se2be_2bytes 2 2); [apply se2be_2bytes_swaps | lia | done]. Qed.
Lemma emits_put_int32 z : emits (put_int32 z) (be_bytes 4 z).
Proof. unfold put_int32. apply (emits_swap se2be_4bytes 4 4); [apply se2be_4bytes_swaps | lia | done]. Qed.
Lemma emits_put_int64 z : emits (put_int64 z) (be_bytes 8 z).
Proof. unfold put_int64. apply (emits_swap se2be_8bytes 8 8); [apply se2be_8bytes_swaps | lia | done]. Qed.

(** [push_back(s.c_str(), n)] *)
Lemma emits_c_str l n :
  n = Z.of_nat (length l) → emits (push IoBuf (l ++ [x00]) n) l.
Proof.
  intros ->. eapply emits_eq; [apply emits_push; rewrite length_app; lia |].
  by rewrite Nat2Z.id, take_app_length.
Qed.
End emit.

#[export] Hint Resolve emits_ret emits_push_bytes emits_put_int16 emits_put_int32 emits_put_int64 : rtmp.
