(* ===== verification/Header.v ===== *)
(** * io_message.cpp: chunk headers

    [write_header], and the two readers: one works on the client's [io_buffer]
    and keeps what it reads in locals, the other works on [audio_video_buffer]
    and keeps the fields in [csid_header]. *)

From stdpp Require Import base list gmap.
From Stdlib Require Import Lia ZArith.
From S2P Require Import Prelude.
From S2P Require Import Bytes.
From S2P Require Import Util.
From S2P Require Import StApi.
From S2P Require Import StIo.
From S2P Require Import State.
From S2P Require Import IoBuffer.
From S2P Require Import IoSocket.
From S2P Require Import Emit.

Local Open Scope Z_scope.

(** [mh_size_array[fmt]] *)
Definition mh_size_array (fmt : Z) : outcome Z :=
  match (if fmt <? 0 then None else [11; 7; 3; 0] !! Z.to_nat fmt) with
  | Some n => Ok n
  | None => Undef
  end.

(** [pp[3] = 0; pp[2] = *p++; pp[1] = *p++; pp[0] = *p++;] *)
Definition read_u24 (buf : list byte) : M nat Z :=
  p2 <- next buf ;; p1 <- next buf ;; p0 <- next buf ;;
  ret (of_le_s 32 [p0; p1; p2; x00]).

(** [pp[3] = *p++; ... pp[0] = *p++;] *)
Definition read_be32 (buf : list byte) : M nat Z :=
  p3 <- next buf ;; p2 <- next buf ;; p1 <- next buf ;; p0 <- next buf ;;
  ret (of_le_s 32 [p0; p1; p2; p3]).

(** [pp[0] = *p++; ... pp[3] = *p++;] *)
Definition read_le32 (buf : list byte) : M nat Z :=
  p0 <- next buf ;; p1 <- next buf ;; p2 <- next buf ;; p3 <- next buf ;;
  ret (of_le_s 32 [p0; p1; p2; p3]).

Section header.
Context {S : Type} `{!StSocket S}.

(** Run [c] with [p] pointing at offset [off] of the buffer. *)
Definition at_ptr {A : Type} (b : which) (off : nat) (c : list byte → M nat A) : M (world S) (A * nat) := λ w,
  let '(o, p) := c (buf b w) off in (omap (λ a, (a, p)) o, w).

Definition write_header (fmt csid timestamp message_length message_type stream_id : Z)
    : M (world S) unit :=
  (if (2 <=? csid) && (csid <=? 63)
   then push IoBuf [to_byte (Z.lor (Z.shiftl fmt 6) csid)] 1
   else if csid <=? 319
   then push IoBuf [to_byte (Z.land (Z.shiftl fmt 6) 0xc0); to_byte (csid - 64)] 2
   else push IoBuf (to_byte (Z.lor (Z.shiftl fmt 6) 1) :: le_bytes 2 (csid - 64)) 3) ;;
  mh_size <- lift (mh_size_array fmt) ;;
  let extendedstamp := (0 <? mh_size) && (0xffffff <? timestamp) in
  (if 0 <? mh_size then
     (if 0xffffff <? timestamp then
        ts <- lift (se2be_3bytes (Some (le_bytes 4 0xffffff)) (Some (replicate 3 x00))) ;;
        push IoBuf ts 3
      else
        ts <- lift (se2be_3bytes (Some (le_bytes 4 timestamp)) (Some (replicate 3 x00))) ;;
        push IoBuf ts 3) ;;
     (if 7 <=? mh_size then
        (ml <- lift (se2be_3bytes (Some (le_bytes 4 message_length)) (Some (replicate 3 x00))) ;;
         push IoBuf ml 3) ;;
        push IoBuf [to_byte message_type] 1
      else ret tt) ;;
     (if 7 <? mh_size then push IoBuf (le_bytes 4 stream_id) 4 else ret tt)
   else ret tt) ;;
  if extendedstamp then
    e_ts <- lift (se2be_4bytes (Some (le_bytes 4 timestamp)) (Some (replicate 4 x00))) ;;
    push IoBuf e_ts 4
  else ret tt.

(** [read_basic_header] and [read_audio_video_basic_header]: [*fmt], [*csid]
    and [*bh_size]. *)
Definition read_basic_header_on (b : which) : M (world S) (Z * Z * Z) :=
  nread <- read_nbytes_cycle_on b 1 0 ;;
  ' (bh, _) <- at_ptr b 0 next ;;
  let fmt := Z.land (Z.shiftr (sc bh) 6) 0x03 in
  let csid := Z.land (sc bh) 0x3F in
  if csid <=? 1 then
    if csid =? 0 then
      read_nbytes_on b 2 nread ;;
      ' (c1, _) <- at_ptr b 1 next ;;
      ret (fmt, 64 + sc c1, 2)
    else if csid =? 1 then
      read_nbytes_on b 3 nread ;;
      ' (c1, _) <- at_ptr b 1 next ;;
      ' (c2, _) <- at_ptr b 2 next ;;
      ret (fmt, 64 + sc c1 + sc c2 * 256, 3)
    else fail
  else ret (fmt, csid, 1).

Definition read_basic_header := read_basic_header_on IoBuf.
Definition read_audio_video_basic_header := read_basic_header_on AvBuf.

(** [IO_Message::read_message_header]: [*mh_size], and the locals of the log
    line at its end. *)
Definition read_message_header (fmt csid bh_size : Z) : M (world S) (Z * (Z * Z * Z)) :=
  mh_size <- lift (mh_size_array fmt) ;;
  let nbytes := bh_size + mh_size in
  nread <- read_nbytes_cycle_on IoBuf nbytes 0 ;;
  ' (timestamp, timestamp_delta, message_type, stream_id) <-
    (if fmt <=? 2 then
       ' (v, p) <- at_ptr IoBuf (Z.to_nat bh_size) read_u24 ;;
       let timestamp := if fmt =? 0 then v else 0 in
       let timestamp_delta := if fmt =? 0 then 0 else v in
       let timestamp_delta :=
         if (0 <? fmt) && (0xFFFFFF <=? timestamp_delta) then 0xFFFFFF else timestamp_delta in
       if fmt <=? 1 then
         ' (message_length, p) <- at_ptr IoBuf p read_u24 ;;
         hs <- gets csid_header ;;
         match hs !! csid with
         | None =>
             modify (λ w, with_csid_header
               (<[csid := set_message_length message_length Message_Header_new]> (csid_header w)) w)
         | Some _ => csid_header_set csid (set_message_length message_length)
         end ;;
         ' (message_type, p) <- at_ptr IoBuf p next ;;
         if fmt <? 1 then
           ' (stream_id, p) <- at_ptr IoBuf p read_le32 ;;
           ret (timestamp, timestamp_delta, sc message_type, stream_id)
         else ret (timestamp, timestamp_delta, sc message_type, 0)
       else ret (timestamp, timestamp_delta, 0, 0)
     else ret (0, 0, 0, 0)) ;;
  if timestamp_delta =? 0xFFFFFF then
    read_nbytes_cycle_on IoBuf (nbytes + 4) nread ;;
    ' (timestamp_delta, _) <- at_ptr IoBuf (Z.to_nat (bh_size + mh_size)) read_be32 ;;
    ret (mh_size + 4, (swrap 32 (timestamp + timestamp_delta), message_type, stream_id))
  else ret (mh_size, (swrap 32 (timestamp + timestamp_delta), message_type, stream_id)).

(** The first two calls of [IO_Message::recv_message]. *)
Definition read_header : M (world S) (Z * Z * Z * Z * (Z * Z * Z)) :=
  ' (fmt, csid, bh_size) <- read_basic_header ;;
  ' (mh_size, vals) <- read_message_header fmt csid bh_size ;;
  ret (fmt, csid, bh_size, mh_size, vals).

(** [IO_Message::recv_message]; [read_payload] is the virtual function:
    [csid], [bh_size], [mh_size], [message_length], [chunk_size]. *)
Definition recv_message (read_payload : Z → Z → Z → Z → Z → M (world S) unit) : M (world S) unit :=
  ' (_, csid, bh_size, mh_size, _) <- read_header ;;
  h <- csid_header_at csid ;;
  w <- gets id ;;
  read_payload csid bh_size mh_size (message_length h) (chunk_size w).

(** [IO_Message::read_audio_video_message_header]: [*mh_size]; the fields go to
    [csid_header[csid]]. *)
Definition read_audio_video_message_header (fmt csid bh_size : Z) : M (world S) Z :=
  mh_size <- lift (mh_size_array fmt) ;;
  let nbytes := bh_size + mh_size in
  nread <- read_nbytes_cycle_on AvBuf nbytes 0 ;;
  let add_delta : M (world S) unit :=
    h <- csid_header_at csid ;;
    csid_header_set csid (set_timestamp (swrap 32 (timestamp h + timestamp_delta h))) in
  if fmt =? 3 then
    hs <- gets csid_header ;;
    match hs !! csid with
    | None => fail
    | Some _ => add_delta ;; ret mh_size
    end
  else
    (if fmt <=? 2 then
       hs <- gets csid_header ;;
       match hs !! csid with
       | None => csid_header_at csid ;; ret tt
       | Some _ => ret tt
       end ;;
       ' (v, p) <- at_ptr AvBuf (Z.to_nat bh_size) read_u24 ;;
       csid_header_set csid (if fmt =? 0 then set_timestamp v else set_timestamp_delta v) ;;
       (if fmt =? 0 then
          h <- csid_header_at csid ;; csid_header_set csid (set_timestamp_delta (timestamp h))
        else ret tt) ;;
       h <- csid_header_at csid ;;
       (if (0 <? fmt) && (0xFFFFFF <=? timestamp_delta h)
        then csid_header_set csid (set_timestamp_delta 0xFFFFFF) else ret tt) ;;
       if fmt <=? 1 then
         ' (v, p) <- at_ptr AvBuf p read_u24 ;;
         csid_header_set csid (set_message_length v) ;;
         ' (v, p) <- at_ptr AvBuf p next ;;
         csid_header_set csid (set_message_type (sc v)) ;;
         if fmt <? 1 then
           ' (v, p) <- at_ptr AvBuf p read_le32 ;;
           csid_header_set csid (set_stream_id v)
         else ret tt
       else ret tt
     else ret tt) ;;
    h <- csid_header_at csid ;;
    mh_size <- (if timestamp_delta h =? 0xFFFFFF then
       read_nbytes_cycle_on AvBuf (nbytes + 4) nread ;;
       ' (v, _) <- at_ptr AvBuf (Z.to_nat (bh_size + mh_size)) read_be32 ;;
       csid_header_set csid (set_timestamp_delta v) ;;
       ret (mh_size + 4)
     else ret mh_size) ;;
    add_delta ;; ret mh_size.

(** The first two calls of [IO_Message::recv_audio_video]: [csid], [bh_size]
    and [mh_size]. *)
Definition read_audio_video_header : M (world S) (Z * Z * Z) :=
  ' (fmt, csid, bh_size) <- read_audio_video_basic_header ;;
  mh_size <- read_audio_video_message_header fmt csid bh_size ;;
  ret (csid, bh_size, mh_size).
End header.

(** ** The chunk header of the RTMP specification, section 5.3.1 *)

(** The two bits of [fmt] and the six bits that follow them. *)
Definition first_byte (fmt low : Z) : byte := to_byte (fmt * 64 + low).

Definition basic_header (fmt csid : Z) : list byte :=
  if (2 <=? csid) && (csid <=? 63) then [first_byte fmt csid]
  else if csid <=? 319 then [first_byte fmt 0; to_byte (csid - 64)]
  else first_byte fmt 1 :: le_bytes 2 (csid - 64).

Definition message_header (fmt timestamp message_length message_type stream_id : Z) : list byte :=
  (if fmt <=? 2 then be_bytes 3 (Z.min timestamp 0xffffff) else []) ++
  (if fmt <=? 1 then be_bytes 3 message_length ++ [to_byte message_type] else []) ++
  (if fmt <=? 0 then le_bytes 4 stream_id else []).

Definition extended_timestamp (fmt timestamp : Z) : list byte :=
  if (fmt <=? 2) && (0xffffff <? timestamp) then be_bytes 4 timestamp else [].

Definition chunk_header (fmt csid timestamp message_length message_type stream_id : Z) : list byte :=
  basic_header fmt csid ++
  message_header fmt timestamp message_length message_type stream_id ++
  extended_timestamp fmt timestamp.

(** ** Bit arithmetic *)
Lemma lor_shiftl_6 fmt low : 0 <= low < 64 → Z.lor (Z.shiftl fmt 6) low = fmt * 64 + low.
Proof.
  intros Hl.
  assert (Z.land (Z.shiftl fmt 6) low = 0) as H0.
  { apply Z.bits_inj'. intros i Hi. rewrite Z.bits_0, Z.land_spec, Z.shiftl_spec by lia.
    destruct (decide (i < 6)).
    - by rewrite Z.testbit_neg_r by lia.
    - replace low with (low mod 2 ^ 6) by (apply Z.mod_small; lia).
      rewrite Z.mod_pow2_bits_high by lia. apply andb_false_r. }
  rewrite <- Z.lxor_lor, <- Z.add_nocarry_lxor by done.
  by rewrite Z.shiftl_mul_pow2 by lia.
Qed.

Lemma fmt_cases fmt : 0 <= fmt <= 3 → fmt = 0 ∨ fmt = 1 ∨ fmt = 2 ∨ fmt = 3.
Proof. lia. Qed.

Lemma land_c0 fmt : 0 <= fmt <= 3 → Z.land (Z.shiftl fmt 6) 0xc0 = fmt * 64.
Proof. intros H. by destruct (fmt_cases _ H) as [-> | [-> | [-> | ->]]]. Qed.

Lemma sc_mod b n : (n | 256) → 0 < n → sc b mod n = uc b mod n.
Proof.
  intros [k Hk] Hn. unfold sc. case_match; [done |].
  rewrite Hk. rewrite <- (Z.mod_add (uc b - k * n) k n) by lia. f_equal. lia.
Qed.

Lemma first_byte_fmt fmt low :
  0 <= fmt <= 3 → 0 <= low < 64 → Z.land (Z.shiftr (sc (first_byte fmt low)) 6) 0x03 = fmt.
Proof.
  intros Hf Hl. change 0x03 with (Z.ones 2). rewrite Z.land_ones, Z.shiftr_div_pow2 by lia.
  change (2 ^ 2) with 4. change (2 ^ 6) with 64.
  assert (uc (first_byte fmt low) = fmt * 64 + low) as Hu.
  { unfold first_byte. rewrite uc_to_byte. apply Z.mod_small. lia. }
  unfold sc. rewrite Hu. case_match.
  - rewrite Z.add_comm, Z.div_add, Z.div_small by lia. apply Z.mod_small. lia.
  - replace (fmt * 64 + low - 256) with (low + (fmt - 4) * 64) by lia.
    rewrite Z.div_add, Z.div_small by lia.
    replace (0 + (fmt - 4)) with (fmt + -1 * 4) by lia.
    rewrite Z.mod_add by lia. apply Z.mod_small. lia.
Qed.

Lemma first_byte_low fmt low :
  0 <= low < 64 → Z.land (sc (first_byte fmt low)) 0x3F = low.
Proof.
  intros Hl. change 0x3F with (Z.ones 6). rewrite Z.land_ones by lia. change (2 ^ 6) with 64.
  rewrite sc_mod by (by exists 4 || lia). unfold first_byte. rewrite uc_to_byte.
  rewrite <- Znumtheory.Zmod_div_mod; [| lia | lia | by exists 4].
  rewrite Z.add_comm, Z.mod_add by lia. apply Z.mod_small. lia.
Qed.

(** ** Reading fields *)
Lemma u24_image z : of_le_s 32 (le_bytes 3 z ++ [x00]) = z mod 2 ^ 24.
Proof.
  unfold of_le_s. rewrite swrap_small; [| lia |].
  - cbn [le_bytes app of_le]. change (uc x00) with 0.
    pose proof (of_le_le_bytes 3 z) as H. cbn [le_bytes of_le] in H.
    change (256 ^ Z.of_nat 3) with (2 ^ 24) in H. lia.
  - cbn [le_bytes app of_le]. change (uc x00) with 0.
    pose proof (of_le_range (le_bytes 3 z)) as H. cbn [le_bytes of_le length] in H. lia.
Qed.

Lemma read_u24_at buf p z rest :
  cursor_at buf p (be_bytes 3 z ++ rest) → read_u24 buf p = (Ok (z mod 2 ^ 24), (p + 3)%nat).
Proof.
  intros H. rewrite <- u24_image. unfold be_bytes in H. cbn [le_bytes rev app] in H.
  unfold read_u24.
  rewrite (bind_ok _ _ _ _ _ (next_at _ _ _ _ H)). apply (cursor_at_skip _ _ [_]) in H.
  rewrite (bind_ok _ _ _ _ _ (next_at _ _ _ _ H)). apply (cursor_at_skip _ _ [_]) in H.
  rewrite (bind_ok _ _ _ _ _ (next_at _ _ _ _ H)).
  cbn. f_equal. lia.
Qed.

Lemma read_be32_at buf p z rest :
  cursor_at buf p (be_bytes 4 z ++ rest) → read_be32 buf p = (Ok (swrap 32 z), (p + 4)%nat).
Proof.
  intros H. unfold be_bytes in H. cbn [le_bytes rev app] in H. unfold read_be32.
  do 4 (rewrite (bind_ok _ _ _ _ _ (next_at _ _ _ _ H)); apply (cursor_at_skip _ _ [_]) in H).
  cbn [ret]. f_equal; [f_equal | simpl; lia].
  change (of_le_s 32 (le_bytes 4 z) = swrap 32 z). unfold of_le_s. rewrite of_le_le_bytes.
  unfold swrap, wrap. by rewrite Z.mod_mod by lia.
Qed.

Lemma read_le32_at buf p z rest :
  cursor_at buf p (le_bytes 4 z ++ rest) → read_le32 buf p = (Ok (swrap 32 z), (p + 4)%nat).
Proof.
  intros H. cbn [le_bytes app] in H. unfold read_le32.
  do 4 (rewrite (bind_ok _ _ _ _ _ (next_at _ _ _ _ H)); apply (cursor_at_skip _ _ [_]) in H).
  cbn [ret]. f_equal; [f_equal | simpl; lia].
  change (of_le_s 32 (le_bytes 4 z) = swrap 32 z). unfold of_le_s. rewrite of_le_le_bytes.
  unfold swrap, wrap. by rewrite Z.mod_mod by lia.
Qed.

(** ** Writing *)
Lemma length_message_header fmt ts ml mt sid :
  0 <= fmt <= 3 → mh_size_array fmt = Ok (Z.of_nat (length (message_header fmt ts ml mt sid))).
Proof. intros H. by destruct (fmt_cases _ H) as [-> | [-> | [-> | ->]]]. Qed.

Section write.
Context {S : Type}.

Lemma emits_u24 z d :
  length d = 3%nat →
  @emits S (x <- lift (se2be_3bytes (Some (le_bytes 4 z)) (Some d)) ;; push IoBuf x 3) (be_bytes 3 z).
Proof. intros Hd. apply (emits_swap se2be_3bytes 3 4); [apply se2be_3bytes_swaps | lia | done]. Qed.

Lemma write_header_emits fmt csid ts ml mt sid :
  0 <= fmt <= 3 → 0 <= csid →
  @emits S (write_header fmt csid ts ml mt sid) (chunk_header fmt csid ts ml mt sid).
Proof.
  intros Hf Hc. unfold write_header, chunk_header. apply emits_bind_unit.
  { unfold basic_header, first_byte.
    destruct (Z.leb_spec 2 csid), (Z.leb_spec csid 63), (Z.leb_spec csid 319);
      cbn [andb]; try lia.
    all: try (rewrite lor_shiftl_6 by lia); try (rewrite land_c0 by done);
      rewrite ?Z.add_0_r; by apply emits_push_all. }
  eapply emits_lift; [by apply (length_message_header fmt ts ml mt sid) |].
  set (tsb := be_bytes 3 (Z.min ts 0xffffff)).
  assert (@emits S (if 0xffffff <? ts
    then x <- lift (se2be_3bytes (Some (le_bytes 4 0xffffff)) (Some (replicate 3 x00))) ;; push IoBuf x 3
    else x <- lift (se2be_3bytes (Some (le_bytes 4 ts)) (Some (replicate 3 x00))) ;; push IoBuf x 3)
    tsb) as Hts.
  { unfold tsb. destruct (Z.ltb_spec 0xffffff ts).
    - rewrite Z.min_r by lia. by apply emits_u24.
    - rewrite Z.min_l by lia. by apply emits_u24. }
  apply emits_bind_unit.
  - destruct (fmt_cases _ Hf) as [-> | [-> | [-> | ->]]];
      unfold message_header; cbn -[se2be_3bytes emits bind push le_bytes be_bytes Z.min replicate];
      fold tsb; rewrite ?app_nil_r; try apply emits_ret.
    + apply emits_bind_unit; [exact Hts |]. apply emits_bind_unit.
      * apply emits_bind_unit; [by apply emits_u24 | by apply emits_push_all].
      * by apply emits_push_all.
    + apply emits_bind_unit; [exact Hts |].
      rewrite <- (app_nil_r (be_bytes 3 ml ++ [to_byte mt])). apply emits_bind_unit, emits_ret.
      apply emits_bind_unit; [by apply emits_u24 | by apply emits_push_all].
    + rewrite <- (app_nil_r tsb). apply emits_bind_unit; [exact Hts |].
      apply (emits_seq _ _ [] []); apply emits_ret.
  - unfold extended_timestamp.
    replace (0 <? Z.of_nat (length (message_header fmt ts ml mt sid))) with (fmt <=? 2).
    2:{ by destruct (fmt_cases _ Hf) as [-> | [-> | [-> | ->]]]. }
    apply emits_if, emits_ret.
    apply (emits_swap se2be_4bytes 4 4); [apply se2be_4bytes_swaps | lia | done].
Qed.
End write.

(** ** Reading what was written *)

(** The chunk stream id [read_basic_header] computes: the bytes of the longer
    forms are read as signed [char]s. *)
Definition csid_seen (csid : Z) : Z :=
  if csid <=? 63 then csid
  else if csid <=? 319 then 64 + sc (to_byte (csid - 64))
  else 64 + sc (to_byte (csid - 64)) + sc (to_byte ((csid - 64) / 256)) * 256.

Lemma length_basic_header fmt csid :
  length (basic_header fmt csid) =
    (if (2 <=? csid)%Z && (csid <=? 63)%Z then 1 else if (csid <=? 319)%Z then 2 else 3)%nat.
Proof. unfold basic_header. by repeat case_match. Qed.

Section read.
Context {S : Type} `{!StSocket S, !StSocketLaws S}.
Implicit Types w : world S.

Lemma at_ptr_ok {A : Type} b off (c : list byte → M nat A) w a p :
  c (buf b w) off = (Ok a, p) → at_ptr b off c w = (Ok (a, p), w).
Proof. unfold at_ptr. by intros ->. Qed.

(** Reading one byte that has arrived. *)
Lemma at_ptr_next b str k i w x :
  streaming b str k w → (i < k)%nat → str !! i = Some x →
  at_ptr b i next w = (Ok (x, (i + 1)%nat), w).
Proof. intros. eapply at_ptr_ok, next_streaming; done. Qed.

Ltac run_step H := rewrite (bind_ok _ _ _ _ _ H); cbn beta iota.

Lemma read_basic_header_reads b fmt csid rest w :
  0 <= fmt <= 3 → 2 <= csid →
  streaming b (basic_header fmt csid ++ rest) 0 w →
  ∃ w', read_basic_header_on b w =
      (Ok (fmt, csid_seen csid, Z.of_nat (length (basic_header fmt csid))), w') ∧
    streaming b (basic_header fmt csid ++ rest) (length (basic_header fmt csid)) w' ∧
    same_world b w w'.
Proof.
  intros Hf Hc H0. unfold read_basic_header_on, csid_seen.
  set (str := basic_header fmt csid ++ rest) in *.
  assert (∃ low tl, str = first_byte fmt low :: tl ∧ 0 <= low < 64 ∧
    length (basic_header fmt csid) =
      (if (low =? 0)%Z then 2 else if (low =? 1)%Z then 3 else 1)%nat ∧
    low = (if csid <=? 63 then csid else if csid <=? 319 then 0 else 1) ∧
    (csid <=? 63 = false → csid <=? 319 = true → str !! 1%nat = Some (to_byte (csid - 64))) ∧
    (csid <=? 319 = false → str !! 1%nat = Some (to_byte (csid - 64)) ∧
       str !! 2%nat = Some (to_byte ((csid - 64) / 256)))) as (low & tl & Hstr & Hlow & Hlen & Hlow' & H1b & H2b).
  { unfold str, basic_header. destruct (Z.leb_spec 2 csid), (Z.leb_spec csid 63), (Z.leb_spec csid 319);
      try lia; eexists _, _; (split; [reflexivity |]); split_and!; try lia; try done; simpl.
    destruct (Z.eqb_spec csid 0), (Z.eqb_spec csid 1); done || lia. }
  assert (length (basic_header fmt csid) ≤ length str)%nat as Hle
    by (unfold str; rewrite length_app; lia).
  assert (1 ≤ length str)%nat as Hle1 by (rewrite Hstr; simpl; lia).
  destruct (read_nbytes_cycle_streaming b str 0 1 0 w H0 ltac:(lia)) as (n1 & w1 & E1 & S1 & F1 & _).
  change (Z.of_nat 1) with 1 in E1. run_step E1.
  run_step (at_ptr_next b str 1 0 w1 (first_byte fmt low) S1 ltac:(lia) ltac:(by rewrite Hstr)).
  rewrite first_byte_fmt, first_byte_low by done.
  destruct (Z.leb_spec csid 63) as [? | ?]; [subst low |].
  { rewrite (proj2 (Z.leb_gt csid 1)) by lia. cbn. rewrite Hlen in *.
    rewrite (proj2 (Z.eqb_neq _ _)), (proj2 (Z.eqb_neq _ _)) in * by lia. by exists w1. }
  destruct (Z.leb_spec csid 319) as [? | ?]; subst low; cbn [Z.leb Z.eqb Pos.eqb Z.compare] in *;
    rewrite Hlen in *.
  - destruct (read_nbytes_streaming b str 1 2 n1 w1 S1 ltac:(lia)) as (n2 & w2 & E2 & S2 & F2 & _).
    change (Z.of_nat 2) with 2 in E2. change (0 <=? 1) with true. cbn [Z.eqb]. run_step E2.
    run_step (at_ptr_next b str 2 1 w2 _ S2 ltac:(lia) (H1b eq_refl eq_refl)).
    exists w2. split_and!; [done | done | by eapply same_world_trans].
  - destruct (H2b eq_refl) as [Ha Hb].
    destruct (read_nbytes_streaming b str 1 3 n1 w1 S1 ltac:(lia)) as (n2 & w2 & E2 & S2 & F2 & _).
    change (Z.of_nat 3) with 3 in E2. change (1 <=? 1) with true. cbn [Z.eqb]. run_step E2.
    run_step (at_ptr_next b str 3 1 w2 _ S2 ltac:(lia) Ha).
    run_step (at_ptr_next b str 3 2 w2 _ S2 ltac:(lia) Hb).
    exists w2. split_and!; [done | done | by eapply same_world_trans].
Qed.

Lemma streaming_with_csid_header b str k v w :
  streaming b str k w → streaming b str k (with_csid_header v w).
Proof. by destruct b. Qed.

(** The whole header has arrived. *)
Lemma streaming_cursor b str pre mid tl w :
  str = pre ++ mid ++ tl → streaming b str (length pre + length mid) w →
  cursor_at (buf b w) (length pre) mid.
Proof.
  intros -> (_ & Hb & _). rewrite Hb, app_assoc, take_app_length' by (by rewrite length_app).
  apply cursor_at_app.
Qed.

Lemma at_ptr_u24 b p z rest w :
  cursor_at (buf b w) p (be_bytes 3 z ++ rest) →
  at_ptr b p read_u24 w = (Ok (z mod 2 ^ 24, (p + 3)%nat), w).
Proof. intros. by eapply at_ptr_ok, read_u24_at. Qed.

Lemma at_ptr_be32 b p z rest w :
  cursor_at (buf b w) p (be_bytes 4 z ++ rest) →
  at_ptr b p read_be32 w = (Ok (swrap 32 z, (p + 4)%nat), w).
Proof. intros. by eapply at_ptr_ok, read_be32_at. Qed.

Lemma at_ptr_le32 b p z rest w :
  cursor_at (buf b w) p (le_bytes 4 z ++ rest) →
  at_ptr b p read_le32 w = (Ok (swrap 32 z, (p + 4)%nat), w).
Proof. intros. by eapply at_ptr_ok, read_le32_at. Qed.

Lemma at_ptr_byte b p z rest w :
  cursor_at (buf b w) p (to_byte z :: rest) →
  at_ptr b p next w = (Ok (to_byte z, (p + 1)%nat), w).
Proof. intros. by eapply at_ptr_ok, next_at. Qed.

Definition remember_length (csid ml : Z) (hs : gmap Z Message_Header) : gmap Z Message_Header :=
  <[csid := set_message_length ml (default Message_Header_new (hs !! csid))]> hs.

(** Both branches of the insertion into [csid_header] come to the same. *)
Lemma remember_length_run csid ml w :
  match csid_header w !! csid with
  | None => modify (λ w, with_csid_header
      (<[csid := set_message_length ml Message_Header_new]> (csid_header w)) w)
  | Some _ => csid_header_set csid (set_message_length ml)
  end w = (Ok tt, with_csid_header (remember_length csid ml (csid_header w)) w).
Proof.
  unfold remember_length, csid_header_set, csid_header_at, bind.
  destruct (csid_header w !! csid) eqn:E; [| done]. rewrite E. done.
Qed.

(** What a header leaves in [csid_header]: only types 0 and 1 carry a length. *)
Definition lengths_after (fmt csid ml : Z) (hs : gmap Z Message_Header) : gmap Z Message_Header :=
  if fmt <=? 1 then remember_length csid (ml mod 2 ^ 24) hs else hs.

(** Timestamps the reader understands: a type 0 header must not need an
    extended timestamp, and types 1 and 2 must not carry exactly 0xffffff. *)
Definition timestamp_readable (fmt ts : Z) : Prop :=
  (fmt = 0 → ts <= 0xffffff) ∧ (1 <= fmt <= 2 → ts ≠ 0xffffff).

(** The type 0 reader never looks at an extended timestamp. *)
Lemma read_message_header_type0 csid bhb ts ml mt sid rest w :
  0 <= ts →
  streaming IoBuf (bhb ++ message_header 0 ts ml mt sid ++ rest) (length bhb) w →
  ∃ w', read_message_header 0 csid (Z.of_nat (length bhb)) w =
      (Ok (11, (Z.min ts 0xffffff, sc (to_byte mt), swrap 32 sid)), w') ∧
    streaming IoBuf (bhb ++ message_header 0 ts ml mt sid ++ rest) (length bhb + 11) w' ∧
    same_world IoBuf (with_csid_header (lengths_after 0 csid ml (csid_header w)) w) w'.
Proof.
  intros Hts H0. unfold read_message_header.
  change (mh_size_array 0) with (@Ok Z 11). cbv zeta.
  rewrite (bind_ok _ _ w 11 w) by done.
  set (str := bhb ++ _) in *.
  assert (length (message_header 0 ts ml mt sid) = 11%nat) as Hl by done.
  assert (length bhb ≤ length bhb + 11 ≤ length str)%nat as Hle
    by (unfold str; rewrite !length_app, Hl; lia).
  destruct (read_nbytes_cycle_streaming IoBuf str _ _ 0 w H0 Hle) as (n1 & w1 & E1 & S1 & F1 & _).
  rewrite Nat2Z.inj_add in E1. change (Z.of_nat 11) with 11 in E1. run_step E1.
  change (0 <=? 2) with true. change (0 <=? 1) with true. change (0 <? 1) with true.
  change (0 =? 0) with true. change (0 <? 0) with false. cbv iota beta. cbn [andb].
  rewrite Nat2Z.id. rewrite bind_assoc.
  assert (cursor_at (buf IoBuf w1) (length bhb)
    (be_bytes 3 (Z.min ts 0xffffff) ++ be_bytes 3 ml ++ to_byte mt :: le_bytes 4 sid)) as C0.
  { pose proof (streaming_cursor IoBuf str bhb (message_header 0 ts ml mt sid) rest w1
      eq_refl S1) as C. done. }
  run_step (at_ptr_u24 _ _ _ _ _ C0).
  apply cursor_at_skip in C0. rewrite length_be_bytes in C0. rewrite bind_assoc.
  run_step (at_ptr_u24 _ _ _ _ _ C0).
  apply cursor_at_skip in C0. rewrite length_be_bytes in C0.
  rewrite bind_assoc. rewrite (bind_ok _ _ w1 (csid_header w1) w1) by done. rewrite bind_assoc.
  run_step (remember_length_run csid (ml mod 2 ^ 24) w1). rewrite bind_assoc.
  set (w2 := with_csid_header _ w1).
  assert (streaming IoBuf str (length bhb + 11) w2) as S2 by by apply streaming_with_csid_header.
  change (buf IoBuf w1) with (buf IoBuf w2) in C0.
  run_step (at_ptr_byte _ _ _ _ _ C0). apply (cursor_at_skip _ _ [_]) in C0.
  rewrite bind_assoc. rewrite <- (app_nil_r (le_bytes 4 sid)) in C0.
  run_step (at_ptr_le32 _ _ _ _ _ C0). rewrite bind_ret. cbv iota beta.
  change (0 =? 0xFFFFFF) with false. cbv iota. rewrite Z.add_0_r.
  exists w2. split_and!.
  - cbn [ret]. do 4 f_equal. rewrite Z.mod_small by lia.
    rewrite swrap_small by lia. done.
  - done.
  - destruct F1 as [Ht (s & v & ->)]. split; [done |]. by exists s, v.
Qed.

(** The extended timestamp of a type 1 or 2 header, read into a local or into
    [csid_header]. *)
Lemma extended_timestamp_reads b fmt bhb mid ts rest nread w :
  0xffffff < ts < 2 ^ 31 → 1 <= fmt <= 2 →
  let str := bhb ++ mid ++ extended_timestamp fmt ts ++ rest in
  streaming b str (length bhb + length mid) w →
  ∃ n w', read_nbytes_cycle_on b (Z.of_nat (length bhb) + Z.of_nat (length mid) + 4) nread w = (Ok n, w') ∧
    at_ptr b (Z.to_nat (Z.of_nat (length bhb) + Z.of_nat (length mid))) read_be32 w' =
      (Ok (ts, (length bhb + length mid + 4)%nat), w') ∧
    streaming b str (length bhb + length mid + 4) w' ∧ same_world b w w'.
Proof.
  intros Hts Hf str H0.
  assert (extended_timestamp fmt ts = be_bytes 4 ts) as He.
  { unfold extended_timestamp. rewrite (proj2 (Z.leb_le fmt 2)), (proj2 (Z.ltb_lt _ ts)) by lia. done. }
  assert (str = (bhb ++ mid) ++ be_bytes 4 ts ++ rest) as Hstr
    by (unfold str; rewrite He, <- app_assoc; done).
  assert (length bhb + length mid ≤ length bhb + length mid + 4 ≤ length str)%nat as Hle
    by (rewrite Hstr, !length_app, length_be_bytes; lia).
  destruct (read_nbytes_cycle_streaming b str _ _ nread w H0 Hle) as (n & w' & E & S' & F & _).
  exists n, w'. split; [| split; [| by split]].
  - rewrite <- E. f_equal. lia.
  - rewrite <- Nat2Z.inj_add, Nat2Z.id.
    assert (cursor_at (buf b w') (length (bhb ++ mid)) (be_bytes 4 ts)) as C.
    { apply (streaming_cursor b str (bhb ++ mid) (be_bytes 4 ts) rest); [done |].
      by rewrite length_app, length_be_bytes. }
    rewrite length_app, <- (app_nil_r (be_bytes 4 ts)) in C.
    rewrite (at_ptr_be32 _ _ _ _ _ C), swrap_small by lia. done.
Qed.

Definition reads_as (fmt csid : Z) (bhb : list byte) (ts ml mt sid : Z) (rest : list byte)
    (w : world S) (res : Z * (Z * Z * Z)) : Prop :=
  let hb := message_header fmt ts ml mt sid ++ extended_timestamp fmt ts in
  ∃ w', read_message_header fmt csid (Z.of_nat (length bhb)) w = (Ok res, w') ∧
    streaming IoBuf (bhb ++ hb ++ rest) (length bhb + length hb) w' ∧
    same_world IoBuf (with_csid_header (lengths_after fmt csid ml (csid_header w)) w) w'.

(** The end of [read_message_header], after the fields before the extended
    timestamp. *)
Lemma read_delta_end fmt bhb mid ts (v : Z * Z) rest nread w :
  0 <= ts < 2 ^ 31 → ts ≠ 0xffffff → 1 <= fmt <= 2 →
  let str := bhb ++ mid ++ extended_timestamp fmt ts ++ rest in
  streaming IoBuf str (length bhb + length mid) w →
  ∃ w', (if Z.min ts 0xffffff =? 0xFFFFFF then
      read_nbytes_cycle_on IoBuf (Z.of_nat (length bhb) + Z.of_nat (length mid) + 4) nread ;;
      ' (timestamp_delta, _) <-
        at_ptr IoBuf (Z.to_nat (Z.of_nat (length bhb) + Z.of_nat (length mid))) read_be32 ;;
      ret (Z.of_nat (length mid) + 4, (swrap 32 (0 + timestamp_delta), v.1, v.2))
    else ret (Z.of_nat (length mid), (swrap 32 (0 + Z.min ts 0xffffff), v.1, v.2))) w =
    (Ok (Z.of_nat (length mid + length (extended_timestamp fmt ts)), (ts, v.1, v.2)), w') ∧
    streaming IoBuf str (length bhb + (length mid + length (extended_timestamp fmt ts))) w' ∧
    same_world IoBuf w w'.
Proof.
  intros Hts Hne Hf str H0.
  assert (length (extended_timestamp fmt ts) = if (0xffffff <? ts)%Z then 4 else 0)%nat as Hl.
  { unfold extended_timestamp. rewrite (proj2 (Z.leb_le fmt 2)) by lia. cbn [andb].
    by case_match. }
  rewrite Hl. destruct (Z.ltb_spec 0xffffff ts).
  - rewrite (proj2 (Z.eqb_eq (Z.min ts _) _)) by lia.
    destruct (extended_timestamp_reads IoBuf fmt bhb mid ts rest nread w ltac:(lia) Hf H0)
      as (n & w' & E1 & E2 & S' & F).
    run_step E1. run_step E2. exists w'. split_and!; [| | done].
    + rewrite Z.add_0_l, swrap_small by lia. cbn [ret]. do 3 f_equal. lia.
    + by rewrite Nat.add_assoc.
  - rewrite (proj2 (Z.eqb_neq (Z.min ts _) _)) by lia. exists w.
    rewrite Nat.add_0_r. split_and!; [| done | apply same_world_refl].
    rewrite Z.add_0_l, swrap_small, Z.min_l by lia. done.
Qed.

Lemma clip_delta z :
  0 <= z <= 0xffffff → (if 0xFFFFFF <=? z mod 2 ^ 24 then 0xFFFFFF else z mod 2 ^ 24) = z.
Proof. intros. rewrite Z.mod_small by lia. case_match; lia. Qed.

(** Up to the message header of type [fmt]. *)
Lemma message_header_arrives fmt bhb ts ml mt sid ext rest w :
  0 <= fmt <= 3 →
  let mid := message_header fmt ts ml mt sid in
  let str := bhb ++ mid ++ ext ++ rest in
  streaming IoBuf str (length bhb) w →
  ∃ n w', read_nbytes_cycle_on IoBuf (Z.of_nat (length bhb) + Z.of_nat (length mid)) 0 w = (Ok n, w') ∧
    streaming IoBuf str (length bhb + length mid) w' ∧ same_world IoBuf w w' ∧
    cursor_at (buf IoBuf w') (length bhb) mid.
Proof.
  intros Hf mid str H0.
  assert (length bhb ≤ length bhb + length mid ≤ length str)%nat as Hle
    by (unfold str; rewrite !length_app; lia).
  destruct (read_nbytes_cycle_streaming IoBuf str _ _ 0 w H0 Hle) as (n & w' & E & S' & F & _).
  exists n, w'. rewrite Nat2Z.inj_add in E. split_and!; try done.
  by apply (streaming_cursor IoBuf str bhb mid (ext ++ rest)).
Qed.

Lemma read_message_header_type1 csid bhb ts ml mt sid rest w :
  0 <= ts < 2 ^ 31 → ts ≠ 0xffffff →
  streaming IoBuf (bhb ++ message_header 1 ts ml mt sid ++ extended_timestamp 1 ts ++ rest)
    (length bhb) w →
  reads_as 1 csid bhb ts ml mt sid rest w
    (Z.of_nat (7 + length (extended_timestamp 1 ts)), (ts, sc (to_byte mt), 0)).
Proof.
  intros Hts Hne H0. unfold reads_as. cbv zeta. rewrite length_app, <- app_assoc.
  unfold read_message_header. change (mh_size_array 1) with (@Ok Z 7). cbv zeta.
  rewrite (bind_ok _ _ w 7 w) by done.
  destruct (message_header_arrives 1 bhb ts ml mt sid _ rest w ltac:(lia) H0)
    as (n1 & w1 & E1 & S1 & F1 & C).
  change (Z.of_nat (length (message_header 1 ts ml mt sid))) with 7 in E1.
  run_step E1.
  change (1 <=? 2) with true. change (1 <=? 1) with true. change (1 <? 1) with false.
  change (1 =? 0) with false. change (0 <? 1) with true. cbn beta iota. cbn [andb].
  rewrite Nat2Z.id, bind_assoc. change (message_header 1 ts ml mt sid) with
    (be_bytes 3 (Z.min ts 0xffffff) ++ be_bytes 3 ml ++ [to_byte mt]) in C.
  run_step (at_ptr_u24 _ _ _ _ _ C).
  apply cursor_at_skip in C. rewrite length_be_bytes in C. rewrite bind_assoc.
  run_step (at_ptr_u24 _ _ _ _ _ C).
  apply cursor_at_skip in C. rewrite length_be_bytes in C.
  rewrite bind_assoc. rewrite (bind_ok _ _ w1 (csid_header w1) w1) by done. rewrite bind_assoc.
  run_step (remember_length_run csid (ml mod 2 ^ 24) w1). rewrite bind_assoc.
  set (w2 := with_csid_header _ w1).
  apply (streaming_with_csid_header _ _ _ (remember_length csid (ml mod 2 ^ 24) (csid_header w1))) in S1.
  change (buf IoBuf w1) with (buf IoBuf w2) in C.
  run_step (at_ptr_byte _ _ _ _ _ C). rewrite bind_ret. cbn beta iota.
  rewrite clip_delta by lia.
  destruct (read_delta_end 1 bhb (message_header 1 ts ml mt sid) ts (sc (to_byte mt), 0) rest n1 w2
    Hts Hne ltac:(lia) S1) as (w' & E2 & S2 & F2).
  exists w'. split_and!; [exact E2 | exact S2 |].
  eapply same_world_trans, F2. destruct F1 as [Ht (s & v & ->)]. split; [done |]. by exists s, v.
Qed.

Lemma read_message_header_type2 csid bhb ts ml mt sid rest w :
  0 <= ts < 2 ^ 31 → ts ≠ 0xffffff →
  streaming IoBuf (bhb ++ message_header 2 ts ml mt sid ++ extended_timestamp 2 ts ++ rest)
    (length bhb) w →
  reads_as 2 csid bhb ts ml mt sid rest w
    (Z.of_nat (3 + length (extended_timestamp 2 ts)), (ts, 0, 0)).
Proof.
  intros Hts Hne H0. unfold reads_as. cbv zeta. rewrite length_app, <- app_assoc.
  unfold read_message_header. change (mh_size_array 2) with (@Ok Z 3). cbv zeta.
  rewrite (bind_ok _ _ w 3 w) by done.
  destruct (message_header_arrives 2 bhb ts ml mt sid _ rest w ltac:(lia) H0)
    as (n1 & w1 & E1 & S1 & F1 & C).
  change (Z.of_nat (length (message_header 2 ts ml mt sid))) with 3 in E1.
  run_step E1.
  change (2 <=? 2) with true. change (2 <=? 1) with false. change (2 <? 1) with false.
  change (2 =? 0) with false. change (0 <? 2) with true. cbn beta iota. cbn [andb].
  rewrite Nat2Z.id, bind_assoc. change (message_header 2 ts ml mt sid) with
    (be_bytes 3 (Z.min ts 0xffffff) ++ []) in C.
  run_step (at_ptr_u24 _ _ _ _ _ C). rewrite bind_ret. cbn beta iota.
  rewrite clip_delta by lia.
  destruct (read_delta_end 2 bhb (message_header 2 ts ml mt sid) ts (0, 0) rest n1 w1
    Hts Hne ltac:(lia) S1) as (w' & E2 & S2 & F2).
  exists w'. split_and!; [exact E2 | exact S2 |].
  eapply same_world_trans, F2. unfold lengths_after. change (2 <=? 1) with false. cbn iota.
  replace (with_csid_header (csid_header w) w) with w by by destruct w. done.
Qed.

Lemma read_message_header_type3 csid bhb ts ml mt sid rest w :
  streaming IoBuf (bhb ++ message_header 3 ts ml mt sid ++ extended_timestamp 3 ts ++ rest)
    (length bhb) w →
  reads_as 3 csid bhb ts ml mt sid rest w (0, (0, 0, 0)).
Proof.
  intros H0. unfold reads_as. cbv zeta. rewrite length_app, <- app_assoc.
  unfold read_message_header. change (mh_size_array 3) with (@Ok Z 0). cbv zeta.
  rewrite (bind_ok _ _ w 0 w) by done.
  destruct (message_header_arrives 3 bhb ts ml mt sid _ rest w ltac:(lia) H0)
    as (n1 & w1 & E1 & S1 & F1 & C).
  change (Z.of_nat (length (message_header 3 ts ml mt sid))) with 0 in E1.
  run_step E1. change (3 <=? 2) with false. cbn beta iota. rewrite bind_ret.
  exists w1. split_and!; [done | exact S1 |].
  unfold lengths_after. change (3 <=? 1) with false. cbn iota.
  replace (with_csid_header (csid_header w) w) with w by by destruct w. done.
Qed.

(** ** The copy that works on [audio_video_buffer] *)

(** [w] with the entry of [csid] set to [h]. *)
Definition entry (csid : Z) (h : Message_Header) w : world S :=
  with_csid_header (<[csid := h]> (csid_header w)) w.

Lemma csid_header_at_entry csid h w :
  csid_header_at csid (entry csid h w) = (Ok h, entry csid h w).
Proof. unfold csid_header_at, entry. cbn. by rewrite lookup_insert_eq. Qed.

Lemma csid_header_set_entry csid f h w :
  csid_header_set csid f (entry csid h w) = (Ok tt, entry csid (f h) w).
Proof.
  unfold csid_header_set. rewrite (bind_ok _ _ _ _ _ (csid_header_at_entry csid h w)).
  unfold entry. cbn. by rewrite insert_insert_eq.
Qed.

Lemma entry_id csid h w : csid_header w !! csid = Some h → entry csid h w = w.
Proof. intros H. unfold entry. rewrite insert_id by done. by destruct w. Qed.

Lemma same_world_entry b csid h w w' :
  same_world b (entry csid h w) w' → ∃ w1, w' = entry csid h w1 ∧ same_world b w w1.
Proof.
  intros [Ht (s & v & ->)]. exists (with_buf b v (with_sock s w)). split; [by destruct b |].
  split; [by destruct b | by eexists _, _].
Qed.

Lemma streaming_entry b str k csid h w :
  streaming b str k w → streaming b str k (entry csid h w).
Proof. apply streaming_with_csid_header. Qed.

Lemma same_world_entry_mono b csid h w w' :
  same_world b w w' → same_world b (entry csid h w) (entry csid h w').
Proof. intros [Ht (s & v & ->)]. split; [by destruct b | exists s, v; by destruct b]. Qed.

Lemma at_ptr_entry {A : Type} b p (c : list byte → M nat A) csid h w x :
  at_ptr b p c w = (Ok x, w) → at_ptr b p c (entry csid h w) = (Ok x, entry csid h w).
Proof.
  unfold at_ptr. replace (buf b (entry csid h w)) with (buf b w) by by destruct b.
  destruct (c _ _) as [o q]. intros H. injection H as ->. done.
Qed.

(** The entry [read_audio_video_message_header] leaves for a header that does
    not need an extended timestamp. *)
Definition av_entry (fmt ts ml mt sid : Z) (h : Message_Header) : Message_Header :=
  let h := if fmt =? 0 then set_timestamp_delta ts (set_timestamp ts h)
           else if fmt <=? 2 then set_timestamp_delta ts h else h in
  let h := if fmt <=? 1 then set_message_type mt (set_message_length ml h) else h in
  let h := if fmt =? 0 then set_stream_id sid h else h in
  set_timestamp (swrap 32 (timestamp h + timestamp_delta h)) h.

Lemma add_delta_entry csid h w :
  (h <- csid_header_at csid ;;
   csid_header_set csid (set_timestamp (swrap 32 (timestamp h + timestamp_delta h)))) (entry csid h w)
  = (Ok tt, entry csid (set_timestamp (swrap 32 (timestamp h + timestamp_delta h)) h) w).
Proof. rewrite (bind_ok _ _ _ _ _ (csid_header_at_entry csid h w)). apply csid_header_set_entry. Qed.

(** A missing entry is created first. *)
Lemma create_entry csid w :
  match csid_header w !! csid with
  | None => csid_header_at csid ;; ret tt
  | Some _ => ret tt
  end w = (Ok tt, entry csid (default Message_Header_new (csid_header w !! csid)) w).
Proof.
  unfold bind, csid_header_at, entry. destruct (csid_header w !! csid) as [h |] eqn:E; cbn.
  - rewrite insert_id by done. by destruct w.
  - by rewrite E.
Qed.

Ltac run_entry :=
  first
    [ rewrite (bind_ok _ _ _ _ _ (csid_header_at_entry _ _ _))
    | rewrite (bind_ok _ _ _ _ _ (csid_header_set_entry _ _ _ _))
    | rewrite (bind_ok _ _ _ _ _ (add_delta_entry _ _ _)) ]; cbv beta iota.

(** A field read while the entry is [entry csid h w]; [C] says where it is. *)
Ltac run_field L :=
  match goal with
  | |- context [bind (at_ptr ?b ?p ?c) ?k (entry ?i ?h ?w)] =>
      rewrite (bind_ok _ _ _ _ _ (at_ptr_entry b p c i h w _ L)); cbv beta iota
  end.

Definition av_reads_as (fmt csid : Z) (bhb : list byte) (ts ml mt sid : Z) (rest : list byte)
    (w : world S) : Prop :=
  let mid := message_header fmt ts ml mt sid in
  let h := default Message_Header_new (csid_header w !! csid) in
  ∃ w', read_audio_video_message_header fmt csid (Z.of_nat (length bhb)) w =
      (Ok (Z.of_nat (length mid)), entry csid (av_entry fmt ts ml mt sid h) w') ∧
    streaming AvBuf (bhb ++ mid ++ rest) (length bhb + length mid) w' ∧ same_world AvBuf w w'.

Lemma av_header_arrives fmt bhb ts ml mt sid rest w :
  0 <= fmt <= 3 →
  let mid := message_header fmt ts ml mt sid in
  let str := bhb ++ mid ++ rest in
  streaming AvBuf str (length bhb) w →
  ∃ n w', read_nbytes_cycle_on AvBuf (Z.of_nat (length bhb) + Z.of_nat (length mid)) 0 w = (Ok n, w') ∧
    streaming AvBuf str (length bhb + length mid) w' ∧ same_world AvBuf w w' ∧
    cursor_at (buf AvBuf w') (length bhb) mid.
Proof.
  intros Hf mid str H0.
  assert (length bhb ≤ length bhb + length mid ≤ length str)%nat as Hle
    by (unfold str; rewrite !length_app; lia).
  destruct (read_nbytes_cycle_streaming AvBuf str _ _ 0 w H0 Hle) as (n & w' & E & S' & F & _).
  exists n, w'. rewrite Nat2Z.inj_add in E. split_and!; try done.
  by apply (streaming_cursor AvBuf str bhb mid rest).
Qed.

Lemma read_av_header_type0 csid bhb ts ml mt sid rest w :
  0 <= ts < 0xffffff → 0 <= ml < 2 ^ 24 → -128 <= mt < 128 → - 2 ^ 31 <= sid < 2 ^ 31 →
  streaming AvBuf (bhb ++ message_header 0 ts ml mt sid ++ rest) (length bhb) w →
  av_reads_as 0 csid bhb ts ml mt sid rest w.
Proof.
  intros Hts Hml Hmt Hsid H0. unfold av_reads_as. cbv zeta.
  unfold read_audio_video_message_header. change (mh_size_array 0) with (@Ok Z 11). cbv zeta.
  rewrite (bind_ok _ _ w 11 w) by done.
  destruct (av_header_arrives 0 bhb ts ml mt sid rest w ltac:(lia) H0) as (n1 & w1 & E1 & S1 & F1 & C).
  change (Z.of_nat (length (message_header 0 ts ml mt sid))) with 11 in *.
  run_step E1. change (0 =? 3) with false. change (0 <=? 2) with true. change (0 =? 0) with true.
  change (0 <? 0) with false. change (0 <=? 1) with true. change (0 <? 1) with true.
  cbv iota beta. cbn [andb]. rewrite Nat2Z.id, bind_assoc.
  rewrite (bind_ok _ _ w1 (csid_header w1) w1) by done. rewrite bind_assoc.
  run_step (create_entry csid w1). destruct (same_world_this _ _ _ F1) as (Hhs & _ & _).
  rewrite Hhs. set (h0 := default _ _). rewrite bind_assoc.
  change (message_header 0 ts ml mt sid) with
    (be_bytes 3 (Z.min ts 0xffffff) ++ be_bytes 3 ml ++ to_byte mt :: le_bytes 4 sid) in C.
  rewrite Z.min_l in C by lia.
  run_field (at_ptr_u24 _ _ _ _ _ C). rewrite Z.mod_small by lia.
  apply cursor_at_skip in C. rewrite length_be_bytes in C.
  rewrite bind_assoc. run_entry. rewrite !bind_assoc. run_entry. run_entry.
  rewrite bind_assoc. run_entry. rewrite bind_assoc, bind_ret. cbv iota beta. rewrite bind_assoc.
  run_field (at_ptr_u24 _ _ _ _ _ C). rewrite Z.mod_small by lia.
  apply cursor_at_skip in C. rewrite length_be_bytes in C.
  rewrite bind_assoc. run_entry. rewrite bind_assoc.
  run_field (at_ptr_byte _ _ _ _ _ C). apply (cursor_at_skip _ _ [_]) in C.
  rewrite bind_assoc. run_entry. rewrite bind_assoc.
  rewrite <- (app_nil_r (le_bytes 4 sid)) in C.
  run_field (at_ptr_le32 _ _ _ _ _ C). rewrite swrap_small by lia.
  run_entry. run_entry.
  cbn [timestamp_delta timestamp set_stream_id set_message_type set_message_length
    set_timestamp_delta set_timestamp].
  rewrite (proj2 (Z.eqb_neq ts _)) by lia. rewrite bind_ret. run_entry.
  exists w1. split_and!; [| done | done].
  rewrite (sc_to_byte mt) by lia. done.
Qed.

Lemma read_av_header_type1 csid bhb ts ml mt sid rest w :
  0 <= ts < 0xffffff → 0 <= ml < 2 ^ 24 → -128 <= mt < 128 →
  streaming AvBuf (bhb ++ message_header 1 ts ml mt sid ++ rest) (length bhb) w →
  av_reads_as 1 csid bhb ts ml mt sid rest w.
Proof.
  intros Hts Hml Hmt H0. unfold av_reads_as. cbv zeta.
  unfold read_audio_video_message_header. change (mh_size_array 1) with (@Ok Z 7). cbv zeta.
  rewrite (bind_ok _ _ w 7 w) by done.
  destruct (av_header_arrives 1 bhb ts ml mt sid rest w ltac:(lia) H0) as (n1 & w1 & E1 & S1 & F1 & C).
  change (Z.of_nat (length (message_header 1 ts ml mt sid))) with 7 in *.
  run_step E1. change (1 =? 3) with false. change (1 <=? 2) with true. change (1 =? 0) with false.
  change (0 <? 1) with true. change (1 <=? 1) with true. change (1 <? 1) with false.
  cbv iota beta. cbn [andb]. rewrite Nat2Z.id, bind_assoc.
  rewrite (bind_ok _ _ w1 (csid_header w1) w1) by done. rewrite bind_assoc.
  run_step (create_entry csid w1). destruct (same_world_this _ _ _ F1) as (Hhs & _ & _).
  rewrite Hhs. set (h0 := default _ _). rewrite bind_assoc.
  change (message_header 1 ts ml mt sid) with
    (be_bytes 3 (Z.min ts 0xffffff) ++ be_bytes 3 ml ++ [to_byte mt]) in C.
  rewrite Z.min_l in C by lia.
  run_field (at_ptr_u24 _ _ _ _ _ C). rewrite Z.mod_small by lia.
  apply cursor_at_skip in C. rewrite length_be_bytes in C.
  rewrite bind_assoc. run_entry. rewrite !bind_assoc, bind_ret, bind_assoc. run_entry.
  rewrite bind_assoc. cbn [timestamp_delta set_timestamp_delta].
  rewrite (proj2 (Z.leb_gt _ ts)) by lia. rewrite bind_ret, bind_assoc.
  run_field (at_ptr_u24 _ _ _ _ _ C). rewrite Z.mod_small by lia.
  apply cursor_at_skip in C. rewrite length_be_bytes in C.
  rewrite bind_assoc. run_entry. rewrite bind_assoc.
  run_field (at_ptr_byte _ _ _ _ _ C). rewrite bind_assoc. run_entry. rewrite bind_ret.
  run_entry. cbn [timestamp_delta timestamp set_message_type set_message_length set_timestamp_delta].
  rewrite (proj2 (Z.eqb_neq ts _)) by lia. rewrite bind_ret. run_entry.
  exists w1. split_and!; [| done | done].
  rewrite (sc_to_byte mt) by lia. done.
Qed.

Lemma read_av_header_type2 csid bhb ts ml mt sid rest w :
  0 <= ts < 0xffffff →
  streaming AvBuf (bhb ++ message_header 2 ts ml mt sid ++ rest) (length bhb) w →
  av_reads_as 2 csid bhb ts ml mt sid rest w.
Proof.
  intros Hts H0. unfold av_reads_as. cbv zeta.
  unfold read_audio_video_message_header. change (mh_size_array 2) with (@Ok Z 3). cbv zeta.
  rewrite (bind_ok _ _ w 3 w) by done.
  destruct (av_header_arrives 2 bhb ts ml mt sid rest w ltac:(lia) H0) as (n1 & w1 & E1 & S1 & F1 & C).
  change (Z.of_nat (length (message_header 2 ts ml mt sid))) with 3 in *.
  run_step E1. change (2 =? 3) with false. change (2 <=? 2) with true. change (2 =? 0) with false.
  change (0 <? 2) with true. change (2 <=? 1) with false.
  cbv iota beta. cbn [andb]. rewrite Nat2Z.id, bind_assoc.
  rewrite (bind_ok _ _ w1 (csid_header w1) w1) by done. rewrite bind_assoc.
  run_step (create_entry csid w1). destruct (same_world_this _ _ _ F1) as (Hhs & _ & _).
  rewrite Hhs. set (h0 := default _ _). rewrite bind_assoc.
  change (message_header 2 ts ml mt sid) with (be_bytes 3 (Z.min ts 0xffffff) ++ []) in C.
  rewrite Z.min_l in C by lia.
  run_field (at_ptr_u24 _ _ _ _ _ C). rewrite Z.mod_small by lia.
  rewrite bind_assoc. run_entry. rewrite !bind_assoc, bind_ret, bind_assoc. run_entry.
  rewrite bind_assoc. cbn [timestamp_delta set_timestamp_delta].
  rewrite (proj2 (Z.leb_gt _ ts)) by lia. rewrite !bind_ret.
  run_entry. cbn [timestamp_delta set_timestamp_delta].
  rewrite (proj2 (Z.eqb_neq ts _)) by lia. rewrite bind_ret. run_entry.
  by exists w1.
Qed.

(** Type 3 needs an earlier header on the same chunk stream. *)
Lemma read_av_header_type3 csid bhb ts ml mt sid rest w :
  is_Some (csid_header w !! csid) →
  streaming AvBuf (bhb ++ message_header 3 ts ml mt sid ++ rest) (length bhb) w →
  av_reads_as 3 csid bhb ts ml mt sid rest w.
Proof.
  intros [h Hh] H0. unfold av_reads_as. cbv zeta.
  unfold read_audio_video_message_header. change (mh_size_array 3) with (@Ok Z 0). cbv zeta.
  rewrite (bind_ok _ _ w 0 w) by done.
  destruct (av_header_arrives 3 bhb ts ml mt sid rest w ltac:(lia) H0) as (n1 & w1 & E1 & S1 & F1 & C).
  change (Z.of_nat (length (message_header 3 ts ml mt sid))) with 0 in *.
  run_step E1. change (3 =? 3) with true. cbv iota.
  rewrite (bind_ok _ _ w1 (csid_header w1) w1) by done.
  destruct (same_world_this _ _ _ F1) as (Hhs & _ & _). rewrite Hhs, Hh. cbn [default].
  exists w1. split_and!; [| done | done].
  assert (csid_header w1 !! csid = Some h) as Hh1 by congruence.
  pose proof (add_delta_entry csid h w1) as Ha. rewrite (entry_id csid h w1 Hh1) in Ha.
  run_step Ha. done.
Qed.
End read.

(** ** Whatever the peer sends, the readers stay inside the buffer *)
Section safety.
Context {S : Type} `{!StSocket S, !StSocketLaws S}.
Implicit Types w : world S.

Lemma next_runs buf p : (p ≤ length buf)%nat → ∃ x, next buf p = (Ok x, (p + 1)%nat).
Proof.
  intros Hp. destruct (drop p buf) as [| x rest] eqn:E.
  - exists x00. by apply next_nil.
  - exists x. by apply (next_at _ _ _ rest).
Qed.

(** Three or four bytes starting at [p]. *)
Ltac runs_bytes buf :=
  repeat match goal with
  | |- context [bind (next buf) ?k ?p] =>
      let x := fresh "x" in let E := fresh "E" in
      destruct (next_runs buf p) as [x E]; [lia |];
      rewrite (bind_ok (next buf) k p _ _ E); cbv beta
  end.

Lemma read_u24_runs buf p : (p + 2 ≤ length buf)%nat → ∃ z, read_u24 buf p = (Ok z, (p + 3)%nat).
Proof.
  intros Hp. unfold read_u24. runs_bytes buf. eexists. cbn [ret]. f_equal. lia.
Qed.

Lemma read_be32_runs buf p : (p + 3 ≤ length buf)%nat → ∃ z, read_be32 buf p = (Ok z, (p + 4)%nat).
Proof.
  intros Hp. unfold read_be32. runs_bytes buf. eexists. cbn [ret]. f_equal. lia.
Qed.

Lemma read_le32_runs buf p : (p + 3 ≤ length buf)%nat → ∃ z, read_le32 buf p = (Ok z, (p + 4)%nat).
Proof.
  intros Hp. unfold read_le32. runs_bytes buf. eexists. cbn [ret]. f_equal. lia.
Qed.

(** [has b n w]: at least [n] bytes are in the buffer (which is not of
    astronomical size). *)
Definition has (b : which) (n : Z) w : Prop :=
  n <= Z.of_nat (length (buf b w)) < 2 ^ 61.

Lemma at_ptr_safe {A : Type} b n off (c : list byte → M nat A) k :
  (∀ buf, n <= Z.of_nat (length buf) → ∃ a, c buf off = (Ok a, k)) →
  safely (has b n) (at_ptr b off c) (λ r w, r.2 = k ∧ has b n w).
Proof.
  intros H w Hw. unfold at_ptr. destruct (H (buf b w)) as [a ->]; [by destruct Hw | done].
Qed.

Lemma read_nbytes_cycle_safe b n m z :
  n < 2 ^ 60 → safely (has b m) (read_nbytes_cycle_on b n z) (λ _ w, has b (Z.max m n) w).
Proof.
  intros Hn w Hw. unfold has in *.
  destruct (read_nbytes_cycle_on b n z w) as [r w'] eqn:E.
  assert (small b n w) as Hs by (unfold small, max_size; lia).
  destruct (read_nbytes_cycle_spec _ _ _ _ _ _ Hs E) as (s' & got & _ & _ & Hr).
  destruct r as [v | | | |]; try done. destruct Hr as [-> Hr].
  rewrite buf_with_buf, length_app. destruct Hr as [(? & -> & _) | (? & ? & _)]; simpl; lia.
Qed.

Lemma read_nbytes_safe b n m z :
  n < 2 ^ 60 → safely (has b m) (read_nbytes_on b n z) (λ _ w, has b (Z.max m n) w).
Proof.
  intros Hn w Hw. unfold has in *. unfold read_nbytes_on, bind at 1. cbn [gets id].
  destruct (Z.ltb_spec (Z.of_nat (length (buf b w))) n); [| cbn; lia].
  unfold bind at 1, on_sock. destruct (st_read_fully _ _) as [[bs |] s'] eqn:E; [| done].
  destruct (Z.eqb_spec (Z.of_nat (length bs)) (n - Z.of_nat (length (buf b w)))); [| done].
  cbn [negb].
  rewrite (bind_ok _ _ _ _ _ (push_ok b bs (with_sock s' w)
    ltac:(unfold max_size; rewrite buf_with_sock; lia))).
  cbn [ret]. rewrite buf_with_buf, buf_with_sock, length_app. lia.
Qed.

Lemma csid_header_at_safe b n csid :
  safely (has b n) (csid_header_at (S:=S) csid) (λ _ w, has b n w).
Proof. intros w Hw. unfold csid_header_at. destruct (_ !! _); [done |]. by destruct b. Qed.

Lemma csid_header_set_safe b n csid f :
  safely (has b n) (csid_header_set (S:=S) csid f) (λ _ w, has b n w).
Proof.
  eapply safely_bind; [apply csid_header_at_safe |]. intros h. apply safely_modify.
  intros w Hw. by destruct b.
Qed.

Lemma with_csid_header_safe b n (f : world S → gmap Z Message_Header) :
  safely (has b n) (modify (λ w, with_csid_header (f w) w)) (λ _ w, has b n w).
Proof. apply safely_modify. intros w Hw. by destruct b. Qed.

Lemma mh_size_array_safe (P : world S → Prop) fmt :
  0 <= fmt <= 3 → safely P (lift (mh_size_array fmt)) (λ n w, P w ∧ 0 <= n <= 11 ∧
    (fmt <= 2 → 3 <= n) ∧ (fmt <= 1 → 7 <= n) ∧ (fmt <= 0 → n = 11)).
Proof.
  intros Hf w Hw. by destruct (fmt_cases _ Hf) as [-> | [-> | [-> | ->]]]; cbn; split_and!; lia || done.
Qed.

Lemma read_basic_header_safe b :
  safely (has b 0) (read_basic_header_on b)
    (λ '(fmt, _, bh) w, 0 <= fmt <= 3 ∧ 1 <= bh <= 3 ∧ has b bh w).
Proof.
  assert (∀ x, 0 <= Z.land (Z.shiftr x 6) 0x03 <= 3) as Hfmt.
  { intros x. pose proof (Z.land_ones (Z.shiftr x 6) 2 ltac:(lia)) as E. change (Z.ones 2) with 0x03 in E.
    rewrite E.
    change (2 ^ 2) with 4. pose proof (Z.mod_pos_bound (Z.shiftr x 6) 4 ltac:(lia)). lia. }
  assert (∀ n i, i < n → 0 <= i →
    safely (S:=world S) (has b n) (at_ptr b (Z.to_nat i) next) (λ _ w, has b n w)) as Hnext.
  { intros n i Hi Hi0. eapply safely_conseq; [apply (at_ptr_safe b n _ next (Z.to_nat i + 1)) | done |].
    - intros buf Hb. apply next_runs. lia.
    - by intros ? ? [_ ?]. }
  eapply safely_bind; [by apply read_nbytes_cycle_safe |]. intros nread. cbn beta.
  eapply safely_bind; [by apply (Hnext 1 0) |]. intros [bh p]. cbv beta iota zeta.
  apply safely_if; intros _; [apply safely_if; intros _; [| apply safely_if; intros _; [| apply safely_fail]] |].
  - eapply safely_bind; [by apply read_nbytes_safe |]. intros m. cbn beta.
    eapply safely_bind; [by apply (Hnext 2 1) |]. intros [c1 q].
    apply safely_ret. intros w Hw. split; [apply Hfmt | split; [lia | exact Hw]].
  - eapply safely_bind; [by apply read_nbytes_safe |]. intros m. cbn beta.
    eapply safely_bind; [by apply (Hnext 3 1) |]. intros [c1 q].
    eapply safely_bind; [by apply (Hnext 3 2) |]. intros [c2 q2].
    apply safely_ret. intros w Hw. split; [apply Hfmt | split; [lia | exact Hw]].
  - apply safely_ret. intros w Hw. split; [apply Hfmt | split; [lia | exact Hw]].
Qed.

(** Fields of a header of which [n] bytes have arrived. *)
Lemma read_u24_safe b n off :
  Z.of_nat off + 3 <= n →
  safely (has b n) (at_ptr b off read_u24) (λ r w, r.2 = (off + 3)%nat ∧ has b n w).
Proof. intros. apply at_ptr_safe. intros buf Hb. apply read_u24_runs. lia. Qed.

Lemma read_le32_safe b n off :
  Z.of_nat off + 4 <= n →
  safely (has b n) (at_ptr b off read_le32) (λ r w, r.2 = (off + 4)%nat ∧ has b n w).
Proof. intros. apply at_ptr_safe. intros buf Hb. apply read_le32_runs. lia. Qed.

Lemma read_be32_safe b n off :
  Z.of_nat off + 4 <= n →
  safely (has b n) (at_ptr b off read_be32) (λ r w, r.2 = (off + 4)%nat ∧ has b n w).
Proof. intros. apply at_ptr_safe. intros buf Hb. apply read_be32_runs. lia. Qed.

Lemma next_safe b n off :
  Z.of_nat off + 1 <= n →
  safely (has b n) (at_ptr b off next) (λ r w, r.2 = (off + 1)%nat ∧ has b n w).
Proof. intros. apply at_ptr_safe. intros buf Hb. apply next_runs. lia. Qed.

Lemma remember_length_safe b n (hs : gmap Z Message_Header) csid ml :
  safely (has b n)
    (match hs !! csid with
     | None => modify (λ w : world S, with_csid_header
         (<[csid := set_message_length ml Message_Header_new]> (csid_header w)) w)
     | Some _ => csid_header_set csid (set_message_length ml)
     end) (λ _ w, has b n w).
Proof.
  destruct (hs !! csid); [apply csid_header_set_safe |].
  apply (with_csid_header_safe b n (λ w, <[csid := _]> (csid_header w))).
Qed.

Ltac field L :=
  eapply safely_bind; [apply L; lia |]; intros [? ?]; cbn [snd];
  apply (safely_pure _ _ _ _ (λ _ H, proj1 H)); intros ->;
  eapply safely_conseq; [| exact (λ _ H, proj2 H) | exact (λ _ _ H, H)].

Lemma read_message_header_safe fmt csid bh :
  0 <= fmt <= 3 → 1 <= bh <= 3 →
  safely (has IoBuf bh) (read_message_header fmt csid bh)
    (λ r w, 0 <= r.1 <= 15 ∧ has IoBuf (bh + r.1) w).
Proof.
  intros Hf Hb. eapply safely_bind; [by apply mh_size_array_safe |]. intros mh. cbv beta zeta.
  apply (safely_pure _ _ _ _ (λ _ H, proj2 H)). intros (Hm & Hm2 & Hm1 & Hm0).
  eapply safely_conseq; [| exact (λ _ H, proj1 H) | exact (λ _ _ H, H)].
  eapply safely_bind; [apply read_nbytes_cycle_safe; lia |]. intros nread. cbv beta.
  replace (Z.max bh (bh + mh)) with (bh + mh) by lia.
  eapply (safely_bind _ _ (λ _ w, has IoBuf (bh + mh) w)).
  - apply safely_if; intros Hfmt; [apply Z.leb_le in Hfmt | by apply safely_ret].
    specialize (Hm2 Hfmt). field read_u24_safe.
    apply safely_if; intros Hfmt1; [apply Z.leb_le in Hfmt1 | by apply safely_ret].
    specialize (Hm1 Hfmt1). field read_u24_safe.
    eapply safely_bind; [by apply (safely_gets _ _ (λ _ w, has IoBuf (bh + mh) w)) |].
    intros hs. cbv beta. eapply safely_bind; [apply remember_length_safe |]. intros []. cbv beta.
    field next_safe.
    apply safely_if; intros Hfmt0; [apply Z.ltb_lt in Hfmt0 | by apply safely_ret].
    rewrite Hm0 by lia. field read_le32_safe. by apply safely_ret.
  - intros [[[ts td] mt] sid]. cbv beta iota. apply safely_if; intros _.
    + eapply safely_bind; [apply read_nbytes_cycle_safe; lia |]. intros m. cbv beta.
      replace (Z.max (bh + mh) (bh + mh + 4)) with (bh + mh + 4) by lia.
      field read_be32_safe. apply safely_ret. intros w Hw. cbn [fst].
      split; [lia |]. by replace (bh + (mh + 4)) with (bh + mh + 4) by lia.
    + apply safely_ret. intros w Hw. cbn [fst]. split; [lia | done].
Qed.

Lemma read_audio_video_message_header_safe fmt csid bh :
  0 <= fmt <= 3 → 1 <= bh <= 3 →
  safely (has AvBuf bh) (read_audio_video_message_header fmt csid bh)
    (λ mh w, 0 <= mh <= 15 ∧ has AvBuf (bh + mh) w).
Proof.
  intros Hf Hb. eapply safely_bind; [by apply mh_size_array_safe |]. intros mh. cbv beta zeta.
  apply (safely_pure _ _ _ _ (λ _ H, proj2 H)). intros (Hm & Hm2 & Hm1 & Hm0).
  eapply safely_conseq; [| exact (λ _ H, proj1 H) | exact (λ _ _ H, H)].
  eapply safely_bind; [apply read_nbytes_cycle_safe; lia |]. intros nread. cbv beta.
  replace (Z.max bh (bh + mh)) with (bh + mh) by lia.
  assert (∀ n, safely (has AvBuf n)
    (h <- csid_header_at csid ;;
     csid_header_set csid (set_timestamp (swrap 32 (timestamp h + timestamp_delta h))))
    (λ _ w, has AvBuf n w)) as Hadd.
  { intros n. eapply safely_bind; [apply csid_header_at_safe |]. intros h. apply csid_header_set_safe. }
  assert (∀ n, safely (S:=world S) (has AvBuf n) (gets csid_header) (λ _ w, has AvBuf n w)) as Hgets.
  { intros n. by apply safely_gets. }
  apply safely_if; intros H3.
  { eapply safely_bind; [apply Hgets |]. intros hs. destruct (hs !! csid); [| apply safely_fail].
    eapply safely_bind; [apply Hadd |]. intros []. apply safely_ret. intros w Hw. split; [lia | done]. }
  eapply (safely_bind _ _ (λ _ w, has AvBuf (bh + mh) w)).
  - apply safely_if; intros Hfmt; [apply Z.leb_le in Hfmt | by apply safely_ret].
    specialize (Hm2 Hfmt).
    eapply safely_bind; [apply Hgets |]. intros hs. cbv beta.
    eapply (safely_bind _ _ (λ _ w, has AvBuf (bh + mh) w)).
    { destruct (hs !! csid); [by apply safely_ret |].
      eapply safely_bind; [apply csid_header_at_safe |]. intros h. by apply safely_ret. }
    intros []. field read_u24_safe.
    eapply safely_bind; [apply csid_header_set_safe |]. intros []. cbv beta.
    eapply (safely_bind _ _ (λ _ w, has AvBuf (bh + mh) w)).
    { apply safely_if; intros _; [| by apply safely_ret].
      eapply safely_bind; [apply csid_header_at_safe |]. intros h. apply csid_header_set_safe. }
    intros []. eapply safely_bind; [apply csid_header_at_safe |]. intros h. cbv beta.
    eapply (safely_bind _ _ (λ _ w, has AvBuf (bh + mh) w)).
    { apply safely_if; intros _; [apply csid_header_set_safe | by apply safely_ret]. }
    intros []. apply safely_if; intros Hfmt1; [apply Z.leb_le in Hfmt1 | by apply safely_ret].
    specialize (Hm1 Hfmt1). field read_u24_safe.
    eapply safely_bind; [apply csid_header_set_safe |]. intros []. cbv beta. field next_safe.
    eapply safely_bind; [apply csid_header_set_safe |]. intros []. cbv beta.
    apply safely_if; intros Hfmt0; [apply Z.ltb_lt in Hfmt0 | by apply safely_ret].
    rewrite Hm0 by lia. field read_le32_safe. apply csid_header_set_safe.
  - intros []. eapply safely_bind; [apply csid_header_at_safe |]. intros h. cbv beta.
    eapply (safely_bind _ _ (λ m w, 0 <= m <= 15 ∧ has AvBuf (bh + m) w)).
    + apply safely_if; intros _.
      * eapply safely_bind; [apply read_nbytes_cycle_safe; lia |]. intros m. cbv beta.
        replace (Z.max (bh + mh) (bh + mh + 4)) with (bh + mh + 4) by lia.
        field read_be32_safe. eapply safely_bind; [apply csid_header_set_safe |]. intros [].
        apply safely_ret. intros w Hw. split; [lia |].
        by replace (bh + (mh + 4)) with (bh + mh + 4) by lia.
      * apply safely_ret. intros w Hw. split; [lia | done].
    + intros m. cbv beta. apply (safely_pure _ _ _ _ (λ _ H, proj1 H)). intros Hm'.
      eapply safely_conseq; [| exact (λ _ H, proj2 H) | exact (λ _ _ H, H)].
      eapply safely_bind; [apply Hadd |]. intros []. apply safely_ret. by intros w Hw.
Qed.
Lemma read_header_safe :
  safely (has IoBuf 0) read_header (λ '(fmt, _, bh, mh, _) w,
    0 <= fmt <= 3 ∧ 1 <= bh <= 3 ∧ 0 <= mh <= 15 ∧ has IoBuf (bh + mh) w).
Proof.
  eapply safely_bind; [apply read_basic_header_safe |]. intros [[fmt csid] bh].
  apply (safely_pure _ (0 <= fmt <= 3 ∧ 1 <= bh <= 3)); [tauto |]. intros [Hf Hb].
  eapply safely_bind; [eapply safely_conseq;
    [by apply read_message_header_safe | exact (λ _ H, proj2 (proj2 H)) | exact (λ _ _ H, H)] |].
  intros [mh vals]. by apply safely_ret.
Qed.

Lemma read_audio_video_header_safe :
  safely (has AvBuf 0) read_audio_video_header
    (λ '(_, bh, mh) w, 1 <= bh <= 3 ∧ 0 <= mh <= 15 ∧ has AvBuf (bh + mh) w).
Proof.
  eapply safely_bind; [apply read_basic_header_safe |]. intros [[fmt csid] bh].
  apply (safely_pure _ (0 <= fmt <= 3 ∧ 1 <= bh <= 3)); [tauto |]. intros [Hf Hb].
  eapply safely_bind; [eapply safely_conseq;
    [by apply read_audio_video_message_header_safe | exact (λ _ H, proj2 (proj2 H)) | exact (λ _ _ H, H)] |].
  intros mh. by apply safely_ret.
Qed.
End safety.

(** ** Properties *)
Section properties.
Context {S : Type} `{!StSocket S, !StSocketLaws S}.

(** The fields a header of type [fmt] carries; the others keep their initial 0. *)
Definition carried (fmt ts mt sid : Z) : Z * Z * Z :=
  (if fmt <=? 2 then ts else 0, if fmt <=? 1 then mt else 0, if fmt <=? 0 then sid else 0).

Lemma chunk_header_read fmt csid ts ml mt sid rest (w : world S) :
  0 <= fmt <= 3 → 2 <= csid → 0 <= ts < 2 ^ 31 →
  -128 <= mt < 128 → - 2 ^ 31 <= sid < 2 ^ 31 → timestamp_readable fmt ts →
  let hb := chunk_header fmt csid ts ml mt sid in
  streaming IoBuf (hb ++ rest) 0 w →
  ∃ bh mh w', read_header w = (Ok (fmt, csid_seen csid, bh, mh, carried fmt ts mt sid), w') ∧
    bh + mh = Z.of_nat (length hb) ∧ streaming IoBuf (hb ++ rest) (length hb) w' ∧
    same_world IoBuf
      (with_csid_header (lengths_after fmt (csid_seen csid) ml (csid_header w)) w) w'.
Proof.
  intros Hf Hc Hts Hmt Hsid [Hr0 Hr12] hb H0. unfold hb, chunk_header in *.
  rewrite <- !app_assoc in *.
  destruct (read_basic_header_reads IoBuf fmt csid _ w Hf Hc H0) as (w1 & E1 & S1 & F1).
  set (bhb := basic_header fmt csid) in *.
  destruct (same_world_this _ _ _ F1) as (Hhs & _ & _).
  assert (∀ res, reads_as fmt (csid_seen csid) bhb ts ml mt sid rest w1 res →
    res = (Z.of_nat (length (message_header fmt ts ml mt sid ++ extended_timestamp fmt ts)),
           carried fmt ts mt sid) →
    ∃ bh mh w', read_header w = (Ok (fmt, csid_seen csid, bh, mh, carried fmt ts mt sid), w') ∧
      bh + mh = Z.of_nat (length (bhb ++ message_header fmt ts ml mt sid ++ extended_timestamp fmt ts)) ∧
      streaming IoBuf (bhb ++ message_header fmt ts ml mt sid ++ extended_timestamp fmt ts ++ rest)
        (length (bhb ++ message_header fmt ts ml mt sid ++ extended_timestamp fmt ts)) w' ∧
      same_world IoBuf
        (with_csid_header (lengths_after fmt (csid_seen csid) ml (csid_header w)) w) w') as Hgen.
  { intros res (w' & E2 & S2 & F2) ->. unfold read_header, read_basic_header.
    rewrite (bind_ok _ _ _ _ _ E1). cbv beta iota. rewrite (bind_ok _ _ _ _ _ E2). cbv beta iota.
    eexists _, _, w'. split; [done |]. rewrite (length_app bhb). split; [lia |].
    rewrite <- app_assoc in S2. split; [done |]. rewrite Hhs in F2.
    eapply same_world_trans, F2. destruct F1 as [Ht (s & v & ->)]. split; [done |]. by exists s, v. }
  rewrite length_app in Hgen.
  unfold carried in *. destruct (fmt_cases _ Hf) as [-> | [-> | [-> | ->]]].
  - specialize (Hr0 eq_refl).
    assert (extended_timestamp 0 ts = []) as He.
    { unfold extended_timestamp. rewrite (proj2 (Z.ltb_ge _ _)) by lia. done. }
    rewrite He in *. rewrite !app_nil_l, ?app_nil_r in *.
    destruct (read_message_header_type0 (csid_seen csid) bhb ts ml mt sid rest w1 ltac:(lia) S1)
      as (w2 & E2 & S2 & F2).
    eapply Hgen; [| reflexivity]. unfold reads_as. rewrite He, app_nil_r. exists w2.
    rewrite Z.min_l, sc_to_byte, swrap_small in E2 by lia. done.
  - eapply Hgen; [apply (read_message_header_type1 _ _ _ _ _ _ _ _ Hts); [lia | done] |].
    by rewrite sc_to_byte by lia.
  - eapply Hgen; [apply (read_message_header_type2 _ _ _ _ _ _ _ _ Hts); [lia | done] |]. done.
  - eapply Hgen; [by apply read_message_header_type3 |]. done.
Qed.

Lemma csid_seen_ok csid : 2 <= csid <= 191 → csid_seen csid = csid.
Proof.
  intros Hc. unfold csid_seen. case_match; [done |]. rewrite (proj2 (Z.leb_le csid 319)) by lia.
  rewrite sc_to_byte; lia.
Qed.

Lemma write_header_fresh fmt csid ts ml mt sid (w : world S) :
  0 <= fmt <= 3 → 0 <= csid → io_buffer w = [] →
  write_header fmt csid ts ml mt sid w =
    (Ok tt, with_io_buffer (chunk_header fmt csid ts ml mt sid) w).
Proof.
  intros Hf Hc Hb. rewrite write_header_emits by (done ||
    (rewrite Hb; unfold max_size; simpl length;
     assert (length (chunk_header fmt csid ts ml mt sid) ≤ 18)%nat; [| lia];
     unfold chunk_header, message_header, extended_timestamp; rewrite !length_app, length_basic_header;
     repeat case_match; simpl; lia)).
  by rewrite Hb.
Qed.

(** C6: a chunk header that [write_header] produces is read back by
    [read_basic_header] and [read_message_header] exactly: type, chunk stream id
    and every field the type carries come back, the length is remembered for
    the chunk stream, and the reader stops at the end of the header.  This
    holds for chunk stream ids 2 to 191 and the timestamps of
    [timestamp_readable]; the next theorems show both bounds are needed. *)
Theorem chunk_header_roundtrip (fmt csid ts ml mt sid : Z) (rest : list byte) (w0 w : world S) :
  0 <= fmt <= 3 → 2 <= csid <= 191 → 0 <= ts < 2 ^ 31 → 0 <= ml < 2 ^ 24 →
  -128 <= mt < 128 → - 2 ^ 31 <= sid < 2 ^ 31 → timestamp_readable fmt ts → io_buffer w0 = [] →
  ∃ w1, write_header fmt csid ts ml mt sid w0 = (Ok tt, w1) ∧
    (streaming IoBuf (io_buffer w1 ++ rest) 0 w →
     ∃ bh mh w', read_header w = (Ok (fmt, csid, bh, mh, carried fmt ts mt sid), w') ∧
       bh + mh = Z.of_nat (length (io_buffer w1)) ∧
       streaming IoBuf (io_buffer w1 ++ rest) (length (io_buffer w1)) w' ∧
       (fmt <= 1 → message_length <$> csid_header w' !! csid = Some ml)).
Proof.
  intros Hf Hc Hts Hml Hmt Hsid Hr Hb. eexists. split; [by apply write_header_fresh; lia || done |].
  cbn [io_buffer with_io_buffer]. intros H0.
  destruct (chunk_header_read fmt csid ts ml mt sid rest w Hf ltac:(lia) Hts Hmt Hsid Hr H0)
    as (bh & mh & w' & E & Hl & S' & F). rewrite csid_seen_ok in * by done.
  exists bh, mh, w'. split_and!; try done. intros Hf1.
  destruct (same_world_this _ _ _ F) as (-> & _ & _). cbn [csid_header with_csid_header].
  unfold lengths_after, remember_length. rewrite (proj2 (Z.leb_le fmt 1)) by done.
  rewrite lookup_insert_eq, Z.mod_small by lia. done.
Qed.

(** A chunk stream id from 192 to 319 is misread: the second byte of the
    basic header is added as a signed [char], so the reader continues with the
    id minus 256, which is below 64. *)
Theorem large_csid_misread (fmt csid : Z) (rest : list byte) (w : world S) :
  0 <= fmt <= 3 → 192 <= csid <= 319 →
  streaming IoBuf (basic_header fmt csid ++ rest) 0 w →
  ∃ w', read_basic_header w = (Ok (fmt, csid - 256, 2), w').
Proof.
  intros Hf Hc H0. destruct (read_basic_header_reads IoBuf fmt csid rest w Hf ltac:(lia) H0)
    as (w' & E & _ & _). exists w'. unfold read_basic_header. rewrite E.
  rewrite length_basic_header, (proj2 (Z.leb_gt csid 63)), (proj2 (Z.leb_le csid 319)), andb_false_r by lia.
  unfold csid_seen. rewrite (proj2 (Z.leb_gt csid 63)), (proj2 (Z.leb_le csid 319)) by lia.
  do 4 f_equal. rewrite <- (to_byte_mod (csid - 64)).
  replace ((csid - 64) mod 256) with ((csid - 320) mod 256).
  - rewrite to_byte_mod, sc_to_byte by lia. lia.
  - rewrite <- (Z.mod_add (csid - 320) 1 256) by lia. f_equal. lia.
Qed.

(** [write_header] sends an extended timestamp for a type 0 header with a
    timestamp above 0xffffff, but the reader never takes it: it reports the
    timestamp 0xffffff and leaves the four bytes in the stream, where they
    are taken for payload. *)
Theorem type0_extended_timestamp_unread (csid ts ml mt sid : Z) (rest : list byte) (w : world S) :
  2 <= csid <= 191 → 0xffffff < ts < 2 ^ 31 →
  let hb := chunk_header 0 csid ts ml mt sid in
  streaming IoBuf (hb ++ rest) 0 w →
  ∃ bh mh w', read_header w = (Ok (0, csid, bh, mh, (0xffffff, sc (to_byte mt), swrap 32 sid)), w') ∧
    bh + mh = Z.of_nat (length hb) - 4 ∧ rx (sock w') = be_bytes 4 ts ++ rest.
Proof.
  intros Hc Hts hb H0. unfold hb, chunk_header in *. rewrite <- !app_assoc in *.
  assert (extended_timestamp 0 ts = be_bytes 4 ts) as He.
  { unfold extended_timestamp. by rewrite (proj2 (Z.ltb_lt _ _)) by lia. }
  destruct (read_basic_header_reads IoBuf 0 csid _ w ltac:(lia) ltac:(lia) H0) as (w1 & E1 & S1 & F1).
  destruct (read_message_header_type0 (csid_seen csid) _ ts ml mt sid _ w1 ltac:(lia) S1)
    as (w2 & E2 & S2 & F2).
  rewrite csid_seen_ok, Z.min_r in * by lia.
  unfold read_header, read_basic_header. rewrite (bind_ok _ _ _ _ _ E1). cbv beta iota.
  rewrite (bind_ok _ _ _ _ _ E2). cbv beta iota. eexists _, _, w2. split; [reflexivity |].
  rewrite !length_app, He, length_be_bytes. split.
  - change (length (message_header 0 ts ml mt sid)) with 11%nat. lia.
  - destruct S2 as (_ & _ & -> & _). rewrite He, app_assoc.
    rewrite drop_app_length'; [done |]. by rewrite length_app.
Qed.

(** The reader used while a stream is being published or played keeps, for
    each chunk stream, the fields of the last header: a header updates exactly
    the fields its type carries, and then the delta is added to the timestamp. *)
Theorem audio_video_header_updates (fmt csid ts ml mt sid : Z) (bhb rest : list byte) (w : world S) :
  0 <= fmt <= 3 → 0 <= ts < 0xffffff → 0 <= ml < 2 ^ 24 → -128 <= mt < 128 →
  - 2 ^ 31 <= sid < 2 ^ 31 → (fmt = 3 → is_Some (csid_header w !! csid)) →
  let mid := message_header fmt ts ml mt sid in
  let h := default Message_Header_new (csid_header w !! csid) in
  streaming AvBuf (bhb ++ mid ++ rest) (length bhb) w →
  ∃ w' h', read_audio_video_message_header fmt csid (Z.of_nat (length bhb)) w =
      (Ok (Z.of_nat (length mid)), w') ∧
    streaming AvBuf (bhb ++ mid ++ rest) (length bhb + length mid) w' ∧
    csid_header w' = <[csid := h']> (csid_header w) ∧
    message_length h' = (if fmt <=? 1 then ml else message_length h) ∧
    message_type h' = (if fmt <=? 1 then mt else message_type h) ∧
    stream_id h' = (if fmt =? 0 then sid else stream_id h) ∧
    timestamp_delta h' = (if fmt <=? 2 then ts else timestamp_delta h) ∧
    (1 <= fmt → timestamp h' = swrap 32 (timestamp h + timestamp_delta h')).
Proof.
  intros Hf Hts Hml Hmt Hsid H3 mid h H0.
  assert (av_reads_as fmt csid bhb ts ml mt sid rest w) as (w' & E & S' & F).
  { destruct (fmt_cases _ Hf) as [-> | [-> | [-> | ->]]].
    - by apply read_av_header_type0.
    - by apply read_av_header_type1.
    - by apply read_av_header_type2.
    - by apply read_av_header_type3; [apply H3 |]. }
  destruct (same_world_this _ _ _ F) as (Hhs & _ & _).
  eexists _, (av_entry fmt ts ml mt sid h). split; [exact E |].
  split; [by apply streaming_entry |]. cbn [entry csid_header with_csid_header]. rewrite Hhs.
  split; [done |]. by destruct (fmt_cases _ Hf) as [-> | [-> | [-> | ->]]].
Qed.

(** For a type 0 header that reader stores twice the timestamp: it copies
    the timestamp into the delta and then adds the delta. *)
Theorem audio_video_type0_timestamp_doubled (csid ts ml mt sid : Z) (bhb rest : list byte) (w : world S) :
  0 <= ts < 0xffffff → 0 <= ml < 2 ^ 24 → -128 <= mt < 128 → - 2 ^ 31 <= sid < 2 ^ 31 →
  streaming AvBuf (bhb ++ message_header 0 ts ml mt sid ++ rest) (length bhb) w →
  ∃ w', read_audio_video_message_header 0 csid (Z.of_nat (length bhb)) w = (Ok 11, w') ∧
    timestamp <$> csid_header w' !! csid = Some (2 * ts).
Proof.
  intros Hts Hml Hmt Hsid H0.
  destruct (read_av_header_type0 csid bhb ts ml mt sid rest w Hts Hml Hmt Hsid H0) as (w' & E & _ & _).
  eexists. split; [exact E |]. cbn [entry csid_header with_csid_header].
  rewrite lookup_insert_eq. cbn -[swrap]. rewrite swrap_small by lia. f_equal. lia.
Qed.

(** C11: whatever bytes arrive, in whatever pieces, and however the connection
    fails, reading a header never touches memory outside the buffer, on either
    path; and when it succeeds the buffer holds the whole header, of at most 3
    and 15 bytes. *)
Theorem header_readers_stay_in_buffer (w : world S) :
  Z.of_nat (length (io_buffer w)) < 2 ^ 61 → Z.of_nat (length (audio_video_buffer w)) < 2 ^ 61 →
  match read_header w with
  | (Ok (fmt, _, bh, mh, _), w') =>
      0 <= fmt <= 3 ∧ 1 <= bh <= 3 ∧ 0 <= mh <= 15 ∧ bh + mh <= Z.of_nat (length (io_buffer w'))
  | (Undef, _) => False
  | _ => True
  end ∧
  match read_audio_video_header w with
  | (Ok (_, bh, mh), w') => 1 <= bh <= 3 ∧ 0 <= mh <= 15 ∧ bh + mh <= Z.of_nat (length (audio_video_buffer w'))
  | (Undef, _) => False
  | _ => True
  end.
Proof.
  intros Hi Ha. split.
  - pose proof read_header_safe as Hs.
    specialize (Hs w ltac:(split; cbn; lia)).
    destruct (read_header w) as [[[[[[fmt csid] bh] mh] vals] | | | |] w']; try done.
    unfold has in Hs. cbn [buf] in Hs. lia.
  - pose proof read_audio_video_header_safe as Hs.
    specialize (Hs w ltac:(split; cbn; lia)).
    destruct (read_audio_video_header w) as [[[[csid bh] mh] | | | |] w']; try done.
    unfold has in Hs. cbn [buf] in Hs. lia.
Qed.
End properties.

(** ** Witnesses *)
Lemma chunk_header_roundtrip_witness :
  ∃ bh mh w', read_header (world_on (feed (chunk_header 1 150 0x1000000 99 9 1 ++ [x2a])))
      = (Ok (1, 150, bh, mh, (0x1000000, 9, 0)), w') ∧ bh + mh = 13.
Proof.
  destruct (chunk_header_roundtrip 1 150 0x1000000 99 9 1 [x2a] (world_on (feed []))
    (world_on (feed (chunk_header 1 150 0x1000000 99 9 1 ++ [x2a]))))
    as (w1 & E1 & H1); try lia; [split; lia | reflexivity |].
  rewrite write_header_fresh in E1 by (lia || reflexivity). simplify_eq.
  destruct H1 as (bh & mh & w' & E & Hl & _).
  { cbn [io_buffer with_io_buffer]. apply feed_streaming. reflexivity. }
  exists bh, mh, w'. split; [exact E | exact Hl].
Defined.

Lemma large_csid_misread_witness :
  ∃ w', read_basic_header (world_on (feed (basic_header 2 300 ++ []))) = (Ok (2, 44, 2), w').
Proof.
  apply (large_csid_misread 2 300 []); [lia | lia |]. apply feed_streaming. reflexivity.
Defined.

Lemma type0_extended_timestamp_unread_witness :
  ∃ bh mh w', read_header (world_on (feed (chunk_header 0 4 0x1000000 7 8 1 ++ [x2a])))
      = (Ok (0, 4, bh, mh, (0xffffff, 8, 1)), w') ∧
    bh + mh = 12 ∧ rx (sock w') = [x01; x00; x00; x00; x2a].
Proof.
  destruct (type0_extended_timestamp_unread 4 0x1000000 7 8 1 [x2a]
    (world_on (feed (chunk_header 0 4 0x1000000 7 8 1 ++ [x2a]))))
    as (bh & mh & w' & E & Hl & Hrx); [lia | lia | apply feed_streaming; reflexivity |].
  exists bh, mh, w'. split; [exact E |]. split; [exact Hl | exact Hrx].
Defined.

Lemma audio_video_header_updates_witness :
  ∃ w' h', read_audio_video_message_header 1 4 0
      (world_on (feed (message_header 1 40 7 9 1 ++ [x2a]))) = (Ok 7, w') ∧
    csid_header w' = <[4 := h']> ∅ ∧ message_length h' = 7 ∧ message_type h' = 9 ∧
    timestamp h' = 39.
Proof.
  destruct (audio_video_header_updates 1 4 40 7 9 1 [] [x2a]
    (world_on (feed (message_header 1 40 7 9 1 ++ [x2a]))))
    as (w' & h' & E & _ & Hh & H1 & H2 & _ & Hd & Ht); try lia;
    [apply feed_streaming; reflexivity |].
  exists w', h'. split; [exact E |]. split; [exact Hh |]. split; [exact H1 |]. split; [exact H2 |].
  rewrite (Ht ltac:(lia)), Hd. reflexivity.
Defined.

Lemma audio_video_type0_timestamp_doubled_witness :
  ∃ w', read_audio_video_message_header 0 4 0
      (world_on (feed (message_header 0 1000 7 9 1 ++ [x2a]))) = (Ok 11, w') ∧
    timestamp <$> csid_header w' !! 4 = Some 2000.
Proof.
  apply (audio_video_type0_timestamp_doubled 4 1000 7 9 1 [] [x2a]); try lia.
  apply feed_streaming. reflexivity.
Defined.

Lemma header_readers_stay_in_buffer_witness :
  match read_header (world_on closing) with (Undef, _) => False | _ => True end.
Proof.
  destruct (header_readers_stay_in_buffer (world_on closing) ltac:(done) ltac:(done)) as [H _].
  destruct (read_header (world_on closing)) as [[] ?]; [exact I | exact I | exact I | exact H | exact I].
Defined.
