(* ===== verification/Amf.v ===== *)
(** * io_message.cpp: objects (the AMF0 encoding of named values)

    [write_object], [get_payload_size] and [read_object], with the encoding
    they implement. *)

From stdpp Require Import base list gmap.
From Stdlib Require Import Lia ZArith.
From S2P Require Import Prelude.
From S2P Require Import Bytes.
From S2P Require Import Util.
From S2P Require Import State.
From S2P Require Import IoBuffer.
From S2P Require Import IoSocket.
From S2P Require Import Emit.

Local Open Scope Z_scope.

(** socket_demo_define.h *)
Definition MESSAGE_BOOLEAN : Z := 0x01.
Definition MESSAGE_STRING : Z := 0x02.
Definition MESSAGE_NUM : Z := 0x00.
Definition MESSAGE_OBJECT : Z := 0x03.
Definition MESSAGE_END_OF_OBJECT : Z := 0x09.
Definition MESSAFE_NULL_OBJECT : Z := 0x05.
Definition MESSAFE_UNDEFINED : Z := 0x06.

(** ** Writing *)
Section write.
Context {S : Type}.

(** A string with its length: [int16_t len = s.size(); ... push_back(s.c_str(), (size_t)len);] *)
Definition put_string (s : list byte) : M (world S) unit :=
  let len := swrap 16 (Z.of_nat (length s)) in
  put_int16 len ;; push IoBuf (s ++ [x00]) len.

(** One round of the inner loop of [write_object]. *)
Definition write_property (kv : list byte * Value_Object) : M (world S) unit :=
  put_string kv.1 ;;
  match kv.2 with
  | Value_String value => push IoBuf [x02] 1 ;; put_string value
  | Value_Num value => push IoBuf [x00] 1 ;; put_int64 value
  | Value_Len value => push IoBuf [x08] 1 ;; put_int32 value
  | Value_0x01 _ => fail
  end.

(** [00 00 09] *)
Definition write_end_of_object : M (world S) unit := put_int16 0 ;; push IoBuf [x09] 1.

(** The loop over the objects and the end marker after several of them. *)
Definition write_objects (vec : list properties) : M (world S) unit :=
  for_each (λ props,
    push IoBuf [x03] 1 ;; for_each write_property props ;; write_end_of_object) vec ;;
  if (1 <? length vec)%nat then write_end_of_object else ret tt.

(** [IO_Message::write_object] *)
Definition write_object (vec : list properties) : M (world S) unit :=
  if (length vec =? 0)%nat then push IoBuf [x05] 1 else write_objects vec.
End write.

(** [IO_Message::get_payload_size]; an [int], with -1 for a value it does not know. *)
Definition value_size (v : Value_Object) : option Z :=
  match v with
  | Value_String value => Some (2 + Z.of_nat (length value))
  | Value_Num _ => Some 8
  | Value_Len _ => Some 4
  | Value_0x01 _ => None
  end.

Definition add_int (a b : Z) : Z := swrap 32 (a + b).

Fixpoint properties_size (props : properties) (payload_size : Z) : option Z :=
  match props with
  | [] => Some payload_size
  | (k, v) :: props =>
      let payload_size := add_int (add_int (add_int payload_size 2) (Z.of_nat (length k))) 1 in
      match value_size v with
      | Some n => properties_size props (add_int payload_size n)
      | None => None
      end
  end.

Fixpoint objects_size (vec : list properties) (payload_size : Z) : option Z :=
  match vec with
  | [] => Some payload_size
  | props :: vec =>
      match properties_size props (add_int payload_size 1) with
      | Some payload_size => objects_size vec (add_int payload_size 3)
      | None => None
      end
  end.

Definition get_payload_size (command_name : list byte) (vec : list properties) : Z :=
  match objects_size vec (swrap 32 (3 + Z.of_nat (length command_name) + 9)) with
  | Some payload_size => if (1 <? length vec)%nat then add_int payload_size 3 else payload_size
  | None => -1
  end.

(** ** Reading *)

(** A pointer into the buffer together with the map being filled. *)
Definition reading : Type := nat * gmap (list byte) Value_Object.

(** Code that moves the pointer only. *)
Definition on_ptr {X A : Type} (c : M nat A) : M (nat * X) A := λ s,
  let '(o, p) := c s.1 in (o, (p, s.2)).

(** [object.insert(pair(key, value));]: an existing key keeps its value. *)
Definition object_insert (key : list byte) (v : Value_Object) : M reading unit := λ s,
  (Ok tt, (s.1, match s.2 !! key with Some _ => s.2 | None => <[key := v]> s.2 end)).

Section read.
Context (buf : list byte).

(** [p < end && *p++ == m]: the pointer moves if the first test holds. *)
Definition next_is (m : Z) : M nat bool :=
  p <- tell ;;
  if at_end buf p then ret false else b <- next buf ;; ret (sc b =? m).

(** [p < end && *p == m] *)
Definition peek_is (m : Z) : M nat bool :=
  p <- tell ;;
  if at_end buf p then ret false else b <- lift (deref buf p) ;; ret (sc b =? m).

(** [*p] stands after a key: the value and the insertion. *)
Definition read_value (key : list byte) : M reading unit :=
  num <- on_ptr (peek_is MESSAGE_NUM) ;;
  if num then
    on_ptr (advance 1) ;;
    value <- on_ptr (be2se_double buf) ;;
    object_insert key (Value_Num value) ;;
    on_ptr (advance 8)
  else
    str <- on_ptr (peek_is MESSAGE_STRING) ;;
    if str then
      on_ptr (advance 1) ;;
      len_str <- on_ptr (be2se_uint16 buf) ;;
      if len_str <=? 0 then fail else
      on_ptr (advance 2) ;;
      p <- on_ptr tell ;;
      if (length buf <? p + Z.to_nat len_str)%nat then fail else
      value <- on_ptr (append_from buf len_str) ;;
      object_insert key (Value_String value) ;;
      on_ptr (advance (Z.to_nat len_str))
    else
      bool <- on_ptr (peek_is MESSAGE_BOOLEAN) ;;
      if bool then
        on_ptr (advance 1) ;;
        value <- on_ptr (next buf) ;;
        object_insert key (Value_0x01 value)
      else fail.

(** One round of the loop of [read_object]: [true] to go on, [false] when the
    function returns 0. *)
Definition read_object_round : M reading bool :=
  len <- on_ptr (be2se_int16 buf) ;;
  if len =? 0x00 then
    on_ptr (advance 2) ;;
    end_of_object <- on_ptr (next_is MESSAGE_END_OF_OBJECT) ;;
    if end_of_object then
      p <- on_ptr tell ;;
      if at_end buf p then ret false else
      end_flag <- on_ptr (be2se_int16 buf) ;;
      if end_flag =? 0x00 then ret false else
      on_ptr (advance 2) ;;
      object <- on_ptr (next_is MESSAGE_OBJECT) ;;
      if object then ret true else fail
    else fail
  else
    on_ptr (advance 2) ;;
    p <- on_ptr tell ;;
    if Z.of_nat p + len <=? Z.of_nat (length buf) then
      key <- on_ptr (append_from buf len) ;;
      on_ptr (advance (Z.to_nat len)) ;;
      read_value key ;;
      ret true
    else fail.

Fixpoint read_object_loop (fuel : nat) : M reading unit :=
  match fuel with
  | O => lift Hang
  | Datatypes.S fuel =>
      p <- on_ptr tell ;;
      if at_end buf p then fail else
      more <- read_object_round ;;
      if more then read_object_loop fuel else ret tt
  end.

(** Every round moves the pointer forward ([read_object_terminates]). *)
Definition read_object_fuel : nat := Datatypes.S (length buf).

(** [IO_Message::read_object] *)
Definition read_object : M reading unit := read_object_loop read_object_fuel.
End read.

(** ** The encoding *)
Definition string_bytes (s : list byte) : list byte := be_bytes 2 (Z.of_nat (length s)) ++ s.

Definition value_bytes (v : Value_Object) : list byte :=
  match v with
  | Value_String s => x02 :: string_bytes s
  | Value_Num bits => x00 :: be_bytes 8 bits
  | Value_Len n => x08 :: be_bytes 4 n
  | Value_0x01 b => [x01; b]
  end.

Definition property_bytes (kv : list byte * Value_Object) : list byte :=
  string_bytes kv.1 ++ value_bytes kv.2.

Definition end_of_object : list byte := [x00; x00; x09].

Definition object_bytes (props : properties) : list byte :=
  x03 :: (props ≫= property_bytes) ++ end_of_object.

Definition objects_bytes (vec : list properties) : list byte :=
  (vec ≫= object_bytes) ++ (if (1 <? length vec)%nat then end_of_object else []).

(** Strings whose length is not cut by [int16_t]. *)
Definition short_string (s : list byte) : Prop := Z.of_nat (length s) < 2 ^ 15.

(** What [write_object] can write. *)
Definition writable (kv : list byte * Value_Object) : Prop :=
  short_string kv.1 ∧
  match kv.2 with
  | Value_String s => short_string s
  | Value_0x01 _ => False
  | _ => True
  end.

Section write_lemmas.
Context {S : Type}.

Lemma emits_put_string s : short_string s → @emits S (put_string s) (string_bytes s).
Proof.
  unfold short_string. intros Hs. unfold put_string, string_bytes.
  rewrite swrap_small by lia. apply emits_bind_unit; [apply emits_put_int16 | by apply emits_c_str].
Qed.

Lemma emits_byte b : @emits S (push IoBuf [b] 1) [b].
Proof. by apply emits_push_all. Qed.

Lemma emits_write_property kv : writable kv → @emits S (write_property kv) (property_bytes kv).
Proof.
  destruct kv as [k v]. intros [Hk Hv]. unfold write_property, property_bytes. cbn [fst snd] in *.
  apply emits_bind_unit; [by apply emits_put_string |].
  destruct v; try done; apply (emits_bind_unit _ _ [_]); try apply emits_byte.
  - by apply emits_put_string.
  - apply emits_put_int64.
  - apply emits_put_int32.
Qed.

Lemma emits_end_of_object : @emits S write_end_of_object end_of_object.
Proof. apply (emits_bind_unit _ _ [x00; x00]); [apply emits_put_int16 | apply emits_byte]. Qed.

Lemma emits_write_objects vec :
  Forall (Forall writable) vec → @emits S (write_objects vec) (objects_bytes vec).
Proof.
  intros Hv. unfold write_objects, objects_bytes. apply emits_bind_unit.
  - apply emits_for_each. eapply Forall_impl; [exact Hv |]. intros props Hp.
    apply (emits_bind_unit _ _ [x03]); [apply emits_byte |].
    apply emits_bind_unit, emits_end_of_object. apply emits_for_each.
    eapply Forall_impl; [exact Hp |]. apply emits_write_property.
  - apply emits_if; [apply emits_end_of_object | apply emits_ret].
Qed.

Lemma emits_write_object vec :
  Forall (Forall writable) vec →
  @emits S (write_object vec) (if (length vec =? 0)%nat then [x05] else objects_bytes vec).
Proof. intros Hv. apply emits_if; [apply emits_byte | by apply emits_write_objects]. Qed.
End write_lemmas.

(** ** Sizes *)
Lemma length_string_bytes s : length (string_bytes s) = (2 + length s)%nat.
Proof. unfold string_bytes. by rewrite length_app, length_be_bytes. Qed.

Lemma length_value_bytes v :
  match value_size v with
  | Some n => Z.of_nat (length (value_bytes v)) = 1 + n
  | None => True
  end.
Proof. destruct v; cbn; rewrite ?length_string_bytes, ?length_be_bytes; lia. Qed.

Lemma add_int_swrap a b : add_int (swrap 32 a) b = swrap 32 (a + b).
Proof.
  unfold add_int. unfold swrap at 1 3. 
  assert (wrap 32 (swrap 32 a + b) = wrap 32 (a + b)) as ->; [| done].
  unfold wrap. rewrite <- Z.add_mod_idemp_l by lia.
  pose proof (swrap_wrap 32 a ltac:(lia)) as H. unfold wrap in H. rewrite H.
  by rewrite Z.add_mod_idemp_l by lia.
Qed.

Lemma properties_size_spec props n :
  Forall writable props →
  properties_size props (swrap 32 n) =
    Some (swrap 32 (n + Z.of_nat (length (props ≫= property_bytes)))).
Proof.
  intros Hp. revert n. induction Hp as [| [k v] props [Hk Hv] _ IH]; intros n; cbn [properties_size].
  - cbn. by rewrite Z.add_0_r.
  - rewrite !add_int_swrap. pose proof (length_value_bytes v) as Hl. cbn [snd] in Hv.
    destruct (value_size v) as [m |] eqn:E; [| by destruct v].
    rewrite add_int_swrap, IH. do 2 f_equal. rewrite length_bind_cons. unfold property_bytes at 2.
    rewrite length_app, length_string_bytes. cbn [fst snd]. lia.
Qed.

Lemma objects_size_spec vec n :
  Forall (Forall writable) vec →
  objects_size vec (swrap 32 n) = Some (swrap 32 (n + Z.of_nat (length (vec ≫= object_bytes)))).
Proof.
  intros Hv. revert n. induction Hv as [| props vec Hp _ IH]; intros n; cbn [objects_size].
  - cbn. by rewrite Z.add_0_r.
  - rewrite add_int_swrap, properties_size_spec, add_int_swrap, IH by done.
    do 2 f_equal. rewrite length_bind_cons. unfold object_bytes at 2. cbn [length].
    rewrite length_app. cbn. lia.
Qed.

(** The size is that of a command: marker, length and name, a number, and the
    objects. *)
Lemma get_payload_size_spec name vec :
  Forall (Forall writable) vec →
  get_payload_size name vec =
    swrap 32 (3 + Z.of_nat (length name) + 9 + Z.of_nat (length (objects_bytes vec))).
Proof.
  intros Hv. unfold get_payload_size, objects_bytes. rewrite objects_size_spec by done.
  rewrite length_app. case_match; rewrite ?add_int_swrap; f_equal; cbn; lia.
Qed.

(** ** Reading what was written *)
Section on_ptr.
Context {X : Type}.
Implicit Types (p : nat) (m : X).

Lemma on_ptr_bind {A B : Type} (c : M nat A) (k : A → M (nat * X) B) p m a p' :
  c p = (Ok a, p') → bind (on_ptr c) k (p, m) = k a (p', m).
Proof. intros H. apply bind_ok. unfold on_ptr. cbn. by rewrite H. Qed.

Lemma on_ptr_fail {A B : Type} (c : M nat A) (k : A → M (nat * X) B) p m p' :
  c p = (Fail, p') → bind (on_ptr c) k (p, m) = (Fail, (p', m)).
Proof. intros H. apply bind_fail. unfold on_ptr. cbn. by rewrite H. Qed.

Lemma on_ptr_throw {A B : Type} (c : M nat A) (k : A → M (nat * X) B) p m p' :
  c p = (Throw, p') → bind (on_ptr c) k (p, m) = (Throw, (p', m)).
Proof. intros H. unfold bind, on_ptr. cbn [fst snd]. by rewrite H. Qed.

Lemma on_ptr_undef {A B : Type} (c : M nat A) (k : A → M (nat * X) B) p m p' :
  c p = (Undef, p') → bind (on_ptr c) k (p, m) = (Undef, (p', m)).
Proof. intros H. unfold bind, on_ptr. cbn [fst snd]. by rewrite H. Qed.
End on_ptr.

(** What [read_object] accepts: keys and strings are not empty, and there is no
    case for [Value_Len]. *)
Definition readable (kv : list byte * Value_Object) : Prop :=
  kv.1 ≠ [] ∧ short_string kv.1 ∧
  match kv.2 with
  | Value_String s => s ≠ [] ∧ Z.of_nat (length s) < 2 ^ 16
  | Value_Num bits => 0 <= bits < 2 ^ 64
  | Value_Len _ => False
  | Value_0x01 _ => True
  end.

(** The map after inserting the properties in order: the first value of a key
    stays. *)
Definition insert_new (m : gmap (list byte) Value_Object) (kv : list byte * Value_Object) :
    gmap (list byte) Value_Object :=
  match m !! kv.1 with Some _ => m | None => <[kv.1 := kv.2]> m end.

Definition insert_all (props : properties) (m : gmap (list byte) Value_Object) :=
  foldl insert_new m props.

Section read_lemmas.
Implicit Types (buf rest key : list byte) (m : gmap (list byte) Value_Object).

Lemma peek_is_at buf x p b rest :
  cursor_at buf p (b :: rest) → peek_is buf x p = (Ok (sc b =? x), p).
Proof.
  intros H. unfold peek_is, bind, tell. cbn. rewrite (at_end_at _ _ _ H). cbn.
  pose proof (next_at _ _ _ _ H) as E. unfold next, bind, tell in E. cbn in E.
  by destruct (deref buf p); simplify_eq.
Qed.

Lemma next_is_at buf x p b rest :
  cursor_at buf p (b :: rest) → next_is buf x p = (Ok (sc b =? x), (p + 1)%nat).
Proof.
  intros H. unfold next_is, bind at 1, tell. cbn [gets]. rewrite (at_end_at _ _ _ H).
  change (bool_decide (b :: rest = [])) with false. cbv iota.
  by rewrite (bind_ok _ _ _ _ _ (next_at _ _ _ _ H)).
Qed.

Ltac step L := rewrite (on_ptr_bind _ _ _ _ _ _ L); cbv beta iota.

Lemma read_value_at buf key v p rest m :
  match v with
  | Value_String s => s ≠ [] ∧ Z.of_nat (length s) < 2 ^ 16
  | Value_Num bits => 0 <= bits < 2 ^ 64
  | Value_Len _ => False
  | Value_0x01 _ => True
  end →
  cursor_at buf p (value_bytes v ++ rest) →
  read_value buf key (p, m) = (Ok tt, ((p + length (value_bytes v))%nat, insert_new m (key, v))).
Proof.
  intros Hv H. unfold read_value. destruct v as [s | bits | | b]; [| | done |]; cbn [value_bytes app] in *.
  - destruct Hv as [Hne Hl]. assert (0 < length s)%nat by (destruct s; [done | simpl; lia]).
    step (peek_is_at buf MESSAGE_NUM _ _ _ H). change (sc x02 =? MESSAGE_NUM) with false. cbv iota.
    step (peek_is_at buf MESSAGE_STRING _ _ _ H). change (sc x02 =? MESSAGE_STRING) with true. cbv iota.
    apply (cursor_at_skip _ _ [_]) in H. unfold string_bytes in *. rewrite <- app_assoc in H.
    step (eq_refl (advance 1 p)). cbn [length] in H.
    step (be2se_uint16_at buf _ (Z.of_nat (length s)) _ ltac:(lia) H). rewrite (proj2 (Z.leb_gt _ _)) by lia.
    apply cursor_at_skip in H. rewrite length_be_bytes in H. step (eq_refl (advance 2 (p + 1)%nat)).
    step (eq_refl (tell (p + 1 + 2)%nat)). pose proof (cursor_at_length _ _ _ H) as Hlen.
    rewrite length_app in Hlen. rewrite Nat2Z.id, (proj2 (Nat.ltb_ge _ _)) by lia.
    step (append_from_at buf _ s _ H ltac:(unfold max_size; lia)).
    cbn -[be_bytes]. rewrite length_app, length_be_bytes. do 2 f_equal. lia.
  - step (peek_is_at buf MESSAGE_NUM _ _ _ H). change (sc x00 =? MESSAGE_NUM) with true. cbv iota.
    apply (cursor_at_skip _ _ [_]) in H. step (eq_refl (advance 1 p)). cbn [length] in H.
    step (be2se_double_at buf _ bits _ Hv H). cbn -[be_bytes]. do 2 f_equal. rewrite length_be_bytes. lia.
  - step (peek_is_at buf MESSAGE_NUM _ _ _ H). change (sc x01 =? MESSAGE_NUM) with false. cbv iota.
    step (peek_is_at buf MESSAGE_STRING _ _ _ H). change (sc x01 =? MESSAGE_STRING) with false. cbv iota.
    step (peek_is_at buf MESSAGE_BOOLEAN _ _ _ H). change (sc x01 =? MESSAGE_BOOLEAN) with true. cbv iota.
    apply (cursor_at_skip _ _ [_]) in H. step (eq_refl (advance 1 p)). cbn [length] in H.
    step (next_at _ _ _ _ H). unfold object_insert. do 2 f_equal. cbn. lia.
Qed.

Lemma read_object_round_at buf kv p rest m :
  readable kv → cursor_at buf p (property_bytes kv ++ rest) →
  read_object_round buf (p, m) = (Ok true, ((p + length (property_bytes kv))%nat, insert_new m kv)).
Proof.
  destruct kv as [key v]. intros (Hne & Hs & Hv) H. cbn [fst snd] in *.
  unfold short_string in Hs. assert (0 < length key)%nat by (destruct key; [done | simpl; lia]).
  unfold read_object_round, property_bytes, string_bytes in *. cbn [fst snd] in *.
  rewrite <- !app_assoc in H. step (be2se_int16_at buf _ (Z.of_nat (length key)) _ ltac:(lia) H).
  rewrite (proj2 (Z.eqb_neq _ _)) by lia. apply cursor_at_skip in H. rewrite length_be_bytes in H.
  step (eq_refl (advance 2 p)). step (eq_refl (tell (p + 2)%nat)).
  pose proof (cursor_at_length _ _ _ H) as Hlen. rewrite length_app in Hlen.
  rewrite (proj2 (Z.leb_le _ _)) by lia.
  step (append_from_at buf _ key _ H ltac:(unfold max_size; lia)).
  apply cursor_at_skip in H. rewrite Nat2Z.id. step (eq_refl (advance (length key) (p + 2)%nat)).
  rewrite (bind_ok _ _ _ _ _ (read_value_at _ key v _ _ m Hv H)).
  cbn [ret]. do 2 f_equal. rewrite !length_app, length_be_bytes. lia.
Qed.

(** The end marker, at the end of the buffer or before two zero bytes. *)
Lemma read_object_round_end buf p m :
  cursor_at buf p end_of_object →
  read_object_round buf (p, m) = (Ok false, ((p + 3)%nat, m)).
Proof.
  intros H. unfold read_object_round.
  step (be2se_int16_at buf p 0 [x09] ltac:(lia) H). change (0 =? 0x00) with true. cbv iota.
  apply (cursor_at_skip _ _ [_; _]) in H. step (eq_refl (advance 2 p)). cbn [length] in H.
  step (next_is_at buf MESSAGE_END_OF_OBJECT _ _ _ H).
  change (sc x09 =? MESSAGE_END_OF_OBJECT) with true. cbv iota.
  apply (cursor_at_skip _ _ [_]) in H. cbn [length] in H.
  step (eq_refl (tell (p + 2 + 1)%nat)). rewrite (at_end_at _ _ _ H). cbn. do 2 f_equal. lia.
Qed.

Lemma read_object_loop_at buf props fuel p m :
  Forall readable props → (length props < fuel)%nat →
  cursor_at buf p ((props ≫= property_bytes) ++ end_of_object) →
  read_object_loop buf fuel (p, m) = (Ok tt, (length buf, insert_all props m)).
Proof.
  intros Hp. revert fuel p m. induction Hp as [| kv props Hkv Hp IH]; intros fuel p m Hf H;
    (destruct fuel as [| fuel]; [simpl in Hf; lia |]); cbn [read_object_loop];
    step (eq_refl (tell p)); rewrite (at_end_at _ _ _ H).
  - change (([] ≫= property_bytes) ++ end_of_object) with end_of_object in *.
    change (bool_decide (end_of_object = [])) with false. cbv iota.
    rewrite (bind_ok _ _ _ _ _ (read_object_round_end _ _ _ H)). cbn.
    apply cursor_at_length in H. by rewrite H.
  - rewrite bind_cons, <- app_assoc in *. rewrite bool_decide_eq_false_2.
    2:{ unfold property_bytes, string_bytes. intros E. apply (f_equal length) in E.
        rewrite !length_app, length_be_bytes in E. simpl in E. lia. }
    rewrite (bind_ok _ _ _ _ _ (read_object_round_at _ _ _ _ m Hkv H)). cbv iota.
    apply cursor_at_skip in H. cbn [insert_all foldl]. apply IH; [simpl in Hf; lia | done].
Qed.

Lemma length_props_le props : (length props ≤ length (props ≫= property_bytes))%nat.
Proof.
  induction props as [| kv props IH]; [done |].
  rewrite length_bind_cons. unfold property_bytes at 1. rewrite length_app, length_string_bytes. simpl. lia.
Qed.

(** The fuel is enough for an object. *)
Lemma read_object_at buf props p m :
  Forall readable props →
  cursor_at buf p ((props ≫= property_bytes) ++ end_of_object) →
  read_object buf (p, m) = (Ok tt, (length buf, insert_all props m)).
Proof.
  intros Hp H. apply (read_object_loop_at _ props); [done | | done].
  unfold read_object_fuel. apply cursor_at_length in H. rewrite length_app in H.
  pose proof (length_props_le props). lia.
Qed.
End read_lemmas.

(** ** On any input *)
Section total.
Context (buf : list byte).
Implicit Types (key : list byte) (m : gmap (list byte) Value_Object) (p : nat).

Lemma of_le_s_range w l : 0 < w → - 2 ^ (w - 1) <= of_le_s w l < 2 ^ (w - 1).
Proof. apply swrap_range. Qed.

Lemma be2se_int16_total p :
  be2se_int16 buf p = (Fail, p) ∨
  ((p + 2 ≤ length buf)%nat ∧ ∃ z, - 2 ^ 15 <= z < 2 ^ 15 ∧ be2se_int16 buf p = (Ok z, p)).
Proof.
  unfold be2se_int16, bind.
  destruct (be2se_total buf _ _ p be2se_2bytes_swaps) as [-> | (Hp & l & _ & ->)]; [by left |].
  right. split; [done |]. eexists. split; [| done]. by apply (of_le_s_range 16).
Qed.

Lemma be2se_uint16_total p :
  be2se_uint16 buf p = (Fail, p) ∨
  ((p + 2 ≤ length buf)%nat ∧ ∃ z, 0 <= z < 2 ^ 16 ∧ be2se_uint16 buf p = (Ok z, p)).
Proof.
  unfold be2se_uint16, bind.
  destruct (be2se_total buf _ _ p be2se_2bytes_swaps) as [-> | (Hp & l & Hl & ->)]; [by left |].
  right. split; [done |]. eexists. split; [| done].
  pose proof (of_le_range l) as H. by rewrite Hl in H.
Qed.

Lemma be2se_double_total p :
  be2se_double buf p = (Fail, p) ∨
  ((p + 8 ≤ length buf)%nat ∧ ∃ z, be2se_double buf p = (Ok z, p)).
Proof.
  unfold be2se_double, bind.
  destruct (be2se_total buf _ _ p be2se_8bytes_swaps) as [-> | (Hp & l & _ & ->)]; [by left |].
  right. split; [done |]. by eexists.
Qed.

Lemma deref_total p : (p ≤ length buf)%nat → ∃ b, deref buf p = Ok b.
Proof.
  intros Hp. unfold deref. destruct (IO_Buffer.get_data buf !! p) eqn:E; [by eexists |].
  apply lookup_ge_None in E. unfold IO_Buffer.get_data in E. rewrite length_app in E. simpl in E. lia.
Qed.

Lemma at_end_spec p : at_end buf p = false ↔ (p < length buf)%nat.
Proof. unfold at_end. apply Nat.leb_gt. Qed.

Lemma peek_is_total x p :
  ∃ b, peek_is buf x p = (Ok b, p) ∧ (b = true → (p < length buf)%nat).
Proof.
  unfold peek_is, bind at 1, tell. cbn [gets]. destruct (at_end buf p) eqn:E.
  - exists false. split; [done | discriminate].
  - apply at_end_spec in E. destruct (deref_total p ltac:(lia)) as [b Hb].
    exists (sc b =? x). unfold bind. cbn. by rewrite Hb.
Qed.

Lemma next_is_total x p :
  ∃ b, next_is buf x p = (Ok b, (if (p <? length buf)%nat then p + 1 else p)%nat) ∧
    (b = true → (p < length buf)%nat).
Proof.
  unfold next_is, bind at 1, tell. cbn [gets]. destruct (at_end buf p) eqn:E.
  - exists false. split; [| discriminate]. unfold at_end in E. apply Nat.leb_le in E.
    rewrite (proj2 (Nat.ltb_ge _ _)) by lia. done.
  - apply at_end_spec in E. destruct (deref_total p ltac:(lia)) as [b Hb].
    exists (sc b =? x). unfold next, bind. cbn. rewrite Hb, (proj2 (Nat.ltb_lt _ _)) by lia. done.
Qed.

(** A copy of [len] bytes that stays inside the buffer when [len] is not
    negative; a negative length throws. *)
Lemma append_from_total len p :
  - 2 ^ 63 <= len < 2 ^ 61 → (p ≤ length buf)%nat → Z.of_nat p + len <= Z.of_nat (length buf) →
  (0 <= len ∧ ∃ s, append_from buf len p = (Ok s, p)) ∨
  (len < 0 ∧ append_from buf len p = (Throw, p)).
Proof.
  intros Hl Hp Hb. unfold append_from, bind, tell. cbn. destruct (decide (0 <= len)).
  - left. split; [done |]. rewrite append_ok; [by eexists | | unfold max_size; simpl; lia].
    unfold IO_Buffer.get_data. rewrite length_drop, length_app. simpl. lia.
  - right. split; [lia |]. by rewrite append_negative by lia.
Qed.

(** How a step may end: going on, with the pointer in range and not moved
    back, or returning -1 or throwing. *)
Definition steps_to {A : Type} (r : outcome A * reading) (Q : A → nat → Prop) : Prop :=
  match r with
  | (Ok a, (p, _)) => Q a p
  | (Fail, _) | (Throw, _) => True
  | _ => False
  end.

Ltac step L := rewrite (on_ptr_bind _ _ _ _ _ _ L); cbv beta iota.
Ltac step_fail L := rewrite (on_ptr_fail _ _ _ _ _ L); exact I.

Lemma read_value_total key p m :
  (p ≤ length buf)%nat →
  steps_to (read_value buf key (p, m)) (λ _ p', (p ≤ p' ≤ length buf + 1)%nat).
Proof.
  intros Hp. unfold read_value.
  destruct (peek_is_total MESSAGE_NUM p) as (b1 & E1 & H1). step E1. destruct b1.
  { specialize (H1 eq_refl). step (eq_refl (advance 1 p)).
    destruct (be2se_double_total (p + 1)) as [E | (Hb & z & E)]; [step_fail E |].
    step E. cbn. lia. }
  destruct (peek_is_total MESSAGE_STRING p) as (b2 & E2 & H2). step E2. destruct b2.
  { specialize (H2 eq_refl). step (eq_refl (advance 1 p)).
    destruct (be2se_uint16_total (p + 1)) as [E | (Hb & z & Hz & E)]; [step_fail E |].
    step E. destruct (Z.leb_spec z 0); [exact I |].
    step (eq_refl (advance 2 (p + 1)%nat)). step (eq_refl (tell (p + 1 + 2)%nat)).
    destruct (Nat.ltb_spec (length buf) (p + 1 + 2 + Z.to_nat z)); [exact I |].
    destruct (append_from_total z (p + 1 + 2)) as [[_ [s E4]] | [? _]]; try lia.
    step E4. cbn. lia. }
  destruct (peek_is_total MESSAGE_BOOLEAN p) as (b3 & E3 & H3). step E3. destruct b3; [| exact I].
  specialize (H3 eq_refl). step (eq_refl (advance 1 p)).
  assert (∃ x, next buf (p + 1)%nat = (Ok x, (p + 1 + 1)%nat)) as [x E].
  { destruct (deref_total (p + 1) ltac:(lia)) as [x E]. exists x. unfold next, bind. cbn. by rewrite E. }
  step E. cbn. lia.
Qed.

Lemma read_object_round_total p m :
  (p < length buf)%nat →
  steps_to (read_object_round buf (p, m))
    (λ more p', more = true → (p < p' ≤ length buf + 1)%nat).
Proof.
  intros Hp. unfold read_object_round.
  destruct (be2se_int16_total p) as [E | (Hb & len & Hlen & E)]; [step_fail E |]. step E.
  destruct (Z.eqb_spec len 0) as [-> | Hne].
  - step (eq_refl (advance 2 p)).
    destruct (next_is_total MESSAGE_END_OF_OBJECT (p + 2)) as (b1 & E1 & H1). step E1.
    destruct b1; [| exact I]. specialize (H1 eq_refl).
    rewrite (proj2 (Nat.ltb_lt _ _)) by lia. step (eq_refl (tell (p + 2 + 1)%nat)).
    destruct (at_end buf (p + 2 + 1)) eqn:Ee; [by cbn |].
    destruct (be2se_int16_total (p + 2 + 1)) as [E2 | (Hb2 & fl & _ & E2)]; [step_fail E2 |]. step E2.
    destruct (fl =? 0); [by cbn |]. step (eq_refl (advance 2 (p + 2 + 1)%nat)).
    destruct (next_is_total MESSAGE_OBJECT (p + 2 + 1 + 2)) as (b3 & E3 & H3). step E3.
    destruct b3; [| exact I]. specialize (H3 eq_refl).
    rewrite (proj2 (Nat.ltb_lt _ _)) by lia. cbn. lia.
  - step (eq_refl (advance 2 p)). step (eq_refl (tell (p + 2)%nat)).
    destruct (Z.leb_spec (Z.of_nat (p + 2) + len) (Z.of_nat (length buf))); [| exact I].
    destruct (append_from_total len (p + 2)) as [[Hl [key E4]] | [? E4]]; try lia.
    2:{ by rewrite (on_ptr_throw _ _ _ _ _ E4). }
    step E4. step (eq_refl (advance (Z.to_nat len) (p + 2)%nat)).
    pose proof (read_value_total key (p + 2 + Z.to_nat len) m ltac:(lia)) as Hv.
    unfold bind at 1. unfold steps_to in *.
    destruct (read_value buf key _) as [[[] | | | |] [p' m']]; try done. cbn. intros _. lia.
Qed.

Lemma read_object_loop_total fuel p m :
  (length buf < p + fuel)%nat → (0 < fuel)%nat →
  match read_object_loop buf fuel (p, m) with
  | (Ok _, _) | (Fail, _) | (Throw, _) => True
  | _ => False
  end.
Proof.
  revert p m. induction fuel as [| fuel IH]; intros p m Hf Hf0; [lia |].
  cbn [read_object_loop]. step (eq_refl (tell p)).
  destruct (at_end buf p) eqn:Ee; [exact I |]. apply at_end_spec in Ee.
  pose proof (read_object_round_total p m Ee) as Hr. unfold bind. unfold steps_to in Hr.
  destruct (read_object_round buf (p, m)) as [[more | | | |] [p' m']]; try done.
  destruct more; [| exact I]. specialize (Hr eq_refl).
  destruct fuel as [| fuel]; [lia |]. apply IH; lia.
Qed.
End total.

(** ** Properties *)

(** C12: [get_payload_size] is the length of what [write_object] writes after a
    command name and a transaction id: the marker, two length bytes and the
    name, nine bytes for the number, and the objects. *)
Theorem get_payload_size_exact {S : Type} (command_name : list byte) (vec : list properties) (w : world S) :
  vec ≠ [] → Forall (Forall writable) vec →
  12 + Z.of_nat (length command_name) + Z.of_nat (length (objects_bytes vec)) < 2 ^ 31 →
  Z.of_nat (length (io_buffer w)) < 2 ^ 61 →
  ∃ w', write_object vec w = (Ok tt, w') ∧
    get_payload_size command_name vec =
      12 + Z.of_nat (length command_name) +
      (Z.of_nat (length (io_buffer w')) - Z.of_nat (length (io_buffer w))).
Proof.
  intros Hne Hv Hl Hw. exists (with_io_buffer (io_buffer w ++ objects_bytes vec) w).
  assert (length vec =? 0 = false)%nat as Hvec by (by destruct vec).
  pose proof (emits_write_object (S:=S) vec Hv w) as He. rewrite Hvec in He.
  split; [apply He; unfold max_size; lia |].
  rewrite get_payload_size_spec by done. cbn [io_buffer with_io_buffer]. rewrite length_app.
  rewrite swrap_small by lia. lia.
Qed.

(** C9: an object of named strings and numbers that [write_object] writes is
    read back by [read_object]: it returns 0 at the end of the buffer and the
    map holds the first value of every key. *)
Theorem object_roundtrip {S : Type} (props : properties) (w w1 : world S) (pre : list byte) :
  Forall (λ kv, writable kv ∧ readable kv) props → io_buffer w = pre →
  Z.of_nat (length pre) + Z.of_nat (length (object_bytes props)) < 2 ^ 61 →
  write_object [props] w = (Ok tt, w1) →
  read_object (io_buffer w1) ((length pre + 1)%nat, ∅) =
    (Ok tt, (length (io_buffer w1), insert_all props ∅)).
Proof.
  intros Hp Hb Hl Hw.
  assert (Forall (Forall writable) [props]) as Hv.
  { constructor; [| done]. eapply Forall_impl; [exact Hp |]. by intros ? []. }
  pose proof (emits_write_object (S:=S) _ Hv w) as He. cbn [length Nat.eqb] in He.
  assert (objects_bytes [props] = object_bytes props) as Ho.
  { unfold objects_bytes. change (1 <? length [props])%nat with false. cbn. by rewrite !app_nil_r. }
  rewrite Ho, Hb in He. rewrite Hw in He. specialize (He ltac:(unfold max_size; lia)).
  injection He as ->. cbn [io_buffer with_io_buffer].
  apply read_object_at.
  - eapply Forall_impl; [exact Hp |]. by intros ? [].
  - apply (cursor_at_skip _ _ [x03]). apply cursor_at_app.
Qed.

(** C10: on any bytes whatever, [read_object] ends, and it never reads outside
    the buffer: it returns 0 or -1 or throws. *)
Theorem read_object_terminates_in_buffer (buf : list byte) (p : nat) (m : gmap (list byte) Value_Object) :
  match read_object buf (p, m) with
  | (Ok _, _) | (Fail, _) | (Throw, _) => True
  | (Undef, _) | (Hang, _) => False
  end.
Proof.
  pose proof (read_object_loop_total buf (read_object_fuel buf) p m) as H.
  unfold read_object. unfold read_object_fuel in *.
  specialize (H ltac:(lia) ltac:(lia)).
  by destruct (read_object_loop buf _ (p, m)) as [[] ?].
Qed.

(** A key length with its top bit set passes the bounds check of
    [read_object] and reaches [std::string::append] as a huge [size_t]: the
    exception ends the process. *)
Theorem read_object_negative_key_throws (pre rest : list byte) (len : Z) (m : gmap (list byte) Value_Object) :
  - 2 ^ 15 <= len < 0 →
  ∃ s, read_object (pre ++ be_bytes 2 len ++ rest) (length pre, m) = (Throw, s).
Proof.
  intros Hlen. set (buf := pre ++ _).
  assert (cursor_at buf (length pre) (be_bytes 2 len ++ rest)) as H by apply cursor_at_app.
  pose proof (cursor_at_length _ _ _ H) as Hl. rewrite length_app, length_be_bytes in Hl.
  unfold read_object, read_object_fuel. cbn [read_object_loop].
  rewrite (on_ptr_bind _ _ _ _ _ _ (eq_refl (tell (length pre)))).
  rewrite (at_end_at _ _ _ H), bool_decide_eq_false_2.
  2:{ intros E. apply (f_equal length) in E. rewrite length_app, length_be_bytes in E. simpl in E. lia. }
  assert (read_object_round buf (length pre, m) = (Throw, ((length pre + 2)%nat, m))) as Hr.
  { unfold read_object_round.
    rewrite (on_ptr_bind _ _ _ _ _ _ (be2se_int16_at buf (length pre) len rest ltac:(lia) H)).
    rewrite (proj2 (Z.eqb_neq _ _)) by lia.
    rewrite (on_ptr_bind _ _ _ _ _ _ (eq_refl (advance 2 (length pre)))).
    rewrite (on_ptr_bind _ _ _ _ _ _ (eq_refl (tell (length pre + 2)%nat))).
    rewrite (proj2 (Z.leb_le _ _)) by lia.
    destruct (append_from_total buf len (length pre + 2)) as [[? _] | [_ E]]; try lia.
    by rewrite (on_ptr_throw _ _ _ _ _ E). }
  eexists. unfold bind at 1. by rewrite Hr.
Qed.

(** ** Witnesses *)
Definition sample : properties :=
  [(cstr "app", Value_String (cstr "live")); (cstr "caps", Value_Num (double_bits 15))].

Lemma sample_ok : Forall (λ kv, writable kv ∧ readable kv) sample.
Proof. repeat constructor; vm_compute; congruence. Qed.

Definition empty_world : world unit := World tt [] 128 IO_Message_new ∅ [] [] 0.

Lemma get_payload_size_exact_witness :
  ∃ w', write_object [sample] empty_world = (Ok tt, w') ∧
    get_payload_size (cstr "connect") [sample] = 12 + 7 + (Z.of_nat (length (io_buffer w')) - 0).
Proof.
  apply (get_payload_size_exact (cstr "connect") [sample] empty_world); try done.
  constructor; [| done]. eapply Forall_impl; [apply sample_ok |]. by intros ? [].
Defined.

Definition sample_world : world unit := with_io_buffer (object_bytes sample) empty_world.

Lemma object_roundtrip_witness :
  read_object (object_bytes sample) (1%nat, ∅) =
    (Ok tt, (length (object_bytes sample), insert_all sample ∅)).
Proof.
  apply (object_roundtrip sample empty_world sample_world []); try done.
  apply sample_ok.
Defined.

Lemma read_object_negative_key_throws_witness :
  ∃ s, read_object ([x03] ++ be_bytes 2 (-1) ++ [x41]) (1%nat, ∅) = (Throw, s).
Proof. apply (read_object_negative_key_throws [x03] [x41] (-1) ∅). lia. Defined.
