(* ===== verification/Chunk.v ===== *)
(** * Sending and receiving the payload of a message in chunks

    [IO_Message::write_message] (io_message.cpp), the loop of
    [ConnectMessage::read_payload] (all_kinds_of_messages.cpp) and
    [IO_Message::recv_audio_video_payload] (io_message.cpp), which is the same
    loop on the other buffer. *)

From stdpp Require Import base list gmap.
From Stdlib Require Import Lia ZArith.
From S2P Require Import Prelude.
From S2P Require Import Bytes.
From S2P Require Import Util.
From S2P Require Import StApi.
From S2P Require Import StIo.
From S2P Require Import State.
From S2P Require Import IoBuffer.
From S2P Require Import IoSocket.
From S2P Require Import Emit.
From S2P Require Import Header.

Local Open Scope Z_scope.

(** The one-byte header of the chunks after the first:
    [(0x03 << 6) | (int8_t)csid] *)
Definition header_fmt3 (csid : Z) : byte := to_byte (Z.lor (Z.shiftl 0x03 6) (swrap 8 csid)).

Section chunk.
Context {S : Type} `{!StSocket S}.

(** The loop of [write_message]; [sent] is [totol_payload_send] and the pointer
    [pos] is at offset [header_size + sent]. *)
Fixpoint write_chunks (fuel : nat) (csid header_size message_size sent : Z) : M (world S) unit :=
  match fuel with
  | O => lift Hang
  | Datatypes.S fuel =>
      if header_size + sent <? message_size then
        w <- gets id ;;
        let left := wrap 64 (message_size - header_size - sent) in
        let len := if left <? wrap 64 (chunk_size w) then left else wrap 64 (chunk_size w) in
        let first := sent =? 0 in
        let iov0 := if first then take (Z.to_nat header_size) (io_buffer w) else [header_fmt3 csid] in
        let iov1 := take (Z.to_nat len) (drop (Z.to_nat (header_size + sent)) (io_buffer w)) in
        nwrite <- writev [iov0; iov1] ;;
        write_chunks fuel csid header_size message_size
          (sent + (nwrite - (if first then header_size else 1)))
      else ret tt
  end.

(** One round for every payload byte is more than enough
    ([write_message_sends]). *)
Definition write_chunks_fuel (w : world S) : nat := Datatypes.S (length (io_buffer w)).

(** [IO_Message::write_message]; [write_payload] is the virtual function. *)
Definition write_message (write_payload : M (world S) unit)
    (fmt csid timestamp message_length message_type stream_id : Z) : M (world S) unit :=
  write_header fmt csid timestamp message_length message_type stream_id ;;
  w <- gets id ;;
  let header_size := Z.of_nat (length (io_buffer w)) in
  write_payload ;;
  w <- gets id ;;
  let message_size := Z.of_nat (length (io_buffer w)) in
  write_chunks (write_chunks_fuel w) csid header_size message_size 0.

(** The receiving loop; [nread] payload bytes are already in the buffer. *)
Fixpoint read_chunks (b : which) (fuel : nat) (message_length chunk_size nread : Z) : M (world S) unit :=
  match fuel with
  | O => lift Hang
  | Datatypes.S fuel =>
      if nread <? message_length then
        let n_bytes :=
          if 0 <? nread then
            (if message_length - nread <=? chunk_size then message_length - nread + 1 else chunk_size + 1)
          else
            (if message_length - nread <=? chunk_size then message_length - nread else chunk_size) in
        w <- gets id ;;
        temp <- read_nbytes_cycle_on b (wrap 64 (n_bytes + Z.of_nat (length (buf b w)))) 0 ;;
        if 0 <? nread then
          let temp := temp - 1 in
          w <- gets id ;;
          match IO_Buffer.erase (buf b w) (Z.of_nat (length (buf b w)) - 1 - temp) 1 with
          | Ok v => modify (with_buf b v) ;; read_chunks b fuel message_length chunk_size (nread + temp)
          | o => lift (omap (λ _, tt) o)
          end
        else read_chunks b fuel message_length chunk_size (nread + temp)
      else ret tt
  end.

(** Each round takes at least one payload byte off the stream
    ([read_chunks_receives]). *)
Definition read_chunks_fuel (message_length : Z) : nat := Datatypes.S (Z.to_nat message_length).

(** The first loop of [ConnectMessage::read_payload]. *)
Definition read_payload_chunks (message_length chunk_size : Z) : M (world S) unit :=
  read_chunks IoBuf (read_chunks_fuel message_length) message_length chunk_size 0.

(** [IO_Message::recv_audio_video_payload] *)
Definition recv_audio_video_payload (csid : Z) : M (world S) unit :=
  h <- csid_header_at csid ;;
  w <- gets id ;;
  read_chunks AvBuf (read_chunks_fuel (message_length h)) (message_length h) (chunk_size w) 0.

(** [IO_Message::recv_audio_video]: [bh_size], [mh_size] and [csid]. *)
Definition recv_audio_video : M (world S) (Z * Z * Z) :=
  ' (csid, bh_size, mh_size) <- read_audio_video_header ;;
  recv_audio_video_payload csid ;;
  ret (bh_size, mh_size, csid).
End chunk.

(** ** The chunk stream of the RTMP specification, section 5.3: the payload cut
    into pieces of the chunk size, a one-byte type 3 header before each piece
    but the first. *)
Definition later_chunks (h : byte) (n : nat) (l : list byte) : list byte :=
  pieces (length l) n l ≫= cons h.

Definition chunked (h : byte) (n : nat) (l : list byte) : list byte :=
  take n l ++ later_chunks h n (drop n l).

(** The whole message when [h] is the byte before every later piece; nothing at all is sent for an
    empty payload. *)
Definition message_with (h : byte) (fmt csid ts ml mt sid : Z) (n : nat) (payload : list byte) : list byte :=
  match payload with
  | [] => []
  | _ => chunk_header fmt csid ts ml mt sid ++ chunked h n payload
  end.

(** Section 5.3.1.1: the basic header of type 3 of a chunk stream id of one byte. *)
Definition type3_byte (csid : Z) : byte := first_byte 3 csid.

Definition message_bytes (fmt csid : Z) : Z → Z → Z → Z → nat → list byte → list byte :=
  message_with (type3_byte csid) fmt csid.

Lemma later_chunks_cons h n l :
  (0 < n)%nat → l ≠ [] → later_chunks h n l = h :: chunked h n l.
Proof.
  intros Hn Hl. unfold chunked, later_chunks. destruct l as [| a l]; [done |]. cbn [length pieces].
  rewrite bind_cons. cbn [app]. do 2 f_equal.
  rewrite (pieces_fuel _ (length (drop n (a :: l))) n); rewrite ?length_drop; simpl; lia || done.
Qed.

Lemma later_chunks_nil h n : later_chunks h n [] = [].
Proof. done. Qed.

(** For a chunk stream id of one byte [write_message] sends the type 3 header of the specification. *)
Lemma header_fmt3_type3 csid : 0 <= csid <= 63 → header_fmt3 csid = type3_byte csid.
Proof. intros Hc. unfold header_fmt3, type3_byte, first_byte. by rewrite swrap_small, lor_shiftl_6 by lia. Qed.

Lemma type3_basic csid : 2 <= csid <= 63 → [type3_byte csid] = basic_header 3 csid.
Proof.
  intros Hc. unfold basic_header. by rewrite (proj2 (Z.leb_le 2 _)), (proj2 (Z.leb_le _ 63)) by lia.
Qed.

(** For a longer one it sends a byte that is no header of that chunk stream. *)
Lemma header_fmt3_long csid : 64 <= csid → [header_fmt3 csid] ≠ basic_header 3 csid.
Proof.
  intros Hc H. apply (f_equal length) in H. unfold basic_header in H.
  rewrite (proj2 (Z.leb_gt csid 63)), andb_false_r in H by lia. by destruct (csid <=? 319).
Qed.

(** ** Sending *)
Section send.
Context {S : Type} `{!StSocket S, !StSocketLaws S}.
Implicit Types (w : world S) (s : S).

(** [sends w w' l]: from [w] to [w'] exactly [l] was sent. *)
Definition sends w w' (l : list byte) : Prop :=
  ∃ s', w' = with_sock s' w ∧ tx s' = tx (sock w) ++ l ∧ rx s' = rx (sock w) ∧ healthy s'.

Lemma sends_nil w : healthy (sock w) → sends w w [].
Proof. intros H. exists (sock w). by rewrite with_sock_id, app_nil_r. Qed.

Lemma sends_trans w1 w2 w3 l1 l2 : sends w1 w2 l1 → sends w2 w3 l2 → sends w1 w3 (l1 ++ l2).
Proof.
  intros (s1 & -> & H1 & R1 & _) (s2 & -> & H2 & R2 & Hh). exists s2. cbn [sock with_sock] in *.
  split_and!; [done | | congruence | done]. by rewrite H2, H1, app_assoc.
Qed.

Lemma writev_sends iov w :
  healthy (sock w) →
  ∃ w', writev iov w = (Ok (Z.of_nat (length (concat iov))), w') ∧ sends w w' (concat iov).
Proof.
  intros Hh. destruct (st_writev_healthy (sock w) iov Hh) as (s' & E & Hrx & Htx & Hh').
  exists (with_sock s' w). split; [| by exists s'].
  unfold writev, bind, on_sock. rewrite E. by rewrite (proj2 (Z.eqb_neq _ _)) by lia.
Qed.

(** The part of the buffer sent by the next call. *)
Lemma next_chunk (buf pre sent l : list byte) (n : nat) :
  buf = pre ++ sent ++ l → (0 < n)%nat → Z.of_nat n < 2 ^ 31 → Z.of_nat (length buf) < 2 ^ 62 →
  let left := wrap 64 (Z.of_nat (length buf) - Z.of_nat (length pre) - Z.of_nat (length sent)) in
  let len := if left <? wrap 64 (Z.of_nat n) then left else wrap 64 (Z.of_nat n) in
  take (Z.to_nat len) (drop (Z.to_nat (Z.of_nat (length pre) + Z.of_nat (length sent))) buf) = take n l.
Proof.
  intros -> Hn Hn' Hm.
  assert (drop (Z.to_nat (Z.of_nat (length pre) + Z.of_nat (length sent))) (pre ++ sent ++ l) = l) as ->.
  { rewrite app_assoc, drop_app_length'; [done |]. rewrite length_app. lia. }
  rewrite !length_app in *. rewrite !wrap_small by lia. cbv zeta. destruct (Z.ltb_spec (Z.of_nat (length pre + (length sent + length l)) - Z.of_nat (length pre) - Z.of_nat (length sent)) (Z.of_nat n)).
  - rewrite !take_ge by lia. done.
  - by rewrite Nat2Z.id.
Qed.

(** One round of the loop. *)
Lemma write_chunks_step fuel csid pre sent l n w :
  healthy (sock w) → io_buffer w = pre ++ sent ++ l → l ≠ [] →
  chunk_size w = Z.of_nat n → (0 < n)%nat → Z.of_nat n < 2 ^ 31 →
  Z.of_nat (length (io_buffer w)) < 2 ^ 62 →
  let first := Z.of_nat (length sent) =? 0 in
  let hd := if first then pre else [header_fmt3 csid] in
  ∃ w', sends w w' (hd ++ take n l) ∧
    write_chunks (Datatypes.S fuel) csid (Z.of_nat (length pre))
      (Z.of_nat (length (io_buffer w))) (Z.of_nat (length sent)) w =
    write_chunks fuel csid (Z.of_nat (length pre))
      (Z.of_nat (length (io_buffer w))) (Z.of_nat (length (sent ++ take n l))) w'.
Proof.
  intros Hh Hb Hl Hc Hn Hn' Hm first hd. cbn [write_chunks].
  assert (0 < length l)%nat by (destruct l; [done | simpl; lia]).
  assert (length (io_buffer w) = (length pre + length sent + length l)%nat) as Hlen
    by (rewrite Hb, !length_app; lia).
  rewrite (proj2 (Z.ltb_lt _ _)) by lia. unfold bind at 1. cbn [gets id]. cbv zeta.
  rewrite Hc, (next_chunk _ _ _ _ _ Hb Hn Hn' Hm). fold first.
  replace (if first then take (Z.to_nat (Z.of_nat (length pre))) (io_buffer w) else [header_fmt3 csid])
    with hd.
  2:{ unfold hd. destruct first; [| done]. by rewrite Nat2Z.id, Hb, take_app_length. }
  destruct (writev_sends [hd; take n l] w Hh) as (w' & E & Hw').
  exists w'. cbn [concat] in Hw', E. rewrite app_nil_r in Hw', E. split; [done |].
  rewrite (bind_ok _ _ _ _ _ E). f_equal.
  rewrite !length_app. unfold hd. destruct first; simpl length; lia.
Qed.

Lemma write_chunks_later csid pre n fuel l sent w :
  healthy (sock w) → io_buffer w = pre ++ sent ++ l → sent ≠ [] → (length l < fuel)%nat →
  chunk_size w = Z.of_nat n → (0 < n)%nat → Z.of_nat n < 2 ^ 31 →
  Z.of_nat (length (io_buffer w)) < 2 ^ 62 →
  ∃ w', write_chunks fuel csid (Z.of_nat (length pre)) (Z.of_nat (length (io_buffer w)))
      (Z.of_nat (length sent)) w = (Ok tt, w') ∧
    sends w w' (later_chunks (header_fmt3 csid) n l).
Proof.
  revert l sent w. induction fuel as [| fuel IH]; intros l sent w Hh Hb Hs Hf Hc Hn Hn' Hm; [lia |].
  destruct (decide (l = [])) as [-> | Hl].
  { exists w. split; [| by apply sends_nil]. cbn [write_chunks].
    rewrite Hb, !length_app, (proj2 (Z.ltb_ge _ _)) by (simpl; lia). done. }
  destruct (write_chunks_step fuel csid pre sent l n w Hh Hb Hl Hc Hn Hn' Hm) as (w1 & H1 & E1).
  rewrite E1. rewrite (proj2 (Z.eqb_neq _ _)) in H1 by (destruct sent; simpl; [done | lia]).
  pose proof H1 as (s1 & -> & _ & _ & Hh1).
  destruct (IH (drop n l) (sent ++ take n l) (with_sock s1 w)) as (w2 & E2 & H2); try done.
  - cbn [io_buffer with_sock]. by rewrite <- app_assoc, take_drop.
  - by destruct sent.
  - rewrite length_drop. destruct l; [done |]. simpl in *. lia.
  - exists w2. split; [exact E2 |]. rewrite later_chunks_cons by done.
    unfold chunked. change (header_fmt3 csid :: ?a ++ ?b) with (([header_fmt3 csid] ++ a) ++ b).
    by eapply sends_trans.
Qed.

(** The loop sends the buffer's header part and its payload in chunks. *)
Lemma write_chunks_all csid pre n l w :
  healthy (sock w) → io_buffer w = pre ++ l → l ≠ [] →
  chunk_size w = Z.of_nat n → (0 < n)%nat → Z.of_nat n < 2 ^ 31 →
  Z.of_nat (length (io_buffer w)) < 2 ^ 62 →
  ∃ w', write_chunks (write_chunks_fuel w) csid (Z.of_nat (length pre))
      (Z.of_nat (length (io_buffer w))) 0 w = (Ok tt, w') ∧
    sends w w' (pre ++ chunked (header_fmt3 csid) n l).
Proof.
  intros Hh Hb Hl Hc Hn Hn' Hm. unfold write_chunks_fuel.
  assert (length l ≤ length (io_buffer w))%nat by (rewrite Hb, length_app; lia).
  assert (0 < length l)%nat by (destruct l; [done | simpl; lia]).
  destruct (write_chunks_step (length (io_buffer w)) csid pre [] l n w Hh Hb Hl Hc Hn Hn' Hm)
    as (w1 & H1 & E1). cbn [length] in E1, H1. change (Z.of_nat 0) with 0 in E1. rewrite E1.
  change (Z.of_nat 0 =? 0) with true in H1. cbv iota in H1. pose proof H1 as (s1 & -> & _ & _ & Hh1).
  destruct (write_chunks_later csid pre n (length (io_buffer w)) (drop n l) (take n l) (with_sock s1 w))
    as (w2 & E2 & H2); try done.
  - cbn [io_buffer with_sock]. by rewrite take_drop.
  - destruct n; [lia |]. by destruct l.
  - rewrite length_drop. lia.
  - exists w2. split; [exact E2 |]. unfold chunked. rewrite app_assoc. by eapply sends_trans.
Qed.
End send.

(** ** Receiving *)
Section receive.
Context {S : Type} `{!StSocket S, !StSocketLaws S}.
Implicit Types (w : world S) (s : S).

(** [receives b w w' pre rest]: in [w'] the buffer is [pre], the connection is
    at [rest], and nothing else differs from [w]. *)
Definition receives (b : which) w w' (pre rest : list byte) : Prop :=
  ∃ s', w' = with_buf b pre (with_sock s' w) ∧ rx s' = rest ∧ tx s' = tx (sock w) ∧ healthy s'.

Lemma receives_trans b w1 w2 w3 p1 r1 p2 r2 :
  receives b w1 w2 p1 r1 → receives b w2 w3 p2 r2 → receives b w1 w3 p2 r2.
Proof.
  intros (s1 & -> & _ & T1 & _) (s2 & -> & R2 & T2 & H2). exists s2.
  rewrite with_buf_with_sock, with_buf_with_buf. rewrite sock_with_buf in T2. cbn [sock with_sock] in T2.
  split_and!; [done | done | congruence | done].
Qed.

Lemma receives_buf b w w' pre rest : receives b w w' pre rest → buf b w' = pre.
Proof. intros (s & -> & _). apply buf_with_buf. Qed.

Lemma receives_sock b w w' pre rest :
  receives b w w' pre rest → rx (sock w') = rest ∧ healthy (sock w').
Proof. intros (s & -> & H & _ & Hh). by rewrite sock_with_buf. Qed.

Lemma receives_with_buf b w w' pre rest v :
  receives b w w' pre rest → receives b w (with_buf b v w') v rest.
Proof. intros (s & -> & H). exists s. by rewrite with_buf_with_buf. Qed.

(** Reading [n] more bytes. *)
Lemma read_more b l rest w :
  healthy (sock w) → rx (sock w) = l ++ rest → l ≠ [] →
  Z.of_nat (length (buf b w)) + Z.of_nat (length l) < 2 ^ 61 →
  ∃ w', read_nbytes_cycle_on b (wrap 64 (Z.of_nat (length l) + Z.of_nat (length (buf b w)))) 0 w =
      (Ok (Z.of_nat (length l)), w') ∧
    receives b w w' (buf b w ++ l) rest.
Proof.
  intros Hh Hrx Hl Hm. assert (0 < length l)%nat by (destruct l; [done | simpl; lia]).
  rewrite wrap_small by lia.
  destruct (read_nbytes_cycle_ok b (Z.of_nat (length l) + Z.of_nat (length (buf b w))) 0 w)
    as (s' & Hrx' & Htx & Hh' & E).
  { unfold small, max_size. lia. }
  { done. }
  { lia. }
  { rewrite Hrx, length_app. lia. }
  replace (Z.to_nat (Z.of_nat (length l) + Z.of_nat (length (buf b w)) - Z.of_nat (length (buf b w))))
    with (length l) in * by lia.
  rewrite Hrx, drop_app_length in Hrx'. rewrite Hrx, take_app_length in E.
  eexists. split; [exact E |]. by exists s'.
Qed.

Lemma read_chunks_later b h n fuel l rest ml nread w :
  (0 < n)%nat → Z.of_nat n < 2 ^ 31 → healthy (sock w) →
  rx (sock w) = later_chunks h n l ++ rest → 0 < nread → ml = nread + Z.of_nat (length l) →
  (length l < fuel)%nat → Z.of_nat (length (buf b w)) + Z.of_nat (length l) < 2 ^ 60 →
  ∃ w', read_chunks b fuel ml (Z.of_nat n) nread w = (Ok tt, w') ∧
    receives b w w' (buf b w ++ l) rest.
Proof.
  intros Hn Hn'. revert l nread w.
  induction fuel as [| fuel IH]; intros l nread w Hh Hrx Hnr Hml Hf Hm; [lia |].
  cbn [read_chunks]. destruct (decide (l = [])) as [-> | Hl].
  { rewrite (proj2 (Z.ltb_ge _ _)) by (simpl in Hml; lia). exists w. split; [done |].
    exists (sock w). rewrite app_nil_r, with_sock_id, with_buf_id. done. }
  assert (0 < length l)%nat by (destruct l; [done | simpl; lia]).
  rewrite later_chunks_cons in Hrx by done. unfold chunked in Hrx.
  rewrite (proj2 (Z.ltb_lt nread ml)), (proj2 (Z.ltb_lt 0 nread)) by lia.
  replace (if ml - nread <=? Z.of_nat n then ml - nread + 1 else Z.of_nat n + 1)
    with (Z.of_nat (length (h :: take n l))).
  2:{ cbn [length]. rewrite length_take. destruct (Z.leb_spec (ml - nread) (Z.of_nat n)); lia. }
  unfold bind at 1. cbn [gets id].
  destruct (read_more b (h :: take n l) (later_chunks h n (drop n l) ++ rest) w)
    as (w1 & E1 & R1); try done.
  { rewrite Hrx. cbn [app]. by rewrite <- app_assoc. }
  { cbn [length]. rewrite length_take. lia. }
  rewrite (bind_ok _ _ _ _ _ E1). cbv zeta. unfold bind at 1. cbn [gets id].
  rewrite (receives_buf _ _ _ _ _ R1).
  replace (Z.of_nat (length (buf b w ++ h :: take n l)) - 1 - (Z.of_nat (length (h :: take n l)) - 1))
    with (Z.of_nat (length (buf b w))) by (rewrite length_app; cbn [length]; lia).
  rewrite erase_at by (rewrite length_take; lia).
  set (w2 := with_buf b (buf b w ++ take n l) w1).
  pose proof (receives_with_buf _ _ _ _ _ (buf b w ++ take n l) R1) as R2. fold w2 in R2.
  rewrite (bind_ok _ _ w1 tt w2) by done.
  destruct (receives_sock _ _ _ _ _ R2) as [Hrx2 Hh2].
  destruct (IH (drop n l) (nread + (Z.of_nat (length (h :: take n l)) - 1)) w2) as (w3 & E3 & R3); try done.
  { cbn [length]. rewrite length_take. lia. }
  { cbn [length]. rewrite length_take, length_drop. lia. }
  { rewrite length_drop. lia. }
  { rewrite (receives_buf _ _ _ _ _ R2), length_app, length_take, length_drop. lia. }
  exists w3. split; [exact E3 |]. rewrite (receives_buf _ _ _ _ _ R2), <- app_assoc, take_drop in R3.
  by eapply receives_trans.
Qed.

(** The loop takes a chunked payload off the stream and leaves the payload. *)
Lemma read_chunks_all b h n fuel l rest w :
  (0 < n)%nat → Z.of_nat n < 2 ^ 31 → healthy (sock w) →
  rx (sock w) = chunked h n l ++ rest →
  (length l < fuel)%nat → Z.of_nat (length (buf b w)) + Z.of_nat (length l) < 2 ^ 60 →
  ∃ w', read_chunks b fuel (Z.of_nat (length l)) (Z.of_nat n) 0 w = (Ok tt, w') ∧
    receives b w w' (buf b w ++ l) rest.
Proof.
  intros Hn Hn' Hh Hrx Hf Hm. destruct fuel as [| fuel]; [lia |]. cbn [read_chunks].
  change (0 <? 0) with false. cbv iota zeta. rewrite !Z.sub_0_r.
  destruct (decide (l = [])) as [-> | Hl].
  { exists w. split; [done |]. exists (sock w).
    rewrite app_nil_r, with_sock_id, with_buf_id. split_and!; try done.
    unfold chunked in Hrx. by rewrite take_nil, drop_nil in Hrx. }
  assert (0 < length l)%nat by (destruct l; [done | simpl; lia]).
  rewrite (proj2 (Z.ltb_lt 0 _)) by lia.
  assert (length (take n l) ≠ 0%nat) by (rewrite length_take; lia).
  replace (if Z.of_nat (length l) <=? Z.of_nat n then Z.of_nat (length l) else Z.of_nat n)
    with (Z.of_nat (length (take n l))).
  2:{ rewrite length_take. destruct (Z.leb_spec (Z.of_nat (length l)) (Z.of_nat n)); lia. }
  unfold bind at 1. cbn [gets id]. unfold chunked in Hrx. rewrite <- app_assoc in Hrx.
  destruct (read_more b (take n l) (later_chunks h n (drop n l) ++ rest) w) as (w1 & E1 & R1); try done.
  { by destruct (take n l). }
  { rewrite length_take. lia. }
  rewrite (bind_ok _ _ _ _ _ E1). destruct (receives_sock _ _ _ _ _ R1) as [Hrx1 Hh1].
  destruct (read_chunks_later b h n fuel (drop n l) rest (Z.of_nat (length l))
    (0 + Z.of_nat (length (take n l))) w1) as (w2 & E2 & R2); try done.
  { lia. }
  { rewrite length_take, length_drop. lia. }
  { rewrite length_drop. lia. }
  { rewrite (receives_buf _ _ _ _ _ R1), length_app, length_take, length_drop. lia. }
  exists w2. split; [exact E2 |]. rewrite (receives_buf _ _ _ _ _ R1), <- app_assoc, take_drop in R2.
  by eapply receives_trans.
Qed.
End receive.

(** ** Properties *)
Section properties.
Context {S : Type} `{!StSocket S, !StSocketLaws S}.

Lemma length_chunk_header fmt csid ts ml mt sid :
  (length (chunk_header fmt csid ts ml mt sid) ≤ 18)%nat.
Proof.
  unfold chunk_header, message_header, extended_timestamp.
  rewrite !length_app, length_basic_header. repeat case_match; simpl; lia.
Qed.

Lemma write_message_any (write_payload : M (world S) unit) (payload : list byte)
    (fmt csid ts ml mt sid : Z) (n : nat) (w : world S) :
  emits write_payload payload → healthy (sock w) → io_buffer w = [] →
  chunk_size w = Z.of_nat n → (0 < n)%nat → Z.of_nat n < 2 ^ 31 →
  0 <= fmt <= 3 → 0 <= csid → Z.of_nat (length payload) < 2 ^ 61 →
  ∃ s', write_message write_payload fmt csid ts ml mt sid w =
      (Ok tt, with_sock s' (with_io_buffer (chunk_header fmt csid ts ml mt sid ++ payload) w)) ∧
    tx s' = tx (sock w) ++ message_with (header_fmt3 csid) fmt csid ts ml mt sid n payload ∧
    rx s' = rx (sock w) ∧ healthy s'.
Proof.
  intros Hp Hh Hb Hc Hn Hn' Hf Hcs Hl. set (hb := chunk_header fmt csid ts ml mt sid).
  pose proof (length_chunk_header fmt csid ts ml mt sid) as Hhb. fold hb in Hhb.
  unfold write_message. rewrite (bind_ok _ _ _ _ _ (write_header_fresh _ _ _ _ _ _ w Hf Hcs Hb)).
  fold hb. set (w1 := with_io_buffer hb w). unfold bind at 1. cbn [gets id]. cbv zeta.
  assert (write_payload w1 = (Ok tt, with_io_buffer (hb ++ payload) w1)) as E1.
  { apply Hp. cbn [w1 io_buffer with_io_buffer]. unfold max_size. lia. }
  rewrite (bind_ok _ _ _ _ _ E1). unfold bind at 1. cbn [gets id]. cbv zeta.
  change (with_io_buffer (hb ++ payload) w1) with (with_io_buffer (hb ++ payload) w).
  change (io_buffer w1) with hb. set (w2 := with_io_buffer (hb ++ payload) w).
  destruct (decide (payload = [])) as [-> | Hne].
  - exists (sock w). unfold message_with. rewrite app_nil_r. split_and!; try done.
    unfold w2. rewrite app_nil_r. unfold write_chunks_fuel. cbn [write_chunks io_buffer with_io_buffer].
    rewrite Z.add_0_r, Z.ltb_irrefl. done.
  - destruct (write_chunks_all csid hb n payload w2) as (w3 & E3 & s' & -> & Htx & Hrx & Hh'); try done.
    { cbn [w2 io_buffer with_io_buffer]. rewrite length_app. lia. }
    exists s'. rewrite E3. split_and!; try done.
    rewrite Htx. unfold message_with. by destruct payload.
Qed.

Lemma write_message_ok (write_payload : M (world S) unit) (payload : list byte)
    (fmt csid ts ml mt sid : Z) (n : nat) (w : world S) :
  emits write_payload payload → healthy (sock w) → io_buffer w = [] →
  chunk_size w = Z.of_nat n → (0 < n)%nat → Z.of_nat n < 2 ^ 31 →
  0 <= fmt <= 3 → 0 <= csid <= 63 → Z.of_nat (length payload) < 2 ^ 61 →
  ∃ s', write_message write_payload fmt csid ts ml mt sid w =
      (Ok tt, with_sock s' (with_io_buffer (chunk_header fmt csid ts ml mt sid ++ payload) w)) ∧
    tx s' = tx (sock w) ++ message_bytes fmt csid ts ml mt sid n payload ∧
    rx s' = rx (sock w) ∧ healthy s'.
Proof.
  intros Hp Hh Hb Hc Hn Hn' Hf Hcs Hl. unfold message_bytes. rewrite <- header_fmt3_type3 by done.
  apply write_message_any; done || lia.
Qed.

(** C8: on a working connection [write_message] with a chunk stream id of one byte (the server uses 2 and 3)
    sends exactly the chunk stream of the specification: the chunk header, the payload cut into pieces of
    the chunk size, the type 3 header of the chunk stream before every piece but the first,
    and the loop ends.  For an empty payload nothing is sent, not even the
    header. *)
Theorem write_message_sends (write_payload : M (world S) unit) (payload : list byte)
    (fmt csid ts ml mt sid : Z) (n : nat) (w : world S) :
  emits write_payload payload → healthy (sock w) → io_buffer w = [] →
  chunk_size w = Z.of_nat n → (0 < n)%nat → Z.of_nat n < 2 ^ 31 →
  0 <= fmt <= 3 → 2 <= csid <= 63 → Z.of_nat (length payload) < 2 ^ 61 →
  ∃ s', write_message write_payload fmt csid ts ml mt sid w =
      (Ok tt, with_sock s' (with_io_buffer (chunk_header fmt csid ts ml mt sid ++ payload) w)) ∧
    tx s' = tx (sock w) ++ message_bytes fmt csid ts ml mt sid n payload ∧
    rx s' = rx (sock w) ∧ healthy s'.
Proof. intros. by apply write_message_ok; try lia. Qed.

(** With a longer one the chunks after the first carry a byte that is not the header of their chunk stream. *)
Theorem long_csid_missent (write_payload : M (world S) unit) (payload : list byte)
    (fmt csid ts ml mt sid : Z) (n : nat) (w : world S) :
  emits write_payload payload → healthy (sock w) → io_buffer w = [] →
  chunk_size w = Z.of_nat n → (0 < n < length payload)%nat → Z.of_nat n < 2 ^ 31 →
  0 <= fmt <= 3 → 64 <= csid → Z.of_nat (length payload) < 2 ^ 61 →
  ∃ s' h rest, write_message write_payload fmt csid ts ml mt sid w =
      (Ok tt, with_sock s' (with_io_buffer (chunk_header fmt csid ts ml mt sid ++ payload) w)) ∧
    tx s' = tx (sock w) ++ chunk_header fmt csid ts ml mt sid ++ take n payload ++ h :: rest ∧
    [h] ≠ basic_header 3 csid.
Proof.
  intros Hp Hh Hb Hc Hn Hn' Hf Hcs Hl.
  destruct (write_message_any write_payload payload fmt csid ts ml mt sid n w Hp Hh Hb Hc) as (s' & E & Htx & _); try done; [lia.. |].
  exists s', (header_fmt3 csid), (chunked (header_fmt3 csid) n (drop n payload)). split; [done |]. split; [| by apply header_fmt3_long].
  rewrite Htx. unfold message_with. destruct payload as [| b payload]; [cbn in Hn; lia |]. unfold chunked at 1.
  rewrite later_chunks_cons; [done | lia |]. intros H. apply (f_equal length) in H. rewrite length_drop in H. cbn [length] in *. lia.
Qed.

(** C3: a message sent with [write_message] and received with [recv_message]
    and the loop of [ConnectMessage::read_payload] arrives intact: with the same
    chunk size on both sides the receiver's buffer holds the header and the
    payload, without the chunks' headers, and the connection is left at
    the first byte after the message. *)
Theorem message_roundtrip (write_payload : M (world S) unit) (payload rest : list byte)
    (fmt csid ts mt sid : Z) (n : nat) (w w' wr : world S) :
  emits write_payload payload → payload ≠ [] → Z.of_nat (length payload) < 2 ^ 24 →
  0 <= fmt <= 1 → 2 <= csid <= 191 → 0 <= ts < 2 ^ 31 → timestamp_readable fmt ts →
  -128 <= mt < 128 → - 2 ^ 31 <= sid < 2 ^ 31 →
  healthy (sock w) → io_buffer w = [] → chunk_size w = Z.of_nat n → (0 < n)%nat → Z.of_nat n < 2 ^ 31 →
  write_message write_payload fmt csid ts (Z.of_nat (length payload)) mt sid w = (Ok tt, w') →
  ∃ msg, tx (sock w') = tx (sock w) ++ msg ∧
    (streaming IoBuf (msg ++ rest) 0 wr → chunk_size wr = chunk_size w →
     ∃ wr', recv_message (λ _ _ _ message_length chunk_size,
         read_payload_chunks message_length chunk_size) wr = (Ok tt, wr') ∧
       io_buffer wr' = chunk_header fmt csid ts (Z.of_nat (length payload)) mt sid ++ payload ∧
       rx (sock wr') = rest).
Proof.
  intros Hp Hne Hl Hf Hcs Hts Hr Hmt Hsid Hh Hb Hc Hn Hn' Hw.
  destruct (write_message_any write_payload payload fmt csid ts (Z.of_nat (length payload)) mt sid n w
    Hp Hh Hb Hc Hn Hn') as (s' & E & Htx & _ & _); try lia.
  rewrite E in Hw. simplify_eq. exists (message_with (header_fmt3 csid) fmt csid ts (Z.of_nat (length payload)) mt sid n payload).
  cbn [sock with_sock]. split; [done |].
  assert (∀ l, message_with (header_fmt3 csid) fmt csid ts (Z.of_nat (length payload)) mt sid n payload ++ l =
    chunk_header fmt csid ts (Z.of_nat (length payload)) mt sid ++ chunked (header_fmt3 csid) n payload ++ l) as Hmsg.
  { intros l. unfold message_with. destruct payload; [done |]. by rewrite <- app_assoc. }
  rewrite Hmsg. set (hb := chunk_header _ _ _ _ _ _). intros H0 Hcr.
  destruct (chunk_header_read fmt csid ts (Z.of_nat (length payload)) mt sid _ wr ltac:(lia) ltac:(lia)
    Hts Hmt Hsid Hr H0) as (bh & mh & w1 & E1 & _ & S1 & F1).
  fold hb in S1. rewrite csid_seen_ok in * by done.
  destruct (same_world_this _ _ _ F1) as (Hhs & _ & Hcs1). cbn [csid_header chunk_size with_csid_header] in Hhs, Hcs1.
  unfold recv_message. rewrite (bind_ok _ _ _ _ _ E1). cbv beta iota.
  assert (csid_header_at csid w1 = (Ok (set_message_length (Z.of_nat (length payload))
    (default Message_Header_new (csid_header wr !! csid))), w1)) as E2.
  { unfold csid_header_at. rewrite Hhs. unfold lengths_after, remember_length.
    rewrite (proj2 (Z.leb_le fmt 1)), lookup_insert_eq, Z.mod_small by lia. done. }
  rewrite (bind_ok _ _ _ _ _ E2). unfold bind at 1. cbn [gets id message_length set_message_length].
  rewrite Hcs1, Hcr, Hc. unfold read_payload_chunks, read_chunks_fuel.
  pose proof (streaming_length _ _ _ _ S1) as Hlb.
  destruct S1 as (Hh1 & Hb1 & Hrx1 & _ & _). rewrite take_app_length in Hb1. rewrite drop_app_length in Hrx1.
  pose proof (length_chunk_header fmt csid ts (Z.of_nat (length payload)) mt sid) as Hhb.
  destruct (read_chunks_all IoBuf (header_fmt3 csid) n (Datatypes.S (Z.to_nat (Z.of_nat (length payload))))
    payload rest w1 Hn Hn' Hh1 Hrx1) as (w2 & E3 & R3); [lia | fold hb in Hhb; lia |].
  exists w2. split; [exact E3 |]. split.
  - by rewrite <- Hb1, <- (receives_buf _ _ _ _ _ R3).
  - by destruct (receives_sock _ _ _ _ _ R3).
Qed.

(** The three calls of [recv_audio_video] on one message. *)
Lemma audio_video_message payload rest fmt csid ts mt sid n (w : world S) :
  0 <= fmt <= 1 → 2 <= csid <= 191 → 0 <= ts < 0xffffff → -128 <= mt < 128 → - 2 ^ 31 <= sid < 2 ^ 31 →
  Z.of_nat (length payload) < 2 ^ 24 → chunk_size w = Z.of_nat n → (0 < n)%nat → Z.of_nat n < 2 ^ 31 →
  let hb := chunk_header fmt csid ts (Z.of_nat (length payload)) mt sid in
  let h := av_entry fmt ts (Z.of_nat (length payload)) mt sid
    (default Message_Header_new (csid_header w !! csid)) in
  streaming AvBuf (hb ++ chunked (header_fmt3 csid) n payload ++ rest) 0 w →
  ∃ bh mh w1 w2 w3, read_audio_video_basic_header w = (Ok (fmt, csid, bh), w1) ∧
    read_audio_video_message_header fmt csid bh w1 = (Ok mh, w2) ∧
    recv_audio_video_payload csid w2 = (Ok tt, w3) ∧
    bh + mh = Z.of_nat (length hb) ∧ audio_video_buffer w3 = hb ++ payload ∧
    csid_header w3 = <[csid := h]> (csid_header w) ∧
    chunk_size w3 = chunk_size w ∧ rx (sock w3) = rest ∧ tx (sock w3) = tx (sock w) ∧ healthy (sock w3).
Proof.
  intros Hf Hcs Hts Hmt Hsid Hl Hc Hn Hn' hb h H0.
  set (bhb := basic_header fmt csid) in *.
  set (mid := message_header fmt ts (Z.of_nat (length payload)) mt sid) in *.
  assert (hb = bhb ++ mid) as Hhb.
  { unfold hb, chunk_header, extended_timestamp. rewrite (proj2 (Z.ltb_ge _ ts)), andb_false_r by lia.
    by rewrite app_nil_r. }
  rewrite Hhb, <- app_assoc in H0.
  destruct (read_basic_header_reads AvBuf fmt csid _ w ltac:(lia) ltac:(lia) H0) as (w1 & E1 & S1 & F1).
  fold bhb in E1, S1. rewrite csid_seen_ok in E1 by done.
  assert (av_reads_as fmt csid bhb ts (Z.of_nat (length payload)) mt sid
    (chunked (header_fmt3 csid) n payload ++ rest) w1) as (w2 & E2 & S2 & F2).
  { destruct (decide (fmt = 0)) as [-> | ?].
    - apply read_av_header_type0; done || lia.
    - assert (fmt = 1) as -> by lia. apply read_av_header_type1; done || lia. }
  fold mid in E2, S2.
  destruct (same_world_this _ _ _ F1) as (Hhs1 & _ & Hc1). destruct (same_world_this _ _ _ F2) as (Hhs2 & _ & Hc2).
  rewrite Hhs1 in E2. fold h in E2.
  assert (message_length h = Z.of_nat (length payload)) as Hml.
  { unfold h, av_entry. destruct (decide (fmt = 0)) as [-> | ?]; [done |].
    by replace fmt with 1 by lia. }
  set (w3 := entry csid h w2) in *.
  apply (streaming_entry _ _ _ csid h) in S2. fold w3 in S2.
  rewrite app_assoc, <- Hhb, <- length_app, <- Hhb in S2.
  pose proof (streaming_length _ _ _ _ S2) as Hlb.
  destruct S2 as (Hh3 & Hb3 & Hrx3 & _ & _). rewrite take_app_length in Hb3. rewrite drop_app_length in Hrx3.
  pose proof (length_chunk_header fmt csid ts (Z.of_nat (length payload)) mt sid) as Hhl. fold hb in Hhl.
  destruct (read_chunks_all AvBuf (header_fmt3 csid) n (Datatypes.S (Z.to_nat (Z.of_nat (length payload))))
    payload rest w3 Hn Hn' Hh3 Hrx3) as (w4 & E4 & R4); [lia | lia |].
  eexists _, _, w1, w3, w4. split; [exact E1 |]. split; [exact E2 |]. split.
  { unfold recv_audio_video_payload. rewrite (bind_ok _ _ _ _ _ (csid_header_at_entry csid h w2)).
    unfold bind at 1. cbn [gets id]. change (chunk_size (entry csid h w2)) with (chunk_size w2).
    rewrite Hc2, Hc1, Hc, Hml. exact E4. }
  pose proof (receives_buf _ _ _ _ _ R4) as Hb4. rewrite Hb3 in Hb4. cbn [buf] in Hb4.
  destruct R4 as (s4 & -> & Hrx4 & Htx4 & Hh4). split_and!; try done.
  - rewrite Hhb, length_app. lia.
  - cbn [with_buf csid_header with_audio_video_buffer with_sock w3 entry with_csid_header]. by rewrite Hhs2, Hhs1.
  - cbn [with_buf chunk_size with_audio_video_buffer with_sock w3 entry with_csid_header]. by rewrite Hc2, Hc1.
  - cbn [with_buf sock with_audio_video_buffer with_sock]. rewrite Htx4. cbn [w3 entry sock with_csid_header].
    destruct F2 as [-> _]. by destruct F1 as [-> _].
Qed.

(** [recv_audio_video] receives one audio or video message of a publisher:
    afterwards [audio_video_buffer] holds its header and its whole payload
    without the chunks' headers, the sizes and the chunk stream id returned are
    those of the header, and the connection is left at the next message. *)
Theorem recv_audio_video_receives (payload rest : list byte) (fmt csid ts mt sid : Z) (n : nat) (w : world S) :
  0 <= fmt <= 1 → 2 <= csid <= 191 → 0 <= ts < 0xffffff → -128 <= mt < 128 → - 2 ^ 31 <= sid < 2 ^ 31 →
  Z.of_nat (length payload) < 2 ^ 24 → chunk_size w = Z.of_nat n → (0 < n)%nat → Z.of_nat n < 2 ^ 31 →
  let hb := chunk_header fmt csid ts (Z.of_nat (length payload)) mt sid in
  streaming AvBuf (hb ++ chunked (header_fmt3 csid) n payload ++ rest) 0 w →
  ∃ bh mh w', recv_audio_video w = (Ok (bh, mh, csid), w') ∧
    bh + mh = Z.of_nat (length hb) ∧ audio_video_buffer w' = hb ++ payload ∧
    rx (sock w') = rest ∧ message_type <$> csid_header w' !! csid = Some mt.
Proof.
  intros Hf Hcs Hts Hmt Hsid Hl Hc Hn Hn' hb H0.
  destruct (audio_video_message payload rest fmt csid ts mt sid n w Hf Hcs Hts Hmt Hsid Hl Hc Hn Hn' H0)
    as (bh & mh & w1 & w2 & w3 & E1 & E2 & E3 & Hs & Hb & Hh & _ & Hrx & _).
  exists bh, mh, w3. split; [| split_and!; try done].
  - unfold recv_audio_video, read_audio_video_header.
    rewrite bind_assoc, (bind_ok _ _ _ _ _ E1). cbv beta iota.
    rewrite bind_assoc, (bind_ok _ _ _ _ _ E2), bind_ret. cbv beta iota.
    by rewrite (bind_ok _ _ _ _ _ E3).
  - rewrite Hh, lookup_insert_eq. unfold av_entry.
    destruct (decide (fmt = 0)) as [-> | ?]; [done |]. by replace fmt with 1 by lia.
Qed.
End properties.

(** ** Witnesses: an eleven-byte payload in chunks of four *)
Definition hello : list byte := cstr "hello chunk".

Definition small_chunks (str : list byte) : world ksock := with_chunk_size 4 (world_on (feed str)).

Lemma small_chunks_streaming b str :
  Z.of_nat (length str) < max_size → streaming b str 0 (small_chunks str).
Proof. intros H. pose proof (feed_streaming b str H) as Hs. by destruct b. Qed.

Definition hello_sent : world ksock :=
  snd (write_message (push_bytes hello) 0 3 0 11 20 1 (small_chunks [])).

Lemma hello_sent_ok :
  write_message (push_bytes hello) 0 3 0 11 20 1 (small_chunks []) = (Ok tt, hello_sent).
Proof. vm_compute. reflexivity. Qed.

Lemma write_message_sends_witness :
  ∃ s', tx s' = message_bytes 0 3 0 11 20 1 4 hello ∧ rx s' = [].
Proof.
  destruct (write_message_sends (push_bytes hello) hello 0 3 0 11 20 1 4 (small_chunks []))
    as (s' & _ & Htx & Hrx & _).
  - apply emits_push_bytes.
  - apply feed_healthy.
  - reflexivity.
  - reflexivity.
  - lia.
  - lia.
  - lia.
  - lia.
  - reflexivity.
  - exists s'. split; [exact Htx | exact Hrx].
Defined.

Lemma message_roundtrip_witness :
  ∃ wr', recv_message (λ _ _ _ message_length chunk_size,
      read_payload_chunks message_length chunk_size)
      (small_chunks (tx (sock hello_sent) ++ [x2a])) = (Ok tt, wr') ∧
    io_buffer wr' = chunk_header 0 3 0 11 20 1 ++ hello ∧ rx (sock wr') = [x2a].
Proof.
  destruct (message_roundtrip (push_bytes hello) hello [x2a] 0 3 0 20 1 4 (small_chunks []) hello_sent
    (small_chunks (tx (sock hello_sent) ++ [x2a])))
    as (msg & Htx & H).
  - apply emits_push_bytes.
  - discriminate.
  - reflexivity.
  - lia.
  - lia.
  - lia.
  - split; lia.
  - lia.
  - lia.
  - apply feed_healthy.
  - reflexivity.
  - reflexivity.
  - lia.
  - lia.
  - exact hello_sent_ok.
  - change (tx (sock (small_chunks [])) ++ msg) with msg in Htx.
    rewrite Htx in H. rewrite Htx. apply H; [| reflexivity].
    apply small_chunks_streaming. rewrite <- Htx. vm_compute. reflexivity.
Defined.

Lemma recv_audio_video_receives_witness :
  ∃ bh mh w', recv_audio_video (small_chunks
      (chunk_header 1 4 40 11 9 1 ++ chunked (header_fmt3 4) 4 hello ++ [x2a])) = (Ok (bh, mh, 4), w') ∧
    bh + mh = 8 ∧ audio_video_buffer w' = chunk_header 1 4 40 11 9 1 ++ hello ∧
    rx (sock w') = [x2a].
Proof.
  destruct (recv_audio_video_receives hello [x2a] 1 4 40 9 1 4 (small_chunks
      (chunk_header 1 4 40 11 9 1 ++ chunked (header_fmt3 4) 4 hello ++ [x2a])))
    as (bh & mh & w' & E & Hs & Hb & Hr & _); try lia; try reflexivity.
  - apply small_chunks_streaming. reflexivity.
  - exists bh, mh, w'. split; [exact E |]. split; [exact Hs |]. split; [exact Hb | exact Hr].
Defined.
