(* ===== verification/Messages.v ===== *)
(** * all_kinds_of_messages.cpp: the payload of every message the server sends
    or receives

    A class is named by the prefix of its definitions; its constructor
    arguments are the first arguments of them.  A transaction or stream id of
    type [double] is its 64-bit pattern. *)

From stdpp Require Import base list gmap.
From Stdlib Require Import Lia ZArith.
From S2P Require Import Prelude.
From S2P Require Import Bytes.
From S2P Require Import Util.
From S2P Require Import StApi.
From S2P Require Import StIo.
From S2P Require Import State.
From S2P Require Import IoBuffer.
From S2P Require Import IoSocket.
From S2P Require Import Emit.
From S2P Require Import Header.
From S2P Require Import Amf.
From S2P Require Import Chunk.

Local Open Scope Z_scope.

(** [new Value_String(value, strlen(value))] *)
Definition vstr (s : literal) : Value_Object := Value_String (cstr s).
Definition vnum (n : Z) : Value_Object := Value_Num (double_bits n).

Inductive MESSAGE_OBJECT_TYPE :=
| CONNECT_APP_RESPONSE
| ON_BW_DONE
| PULL_ONSTATUS1
| PULL_ONSTATUS2
| PULL_ONSTATUS3.

(** ** Messages the server sends *)
Definition Send_Object_Message_init (type : MESSAGE_OBJECT_TYPE) : list properties :=
  match type with
  | ON_BW_DONE => []
  | PULL_ONSTATUS3 => [[(cstr "code", vstr "NetStream.Data.Start")]]
  | CONNECT_APP_RESPONSE =>
      [[(cstr "fmsVer", vstr "FMS/3,5,3,888");
        (cstr "capabilities", vnum 127);
        (cstr "mode", vnum 1)];
       [(cstr "level", vstr "status");
        (cstr "code", vstr "NetConnection.Connect.Success");
        (cstr "description", vstr "Connection succeeded");
        (cstr "objectEncoding", vnum 0);
        (cstr "data", Value_Len 2028717191);
        (cstr "version", vstr "3,5,3,888");
        (cstr "server", vstr "srs(simple rtmp server)");
        (cstr "srs_url", vstr "https://github.com/winlinvip/simple-rtmp-server");
        (cstr "srs_version", vstr "0.1")]]
  | _ => []
  end.

Definition OnFCPublish_init : list properties :=
  [[(cstr "code", vstr "NetStream.Publish.Start");
    (cstr "description", vstr "Started publishing stream.")]].

Definition OnStatus_init : list properties :=
  [[(cstr "level", vstr "status");
    (cstr "code", vstr "NetStream.Publish.Start");
    (cstr "description", vstr "Started publishing stream.");
    (cstr "clientid", vstr "ASAICiss")]].

(** [value] keeps its previous text when [type] is neither of the two. *)
Definition PullStreamOnStatus_init (type : MESSAGE_OBJECT_TYPE) : list properties :=
  let value := vstr "status" in
  let code := match type with
    | PULL_ONSTATUS1 => vstr "NetStream.Play.Reset"
    | PULL_ONSTATUS2 => vstr "NetStream.Play.Start"
    | _ => value end in
  let description := match type with
    | PULL_ONSTATUS1 => vstr "Playing and resetting stream."
    | PULL_ONSTATUS2 => vstr "Started playing stream."
    | _ => code end in
  [[(cstr "level", value); (cstr "code", code); (cstr "description", description);
    (cstr "details", vstr "stream"); (cstr "clientid", vstr "ASAICiss")]].

(** [Send_Object_Message::get_payload_size] *)
Definition Send_Object_Message_get_payload_size (command : list byte) (type : MESSAGE_OBJECT_TYPE) : Z :=
  match type with
  | ON_BW_DONE => add_int (swrap 32 (3 + Z.of_nat (length command) + 9)) 1
  | _ => get_payload_size command (Send_Object_Message_init type)
  end.

(** [OnFCPublish::get_payload_size], [OnStatus::get_payload_size]: the inherited
    function, which uses the (empty) [command_name] of the base class. *)
Definition OnFCPublish_get_payload_size (m : IO_Message) : Z :=
  get_payload_size (command_name m) OnFCPublish_init.
Definition OnStatus_get_payload_size (m : IO_Message) : Z :=
  get_payload_size (command_name m) OnStatus_init.

Section send.
Context {S : Type}.

Definition marker (m : byte) : M (world S) unit := push IoBuf [m] 1.

(** Marker, [int16_t] length and text of a literal. *)
Definition put_literal (s : literal) (len : Z) : M (world S) unit :=
  put_int16 len ;; push IoBuf (cstr s ++ [x00]) len.

Definition Set_Window_Size_write_payload (window_size : Z) : M (world S) unit :=
  put_int32 window_size.

Definition Set_Peer_Bandwidth_write_payload (bandwidth limit_type : Z) : M (world S) unit :=
  put_int32 bandwidth ;; push IoBuf [to_byte limit_type] 1.

(** [vec]: the properties the constructor stored. *)
Definition Send_Object_Message_write (command : list byte) (transaction_id : Z) (vec : list properties) : M (world S) unit :=
  marker x02 ;; put_string command ;;
  marker x00 ;; put_int64 transaction_id ;;
  if (length vec =? 0)%nat then marker x05 else write_objects vec.

Definition Send_Object_Message_write_payload (command : list byte) (transaction_id : Z)
    (type : MESSAGE_OBJECT_TYPE) : M (world S) unit :=
  Send_Object_Message_write command transaction_id (Send_Object_Message_init type).

Definition ReleaseStreamResponse_write_payload (transaction_id : Z) : M (world S) unit :=
  marker x02 ;; put_literal "_result" 7 ;;
  marker x00 ;; put_int64 transaction_id ;;
  marker x05 ;; marker x06.

Definition FCPublishResponse_write_payload (transaction_id : Z) : M (world S) unit :=
  marker x02 ;; put_literal "_result" 7 ;;
  marker x00 ;; put_int64 transaction_id ;;
  marker x05 ;; marker x06.

Definition SetChunkSize_write_payload (chunk_size : Z) : M (world S) unit := put_int32 chunk_size.

Definition CreateStreamResponse_write_payload (transaction_id stream_id : Z) : M (world S) unit :=
  marker x02 ;; put_literal "_result" 7 ;;
  marker x00 ;; put_int64 transaction_id ;;
  marker x05 ;; marker x00 ;; put_int64 stream_id.

Definition OnFCPublish_write (transaction_id : Z) (vec : list properties) : M (world S) unit :=
  marker x02 ;; put_literal "onFCPublish" 11 ;;
  marker x00 ;; put_int64 transaction_id ;;
  marker x05 ;; write_object vec.

Definition OnFCPublish_write_payload (transaction_id : Z) : M (world S) unit :=
  OnFCPublish_write transaction_id OnFCPublish_init.

Definition OnStatus_write (transaction_id : Z) (vec : list properties) : M (world S) unit :=
  marker x02 ;; put_literal "onStatus" 8 ;;
  marker x00 ;; put_int64 transaction_id ;;
  marker x05 ;; write_object vec.

Definition OnStatus_write_payload (transaction_id : Z) : M (world S) unit :=
  OnStatus_write transaction_id OnStatus_init.

Definition SrcPCUCStreamBegin_write_payload : M (world S) unit :=
  push IoBuf (le_bytes 2 0) 2 ;; put_int32 1.

Definition PullStreamOnStatus_write (command : list byte) (transaction_id : Z) (vec : list properties) : M (world S) unit :=
  marker x02 ;; put_string command ;;
  marker x00 ;; put_int64 transaction_id ;;
  marker x05 ;; write_objects vec.

Definition PullStreamOnStatus_write_payload (command : list byte) (transaction_id : Z)
    (type : MESSAGE_OBJECT_TYPE) : M (world S) unit :=
  PullStreamOnStatus_write command transaction_id (PullStreamOnStatus_init type).

Definition RtmpSampleAccess_write_payload : M (world S) unit :=
  marker x02 ;; put_literal "|RtmpSampleAccess" 17 ;;
  marker x01 ;; marker x00 ;; marker x01 ;; marker x00.

Definition PullStreamOnStatus3_write_payload : M (world S) unit :=
  marker x02 ;; put_literal "onStatus" 8 ;;
  marker x03 ;; put_literal "code" 4 ;;
  marker x02 ;; put_literal "NetStream.Data.Start" 20 ;;
  push IoBuf (le_bytes 2 0) 2 ;; marker x09.

(** One round of the inner loop of [OnMetaData::write_payload]. *)
Definition write_metadata_property (kv : list byte * Value_Object) : M (world S) unit :=
  put_string kv.1 ;;
  match kv.2 with
  | Value_String value => marker x02 ;; put_string value
  | Value_Num value => marker x00 ;; put_int64 value
  | Value_0x01 value => marker x01 ;; push IoBuf [value] 1
  | Value_Len _ => fail
  end.

(** [OnMetaData::write_payload]: another [server] entry is added to the global
    [set_data_frame] on every call. *)
Definition OnMetaData_write_payload (command : list byte) : M (world S) unit :=
  marker x02 ;;
  put_int16 (Z.of_nat (length command)) ;;
  push IoBuf (command ++ [x00]) (Z.of_nat (length command)) ;;
  modify (λ w, with_set_data_frame
    (set_data_frame w ++ [(cstr "server", vstr "srs(simple rtmp server)0.1")]) w) ;;
  w <- gets id ;;
  marker x03 ;; for_each write_metadata_property (set_data_frame w) ;; write_end_of_object.
End send.

(** ** Messages the server receives *)
Section parse.
Context (buf : list byte).

(** The common beginning: a string that must not be empty and whose length is
    not compared with the buffer, then a number. *)
Definition read_name : M nat (list byte) :=
  len <- be2se_int16 buf ;;
  if len <=? 0 then fail else
  advance 2 ;;
  name <- append_from buf len ;;
  advance (Z.to_nat len) ;; ret name.

Definition read_command : M nat (list byte * Z) :=
  expect buf MESSAGE_STRING ;;
  command_name <- read_name ;;
  expect buf MESSAGE_NUM ;;
  transaction_id <- be2se_int64 buf ;;
  advance 8 ;;
  ret (command_name, transaction_id).

Definition read_null_command : M nat (list byte * Z) :=
  cmd <- read_command ;; expect buf MESSAFE_NULL_OBJECT ;; ret cmd.
End parse.

Section publish.
Context (buf : list byte).

(** [Publish::read_payload]: an empty stream name is required. *)
Definition read_publish : M nat (list byte * Z * list byte) :=
  cmd <- read_command buf ;;
  expect buf MESSAFE_NULL_OBJECT ;;
  expect buf MESSAGE_STRING ;;
  len <- be2se_int16 buf ;;
  if negb (len =? 0) then fail else
  advance 2 ;;
  expect buf MESSAGE_STRING ;;
  len <- be2se_int16 buf ;;
  if len <=? 0 then fail else
  advance 2 ;;
  publish_type <- append_from buf len ;;
  ret (cmd, publish_type).

(** One round of the loop of [SetDataFrame::read_payload]. *)
Definition read_metadata_property : M (nat * properties) unit :=
  key <- on_ptr (read_name buf) ;;
  p <- on_ptr tell ;;
  if at_end buf p then fail else
  m <- on_ptr (lift (deref buf p)) ;;
  if sc m =? 0x00 then
    on_ptr (advance 1) ;;
    value <- on_ptr (be2se_double buf) ;;
    on_ptr (advance 8) ;;
    modify (λ s, (s.1, s.2 ++ [(key, Value_Num value)]))
  else if sc m =? 0x01 then
    on_ptr (advance 1) ;;
    p <- on_ptr tell ;;
    if at_end buf p then fail else
    value <- on_ptr (next buf) ;;
    modify (λ s, (s.1, s.2 ++ [(key, Value_0x01 value)]))
  else if sc m =? 0x02 then
    on_ptr (advance 1) ;;
    len <- on_ptr (be2se_int16 buf) ;;
    if len <=? 0 then fail else
    on_ptr (advance 2) ;;
    value <- on_ptr (append_from buf len) ;;
    modify (λ s, (s.1, s.2 ++ [(key, Value_String value)])) ;;
    on_ptr (advance (Z.to_nat len))
  else fail.

(** [for (int i = 0; i < count; i++)] *)
Fixpoint read_metadata_properties (count : nat) : M (nat * properties) unit :=
  match count with
  | O => ret tt
  | Datatypes.S count => read_metadata_property ;; read_metadata_properties count
  end.

(** What [SetDataFrame::read_payload] does with the received payload. *)
Definition read_data_frame : M (nat * properties) unit :=
  on_ptr (expect buf MESSAGE_STRING) ;;
  on_ptr (read_name buf) ;;
  on_ptr (expect buf MESSAGE_STRING) ;;
  on_ptr (read_name buf) ;;
  on_ptr (expect buf 0x08) ;;
  count <- on_ptr (be2se_int32 buf) ;;
  if count <=? 0 then fail else
  on_ptr (advance 4) ;;
  read_metadata_properties (Z.to_nat count).
End publish.

Section receive.
Context {S : Type} `{!StSocket S}.

(** [IO_Message::copy]; [transaction_id] is converted to [uint64_t]. *)
Definition copy (cmd : list byte * Z) : M (world S) unit :=
  modify (λ w, with_this (MkMessage cmd.1 (wrap 64 cmd.2) (object (this w))) w).

(** A reader that fills [object]. *)
Definition on_object {A : Type} (off : nat) (c : list byte → M reading A) : M (world S) A := λ w,
  let '(o, (_, m)) := c (io_buffer w) (off, object (this w)) in
  (o, with_this (MkMessage (command_name (this w)) (transaction_id (this w)) m) w).

(** A reader that appends to [set_data_frame]. *)
Definition on_set_data_frame {A : Type} (off : nat)
    (c : list byte → M (nat * properties) A) : M (world S) A := λ w,
  let '(o, (_, ps)) := c (io_buffer w) (off, set_data_frame w) in (o, with_set_data_frame ps w).

(** [size_t nbytes = bh_size + mh_size + message_length; read_nbytes_cycle(nbytes, ...)] *)
Definition read_whole (bh_size mh_size message_length : Z) : M (world S) unit :=
  read_nbytes_cycle_on IoBuf (wrap 64 (bh_size + mh_size + message_length)) 0 ;; ret tt.

(** Read a command with a null object and keep its name and id. *)
Definition read_simple_command (bh_size mh_size message_length : Z) : M (world S) unit :=
  read_whole bh_size mh_size message_length ;;
  ' (cmd, _) <- at_ptr IoBuf (Z.to_nat (bh_size + mh_size)) read_null_command ;;
  copy cmd.

Definition ConnectMessage_read_payload (csid bh_size mh_size message_length chunk_size : Z) : M (world S) unit :=
  read_payload_chunks message_length chunk_size ;;
  ' (cmd, p) <- at_ptr IoBuf (Z.to_nat (bh_size + mh_size))
    (λ buf, cmd <- read_command buf ;; expect buf MESSAGE_OBJECT ;; ret cmd) ;;
  on_object p read_object ;;
  copy cmd.

Definition ReleaseStream_read_payload (csid bh_size mh_size message_length chunk_size : Z) : M (world S) unit :=
  read_simple_command bh_size mh_size message_length.
Definition FCPublish_read_payload (csid bh_size mh_size message_length chunk_size : Z) : M (world S) unit :=
  read_simple_command bh_size mh_size message_length.
Definition CreateStream_read_payload (csid bh_size mh_size message_length chunk_size : Z) : M (world S) unit :=
  read_simple_command bh_size mh_size message_length.
Definition GetStreamLength_read_payload (csid bh_size mh_size message_length chunk_size : Z) : M (world S) unit :=
  read_simple_command bh_size mh_size message_length.
Definition PlayCommandMessage_read_payload (csid bh_size mh_size message_length chunk_size : Z) : M (world S) unit :=
  read_simple_command bh_size mh_size message_length.

Definition CheckBW_read_payload (csid bh_size mh_size message_length chunk_size : Z) : M (world S) unit :=
  read_whole bh_size mh_size message_length.
Definition UnknownMessage_read_payload (csid bh_size mh_size message_length chunk_size : Z) : M (world S) unit :=
  read_whole bh_size mh_size message_length.

Definition Publish_read_payload (csid bh_size mh_size message_length chunk_size : Z) : M (world S) unit :=
  read_whole bh_size mh_size message_length ;;
  at_ptr IoBuf (Z.to_nat (bh_size + mh_size)) read_publish ;; ret tt.

Definition SetDataFrame_read_payload (csid bh_size mh_size message_length chunk_size : Z) : M (world S) unit :=
  read_whole bh_size mh_size message_length ;;
  on_set_data_frame (Z.to_nat (bh_size + mh_size)) read_data_frame.

(** [IdentifyClient::read_header_get_payloadLength] *)
Definition read_header_get_payloadLength : M (world S) Z :=
  ' (_, csid, _, _, _) <- read_header ;;
  h <- csid_header_at csid ;;
  ret (message_length h).
End receive.

(** ** The payloads that are sent *)

(** Name and number of a command. *)
Definition command_bytes (name : list byte) (id : Z) : list byte :=
  x02 :: string_bytes name ++ x00 :: be_bytes 8 id.

Section sent.
Context {S : Type}.

Lemma emits_marker m : @emits S (marker m) [m].
Proof. apply emits_byte. Qed.

Lemma emits_put_literal s len :
  len = Z.of_nat (length (cstr s)) → @emits S (put_literal s len) (string_bytes (cstr s)).
Proof. intros ->. apply emits_bind_unit; [apply emits_put_int16 | by apply emits_c_str]. Qed.

(** Walk through a [write_payload]. *)
Ltac emit :=
  lazymatch goal with
  | |- emits (marker _) _ => apply emits_marker
  | |- emits (put_int16 _) _ => apply emits_put_int16
  | |- emits (put_int32 _) _ => apply emits_put_int32
  | |- emits (put_int64 _) _ => apply emits_put_int64
  | |- emits write_end_of_object _ => apply emits_end_of_object
  | |- emits (put_literal _ _) _ => apply emits_put_literal; reflexivity
  | |- emits (write_objects _) _ => apply emits_write_objects; repeat constructor; reflexivity
  | |- emits (write_object _) _ =>
      refine (emits_write_object _ _); repeat constructor; reflexivity
  | |- emits (push _ _ _) _ => apply emits_push_all; reflexivity
  | |- emits (bind _ _) _ => apply emits_bind_unit; emit
  | |- _ => idtac
  end.

Lemma Set_Window_Size_emits n : @emits S (Set_Window_Size_write_payload n) (be_bytes 4 n).
Proof. unfold Set_Window_Size_write_payload. emit. Qed.

Lemma Set_Peer_Bandwidth_emits n t :
  @emits S (Set_Peer_Bandwidth_write_payload n t) (be_bytes 4 n ++ [to_byte t]).
Proof. unfold Set_Peer_Bandwidth_write_payload. emit. Qed.

Lemma SetChunkSize_emits n : @emits S (SetChunkSize_write_payload n) (be_bytes 4 n).
Proof. unfold SetChunkSize_write_payload. emit. Qed.

Lemma command_emits (c : M (world S) unit) name id l :
  emits c l → short_string name →
  emits (marker x02 ;; put_string name ;; marker x00 ;; put_int64 id ;; c) (command_bytes name id ++ l).
Proof.
  intros Hc Hn. unfold command_bytes. cbn [app]. rewrite <- app_assoc. cbn [app].
  apply (emits_bind_unit _ _ [x02]); [emit |]. apply emits_bind_unit; [by apply emits_put_string |].
  apply (emits_bind_unit _ _ [x00]); [emit |]. by apply emits_bind_unit; [emit |].
Qed.

Lemma literal_command_emits (c : M (world S) unit) s len id l :
  emits c l → len = Z.of_nat (length (cstr s)) →
  emits (marker x02 ;; put_literal s len ;; marker x00 ;; put_int64 id ;; c)
    (command_bytes (cstr s) id ++ l).
Proof.
  intros Hc Hn. unfold command_bytes. cbn [app]. rewrite <- app_assoc. cbn [app].
  apply (emits_bind_unit _ _ [x02]); [emit |]. apply emits_bind_unit; [by apply emits_put_literal |].
  apply (emits_bind_unit _ _ [x00]); [emit |]. by apply emits_bind_unit; [emit |].
Qed.

Lemma Send_Object_Message_emits name id type :
  short_string name →
  @emits S (Send_Object_Message_write_payload name id type)
    (command_bytes name id ++
     (if (length (Send_Object_Message_init type) =? 0)%nat then [x05]
      else objects_bytes (Send_Object_Message_init type))).
Proof.
  intros Hn. apply command_emits; [| done]. apply emits_if; [emit |].
  destruct type; emit.
Qed.

Lemma ReleaseStreamResponse_emits id :
  @emits S (ReleaseStreamResponse_write_payload id) (command_bytes (cstr "_result") id ++ [x05; x06]).
Proof. apply literal_command_emits; [| done]. apply (emits_bind_unit _ _ [x05]); emit. Qed.

Lemma FCPublishResponse_emits id :
  @emits S (FCPublishResponse_write_payload id) (command_bytes (cstr "_result") id ++ [x05; x06]).
Proof. apply literal_command_emits; [| done]. apply (emits_bind_unit _ _ [x05]); emit. Qed.

Lemma CreateStreamResponse_emits id sid :
  @emits S (CreateStreamResponse_write_payload id sid)
    (command_bytes (cstr "_result") id ++ x05 :: x00 :: be_bytes 8 sid).
Proof.
  apply literal_command_emits; [| done]. apply (emits_bind_unit _ _ [x05]); [emit |].
  apply (emits_bind_unit _ _ [x00]); emit.
Qed.

Lemma OnFCPublish_emits id :
  @emits S (OnFCPublish_write_payload id)
    (command_bytes (cstr "onFCPublish") id ++ x05 :: objects_bytes OnFCPublish_init).
Proof.
  apply literal_command_emits; [| done]. apply (emits_bind_unit _ _ [x05]); emit.
Qed.

Lemma OnStatus_emits id :
  @emits S (OnStatus_write_payload id)
    (command_bytes (cstr "onStatus") id ++ x05 :: objects_bytes OnStatus_init).
Proof.
  apply literal_command_emits; [| done]. apply (emits_bind_unit _ _ [x05]); emit.
Qed.

Lemma SrcPCUCStreamBegin_emits :
  @emits S SrcPCUCStreamBegin_write_payload ([x00; x00] ++ be_bytes 4 1).
Proof. apply emits_bind_unit; emit. Qed.

Lemma PullStreamOnStatus_emits name id type :
  short_string name →
  @emits S (PullStreamOnStatus_write_payload name id type)
    (command_bytes name id ++ x05 :: objects_bytes (PullStreamOnStatus_init type)).
Proof.
  intros Hn. apply command_emits; [| done]. apply (emits_bind_unit _ _ [x05]); [emit |].
  destruct type; emit.
Qed.

Lemma RtmpSampleAccess_emits :
  @emits S RtmpSampleAccess_write_payload
    (x02 :: string_bytes (cstr "|RtmpSampleAccess") ++ [x01; x00; x01; x00]).
Proof.
  apply (emits_bind_unit _ _ [x02]); [emit |]. apply emits_bind_unit; [emit |].
  apply (emits_bind_unit _ _ [x01]); [emit |]. apply (emits_bind_unit _ _ [x00]); [emit |].
  apply (emits_bind_unit _ _ [x01]); emit.
Qed.

Lemma PullStreamOnStatus3_emits :
  @emits S PullStreamOnStatus3_write_payload
    (x02 :: string_bytes (cstr "onStatus") ++
     object_bytes [(cstr "code", vstr "NetStream.Data.Start")]).
Proof.
  apply (emits_bind_unit _ _ [x02]); [emit |]. apply emits_bind_unit; [emit |].
  eapply emits_eq; [emit | reflexivity].
Qed.
End sent.

(** ** onMetaData *)
Definition server_property : list byte * Value_Object :=
  (cstr "server", vstr "srs(simple rtmp server)0.1").

(** What [OnMetaData] can write. *)
Definition metadata (kv : list byte * Value_Object) : Prop :=
  short_string kv.1 ∧
  match kv.2 with
  | Value_String s => short_string s
  | Value_Len _ => False
  | _ => True
  end.

Definition onMetaData_bytes (command : list byte) (props : properties) : list byte :=
  x02 :: string_bytes command ++ object_bytes props.

Section metadata.
Context {S : Type}.

Lemma emits_metadata_property kv : metadata kv → @emits S (write_metadata_property kv) (property_bytes kv).
Proof.
  destruct kv as [k v]. intros [Hk Hv]. unfold write_metadata_property, property_bytes. cbn [fst snd] in *.
  apply emits_bind_unit; [by apply emits_put_string |].
  destruct v; try done; apply (emits_bind_unit _ _ [_]); try apply emits_marker.
  - by apply emits_put_string.
  - apply emits_put_int64.
Qed.

Lemma emits_metadata props :
  Forall metadata props →
  @emits S (marker x03 ;; for_each write_metadata_property props ;; write_end_of_object)
    (object_bytes props).
Proof.
  intros Hp. apply (emits_bind_unit _ _ [x03]); [apply emits_marker |].
  apply emits_bind_unit, emits_end_of_object. apply emits_for_each.
  eapply Forall_impl; [exact Hp |]. apply emits_metadata_property.
Qed.

Lemma OnMetaData_writes command (w : world S) :
  let props := set_data_frame w ++ [server_property] in
  short_string command → Forall metadata (set_data_frame w) →
  Z.of_nat (length (io_buffer w)) + Z.of_nat (length (onMetaData_bytes command props)) < max_size →
  OnMetaData_write_payload command w =
    (Ok tt, with_io_buffer (io_buffer w ++ onMetaData_bytes command props) (with_set_data_frame props w)).
Proof.
  intros props Hc Hp Hm. unfold onMetaData_bytes, string_bytes in *.
  assert (Forall metadata props) as Hprops by (apply Forall_app; split; [done | by repeat constructor]).
  cbn [length] in Hm. rewrite !length_app, length_be_bytes in Hm.
  unfold OnMetaData_write_payload.
  rewrite (emits_then _ [x02]) by (apply emits_marker || (simpl; lia)).
  rewrite (emits_then _ (be_bytes 2 (Z.of_nat (length command)))) by (apply emits_put_int16 ||
    (cbn [io_buffer with_io_buffer]; rewrite length_be_bytes, length_app; simpl; lia)).
  rewrite (emits_then _ command) by (by apply emits_c_str || 
    (cbn [io_buffer with_io_buffer]; rewrite !length_app, length_be_bytes; simpl; lia)).
  unfold bind at 1. cbn [modify]. unfold bind at 1. cbn [gets id].
  cbn [set_data_frame with_set_data_frame with_io_buffer]. fold server_property props.
  rewrite (emits_metadata props Hprops).
  - f_equal. unfold with_io_buffer, with_set_data_frame.
    cbn [sock io_buffer chunk_size this csid_header audio_video_buffer set_data_frame curr_csid].
    f_equal. by rewrite <- !app_assoc.
  - cbn [io_buffer with_io_buffer with_set_data_frame]. rewrite !length_app, length_be_bytes. change (length [x02]) with 1%nat. lia.
Qed.

Lemma length_onMetaData_bytes command props :
  length (onMetaData_bytes command props) =
    (7 + length command + length (props ≫= property_bytes))%nat.
Proof.
  unfold onMetaData_bytes, object_bytes. cbn [length].
  rewrite length_app, length_string_bytes. cbn [length]. rewrite length_app. cbn. lia.
Qed.
End metadata.

(** ** Parsing *)
Section parse_lemmas.
Implicit Types (buf rest name : list byte).

(** A marker byte that is there. *)
Lemma expect_ok buf m p b rest :
  cursor_at buf p (b :: rest) → sc b = m → expect buf m p = (Ok tt, (p + 1)%nat).
Proof. intros H Hb. rewrite (expect_at _ _ _ _ _ H), Hb, Z.eqb_refl. done. Qed.

Lemma read_name_at buf p name rest :
  name ≠ [] → short_string name → cursor_at buf p (string_bytes name ++ rest) →
  read_name buf p = (Ok name, (p + length (string_bytes name))%nat).
Proof.
  unfold short_string, string_bytes. intros Hne Hs H. rewrite <- app_assoc in H.
  assert (0 < length name)%nat by (destruct name; [done | simpl; lia]).
  unfold read_name.
  rewrite (bind_ok _ _ _ _ _ (be2se_int16_at buf p (Z.of_nat (length name)) _ ltac:(lia) H)).
  rewrite (proj2 (Z.leb_gt _ _)) by lia.
  apply cursor_at_skip in H. rewrite length_be_bytes in H.
  rewrite (bind_ok _ _ _ _ _ (eq_refl (advance 2 p))).
  rewrite (bind_ok _ _ _ _ _ (append_from_at buf _ name _ H ltac:(unfold max_size; lia))).
  rewrite Nat2Z.id. cbn -[be_bytes]. f_equal. rewrite length_app, length_be_bytes. lia.
Qed.

Lemma read_command_at buf p name id rest :
  name ≠ [] → short_string name → - 2 ^ 63 <= id < 2 ^ 63 →
  cursor_at buf p (command_bytes name id ++ rest) →
  read_command buf p = (Ok (name, id), (p + length (command_bytes name id))%nat).
Proof.
  intros Hne Hs Hid H. unfold command_bytes in *. cbn [app] in H. rewrite <- app_assoc in H.
  unfold read_command. rewrite (bind_ok _ _ _ _ _ (expect_ok _ _ _ _ _ H eq_refl)).
  apply (cursor_at_skip _ _ [_]) in H. cbn [length] in H.
  rewrite (bind_ok _ _ _ _ _ (read_name_at _ _ _ _ Hne Hs H)).
  apply cursor_at_skip in H. cbn [app] in H.
  rewrite (bind_ok _ _ _ _ _ (expect_ok _ _ _ _ _ H eq_refl)).
  apply (cursor_at_skip _ _ [_]) in H. cbn [length] in H.
  rewrite (bind_ok _ _ _ _ _ (be2se_int64_at _ _ _ _ Hid H)).
  cbn -[be_bytes string_bytes]. f_equal. rewrite length_app. cbn [length]. rewrite length_be_bytes. lia.
Qed.

Lemma read_null_command_at buf p name id rest :
  name ≠ [] → short_string name → - 2 ^ 63 <= id < 2 ^ 63 →
  cursor_at buf p (command_bytes name id ++ x05 :: rest) →
  read_null_command buf p = (Ok (name, id), (p + length (command_bytes name id) + 1)%nat).
Proof.
  intros Hne Hs Hid H. unfold read_null_command.
  rewrite (bind_ok _ _ _ _ _ (read_command_at _ _ _ _ _ Hne Hs Hid H)).
  apply cursor_at_skip in H. by rewrite (bind_ok _ _ _ _ _ (expect_ok _ _ _ _ _ H eq_refl)).
Qed.

(** A name whose length field says more than the buffer holds (the byte after
    the buffer can still be read). *)
Lemma read_name_overrun buf p len rest :
  0 < len < 2 ^ 15 → cursor_at buf p (be_bytes 2 len ++ rest) →
  Z.of_nat (length rest) + 1 < len → read_name buf p = (Undef, (p + 2)%nat).
Proof.
  intros Hl H Hr. unfold read_name.
  rewrite (bind_ok _ _ _ _ _ (be2se_int16_at buf p len _ ltac:(lia) H)).
  rewrite (proj2 (Z.leb_gt _ _)) by lia.
  apply cursor_at_skip in H. rewrite length_be_bytes in H.
  rewrite (bind_ok _ _ _ _ _ (eq_refl (advance 2 p))).
  unfold bind. rewrite (append_from_over _ _ _ _ H) by (unfold max_size; lia). done.
Qed.
End parse_lemmas.

(** ** Metadata *)
Definition metadata_readable (kv : list byte * Value_Object) : Prop :=
  kv.1 ≠ [] ∧ short_string kv.1 ∧
  match kv.2 with
  | Value_String s => s ≠ [] ∧ short_string s
  | Value_Num bits => 0 <= bits < 2 ^ 64
  | Value_0x01 _ => True
  | Value_Len _ => False
  end.

Definition data_frame_bytes (command content : list byte) (props : properties) : list byte :=
  x02 :: string_bytes command ++ x02 :: string_bytes content ++
  x08 :: be_bytes 4 (Z.of_nat (length props)) ++ (props ≫= property_bytes).

Section metadata_lemmas.
Implicit Types (buf rest : list byte) (ps props : properties).

Ltac step L := rewrite (on_ptr_bind _ _ _ _ _ _ L); cbv beta iota.

Lemma read_metadata_property_at buf p kv rest ps :
  metadata_readable kv → cursor_at buf p (property_bytes kv ++ rest) →
  read_metadata_property buf (p, ps) =
    (Ok tt, ((p + length (property_bytes kv))%nat, ps ++ [kv])).
Proof.
  destruct kv as [key v]. intros (Hne & Hs & Hv) H. unfold property_bytes in *. cbn [fst snd] in *.
  rewrite <- app_assoc in H. unfold read_metadata_property.
  step (read_name_at _ _ _ _ Hne Hs H). apply cursor_at_skip in H. rewrite length_app.
  set (q := (p + length (string_bytes key))%nat) in *. step (eq_refl (tell q)).
  rewrite (at_end_at _ _ _ H).
  replace (bool_decide (value_bytes v ++ rest = [])) with false by by destruct v.
  assert (∀ m tl, cursor_at buf q (m :: tl) → lift (deref buf q) q = (Ok m, q)) as Hd.
  { intros m tl Hc. pose proof (next_at _ _ _ _ Hc) as E. unfold next, bind, tell in E. cbn in E.
    unfold lift. destruct (deref buf q); simplify_eq; done. }
  destruct v as [s | bits | | b]; [| | done |]; cbn [value_bytes app] in *; step (Hd _ _ H).
  - destruct Hv as [Hsne Hss]. unfold short_string in Hss.
    assert (0 < length s)%nat by (destruct s; [done | simpl; lia]).
    change (sc x02 =? 0x00) with false. change (sc x02 =? 0x01) with false.
    change (sc x02 =? 0x02) with true. cbv iota.
    apply (cursor_at_skip _ _ [_]) in H. cbn [length] in H. unfold string_bytes in *.
    rewrite <- app_assoc in H. step (eq_refl (advance 1 q)).
    step (be2se_int16_at buf _ (Z.of_nat (length s)) _ ltac:(lia) H).
    rewrite (proj2 (Z.leb_gt _ _)) by lia. apply cursor_at_skip in H. rewrite length_be_bytes in H.
    step (eq_refl (advance 2 (q + 1)%nat)).
    step (append_from_at buf _ s _ H ltac:(unfold max_size; lia)).
    subst q. cbn -[be_bytes]. rewrite !length_app, !length_be_bytes, Nat2Z.id. do 2 f_equal. lia.
  - change (sc x00 =? 0x00) with true. cbv iota.
    apply (cursor_at_skip _ _ [_]) in H. cbn [length] in H. step (eq_refl (advance 1 q)).
    step (be2se_double_at buf _ bits _ Hv H). cbn -[be_bytes]. rewrite length_be_bytes.
    do 2 f_equal. lia.
  - change (sc x01 =? 0x00) with false. change (sc x01 =? 0x01) with true. cbv iota.
    apply (cursor_at_skip _ _ [_]) in H. cbn [length] in H. step (eq_refl (advance 1 q)).
    step (eq_refl (tell (q + 1)%nat)). rewrite (at_end_at _ _ _ H).
    change (bool_decide (b :: rest = [])) with false. cbv iota.
    step (next_at _ _ _ _ H). unfold modify. cbn [fst snd]. subst q. do 2 f_equal. cbn [length]. lia.
Qed.

Lemma read_metadata_properties_at buf p props rest ps :
  Forall metadata_readable props → cursor_at buf p ((props ≫= property_bytes) ++ rest) →
  read_metadata_properties buf (length props) (p, ps) =
    (Ok tt, ((p + length (props ≫= property_bytes))%nat, ps ++ props)).
Proof.
  intros Hp. revert p ps. induction Hp as [| kv props Hkv Hp IH]; intros p ps H.
  - cbn. rewrite app_nil_r. do 2 f_equal. lia.
  - rewrite bind_cons, <- app_assoc in H. cbn [length read_metadata_properties].
    rewrite (bind_ok _ _ _ _ _ (read_metadata_property_at _ _ _ _ _ Hkv H)).
    apply cursor_at_skip in H. rewrite IH by done.
    rewrite length_bind_cons, <- app_assoc. do 2 f_equal. lia.
Qed.

Lemma read_data_frame_at buf p command content props rest ps :
  command ≠ [] → short_string command → content ≠ [] → short_string content →
  props ≠ [] → Z.of_nat (length props) < 2 ^ 31 → Forall metadata_readable props →
  cursor_at buf p (data_frame_bytes command content props ++ rest) →
  ∃ q, read_data_frame buf (p, ps) = (Ok tt, (q, ps ++ props)).
Proof.
  intros Hc1 Hc2 Hd1 Hd2 Hne Hl Hp H. unfold data_frame_bytes in H.
  assert (0 < length props)%nat by (destruct props; [done | simpl; lia]).
  rewrite <- app_comm_cons, <- app_assoc, <- app_comm_cons, <- app_assoc, <- app_comm_cons, <- app_assoc in H.
  unfold read_data_frame.
  step (expect_ok _ _ _ _ _ H (eq_refl : sc x02 = MESSAGE_STRING)).
  apply (cursor_at_skip _ _ [_]) in H. step (read_name_at _ _ _ _ Hc1 Hc2 H). apply cursor_at_skip in H.
  step (expect_ok _ _ _ _ _ H (eq_refl : sc x02 = MESSAGE_STRING)).
  apply (cursor_at_skip _ _ [_]) in H. step (read_name_at _ _ _ _ Hd1 Hd2 H). apply cursor_at_skip in H.
  step (expect_ok _ _ _ _ _ H (eq_refl : sc x08 = 0x08)). apply (cursor_at_skip _ _ [_]) in H.
  step (be2se_int32_at buf _ (Z.of_nat (length props)) _ ltac:(lia) H).
  rewrite (proj2 (Z.leb_gt _ _)) by lia. apply cursor_at_skip in H. rewrite length_be_bytes in H.
  step (eq_refl (advance 4 (p + length [x02] + length (string_bytes command) + length [x02] +
    length (string_bytes content) + length [x08])%nat)).
  rewrite Nat2Z.id, (read_metadata_properties_at _ _ _ _ _ Hp H). by eexists.
Qed.
End metadata_lemmas.

(** ** Receiving a message *)
Section received.
Context {S : Type} `{!StSocket S, !StSocketLaws S}.
Implicit Types (w : world S) (payload rest : list byte).

(** Headers the server understands and that carry the message length. *)
Record good_header (fmt csid ts mt sid : Z) (payload : list byte) : Prop := {
  gh_fmt : 0 <= fmt <= 1;
  gh_csid : 2 <= csid <= 191;
  gh_ts : 0 <= ts < 2 ^ 31;
  gh_readable : timestamp_readable fmt ts;
  gh_mt : -128 <= mt < 128;
  gh_sid : - 2 ^ 31 <= sid < 2 ^ 31;
  gh_length : Z.of_nat (length payload) < 2 ^ 24;
}.

(** [recv_message] reads the header and calls [read_payload] with the sizes and
    the length it found. *)
Lemma recv_message_header fmt csid ts mt sid payload rest w :
  good_header fmt csid ts mt sid payload →
  let hb := chunk_header fmt csid ts (Z.of_nat (length payload)) mt sid in
  streaming IoBuf (hb ++ rest) 0 w →
  ∃ bh mh w1,
    (∀ rp, recv_message rp w = rp csid bh mh (Z.of_nat (length payload)) (chunk_size w) w1) ∧
    0 <= bh ∧ 0 <= mh ∧ bh + mh = Z.of_nat (length hb) ∧
    streaming IoBuf (hb ++ rest) (length hb) w1 ∧ this w1 = this w ∧ set_data_frame w1 = set_data_frame w ∧
    tx (sock w1) = tx (sock w) ∧ chunk_size w1 = chunk_size w.
Proof.
  intros [Hf Hc Hts Hr Hmt Hsid Hl] hb H0.
  destruct (chunk_header_read fmt csid ts (Z.of_nat (length payload)) mt sid rest w ltac:(lia) ltac:(lia)
    Hts Hmt Hsid Hr H0) as (bh & mh & w1 & E1 & Hs & S1 & F1).
  rewrite csid_seen_ok in * by done.
  assert (has IoBuf 0 w) as Hhas.
  { destruct H0 as (_ & Hb0 & _). unfold has. rewrite Hb0, take_0. change (length []) with 0%nat. lia. }
  pose proof (read_header_safe w Hhas) as Hb. rewrite E1 in Hb. destruct Hb as (_ & Hbh & Hmh & _).
  exists bh, mh, w1. split_and!; try done; try lia.
  - intros rp. unfold recv_message. rewrite (bind_ok _ _ _ _ _ E1). cbv beta iota.
    destruct (same_world_this _ _ _ F1) as (Hhs & _ & Hcs1).
    cbn [csid_header chunk_size with_csid_header] in Hhs, Hcs1.
    assert (csid_header_at csid w1 = (Ok (set_message_length (Z.of_nat (length payload))
      (default Message_Header_new (csid_header w !! csid))), w1)) as E2.
    { unfold csid_header_at. rewrite Hhs. unfold lengths_after, remember_length.
      rewrite (proj2 (Z.leb_le fmt 1)), lookup_insert_eq, Z.mod_small by lia. done. }
    rewrite (bind_ok _ _ _ _ _ E2). unfold bind at 1. cbn [gets id message_length set_message_length].
    by rewrite Hcs1.
  - by destruct F1 as [_ (s & v & ->)].
  - by destruct F1 as [_ (s & v & ->)].
  - by destruct F1 as [-> _].
  - by destruct F1 as [_ (s & v & ->)].
Qed.

(** The message fits one chunk and is read in one go. *)
Lemma read_whole_streaming bh mh pre payload rest w :
  0 <= bh → 0 <= mh → bh + mh = Z.of_nat (length pre) → Z.of_nat (length payload) < 2 ^ 24 →
  streaming IoBuf (pre ++ payload ++ rest) (length pre) w →
  ∃ w', read_whole bh mh (Z.of_nat (length payload)) w = (Ok tt, w') ∧
    streaming IoBuf (pre ++ payload ++ rest) (length pre + length payload) w' ∧ same_world IoBuf w w' ∧
    cursor_at (io_buffer w') (Z.to_nat (bh + mh)) payload ∧ rx (sock w') = rest.
Proof.
  intros Hbh Hmh Hs Hl H0. unfold read_whole.
  assert (length pre ≤ length pre + length payload ≤ length (pre ++ payload ++ rest))%nat as Hle
    by (rewrite !length_app; lia).
  destruct (read_nbytes_cycle_streaming IoBuf _ _ _ 0 w H0 Hle) as (z & w' & E & S' & F & _).
  assert (Z.of_nat (length pre) < 2 ^ 62) as Hm.
  { destruct H0 as (_ & _ & _ & _ & Hm). rewrite length_app in Hm. unfold max_size in Hm. lia. }
  rewrite wrap_small by lia. rewrite Hs, <- Nat2Z.inj_add.
  rewrite (bind_ok _ _ _ _ _ E). exists w'. split_and!; try done.
  - rewrite Nat2Z.id. exact (streaming_cursor IoBuf (pre ++ payload ++ rest) pre payload rest w' eq_refl S').
  - destruct S' as (_ & _ & -> & _). rewrite app_assoc, drop_app_length'; [done |].
    by rewrite length_app.
Qed.

Lemma same_world_fields w w' :
  same_world IoBuf w w' → this w' = this w ∧ set_data_frame w' = set_data_frame w.
Proof. by intros [_ (s & v & ->)]. Qed.
End received.

(** ** Properties *)
Section properties.
Context {S : Type} `{!StSocket S, !StSocketLaws S}.

(** [writes c n]: the payload [c] writes has [n] bytes, whatever was in the
    buffer before. *)
Definition writes (c : M (world S) unit) (n : Z) : Prop :=
  ∃ l, emits c l ∧ Z.of_nat (length l) = n.

Lemma writes_intro c l n : emits c l → Z.of_nat (length l) = n → writes c n.
Proof. by exists l. Qed.

(** The message lengths that client.cpp passes to [write_message] as
    literals, and those it takes from [get_payload_size], are the lengths of
    the payloads that are written, for every message of both flows but
    [OnMetaData]. *)
Theorem declared_lengths_exact (id sid size bw limit cs : Z) :
  writes (Set_Window_Size_write_payload size) 4 ∧
  writes (Set_Peer_Bandwidth_write_payload bw limit) 5 ∧
  writes (Send_Object_Message_write_payload (cstr "_result") id CONNECT_APP_RESPONSE)
    (Send_Object_Message_get_payload_size (cstr "_result") CONNECT_APP_RESPONSE) ∧
  writes (Send_Object_Message_write_payload (cstr "onBWDone") id ON_BW_DONE)
    (Send_Object_Message_get_payload_size (cstr "onBWDone") ON_BW_DONE) ∧
  writes (ReleaseStreamResponse_write_payload id) 21 ∧
  writes (FCPublishResponse_write_payload id) 21 ∧
  writes (CreateStreamResponse_write_payload id sid) 29 ∧
  writes (SetChunkSize_write_payload cs) 4 ∧
  writes (OnFCPublish_write_payload id) 102 ∧
  writes (OnStatus_write_payload id) 136 ∧
  writes SrcPCUCStreamBegin_write_payload 6 ∧
  writes (PullStreamOnStatus_write_payload (cstr "onStatus") id PULL_ONSTATUS1) 154 ∧
  writes (PullStreamOnStatus_write_payload (cstr "onStatus") id PULL_ONSTATUS2) 148 ∧
  writes RtmpSampleAccess_write_payload 24 ∧
  writes PullStreamOnStatus3_write_payload 44.
Proof.
  split_and!.
  - exact (writes_intro _ _ _ (Set_Window_Size_emits size) eq_refl).
  - exact (writes_intro _ _ _ (Set_Peer_Bandwidth_emits bw limit) eq_refl).
  - exact (writes_intro _ _ _ (Send_Object_Message_emits (cstr "_result") id CONNECT_APP_RESPONSE eq_refl) eq_refl).
  - exact (writes_intro _ _ _ (Send_Object_Message_emits (cstr "onBWDone") id ON_BW_DONE eq_refl) eq_refl).
  - exact (writes_intro _ _ _ (ReleaseStreamResponse_emits id) eq_refl).
  - exact (writes_intro _ _ _ (FCPublishResponse_emits id) eq_refl).
  - exact (writes_intro _ _ _ (CreateStreamResponse_emits id sid) eq_refl).
  - exact (writes_intro _ _ _ (SetChunkSize_emits cs) eq_refl).
  - exact (writes_intro _ _ _ (OnFCPublish_emits id) eq_refl).
  - exact (writes_intro _ _ _ (OnStatus_emits id) eq_refl).
  - exact (writes_intro _ _ _ SrcPCUCStreamBegin_emits eq_refl).
  - exact (writes_intro _ _ _ (PullStreamOnStatus_emits (cstr "onStatus") id PULL_ONSTATUS1 eq_refl) eq_refl).
  - exact (writes_intro _ _ _ (PullStreamOnStatus_emits (cstr "onStatus") id PULL_ONSTATUS2 eq_refl) eq_refl).
  - exact (writes_intro _ _ _ RtmpSampleAccess_emits eq_refl).
  - exact (writes_intro _ _ _ PullStreamOnStatus3_emits eq_refl).
Qed.

(** [OnMetaData] has no fixed length: every write adds a [server] entry to
    the global metadata, so of two consecutive writes the second is 37 bytes
    longer, while client.cpp declares 395 bytes for each. *)
Theorem OnMetaData_grows (command : list byte) (w : world S) :
  short_string command → Forall metadata (set_data_frame w) → io_buffer w = [] →
  Z.of_nat (length (set_data_frame w ≫= property_bytes)) < 2 ^ 60 →
  ∃ w1 w2, OnMetaData_write_payload command w = (Ok tt, w1) ∧
    OnMetaData_write_payload command (with_io_buffer [] w1) = (Ok tt, w2) ∧
    length (io_buffer w2) = (length (io_buffer w1) + 37)%nat.
Proof.
  intros Hc Hp Hb Hl. unfold short_string in Hc.
  set (ps1 := set_data_frame w ++ [server_property]).
  set (ps2 := ps1 ++ [server_property]).
  assert (length (ps1 ≫= property_bytes) = length (set_data_frame w ≫= property_bytes) + 37)%nat as L1.
  { unfold ps1. rewrite bind_app, length_app. done. }
  assert (length (ps2 ≫= property_bytes) = length (set_data_frame w ≫= property_bytes) + 74)%nat as L2.
  { unfold ps2. rewrite bind_app, length_app, L1. cbn. lia. }
  eexists _, _. split; [apply OnMetaData_writes; try done |].
  { rewrite Hb, length_onMetaData_bytes. fold ps1. rewrite L1. unfold max_size. cbn [length]. lia. }
  fold ps1. split; [apply OnMetaData_writes; try done |].
  { cbn [set_data_frame with_io_buffer with_set_data_frame].
    apply Forall_app. split; [done | by repeat constructor]. }
  { cbn [io_buffer set_data_frame with_io_buffer with_set_data_frame]. fold ps2.
    rewrite length_onMetaData_bytes, L2. unfold max_size. cbn [length]. lia. }
  cbn [io_buffer set_data_frame with_io_buffer with_set_data_frame]. fold ps2.
  rewrite Hb. cbn [app]. rewrite !length_onMetaData_bytes. lia.
Qed.

(** A command with a null object that fits one chunk is parsed by
    [recv_message]: the name and the transaction id of the message are the
    ones sent, the buffer holds exactly the message, and the connection is
    left at the next one. *)
Theorem command_received (name extra rest : list byte) (id fmt csid ts mt sid : Z) (w : world S) :
  name ≠ [] → short_string name → - 2 ^ 63 <= id < 2 ^ 63 →
  let payload := command_bytes name id ++ x05 :: extra in
  good_header fmt csid ts mt sid payload →
  let hb := chunk_header fmt csid ts (Z.of_nat (length payload)) mt sid in
  streaming IoBuf (hb ++ payload ++ rest) 0 w →
  ∃ w', recv_message ReleaseStream_read_payload w = (Ok tt, w') ∧
    this w' = MkMessage name (wrap 64 id) (object (this w)) ∧
    io_buffer w' = hb ++ payload ∧ rx (sock w') = rest.
Proof.
  intros Hne Hs Hid payload Hg hb H0.
  destruct (recv_message_header _ _ _ _ _ payload _ w Hg H0)
    as (bh & mh & w1 & E1 & Hbh & Hmh & Hsum & S1 & Ht1 & _).
  rewrite E1. unfold ReleaseStream_read_payload, read_simple_command.
  destruct (read_whole_streaming bh mh _ payload rest w1 Hbh Hmh Hsum (gh_length _ _ _ _ _ _ Hg) S1)
    as (w2 & E2 & S2 & F2 & C & Hrx).
  rewrite (bind_ok _ _ _ _ _ E2).
  destruct (same_world_fields _ _ F2) as [Ht2 _].
  assert (at_ptr IoBuf (Z.to_nat (bh + mh)) read_null_command w2 =
    (Ok (name, id, (Z.to_nat (bh + mh) + length (command_bytes name id) + 1)%nat), w2)) as E3.
  { apply at_ptr_ok. by apply (read_null_command_at _ _ _ _ extra). }
  rewrite (bind_ok _ _ _ _ _ E3). eexists. split; [reflexivity |].
  cbn [this io_buffer sock with_this fst snd]. split_and!; [by rewrite Ht2, Ht1 | | done].
  destruct S2 as (_ & Hb2 & _). cbn [buf] in Hb2. rewrite Hb2, app_assoc.
  rewrite take_app_length'; [done |]. by rewrite length_app.
Qed.

(** A command whose name length exceeds what was received makes the reader
    copy from beyond the buffer: every reader of commands takes the length from
    the message and never compares it with the buffer. *)
Theorem command_name_overrun (rest body : list byte) (len fmt csid ts mt sid : Z) (w : world S) :
  0 < len < 2 ^ 15 → Z.of_nat (length body) + 1 < len →
  let payload := x02 :: be_bytes 2 len ++ body in
  good_header fmt csid ts mt sid payload →
  let hb := chunk_header fmt csid ts (Z.of_nat (length payload)) mt sid in
  streaming IoBuf (hb ++ payload ++ rest) 0 w →
  ∃ w', recv_message ReleaseStream_read_payload w = (Undef, w').
Proof.
  intros Hlen Hl payload Hg hb H0.
  destruct (recv_message_header _ _ _ _ _ payload _ w Hg H0)
    as (bh & mh & w1 & E1 & Hbh & Hmh & Hsum & S1 & _).
  rewrite E1. unfold ReleaseStream_read_payload, read_simple_command.
  destruct (read_whole_streaming bh mh _ payload rest w1 Hbh Hmh Hsum (gh_length _ _ _ _ _ _ Hg) S1)
    as (w2 & E2 & _ & _ & C & _).
  rewrite (bind_ok _ _ _ _ _ E2). exists w2.
  assert (read_null_command (io_buffer w2) (Z.to_nat (bh + mh)) =
    (Undef, (Z.to_nat (bh + mh) + 1 + 2)%nat)) as E3.
  { unfold read_null_command, read_command, payload in *. rewrite !bind_assoc.
    rewrite (bind_ok _ _ _ _ _ (expect_ok _ _ _ _ _ C eq_refl)).
    apply (cursor_at_skip _ _ [_]) in C. cbn [length] in C.
    rewrite bind_assoc. unfold bind at 1. by rewrite (read_name_overrun _ _ _ _ Hlen C Hl). }
  unfold bind at 1, at_ptr. cbn [buf]. by rewrite E3.
Qed.

Lemma recv_connect (h3 : byte) (name rest : list byte) (props : properties) (id fmt csid ts mt sid : Z)
    (n : nat) (w : world S) :
  name ≠ [] → short_string name → - 2 ^ 63 <= id < 2 ^ 63 → Forall readable props →
  let payload := command_bytes name id ++ object_bytes props in
  good_header fmt csid ts mt sid payload →
  chunk_size w = Z.of_nat n → (0 < n)%nat → Z.of_nat n < 2 ^ 31 →
  let hb := chunk_header fmt csid ts (Z.of_nat (length payload)) mt sid in
  streaming IoBuf (hb ++ chunked h3 n payload ++ rest) 0 w →
  ∃ w', recv_message ConnectMessage_read_payload w = (Ok tt, w') ∧
    this w' = MkMessage name (wrap 64 id) (insert_all props (object (this w))) ∧
    rx (sock w') = rest ∧ healthy (sock w') ∧ tx (sock w') = tx (sock w) ∧
    chunk_size w' = chunk_size w.
Proof.
  intros Hne Hs Hid Hp payload Hg Hc Hn Hn' hb H0.
  destruct (recv_message_header _ _ _ _ _ payload _ w Hg H0)
    as (bh & mh & w1 & E1 & Hbh & Hmh & Hsum & S1 & Ht1 & _ & Htx1 & Hcs1).
  rewrite E1, Hc. unfold ConnectMessage_read_payload, read_payload_chunks, read_chunks_fuel.
  fold hb in S1, Hsum. pose proof (gh_length _ _ _ _ _ _ Hg) as Hlp.
  pose proof (length_chunk_header fmt csid ts (Z.of_nat (length payload)) mt sid) as Hhb. fold hb in Hhb.
  pose proof (streaming_length _ _ _ _ S1) as Hlb.
  destruct S1 as (Hh1 & Hb1 & Hrx1 & _ & _). rewrite take_app_length in Hb1. rewrite drop_app_length in Hrx1.
  destruct (read_chunks_all IoBuf h3 n (Datatypes.S (Z.to_nat (Z.of_nat (length payload))))
    payload rest w1 Hn Hn' Hh1 Hrx1) as (w2 & E2 & R2); [lia | lia |].
  rewrite (bind_ok _ _ _ _ _ E2).
  pose proof (receives_buf _ _ _ _ _ R2) as Hb2. rewrite Hb1 in Hb2. cbn [buf] in Hb2.
  assert (cursor_at (io_buffer w2) (Z.to_nat (bh + mh)) payload) as C.
  { rewrite Hsum, Nat2Z.id, Hb2. apply cursor_at_app. }
  unfold payload, object_bytes in C. set (p := Z.to_nat (bh + mh)) in *.
  assert (at_ptr IoBuf p (λ buf, cmd <- read_command buf ;; expect buf MESSAGE_OBJECT ;; ret cmd) w2 =
    (Ok (name, id, (p + length (command_bytes name id) + 1)%nat), w2)) as E3.
  { apply at_ptr_ok. rewrite (bind_ok _ _ _ _ _ (read_command_at _ _ _ _ _ Hne Hs Hid C)).
    pose proof (cursor_at_skip _ _ _ _ C) as C'.
    by rewrite (bind_ok _ _ _ _ _ (expect_ok _ _ _ _ _ C' (eq_refl : sc x03 = MESSAGE_OBJECT))). }
  rewrite (bind_ok _ _ _ _ _ E3). cbv beta iota.
  apply cursor_at_skip in C. apply (cursor_at_skip _ _ [_]) in C. cbn [length] in C.
  assert (on_object (p + length (command_bytes name id) + 1) read_object w2 =
    (Ok tt, with_this (MkMessage (command_name (this w2)) (transaction_id (this w2))
       (insert_all props (object (this w2)))) w2)) as E4.
  { unfold on_object. by rewrite (read_object_at _ _ _ _ Hp C). }
  rewrite (bind_ok _ _ _ _ _ E4). eexists. split; [reflexivity |].
  destruct R2 as (s2 & -> & Hrx2 & Htx2 & Hh2). cbn [copy modify with_this this with_buf with_io_buffer with_sock sock
    object fst snd]. rewrite Ht1.
  split_and!; try done; cbn; congruence.
Qed.

(** The connect message is reassembled from its chunks and parsed: the name,
    the transaction id and the properties of the command object are the ones
    the client sent. *)
Theorem connect_received (name rest : list byte) (props : properties) (id fmt csid ts mt sid : Z)
    (n : nat) (w : world S) :
  name ≠ [] → short_string name → - 2 ^ 63 <= id < 2 ^ 63 → Forall readable props →
  let payload := command_bytes name id ++ object_bytes props in
  good_header fmt csid ts mt sid payload →
  chunk_size w = Z.of_nat n → (0 < n)%nat → Z.of_nat n < 2 ^ 31 →
  let hb := chunk_header fmt csid ts (Z.of_nat (length payload)) mt sid in
  streaming IoBuf (hb ++ chunked (header_fmt3 csid) n payload ++ rest) 0 w →
  ∃ w', recv_message ConnectMessage_read_payload w = (Ok tt, w') ∧
    this w' = MkMessage name (wrap 64 id) (insert_all props (object (this w))) ∧
    rx (sock w') = rest.
Proof.
  intros Hne Hs Hid Hp payload Hg Hc Hn Hn' hb H0.
  destruct (recv_connect _ _ _ _ _ _ _ _ _ _ _ _ Hne Hs Hid Hp Hg Hc Hn Hn' H0)
    as (w' & E & Ht & Hrx & _). by exists w'.
Qed.

(** The metadata of a publisher reaches the players: a [@setDataFrame] message
    appends its properties to the global list in order, and [OnMetaData] then
    writes the object of the whole list followed by the [server] entry. *)
Theorem metadata_relayed (command content : list byte) (props : properties) (rest : list byte)
    (fmt csid ts mt sid : Z) (w : world S) :
  command ≠ [] → short_string command → content ≠ [] → short_string content →
  props ≠ [] → Forall metadata_readable props → set_data_frame w = [] →
  let payload := data_frame_bytes command content props in
  good_header fmt csid ts mt sid payload →
  let hb := chunk_header fmt csid ts (Z.of_nat (length payload)) mt sid in
  streaming IoBuf (hb ++ payload ++ rest) 0 w →
  ∃ w1 w2, recv_message SetDataFrame_read_payload w = (Ok tt, w1) ∧ set_data_frame w1 = props ∧
    OnMetaData_write_payload (cstr "onMetaData") (with_io_buffer [] w1) = (Ok tt, w2) ∧
    io_buffer w2 = onMetaData_bytes (cstr "onMetaData") (props ++ [server_property]).
Proof.
  intros Hc1 Hc2 Hd1 Hd2 Hpne Hp Hempty payload Hg hb H0.
  destruct (recv_message_header _ _ _ _ _ payload _ w Hg H0)
    as (bh & mh & w1 & E1 & Hbh & Hmh & Hsum & S1 & _ & Hd & _).
  rewrite E1. unfold SetDataFrame_read_payload.
  destruct (read_whole_streaming bh mh _ payload rest w1 Hbh Hmh Hsum (gh_length _ _ _ _ _ _ Hg) S1)
    as (w2 & E2 & _ & F2 & C & _).
  destruct (same_world_fields _ _ F2) as [_ Hd2'].
  pose proof (gh_length _ _ _ _ _ _ Hg) as Hlp.
  pose proof (length_props_le props) as Hlprops.
  assert (length (props ≫= property_bytes) ≤ length payload)%nat as Hle.
  { unfold payload, data_frame_bytes. cbn [length]. rewrite !length_app. cbn [length].
    rewrite !length_app. cbn [length]. rewrite !length_app. lia. }
  rewrite (bind_ok _ _ _ _ _ E2).
  rewrite <- (app_nil_r payload) in C.
  destruct (read_data_frame_at _ _ command content props [] (set_data_frame w2) Hc1 Hc2 Hd1 Hd2 Hpne
    ltac:(lia) Hp C) as (q & E3).
  set (w3 := with_set_data_frame props w2).
  assert (on_set_data_frame (Z.to_nat (bh + mh)) read_data_frame w2 = (Ok tt, w3)) as E4.
  { unfold on_set_data_frame. rewrite E3, Hd2', Hd, Hempty. done. }
  eexists w3, _. split; [exact E4 |]. split; [done |].
  assert (Forall metadata props) as Hm.
  { eapply Forall_impl; [exact Hp |]. intros [k v] (_ & Hk & Hv). split; [done |]. cbn [fst snd] in *.
    destruct v; tauto. }
  split; [apply OnMetaData_writes; try done |].
  - rewrite length_onMetaData_bytes. cbn [set_data_frame with_io_buffer w3 with_set_data_frame io_buffer].
    rewrite bind_app, length_app. unfold max_size. cbn -[property_bytes mbind]. 
    assert (length ([server_property] ≫= property_bytes) = 37%nat) as -> by done. lia.
  - done.
Qed.
End properties.

(** ** Witnesses *)
Definition sample_metadata : properties :=
  [(cstr "width", vnum 1280); (cstr "stereo", Value_0x01 x01); (cstr "encoder", vstr "obs")].

Lemma sample_metadata_readable : Forall metadata_readable sample_metadata.
Proof. repeat constructor; vm_compute; congruence. Qed.

Lemma sample_metadata_ok : Forall metadata sample_metadata.
Proof. repeat constructor. Qed.

Lemma good_header_3 payload :
  Z.of_nat (length payload) < 2 ^ 24 → good_header 0 3 0 20 0 payload.
Proof. intros Hl. split; try (split; lia); lia. Qed.

Lemma OnMetaData_grows_witness :
  ∃ w1 w2, OnMetaData_write_payload (cstr "onMetaData")
      (with_set_data_frame sample_metadata empty_world) = (Ok tt, w1) ∧
    OnMetaData_write_payload (cstr "onMetaData") (with_io_buffer [] w1) = (Ok tt, w2) ∧
    length (io_buffer w2) = (length (io_buffer w1) + 37)%nat.
Proof.
  apply (OnMetaData_grows (cstr "onMetaData") (with_set_data_frame sample_metadata empty_world));
    [reflexivity | apply sample_metadata_ok | reflexivity | reflexivity].
Defined.

Definition release : list byte := command_bytes (cstr "releaseStream") (double_bits 2) ++ x05 :: [x02; x00; x00].

Lemma command_received_witness :
  ∃ w', recv_message ReleaseStream_read_payload
      (world_on (feed (chunk_header 0 3 0 (Z.of_nat (length release)) 20 0 ++ release ++ [x2a])))
      = (Ok tt, w') ∧
    this w' = MkMessage (cstr "releaseStream") (wrap 64 (double_bits 2)) ∅ ∧
    io_buffer w' = chunk_header 0 3 0 (Z.of_nat (length release)) 20 0 ++ release ∧
    rx (sock w') = [x2a].
Proof.
  apply (command_received (cstr "releaseStream") [x02; x00; x00] [x2a] (double_bits 2) 0 3 0 20 0
    (world_on (feed (chunk_header 0 3 0 (Z.of_nat (length release)) 20 0 ++ release ++ [x2a])))).
  - discriminate.
  - reflexivity.
  - vm_compute. split; congruence.
  - apply good_header_3. reflexivity.
  - apply feed_streaming. reflexivity.
Defined.

Lemma command_name_overrun_witness :
  ∃ w', recv_message ReleaseStream_read_payload
      (world_on (feed (chunk_header 0 3 0 4 20 0 ++ [x02; x01; x00; x41] ++ []))) = (Undef, w').
Proof.
  apply (command_name_overrun [] [x41] 256 0 3 0 20 0).
  - lia.
  - cbn. lia.
  - apply good_header_3. reflexivity.
  - apply feed_streaming. reflexivity.
Defined.

Definition connect : list byte := command_bytes (cstr "connect") (double_bits 1) ++ object_bytes sample.

Lemma connect_received_witness :
  ∃ w', recv_message ConnectMessage_read_payload
      (small_chunks (chunk_header 0 3 0 (Z.of_nat (length connect)) 20 0 ++
         chunked (header_fmt3 3) 4 connect ++ [x2a])) = (Ok tt, w') ∧
    this w' = MkMessage (cstr "connect") (wrap 64 (double_bits 1)) (insert_all sample ∅) ∧
    rx (sock w') = [x2a].
Proof.
  apply (connect_received (cstr "connect") [x2a] sample (double_bits 1) 0 3 0 20 0 4).
  - discriminate.
  - reflexivity.
  - vm_compute. split; congruence.
  - eapply Forall_impl; [apply sample_ok |]. by intros ? [].
  - apply good_header_3. reflexivity.
  - reflexivity.
  - lia.
  - lia.
  - apply small_chunks_streaming. reflexivity.
Defined.

Definition data_frame : list byte :=
  data_frame_bytes (cstr "@setDataFrame") (cstr "onMetaData") sample_metadata.

Lemma metadata_relayed_witness :
  ∃ w1 w2, recv_message SetDataFrame_read_payload
      (world_on (feed (chunk_header 0 3 0 (Z.of_nat (length data_frame)) 20 0 ++ data_frame ++ [])))
      = (Ok tt, w1) ∧
    set_data_frame w1 = sample_metadata ∧
    OnMetaData_write_payload (cstr "onMetaData") (with_io_buffer [] w1) = (Ok tt, w2) ∧
    io_buffer w2 = onMetaData_bytes (cstr "onMetaData") (sample_metadata ++ [server_property]).
Proof.
  apply (metadata_relayed (cstr "@setDataFrame") (cstr "onMetaData") sample_metadata [] 0 3 0 20 0).
  - discriminate.
  - reflexivity.
  - discriminate.
  - reflexivity.
  - discriminate.
  - apply sample_metadata_readable.
  - reflexivity.
  - apply good_header_3. reflexivity.
  - apply feed_streaming. reflexivity.
Defined.
