(* ===== verification/Session.v ===== *)
(** * rtmp_protocol.cpp and client.cpp: the handshake and the command exchange

    [process_thread] is straight-line code up to its two endless loops (the
    loops are in Relay.v).  [S] is the connection of one client coroutine. *)

From stdpp Require Import base list gmap.
From Stdlib Require Import Lia ZArith.
From S2P Require Import Prelude.
From S2P Require Import Bytes.
From S2P Require Import Util.
From S2P Require Import StApi.
From S2P Require Import StIo.
From S2P Require Import State.
From S2P Require Import IoBuffer.
From S2P Require Import IoSocket.
From S2P Require Import Emit.
From S2P Require Import Header.
From S2P Require Import Amf.
From S2P Require Import Chunk.
From S2P Require Import Messages.

Local Open Scope Z_scope.

Section session.
Context {S : Type} `{!StSocket S}.

(** [io_buffer->clear();] *)
Definition clear_buffer : M (world S) unit := modify (with_io_buffer []).

(** [char s0s1s2[3073] = {0}; s0s1s2[0] = 0x03;] *)
Definition s0s1s2 : list byte := x03 :: replicate 3072 x00.

(** [RTMP_Protocol::handshake] *)
Definition handshake : M (world S) unit :=
  nread <- read_nbytes 1537 0 ;;
  w <- gets id ;;
  c0 <- lift (deref (io_buffer w) 0) ;;
  if negb (sc c0 =? 0x03) then fail else
  write s0s1s2 ;;
  read_nbytes (1537 + 1536) nread ;;
  clear_buffer.

(** [RTMP_Protocol::recv_connect_message] (called from nowhere); the loop has
    no bound of its own. *)
Fixpoint recv_connect_message (fuel : nat)
    (read_payload : Z → Z → Z → Z → Z → M (world S) unit) : M (world S) unit :=
  match fuel with
  | O => lift Hang
  | Datatypes.S fuel =>
      recv_message read_payload ;;
      w <- gets id ;;
      if bool_decide (command_name (this w) = cstr "connect") then clear_buffer
      else recv_connect_message fuel read_payload
  end.

(** A call whose result is dropped: -1 does not stop the caller. *)
Definition ignore (c : M (world S) unit) : M (world S) unit := λ w,
  match c w with
  | (Fail, w') => (Ok tt, w')
  | r => r
  end.

(** [message_ptr = new ...; if (c == -1) return NULL; delete message_ptr;]: the
    destructor clears the client's buffer. *)
Definition with_message (c : M (world S) unit) : M (world S) unit :=
  modify (with_this IO_Message_new) ;; c ;; clear_buffer.

(** [message_ptr = new ...; c; delete message_ptr;] *)
Definition with_message_ignored (c : M (world S) unit) : M (world S) unit :=
  with_message (ignore c).

(** [IO_Message::common_print]: every value that is not a number is printed as
    a [Value_String], whatever it is. *)
Definition printable (v : Value_Object) : bool :=
  match v with Value_String _ | Value_Num _ => true | _ => false end.

Definition common_print : M (world S) unit := λ w,
  ((if bool_decide (map_Forall (λ _ v, printable v = true) (object (this w))) then Ok tt else Undef), w).

(** From the beginning of [process_thread] to the [onBWDone] message. *)
Definition connect_phase : M (world S) unit :=
  handshake ;;
  with_message (recv_message ConnectMessage_read_payload ;; common_print) ;;
  with_message (write_message (Set_Window_Size_write_payload 2500000) 0 2 0 4 5 0) ;;
  with_message (write_message (Set_Peer_Bandwidth_write_payload 2500000 2) 0 2 0 5 6 0) ;;
  with_message (write_message
    (Send_Object_Message_write_payload (cstr "_result") (double_bits 1) CONNECT_APP_RESPONSE)
    0 3 0 (Send_Object_Message_get_payload_size (cstr "_result") CONNECT_APP_RESPONSE) 20 0) ;;
  with_message (write_message
    (Send_Object_Message_write_payload (cstr "onBWDone") (double_bits 0) ON_BW_DONE)
    0 3 0 (Send_Object_Message_get_payload_size (cstr "onBWDone") ON_BW_DONE) 20 0).

Inductive flow := Push | Pull.

(** Push or pull: a message of four bytes (a window size) identifies a player.
    Its payload is read and dropped; for a publisher the header goes back
    into the buffer. *)
Definition identify : M (world S) flow :=
  modify (with_this IO_Message_new) ;;
  ret <- read_header_get_payloadLength ;;
  w <- gets id ;;
  let temp := io_buffer w in
  if ret =? -1 then clear_buffer ;; fail
  else if ret =? 4 then
    clear_buffer ;;
    read_nbytes_cycle 4 0 ;;
    clear_buffer ;;
    Prelude.ret Pull
  else
    clear_buffer ;;
    push IoBuf (temp ++ [x00]) (Z.of_nat (length temp)) ;;
    Prelude.ret Push.

(** [client->chunk_size = 4096;] after the message that announces it. *)
Definition set_chunk_size_4096 : M (world S) unit :=
  modify (with_this IO_Message_new) ;;
  ignore (write_message (SetChunkSize_write_payload 4096) 0 2 0 4 1 0) ;;
  modify (with_chunk_size 4096) ;;
  clear_buffer.

(** The pull flow up to the wait for metadata. *)
Definition pull_setup : M (world S) unit :=
  with_message (ignore (recv_message CreateStream_read_payload) ;; common_print) ;;
  with_message_ignored (write_message
    (CreateStreamResponse_write_payload (double_bits 2) (double_bits 1)) 0 3 0 29 20 0) ;;
  with_message_ignored (recv_message CheckBW_read_payload) ;;
  with_message (ignore (recv_message GetStreamLength_read_payload) ;; common_print) ;;
  with_message (ignore (recv_message PlayCommandMessage_read_payload) ;; common_print) ;;
  with_message_ignored (recv_message UnknownMessage_read_payload) ;;
  set_chunk_size_4096 ;;
  with_message_ignored (write_message SrcPCUCStreamBegin_write_payload 0 2 0 6 4 0) ;;
  with_message_ignored (write_message
    (PullStreamOnStatus_write_payload (cstr "onStatus") (double_bits 0) PULL_ONSTATUS1) 0 5 0 154 20 1) ;;
  with_message_ignored (write_message
    (PullStreamOnStatus_write_payload (cstr "onStatus") (double_bits 0) PULL_ONSTATUS2) 0 5 0 148 20 1) ;;
  with_message_ignored (write_message RtmpSampleAccess_write_payload 0 5 0 24 18 1) ;;
  with_message_ignored (write_message PullStreamOnStatus3_write_payload 0 5 0 44 18 1).

(** After the wait: the metadata. *)
Definition pull_metadata : M (world S) unit :=
  with_message_ignored (write_message (OnMetaData_write_payload (cstr "onMetaData")) 0 4 0 395 18 1).

(** The push flow up to its loop. *)
Definition push_setup : M (world S) unit :=
  with_message (ignore (recv_message ReleaseStream_read_payload) ;; common_print) ;;
  with_message_ignored (write_message (ReleaseStreamResponse_write_payload (double_bits 2)) 0 3 0 21 20 0) ;;
  set_chunk_size_4096 ;;
  with_message (ignore (recv_message FCPublish_read_payload) ;; common_print) ;;
  with_message_ignored (write_message (FCPublishResponse_write_payload (double_bits 3)) 0 3 0 21 20 0) ;;
  with_message (ignore (recv_message CreateStream_read_payload) ;; common_print) ;;
  with_message_ignored (write_message
    (CreateStreamResponse_write_payload (double_bits 4) (double_bits 1)) 0 3 0 29 20 0) ;;
  with_message_ignored (recv_message CheckBW_read_payload) ;;
  with_message_ignored (recv_message UnknownMessage_read_payload) ;;
  with_message_ignored (recv_message Publish_read_payload) ;;
  with_message_ignored (write_message (OnFCPublish_write_payload (double_bits 0)) 0 3 0 102 20 0) ;;
  with_message_ignored (write_message (OnStatus_write_payload (double_bits 0)) 0 3 0 136 20 1) ;;
  with_message_ignored (recv_message SetDataFrame_read_payload) ;;
  modify (with_this IO_Message_new).
End session.

(** ** The connect phase *)
Section session_lemmas.
Context {S : Type} `{!StSocket S, !StSocketLaws S}.
Implicit Types (w : world S) (str rest : list byte).

(** The client's buffer is empty and [str] is to come. *)
Definition ready w str (n : Z) : Prop := streaming IoBuf str 0 w ∧ chunk_size w = n.

Lemma ready_buffer w str n : ready w str n → io_buffer w = [].
Proof. intros [(_ & H & _) _]. exact H. Qed.

(** [answers w w' str rest out]: from [w], which is to receive [str], to [w'],
    which is to receive [rest], the bytes [out] were sent. *)
Definition answers w w' str rest (out : list byte) (n : Z) : Prop :=
  ready w str n ∧ ready w' rest n ∧ tx (sock w') = tx (sock w) ++ out.

Lemma answers_trans w1 w2 w3 s1 s2 s3 o1 o2 n :
  answers w1 w2 s1 s2 o1 n → answers w2 w3 s2 s3 o2 n → answers w1 w3 s1 s3 (o1 ++ o2) n.
Proof.
  intros (H1 & _ & T1) (_ & H3 & T3). split_and!; [done | done |].
  by rewrite T3, T1, app_assoc.
Qed.

Lemma handshake_ok c1c2 rest w n :
  length c1c2 = 3072%nat → ready w (x03 :: c1c2 ++ rest) n →
  ∃ w', handshake w = (Ok tt, w') ∧ answers w w' (x03 :: c1c2 ++ rest) rest s0s1s2 n ∧ this w' = this w.
Proof.
  intros Hl [Hs Hn]. set (str := x03 :: c1c2 ++ rest) in *.
  assert (3073 ≤ length str)%nat as Hlen by (unfold str; cbn [length]; rewrite length_app; lia).
  unfold handshake, read_nbytes.
  destruct (read_nbytes_streaming IoBuf str 0 1537 0 w Hs ltac:(lia)) as (z1 & w1 & E1 & S1 & F1 & _).
  change (Z.of_nat 1537) with 1537 in E1. rewrite (bind_ok _ _ _ _ _ E1).
  unfold bind at 1. cbn [gets id].
  assert (deref (io_buffer w1) 0 = Ok x03) as Hd.
  { destruct S1 as (_ & Hb & _). cbn [buf] in Hb. rewrite Hb. done. }
  unfold bind at 1. cbn [lift]. rewrite Hd. cbv iota beta.
  change (negb (sc x03 =? 0x03)) with false. cbv iota.
  pose proof S1 as (Hh1 & _). destruct (st_write_healthy (sock w1) s0s1s2 Hh1) as (s2 & E2 & R2 & T2 & Hh2).
  set (w2 := with_sock s2 w1).
  assert (write s0s1s2 w1 = (Ok (Z.of_nat (length s0s1s2)), w2)) as E2'.
  { unfold write, bind, on_sock. rewrite E2, Z.eqb_refl. done. }
  rewrite (bind_ok _ _ _ _ _ E2').
  assert (streaming IoBuf str 1537 w2) as S2.
  { destruct S1 as (_ & ? & ? & ? & ?). split_and!; try done. change (sock w2) with s2. congruence. }
  destruct (read_nbytes_streaming IoBuf str 1537 3073 z1 w2 S2 ltac:(lia)) as (z3 & w3 & E3 & S3 & F3 & _).
  change (Z.of_nat 3073) with (1537 + 1536) in E3. rewrite (bind_ok _ _ _ _ _ E3).
  exists (with_io_buffer [] w3). split; [done |].
  destruct (same_world_this _ _ _ F1) as (_ & Ht1 & Hc1). destruct (same_world_this _ _ _ F3) as (_ & Ht3 & Hc3).
  split; [| cbn; rewrite Ht3; exact Ht1]. split_and!; [done | |].
  - split; [| cbn; rewrite Hc3; cbn; congruence].
    destruct S3 as (Hh3 & _ & R3 & _ & Hm). split_and!; try done.
    + cbn [sock with_io_buffer]. rewrite R3. unfold str.
      change (x03 :: c1c2 ++ rest) with ((x03 :: c1c2) ++ rest).
      rewrite drop_app_length' by (cbn [length]; lia). done.
    + lia.
    + unfold str in Hm. cbn [length] in Hm. rewrite length_app in Hm. lia.
  - cbn [sock with_io_buffer]. destruct F3 as [-> _]. cbn. rewrite T2. by destruct F1 as [-> _].
Qed.

(** A message sent in the middle. *)
Lemma send_ok wp payload fmt csid ts ml mt sid str n w :
  emits wp payload → 0 <= fmt <= 3 → 0 <= csid <= 63 → Z.of_nat (length payload) < 2 ^ 61 →
  0 < n < 2 ^ 31 → ready w str n →
  ∃ w', with_message (write_message wp fmt csid ts ml mt sid) w = (Ok tt, w') ∧
    answers w w' str str (message_bytes fmt csid ts ml mt sid (Z.to_nat n) payload) n.
Proof.
  intros Hp Hf Hc Hl Hn Hr. pose proof Hr as [(Hh & Hb & Hrx & Hk & Hm) Hcs].
  unfold with_message. unfold bind at 1. cbn [modify]. set (w0 := with_this IO_Message_new w).
  destruct (write_message_ok wp payload fmt csid ts ml mt sid (Z.to_nat n) w0 Hp Hh Hb) as
    (s' & E & T & R & Hh'); try done; try lia.
  { cbn. lia. }
  rewrite (bind_ok _ _ _ _ _ E). eexists. split; [reflexivity |]. split_and!; [done | | exact T].
  split; [| done]. split_and!; try done. cbn. by rewrite R.
Qed.

(** The connect message. *)
Lemma connect_ok name props id fmt csid ts mt sid rest n w :
  name ≠ [] → short_string name → - 2 ^ 63 <= id < 2 ^ 63 → Forall readable props →
  0 < n < 2 ^ 31 →
  let payload := command_bytes name id ++ object_bytes props in
  good_header fmt csid ts mt sid payload →
  let str := message_bytes fmt csid ts (Z.of_nat (length payload)) mt sid (Z.to_nat n) payload ++ rest in
  ready w str n →
  ∃ w1, recv_message ConnectMessage_read_payload (with_this IO_Message_new w) = (Ok tt, w1) ∧
    object (this w1) = insert_all props ∅ ∧
    answers w (with_io_buffer [] w1) str rest [] n.
Proof.
  intros Hne Hs Hid Hp Hn payload Hg str [H0 Hc].
  set (w0 := with_this IO_Message_new w).
  assert (message_bytes fmt csid ts (Z.of_nat (length payload)) mt sid (Z.to_nat n) payload ++ rest =
    chunk_header fmt csid ts (Z.of_nat (length payload)) mt sid ++
      chunked (type3_byte csid) (Z.to_nat n) payload ++ rest) as Hstr.
  { unfold message_bytes, message_with, payload, command_bytes. cbn [app]. by rewrite <- app_assoc. }
  assert (streaming IoBuf str 0 w0) as S0 by done. unfold str in S0. rewrite Hstr in S0.
  destruct (recv_connect (type3_byte csid) name rest props id fmt csid ts mt sid (Z.to_nat n) w0 Hne Hs Hid Hp Hg)
    as (w1 & E & Ht & Hrx & Hh & Htx & Hcs); try lia.
  { cbn. lia. }
  { done. }
  exists w1. split; [done |]. split; [by rewrite Ht |]. split_and!.
  - by split.
  - split; [| exact (eq_trans Hcs Hc)]. split_and!; try done; [cbn; lia |].
    destruct H0 as (_ & _ & _ & _ & Hm). unfold str in Hm. rewrite length_app in Hm. lia.
  - cbn. by rewrite app_nil_r.
Qed.

(** What the server sends in the connect phase. *)
Definition connect_answers (n : nat) : list byte :=
  message_bytes 0 2 0 4 5 0 n (be_bytes 4 2500000) ++
  message_bytes 0 2 0 5 6 0 n (be_bytes 4 2500000 ++ [x02]) ++
  message_bytes 0 3 0 351 20 0 n (command_bytes (cstr "_result") (double_bits 1) ++
    objects_bytes (Send_Object_Message_init CONNECT_APP_RESPONSE)) ++
  message_bytes 0 3 0 21 20 0 n (command_bytes (cstr "onBWDone") (double_bits 0) ++ [x05]).

Lemma insert_all_Forall (P : list byte → Value_Object → Prop) props m :
  Forall (λ kv, P kv.1 kv.2) props → map_Forall P m → map_Forall P (insert_all props m).
Proof.
  intros Hp. revert m. induction Hp as [| [k v] props Hkv _ IH]; intros m Hm; [done |].
  cbn [insert_all foldl]. apply IH. unfold insert_new. cbn [fst snd] in *.
  destruct (m !! k); [done |]. by apply map_Forall_insert_2.
Qed.

(** The last value given to a key stays out: its first is found. *)
Lemma insert_all_keeps props m k v : m !! k = Some v → insert_all props m !! k = Some v.
Proof.
  revert m. induction props as [| [k' v'] props IH]; intros m Hm; [done |].
  cbn [insert_all foldl]. apply IH. unfold insert_new. cbn [fst snd].
  destruct (m !! k') eqn:E; [done |]. rewrite lookup_insert_ne; [done |]. intros ->. congruence.
Qed.

Lemma insert_all_first props1 props2 m k v :
  k ∉ props1.*1 → m !! k = None → insert_all (props1 ++ (k, v) :: props2) m !! k = Some v.
Proof.
  revert m. induction props1 as [| [k' v'] props1 IH]; intros m Hk Hm; cbn [app insert_all foldl].
  - apply insert_all_keeps. unfold insert_new. cbn [fst snd]. rewrite Hm. apply lookup_insert_eq.
  - cbn in Hk. apply not_elem_of_cons in Hk as [Hne Hk]. apply IH; [done |].
    unfold insert_new. cbn [fst snd]. destruct (m !! k'); [done |]. by rewrite lookup_insert_ne.
Qed.

Lemma common_print_ok w :
  map_Forall (λ _ v, printable v = true) (object (this w)) → common_print w = (Ok tt, w).
Proof. intros H. unfold common_print. by rewrite bool_decide_eq_true_2. Qed.

Lemma connect_sends n w str :
  0 < n < 2 ^ 31 → ready w str n →
  ∃ w', (with_message (write_message (Set_Window_Size_write_payload 2500000) 0 2 0 4 5 0) ;;
    with_message (write_message (Set_Peer_Bandwidth_write_payload 2500000 2) 0 2 0 5 6 0) ;;
    with_message (write_message
      (Send_Object_Message_write_payload (cstr "_result") (double_bits 1) CONNECT_APP_RESPONSE)
      0 3 0 (Send_Object_Message_get_payload_size (cstr "_result") CONNECT_APP_RESPONSE) 20 0) ;;
    with_message (write_message
      (Send_Object_Message_write_payload (cstr "onBWDone") (double_bits 0) ON_BW_DONE)
      0 3 0 (Send_Object_Message_get_payload_size (cstr "onBWDone") ON_BW_DONE) 20 0)) w = (Ok tt, w') ∧
    answers w w' str str (connect_answers (Z.to_nat n)) n.
Proof.
  intros Hn H0. unfold connect_answers.
  change (Send_Object_Message_get_payload_size (cstr "_result") CONNECT_APP_RESPONSE) with 351.
  change (Send_Object_Message_get_payload_size (cstr "onBWDone") ON_BW_DONE) with 21.
  destruct (send_ok _ _ 0 2 0 4 5 0 str n w (Set_Window_Size_emits 2500000)) as (w1 & E1 & A1); try done.
  destruct (send_ok _ _ 0 2 0 5 6 0 str n w1 (Set_Peer_Bandwidth_emits 2500000 2)) as (w2 & E2 & A2);
    try done; [apply A1 |].
  destruct (send_ok _ _ 0 3 0 351 20 0 str n w2
    (Send_Object_Message_emits (cstr "_result") (double_bits 1) CONNECT_APP_RESPONSE eq_refl))
    as (w3 & E3 & A3); try done; [apply A2 |].
  destruct (send_ok _ _ 0 3 0 21 20 0 str n w3
    (Send_Object_Message_emits (cstr "onBWDone") (double_bits 0) ON_BW_DONE eq_refl))
    as (w4 & E4 & A4); try done; [apply A3 |].
  rewrite (bind_ok _ _ _ _ _ E1), (bind_ok _ _ _ _ _ E2), (bind_ok _ _ _ _ _ E3), E4.
  exists w4. split; [done |].
  eapply answers_trans; [exact A1 |]. eapply answers_trans; [exact A2 |].
  eapply answers_trans; [exact A3 | exact A4].
Qed.
End session_lemmas.

(** ** Properties *)
Section properties.
Context {S : Type} `{!StSocket S, !StSocketLaws S}.

(** C2: a client that sends C0, C1 and C2 and then a connect message with string
    and number properties, in chunks of the initial size, is answered with S0,
    S1 and S2 and the four messages of the connect phase, chunked, and nothing
    else; the server is then at the first byte after the connect message, with
    an empty buffer. *)
Theorem connect_phase_answers (c1c2 rest : list byte) (name : list byte) (props : properties)
    (id fmt csid ts mt sid n : Z) (w : world S) :
  length c1c2 = 3072%nat →
  name ≠ [] → short_string name → - 2 ^ 63 <= id < 2 ^ 63 →
  Forall readable props → Forall (λ kv, printable kv.2 = true) props → 0 < n < 2 ^ 31 →
  let payload := command_bytes name id ++ object_bytes props in
  good_header fmt csid ts mt sid payload →
  let str := x03 :: c1c2 ++
    message_bytes fmt csid ts (Z.of_nat (length payload)) mt sid (Z.to_nat n) payload ++ rest in
  ready w str n →
  ∃ w', connect_phase w = (Ok tt, w') ∧
    answers w w' str rest (s0s1s2 ++ connect_answers (Z.to_nat n)) n.
Proof.
  intros Hl Hne Hs Hid Hp Hpr Hn payload Hg str H0.
  destruct (handshake_ok c1c2 _ w n Hl H0) as (w1 & E1 & A1 & _).
  destruct (connect_ok name props id fmt csid ts mt sid rest n w1 Hne Hs Hid Hp Hn Hg
    (proj1 (proj2 A1))) as (w2 & E2 & Ho & A2).
  destruct (connect_sends n (with_io_buffer [] w2) rest Hn (proj1 (proj2 A2))) as (w3 & E3 & A3).
  unfold connect_phase. rewrite (bind_ok _ _ _ _ _ E1).
  assert (with_message (recv_message ConnectMessage_read_payload ;; common_print) w1 =
    (Ok tt, with_io_buffer [] w2)) as E2'.
  { unfold with_message. unfold bind at 1. cbn [modify]. rewrite bind_assoc.
    rewrite (bind_ok _ _ _ _ _ E2).
    assert (common_print w2 = (Ok tt, w2)) as Ep.
    { apply common_print_ok. rewrite Ho. apply (insert_all_Forall (λ _ v, printable v = true)); done. }
    by rewrite (bind_ok _ _ _ _ _ Ep). }
  rewrite (bind_ok _ _ _ _ _ E2'). exists w3. split; [exact E3 |].
  eapply answers_trans; [exact A1 |]. exact (answers_trans _ _ _ _ _ _ _ _ _ A2 A3).
Qed.

(** A connect message with a boolean property (which [read_object] accepts)
    has undefined behaviour: the value is printed through a pointer cast to
    [Value_String]. *)
Theorem boolean_property_misprinted (c1c2 rest : list byte) (name key : list byte) (b : byte)
    (props1 props2 : properties) (id fmt csid ts mt sid n : Z) (w : world S) :
  length c1c2 = 3072%nat →
  name ≠ [] → short_string name → - 2 ^ 63 <= id < 2 ^ 63 → 0 < n < 2 ^ 31 →
  let props := props1 ++ (key, Value_0x01 b) :: props2 in
  Forall readable props → key ∉ props1.*1 →
  let payload := command_bytes name id ++ object_bytes props in
  good_header fmt csid ts mt sid payload →
  ready w (x03 :: c1c2 ++
    message_bytes fmt csid ts (Z.of_nat (length payload)) mt sid (Z.to_nat n) payload ++ rest) n →
  ∃ w', connect_phase w = (Undef, w').
Proof.
  intros Hl Hne Hs Hid Hn props Hp Hk payload Hg H0.
  destruct (handshake_ok c1c2 _ w n Hl H0) as (w1 & E1 & A1 & _).
  destruct (connect_ok name props id fmt csid ts mt sid rest n w1 Hne Hs Hid Hp Hn Hg
    (proj1 (proj2 A1))) as (w2 & E2 & Ho & A2).
  unfold connect_phase. rewrite (bind_ok _ _ _ _ _ E1). exists w2.
  assert (common_print w2 = (Undef, w2)) as Ep.
  { unfold common_print. rewrite bool_decide_eq_false_2; [done |]. rewrite Ho. intros Hall.
    specialize (Hall key (Value_0x01 b)). cbn in Hall.
    discriminate Hall. by apply insert_all_first. }
  unfold with_message at 1. unfold bind at 1, bind at 1. cbn [modify].
  unfold bind at 1, bind at 1. rewrite E2, Ep. done.
Qed.
End properties.

(** ** Witnesses *)
Definition c1c2_zero : list byte := replicate 3072 x00.

Definition connect_stream (props : properties) : list byte :=
  x03 :: c1c2_zero ++
    message_bytes 0 3 0 (Z.of_nat (length (command_bytes (cstr "connect") (double_bits 1) ++ object_bytes props)))
      20 0 128 (command_bytes (cstr "connect") (double_bits 1) ++ object_bytes props) ++ [x2a].

Lemma connect_stream_ready props :
  Z.of_nat (length (connect_stream props)) < max_size →
  ready (world_on (feed (connect_stream props))) (connect_stream props) 128.
Proof. intros H. split; [by apply feed_streaming | done]. Qed.

Lemma connect_phase_answers_witness :
  ∃ w', connect_phase (world_on (feed (connect_stream sample))) = (Ok tt, w') ∧
    answers (world_on (feed (connect_stream sample))) w' (connect_stream sample) [x2a]
      (s0s1s2 ++ connect_answers 128) 128.
Proof.
  apply (connect_phase_answers c1c2_zero [x2a] (cstr "connect") sample (double_bits 1) 0 3 0 20 0 128).
  - apply length_replicate.
  - discriminate.
  - reflexivity.
  - vm_compute. split; congruence.
  - eapply Forall_impl; [apply sample_ok |]. by intros ? [].
  - repeat constructor.
  - lia.
  - apply good_header_3. reflexivity.
  - apply connect_stream_ready. reflexivity.
Defined.

Definition fpad : properties := [(cstr "app", vstr "live"); (cstr "fpad", Value_0x01 x00)].

Lemma boolean_property_misprinted_witness :
  ∃ w', connect_phase (world_on (feed (connect_stream fpad))) = (Undef, w').
Proof.
  apply (boolean_property_misprinted c1c2_zero [x2a] (cstr "connect") (cstr "fpad") x00
    [(cstr "app", vstr "live")] [] (double_bits 1) 0 3 0 20 0 128).
  - apply length_replicate.
  - discriminate.
  - reflexivity.
  - vm_compute. split; congruence.
  - lia.
  - repeat constructor; vm_compute; congruence.
  - vm_compute. intros H. inversion H as [|? ? ? H' ]. inversion H'.
  - apply good_header_3. reflexivity.
  - apply connect_stream_ready. reflexivity.
Defined.
