(* ===== verification/Classes.v ===== *)
(** * all_kinds_of_messages.h: the message classes, and the life of a message object

    A class is a record of what its objects have besides the pointers to the client, which are the same for all.  The virtual
    functions are an instance of [IO_Message_class].  A [Value_Object] that a constructor makes is
    on a heap, and the destructor has to give it back.  [process_connect], [process_push] and [process_pull] are the code of client.cpp
    with its objects; they do what Session.v says and leave the heap as it was. *)

From stdpp Require Import base list sets gmap.
From stdpp Require Import fin_sets infinite.
From Stdlib Require Import Lia ZArith.
From S2P Require Import Prelude.
From S2P Require Import Bytes.
From S2P Require Import Util.
From S2P Require Import StApi.
From S2P Require Import StIo.
From S2P Require Import State.
From S2P Require Import IoBuffer.
From S2P Require Import IoSocket.
From S2P Require Import Emit.
From S2P Require Import Header.
From S2P Require Import Amf.
From S2P Require Import Chunk.
From S2P Require Import Messages.
From S2P Require Import Session.

Local Open Scope Z_scope.

(** ** The heap *)
(** The [Value_Object]s by their addresses. *)
Notation heap := (gmap Z Value_Object).

(** [new Value_String(...)] and so on: an address that is not in use and not null. *)
Definition new_value (v : Value_Object) : M heap Z := λ h,
  let a := fresh ({[0]} ∪ dom h) in (Ok a, <[a := v]> h).

Definition delete_value (a : Z) : M heap unit := λ h,
  if a =? 0 then (Ok tt, h) else
  match h !! a with Some _ => (Ok tt, delete a h) | None => (Undef, h) end.

Notation pointers := (list (list byte * Z)).

(** The loops of the [init] functions and of the destructors. *)
Fixpoint new_properties (l : properties) : M heap pointers :=
  match l with
  | [] => ret []
  | (key, v) :: l => a <- new_value v ;; r <- new_properties l ;; ret ((key, a) :: r)
  end.

Fixpoint new_vec (vec : list properties) : M heap (list pointers) :=
  match vec with
  | [] => ret []
  | l :: vec => ps <- new_properties l ;; r <- new_vec vec ;; ret (ps :: r)
  end.

Definition delete_properties (l : pointers) : M heap unit := for_each (λ kv, delete_value kv.2) l.
Definition delete_vec (vec : list pointers) : M heap unit := for_each delete_properties vec.

(** What the pointers point to. *)
Definition load_properties (h : heap) (l : pointers) : option properties := mapM (λ kv, pair kv.1 <$> h !! kv.2) l.
Definition load_vec (h : heap) (vec : list pointers) : option (list properties) := mapM (load_properties h) vec.

(** ** The base class *)
Section classes.
Context {S : Type} `{!StSocket S}.

(** [IO_Message::read_payload], [IO_Message::write_payload] *)
Definition IO_Message_read_payload (csid bh_size mh_size message_length chunk_size : Z) : M (world S) unit := ret tt.
Definition IO_Message_write_payload : M (world S) unit := ret tt.

(** The virtual functions; [destroy]: what the destructor of the class does before that of the base class. *)
Class IO_Message_class (C : Type) := {
  read_payload : C → Z → Z → Z → Z → Z → M (world S) unit;
  write_payload : C → heap → M (world S) unit;
  destroy : C → M heap unit;
}.

Definition with_vec (vec : list pointers) (f : list properties → M (world S) unit) (h : heap) : M (world S) unit :=
  match load_vec h vec with Some ps => f ps | None => lift Undef end.

(** ** The messages that are sent *)
Record Set_Window_Size := MkSet_Window_Size { Set_Window_Size_window_size : Z; }.

#[export] Instance Set_Window_Size_class : IO_Message_class Set_Window_Size := {
  read_payload _ := IO_Message_read_payload;
  write_payload m h := Set_Window_Size_write_payload (Set_Window_Size_window_size m);
  destroy _ := ret tt;
}.

Definition new_Set_Window_Size (window_size : Z) : M heap Set_Window_Size := ret (MkSet_Window_Size window_size).

Record Set_Peer_Bandwidth := MkSet_Peer_Bandwidth { Set_Peer_Bandwidth_bandwidth : Z; Set_Peer_Bandwidth_limit_type : Z; }.

#[export] Instance Set_Peer_Bandwidth_class : IO_Message_class Set_Peer_Bandwidth := {
  read_payload _ := IO_Message_read_payload;
  write_payload m h := Set_Peer_Bandwidth_write_payload (Set_Peer_Bandwidth_bandwidth m) (Set_Peer_Bandwidth_limit_type m);
  destroy _ := ret tt;
}.

Definition new_Set_Peer_Bandwidth (bandwidth : Z) (limit_type : Z) : M heap Set_Peer_Bandwidth := ret (MkSet_Peer_Bandwidth bandwidth limit_type).

Record Send_Object_Message := MkSend_Object_Message { Send_Object_Message_command : list byte; Send_Object_Message_transaction_id : Z; Send_Object_Message_type : MESSAGE_OBJECT_TYPE; Send_Object_Message_vec : list pointers; }.

Definition Send_Object_Message_destroy (m : Send_Object_Message) : M heap unit := delete_vec (Send_Object_Message_vec m).

#[export] Instance Send_Object_Message_class : IO_Message_class Send_Object_Message := {
  read_payload _ := IO_Message_read_payload;
  write_payload m := with_vec (Send_Object_Message_vec m) (Send_Object_Message_write (Send_Object_Message_command m) (Send_Object_Message_transaction_id m));
  destroy := Send_Object_Message_destroy;
}.

Definition new_Send_Object_Message (command : list byte) (transaction_id : Z) (type : MESSAGE_OBJECT_TYPE) : M heap Send_Object_Message :=
  vec <- new_vec (Send_Object_Message_init type) ;; ret (MkSend_Object_Message command transaction_id type vec).

(** [Send_Object_Message::get_payload_size], of an object. *)
Definition Send_Object_Message_size (m : Send_Object_Message) (h : heap) : outcome Z :=
  match Send_Object_Message_type m with
  | ON_BW_DONE => Ok (Send_Object_Message_get_payload_size (Send_Object_Message_command m) ON_BW_DONE)
  | _ => match load_vec h (Send_Object_Message_vec m) with
         | Some ps => Ok (get_payload_size (Send_Object_Message_command m) ps)
         | None => Undef
         end
  end.

Record ReleaseStreamResponse := MkReleaseStreamResponse { ReleaseStreamResponse_transaction_id : Z; }.

#[export] Instance ReleaseStreamResponse_class : IO_Message_class ReleaseStreamResponse := {
  read_payload _ := IO_Message_read_payload;
  write_payload m h := ReleaseStreamResponse_write_payload (ReleaseStreamResponse_transaction_id m);
  destroy _ := ret tt;
}.

Definition new_ReleaseStreamResponse (transaction_id : Z) : M heap ReleaseStreamResponse := ret (MkReleaseStreamResponse transaction_id).

Record SetChunkSize := MkSetChunkSize { SetChunkSize_chunk_size : Z; }.

#[export] Instance SetChunkSize_class : IO_Message_class SetChunkSize := {
  read_payload _ := IO_Message_read_payload;
  write_payload m h := SetChunkSize_write_payload (SetChunkSize_chunk_size m);
  destroy _ := ret tt;
}.

Definition new_SetChunkSize (chunk_size : Z) : M heap SetChunkSize := ret (MkSetChunkSize chunk_size).

Record FCPublishResponse := MkFCPublishResponse { FCPublishResponse_transaction_id : Z; }.

#[export] Instance FCPublishResponse_class : IO_Message_class FCPublishResponse := {
  read_payload _ := IO_Message_read_payload;
  write_payload m h := FCPublishResponse_write_payload (FCPublishResponse_transaction_id m);
  destroy _ := ret tt;
}.

Definition new_FCPublishResponse (transaction_id : Z) : M heap FCPublishResponse := ret (MkFCPublishResponse transaction_id).

Record CreateStreamResponse := MkCreateStreamResponse { CreateStreamResponse_transaction_id : Z; CreateStreamResponse_stream_id : Z; }.

#[export] Instance CreateStreamResponse_class : IO_Message_class CreateStreamResponse := {
  read_payload _ := IO_Message_read_payload;
  write_payload m h := CreateStreamResponse_write_payload (CreateStreamResponse_transaction_id m) (CreateStreamResponse_stream_id m);
  destroy _ := ret tt;
}.

Definition new_CreateStreamResponse (transaction_id : Z) (stream_id : Z) : M heap CreateStreamResponse := ret (MkCreateStreamResponse transaction_id stream_id).

Record OnFCPublish := MkOnFCPublish { OnFCPublish_transaction_id : Z; OnFCPublish_vec : list pointers; }.

Definition OnFCPublish_destroy (m : OnFCPublish) : M heap unit := delete_vec (OnFCPublish_vec m).

#[export] Instance OnFCPublish_class : IO_Message_class OnFCPublish := {
  read_payload _ := IO_Message_read_payload;
  write_payload m := with_vec (OnFCPublish_vec m) (OnFCPublish_write (OnFCPublish_transaction_id m));
  destroy := OnFCPublish_destroy;
}.

Definition new_OnFCPublish (transaction_id : Z) : M heap OnFCPublish :=
  vec <- new_vec OnFCPublish_init ;; ret (MkOnFCPublish transaction_id vec).

Record OnStatus := MkOnStatus { OnStatus_transaction_id : Z; OnStatus_vec : list pointers; }.

Definition OnStatus_destroy (m : OnStatus) : M heap unit := delete_vec (OnStatus_vec m).

#[export] Instance OnStatus_class : IO_Message_class OnStatus := {
  read_payload _ := IO_Message_read_payload;
  write_payload m := with_vec (OnStatus_vec m) (OnStatus_write (OnStatus_transaction_id m));
  destroy := OnStatus_destroy;
}.

Definition new_OnStatus (transaction_id : Z) : M heap OnStatus :=
  vec <- new_vec OnStatus_init ;; ret (MkOnStatus transaction_id vec).

Record SrcPCUCStreamBegin := MkSrcPCUCStreamBegin { }.

#[export] Instance SrcPCUCStreamBegin_class : IO_Message_class SrcPCUCStreamBegin := {
  read_payload _ := IO_Message_read_payload;
  write_payload m h := SrcPCUCStreamBegin_write_payload;
  destroy _ := ret tt;
}.

Definition new_SrcPCUCStreamBegin : M heap SrcPCUCStreamBegin := ret (MkSrcPCUCStreamBegin).

Record PullStreamOnStatus := MkPullStreamOnStatus { PullStreamOnStatus_command : list byte; PullStreamOnStatus_transaction_id : Z; PullStreamOnStatus_type : MESSAGE_OBJECT_TYPE; PullStreamOnStatus_vec : list pointers; }.

Definition PullStreamOnStatus_destroy (m : PullStreamOnStatus) : M heap unit := delete_vec (PullStreamOnStatus_vec m).

#[export] Instance PullStreamOnStatus_class : IO_Message_class PullStreamOnStatus := {
  read_payload _ := IO_Message_read_payload;
  write_payload m := with_vec (PullStreamOnStatus_vec m) (PullStreamOnStatus_write (PullStreamOnStatus_command m) (PullStreamOnStatus_transaction_id m));
  destroy := PullStreamOnStatus_destroy;
}.

Definition new_PullStreamOnStatus (command : list byte) (transaction_id : Z) (type : MESSAGE_OBJECT_TYPE) : M heap PullStreamOnStatus :=
  vec <- new_vec (PullStreamOnStatus_init type) ;; ret (MkPullStreamOnStatus command transaction_id type vec).

Record RtmpSampleAccess := MkRtmpSampleAccess { RtmpSampleAccess_command : list byte; }.

#[export] Instance RtmpSampleAccess_class : IO_Message_class RtmpSampleAccess := {
  read_payload _ := IO_Message_read_payload;
  write_payload m h := RtmpSampleAccess_write_payload;
  destroy _ := ret tt;
}.

Definition new_RtmpSampleAccess (command : list byte) : M heap RtmpSampleAccess := ret (MkRtmpSampleAccess command).

Record PullStreamOnStatus3 := MkPullStreamOnStatus3 { PullStreamOnStatus3_command : list byte; }.

#[export] Instance PullStreamOnStatus3_class : IO_Message_class PullStreamOnStatus3 := {
  read_payload _ := IO_Message_read_payload;
  write_payload m h := PullStreamOnStatus3_write_payload;
  destroy _ := ret tt;
}.

Definition new_PullStreamOnStatus3 (command : list byte) : M heap PullStreamOnStatus3 := ret (MkPullStreamOnStatus3 command).

Record OnMetaData := MkOnMetaData { OnMetaData_command : list byte; }.

#[export] Instance OnMetaData_class : IO_Message_class OnMetaData := {
  read_payload _ := IO_Message_read_payload;
  write_payload m h := OnMetaData_write_payload (OnMetaData_command m);
  destroy _ := ret tt;
}.

Definition new_OnMetaData (command : list byte) : M heap OnMetaData := ret (MkOnMetaData command).

(** ** The messages that are received *)
Record ConnectMessage := MkConnectMessage { }.

#[export] Instance ConnectMessage_class : IO_Message_class ConnectMessage := {
  read_payload _ := ConnectMessage_read_payload;
  write_payload _ _ := IO_Message_write_payload;
  destroy _ := ret tt;
}.

Definition new_ConnectMessage : M heap ConnectMessage := ret MkConnectMessage.

Record ReleaseStream := MkReleaseStream { }.

#[export] Instance ReleaseStream_class : IO_Message_class ReleaseStream := {
  read_payload _ := ReleaseStream_read_payload;
  write_payload _ _ := IO_Message_write_payload;
  destroy _ := ret tt;
}.

Definition new_ReleaseStream : M heap ReleaseStream := ret MkReleaseStream.

Record FCPublish := MkFCPublish { }.

#[export] Instance FCPublish_class : IO_Message_class FCPublish := {
  read_payload _ := FCPublish_read_payload;
  write_payload _ _ := IO_Message_write_payload;
  destroy _ := ret tt;
}.

Definition new_FCPublish : M heap FCPublish := ret MkFCPublish.

Record CreateStream := MkCreateStream { }.

#[export] Instance CreateStream_class : IO_Message_class CreateStream := {
  read_payload _ := CreateStream_read_payload;
  write_payload _ _ := IO_Message_write_payload;
  destroy _ := ret tt;
}.

Definition new_CreateStream : M heap CreateStream := ret MkCreateStream.

Record CheckBW := MkCheckBW { }.

#[export] Instance CheckBW_class : IO_Message_class CheckBW := {
  read_payload _ := CheckBW_read_payload;
  write_payload _ _ := IO_Message_write_payload;
  destroy _ := ret tt;
}.

Definition new_CheckBW : M heap CheckBW := ret MkCheckBW.

Record UnknownMessage := MkUnknownMessage { }.

#[export] Instance UnknownMessage_class : IO_Message_class UnknownMessage := {
  read_payload _ := UnknownMessage_read_payload;
  write_payload _ _ := IO_Message_write_payload;
  destroy _ := ret tt;
}.

Definition new_UnknownMessage : M heap UnknownMessage := ret MkUnknownMessage.

Record Publish := MkPublish { }.

#[export] Instance Publish_class : IO_Message_class Publish := {
  read_payload _ := Publish_read_payload;
  write_payload _ _ := IO_Message_write_payload;
  destroy _ := ret tt;
}.

Definition new_Publish : M heap Publish := ret MkPublish.

Record SetDataFrame := MkSetDataFrame { }.

#[export] Instance SetDataFrame_class : IO_Message_class SetDataFrame := {
  read_payload _ := SetDataFrame_read_payload;
  write_payload _ _ := IO_Message_write_payload;
  destroy _ := ret tt;
}.

Definition new_SetDataFrame : M heap SetDataFrame := ret MkSetDataFrame.

Record GetStreamLength := MkGetStreamLength { }.

#[export] Instance GetStreamLength_class : IO_Message_class GetStreamLength := {
  read_payload _ := GetStreamLength_read_payload;
  write_payload _ _ := IO_Message_write_payload;
  destroy _ := ret tt;
}.

Definition new_GetStreamLength : M heap GetStreamLength := ret MkGetStreamLength.

Record PlayCommandMessage := MkPlayCommandMessage { }.

#[export] Instance PlayCommandMessage_class : IO_Message_class PlayCommandMessage := {
  read_payload _ := PlayCommandMessage_read_payload;
  write_payload _ _ := IO_Message_write_payload;
  destroy _ := ret tt;
}.

Definition new_PlayCommandMessage : M heap PlayCommandMessage := ret MkPlayCommandMessage.

(** It overrides nothing; [identify] of Session.v is its one function. *)
Record IdentifyClient := MkIdentifyClient { }.

#[export] Instance IdentifyClient_class : IO_Message_class IdentifyClient := {
  read_payload _ := IO_Message_read_payload;
  write_payload _ _ := IO_Message_write_payload;
  destroy _ := ret tt;
}.

Definition new_IdentifyClient : M heap IdentifyClient := ret MkIdentifyClient.

(** ** The life of an object *)
Definition on_heap {A : Type} (c : M heap A) : M (heap * world S) A := λ s,
  let '(o, h) := c s.1 in (o, (h, s.2)).
Definition on_world {A : Type} (c : M (world S) A) : M (heap * world S) A := λ s,
  let '(o, w) := c s.2 in (o, (s.1, w)).

(** [new C(...)]: the constructor of the base class, then that of the class. *)
Definition new_message {C : Type} (ctor : M heap C) : M (heap * world S) C :=
  on_world (modify (with_this IO_Message_new)) ;; on_heap ctor.

(** [delete message_ptr]: the destructors in the opposite order; [IO_Message::~IO_Message] clears the client's buffer. *)
Definition delete_message {C : Type} `{!IO_Message_class C} (m : C) : M (heap * world S) unit :=
  on_heap (destroy m) ;; on_world clear_buffer.

(** [message_ptr->write_message(...)], [message_ptr->recv_message()]: they call the virtual functions of the object. *)
Definition write_message_on {C : Type} `{!IO_Message_class C} (m : C) (fmt csid timestamp message_length message_type stream_id : Z) :
    M (heap * world S) unit := λ s,
  on_world (write_message (write_payload m s.1) fmt csid timestamp message_length message_type stream_id) s.
Definition recv_message_on {C : Type} `{!IO_Message_class C} (m : C) : M (heap * world S) unit :=
  on_world (recv_message (read_payload m)).

(** A call whose result is dropped. *)
Definition ignoring (c : M (heap * world S) unit) : M (heap * world S) unit := λ s,
  match c s with (Fail, s') => (Ok tt, s') | r => r end.

(** [message_ptr = new C(...); message_ptr->write_message(...); delete message_ptr;], first with the test of the
    result; then the same for a message that is received; [print]: [common_print] is called. *)
Definition send {C : Type} `{!IO_Message_class C} (ctor : M heap C) (fmt csid ts ml mt sid : Z) : M (heap * world S) unit :=
  m <- new_message ctor ;; write_message_on m fmt csid ts ml mt sid ;; delete_message m.
Definition send_ignored {C : Type} `{!IO_Message_class C} (ctor : M heap C) (fmt csid ts ml mt sid : Z) : M (heap * world S) unit :=
  m <- new_message ctor ;; ignoring (write_message_on m fmt csid ts ml mt sid) ;; delete_message m.
Definition receive_ignored {C : Type} `{!IO_Message_class C} (ctor : M heap C) (print : bool) : M (heap * world S) unit :=
  m <- new_message ctor ;;
  (ignoring (recv_message_on m) ;; if print then on_world common_print else ret tt) ;;
  delete_message m.

(** The length is asked of the object. *)
Definition send_sized (command : list byte) (transaction_id : Z) (type : MESSAGE_OBJECT_TYPE) : M (heap * world S) unit :=
  m <- new_message (new_Send_Object_Message command transaction_id type) ;;
  s <- gets id ;;
  message_length <- lift (Send_Object_Message_size m s.1) ;;
  write_message_on m 0 3 0 message_length 20 0 ;;
  delete_message m.

(** The beginning of [Client::process_thread]. *)
Definition process_connect : M (heap * world S) unit :=
  on_world handshake ;;
  (m <- new_message new_ConnectMessage ;; (recv_message_on m ;; on_world common_print) ;; delete_message m) ;;
  send (new_Set_Window_Size 2500000) 0 2 0 4 5 0 ;;
  send (new_Set_Peer_Bandwidth 2500000 2) 0 2 0 5 6 0 ;;
  send_sized (cstr "_result") (double_bits 1) CONNECT_APP_RESPONSE ;;
  send_sized (cstr "onBWDone") (double_bits 0) ON_BW_DONE.

Definition process_chunk_size : M (heap * world S) unit :=
  m <- new_message (new_SetChunkSize 4096) ;;
  (ignoring (write_message_on m 0 2 0 4 1 0) ;; on_world (modify (with_chunk_size 4096))) ;;
  delete_message m.

(** The pull flow up to the wait for metadata. *)
Definition process_pull : M (heap * world S) unit :=
  receive_ignored new_CreateStream true ;;
  send_ignored (new_CreateStreamResponse (double_bits 2) (double_bits 1)) 0 3 0 29 20 0 ;;
  receive_ignored new_CheckBW false ;;
  receive_ignored new_GetStreamLength true ;;
  receive_ignored new_PlayCommandMessage true ;;
  receive_ignored new_UnknownMessage false ;;
  process_chunk_size ;;
  send_ignored new_SrcPCUCStreamBegin 0 2 0 6 4 0 ;;
  send_ignored (new_PullStreamOnStatus (cstr "onStatus") (double_bits 0) PULL_ONSTATUS1) 0 5 0 154 20 1 ;;
  send_ignored (new_PullStreamOnStatus (cstr "onStatus") (double_bits 0) PULL_ONSTATUS2) 0 5 0 148 20 1 ;;
  send_ignored (new_RtmpSampleAccess (cstr "|RtmpSampleAccess")) 0 5 0 24 18 1 ;;
  send_ignored (new_PullStreamOnStatus3 (cstr "onStatus")) 0 5 0 44 18 1.

Definition process_metadata : M (heap * world S) unit :=
  send_ignored (new_OnMetaData (cstr "onMetaData")) 0 4 0 395 18 1.

(** The push flow up to its loop. *)
Definition process_push : M (heap * world S) unit :=
  receive_ignored new_ReleaseStream true ;;
  send_ignored (new_ReleaseStreamResponse (double_bits 2)) 0 3 0 21 20 0 ;;
  process_chunk_size ;;
  receive_ignored new_FCPublish true ;;
  send_ignored (new_FCPublishResponse (double_bits 3)) 0 3 0 21 20 0 ;;
  receive_ignored new_CreateStream true ;;
  send_ignored (new_CreateStreamResponse (double_bits 4) (double_bits 1)) 0 3 0 29 20 0 ;;
  receive_ignored new_CheckBW false ;;
  receive_ignored new_UnknownMessage false ;;
  receive_ignored new_Publish false ;;
  send_ignored (new_OnFCPublish (double_bits 0)) 0 3 0 102 20 0 ;;
  send_ignored (new_OnStatus (double_bits 0)) 0 3 0 136 20 1 ;;
  receive_ignored new_SetDataFrame false ;;
  on_world (modify (with_this IO_Message_new)).
End classes.

(** ** Allocation *)
(** [h'] is [h] and the cells [cs], which were not in use. *)
Record owns (h : heap) (cs : list (Z * Value_Object)) (h' : heap) : Prop := {
  ow_nodup : NoDup cs.*1;
  ow_fresh a : a ∈ cs.*1 → a ≠ 0 ∧ h !! a = None;
  ow_heap : h' = list_to_map cs ∪ h;
}.

Lemma owns_nil h : owns h [] h.
Proof. split; [apply NoDup_nil_2 | by intros a ?%not_elem_of_nil | cbn; by rewrite (left_id_L ∅ (∪))]. Qed.

Lemma owns_kept h cs h' a v : owns h cs h' → h !! a = Some v → h' !! a = Some v.
Proof.
  intros [_ Hf ->] Ha. rewrite lookup_union_r; [done |]. apply not_elem_of_list_to_map_1.
  intros Hin. by destruct (Hf a Hin) as [_ ?]; simplify_eq.
Qed.

Lemma owns_app h c1 h1 c2 h2 : owns h c1 h1 → owns h1 c2 h2 → owns h (c1 ++ c2) h2.
Proof.
  intros [N1 F1 E1] [N2 F2 E2]. assert (∀ a, a ∈ c1.*1 → a ∉ c2.*1) as Hdis.
  { intros a H1 H2. destruct (F2 a H2) as [_ Hn]. rewrite E1 in Hn. apply lookup_union_None in Hn as [Hn _].
    apply not_elem_of_list_to_map_2 in Hn. done. }
  split.
  - rewrite fmap_app. apply NoDup_app. split_and!; done.
  - intros a. rewrite fmap_app, elem_of_app. intros [Ha | Ha]; [by apply F1 |]. destruct (F2 a Ha) as [Ha0 Hn].
    split; [done |]. rewrite E1 in Hn. by apply lookup_union_None in Hn as [_ ?].
  - rewrite E2, E1, list_to_map_app, (assoc_L (∪)). f_equal. apply map_union_comm, map_disjoint_spec.
    intros a x y Hx Hy. apply elem_of_list_to_map_2 in Hx, Hy. apply (Hdis a); apply list_elem_of_fmap; eexists; (split; [| done]); done.
Qed.

Lemma new_value_ok v h : ∃ a h', new_value v h = (Ok a, h') ∧ owns h [(a, v)] h' ∧ h' !! a = Some v.
Proof.
  unfold new_value. set (a := fresh _). pose proof (is_fresh ({[0]} ∪ dom h)) as Hf. fold a in Hf.
  rewrite not_elem_of_union, not_elem_of_singleton, not_elem_of_dom in Hf. destruct Hf as [H0 Hn].
  exists a, (<[a := v]> h). split; [done |]. split; [| apply lookup_insert_eq]. split.
  - apply NoDup_singleton.
  - intros b ->%list_elem_of_singleton. done.
  - cbn. by rewrite <- insert_union_l, (left_id_L ∅ (∪)).
Qed.

(** The pointers [ps] of an object lead to the values of [l]. *)
Definition loaded (h : heap) (l : properties) (ps : pointers) : Prop :=
  Forall2 (λ kv kp, kp.1 = kv.1 ∧ h !! kp.2 = Some kv.2) l ps.

Lemma loaded_kept h cs h' l ps : owns h cs h' → loaded h l ps → loaded h' l ps.
Proof. intros Ho H. eapply Forall2_impl; [exact H |]. intros kv kp [? ?]. split; [done | by eapply owns_kept]. Qed.

Lemma loaded_load h l ps : loaded h l ps → load_properties h ps = Some l.
Proof.
  induction 1 as [| [k v] [k' a] l ps [Hk Ha] _ IH]; [done |]. cbn in Hk, Ha. subst k'.
  unfold load_properties in *. cbn. by rewrite Ha, IH.
Qed.

Lemma new_properties_ok l h :
  ∃ ps cs h', new_properties l h = (Ok ps, h') ∧ owns h cs h' ∧ cs.*1 = ps.*2 ∧ loaded h' l ps.
Proof.
  revert h. induction l as [| [k v] l IH]; intros h; cbn [new_properties].
  - exists [], [], h. split; [done |]. split; [apply owns_nil | split; [done | constructor]].
  - destruct (new_value_ok v h) as (a & h1 & E1 & O1 & L1). rewrite (bind_ok _ _ _ _ _ E1).
    destruct (IH h1) as (ps & cs & h2 & E2 & O2 & Hcs & L2). rewrite (bind_ok _ _ _ _ _ E2).
    exists ((k, a) :: ps), ((a, v) :: cs), h2. split; [done |]. split; [exact (owns_app _ [_] _ _ _ O1 O2) |].
    split; [cbn; by rewrite Hcs |]. constructor; [| done]. split; [done | by eapply owns_kept].
Qed.

Lemma new_vec_ok vec h :
  ∃ r cs h', new_vec vec h = (Ok r, h') ∧ owns h cs h' ∧ cs.*1 = (mjoin r).*2 ∧ Forall2 (loaded h') vec r.
Proof.
  revert h. induction vec as [| l vec IH]; intros h; cbn [new_vec].
  - exists [], [], h. split; [done |]. split; [apply owns_nil | split; [done | constructor]].
  - destruct (new_properties_ok l h) as (ps & c1 & h1 & E1 & O1 & Hc1 & L1). rewrite (bind_ok _ _ _ _ _ E1).
    destruct (IH h1) as (r & c2 & h2 & E2 & O2 & Hc2 & L2). rewrite (bind_ok _ _ _ _ _ E2).
    exists (ps :: r), (c1 ++ c2), h2. split; [done |]. split; [by eapply owns_app |].
    split; [cbn; by rewrite !fmap_app, Hc1, Hc2 |]. constructor; [by eapply loaded_kept | done].
Qed.

Lemma load_vec_ok h vec r : Forall2 (loaded h) vec r → load_vec h r = Some vec.
Proof.
  induction 1 as [| l ps vec r Hl _ IH]; [done |]. unfold load_vec in *. cbn. by rewrite (loaded_load _ _ _ Hl), IH.
Qed.

Lemma for_each_fmap {St A B : Type} (f : B → M St unit) (g : A → B) (l : list A) (s : St) :
  for_each f (g <$> l) s = for_each (λ x, f (g x)) l s.
Proof.
  revert s. induction l as [| x l IH]; intros s; [done |]. cbn [fmap list_fmap for_each].
  unfold bind. destruct (f (g x) s) as [[[] | | | |] s1]; done.
Qed.

Lemma delete_vec_flat r h : delete_vec r h = for_each delete_value (mjoin r).*2 h.
Proof.
  revert h. induction r as [| ps r IH]; intros h; [done |]. unfold delete_vec in *. cbn [for_each mjoin list_join].
  rewrite fmap_app, for_each_app. unfold bind, delete_properties at 1. rewrite for_each_fmap.
  destruct (for_each _ ps h) as [[[] | | | |] h1]; done.
Qed.

Lemma loaded_length h vec r : Forall2 (loaded h) vec r → length (mjoin r) = length (mjoin vec).
Proof.
  induction 1 as [| l ps vec r Hl _ IH]; [done |]. change (length (ps ++ mjoin r) = length (l ++ mjoin vec)). rewrite !length_app, IH.
  by rewrite (Forall2_length _ _ _ Hl).
Qed.

(** Every cell is given back, once. *)
Lemma delete_owned h cs h' : owns h cs h' → for_each delete_value cs.*1 h' = (Ok tt, h).
Proof.
  revert h'. induction cs as [| [a v] cs IH]; intros h' [Hnd Hf ->]; cbn [fmap list_fmap for_each fst].
  - cbn. by rewrite (left_id_L ∅ (∪)).
  - cbn in Hnd, Hf. apply NoDup_cons in Hnd as [Ha Hnd]. destruct (Hf a ltac:(left)) as [H0 Hn].
    assert (delete_value a (list_to_map ((a, v) :: cs) ∪ h) = (Ok tt, list_to_map cs ∪ h)) as E.
    { unfold delete_value. rewrite (proj2 (Z.eqb_neq _ _) H0). cbn [list_to_map foldr fst snd uncurry].
      rewrite <- insert_union_l, lookup_insert_eq, delete_insert_eq. f_equal. apply delete_id.
      apply lookup_union_None. split; [by apply not_elem_of_list_to_map_1 | done]. }
    rewrite (bind_ok _ _ _ _ _ E). apply IH. split; [done | | done]. intros b Hb. apply Hf. by right.
Qed.

(** ** Objects: what a constructor makes *)
Section objects.
Context {S : Type} `{!StSocket S}.
Notation W := (world S).

(** An object whose virtual functions are [wp] and [rp] and whose destructor gives back what the constructor took. *)
Definition makes {C : Type} `{!IO_Message_class (S := S) C} (ctor : M heap C) (wp : M W unit)
    (rp : Z → Z → Z → Z → Z → M W unit) : Prop :=
  ∀ h, ∃ m h', ctor h = (Ok m, h') ∧ h ⊆ h' ∧ write_payload m h' = wp ∧ read_payload m = rp ∧ destroy m h' = (Ok tt, h).

Lemma makes_plain {C : Type} `{!IO_Message_class (S := S) C} (m : C) wp rp :
  (∀ h, write_payload m h = wp) → read_payload m = rp → destroy m = ret tt → makes (ret m) wp rp.
Proof. intros Hw Hr Hd h. exists m, h. split_and!; try done. by rewrite Hd. Qed.

Lemma makes_vec {C : Type} `{!IO_Message_class (S := S) C} (vec : list properties) (mk : list pointers → C) (f : list properties → M W unit) rp :
  (∀ r h, write_payload (mk r) h = with_vec r f h) → (∀ r, read_payload (mk r) = rp) → (∀ r, destroy (mk r) = delete_vec r) →
  makes (r <- new_vec vec ;; ret (mk r)) (f vec) rp.
Proof.
  intros Hw Hr Hd h. destruct (new_vec_ok vec h) as (r & cs & h' & E & Ho & Hcs & Hl).
  exists (mk r), h'. rewrite (bind_ok _ _ _ _ _ E). split; [done |]. split; [| split; [| split; [done |]]].
  - apply map_subseteq_spec. intros a v. by apply (owns_kept h cs h').
  - rewrite Hw. unfold with_vec. by rewrite (load_vec_ok _ _ _ Hl).
  - rewrite Hd, delete_vec_flat, <- Hcs. by apply delete_owned.
Qed.

(** [ch] does what [c] does; it frees what it allocates if it comes to its end, and touches nothing else in either case. *)
Definition simulates (ch : M (heap * W) unit) (c : M W unit) : Prop := ∀ h w,
  ∃ h', ch (h, w) = ((c w).1, (h', (c w).2)) ∧ h ⊆ h' ∧ ((c w).1 = Ok tt → h' = h).

Lemma sim_ext ch c c' : (∀ w, c w = c' w) → simulates ch c → simulates ch c'.
Proof. intros Hc H h w. rewrite <- Hc. apply H. Qed.

Lemma sim_world c : simulates (on_world c) c.
Proof. intros h w. exists h. unfold on_world. cbn. by destruct (c w). Qed.

Lemma sim_bind c1h c2h c1 c2 : simulates c1h c1 → simulates c2h c2 → simulates (c1h ;; c2h) (c1 ;; c2).
Proof.
  intros H1 H2 h w. destruct (H1 h w) as (h1 & E1 & Hs1 & Hk1). unfold bind. rewrite E1.
  destruct (c1 w) as [[[] | | | |] w1]; cbn in *; try (exists h1; split; [done |]; split; [done | discriminate]).
  rewrite Hk1 by done. apply H2.
Qed.

(** An object that lives during [body]; [body] may be left with an error. *)
Lemma sim_object {C : Type} `{!IO_Message_class (S := S) C} ctor wp rp (use : C → M (heap * W) unit) (c : M W unit) :
  makes ctor wp rp →
  (∀ m h w, write_payload m h = wp → read_payload m = rp → use m (h, w) = ((c w).1, (h, (c w).2))) →
  simulates (m <- new_message ctor ;; use m ;; delete_message m) (with_message c).
Proof.
  intros Hm Hu h w. destruct (Hm h) as (m & h1 & E1 & Hsub & Hw & Hr & Hd).
  unfold new_message, with_message, delete_message, on_world, on_heap, bind. cbn. rewrite E1.
  rewrite (Hu m h1 (with_this IO_Message_new w) Hw Hr).
  destruct (c (with_this IO_Message_new w)) as [[[] | | | |] w1]; cbn; try (exists h1; split; [done |]; split; [done | discriminate]).
  rewrite Hd. exists h. done.
Qed.

Lemma sim_send {C : Type} `{!IO_Message_class (S := S) C} ctor wp rp fmt csid ts ml mt sid :
  makes ctor wp rp → simulates (send ctor fmt csid ts ml mt sid) (with_message (write_message wp fmt csid ts ml mt sid)).
Proof.
  intros Hm. apply (sim_object ctor wp rp); [done |]. intros m h w Hw _. unfold write_message_on, on_world. cbn. rewrite Hw.
  by destruct (write_message wp fmt csid ts ml mt sid w).
Qed.

Lemma sim_send_ignored {C : Type} `{!IO_Message_class (S := S) C} ctor wp rp fmt csid ts ml mt sid :
  makes ctor wp rp →
  simulates (send_ignored ctor fmt csid ts ml mt sid) (with_message_ignored (write_message wp fmt csid ts ml mt sid)).
Proof.
  intros Hm. apply (sim_object ctor wp rp); [done |]. intros m h w Hw _.
  unfold ignoring, ignore, write_message_on, on_world. cbn. rewrite Hw.
  by destruct (write_message wp fmt csid ts ml mt sid w) as [[] ?].
Qed.

Lemma sim_receive {C : Type} `{!IO_Message_class (S := S) C} ctor wp rp (print : bool) :
  makes ctor wp rp →
  simulates (receive_ignored ctor print) (with_message (ignore (recv_message rp) ;; if print then common_print else ret tt)).
Proof.
  intros Hm. apply (sim_object ctor wp rp); [done |]. intros m h w _ Hr.
  unfold bind, ignoring, ignore, recv_message_on, on_world. cbn. rewrite Hr.
  destruct (recv_message rp w) as [[[] | | | |] w1]; cbn; try done; by destruct print.
Qed.

Lemma send_object_made command id type h :
  ∃ m cs h1, new_Send_Object_Message command id type h = (Ok m, h1) ∧ owns h cs h1 ∧
    length cs = length (mjoin (Send_Object_Message_init type)) ∧
    write_payload (S := S) m h1 = Send_Object_Message_write_payload command id type ∧
    Send_Object_Message_size m h1 = Ok (Send_Object_Message_get_payload_size command type) ∧
    destroy (S := S) m h1 = (Ok tt, h).
Proof.
  destruct (new_vec_ok (Send_Object_Message_init type) h) as (r & cs & h1 & E1 & Ho & Hcs & Hl).
  exists (MkSend_Object_Message command id type r), cs, h1. split_and!.
  - unfold new_Send_Object_Message. by rewrite (bind_ok _ _ _ _ _ E1).
  - done.
  - by rewrite <- (length_fmap fst cs), Hcs, length_fmap, (loaded_length _ _ _ Hl).
  - cbn. unfold with_vec. by rewrite (load_vec_ok _ _ _ Hl).
  - unfold Send_Object_Message_size. cbn [Send_Object_Message_type Send_Object_Message_vec Send_Object_Message_command].
    rewrite (load_vec_ok _ _ _ Hl). unfold Send_Object_Message_get_payload_size. destruct type; reflexivity.
  - cbn. unfold Send_Object_Message_destroy. cbn. rewrite delete_vec_flat, <- Hcs. by apply delete_owned.
Qed.

Lemma sim_sized command id type :
  simulates (send_sized command id type)
    (with_message (write_message (Send_Object_Message_write_payload command id type)
      0 3 0 (Send_Object_Message_get_payload_size command type) 20 0)).
Proof.
  intros h w. destruct (send_object_made command id type h) as (m & cs & h1 & Em & Ho & _ & Hw & Hn & Hd).
  assert (h ⊆ h1) as Hsub by (apply map_subseteq_spec; intros a v; by apply (owns_kept h cs h1)).
  unfold send_sized, new_message, with_message, delete_message, write_message_on, on_world, on_heap, bind.
  cbn -[write_payload destroy]. rewrite Em. cbn -[write_payload destroy]. rewrite Hn, Hw.
  destruct (write_message _ _ _ _ _ _ _ _) as [[[] | | | |] w1]; cbn -[destroy];
    try (exists h1; split; [done |]; split; [done | discriminate]).
  rewrite Hd. exists h. done.
Qed.

(** ** The constructors with properties *)
Lemma makes_OnFCPublish id : makes (new_OnFCPublish id) (OnFCPublish_write_payload id) IO_Message_read_payload.
Proof. by apply (makes_vec OnFCPublish_init (MkOnFCPublish id) (OnFCPublish_write id)). Qed.

Lemma makes_OnStatus id : makes (new_OnStatus id) (OnStatus_write_payload id) IO_Message_read_payload.
Proof. by apply (makes_vec OnStatus_init (MkOnStatus id) (OnStatus_write id)). Qed.

Lemma makes_PullStreamOnStatus cmd id type :
  makes (new_PullStreamOnStatus cmd id type) (PullStreamOnStatus_write_payload cmd id type) IO_Message_read_payload.
Proof. by apply (makes_vec (PullStreamOnStatus_init type) (MkPullStreamOnStatus cmd id type) (PullStreamOnStatus_write cmd id)). Qed.
End objects.

(** ** The session with its objects *)
Section session_objects.
Context {S : Type} `{!StSocket S}.
Notation W := (world S).

(** The constructor at hand. *)
Ltac made := first [apply makes_plain; intros; reflexivity | apply makes_OnFCPublish | apply makes_OnStatus |
  apply makes_PullStreamOnStatus].

Lemma sim_receive_quiet {C : Type} `{!IO_Message_class (S := S) C} ctor wp rp :
  makes ctor wp rp → simulates (receive_ignored ctor false) (with_message_ignored (recv_message rp)).
Proof.
  intros Hm. eapply sim_ext; [| by apply (sim_receive ctor wp rp false)]. intros w.
  unfold with_message_ignored, with_message, bind. cbn. by destruct (ignore (recv_message rp) _) as [[[] | | | |] ?].
Qed.

Lemma sim_chunk_size : simulates (S := S) process_chunk_size set_chunk_size_4096.
Proof.
  apply (sim_ext _ (with_message (ignore (write_message (SetChunkSize_write_payload 4096) 0 2 0 4 1 0) ;; modify (with_chunk_size 4096)))).
  - intros w. unfold with_message, set_chunk_size_4096, bind. cbn. by destruct (ignore _ _) as [[[] | | | |] ?].
  - eapply (sim_object (new_SetChunkSize 4096) (SetChunkSize_write_payload 4096)); [made |]. intros m h w Hw _.
    unfold bind, ignoring, ignore, write_message_on, on_world. cbn -[write_payload]. rewrite Hw.
    by destruct (write_message _ _ _ _ _ _ _ w) as [[[] | | | |] ?].
Qed.

(** One call after the other. *)
Ltac walk := repeat first [apply sim_chunk_size | apply sim_world | apply sim_sized | eapply sim_send_ignored; made |
  eapply sim_send; made | eapply (sim_receive_quiet _ IO_Message_write_payload); made | eapply (sim_receive _ IO_Message_write_payload _ true); made | apply sim_bind].

Lemma sim_connect_message : simulates (S := S)
  (m <- new_message new_ConnectMessage ;; (recv_message_on m ;; on_world common_print) ;; delete_message m)
  (with_message (recv_message ConnectMessage_read_payload ;; common_print)).
Proof.
  eapply (sim_object new_ConnectMessage IO_Message_write_payload); [made |]. intros m h w _ Hr.
  unfold bind, recv_message_on, on_world. cbn -[read_payload]. rewrite Hr. by destruct (recv_message _ w) as [[[] | | | |] ?].
Qed.

(** C39: the code of client.cpp with its message objects, their virtual functions and their constructors and destructors does what
    Session.v says of it, call for call and with the same errors; and when it comes to its end without an error the heap is the
    one it started with: every [Value_Object] that a constructor made was deleted, once.  When a call fails the thread leaves
    without the destructors ([failed_send_leaks]); even then no cell that was there before is lost or changed. *)
Theorem process_refines_session :
  simulates (S := S) process_connect connect_phase ∧ simulates (S := S) process_pull pull_setup ∧
  simulates (S := S) process_metadata pull_metadata ∧ simulates (S := S) process_push push_setup.
Proof.
  split_and!.
  - apply sim_bind; [apply sim_world |]. apply sim_bind; [apply sim_connect_message |]. walk.
  - walk.
  - walk.
  - walk.
Qed.

(** When a message cannot be sent, its object and the values in it stay behind: twelve for the answer to the connect message. *)
Lemma failed_send_leaks command id type h (w w' : W) :
  write_message (Send_Object_Message_write_payload command id type) 0 3 0
    (Send_Object_Message_get_payload_size command type) 20 0 (with_this IO_Message_new w) = (Fail, w') →
  ∃ h', send_sized command id type (h, w) = (Fail, (h', w')) ∧
    size h' = (size h + length (mjoin (Send_Object_Message_init type)))%nat.
Proof.
  intros Hf. destruct (send_object_made (S := S) command id type h) as (m & cs & h1 & Em & Ho & Hlen & Hw & Hn & _).
  exists h1. split.
  - unfold send_sized, new_message, write_message_on, on_world, on_heap, bind.
    cbn -[write_payload]. rewrite Em. cbn -[write_payload]. rewrite Hn, Hw. by rewrite Hf.
  - destruct Ho as [Hnd Hfr ->]. rewrite map_size_disj_union.
    + rewrite map_size_list_to_map by done. rewrite Hlen. apply Nat.add_comm.
    + apply map_disjoint_spec. intros a x y Hx Hy. apply elem_of_list_to_map_2 in Hx.
      destruct (Hfr a) as [_ Hn']; [| congruence]. apply list_elem_of_fmap. by exists (a, x).
Qed.
End session_objects.
