(* ===== verification/Relay.v ===== *)
(** * client.cpp: the publisher's loop, and what a player sends

    The loop of a publishing client fills the global [audio_video_buffer] with one message and points the first
    entry of [consumers] at it.  Here are its round and the header under which a player sends the message;
    RelaySteps.v has the loop of the players, and how the coroutines take turns. *)

From stdpp Require Import base list gmap sets.
From Stdlib Require Import Lia ZArith.
From S2P Require Import Prelude.
From S2P Require Import Bytes.
From S2P Require Import Util.
From S2P Require Import StApi.
From S2P Require Import StIo.
From S2P Require Import State.
From S2P Require Import IoBuffer.
From S2P Require Import IoSocket.
From S2P Require Import Emit.
From S2P Require Import Header.
From S2P Require Import Amf.
From S2P Require Import Chunk.

Local Open Scope Z_scope.

(** The chunk stream a player gets a message on. *)
Definition send_csid (message_type : Z) : Z :=
  if message_type =? 0x08 then 7 else if message_type =? 0x09 then 6 else 0.

(** The array [header], with the length given to [iov[0]]. *)
Definition relay_header (h : Message_Header) : list byte :=
  to_byte (Z.lor (Z.shiftl 0x00 6) (swrap 8 (send_csid (message_type h)))) ::
  (if 0xFFFFFF <=? timestamp h then [xff; xff; xff] else be_bytes 3 (timestamp h)) ++
  be_bytes 3 (message_length h) ++
  [to_byte (message_type h)] ++
  le_bytes 4 (stream_id h) ++
  (if 0xFFFFFF <=? timestamp h then be_bytes 4 (timestamp h) else []).

(** [len] bytes at [data() + off]; the terminator can be read. *)
Definition slice (buf : list byte) (off len : Z) : outcome (list byte) :=
  if (0 <=? off) && (0 <=? len) && (off + len <=? Z.of_nat (length buf) + 1)
  then Ok (take (Z.to_nat len) (drop (Z.to_nat off) (IO_Buffer.get_data buf)))
  else Undef.

Section relay.
Context {S : Type} `{!StSocket S}.

(** [csid_header[curr_csid].header_length = bh_size + mh_size;], with [curr_csid]
    the reference passed to [recv_audio_video]. *)
Definition note_header (csid bh_size mh_size : Z) : M (world S) unit :=
  modify (with_curr_csid csid) ;;
  csid_header_set csid (set_header_length (bh_size + mh_size)).

(** One call of [recv_audio_video] in the publisher's loop and the assignment
    after it.  The result of the call is dropped; when it fails, [bh_size],
    [mh_size] and [curr_csid] are what they were set to by then. *)
Definition publish_message : M (world S) unit := λ w,
  match read_audio_video_basic_header w with
  | (Ok (fmt, csid, bh_size), w1) =>
      match read_audio_video_message_header fmt csid bh_size w1 with
      | (Ok mh_size, w2) =>
          match recv_audio_video_payload csid w2 with
          | (Ok _, w3) | (Fail, w3) => note_header csid bh_size mh_size w3
          | r => r
          end
      | (Fail, w2) =>
          (mh_size <- lift (mh_size_array fmt) ;; note_header csid bh_size mh_size) w2
      | (o, w2) => (omap (λ _, tt) o, w2)
      end
  | (Fail, w1) =>
      let csid := match audio_video_buffer w1 with
        | [] => curr_csid w1
        | bh :: _ => Z.land (sc bh) 0x3F
        end in
      note_header csid 1 0 w1
  | (o, w1) => (omap (λ _, tt) o, w1)
  end.

(** The body of the publisher's loop is [publish_message], the assignment to the
    first consumer, [st_usleep(0)], [audio_video_buffer.clear()]. *)
Definition clear_audio_video : M (world S) unit := modify (with_audio_video_buffer []).
End relay.

(** ** A message on its way *)
Lemma relay_header_short h :
  0 <= timestamp h < 0xffffff → message_type h = 8 ∨ message_type h = 9 →
  relay_header h =
    chunk_header 0 (send_csid (message_type h)) (timestamp h) (message_length h)
      (message_type h) (stream_id h).
Proof.
  intros Ht Hm. unfold relay_header, chunk_header, basic_header, message_header, extended_timestamp.
  rewrite (proj2 (Z.leb_gt 0xFFFFFF _)), (proj2 (Z.ltb_ge 0xffffff _)) by lia.
  rewrite Z.min_l, andb_false_r by lia. cbn [andb Z.leb Z.compare].
  rewrite !app_nil_r. destruct Hm as [-> | ->]; by rewrite <- !app_assoc.
Qed.

Lemma length_relay_header h :
  length (relay_header h) = (if (0xFFFFFF <=? timestamp h)%Z then 16 else 12)%nat.
Proof.
  unfold relay_header. cbn [length]. rewrite !length_app, !length_be_bytes, length_le_bytes.
  by destruct (0xFFFFFF <=? timestamp h).
Qed.

(** One round of the publisher on an audio or video message: the buffer holds header and payload, and the entry of the
    chunk stream describes it. *)
Lemma publish_message_ok {S : Type} `{!StSocket S, !StSocketLaws S} (payload rest : list byte) (fmt csid ts mt sid : Z)
    (n : nat) (w : world S) :
  0 <= fmt <= 1 → 2 <= csid <= 191 → 0 <= ts < 0xffffff → -128 <= mt < 128 → - 2 ^ 31 <= sid < 2 ^ 31 →
  Z.of_nat (length payload) < 2 ^ 24 → chunk_size w = Z.of_nat n → (0 < n)%nat → Z.of_nat n < 2 ^ 31 →
  let hb := chunk_header fmt csid ts (Z.of_nat (length payload)) mt sid in
  let h := av_entry fmt ts (Z.of_nat (length payload)) mt sid (default Message_Header_new (csid_header w !! csid)) in
  streaming AvBuf (hb ++ chunked (header_fmt3 csid) n payload ++ rest) 0 w →
  ∃ w', publish_message w = (Ok tt, w') ∧ rx (sock w') = rest ∧ curr_csid w' = csid ∧
    audio_video_buffer w' = hb ++ payload ∧
    csid_header w' !! csid = Some (set_header_length (Z.of_nat (length hb)) h) ∧
    message_length h = Z.of_nat (length payload) ∧ message_type h = mt.
Proof.
  intros Hf Hcs Hts Hmt Hsid Hl Hc Hn Hn' hb h H0.
  destruct (audio_video_message payload rest fmt csid ts mt sid n w Hf Hcs Hts Hmt Hsid Hl Hc Hn Hn' H0)
    as (bh & mh & w1 & w2 & w3 & E1 & E2 & E3 & Hs & Hb & Hh & _ & Hrx & _).
  exists (with_csid_header (<[csid := set_header_length (bh + mh) h]> (csid_header w)) (with_curr_csid csid w3)).
  split; [| split; [exact Hrx |]; split; [done |]; split; [exact Hb |]; split].
  - unfold publish_message. rewrite E1, E2, E3. unfold note_header. unfold bind at 1. cbn [modify]. fold h in Hh.
    assert (with_curr_csid csid w3 = entry csid h (with_csid_header (csid_header w) (with_curr_csid csid w3))) as ->.
    { unfold entry. cbn [csid_header with_csid_header]. rewrite <- Hh. by destruct w3. }
    rewrite csid_header_set_entry. done.
  - cbn. rewrite lookup_insert_eq. fold hb in Hs. by rewrite Hs.
  - unfold h, av_entry. destruct (decide (fmt = 0)) as [-> | ?]; [done |]. by replace fmt with 1 by lia.
Qed.
