(* ===== verification/RelaySteps.v ===== *)
(** * client.cpp: the players, and how the coroutines take turns

    A player's coroutine switches in [st_usleep] and inside [writev], whenever the kernel does not take all at once.  Its
    payload vector points into [audio_video_buffer], which the publisher clears and fills again: every change of the
    string gives up the pointers into it, so a pointer carries the [version] of the string it was made from, and a use of an
    old one is undefined.  [run] is what a player does from one switch to the next; [step] interleaves the runs. *)

From stdpp Require Import base list gmap sets.
From Stdlib Require Import Lia ZArith.
From S2P Require Import Prelude.
From S2P Require Import Bytes.
From S2P Require Import Util.
From S2P Require Import StApi.
From S2P Require Import StIo.
From S2P Require Import State.
From S2P Require Import IoBuffer.
From S2P Require Import IoSocket.
From S2P Require Import Emit.
From S2P Require Import Header.
From S2P Require Import Amf.
From S2P Require Import Chunk.
From S2P Require Import Relay.

Local Open Scope Z_scope.

(** ** The state *)
(** A vector of [iov]: bytes of the player's own, or [len] bytes at [data() + off] of a version of the buffer. *)
Inductive vec := Own (bs : list byte) | Shared (at_version : nat) (off len : Z).

(** Without the first [n] bytes. *)
Definition vec_drop (n : nat) (v : vec) : vec :=
  match v with Own bs => Own (drop n bs) | Shared g off len => Shared g (off + Z.of_nat n) (len - Z.of_nat n) end.

Definition vec_len (v : vec) : nat := match v with Own bs => length bs | Shared _ _ len => Z.to_nat len end.

(** The vectors from byte [n] on, as [iov_from] of StIo.v. *)
Fixpoint vec_from (n : nat) (iov : list vec) : list vec :=
  match iov with
  | [] => []
  | v :: iov => if (vec_len v <=? n)%nat then vec_from (n - vec_len v) iov else vec_drop n v :: iov
  end.

(** [consumers] maps a player to a null pointer or to [data()] of a version; both loops use the entry
    [consumers.begin()] only. *)
Record shared := Shared_state { globals : world ksock; version : nat; consumers : gmap Z (option nat) }.

Definition with_globals v (sh : shared) := Shared_state v (version sh) (consumers sh).
Definition with_consumers v (sh : shared) := Shared_state (globals sh) (version sh) v.

(** Where a player is: before the test of the pointer; in [st_netfd_poll] of a [writev] of [nbyte] bytes of which
    [rem] is left, with the locals [pos] and [totol_payload_send]; or it has returned. *)
Inductive where_at :=
| At_top
| In_writev (pos : nat * Z) (sent nbyte : Z) (rem : list vec)
| Returned.

(** What the kernel does with a [writev]: all, a part and then the caller waits, or an error. *)
Inductive wrote := Wrote_all | Wrote (n : nat) | Wrote_error.

Fixpoint write_now (fuel : nat) (bss : list (list byte)) : M ksock wrote :=
  match fuel with
  | O => lift Hang
  | S fuel =>
      r <- sys_writev bss ;;
      match r with
      | inl n => ret (if (n =? length (concat bss))%nat then Wrote_all else Wrote n)
      | inr EINTR => write_now fuel bss
      | inr EAGAIN => ret (Wrote 0)
      | inr EOTHER => ret Wrote_error
      end
  end.

Section players.
(** The order of an [unordered_map] is not specified: [begin] gives the first key of a set of keys. *)
Variable begin : gset Z → option Z.

Definition first_pointer (c : gmap Z (option nat)) : option (option nat) :=
  match begin (dom c) with Some k => Some (default None (c !! k)) | None => None end.

(** [consumers.begin()->second = v;] *)
Definition point_first (v : option nat) (c : gmap Z (option nat)) : gmap Z (option nat) :=
  match begin (dom c) with Some k => <[k := v]> c | None => c end.

(** A player and what it shares. *)
Definition view : Type := shared * ksock.

Definition on_globals {A : Type} (c : M (world ksock) A) : M view A := λ v,
  let '(o, w) := c (globals v.1) in (o, (with_globals w v.1, v.2)).
Definition on_conn {A : Type} (c : M ksock A) : M view A := λ v,
  let '(o, k) := c v.2 in (o, (v.1, k)).

(** [csid_header[curr_csid]] *)
Definition current : M view Message_Header := on_globals (λ w, csid_header_at (curr_csid w) w).

(** [consumers.begin()->second] where the code adds to it: nothing is said about a null pointer then. *)
Definition second : M view nat := λ v,
  match first_pointer (consumers v.1) with Some (Some g) => (Ok g, v) | _ => (Undef, v) end.

(** The bytes of a vector. *)
Definition fetch (sh : shared) (x : vec) : outcome (list byte) :=
  match x with
  | Own bs => Ok bs
  | Shared g off len => if (g =? version sh)%nat then slice (audio_video_buffer (globals sh)) off len else Undef
  end.

Fixpoint fetch_all (iov : list vec) : M view (list (list byte)) :=
  match iov with
  | [] => ret []
  | x :: iov => v <- gets id ;; bs <- lift (fetch v.1 x) ;; bss <- fetch_all iov ;; ret (bs :: bss)
  end.

(** The system calls of [writev] up to the first that leaves something. *)
Definition write_vecs (iov : list vec) : M view (wrote * nat) :=
  bss <- fetch_all iov ;;
  v <- gets id ;;
  r <- on_conn (write_now (wr_fuel v.2) bss) ;;
  ret (r, length (concat bss)).

(** [pos] against the pointer of the message: pointers into different strings are not compared. *)
Definition same_version (g : nat) (pos : nat * Z) : M view unit := if (g =? pos.1)%nat then ret tt else lift Undef.

Definition min_len (left n : Z) : Z := if left <? n then left else n.

(** After [writev] has returned [nwrite]: [totol_payload_send], [pos] and [iov[1].iov_len]. *)
Definition advance (n : Z) (pos : nat * Z) (sent nwrite : Z) : M view ((nat * Z) * Z * Z) :=
  g <- second ;;
  same_version g pos ;;
  h <- current ;;
  let sent := sent + (nwrite - (if pos.2 =? header_length h then 12 else 1)) in
  ret ((g, header_length h + sent), sent, min_len (message_length h - sent) n).

(** The loop over the chunks; [n] is the chunk size of the client. *)
Fixpoint chunks (fuel : nat) (n : Z) (pos : nat * Z) (sent len : Z) : M view where_at :=
  match fuel with
  | O => lift Hang
  | S fuel =>
      g <- second ;;
      same_version g pos ;;
      v <- gets id ;;
      if pos.2 <? Z.of_nat (length (audio_video_buffer (globals v.1))) then
        h <- current ;;
        let iov0 := if pos.2 =? header_length h then relay_header h else [header_fmt3 (send_csid (message_type h))] in
        let iov := [Own iov0; Shared pos.1 pos.2 len] in
        '(r, nbyte) <- write_vecs iov ;;
        match r with
        | Wrote_error => ret Returned
        | Wrote k => ret (In_writev pos sent (Z.of_nat nbyte) (vec_from k iov))
        | Wrote_all =>
            '(pos, sent, len) <- advance n pos sent (Z.of_nat nbyte) ;;
            chunks fuel n pos sent len
        end
      else
        modify (λ v : view, (with_consumers (point_first None (consumers v.1)) v.1, v.2)) ;;
        ret At_top
  end.

Definition chunks_fuel (sh : shared) : nat := S (length (audio_video_buffer (globals sh))).

(** From one switch to the next: from the test of the pointer, or from the return of [st_poll]. *)
Definition run (n : Z) (p : where_at) : M view where_at :=
  v <- gets id ;;
  match p with
  | At_top =>
      match first_pointer (consumers v.1) with
      | None => lift Undef
      | Some None => ret At_top
      | Some (Some g) =>
          h <- current ;;
          chunks (chunks_fuel v.1) n (g, header_length h) 0 (min_len (message_length h) n)
      end
  | In_writev pos sent nbyte rem =>
      p <- on_conn (st_netfd_poll POLLOUT) ;;
      if p <? 0 then ret Returned else
      '(r, _) <- write_vecs rem ;;
      match r with
      | Wrote_error => ret Returned
      | Wrote k => ret (In_writev pos sent nbyte (vec_from k rem))
      | Wrote_all =>
          '(pos, sent, len) <- advance n pos sent nbyte ;;
          chunks (chunks_fuel v.1) n pos sent len
      end
  | Returned => ret Returned
  end.

(** ** The system *)
Record player := Player { conn : ksock; size : Z; where_is : where_at }.

(** The publisher sleeps in [st_usleep] after a message, or receives one; [from]: the globals when it began to. *)
Inductive publisher := Asleep | Receiving (from : world ksock).

Record system := System { sh : shared; pub : publisher; players : gmap Z player }.

Inductive label := Publish | Receive | Resume | Enter (i : Z) | Play (i : Z) | Run (i : Z).

(** [consumers.insert(... (client->stfd_client, NULL))]: an entry that is there is kept. *)
Definition insert_consumer (i : Z) (c : gmap Z (option nat)) : gmap Z (option nat) :=
  match c !! i with Some _ => c | None => <[i := None]> c end.

Definition changed (w : world ksock) (s : shared) : shared := Shared_state w (S (version s)) (consumers s).

(** [if (consumers.size() > 0) consumers.begin()->second = audio_video_buffer.data();] *)
Definition offer (s : shared) : shared := with_consumers (point_first (Some (version s)) (consumers s)) s.

(** The publisher's loop: while it waits for the rest of a message the globals may hold anything; a client that
    turns out to be a player; a player whose setup is done (Session.v); a player's turn. *)
Inductive step : system → label → system → Prop :=
| step_publish s w ps w' :
    publish_message w = (Ok tt, w') →
    step (System s (Receiving w) ps) Publish (System (offer (changed w' s)) Asleep ps)
| step_receive s w ps w' :
    step (System s (Receiving w) ps) Receive (System (changed w' s) (Receiving w) ps)
| step_resume s ps (w := with_audio_video_buffer [] (globals s)) :
    step (System s Asleep ps) Resume (System (changed w s) (Receiving w) ps)
| step_enter s p ps i :
    step (System s p ps) (Enter i) (System (with_consumers (insert_consumer i (consumers s)) s) p ps)
| step_play s p ps i k n :
    ps !! i = None →
    step (System s p ps) (Play i)
      (System (with_consumers (insert_consumer i (consumers s)) s) p (<[i := Player k n At_top]> ps))
| step_run s p ps i x pc s' k' :
    ps !! i = Some x → where_is x ≠ Returned → run (size x) (where_is x) (s, conn x) = (Ok pc, (s', k')) →
    step (System s p ps) (Run i) (System s' p (<[i := Player k' (size x) pc]> ps)).

Inductive steps : system → list label → system → Prop :=
| steps_nil s : steps s [] s
| steps_cons s1 l s2 ls s3 : step s1 l s2 → steps s2 ls s3 → steps s1 (l :: ls) s3.

(** The turns of one player when no other coroutine runs: until it is back at the top, or has returned. *)
Fixpoint alone (turns : nat) (n : Z) (p : where_at) : M view where_at :=
  match turns with
  | O => ret p
  | S turns =>
      p <- run n p ;;
      match p with In_writev _ _ _ _ => alone turns n p | _ => ret p end
  end.

(** ** Vectors *)
Lemma slice_ok buf off len :
  0 <= off → 0 <= len → off + len <= Z.of_nat (length buf) + 1 →
  ∃ l, slice buf off len = Ok l ∧ length l = Z.to_nat len ∧
    l = take (Z.to_nat len) (drop (Z.to_nat off) (IO_Buffer.get_data buf)).
Proof.
  intros H1 H2 H3. unfold slice. rewrite !(proj2 (Z.leb_le _ _)) by lia. cbn [andb]. eexists. split; [done |]. split; [| done].
  rewrite length_take, length_drop. unfold IO_Buffer.get_data. rewrite length_app. cbn [length]. lia.
Qed.

Lemma slice_inv buf off len l :
  slice buf off len = Ok l → 0 <= off ∧ 0 <= len ∧ off + len <= Z.of_nat (length buf) + 1 ∧ length l = Z.to_nat len ∧
    l = take (Z.to_nat len) (drop (Z.to_nat off) (IO_Buffer.get_data buf)).
Proof.
  intros H. pose proof H as H'. unfold slice in H'. destruct (Z.leb_spec 0 off), (Z.leb_spec 0 len), (Z.leb_spec (off + len) (Z.of_nat (length buf) + 1));
    try done. destruct (slice_ok buf off len) as (l' & E & Hl); [lia.. |]. rewrite E in H. injection H as ->. tauto.
Qed.

Lemma fetch_drop s x bs n :
  fetch s x = Ok bs → (n <= length bs)%nat → vec_len x = length bs ∧ fetch s (vec_drop n x) = Ok (drop n bs).
Proof.
  destruct x as [b | g off len]; cbn; [by intros [= ->] |]. destruct (g =? version s)%nat; [| done].
  intros (H1 & H2 & H3 & Hl & ->)%slice_inv Hn. split; [done |].
  destruct (slice_ok (audio_video_buffer (globals s)) (off + Z.of_nat n) (len - Z.of_nat n)) as (l & -> & _ & ->); [lia.. |].
  f_equal. rewrite skipn_firstn_comm, drop_drop. f_equal; [lia | f_equal; lia].
Qed.

Lemma fetch_all_app (v : view) iov bss : fetch_all iov v = (Ok bss, v) ↔ Forall2 (λ x bs, fetch v.1 x = Ok bs) iov bss.
Proof.
  revert bss. induction iov as [| x iov IH]; intros bss; cbn [fetch_all].
  - split; [by intros [= <-] | by intros ->%Forall2_nil_inv_l].
  - unfold bind at 1. cbn [gets id]. split.
    + unfold bind, lift. destruct (fetch v.1 x) as [bs | | | |] eqn:E; try done. destruct (fetch_all iov v) as [o v'] eqn:E'.
      destruct o as [bss' | | | |]; try done. intros [= <- ->]. constructor; [done |]. by apply IH.
    + intros (bs & bss' & H1 & H2%IH & ->)%Forall2_cons_inv_l. unfold bind, lift. rewrite H1. by rewrite H2.
Qed.

Lemma fetch_vec_from s iov bss n :
  Forall2 (λ x bs, fetch s x = Ok bs) iov bss →
  ∃ bss', Forall2 (λ x bs, fetch s x = Ok bs) (vec_from n iov) bss' ∧ concat bss' = drop n (concat bss).
Proof.
  intros H. revert n. induction H as [| x bs iov bss Hx H IH]; intros n; [exists []; cbn; by rewrite drop_nil |]. cbn [vec_from concat].
  destruct (fetch_drop s x bs 0 Hx ltac:(lia)) as [Hl _]. rewrite Hl. destruct (Nat.leb_spec (length bs) n) as [Hle | Hlt].
  - destruct (IH (n - length bs)%nat) as (bss' & H1 & H2). exists bss'. split; [done |]. rewrite H2, drop_app, (drop_ge bs) by lia. done.
  - exists (drop n bs :: bss). split; [constructor; [apply fetch_drop; [done | lia] | done] |]. cbn. by rewrite drop_app_le by lia.
Qed.

(** The payload bytes of the next call. *)
Lemma slice_payload hdr sent l n left :
  left = Z.of_nat (length l) →
  slice (hdr ++ sent ++ l) (Z.of_nat (length hdr) + Z.of_nat (length sent))
    (if left <? Z.of_nat n then left else Z.of_nat n) = Ok (take n l).
Proof.
  intros ->. unfold slice, IO_Buffer.get_data.
  assert (∀ k, (k ≤ length l)%nat →
    take (Z.to_nat (Z.of_nat k))
      (drop (Z.to_nat (Z.of_nat (length hdr) + Z.of_nat (length sent))) ((hdr ++ sent ++ l) ++ [x00]))
    = take k l) as Ht.
  { intros k Hk. rewrite <- Nat2Z.inj_add, !Nat2Z.id.
    replace ((hdr ++ sent ++ l) ++ [x00]) with ((hdr ++ sent) ++ l ++ [x00]) by by rewrite <- !app_assoc.
    rewrite drop_app_length' by by rewrite length_app. by rewrite take_app_le. }
  destruct (Z.ltb_spec (Z.of_nat (length l)) (Z.of_nat n)).
  - rewrite Ht by lia. rewrite !(proj2 (Z.leb_le _ _)) by (rewrite ?length_app; lia). cbn [andb].
    by rewrite !take_ge by lia.
  - rewrite Ht by lia. rewrite !(proj2 (Z.leb_le _ _)) by (rewrite ?length_app; lia). done.
Qed.

(** ** One [writev] *)
Lemma write_now_ok m bss k :
  (length (k_wrs k) < m)%nat →
  ∃ r k', write_now m bss k = (Ok r, k') ∧ same_rx k k' ∧ (length (k_wrs k') <= length (k_wrs k))%nat ∧ (k_healthy k → k_healthy k') ∧
    match r with
    | Wrote_all => k_tx k' = k_tx k ++ concat bss
    | Wrote n => (n <= length (concat bss))%nat ∧ k_tx k' = k_tx k ++ take n (concat bss) ∧
        (length (k_wrs k') < length (k_wrs k))%nat ∧ (concat bss ≠ [] → (n < length (concat bss))%nat)
    | Wrote_error => k_tx k' = k_tx k ∧ ¬ k_healthy k
    end.
Proof.
  revert k. induction m as [| m IH]; intros k Hm; [lia |]. cbn [write_now].
  destruct (sys_writev bss k) as [r1 k1] eqn:E1. destruct (sys_writev_spec _ _ _ _ E1) as (Hrx & _ & Hk & Hr).
  destruct r1 as [[n | []] | | | |]; try done; rewrite (bind_ok _ _ _ _ _ E1).
  - destruct Hr as (Hn & Htx & Hw). destruct (Nat.eqb_spec n (length (concat bss))) as [-> | Hne].
    + eexists Wrote_all, k1. split; [done |]. rewrite firstn_all in Htx. split_and!; [done | | apply Hk | done].
      unfold sys_writev in E1. destruct (k_wrs k) as [| [] ?]; simplify_eq; cbn; lia.
    + eexists (Wrote n), k1. split; [done |]. assert (n < length (concat bss))%nat as Hlt by lia. specialize (Hw Hlt).
      split_and!; [done | lia | apply Hk | lia | done | done | done].
  - destruct Hr as [Htx Hw]. destruct (IH k1) as (r & k2 & E2 & Hrx2 & Hw2 & Hk2 & Hr); [lia |]. exists r, k2. split; [done |].
    split; [by eapply same_rx_trans |]. split; [lia |]. split; [intros H; by apply Hk2, Hk |].
    destruct r as [| n |]; rewrite ?Htx in Hr; [done | | ].
    + destruct Hr as (? & ? & ? & ?). split_and!; [done | done | lia | done].
    + destruct Hr as [-> Hn]. split; [done |]. intros H. by apply Hn, Hk.
  - destruct Hr as [Htx Hw]. eexists (Wrote 0), k1. split; [done |]. split_and!; [done | lia | apply Hk | lia | | lia |].
    + by rewrite take_0, app_nil_r.
    + intros Hne. destruct (concat bss); [done | cbn; lia].
  - destruct Hr as [Htx Hw]. eexists Wrote_error, k1. split; [done |]. split_and!; [done | lia | apply Hk | done |]. intros H. by apply (Hk H).
Qed.

(** Vectors whose bytes are there. *)
Definition holds (s : shared) (iov : list vec) (bs : list byte) : Prop :=
  ∃ bss, Forall2 (λ x bs, fetch s x = Ok bs) iov bss ∧ concat bss = bs.

Lemma write_vecs_ok s k iov bs :
  holds s iov bs →
  ∃ r k', write_vecs iov (s, k) = (Ok (r, length bs), (s, k')) ∧ same_rx k k' ∧ (length (k_wrs k') <= length (k_wrs k))%nat ∧
    (k_healthy k → k_healthy k') ∧
    match r with
    | Wrote_all => k_tx k' = k_tx k ++ bs
    | Wrote n => (n <= length bs)%nat ∧ k_tx k' = k_tx k ++ take n bs ∧
        (length (k_wrs k') < length (k_wrs k))%nat ∧ (bs ≠ [] → (n < length bs)%nat) ∧ holds s (vec_from n iov) (drop n bs)
    | Wrote_error => k_tx k' = k_tx k ∧ ¬ k_healthy k
    end.
Proof.
  intros (bss & Hf & <-). destruct (write_now_ok (wr_fuel k) bss k) as (r & k' & E & Hrx & Hw & Hk & Hr); [unfold wr_fuel; lia |].
  exists r, k'. split.
  { unfold write_vecs. rewrite (bind_ok _ _ _ _ _ (proj2 (fetch_all_app (s, k) iov bss) Hf)). unfold bind at 1. cbn [gets id].
    unfold bind, on_conn. cbn [snd fst]. by rewrite E. }
  split; [done |]. split; [done |]. split; [done |]. destruct r as [| n |]; try done.
  destruct Hr as (H1 & H2 & H3 & H4). split_and!; try done. destruct (fetch_vec_from s iov bss n Hf) as (bss' & H5 & H6). by exists bss'.
Qed.

(** ** The message that waits *)
Section message.
Context (s : shared) (h : Message_Header) (hdr payload : list byte) (n : nat).

(** [h] describes what is in the buffer, the first pointer points at it; the chunk size is [n]. *)
Record offered : Prop := {
  of_header : csid_header (globals s) !! curr_csid (globals s) = Some h;
  of_buffer : audio_video_buffer (globals s) = hdr ++ payload;
  of_start : header_length h = Z.of_nat (length hdr);
  of_length : message_length h = Z.of_nat (length payload);
  of_pointer : first_pointer (consumers s) = Some (Some (version s));
  of_size : (0 < n)%nat;
}.
Hypothesis Ho : offered.

(** What is sent from [sent] on, which is 0 or counts the first chunk: the header of 16 bytes counts as 12. *)
Definition to_send (sent : nat) : list byte :=
  if (sent =? 0)%nat then
    relay_header h ++ take n payload ++ later_chunks (header_fmt3 (send_csid (message_type h))) n
      (drop (length (take n payload) + if (0xFFFFFF <=? timestamp h)%Z then 4 else 0) payload)
  else later_chunks (header_fmt3 (send_csid (message_type h))) n (drop sent payload).

Definition head_of (sent : nat) : list byte :=
  if (sent =? 0)%nat then relay_header h else [header_fmt3 (send_csid (message_type h))].

(** [totol_payload_send] after the chunk at [sent]. *)
Definition after (sent : nat) : nat :=
  (sent + length (take n (drop sent payload)) + if (sent =? 0)%nat && (0xFFFFFF <=? timestamp h)%Z then 4 else 0)%nat.

Lemma to_send_step sent :
  (sent < length payload)%nat → to_send sent = (head_of sent ++ take n (drop sent payload)) ++ to_send (after sent).
Proof.
  intros Hl. pose proof (of_size Ho) as Hn. assert (length (drop sent payload) = length payload - sent)%nat as Hd by apply length_drop.
  assert (drop sent payload ≠ []) as Hne by (intros E; rewrite E in Hd; cbn in Hd; lia).
  unfold to_send at 2. destruct (Nat.eqb_spec (after sent) 0) as [H0 |].
  { exfalso. unfold after in H0. rewrite length_take in H0. lia. }
  unfold to_send, head_of, after. destruct (Nat.eqb_spec sent 0) as [-> |]; cbn [andb].
  - rewrite drop_0, Nat.add_0_l, <- app_assoc. done.
  - rewrite later_chunks_cons by done. unfold chunked. rewrite Nat.add_0_r, drop_drop. cbn [app]. do 2 f_equal.
    rewrite length_take. destruct (decide (n <= length (drop sent payload))%nat); [by rewrite Nat.min_l by lia |].
    by rewrite !drop_ge by lia.
Qed.

Lemma to_send_done sent : (length payload <= sent)%nat → payload ≠ [] → to_send sent = [].
Proof.
  intros Hl Hne. unfold to_send. destruct (Nat.eqb_spec sent 0) as [-> |]; [destruct payload; [done | cbn in Hl; lia] |].
  by rewrite drop_ge.
Qed.

(** Where a player is that has still to send [todo], or never will. *)
Inductive good : list byte → shared → where_at → Prop :=
| good_top : good [] (with_consumers (point_first None (consumers s)) s) At_top
| good_wait sent rem bs (nbyte := length (head_of sent ++ take n (drop sent payload))) :
    (sent < length payload)%nat → bs ≠ [] → holds s rem bs →
    good (bs ++ to_send (after sent)) s
      (In_writev (version s, Z.of_nat (length hdr + sent)) (Z.of_nat sent) (Z.of_nat nbyte) rem)
| good_failed todo : good todo s Returned.

Lemma current_ok k : current (s, k) = (Ok h, (s, k)).
Proof.
  unfold current, on_globals, csid_header_at. cbn [fst snd]. rewrite (of_header Ho). by destruct s.
Qed.

Lemma second_ok k : second (s, k) = (Ok (version s), (s, k)).
Proof. unfold second. cbn [fst]. by rewrite (of_pointer Ho). Qed.

Lemma same_ok off k : same_version (version s) (version s, off) (s, k) = (Ok tt, (s, k)).
Proof. unfold same_version. cbn [fst]. by rewrite Nat.eqb_refl. Qed.

(** The length of the chunk at [sent]. *)
Definition len_at (sent : nat) : Z := min_len (Z.of_nat (length payload) - Z.of_nat sent) (Z.of_nat n).

Lemma advance_writes sent k :
  (sent < length payload)%nat →
  advance (Z.of_nat n) (version s, Z.of_nat (length hdr + sent)) (Z.of_nat sent)
    (Z.of_nat (length (head_of sent ++ take n (drop sent payload)))) (s, k) =
  (Ok ((version s, Z.of_nat (length hdr + after sent)), Z.of_nat (after sent), len_at (after sent)), (s, k)).
Proof.
  intros Hl. unfold advance. rewrite (bind_ok _ _ _ _ _ (second_ok k)), (bind_ok _ _ _ _ _ (same_ok _ k)), (bind_ok _ _ _ _ _ (current_ok k)).
  cbn [snd]. rewrite (of_start Ho), (of_length Ho).
  assert (Z.of_nat sent + (Z.of_nat (length (head_of sent ++ take n (drop sent payload))) -
    (if Z.of_nat (length hdr + sent) =? Z.of_nat (length hdr) then 12 else 1)) = Z.of_nat (after sent)) as ->.
  { rewrite length_app. unfold head_of, after. destruct (Nat.eqb_spec sent 0) as [-> | Hne].
    - rewrite Nat.add_0_r, Z.eqb_refl, length_relay_header. cbn [andb]. destruct (0xFFFFFF <=? timestamp h); lia.
    - rewrite (proj2 (Z.eqb_neq _ _)) by lia. cbn [andb length]. lia. }
  unfold ret, len_at. do 5 f_equal. lia.
Qed.

Lemma chunk_holds sent :
  (sent < length payload)%nat →
  holds s [Own (head_of sent); Shared (version s) (Z.of_nat (length hdr + sent)) (len_at sent)] (head_of sent ++ take n (drop sent payload)).
Proof.
  intros Hl. exists [head_of sent; take n (drop sent payload)]. split; [| cbn; by rewrite app_nil_r].
  constructor; [done |]. constructor; [| constructor]. cbn. rewrite Nat.eqb_refl, (of_buffer Ho).
  pose proof (slice_payload hdr (take sent payload) (drop sent payload) n (Z.of_nat (length payload) - Z.of_nat sent)) as H.
  rewrite take_drop, length_take, Nat.min_l in H by lia. unfold len_at, min_len. rewrite Nat2Z.inj_add. apply H. rewrite length_drop. lia.
Qed.

(** What a turn does that has [l] to send when it begins. *)
Definition turn (c : M view where_at) (k : ksock) (l : list byte) : Prop :=
  ∃ pc s' k' sent todo, c (s, k) = (Ok pc, (s', k')) ∧ good todo s' pc ∧ l = sent ++ todo ∧
    k_tx k' = k_tx k ++ sent ∧ k_rx k' = k_rx k ∧ (k_healthy k → k_healthy k' ∧ pc ≠ Returned) ∧
    (length (k_wrs k') + (match pc with In_writev _ _ _ _ => 1 | _ => 0 end) <= length (k_wrs k))%nat.

(** [writev] of what [iov] holds, and what follows when all is taken. *)
Lemma turn_write sent iov bs k (c : M view where_at) (go : Z → M view where_at) :
  (sent < length payload)%nat → bs ≠ [] → holds s iov bs →
  c (s, k) = ('(r, nbyte) <- write_vecs iov ;;
    match r with
    | Wrote_error => ret Returned
    | Wrote j => ret (In_writev (version s, Z.of_nat (length hdr + sent)) (Z.of_nat sent)
        (Z.of_nat (length (head_of sent ++ take n (drop sent payload)))) (vec_from j iov))
    | Wrote_all => go (Z.of_nat nbyte)
    end) (s, k) →
  (∀ k', turn (go (Z.of_nat (length bs))) k' (to_send (after sent))) →
  turn c k (bs ++ to_send (after sent)).
Proof.
  intros Hl Hbs Hiov Hc Hgo. destruct (write_vecs_ok s k iov bs Hiov) as (r & k1 & E & Hrx & Hw & Hk1 & Hr).
  rewrite (bind_ok _ _ _ _ _ E) in Hc. cbv beta iota in Hc. apply same_rx_k_rx in Hrx. destruct r as [| j |].
  - destruct (Hgo k1) as (pc & s' & k2 & snt & todo & E2 & Hg & Hd & Htx & Hrx2 & Hk2 & Hw2).
    exists pc, s', k2, (bs ++ snt), todo. split; [by rewrite Hc, E2 |]. split; [done |]. split; [by rewrite Hd, app_assoc |].
    split; [by rewrite Htx, Hr, app_assoc |]. split; [congruence |]. split; [by intros H%Hk1%Hk2 | lia].
  - destruct Hr as (Hj & Htx & Hlt & Hj' & Hh). eexists _, s, k1, (take j bs), (drop j bs ++ to_send (after sent)).
    split; [exact Hc |]. split; [constructor; [done | | done] |].
    { intros H0. apply (f_equal length) in H0. rewrite length_drop in H0. cbn in H0. specialize (Hj' Hbs). lia. }
    split; [by rewrite app_assoc, take_drop |]. split; [done |]. split; [done |]. split; [auto | lia].
  - destruct Hr as [Htx Hn]. eexists Returned, s, k1, [], (bs ++ to_send (after sent)). split; [exact Hc |]. split; [constructor |].
    split; [done |]. split; [by rewrite app_nil_r |]. split; [done |]. split; [by intros H | lia].
Qed.

Lemma to_send_nonempty sent : (sent < length payload)%nat → head_of sent ++ take n (drop sent payload) ≠ [].
Proof. intros _ H. apply app_nil in H as [H _]. unfold head_of in H. by destruct (sent =? 0)%nat. Qed.

Lemma chunks_ok fuel sent k :
  payload ≠ [] → (length payload < sent + fuel)%nat → (0 < fuel)%nat →
  turn (chunks fuel (Z.of_nat n) (version s, Z.of_nat (length hdr + sent)) (Z.of_nat sent) (len_at sent)) k (to_send sent).
Proof.
  intros Hne. revert sent k. induction fuel as [| fuel IH]; intros sent k Hf H0; [lia |].
  assert (∀ B (go : bool → M view B),
    (g <- second ;; same_version g (version s, Z.of_nat (length hdr + sent)) ;; v <- gets id ;;
     go (Z.of_nat (length hdr + sent) <? Z.of_nat (length (audio_video_buffer (globals v.1))))) (s, k) =
    go (sent <? length payload)%nat (s, k)) as Hhead.
  { intros B go. rewrite (bind_ok _ _ _ _ _ (second_ok k)), (bind_ok _ _ _ _ _ (same_ok _ k)). unfold bind at 1. cbn [gets id fst].
    f_equal. rewrite (of_buffer Ho), length_app. destruct (Nat.ltb_spec sent (length payload)); [by apply Z.ltb_lt; lia | by apply Z.ltb_ge; lia]. }
  destruct (decide (sent < length payload)%nat) as [Hl | Hl].
  - rewrite to_send_step by done.
    set (iov := [Own (head_of sent); Shared (version s) (Z.of_nat (length hdr + sent)) (len_at sent)]).
    apply (turn_write sent iov (head_of sent ++ take n (drop sent payload)) k _
      (λ nwrite, '(pos, sent', len) <- advance (Z.of_nat n) (version s, Z.of_nat (length hdr + sent)) (Z.of_nat sent) nwrite ;;
         chunks fuel (Z.of_nat n) pos sent' len)); [done | by apply to_send_nonempty | by apply chunk_holds | |].
    + cbn [chunks]. rewrite (Hhead _ (λ b, if b then _ else _)). rewrite (proj2 (Nat.ltb_lt _ _) Hl).
      rewrite (bind_ok _ _ _ _ _ (current_ok k)). cbv zeta. cbn [fst snd].
      assert ((if Z.of_nat (length hdr + sent) =? header_length h then relay_header h else [header_fmt3 (send_csid (message_type h))]) = head_of sent) as ->.
      { rewrite (of_start Ho). unfold head_of. destruct (Nat.eqb_spec sent 0) as [-> |]; [by rewrite Nat.add_0_r, Z.eqb_refl |].
        by rewrite (proj2 (Z.eqb_neq _ _)) by lia. }
      fold iov. destruct (write_vecs_ok s k iov _ (chunk_holds sent Hl)) as (r & k1 & E & _).
      rewrite !(bind_ok _ _ _ _ _ E). by destruct r.
    + intros k1. destruct (IH (after sent) k1) as (pc & s' & k2 & snt & todo & E & H).
      * unfold after. rewrite length_take, length_drop. pose proof (of_size Ho). lia.
      * lia.
      * exists pc, s', k2, snt, todo. split; [| done]. rewrite (bind_ok _ _ _ _ _ (advance_writes sent k1 Hl)). exact E.
  - eexists At_top, _, k, [], []. split.
    { cbn [chunks]. rewrite (Hhead _ (λ b, if b then _ else _)). rewrite (proj2 (Nat.ltb_ge _ _)) by lia. reflexivity. }
    split; [constructor |]. split; [rewrite to_send_done; [done | lia | done] |]. rewrite app_nil_r. split_and!; try done. lia.
Qed.

(** The first turn, and one after a wait. *)
Lemma run_top_ok k : payload ≠ [] → turn (run (Z.of_nat n) At_top) k (to_send 0).
Proof.
  intros Hne. destruct (chunks_ok (chunks_fuel s) 0 k Hne) as (pc & s' & k2 & snt & todo & E & H); [| unfold chunks_fuel; lia |].
  { unfold chunks_fuel. rewrite (of_buffer Ho), length_app. lia. }
  exists pc, s', k2, snt, todo. split; [| done]. unfold run. unfold bind at 1. cbn [gets id fst]. rewrite (of_pointer Ho).
  rewrite (bind_ok _ _ _ _ _ (current_ok k)). rewrite (of_start Ho), (of_length Ho). rewrite Nat.add_0_r in E.
  unfold len_at in E. rewrite Z.sub_0_r in E. exact E.
Qed.

Lemma run_wait_ok todo pos sent nbyte rem k :
  payload ≠ [] → good todo s (In_writev pos sent nbyte rem) → turn (run (Z.of_nat n) (In_writev pos sent nbyte rem)) k todo.
Proof.
  intros Hne Hg. inversion Hg as [| m rem' bs nb Hl Hbs Hh |]; subst. clear Hg. unfold nb. clear nb.
  destruct (st_netfd_poll POLLOUT k) as [p k1] eqn:Ep.
  destruct (st_netfd_poll_spec _ _ _ _ Ep) as ([Hw1 Ht1] & Hr1%same_rx_k_rx & Hp).
  assert (k_healthy k → p = Ok 0 ∧ k_healthy k1) as Hk by (intros Hk; by apply (st_netfd_poll_healthy _ _ _ _ Ep Hk)).
  destruct Hp as [-> | ->].
  2: { eexists Returned, s, k1, [], _. split.
       { unfold run. unfold bind at 1. cbn [gets id fst]. unfold bind at 1, on_conn. cbn [fst snd]. rewrite Ep. reflexivity. }
       split; [constructor |]. split; [done |]. split; [by rewrite app_nil_r |]. split; [done |]. rewrite Hw1. split; [by intros [[=] _]%Hk | lia]. }
  destruct (turn_write m rem bs k1 (λ v : view, run (Z.of_nat n) (In_writev (version s, Z.of_nat (length hdr + m)) (Z.of_nat m)
      (Z.of_nat (length (head_of m ++ take n (drop m payload)))) rem) (v.1, k))
    (λ _, '(pos, sent', len) <- advance (Z.of_nat n) (version s, Z.of_nat (length hdr + m)) (Z.of_nat m)
        (Z.of_nat (length (head_of m ++ take n (drop m payload)))) ;;
         chunks (chunks_fuel s) (Z.of_nat n) pos sent' len)) as (pc & s' & k2 & snt & td & E & Hg & Hd & Htx & Hrx & Hk2 & Hw2);
    [done | done | done | | |].
  - unfold run. unfold bind at 1. cbn [gets id fst].
    assert (on_conn (st_netfd_poll POLLOUT) (s, k) = (Ok 0, (s, k1))) as E1 by (unfold on_conn; cbn [fst snd]; by rewrite Ep).
    rewrite (bind_ok _ _ _ _ _ E1). change (0 <? 0) with false. cbv iota.
    destruct (write_vecs_ok s k1 rem bs Hh) as (r & k2 & E & _). rewrite !(bind_ok _ _ _ _ _ E). by destruct r.
  - intros k2. destruct (chunks_ok (chunks_fuel s) (after m) k2 Hne) as (pc & s' & k3 & snt & td & E & H);
      [unfold chunks_fuel; rewrite (of_buffer Ho), length_app; lia | unfold chunks_fuel; lia |].
    exists pc, s', k3, snt, td. split; [| done]. rewrite (bind_ok _ _ _ _ _ (advance_writes m k2 Hl)). exact E.
  - exists pc, s', k2, snt, td. split; [exact E |]. split; [done |]. split; [done |]. split; [congruence |]. split; [congruence |].
    split; [by intros [_ H]%Hk; apply Hk2 | by rewrite <- Hw1].
Qed.

(** Turn after turn: all is sent when no write fails. *)
Lemma alone_ok turns pc k todo :
  payload ≠ [] → k_healthy k → (length (k_wrs k) < turns)%nat →
  (pc = At_top ∧ todo = to_send 0 ∨ good todo s pc ∧ pc ≠ At_top ∧ pc ≠ Returned) →
  ∃ k', alone turns (Z.of_nat n) pc (s, k) = (Ok At_top, (with_consumers (point_first None (consumers s)) s, k')) ∧
    k_tx k' = k_tx k ++ todo ∧ k_healthy k' ∧ k_rx k' = k_rx k.
Proof.
  intros Hne. revert pc k todo. induction turns as [| turns IH]; intros pc k todo Hk Ht Hpc; [lia |].
  assert (turn (run (Z.of_nat n) pc) k todo) as (pc' & s' & k1 & snt & td & E & Hg & -> & Htx & Hrx & Hk1 & Hw).
  { destruct Hpc as [[-> ->] | (Hg & Hn & Hn')]; [by apply run_top_ok |]. inversion Hg; subst; [done | by apply run_wait_ok | done]. }
  destruct (Hk1 Hk) as [Hk1' Hn]. cbn [alone]. rewrite (bind_ok _ _ _ _ _ E). inversion Hg as [| m rem bs nb Hl Hbs Hh |]; subst; [| | done].
  - exists k1. by rewrite app_nil_r.
  - match type of Hg with good ?td _ ?q => destruct (IH q k1 td Hk1') as (k2 & E2 & Htx2 & Hk2 & Hrx2) end;
      [lia | right; split; [exact Hg | by split] |].
    exists k2. split; [exact E2 |]. split; [by rewrite Htx2, Htx, <- app_assoc |]. split; [done | congruence].
Qed.
End message.

(** ** A use of an old pointer *)
Lemma fetch_all_stale (v : view) iov g off len :
  Shared g off len ∈ iov → g ≠ version v.1 → fetch_all iov v = (Undef, v).
Proof.
  intros Hin Hg. induction iov as [| x iov IH]; [by apply not_elem_of_nil in Hin |]. cbn [fetch_all]. unfold bind at 1. cbn [gets id].
  apply elem_of_cons in Hin as [<- | Hin].
  - unfold bind, lift. cbn. by rewrite (proj2 (Nat.eqb_neq _ _) Hg).
  - assert (fetch v.1 x = Undef ∨ ∃ bs, fetch v.1 x = Ok bs) as [E | [bs E]].
    { destruct x as [b | g' o l]; cbn; [right; by eexists |]. destruct (g' =? version v.1)%nat; [| by left]. unfold slice.
      destruct (_ && _ && _); [right; by eexists | by left]. }
    + unfold bind, lift. by rewrite E.
    + unfold bind, lift. rewrite E. by rewrite (IH Hin).
Qed.

(** A player whose [writev] waits for room when the publisher clears the buffer goes on with bytes that nothing is known
    about. *)
Theorem waiting_player_reads_stale_bytes n pos sent nbyte rem s k k' g off len :
  st_netfd_poll POLLOUT k = (Ok 0, k') → Shared g off len ∈ rem → g ≠ version s →
  (run n (In_writev pos sent nbyte rem) (s, k)).1 = Undef.
Proof.
  intros Hp Hin Hg. unfold run. unfold bind at 1. cbn [gets id fst].
  assert (on_conn (st_netfd_poll POLLOUT) (s, k) = (Ok 0, (s, k'))) as E1 by (unfold on_conn; cbn [fst snd]; by rewrite Hp).
  rewrite (bind_ok _ _ _ _ _ E1). change (0 <? 0) with false. cbv iota.
  unfold bind at 1, write_vecs, bind at 1. by rewrite (fetch_all_stale (s, k') rem g off len Hin).
Qed.

(** ** Players that never wait *)
(** The kernel takes every write whole, perhaps after interruptions. *)
Definition prompt (k : ksock) : Prop := Forall (eq (WrErr EINTR)) (k_wrs k).

Lemma write_now_prompt m bss k :
  (length (k_wrs k) < m)%nat → prompt k → ∃ k', write_now m bss k = (Ok Wrote_all, k') ∧ prompt k'.
Proof.
  revert k. induction m as [| m IH]; intros k Hm Hk; [lia |]. cbn [write_now]. unfold bind, sys_writev. unfold prompt in Hk.
  destruct (k_wrs k) as [| e w] eqn:Ew.
  - eexists. cbn. rewrite Nat.eqb_refl. split; [reflexivity | by apply Forall_nil].
  - apply Forall_cons in Hk as [<- Hk]. cbn [length] in Hm. apply IH; [cbn; lia | done].
Qed.

Lemma fetch_all_view iov v o v' : fetch_all iov v = (o, v') → v' = v.
Proof.
  revert o v'. induction iov as [| x iov IH]; intros o v'; cbn [fetch_all]; [by intros [= _ <-] |].
  unfold bind at 1. cbn [gets id]. unfold bind, lift. destruct (fetch v.1 x); try by intros [= _ <-].
  destruct (fetch_all iov v) as [[] v1] eqn:E; intros [= _ <-]; by apply (IH _ _ eq_refl).
Qed.

Lemma write_vecs_prompt iov v x v' :
  prompt v.2 → write_vecs iov v = (Ok x, v') → x.1 = Wrote_all ∧ v'.1 = v.1 ∧ prompt v'.2.
Proof.
  intros Hv H. unfold write_vecs in H. apply bind_ok_inv in H as (bss & v1 & E1 & H). apply fetch_all_view in E1 as ->.
  unfold bind at 1 in H. cbn [gets id] in H. destruct (write_now_prompt (wr_fuel v.2) bss v.2) as (k' & E & Hk); [unfold wr_fuel; lia | done |].
  unfold bind, on_conn in H. rewrite E in H. by injection H as <- <-.
Qed.

(** The locals and the globals change, the pointers do not. *)
Lemma current_consumers v h v' : current v = (Ok h, v') → consumers v'.1 = consumers v.1 ∧ v'.2 = v.2.
Proof. unfold current, on_globals. destruct (csid_header_at _ _) as [o w]. by intros [= _ <-]. Qed.

Lemma second_view v g v' : second v = (Ok g, v') → v' = v ∧ first_pointer (consumers v.1) = Some (Some g).
Proof. unfold second. destruct (first_pointer _) as [[g' |] |]; [by intros [= -> <-] | done | done]. Qed.

Lemma same_version_view g pos v x v' : same_version g pos v = (Ok x, v') → v' = v.
Proof. unfold same_version. destruct (g =? pos.1)%nat; [by intros [= _ <-] | done]. Qed.

Lemma advance_consumers n pos sent nwrite v x v' :
  advance n pos sent nwrite v = (Ok x, v') → consumers v'.1 = consumers v.1 ∧ v'.2 = v.2.
Proof.
  unfold advance. intros (g & v1 & [-> _]%second_view & H)%bind_ok_inv. apply bind_ok_inv in H as (u & v2 & ->%same_version_view & H).
  apply bind_ok_inv in H as (h & v3 & Hc%current_consumers & H). by injection H as _ <-.
Qed.

Lemma chunks_prompt fuel n pos sent len v pc v' :
  prompt v.2 → chunks fuel n pos sent len v = (Ok pc, v') →
  pc = At_top ∧ consumers v'.1 = point_first None (consumers v.1) ∧ prompt v'.2.
Proof.
  revert pos sent len v. induction fuel as [| fuel IH]; intros pos sent len v Hv H; [done |]. cbn [chunks] in H.
  apply bind_ok_inv in H as (g & v1 & [-> _]%second_view & H). apply bind_ok_inv in H as (u & v2 & ->%same_version_view & H).
  unfold bind at 1 in H. cbn [gets id] in H. destruct (pos.2 <? _).
  - apply bind_ok_inv in H as (h & v3 & [Ec Ek]%current_consumers & H). cbv zeta in H.
    apply bind_ok_inv in H as ([r nb] & v4 & E & H). apply write_vecs_prompt in E as (Er & E4 & Hv4); [| by rewrite Ek].
    cbn in Er. subst r. apply bind_ok_inv in H as ([[pos' sent'] len'] & v5 & [Ec5 Ek5]%advance_consumers & H).
    apply IH in H as (-> & Hc & Hp); [| by rewrite Ek5]. split; [done |]. split; [| done]. by rewrite Hc, Ec5, E4, Ec.
  - unfold bind in H. cbn in H. by injection H as <- <-.
Qed.

Section one_player.
Hypothesis begin_in : ∀ X k, begin X = Some k → k ∈ X.

Lemma first_pointer_set v c i : begin (dom c) = Some i → first_pointer (point_first v c) = Some v.
Proof.
  intros Hb. unfold first_pointer, point_first. rewrite Hb. assert (dom (<[i := v]> c) = dom c) as ->.
  { apply begin_in in Hb. rewrite dom_insert_L. set_solver. }
  by rewrite Hb, lookup_insert_eq.
Qed.

Lemma run_prompt n v pc v' :
  prompt v.2 → run n At_top v = (Ok pc, v') →
  pc = At_top ∧ prompt v'.2 ∧ first_pointer (consumers v'.1) = Some None ∧
    (first_pointer (consumers v.1) = Some None → v' = v).
Proof.
  intros Hv H. unfold run in H. unfold bind at 1 in H. cbn [gets id] in H.
  destruct (first_pointer (consumers v.1)) as [[g |] |] eqn:Ef; [| | done].
  - apply bind_ok_inv in H as (h & v1 & [Ec Ek]%current_consumers & H). apply chunks_prompt in H as (-> & Hc & Hp); [| by rewrite Ek].
    split; [done |]. split; [done |]. split; [| done]. rewrite Hc, Ec. unfold first_pointer in Ef.
    destruct (begin (dom (consumers v.1))) as [i |] eqn:Eb; [| done]. by apply (first_pointer_set None _ i).
  - by injection H as <- <-.
Qed.

(** Turns of the players, and the publisher on its way to the next message. *)
Definition delivering (l : label) : Prop := match l with Receive | Resume | Run _ => True | _ => False end.

(** Every player waits for a message, on a connection that takes what it is given. *)
Definition all_prompt (ps : gmap Z player) : Prop := ∀ i x, ps !! i = Some x → where_is x = At_top ∧ prompt (conn x).

Lemma step_delivering s l s' :
  step s l s' → delivering l → all_prompt (players s) →
  all_prompt (players s') ∧
  (first_pointer (consumers (sh s)) = Some None → first_pointer (consumers (sh s')) = Some None ∧ players s' = players s) ∧
  (players s' = players s ∧ consumers (sh s') = consumers (sh s) ∨
   ∃ i, first_pointer (consumers (sh s')) = Some None ∧ ∀ j, j ≠ i → players s' !! j = players s !! j).
Proof.
  intros H Hl Hp. destruct H as [| s w ps w' | s ps w | | | s p ps i x pc s' k' Hx Hn E]; try done; cbn [players sh] in *.
  1, 2: split; [done |]; split; [by split | left; done].
  destruct (Hp i x Hx) as [Ht Hk]. rewrite Ht in E. apply run_prompt in E as (-> & Hk' & Hf & Hs); [| done]. cbn [fst snd] in *.
  split; [| split].
  - intros j y. destruct (decide (j = i)) as [-> | Hj]; [rewrite lookup_insert_eq; by intros [= <-] | rewrite lookup_insert_ne by done; apply Hp].
  - intros H0. split; [done |]. specialize (Hs H0). injection Hs as -> ->. rewrite <- Ht. apply insert_id. rewrite Hx. by destruct x.
  - right. exists i. split; [done |]. intros j Hj. by rewrite lookup_insert_ne.
Qed.

Lemma steps_idle s ls s' :
  steps s ls s' → Forall delivering ls → all_prompt (players s) → first_pointer (consumers (sh s)) = Some None → players s' = players s.
Proof.
  induction 1 as [| s1 l s2 ls s3 H _ IH]; intros Hd Hp Hf; [done |]. apply Forall_cons in Hd as [Hl Hd].
  destruct (step_delivering _ _ _ H Hl Hp) as (Hp2 & H2 & _). destruct (H2 Hf) as [Hf2 E2]. rewrite <- E2. by apply IH.
Qed.

Lemma steps_one_player s ls s' :
  steps s ls s' → Forall delivering ls → all_prompt (players s) → ∃ i, ∀ j, j ≠ i → players s' !! j = players s !! j.
Proof.
  induction 1 as [| s1 l s2 ls s3 H Hs IH]; intros Hd Hp; [by exists 0 |]. apply Forall_cons in Hd as [Hl Hd].
  destruct (step_delivering _ _ _ H Hl Hp) as (Hp2 & _ & [[E _] | (i & Hf & Hi)]).
  - destruct (IH Hd Hp2) as [i Hi]. exists i. intros j Hj. rewrite Hi by done. by rewrite E.
  - exists i. intros j Hj. rewrite (steps_idle _ _ _ Hs Hd Hp2 Hf). by apply Hi.
Qed.

(** C40: until the next message is published, and while no client joins, at most one connection is sent anything, however many
    players there are and however the turns are taken, if the players' connections take what they are given without a wait
    or an error.  ([unfinished_message_is_sent_again] says what happens otherwise.) *)
Theorem message_reaches_one_player (s s1 s2 : system) (ls : list label) :
  step s Publish s1 → steps s1 ls s2 → Forall delivering ls → all_prompt (players s) →
  ∃ i, ∀ j, j ≠ i → players s2 !! j = players s !! j.
Proof.
  intros H Hs Hd Hp. assert (players s1 = players s) as E by (by inversion H).
  destruct (steps_one_player s1 ls s2 Hs Hd) as [i Hi]; [by rewrite E |]. exists i. intros j Hj. by rewrite Hi, E.
Qed.

(** ** A published message *)
Lemma to_send_message h payload n :
  0 <= timestamp h < 0xffffff → message_type h = 8 ∨ message_type h = 9 → message_length h = Z.of_nat (length payload) → payload ≠ [] →
  to_send h payload n 0 =
  message_bytes 0 (send_csid (message_type h)) (timestamp h) (Z.of_nat (length payload)) (message_type h) (stream_id h) n payload.
Proof.
  intros Ht Hm Hl Hne. unfold to_send. cbn [Nat.eqb]. rewrite (relay_header_short h Ht Hm), Hl, (proj2 (Z.leb_gt _ _)) by lia.
  rewrite header_fmt3_type3 by (destruct Hm as [-> | ->]; cbn; lia). unfold message_bytes, message_with, chunked.
  destruct payload as [| b payload]; [done |]. rewrite Nat.add_0_r. do 3 f_equal. rewrite length_take.
  destruct (decide (n <= length (b :: payload))%nat); [by rewrite Nat.min_l by lia | by rewrite !drop_ge by lia].
Qed.

(** C1: one message from publisher to player.  After [publish_message] has taken an audio or video message off the publisher's
    connection, the player that finds it is sent its payload, unchanged and as the chunk stream of the specification, with
    the timestamp computed for the chunk stream, however often the connection makes it wait, if neither the publisher nor another
    player runs before it is done; the pointer is null then.  ([waiting_player_reads_stale_bytes]: the publisher
    must not.) *)
Theorem published_message_reaches_player (payload rest : list byte) (fmt csid ts mt sid : Z) (n m : nat) (w : world ksock)
    (s : shared) (i : Z) (k : ksock) :
  0 <= fmt <= 1 → 2 <= csid <= 191 → 0 <= ts < 0xffffff → mt = 8 ∨ mt = 9 → - 2 ^ 31 <= sid < 2 ^ 31 →
  Z.of_nat (length payload) < 2 ^ 24 → payload ≠ [] →
  chunk_size w = Z.of_nat n → (0 < n)%nat → Z.of_nat n < 2 ^ 31 →
  let h := av_entry fmt ts (Z.of_nat (length payload)) mt sid (default Message_Header_new (csid_header w !! csid)) in
  0 <= timestamp h < 0xffffff →
  streaming AvBuf (chunk_header fmt csid ts (Z.of_nat (length payload)) mt sid ++ chunked (header_fmt3 csid) n payload ++ rest) 0 w →
  begin (dom (consumers s)) = Some i → k_healthy k → (0 < m)%nat →
  ∃ w', publish_message w = (Ok tt, w') ∧ rx (sock w') = rest ∧
    let s' := offer (changed w' s) in
    ∃ k', alone (S (length (k_wrs k))) (Z.of_nat m) At_top (s', k) =
        (Ok At_top, (with_consumers (point_first None (consumers s')) s', k')) ∧
      k_tx k' = k_tx k ++ message_bytes 0 (send_csid mt) (timestamp h) (Z.of_nat (length payload)) mt (stream_id h) m payload.
Proof.
  intros Hf Hcs Hts Hmt Hsid Hl Hne Hc Hn Hn' h Ht H0 Hb Hk Hm.
  destruct (publish_message_ok payload rest fmt csid ts mt sid n w Hf Hcs Hts ltac:(lia) Hsid Hl Hc Hn Hn' H0)
    as (w' & E & Hrx & Hcur & Hbuf & Hh & Hml & Hmty). fold h in Hh, Hml, Hmty.
  exists w'. split; [done |]. split; [done |]. intros s'. set (hb := chunk_header fmt csid ts (Z.of_nat (length payload)) mt sid) in *.
  assert (offered s' (set_header_length (Z.of_nat (length hb)) h) hb payload m) as Hof.
  { split; try done; cbn; [by rewrite Hcur | by apply (first_pointer_set _ _ i)]. }
  destruct (alone_ok s' _ hb payload m Hof (S (length (k_wrs k))) At_top k _ Hne Hk ltac:(lia) (or_introl (conj eq_refl eq_refl)))
    as (k' & E' & Htx & _).
  exists k'. split; [exact E' |]. set (h' := set_header_length _ h) in *. assert (message_type h' = mt) as Hmt' by exact Hmty.
  rewrite Htx, to_send_message; [| done | by rewrite Hmt' | exact Hml | done]. by rewrite Hmt'.
Qed.
End one_player.

(** A player whose turn ends with a wait or an error leaves the pointer as it was: the next one is sent the whole message
    too. *)
Theorem unfinished_message_is_sent_again s h hdr payload n k pc s' k' :
  offered s h hdr payload n → payload ≠ [] → run (Z.of_nat n) At_top (s, k) = (Ok pc, (s', k')) → pc ≠ At_top →
  s' = s ∧ (∃ snt todo, to_send h payload n 0 = snt ++ todo ∧ k_tx k' = k_tx k ++ snt) ∧
  ∀ m k2, (0 < m)%nat → k_healthy k2 →
    ∃ k2', alone (S (length (k_wrs k2))) (Z.of_nat m) At_top (s', k2) =
        (Ok At_top, (with_consumers (point_first None (consumers s)) s, k2')) ∧ k_tx k2' = k_tx k2 ++ to_send h payload m 0.
Proof.
  intros Ho Hne E Hpc. destruct (run_top_ok s h hdr payload n Ho k Hne) as (pc' & s2 & k3 & snt & todo & E2 & Hg & Hd & Htx & _).
  rewrite E in E2. injection E2 as <- <- <-. assert (s' = s) as -> by (by inversion Hg; subst). split; [done |]. split; [by exists snt, todo |].
  intros m k2 Hm Hk2. assert (offered s h hdr payload m) as Hom by (by destruct Ho).
  destruct (alone_ok s h hdr payload m Hom (S (length (k_wrs k2))) At_top k2 _ Hne Hk2 ltac:(lia) (or_introl (conj eq_refl eq_refl)))
    as (k2' & E' & Htx' & _). by exists k2'.
Qed.

(** A player that comes to the message when the publisher has cleared the buffer sends nothing and drops it. *)
Theorem late_player_drops_message n s k h g :
  first_pointer (consumers s) = Some (Some g) → csid_header (globals s) !! curr_csid (globals s) = Some h → 0 <= header_length h →
  audio_video_buffer (globals s) = [] →
  run n At_top (s, k) = (Ok At_top, (with_consumers (point_first None (consumers s)) s, k)).
Proof.
  intros Hf Hh Hl Hb. unfold run. unfold bind at 1. cbn [gets id fst]. rewrite Hf.
  assert (current (s, k) = (Ok h, (s, k))) as Ec.
  { unfold current, on_globals, csid_header_at. cbn [fst snd]. rewrite Hh. by destruct s. }
  rewrite (bind_ok _ _ _ _ _ Ec). unfold chunks_fuel. rewrite Hb. cbn [length chunks].
  assert (second (s, k) = (Ok g, (s, k))) as Es by (unfold second; cbn [fst]; by rewrite Hf).
  rewrite (bind_ok _ _ _ _ _ Es). unfold bind at 1, same_version. cbn [fst]. rewrite Nat.eqb_refl. cbn [ret].
  unfold bind at 1. cbn [gets id fst snd]. rewrite Hb. rewrite (proj2 (Z.ltb_ge _ _)) by (cbn; lia). done.
Qed.

(** For a timestamp of 0xffffff or more the header of 16 bytes is counted as 12, so a message longer than a chunk loses the
    four payload bytes after its first chunk, although the header still announces them. *)
Theorem relay_long_timestamp_drops_bytes s h hdr payload n k :
  offered s h hdr payload n → 0xffffff <= timestamp h → (n + 4 <= length payload)%nat → k_healthy k →
  ∃ k', alone (S (length (k_wrs k))) (Z.of_nat n) At_top (s, k) = (Ok At_top, (with_consumers (point_first None (consumers s)) s, k')) ∧
    k_tx k' = k_tx k ++ relay_header h ++ take n payload ++
      later_chunks (header_fmt3 (send_csid (message_type h))) n (drop (n + 4) payload) ∧
    message_length h = Z.of_nat (length (take n payload ++ drop (n + 4) payload)) + 4.
Proof.
  intros Ho Ht Hl Hk. assert (payload ≠ []) as Hne by (destruct payload; [cbn in Hl; lia | done]).
  destruct (alone_ok s h hdr payload n Ho (S (length (k_wrs k))) At_top k _ Hne Hk ltac:(lia) (or_introl (conj eq_refl eq_refl)))
    as (k' & E' & Htx & _). exists k'. split; [done |]. split.
  - rewrite Htx. unfold to_send. cbn [Nat.eqb]. by rewrite (proj2 (Z.leb_le _ _)), length_take, Nat.min_l by lia.
  - rewrite (of_length _ _ _ _ _ Ho), length_app, length_take, length_drop. lia.
Qed.
End players.

(** ** Examples: the message [hello] in chunks of four *)
Definition video_stream : list byte := chunk_header 0 4 40 11 9 1 ++ chunked (header_fmt3 4) 4 hello ++ [x2a].

Definition begin_min (X : gset Z) : option Z := head (elements X).

Lemma begin_min_in X k : begin_min X = Some k → k ∈ X.
Proof.
  intros H. apply elem_of_elements. unfold begin_min in H. destruct (elements X); [discriminate |]. injection H as ->. by apply list_elem_of_here.
Qed.

Definition conn_with (wrs : list wr_ev) (polls : list poll_ev) : ksock := KSock [] wrs polls [].

(** A connection that takes three bytes, is not ready, is interrupted, and then takes all. *)
Definition slow : ksock := conn_with [WrSome 3; WrErr EAGAIN; WrErr EINTR] [].
Definition quick : ksock := conn_with [] [].

Definition two_consumers : shared := Shared_state (small_chunks video_stream) 0 {[1 := None; 2 := None]}.

Lemma published_message_reaches_player_witness :
  ∃ w', publish_message (small_chunks video_stream) = (Ok tt, w') ∧
    ∃ s' k', alone begin_min 4 8 At_top (offer begin_min (changed w' two_consumers), slow) = (Ok At_top, (s', k')) ∧
      k_tx k' = message_bytes 0 6 80 11 9 1 8 hello.
Proof.
  destruct (published_message_reaches_player begin_min begin_min_in hello [x2a] 0 4 40 9 1 4 8 (small_chunks video_stream)
    two_consumers 2 slow) as (w' & E & _ & k' & E' & Htx);
    [lia | lia | lia | right; reflexivity | lia | cbn; lia | discriminate | reflexivity | lia | lia
    | vm_compute; split; congruence | apply small_chunks_streaming; reflexivity | vm_compute; reflexivity
    | repeat constructor; discriminate | lia |].
  exists w'. split; [exact E |]. eexists _, k'. split; [exact E' | rewrite Htx; vm_compute; reflexivity].
Defined.

(** A message is published; two players wait for it on the given connections. *)
Definition published (k1 k2 : ksock) : system :=
  System (offer begin_min (changed (snd (publish_message (small_chunks video_stream))) two_consumers)) Asleep
    {[1 := Player k1 8 At_top; 2 := Player k2 8 At_top]}.

(** The turn of a player, in a system. *)
Definition take_turn (i : Z) (s : system) : outcome where_at * system :=
  match players s !! i with
  | None => (Undef, s)
  | Some x =>
      let '(o, (s', k')) := run begin_min (size x) (where_is x) (sh s, conn x) in
      (o, System s' (pub s) (match o with Ok pc => <[i := Player k' (size x) pc]> (players s) | _ => players s end))
  end.

Lemma take_turn_step i s pc s' :
  take_turn i s = (Ok pc, s') → (∀ x, players s !! i = Some x → where_is x ≠ Returned) → step begin_min s (Run i) s'.
Proof.
  unfold take_turn. destruct s as [s p ps]. cbn [players pub sh]. intros H Hn. destruct (ps !! i) as [x |] eqn:Hx; [| done].
  destruct (run _ _ _ _) as [o [s2 k2]] eqn:E. injection H as -> <-. by apply (step_run _ s p ps i x); [| apply Hn |].
Qed.

Definition sent_to (i : Z) (s : system) : list byte := default [] (k_tx ∘ conn <$> players s !! i).

Definition hello_message : list byte := message_bytes 0 6 80 11 9 1 8 hello.

(** Player 2 runs first and takes the message; player 1 finds nothing. *)
Lemma message_reaches_one_player_witness :
  let s := (take_turn 1 (take_turn 2 (published quick quick)).2).2 in
  sent_to 2 s = hello_message ∧ ∃ i, ∀ j, j ≠ i → players s !! j = players (published quick quick) !! j.
Proof.
  intros s. split; [vm_compute; reflexivity |].
  apply (message_reaches_one_player begin_min begin_min_in)
    with (s := System two_consumers (Receiving (small_chunks video_stream)) (players (published quick quick)))
      (s1 := published quick quick) (ls := [Run 2; Run 1]).
  - apply step_publish. vm_compute. reflexivity.
  - assert (∀ i st x, players st !! i = Some x → where_is (default (Player quick 0 Returned) (players st !! i)) = At_top → where_is x ≠ Returned) as Ht
      by (intros i st x -> H; cbn in H; congruence).
    apply (steps_cons _ _ _ (take_turn 2 (published quick quick)).2).
    { apply (take_turn_step _ _ At_top); [vm_compute; reflexivity |]. intros x Hx. apply (Ht _ _ _ Hx). vm_compute. reflexivity. }
    apply (steps_cons _ _ _ s); [| apply steps_nil].
    apply (take_turn_step _ _ At_top); [vm_compute; reflexivity |]. intros x Hx. apply (Ht _ _ _ Hx). vm_compute. reflexivity.
  - repeat constructor.
  - intros i x Hx. unfold published in Hx. cbn [players] in Hx.
    apply lookup_insert_Some in Hx as [[_ <-] | [_ [_ <-]%lookup_singleton_Some]]; (split; [reflexivity | by apply Forall_nil]).
Defined.

(** While player 1 waits, player 2 is sent the message too and sets the pointer to null; what player 1 does then with
    that pointer is undefined. *)
Example two_players_are_sent_it :
  let s1 := (take_turn 1 (published slow quick)).2 in
  let s2 := (take_turn 2 s1).2 in
  sent_to 1 s2 = take 3 hello_message ∧ sent_to 2 s2 = hello_message ∧
  (take_turn 1 (take_turn 1 s2).2).1 = Undef.
Proof. cbv zeta. split_and!; vm_compute; reflexivity. Qed.

(** The connection of player 1 fails after three bytes: player 2 is sent the message. *)
Example failed_player_leaves_message :
  let s1 := (take_turn 1 (published (conn_with [WrSome 3] [PollEv (-1) 0]) quick)).2 in
  let s2 := (take_turn 1 s1).2 in
  let s3 := (take_turn 2 s2).2 in
  where_is (default (Player quick 0 At_top) (players s2 !! 1)) = Returned ∧ sent_to 1 s3 = take 3 hello_message ∧ sent_to 2 s3 = hello_message.
Proof. cbv zeta. split_and!; vm_compute; reflexivity. Qed.

(** The publisher is resumed while player 1 waits: the rest of the payload is read through an old pointer. *)
Definition resumed (s : system) : system :=
  let w := with_audio_video_buffer [] (globals (sh s)) in System (changed w (sh s)) (Receiving w) (players s).

Lemma resumed_step s : pub s = Asleep → step begin_min s Resume (resumed s).
Proof. destruct s as [s p ps]. cbn. intros ->. apply step_resume. Qed.

Example publisher_clears_too_early :
  let s1 := (take_turn 1 (published slow quick)).2 in
  step begin_min s1 Resume (resumed s1) ∧ (take_turn 1 (resumed s1)).1 = Undef.
Proof. split; [apply resumed_step; vm_compute; reflexivity | vm_compute; reflexivity]. Qed.

(** ... and before player 1 has had a turn: it is sent nothing, and no message is left. *)
Example publisher_is_too_early :
  let s2 := (take_turn 1 (resumed (published quick quick))).2 in
  sent_to 1 s2 = [] ∧ (take_turn 1 (resumed (published quick quick))).1 = Ok At_top ∧
  first_pointer begin_min (consumers (sh s2)) = Some None.
Proof. cbv zeta. split_and!; vm_compute; reflexivity. Qed.
