(* ===== verification/Pool.v ===== *)
(** * examples/server.c: the threads that serve a listening socket

    A process has a pool of threads per listening socket; the thread that accepts a connection keeps
    the pool in balance: it makes another thread when too few are left waiting, and ends after its session when too
    many are.  Threads switch in [st_accept] and in a session only, so what a thread does in between is
    one step here. *)

From stdpp Require Import base list relations.
From Stdlib Require Import Lia ZArith.
From S2P Require Import Prelude.
From S2P Require Import Bytes.
From S2P Require Import StApi.

Local Open Scope Z_scope.

Definition MAX_WAIT_THREADS_DEFAULT : Z := 8.
Definition FD_PER_THREAD : Z := 2.

(** [max_threads], [max_wait_threads], [min_wait_threads]: limits per listening socket. *)
Record throttle := Throttle { max_threads : Z; max_wait_threads : Z; min_wait_threads : Z }.

Definition int_ok (z : Z) : bool := (- 2 ^ 31 <=? z) && (z <? 2 ^ 31).

(** A product that overflows is undefined. *)
Definition mul_int {S : Type} (a b : Z) : M S Z := lift (if int_ok (a * b) then Ok (a * b) else Undef).

Definition default_wait (vp_count n : Z) : M unit Z := if n =? 0 then mul_int MAX_WAIT_THREADS_DEFAULT vp_count else ret n.

Definition default_max (fdlimit vp_count sk_count n : Z) : M unit Z :=
  if n =? 0 then m <- mul_int fdlimit vp_count ;; ret (m ÷ FD_PER_THREAD ÷ sk_count) else ret n.

(** The share of one process, rounded up. *)
Definition per_process (n vp_count : Z) : Z := if negb (Z.rem n vp_count =? 0) then n ÷ vp_count + 1 else n ÷ vp_count.

Definition set_thread_throttling (fdlimit vp_count sk_count : Z) (c : throttle) : M unit throttle :=
  mw <- default_wait vp_count (max_wait_threads c) ;;
  mt <- default_max fdlimit vp_count sk_count (max_threads c) ;;
  let mw := if mt <? mw then mt else mw in
  let mw := per_process mw vp_count in
  let mt := per_process mt vp_count in
  ret (Throttle mt mw (if mw <? min_wait_threads c then mw else min_wait_threads c)).

(** ** The pool *)
(** Where a thread is: made and not yet run, in [st_accept], in [handle_session]. *)
Inductive place := Made | Accepting | Serving.

#[export] Instance place_eq_dec : EqDecision place.
Proof. solve_decision. Defined.

(** The counters of [struct socket_info]. *)
Record socket_info := Info { wait_threads : Z; busy_threads : Z; rqst_count : Z }.

(** [thr]: the threads by number, with the index of their socket; [None]: it has ended. *)
Record pool := Pool { limits : throttle; srv_socket : list socket_info; thr : list (option (nat * place)) }.

Implicit Types (p : pool) (i t : nat).

Definition with_srv_socket v p := Pool (limits p) v (thr p).
Definition with_thr v p := Pool (limits p) (srv_socket p) v.

(** [srv_socket[i]] *)
Definition the_info i : M pool socket_info := λ p,
  match srv_socket p !! i with Some s => (Ok s, p) | None => (Undef, p) end.

Definition set_info i (s : socket_info) : M pool unit := the_info i ;; modify (λ p, with_srv_socket (<[i := s]> (srv_socket p)) p).

Definition add_wait (d : Z) (s : socket_info) : socket_info := Info (wait_threads s + d) (busy_threads s) (rqst_count s).
Definition add_busy (d : Z) (s : socket_info) : socket_info := Info (wait_threads s) (busy_threads s + d) (rqst_count s).
Definition add_rqst (d : Z) (s : socket_info) : socket_info := Info (wait_threads s) (busy_threads s) (rqst_count s + d).
Definition TOTAL_THREADS (s : socket_info) : Z := wait_threads s + busy_threads s.

Definition count_up i (f : socket_info → socket_info) : M pool unit := s <- the_info i ;; set_info i (f s).

Definition put_thread t (x : option (nat * place)) : M pool unit := modify (λ p, with_thr (<[t := x]> (thr p)) p).

(** [st_thread_create] with [handle_connections], when it succeeds. *)
Definition make_thread i : M pool unit := modify (λ p, with_thr (thr p ++ [Some (i, Made)]) p).

(** [while (WAIT_THREADS(i) <= max_wait_threads)], and what follows the loop. *)
Definition loop_test t i : M pool unit :=
  p <- gets id ;;
  s <- the_info i ;;
  if wait_threads s <=? max_wait_threads (limits p) then put_thread t (Some (i, Accepting))
  else count_up i (add_wait (-1)) ;; put_thread t None.

(** After [st_accept] up to the call of [handle_session]; [created]: whether a thread can be made. *)
Definition accepted t i (created : bool) : M pool unit :=
  count_up i (add_wait (-1)) ;;
  count_up i (add_busy 1) ;;
  p <- gets id ;;
  s <- the_info i ;;
  (if (wait_threads s <? min_wait_threads (limits p)) && (TOTAL_THREADS s <? max_threads (limits p)) then
     if created then make_thread i ;; count_up i (add_wait 1) else ret tt
   else ret tt) ;;
  put_thread t (Some (i, Serving)).

(** The end of [handle_session] ([served]: it got to its last line) and the rest of the loop. *)
Definition session_end t i (served : bool) : M pool unit :=
  (if served then count_up i (add_rqst 1) else ret tt) ;;
  count_up i (add_wait 1) ;;
  count_up i (add_busy (-1)) ;;
  loop_test t i.

(** The steps of [handle_connections]. *)
Inductive event := Begin | Accept_failed | Accepted (created : bool) | Session_end (served : bool).

Definition starts_at (ev : event) : place :=
  match ev with Begin => Made | Accept_failed | Accepted _ => Accepting | Session_end _ => Serving end.

Definition handle_connections t (ev : event) : M pool unit := λ p,
  match thr p !! t with
  | Some (Some (i, w)) =>
      if bool_decide (w = starts_at ev) then
        match ev with
        | Begin | Accept_failed => loop_test t i p
        | Accepted created => accepted t i created p
        | Session_end served => session_end t i served p
        end
      else (Undef, p)
  | _ => (Undef, p)
  end.

(** [for (n = 0; n < max_wait_threads; n++)]; [mem]: whether a thread can be made. *)
Fixpoint start_socket (mem : nat → bool) i (n : nat) : M pool unit :=
  match n with
  | O => ret tt
  | S n' => start_socket mem i n' ;; if mem n' then make_thread i ;; count_up i (add_wait 1) else ret tt
  end.

(** [exit(1)] is [Throw]: the process ends. *)
Definition start_threads (mem : nat → nat → bool) : M pool unit :=
  p <- gets id ;;
  for_each (λ i,
    set_info i (Info 0 0 0) ;;
    start_socket (mem i) i (Z.to_nat (max_wait_threads (limits p))) ;;
    s <- the_info i ;;
    if wait_threads s =? 0 then lift Throw else ret tt) (seq 0 (length (srv_socket p))).

(** ** [handle_session] *)
Section session.
Context {S : Type} `{!StSocket S}.

Definition resp : list byte :=
  cstr "HTTP/1.0 200 OK" ++ [x0d; x0a] ++ cstr "Content-type: text/html" ++ [x0d; x0a] ++ cstr "Connection: close" ++
  [x0d; x0a; x0d; x0a] ++ cstr "<H2>It worked!</H2>" ++ [x0a].

(** [true]: the request counts as served. *)
Definition handle_session : M S bool := λ s,
  match st_read s 512 with
  | (None, s) => (Ok false, s)
  | (Some _, s) =>
      let '(n, s) := st_write s resp in
      (Ok (n =? Z.of_nat (length resp)), s)
  end.
End session.

(** ** What each step does *)
Section steps.
Implicit Types (s : socket_info) (x y : option (nat * place)).

Lemma count_up_ok i f p s :
  srv_socket p !! i = Some s → count_up i f p = (Ok tt, with_srv_socket (<[i := f s]> (srv_socket p)) p).
Proof. intros H. unfold count_up, set_info, bind, the_info. by rewrite H, H. Qed.

Lemma the_info_ok i p s : srv_socket p !! i = Some s → the_info i p = (Ok s, p).
Proof. intros H. unfold the_info. by rewrite H. Qed.

Lemma info_insert i p s : (i < length (srv_socket p))%nat → srv_socket (with_srv_socket (<[i := s]> (srv_socket p)) p) !! i = Some s.
Proof. intros H. by apply list_lookup_insert_eq. Qed.

Lemma loop_test_eq t i p s :
  srv_socket p !! i = Some s →
  loop_test t i p = (Ok tt,
    if wait_threads s <=? max_wait_threads (limits p) then with_thr (<[t := Some (i, Accepting)]> (thr p)) p
    else Pool (limits p) (<[i := add_wait (-1) s]> (srv_socket p)) (<[t := None]> (thr p))).
Proof.
  intros H. unfold loop_test. unfold bind at 1. cbn [gets id]. rewrite (bind_ok _ _ _ _ _ (the_info_ok i p s H)).
  destruct (_ <=? _); [done |]. by rewrite (bind_ok _ _ _ _ _ (count_up_ok i _ p s H)).
Qed.

(** Two counters one after the other. *)
Lemma count_up_twice i f g p s (k : unit → M pool unit) :
  srv_socket p !! i = Some s →
  (count_up i f ;; bind (count_up i g) k) p = k tt (with_srv_socket (<[i := g (f s)]> (srv_socket p)) p).
Proof.
  intros H. pose proof (lookup_lt_Some _ _ _ H) as Hi. rewrite (bind_ok _ _ _ _ _ (count_up_ok i f p s H)).
  rewrite (bind_ok _ _ _ _ _ (count_up_ok i g _ _ (info_insert i p (f s) Hi))). f_equal.
  unfold with_srv_socket. cbn. f_equal. apply list_insert_insert_eq.
Qed.

Lemma accepted_eq t i created p s :
  srv_socket p !! i = Some s →
  accepted t i created p = (Ok tt,
    let s1 := add_busy 1 (add_wait (-1) s) in
    if (wait_threads s1 <? min_wait_threads (limits p)) && (TOTAL_THREADS s1 <? max_threads (limits p)) && created
    then Pool (limits p) (<[i := add_wait 1 s1]> (srv_socket p)) (<[t := Some (i, Serving)]> (thr p ++ [Some (i, Made)]))
    else Pool (limits p) (<[i := s1]> (srv_socket p)) (<[t := Some (i, Serving)]> (thr p))).
Proof.
  intros H. pose proof (lookup_lt_Some _ _ _ H) as Hi. unfold accepted. rewrite (count_up_twice i _ _ p s _ H).
  cbn zeta. set (s1 := add_busy 1 (add_wait (-1) s)). set (p1 := with_srv_socket _ p).
  pose proof (info_insert i p s1 Hi) as H1. fold p1 in H1. unfold bind at 1. cbn [gets id].
  rewrite (bind_ok _ _ _ _ _ (the_info_ok i p1 s1 H1)). change (limits p1) with (limits p).
  destruct (_ && _); cbn [andb]; [| done]. destruct created; [| done]. unfold bind at 1, make_thread, bind at 1. cbn [modify].
  set (p2 := with_thr _ p1). rewrite (count_up_ok i (add_wait 1) p2 s1 H1). unfold put_thread. cbn. by rewrite list_insert_insert_eq.
Qed.

Lemma session_end_eq t i served p s :
  srv_socket p !! i = Some s →
  session_end t i served p = loop_test t i
    (with_srv_socket (<[i := add_busy (-1) (add_wait 1 (add_rqst (if served then 1 else 0) s))]> (srv_socket p)) p).
Proof.
  intros H. pose proof (lookup_lt_Some _ _ _ H) as Hi. unfold session_end. destruct served.
  - rewrite (bind_ok _ _ _ _ _ (count_up_ok i _ p s H)).
    rewrite (count_up_twice i _ _ _ _ _ (info_insert i p (add_rqst 1 s) Hi)). unfold with_srv_socket. cbn. by rewrite list_insert_insert_eq.
  - unfold bind at 1. cbn [ret]. rewrite (count_up_twice i _ _ _ _ _ H). do 4 f_equal. destruct s. unfold add_rqst. cbn. by rewrite Z.add_0_r.
Qed.

(** ** Counting threads *)
Definition count (g : option (nat * place) → Z) (l : list (option (nat * place))) : Z := foldr (λ x n, g x + n) 0 l.

Definition waiting i x : Z := match x with Some (j, w) => if decide (j = i ∧ w ≠ Serving) then 1 else 0 | None => 0 end.
Definition busy i x : Z := match x with Some (j, w) => if decide (j = i ∧ w = Serving) then 1 else 0 | None => 0 end.

Lemma count_app g l l' : count g (l ++ l') = count g l + count g l'.
Proof. unfold count. induction l as [| x l IH]; cbn; lia. Qed.

Lemma count_insert g l t x y : l !! t = Some x → count g (<[t := y]> l) = count g l - g x + g y.
Proof.
  revert t. induction l as [| z l IH]; intros [| t] H; try done; cbn [list_insert insert count foldr] in *.
  - injection H as ->. unfold count. cbn. lia.
  - specialize (IH t H). unfold count in *. etransitivity; [exact (f_equal (Z.add (g z)) IH) | cbn; lia].
Qed.

Record counted p : Prop := {
  co_wait i s : srv_socket p !! i = Some s → wait_threads s = count (waiting i) (thr p);
  co_busy i s : srv_socket p !! i = Some s → busy_threads s = count (busy i) (thr p);
  co_index t i w : thr p !! t = Some (Some (i, w)) → is_Some (srv_socket p !! i);
}.

(** A thread of [i] moves, and perhaps another is made for [i]. *)
Lemma counted_move p t i w y new s s' :
  counted p → thr p !! t = Some (Some (i, w)) → srv_socket p !! i = Some s →
  (∀ j v, y = Some (j, v) → j = i) → (new = [] ∨ new = [Some (i, Made)]) →
  wait_threads s' = wait_threads s - waiting i (Some (i, w)) + waiting i y + count (waiting i) new →
  busy_threads s' = busy_threads s - busy i (Some (i, w)) + busy i y →
  counted (Pool (limits p) (<[i := s']> (srv_socket p)) (<[t := y]> (thr p ++ new))).
Proof.
  intros [H1 H2 H3] Ht Hi Hy Hnew Hw Hb. pose proof (lookup_lt_Some _ _ _ Hi) as Hlt. pose proof (lookup_lt_Some _ _ _ Ht) as Htl.
  assert ((thr p ++ new) !! t = Some (Some (i, w))) as Ht' by (by apply lookup_app_l_Some).
  assert (∀ j, j ≠ i → waiting j y = 0 ∧ busy j y = 0 ∧ count (waiting j) new = 0 ∧ count (busy j) new = 0) as Hother.
  { intros j Hj. split_and!; try (destruct Hnew as [-> | ->]; cbn; rewrite ?decide_False by (intros [? _]; congruence); done).
    - destruct y as [[k v] |]; [| done]. rewrite (Hy k v eq_refl). cbn. rewrite decide_False by (intros [? _]; congruence). done.
    - destruct y as [[k v] |]; [| done]. rewrite (Hy k v eq_refl). cbn. rewrite decide_False by (intros [? _]; congruence). done. }
  assert (count (busy i) new = 0) as Hbn.
  { destruct Hnew as [-> | ->]; [done |]. cbn. by rewrite decide_False by (intros [_ ?]; congruence). }
  split; cbn [srv_socket thr].
  - intros j sj Hj. rewrite (count_insert _ _ t _ _ Ht'), count_app. destruct (decide (j = i)) as [-> | Hne].
    + rewrite list_lookup_insert_eq in Hj by done. injection Hj as <-. rewrite Hw, (H1 i s Hi). lia.
    + rewrite list_lookup_insert_ne in Hj by congruence. destruct (Hother j Hne) as (-> & _ & -> & _). rewrite (H1 j sj Hj).
      cbn [waiting]. rewrite decide_False by (intros [? _]; congruence). lia.
  - intros j sj Hj. rewrite (count_insert _ _ t _ _ Ht'), count_app. destruct (decide (j = i)) as [-> | Hne].
    + rewrite list_lookup_insert_eq in Hj by done. injection Hj as <-. rewrite Hb, (H2 i s Hi). lia.
    + rewrite list_lookup_insert_ne in Hj by congruence. destruct (Hother j Hne) as (_ & -> & _ & ->). rewrite (H2 j sj Hj).
      cbn [busy]. rewrite decide_False by (intros [? _]; congruence). lia.
  - intros u j v Hu. apply lookup_lt_is_Some. rewrite length_insert. destruct (decide (u = t)) as [-> | Hne].
    + rewrite list_lookup_insert_eq in Hu by (rewrite length_app; lia). injection Hu as ->. by rewrite (Hy j v eq_refl).
    + rewrite list_lookup_insert_ne in Hu by congruence. apply lookup_app_Some in Hu as [Hu | [_ Hu]].
      * apply lookup_lt_is_Some. by apply (H3 u j v).
      * destruct Hnew as [-> | ->]; [done |]. destruct (u - length (thr p))%nat as [| [|]]; try done. by injection Hu as <- _.
Qed.
End steps.

(** ** Balance *)
Definition limits_ok (c : throttle) : Prop :=
  0 <= min_wait_threads c <= max_wait_threads c ∧ max_wait_threads c <= max_threads c.

Definition within (c : throttle) (s : socket_info) : Prop :=
  0 <= busy_threads s ∧ wait_threads s <= max_wait_threads c ∧ TOTAL_THREADS s <= max_threads c.

(** Enough threads wait, or there are as many as there may be. *)
Definition enough (c : throttle) (s : socket_info) : Prop :=
  min_wait_threads c <= wait_threads s ∨ TOTAL_THREADS s = max_threads c.

Record balanced p : Prop := {
  ba_limits : limits_ok (limits p);
  ba_counted : counted p;
  ba_within i s : srv_socket p !! i = Some s → within (limits p) s;
}.

(** [t] is a thread of [i] for which the step [ev] is next. *)
Definition allowed p t i (ev : event) : Prop := thr p !! t = Some (Some (i, starts_at ev)).

Definition pool_step p p' : Prop := ∃ t i ev, allowed p t i ev ∧ handle_connections t ev p = (Ok tt, p').

(** A step in which no thread that is needed could not be made. *)
Definition pool_step_made p p' : Prop :=
  ∃ t i ev, allowed p t i ev ∧ ev ≠ Accepted false ∧ handle_connections t ev p = (Ok tt, p').

(** One counter record is replaced. *)
Lemma balanced_insert p i s' l (P : throttle → socket_info → Prop) :
  (∀ j s, srv_socket p !! j = Some s → P (limits p) s) → P (limits p) s' →
  ∀ j s, srv_socket (Pool (limits p) (<[i := s']> (srv_socket p)) l) !! j = Some s → P (limits p) s.
Proof.
  intros H Hs j s Hj. cbn in Hj. apply list_lookup_insert_Some in Hj as [(-> & <- & _) | [_ Hj]]; [done | by apply (H j)].
Qed.

(** What a step does to the counters of its socket. *)
Definition stepped (c : throttle) (ev : event) (s s' : socket_info) : Prop :=
  match ev with
  | Begin | Accept_failed => s' = s
  | Accepted created =>
      let s1 := add_busy 1 (add_wait (-1) s) in
      s' = if (wait_threads s1 <? min_wait_threads c) && (TOTAL_THREADS s1 <? max_threads c) && created then add_wait 1 s1 else s1
  | Session_end served =>
      let s1 := add_busy (-1) (add_wait 1 (add_rqst (if served then 1 else 0) s)) in
      s' = if wait_threads s1 <=? max_wait_threads c then s1 else add_wait (-1) s1
  end.

Lemma stepped_within c ev s s' :
  limits_ok c → within c s → 0 < busy_threads s ∨ starts_at ev ≠ Serving → stepped c ev s s' → within c s'.
Proof.
  unfold limits_ok, within, stepped, TOTAL_THREADS. intros Hc Hs Hb H. destruct ev as [| | created | served]; [by subst | by subst | |]; cbn in H.
  - destruct (Z.ltb_spec (wait_threads s + -1) (min_wait_threads c)), (Z.ltb_spec (wait_threads s + -1 + (busy_threads s + 1)) (max_threads c)),
      created; subst s'; cbn; lia.
  - assert (0 < busy_threads s) by (destruct Hb as [? | Hb]; [done | by destruct Hb]).
    destruct (Z.leb_spec (wait_threads s + 1) (max_wait_threads c)); subst s'; cbn; lia.
Qed.

Lemma stepped_enough c ev s s' :
  limits_ok c → within c s → enough c s → ev ≠ Accepted false → stepped c ev s s' → enough c s'.
Proof.
  unfold limits_ok, within, enough, stepped, TOTAL_THREADS. intros Hc Hs He Hev H.
  destruct ev as [| | created | served]; [by subst | by subst | |]; cbn in H.
  - destruct created; [| done].
    destruct (Z.ltb_spec (wait_threads s + -1) (min_wait_threads c)), (Z.ltb_spec (wait_threads s + -1 + (busy_threads s + 1)) (max_threads c));
      subst s'; cbn; lia.
  - destruct (Z.leb_spec (wait_threads s + 1) (max_wait_threads c)); subst s'; cbn; lia.
Qed.

Lemma waiting_at i w : waiting i (Some (i, w)) = match w with Serving => 0 | _ => 1 end.
Proof. unfold waiting. destruct w; [by rewrite decide_True | by rewrite decide_True | by rewrite decide_False by naive_solver]. Qed.

Lemma busy_at i w : busy i (Some (i, w)) = match w with Serving => 1 | _ => 0 end.
Proof. unfold busy. destruct w; [by rewrite decide_False by naive_solver | by rewrite decide_False by naive_solver | by rewrite decide_True]. Qed.

Lemma count_nonneg g (l : list (option (nat * place))) : (∀ x, 0 <= g x) → 0 <= count g l.
Proof. intros H. unfold count. induction l as [| x l IH]; cbn; [done |]. specialize (H x). lia. Qed.

Lemma count_member g (l : list (option (nat * place))) t x : (∀ x, 0 <= g x) → l !! t = Some x → g x <= count g l.
Proof.
  intros H. revert t. induction l as [| z l IH]; intros [| t] Ht; try done; cbn in Ht.
  - injection Ht as ->. pose proof (count_nonneg g l H). unfold count in *. cbn. lia.
  - specialize (IH t Ht). specialize (H z). unfold count in *. cbn. lia.
Qed.

Lemma busy_nonneg i x : 0 <= busy i x.
Proof. destruct x as [[j w] |]; cbn; [case_decide; lia | done]. Qed.

(** Every step that is next happens, and keeps the balance. *)
Lemma pool_step_ok p t i ev :
  balanced p → allowed p t i ev →
  ∃ p' s s', handle_connections t ev p = (Ok tt, p') ∧ balanced p' ∧ limits p' = limits p ∧
    srv_socket p !! i = Some s ∧ srv_socket p' = <[i := s']> (srv_socket p) ∧ stepped (limits p) ev s s'.
Proof.
  intros [Hl Hc Hw] Ha. unfold allowed in Ha. destruct (co_index p Hc _ _ _ Ha) as [s Hs].
  assert (∃ s' y new, handle_connections t ev p = (Ok tt, Pool (limits p) (<[i := s']> (srv_socket p)) (<[t := y]> (thr p ++ new))) ∧
    (∀ j v, y = Some (j, v) → j = i) ∧ (new = [] ∨ new = [Some (i, Made)]) ∧
    wait_threads s' = wait_threads s - waiting i (Some (i, starts_at ev)) + waiting i y + count (waiting i) new ∧
    busy_threads s' = busy_threads s - busy i (Some (i, starts_at ev)) + busy i y ∧ stepped (limits p) ev s s')
    as (s' & y & new & E1 & Hy & Hnew & H1 & H2 & Hst).
  { unfold handle_connections. rewrite Ha, bool_decide_true by done. specialize (Hw i s Hs). unfold within in Hw.
    destruct ev as [| | created | served]; cbn [starts_at].
    1, 2: rewrite (loop_test_eq t i p s Hs), (proj2 (Z.leb_le _ _)) by lia;
      exists s, (Some (i, Accepting)), []; rewrite app_nil_r, (list_insert_id (srv_socket p) i s Hs); rewrite !waiting_at, !busy_at; cbn;
      split_and!; try lia; try (intros ? ? [=]; congruence); eauto.
    - rewrite (accepted_eq t i created p s Hs). cbn zeta. set (s1 := add_busy 1 (add_wait (-1) s)).
      destruct (_ && created) eqn:Hb.
      + exists (add_wait 1 s1), (Some (i, Serving)), [Some (i, Made)]. unfold stepped. fold s1. rewrite Hb.
        rewrite !waiting_at, !busy_at. unfold count. cbn [foldr]. rewrite waiting_at. cbn. split_and!; try lia; try (intros ? ? [=]; congruence); eauto.
      + exists s1, (Some (i, Serving)), []. unfold stepped. fold s1. rewrite Hb, app_nil_r, !waiting_at, !busy_at.
        unfold count. cbn. split_and!; try lia; try (intros ? ? [=]; congruence); eauto.
    - pose proof (lookup_lt_Some _ _ _ Hs) as Hi. rewrite (session_end_eq t i served p s Hs).
      set (s1 := add_busy (-1) (add_wait 1 (add_rqst (if served then 1 else 0) s))).
      rewrite (loop_test_eq t i _ s1) by (by apply info_insert). unfold stepped. fold s1. cbn [limits with_srv_socket srv_socket thr].
      destruct (wait_threads s1 <=? max_wait_threads (limits p)).
      + exists s1, (Some (i, Accepting)), []. rewrite app_nil_r, !waiting_at, !busy_at. unfold count. cbn. split_and!; try lia; try (intros ? ? [=]; congruence); eauto.
      + exists (add_wait (-1) s1), None, []. rewrite app_nil_r, list_insert_insert_eq, waiting_at, busy_at. unfold count. cbn.
        split_and!; try lia; try (intros ? ? [=]; congruence); eauto. }
  eexists _, s, s'. split; [exact E1 |]. split; [| done]. split; [done | by apply (counted_move p t i (starts_at ev) y new s s') |].
  apply (balanced_insert p i s' _ within Hw). apply (stepped_within _ ev s); try done; [by apply (Hw i) |].
  destruct (decide (starts_at ev = Serving)) as [He |]; [left | by right].
  rewrite (co_busy p Hc i s Hs). rewrite He in Ha. pose proof (count_member (busy i) _ t _ (busy_nonneg i) Ha). rewrite busy_at in *. cbn in *. lia.
Qed.

(** ** [start_threads] *)
Definition fresh_info : socket_info := Info 0 0 0.

Lemma counted_make p i s :
  counted p → srv_socket p !! i = Some s →
  counted (Pool (limits p) (<[i := add_wait 1 s]> (srv_socket p)) (thr p ++ [Some (i, Made)])).
Proof.
  intros [H1 H2 H3] Hi. pose proof (lookup_lt_Some _ _ _ Hi) as Hlt. split; cbn [srv_socket thr].
  - intros j sj Hj. rewrite count_app. unfold count at 2. cbn [foldr]. destruct (decide (j = i)) as [-> | Hne].
    + rewrite list_lookup_insert_eq in Hj by done. injection Hj as <-. rewrite waiting_at. cbn. rewrite (H1 i s Hi). lia.
    + rewrite list_lookup_insert_ne in Hj by congruence. rewrite (H1 j sj Hj). cbn [waiting].
      rewrite decide_False by (intros [? _]; congruence). lia.
  - intros j sj Hj. rewrite count_app. unfold count at 2. cbn [foldr]. destruct (decide (j = i)) as [-> | Hne].
    + rewrite list_lookup_insert_eq in Hj by done. injection Hj as <-. rewrite busy_at. cbn. rewrite (H2 i s Hi). lia.
    + rewrite list_lookup_insert_ne in Hj by congruence. rewrite (H2 j sj Hj). cbn [busy].
      rewrite decide_False by (intros [? _]; congruence). lia.
  - intros u j v Hu. apply lookup_lt_is_Some. rewrite length_insert. apply lookup_app_Some in Hu as [Hu | [_ Hu]].
    + apply lookup_lt_is_Some. by apply (H3 u j v).
    + destruct (u - length (thr p))%nat as [| [|]]; try done. by injection Hu as <- _.
Qed.

Lemma start_socket_ok mem i n p s :
  counted p → srv_socket p !! i = Some s →
  ∃ p' s', start_socket mem i n p = (Ok tt, p') ∧ counted p' ∧ limits p' = limits p ∧ srv_socket p' = <[i := s']> (srv_socket p) ∧
    wait_threads s <= wait_threads s' <= wait_threads s + Z.of_nat n ∧ busy_threads s' = busy_threads s ∧
    ((∀ k, (k < n)%nat → mem k = true) → wait_threads s' = wait_threads s + Z.of_nat n) ∧
    (∀ t j w, thr p' !! t = Some (Some (j, w)) → j = i ∨ thr p !! t = Some (Some (j, w))).
Proof.
  intros Hc Hs. induction n as [| n IH]; cbn [start_socket].
  - exists p, s. rewrite list_insert_id by done. split; [done |]. split_and!; try done; try lia. by right.
  - destruct IH as (p1 & s1 & E1 & C1 & L1 & S1 & W1 & B1 & M1 & T1). rewrite (bind_ok _ _ _ _ _ E1).
    pose proof (lookup_lt_Some _ _ _ Hs) as Hi. assert (srv_socket p1 !! i = Some s1) as Hs1 by (by rewrite S1, list_lookup_insert_eq).
    destruct (mem n) eqn:Hm.
    + eexists _, (add_wait 1 s1). split; [unfold bind at 1, make_thread; cbn [modify]; by apply count_up_ok |].
      cbn [with_srv_socket with_thr srv_socket thr limits]. split; [by apply (counted_make p1 i s1) |]. split; [done |].
      split; [by rewrite S1, list_insert_insert_eq |]. cbn. split; [lia |]. split; [done |]. split; [intros H; rewrite M1; [lia | auto] |].
      intros t j w Ht. apply lookup_app_Some in Ht as [Ht | [_ Ht]]; [by apply T1 in Ht |].
      destruct (t - length (thr p1))%nat as [| [|]]; try done. injection Ht as <- _. by left.
    + exists p1, s1. split; [done |]. split_and!; try done; try lia. intros H. rewrite H in Hm by lia. done.
Qed.

(** The sockets below [k] have their threads, the others have none. *)
Record started k p : Prop := {
  sd_counted : counted p;
  sd_below t i w : thr p !! t = Some (Some (i, w)) → (i < k)%nat;
  sd_done i s : (i < k)%nat → srv_socket p !! i = Some s → 0 < wait_threads s <= max_wait_threads (limits p) ∧ busy_threads s = 0;
  sd_fresh i s : (k <= i)%nat → srv_socket p !! i = Some s → s = fresh_info;
}.

Definition all_made (mem : nat → nat → bool) : Prop := ∀ i n, mem i n = true.

Definition filled (c : throttle) (s : socket_info) : Prop := wait_threads s = max_wait_threads c.

Lemma start_one mem k p s :
  0 <= max_wait_threads (limits p) → started k p → srv_socket p !! k = Some s →
  ∃ p' s', (set_info k (Info 0 0 0) ;; start_socket (mem k) k (Z.to_nat (max_wait_threads (limits p))) ;;
      s <- the_info k ;; if wait_threads s =? 0 then lift Throw else ret tt) p = (if wait_threads s' =? 0 then Throw else Ok tt, p') ∧
    limits p' = limits p ∧ srv_socket p' = <[k := s']> (srv_socket p) ∧ (wait_threads s' ≠ 0 → started (S k) p') ∧
    (all_made mem → filled (limits p) s').
Proof.
  intros H0 [Hc Hb Hd Hf] Hs. pose proof (Hf k s (le_n k) Hs) as ->. pose proof (lookup_lt_Some _ _ _ Hs) as Hlt.
  assert (set_info k (Info 0 0 0) p = (Ok tt, p)) as E0.
  { unfold set_info. rewrite (bind_ok _ _ _ _ _ (the_info_ok k p _ Hs)). cbn. unfold with_srv_socket. rewrite list_insert_id by done. by destruct p. }
  rewrite (bind_ok _ _ _ _ _ E0).
  destruct (start_socket_ok (mem k) k (Z.to_nat (max_wait_threads (limits p))) p fresh_info Hc Hs)
    as (p' & s' & E1 & C1 & L1 & S1 & W1 & B1 & M1 & T1). cbn [wait_threads fresh_info] in *.
  rewrite (bind_ok _ _ _ _ _ E1). assert (srv_socket p' !! k = Some s') as Hs' by (by rewrite S1, list_lookup_insert_eq).
  rewrite (bind_ok _ _ _ _ _ (the_info_ok k p' s' Hs')). exists p', s'. split; [by destruct (wait_threads s' =? 0) |].
  split; [done |]. split; [done |]. split.
  - intros Hn. split; [done | | |].
    + intros t i w Ht. destruct (T1 t i w Ht) as [-> | Ht']; [lia |]. specialize (Hb t i w Ht'). lia.
    + intros i si Hi Hsi. rewrite L1. rewrite S1 in Hsi. apply list_lookup_insert_Some in Hsi as [(<- & <- & _) | [Hne Hsi]]; [split; [lia | done] |].
      apply (Hd i); [lia | done].
    + intros i si Hi Hsi. rewrite S1 in Hsi. rewrite list_lookup_insert_ne in Hsi by lia. apply (Hf i); [lia | done].
  - intros Hall. unfold filled. rewrite M1 by (intros; apply Hall). lia.
Qed.

Lemma start_threads_ok mem c n p :
  limits_ok c → start_threads mem (Pool c (replicate n fresh_info) []) = (Ok tt, p) →
  balanced p ∧ limits p = c ∧ length (srv_socket p) = n ∧
  (all_made mem → ∀ i s, srv_socket p !! i = Some s → enough c s).
Proof.
  intros Hl H. unfold start_threads in H. unfold bind at 1 in H. cbn [gets id srv_socket limits] in H. rewrite length_replicate in H.
  set (p0 := Pool c (replicate n fresh_info) []) in *.
  assert (started 0 p0) as H0.
  { split; [split | by intros t i w Ht | lia | intros i s _ Hs; by apply lookup_replicate in Hs as [-> _]];
      [intros i s Hs; by apply lookup_replicate in Hs as [-> _] .. | done]. }
  set (body := λ i, _) in H.
  assert (∀ m k p1, started k p1 → limits p1 = c → length (srv_socket p1) = (k + m)%nat →
    (all_made mem → ∀ i s, (i < k)%nat → srv_socket p1 !! i = Some s → filled c s) →
    for_each body (seq k m) p1 = (Ok tt, p) →
    started (k + m) p ∧ limits p = c ∧ length (srv_socket p) = (k + m)%nat ∧
    (all_made mem → ∀ i s, (i < k + m)%nat → srv_socket p !! i = Some s → filled c s)) as Hloop.
  { induction m as [| m IH]; intros k p1 Hst Hc1 Hlen Hfill Hrun; cbn [seq for_each] in Hrun.
    - injection Hrun as <-. by rewrite Nat.add_0_r in *.
    - destruct (lookup_lt_is_Some_2 (srv_socket p1) k) as [s Hs]; [lia |].
      destruct (start_one mem k p1 s) as (p2 & s' & E1 & L1 & S1 & Hst' & Hm); [rewrite Hc1; unfold limits_ok in Hl; lia | done | done |].
      rewrite Hc1 in E1. unfold bind at 1 in Hrun. fold body in E1. unfold body at 1 in Hrun. rewrite E1 in Hrun.
      destruct (Z.eqb_spec (wait_threads s') 0) as [| Hn]; [done |]. replace (k + S m)%nat with (S k + m)%nat by lia.
      apply (IH (S k) p2); [by apply Hst' | congruence | rewrite S1, length_insert; lia | | done].
      intros Hall i si Hi Hsi. rewrite S1 in Hsi. apply list_lookup_insert_Some in Hsi as [(<- & <- & _) | [Hne Hsi]]; [rewrite <- Hc1; by apply Hm |].
      apply (Hfill Hall i); [lia | done]. }
  destruct (Hloop n 0%nat p0 H0) as (Hst & Hc & Hlen & Hfill); [done | apply length_replicate | lia | done |].
  assert (∀ i s, srv_socket p !! i = Some s → (i < 0 + n)%nat) as Hidx by (intros i s Hs%lookup_lt_Some; lia).
  split; [split; [by rewrite Hc | apply Hst |] | split; [done | split; [done |]]].
  - intros i s Hs. destruct (sd_done _ _ Hst i s (Hidx i s Hs) Hs) as [Hw Hb]. rewrite Hc in *. unfold within, TOTAL_THREADS, limits_ok in *. lia.
  - intros Hall i s Hs. left. rewrite (Hfill Hall i s (Hidx i s Hs) Hs). apply Hl.
Qed.

(** ** Theorems *)
Lemma per_process_ok n vp : 0 <= n → 1 <= vp → 0 <= per_process n vp ∧ n <= vp * per_process n vp < n + vp.
Proof.
  intros Hn Hv. unfold per_process. rewrite Z.quot_div_nonneg, Z.rem_mod_nonneg by lia.
  pose proof (Z.div_mod n vp). pose proof (Z.mod_pos_bound n vp). pose proof (Z.div_pos n vp).
  destruct (Z.eqb_spec (n mod vp) 0); cbn [negb]; nia.
Qed.

Lemma per_process_mono m n vp : 0 <= m <= n → 1 <= vp → per_process m vp <= per_process n vp.
Proof. intros Hm Hv. pose proof (per_process_ok m vp). pose proof (per_process_ok n vp). nia. Qed.

(** [set_thread_throttling] does not overflow for the numbers a system has, and its limits are in order: at most [min_wait_threads]
    is at most [max_wait_threads], and that at most [max_threads]; all processes together have at least as many threads as were asked for, and less than one
    per process more. *)
Theorem throttling_ok fdlimit vp sk c :
  1 <= vp → 1 <= sk → 0 <= fdlimit → 0 <= min_wait_threads c → 0 <= max_wait_threads c → 0 <= max_threads c →
  MAX_WAIT_THREADS_DEFAULT * vp < 2 ^ 31 → fdlimit * vp < 2 ^ 31 →
  let wanted := if max_threads c =? 0 then fdlimit * vp / FD_PER_THREAD / sk else max_threads c in
  ∃ c', set_thread_throttling fdlimit vp sk c tt = (Ok c', tt) ∧ limits_ok c' ∧ min_wait_threads c' <= min_wait_threads c ∧
    wanted <= vp * max_threads c' < wanted + vp ∧ (0 < wanted → 0 < max_wait_threads c').
Proof.
  intros Hv Hs Hf H1 H2 H3 O1 O2 wanted. unfold MAX_WAIT_THREADS_DEFAULT, FD_PER_THREAD in *.
  assert (∃ mw, default_wait vp (max_wait_threads c) tt = (Ok mw, tt) ∧ 0 < mw) as (mw & E1 & Hmw).
  { unfold default_wait, mul_int, MAX_WAIT_THREADS_DEFAULT, int_ok. destruct (Z.eqb_spec (max_wait_threads c) 0).
    - rewrite (proj2 (Z.leb_le _ _)), (proj2 (Z.ltb_lt _ _)) by lia. eexists. split; [reflexivity | lia].
    - eexists. split; [reflexivity | lia]. }
  assert (default_max fdlimit vp sk (max_threads c) tt = (Ok wanted, tt) ∧ 0 <= wanted) as [E2 Hmt].
  { unfold default_max, mul_int, FD_PER_THREAD, int_ok, wanted. destruct (Z.eqb_spec (max_threads c) 0); [| done].
    assert (0 <= fdlimit * vp) by nia. rewrite (proj2 (Z.leb_le _ _)), (proj2 (Z.ltb_lt _ _)) by lia. cbn.
    pose proof (Z.div_pos (fdlimit * vp) 2). pose proof (Z.div_pos (fdlimit * vp / 2) sk). rewrite (Z.quot_div_nonneg (fdlimit * vp) 2), (Z.quot_div_nonneg (fdlimit * vp / 2) sk) by lia.
    split; [done | lia]. }
  unfold set_thread_throttling. rewrite (bind_ok _ _ _ _ _ E1), (bind_ok _ _ _ _ _ E2). eexists. split; [reflexivity |].
  set (mw' := if wanted <? mw then wanted else mw). assert (0 <= mw' <= wanted ∧ (0 < wanted → 0 < mw')) as [Hle Hpos].
  { unfold mw'. destruct (Z.ltb_spec wanted mw); lia. }
  pose proof (per_process_ok mw' vp) as P1. pose proof (per_process_ok wanted vp Hmt Hv) as P2.
  pose proof (per_process_mono mw' wanted vp Hle Hv) as P3. cbn [max_wait_threads min_wait_threads max_threads].
  unfold limits_ok. cbn [max_wait_threads min_wait_threads max_threads].
  destruct (Z.ltb_spec (per_process mw' vp) (min_wait_threads c)); split_and!; nia.
Qed.

Lemma steps_balanced p p' : rtc pool_step p p' → balanced p → balanced p' ∧ limits p' = limits p.
Proof.
  induction 1 as [p | p1 p2 p3 (t & i & ev & Ha & E) _ IH]; intros Hb; [done |].
  destruct (pool_step_ok p1 t i ev Hb Ha) as (p2' & _ & _ & E' & Hb2 & L2 & _). assert (p2' = p2) as -> by congruence.
  destruct (IH Hb2) as [? ?]. split; [done | congruence].
Qed.

(** C24: from [start_threads] on, in whatever order the threads of a process run, accept connections and end sessions, the counters of every listening socket are the numbers of
    its threads that wait and that serve a connection; at most [max_wait_threads] wait and at most [max_threads] exist; every step of every
    thread is defined, and a thread that was just made always gets to [st_accept]. *)
Theorem pool_is_balanced mem c n p0 p :
  limits_ok c → start_threads mem (Pool c (replicate n fresh_info) []) = (Ok tt, p0) → rtc pool_step p0 p →
  (∀ i s, srv_socket p !! i = Some s →
    wait_threads s = count (waiting i) (thr p) ∧ busy_threads s = count (busy i) (thr p) ∧
    wait_threads s <= max_wait_threads c ∧ TOTAL_THREADS s <= max_threads c) ∧
  (∀ t i ev, allowed p t i ev → ∃ p', handle_connections t ev p = (Ok tt, p')) ∧
  (∀ t i, allowed p t i Begin → handle_connections t Begin p = (Ok tt, with_thr (<[t := Some (i, Accepting)]> (thr p)) p)).
Proof.
  intros Hl E0 Hr. destruct (start_threads_ok mem c n p0 Hl E0) as (Hb0 & Hc0 & _). destruct (steps_balanced _ _ Hr Hb0) as [Hb Hc].
  rewrite Hc0 in Hc. split; [| split].
  - intros i s Hs. destruct (ba_within p Hb i s Hs) as (_ & H1 & H2). rewrite Hc in *.
    split; [by apply (co_wait p (ba_counted p Hb)) |]. split; [by apply (co_busy p (ba_counted p Hb)) | done].
  - intros t i ev Ha. destruct (pool_step_ok p t i ev Hb Ha) as (p' & _ & _ & E & _). by exists p'.
  - intros t i Ha. destruct (co_index p (ba_counted p Hb) _ _ _ Ha) as [s Hs]. destruct (ba_within p Hb i s Hs) as (_ & H1 & _).
    unfold handle_connections. unfold allowed in Ha. cbn [starts_at] in Ha. rewrite Ha, bool_decide_true by done.
    by rewrite (loop_test_eq t i p s Hs), (proj2 (Z.leb_le _ _)).
Qed.

(** C25: as long as threads can be made, every listening socket has at least [min_wait_threads] threads waiting for connections, or as many threads as it
    may have. *)
Theorem pool_has_spares mem c n p0 p :
  limits_ok c → all_made mem → start_threads mem (Pool c (replicate n fresh_info) []) = (Ok tt, p0) → rtc pool_step_made p0 p →
  ∀ i s, srv_socket p !! i = Some s → min_wait_threads c <= wait_threads s ∨ TOTAL_THREADS s = max_threads c.
Proof.
  intros Hl Hm E0 Hr. destruct (start_threads_ok mem c n p0 Hl E0) as (Hb0 & Hc0 & _ & He0). specialize (He0 Hm).
  change (∀ i s, srv_socket p !! i = Some s → enough c s). clear E0. induction Hr as [p | p1 p2 p3 (t & i & ev & Ha & Hev & E) _ IH]; [done |].
  destruct (pool_step_ok p1 t i ev Hb0 Ha) as (p2' & s & s' & E' & Hb2 & L2 & Hs & S2 & Hst). assert (p2' = p2) as -> by congruence.
  rewrite Hc0 in L2, Hst. apply IH; [done | done |]. intros j sj Hj. rewrite S2 in Hj.
  apply list_lookup_insert_Some in Hj as [(<- & <- & _) | [_ Hj]]; [| by apply (He0 j)].
  apply (stepped_enough c ev s); try done; [| by apply (He0 i)]. rewrite <- Hc0. by apply (ba_within p1 Hb0 i).
Qed.

(** ** Two sockets, at most two waiting threads and three threads each *)
Definition small : throttle := Throttle 3 2 1.

Definition small_pool : pool := (start_threads (λ _ _, true) (Pool small (replicate 2 fresh_info) [])).2.

(** Both threads of the first socket accept; the second of them makes another. *)
Definition small_steps : list (nat * event) :=
  [(0%nat, Begin); (1%nat, Begin); (0%nat, Accepted true); (1%nat, Accepted true); (4%nat, Begin); (1%nat, Session_end true); (1%nat, Accept_failed)].

Definition run_steps (l : list (nat * event)) : M pool unit := for_each (λ x, handle_connections x.1 x.2) l.

Definition small_end : pool := (run_steps small_steps small_pool).2.

Lemma run_steps_rtc l p p' :
  run_steps l p = (Ok tt, p') → (∀ t ev, (t, ev) ∈ l → ev ≠ Accepted false) → rtc pool_step_made p p'.
Proof.
  revert p. induction l as [| [t ev] l IH]; intros p H Hev; [injection H as <-; apply rtc_refl |].
  unfold run_steps in *. cbn [for_each] in H. unfold bind in H. cbn [fst snd] in H.
  destruct (handle_connections t ev p) as [[[] | | | |] p1] eqn:E1; try done. apply rtc_l with p1; [| apply IH; [done |]; intros u e Hu; apply (Hev u e); by right].
  unfold handle_connections in E1. destruct (thr p !! t) as [[[i w] |] |] eqn:Ht; try done.
  destruct (decide (w = starts_at ev)) as [-> |]; [| by rewrite bool_decide_false in E1].
  exists t, i, ev. split; [done |]. split; [apply (Hev t ev); left |]. unfold handle_connections. by rewrite Ht.
Qed.

Lemma made_steps p p' : rtc pool_step_made p p' → rtc pool_step p p'.
Proof. apply rtc_subrel. intros p1 p2 (t & i & ev & Ha & _ & E). by exists t, i, ev. Qed.

Lemma small_run : rtc pool_step_made small_pool small_end.
Proof.
  apply (run_steps_rtc small_steps); [vm_compute; reflexivity |]. unfold small_steps. intros t ev H.
  repeat (apply elem_of_cons in H as [H | H]; [by injection H as _ -> |]). by apply not_elem_of_nil in H.
Qed.

Lemma pool_is_balanced_witness :
  srv_socket small_end !! 0%nat = Some (Info 2 1 1) ∧ TOTAL_THREADS (Info 2 1 1) <= max_threads small ∧
  ∃ p', handle_connections 0 (Session_end false) small_end = (Ok tt, p').
Proof.
  assert (srv_socket small_end !! 0%nat = Some (Info 2 1 1)) as H0 by (vm_compute; reflexivity).
  destruct (pool_is_balanced (λ _ _, true) small 2 small_pool small_end) as (H1 & H2 & _);
    [vm_compute; split; [split; discriminate | discriminate] | vm_compute; reflexivity | apply made_steps, small_run |].
  split; [exact H0 |]. split; [apply (H1 0%nat _ H0) |]. apply (H2 0%nat 0%nat (Session_end false)). vm_compute. reflexivity.
Defined.

Lemma pool_has_spares_witness :
  srv_socket small_end !! 0%nat = Some (Info 2 1 1) ∧ (1 <= 2 ∨ TOTAL_THREADS (Info 2 1 1) = 3).
Proof.
  assert (srv_socket small_end !! 0%nat = Some (Info 2 1 1)) as H0 by (vm_compute; reflexivity).
  split; [exact H0 |]. apply (pool_has_spares (λ _ _, true) small 2 small_pool small_end) with (i := 0%nat) (s := Info 2 1 1);
    [vm_compute; split; [split; discriminate | discriminate] | done | vm_compute; reflexivity | apply small_run | exact H0].
Defined.

(** A request that is read is answered completely, if the connection stays healthy. *)
Lemma handle_session_ok {S : Type} `{!StSocket S, !StSocketLaws S} (s s1 : S) bs :
  st_read s 512 = (Some bs, s1) → healthy s1 →
  ∃ s', handle_session s = (Ok true, s') ∧ tx s' = tx s1 ++ resp ∧ rx s' = rx s1.
Proof.
  intros Hr Hh. destruct (st_write_healthy s1 resp Hh) as (s' & Hw & Hrx & Htx & _). exists s'.
  unfold handle_session. by rewrite Hr, Hw, Z.eqb_refl.
Qed.
