(* ===== verification/Watchdog.v ===== *)
(** * examples/server.c: the watchdog and the signals

    The first process forks the others ("virtual processors"), each with an index of its own, and from then on waits for one of
    them to end and forks another in its place.  [fork] returns in two processes: the parent goes on with the watchdog,
    and the child goes back to [main] with its index.  Signals are forwarded by the watchdog; in a
    child the handler writes them into a pipe that a thread reads. *)

From stdpp Require Import base list gmap relations.
From Stdlib Require Import Lia ZArith.
From S2P Require Import Prelude.
From S2P Require Import Bytes.

Local Open Scope Z_scope.

(** [vp_pids] is allocated for the [vp_count] of the start. *)
Record watchdog := Watchdog { vp_count : nat; vp_pids : list Z }.

Implicit Types (d : watchdog) (i : nat).

Definition with_vp_count v d := Watchdog v (vp_pids d).
Definition with_vp_pids v d := Watchdog (vp_count d) v.

(** [fork]: -1; 0, in the child; the pid, in the parent. *)
Inductive forked := Fork_failed | In_child | In_parent (pid : Z).

(** [vp_pids[i] = pid] *)
Definition set_pid i (pid : Z) : M watchdog unit := λ d,
  if bool_decide (i < length (vp_pids d))%nat then (Ok tt, with_vp_pids (<[i := pid]> (vp_pids d)) d) else (Undef, d).

(** The loop that forks [n] processes from index [i] on; [Some i]: this is the process of index [i].  [exit] is [Throw]. *)
Fixpoint start_vps (forks : nat → forked) i (n : nat) : M watchdog (option nat) :=
  match n with
  | O => ret None
  | S n =>
      match forks i with
      | Fork_failed => if bool_decide (i = 0%nat) then lift Throw else modify (with_vp_count i) ;; ret None
      | In_child => ret (Some i)
      | In_parent pid => set_pid i pid ;; start_vps forks (S i) n
      end
  end.

(** [wait]: -1 with [EINTR], -1 with another [errno], or a child. *)
Inductive waited := Wait_intr | Wait_failed | Waited (pid : Z).

(** [for (i = 0; i < vp_count; i++) if (vp_pids[i] == pid) break;] *)
Definition index_of (pid : Z) d : nat :=
  match list_find (λ p, p = pid) (take (vp_count d) (vp_pids d)) with Some (i, _) => i | None => vp_count d end.

(** One round of the loop that never ends.  A round is one step: a signal between the return of [wait] and [sigprocmask]
    (after which signals are blocked until the round is over) would still be sent to the process that ended. *)
Definition watch (w : waited) (f : forked) : M watchdog (option nat) :=
  match w with
  | Wait_intr => ret None
  | Wait_failed => lift Throw
  | Waited pid =>
      d <- gets id ;;
      let i := index_of pid d in
      match f with
      | Fork_failed => set_pid i (-1) ;; ret None
      | In_child => ret (Some i)
      | In_parent p => set_pid i p ;; ret None
      end
  end.

(** ** Signals *)
Definition SIGHUP : Z := 1.
Definition SIGUSR1 : Z := 10.
Definition SIGTERM : Z := 15.

(** What a handler does besides reporting. *)
Inductive action :=
| Kill (pid signo : Z)
| Logbuf_flush
| Logbuf_close
| Logbuf_open
| Reopen_errors
| Load_configs
| Dump_server_info
| Unlink_pid_file
| Exit (status : Z).

(** The pids the signal is forwarded to. *)
Definition forwards d : list Z := filter (λ p, 0 < p) (take (vp_count d) (vp_pids d)).

(** [open_ok]: whether the file of errors can be opened; otherwise the process quits. *)
Definition reopen_errors (open_ok : bool) : list action := if open_ok then [Reopen_errors] else [Reopen_errors; Exit 1].

Definition wdog_sighandler (log_access open_ok : bool) (signo : Z) d : list action :=
  ((λ p, Kill p signo) <$> forwards d) ++
  (if signo =? SIGHUP then (if log_access then [Logbuf_close; Logbuf_open] else []) ++ reopen_errors open_ok
   else if signo =? SIGTERM then [Unlink_pid_file; Exit 0]
   else []).

(** One round of [process_signals]. *)
Definition process_signal (interactive log_access open_ok : bool) (signo : Z) : list action :=
  if signo =? SIGHUP then
    if interactive then [Load_configs] else
    (if log_access then [Logbuf_flush; Logbuf_close; Logbuf_open] else []) ++ reopen_errors open_ok ++
    (if open_ok then [Load_configs] else [])
  else if signo =? SIGTERM then (if log_access then [Logbuf_flush] else []) ++ [Exit 0]
  else if signo =? SIGUSR1 then [Dump_server_info]
  else [].

(** The pipe; [room]: how many bytes it takes.  A write that is not complete ends the process. *)
Definition child_sighandler (room : list byte → nat) (signo : Z) : M (list byte) unit := λ pipe,
  if bool_decide (room pipe < 4)%nat then (Throw, pipe) else (Ok tt, pipe ++ le_bytes 4 (wrap 32 signo)).

(** [st_read(sig_pipe[0], &signo, sizeof(int), ...)]: what the pipe has, at most four bytes; [None]: it blocks. *)
Definition read_signal (pipe : list byte) : option (outcome Z * list byte) :=
  match pipe with
  | [] => None
  | _ => Some (if bool_decide (length (take 4 pipe) = 4%nat) then Ok (of_le_s 32 (take 4 pipe)) else Throw, drop 4 pipe)
  end.

(** [exit] does not return. *)
Definition ends (l : list action) : bool := existsb (λ a, match a with Exit _ => true | _ => false end) l.

(** [process_signals] until the pipe is empty or the process ends; a round takes at least a byte. *)
Fixpoint drain (fuel : nat) (handle : Z → list action) (pipe : list byte) : outcome (list action) :=
  match fuel with
  | O => Hang
  | S fuel =>
      match read_signal pipe with
      | None => Ok []
      | Some (Ok signo, pipe) =>
          if ends (handle signo) then Ok (handle signo) else omap (app (handle signo)) (drain fuel handle pipe)
      | Some (_, _) => Throw
      end
  end.

(** What is done of a sequence of signals: everything, in order, up to the first that ends the process. *)
Fixpoint work_of (handle : Z → list action) (signos : list Z) : list action :=
  match signos with
  | [] => []
  | signo :: l => if ends (handle signo) then handle signo else handle signo ++ work_of handle l
  end.

(** ** The processes *)
(** What the array holds once [n] of [n] slots are to be filled from the [i]th on: [calloc] has cleared it. *)
Definition fresh (n : nat) : watchdog := Watchdog n (replicate n 0).

(** [kids]: the children that have not been waited for, with the index each of them has. *)
Record family := Family { dog : watchdog; kids : gmap Z nat }.

Implicit Types (s : family).

(** The loop of the start: both returns of every [fork].  [pids i]: 0 if the [i]th [fork] fails. *)
Definition forks_of (pids : nat → Z) i : forked := if 0 <? pids i then In_parent (pids i) else Fork_failed.

(** The processes made by the first [n] forks. *)
Definition born (pids : nat → Z) (n : nat) : gmap Z nat := list_to_map ((λ i, (pids i, i)) <$> seq 0 n).

Inductive family_step s : family → Prop :=
| interrupted : family_step s s
| replaced pid p i d' :
    pid ∈ dom (kids s) → 0 < p → p ∉ dom (delete pid (kids s)) →
    watch (Waited pid) In_child (dog s) = (Ok (Some i), dog s) →
    watch (Waited pid) (In_parent p) (dog s) = (Ok None, d') →
    family_step s (Family d' (<[p := i]> (delete pid (kids s))))
| not_replaced pid d' :
    pid ∈ dom (kids s) → watch (Waited pid) Fork_failed (dog s) = (Ok None, d') →
    family_step s (Family d' (delete pid (kids s))).

(** Every process has a slot of its own, and the slot is its index. *)
Record known s : Prop := {
  kn_count : (vp_count (dog s) <= length (vp_pids (dog s)))%nat;
  kn_kids p i : kids s !! p = Some i ↔ 0 < p ∧ (i < vp_count (dog s))%nat ∧ vp_pids (dog s) !! i = Some p;
}.

Lemma index_of_kid s p i : known s → kids s !! p = Some i → index_of p (dog s) = i.
Proof.
  intros [Hc Hk] H. pose proof (proj1 (Hk p i) H) as (Hp & Hi & Hs). unfold index_of.
  assert (take (vp_count (dog s)) (vp_pids (dog s)) !! i = Some p) as Ht by (rewrite lookup_take_lt; done).
  destruct (list_find (λ q, q = p) _) as [[j q] |] eqn:Hf.
  - apply list_find_Some in Hf as (Hj & -> & _). apply lookup_take_Some in Hj as [Hj Hjc].
    pose proof (proj2 (Hk p j) (conj Hp (conj Hjc Hj))) as H'. congruence.
  - apply list_find_None in Hf. rewrite Forall_forall in Hf. by destruct (Hf p (list_elem_of_lookup_2 _ _ _ Ht)).
Qed.

Lemma set_pid_ok i p d : (i < length (vp_pids d))%nat → set_pid i p d = (Ok tt, with_vp_pids (<[i := p]> (vp_pids d)) d).
Proof. intros H. unfold set_pid. by rewrite bool_decide_true. Qed.

(** Every return of [fork] in a round of the watchdog. *)
Lemma watch_ok s pid i f :
  known s → kids s !! pid = Some i →
  watch (Waited pid) f (dog s) =
    match f with
    | In_child => (Ok (Some i), dog s)
    | Fork_failed => (Ok None, with_vp_pids (<[i := -1]> (vp_pids (dog s))) (dog s))
    | In_parent p => (Ok None, with_vp_pids (<[i := p]> (vp_pids (dog s))) (dog s))
    end.
Proof.
  intros Hk H. unfold watch. unfold bind at 1. cbn [gets id]. rewrite (index_of_kid s pid i Hk H).
  pose proof (proj1 (kn_kids s Hk pid i) H) as (_ & Hi & _). pose proof (kn_count s Hk).
  destruct f; [| done |]; by rewrite (bind_ok _ _ _ _ _ (set_pid_ok i _ (dog s) ltac:(lia))).
Qed.

(** The slot of a process gets another pid, or -1. *)
Lemma known_replace s pid i p :
  known s → kids s !! pid = Some i → (p ≤ 0 ∨ p ∉ dom (delete pid (kids s))) →
  known (Family (with_vp_pids (<[i := p]> (vp_pids (dog s))) (dog s))
    (if 0 <? p then <[p := i]> (delete pid (kids s)) else delete pid (kids s))).
Proof.
  intros [Hc Hk] H Hp. pose proof (proj1 (Hk pid i) H) as (Hpos & Hi & Hs). split; cbn [dog kids with_vp_pids vp_count vp_pids].
  { by rewrite length_insert. }
  assert (∀ q j, delete pid (kids s) !! q = Some j ↔ 0 < q ∧ (j < vp_count (dog s))%nat ∧ j ≠ i ∧ vp_pids (dog s) !! j = Some q) as Hd.
  { intros q j. rewrite lookup_delete_Some, Hk. split.
    - intros (Hne & H1 & H2 & H3). split_and!; try done. intros ->. congruence.
    - intros (H1 & H2 & H3 & H4). split_and!; try done. intros <-. apply H3. pose proof (proj2 (Hk pid j) (conj H1 (conj H2 H4))). congruence. }
  assert (i < length (vp_pids (dog s)))%nat as Hlt by (by eapply lookup_lt_Some).
  assert (∀ q j, <[i := p]> (vp_pids (dog s)) !! j = Some q ↔ j = i ∧ q = p ∨ j ≠ i ∧ vp_pids (dog s) !! j = Some q) as Hins.
  { intros q j. rewrite list_lookup_insert_Some. naive_solver. }
  intros q j. rewrite Hins. destruct (Z.ltb_spec 0 p) as [Hp0 | Hp0].
  - destruct Hp as [? | Hp]; [lia |]. rewrite lookup_insert_Some, Hd. split; [naive_solver |].
    intros (H1 & H2 & [[-> ->] | [H3 H4]]); [by left | right]. split; [| done].
    intros ->. apply Hp. apply elem_of_dom. exists j. by apply Hd.
  - rewrite Hd. split; [naive_solver |]. intros (H1 & H2 & [[-> ->] | H3]); [lia | tauto].
Qed.

Lemma step_known s s' : family_step s s' → known s → known s'.
Proof.
  intros H Hk. destruct H as [| pid p i d' [j Hj]%elem_of_dom Hp Hn Ec Ep | pid d' [j Hj]%elem_of_dom Ef]; [done | |].
  - rewrite (watch_ok s pid j In_child Hk Hj) in Ec. rewrite (watch_ok s pid j (In_parent p) Hk Hj) in Ep. injection Ec as <-. injection Ep as <-.
    pose proof (known_replace s pid j p Hk Hj (or_intror Hn)) as H. by rewrite (proj2 (Z.ltb_lt 0 p) Hp) in H.
  - rewrite (watch_ok s pid j _ Hk Hj) in Ef. injection Ef as <-.
    assert (-1 ≤ 0) as Hm by done. exact (known_replace s pid j (-1) Hk Hj (or_introl Hm)).
Qed.

(** ** The start *)
(** As many processes as forks before the first that fails. *)
Lemma start_vps_ok pids n : ∀ i d,
  (0 < i)%nat ∨ 0 < pids 0%nat → (i + n = vp_count d)%nat → length (vp_pids d) = vp_count d →
  (∀ j, (j < i)%nat → 0 < pids j ∧ vp_pids d !! j = Some (pids j)) →
  ∃ d', start_vps (forks_of pids) i n d = (Ok None, d') ∧ (i <= vp_count d' <= length (vp_pids d'))%nat ∧
    ∀ j, (j < vp_count d')%nat → 0 < pids j ∧ vp_pids d' !! j = Some (pids j).
Proof.
  induction n as [| n IH]; intros i d Hi Hn Hl Hd; cbn [start_vps].
  - exists d. split_and!; [done | lia.. | intros j Hj; apply Hd; lia].
  - destruct (forks_of pids i) as [| | p] eqn:Ef; unfold forks_of in Ef; destruct (Z.ltb_spec 0 (pids i)) as [Hp | Hp]; try done.
    + assert (i ≠ 0%nat) by (intros ->; destruct Hi; lia). rewrite bool_decide_false by done.
      exists (with_vp_count i d). cbn [with_vp_count vp_count vp_pids]. split; [done | split; [lia | done]].
    + injection Ef as <-. erewrite bind_ok by (apply set_pid_ok; lia).
      destruct (IH (S i) (with_vp_pids (<[i := pids i]> (vp_pids d)) d)) as (d' & E & Hl' & Hs);
        [.. | exists d'; split; [done | split; [lia | done]]]; cbn [with_vp_pids vp_count vp_pids].
      * left. lia.
      * lia.
      * by rewrite length_insert.
      * intros j Hj. destruct (decide (j = i)) as [-> | Hne]; [rewrite list_lookup_insert_eq by lia; done |].
        rewrite list_lookup_insert_ne by done. apply Hd. lia.
Qed.

(** Pids are positive and no two processes share one. *)
Definition distinct (pids : nat → Z) : Prop := ∀ i j, 0 < pids i → pids i = pids j → i = j.

Lemma born_lookup pids n p i :
  distinct pids → (∀ j, (j < n)%nat → 0 < pids j) → born pids n !! p = Some i ↔ (i < n)%nat ∧ p = pids i.
Proof.
  intros Hd Hp. unfold born. rewrite <- elem_of_list_to_map.
  - rewrite list_elem_of_fmap. setoid_rewrite elem_of_seq. naive_solver lia.
  - rewrite <- list_fmap_compose. apply NoDup_fmap_2_strong; [| apply NoDup_seq].
    intros j k [_ Hj]%elem_of_seq _ He. apply Hd; [apply Hp; lia | done].
Qed.

Lemma start_known pids n :
  distinct pids → (0 < n)%nat → 0 < pids 0%nat →
  ∃ d, start_vps (forks_of pids) 0 n (fresh n) = (Ok None, d) ∧ known (Family d (born pids (vp_count d))).
Proof.
  intros Hd Hn H0. destruct (start_vps_ok pids n 0 (fresh n)) as (d & E & Hl & Hs).
  - by right.
  - done.
  - apply length_replicate.
  - lia.
  - exists d. split; [done |]. split; cbn [dog kids]; [lia |]. intros p i.
    rewrite born_lookup; [| done | intros j Hj; by apply Hs]. split.
    + intros [Hi ->]. by destruct (Hs i Hi).
    + intros (_ & Hi & Hp). destruct (Hs i Hi) as [_ Hs']. split; [done | congruence].
Qed.

Lemma steps_known s s' : rtc family_step s s' → known s → known s'.
Proof. induction 1; eauto using step_known. Qed.

Lemma forwards_kids s p : known s → p ∈ forwards (dog s) ↔ p ∈ dom (kids s).
Proof.
  intros [Hc Hk]. unfold forwards. rewrite list_elem_of_filter, list_elem_of_lookup, elem_of_dom. unfold is_Some.
  setoid_rewrite Hk. setoid_rewrite lookup_take_Some. naive_solver.
Qed.

Lemma kills_forwards log_access open_ok signo d p sent :
  Kill p sent ∈ wdog_sighandler log_access open_ok signo d ↔ p ∈ forwards d ∧ sent = signo.
Proof.
  unfold wdog_sighandler. rewrite elem_of_app, list_elem_of_fmap.
  assert (Kill p sent ∉ (if signo =? SIGHUP then (if log_access then [Logbuf_close; Logbuf_open] else []) ++ reopen_errors open_ok
   else if signo =? SIGTERM then [Unlink_pid_file; Exit 0] else [])) as Hn.
  { destruct (signo =? SIGHUP), (signo =? SIGTERM), log_access, open_ok; cbn; rewrite ?elem_of_cons; set_solver. }
  naive_solver.
Qed.

(** C26: however the processes end and whichever forks fail, the watchdog of a server that could fork at all keeps its
    processes apart: no two have the same index; a signal that arrives while it waits is sent to those and only those it has
    started and not waited for; when one of them ends and [fork] succeeds, the new process gets its index and its place in the
    array; when [fork] fails the place is marked with -1, and nothing is ever forked for it again ([lost_process]). *)
Theorem watchdog_keeps_track pids n log_access open_ok signo :
  distinct pids → (0 < n)%nat → 0 < pids 0%nat →
  ∃ d, start_vps (forks_of pids) 0 n (fresh n) = (Ok None, d) ∧
    ∀ s, rtc family_step (Family d (born pids (vp_count d))) s →
      (∀ p q i, kids s !! p = Some i → kids s !! q = Some i → p = q) ∧
      (∀ p, Kill p signo ∈ wdog_sighandler log_access open_ok signo (dog s) ↔ p ∈ dom (kids s)) ∧
      ∀ p i, kids s !! p = Some i →
        (i < vp_count (dog s))%nat ∧ watch (Waited p) In_child (dog s) = (Ok (Some i), dog s) ∧
        (∀ q, watch (Waited p) (In_parent q) (dog s) = (Ok None, with_vp_pids (<[i := q]> (vp_pids (dog s))) (dog s))) ∧
        watch (Waited p) Fork_failed (dog s) = (Ok None, with_vp_pids (<[i := -1]> (vp_pids (dog s))) (dog s)).
Proof.
  intros Hd Hn H0. destruct (start_known pids n Hd Hn H0) as (d & E & Hk). exists d. split; [done |].
  intros s Hs. apply (steps_known _ _ Hs) in Hk as Hk'. split_and!.
  - intros p q i Hp Hq. apply (kn_kids s Hk') in Hp as (_ & _ & Hp), Hq as (_ & _ & Hq). congruence.
  - intros p. rewrite kills_forwards, <- (forwards_kids s p Hk'). tauto.
  - intros p i Hp. split; [by destruct (proj1 (kn_kids s Hk' p i) Hp) as (_ & Hi & _) |].
    split_and!; [exact (watch_ok s p i In_child Hk' Hp) | intros q; exact (watch_ok s p i (In_parent q) Hk' Hp) |
      exact (watch_ok s p i Fork_failed Hk' Hp)].
Qed.

(** Two processes, of which the first ends and is replaced. *)
Lemma watchdog_keeps_track_witness :
  ∃ d, start_vps (forks_of (λ i, 100 + Z.of_nat i)) 0 2 (fresh 2) = (Ok None, d) ∧
    Kill 200 SIGHUP ∈ wdog_sighandler false true SIGHUP (Watchdog 2 [200; 101]) ∧
    watch (Waited 200) In_child (Watchdog 2 [200; 101]) = (Ok (Some 0%nat), Watchdog 2 [200; 101]).
Proof.
  destruct (watchdog_keeps_track (λ i, 100 + Z.of_nat i) 2 false true SIGHUP) as (d & E & H).
  - intros i j _ Hij. lia.
  - lia.
  - lia.
  - exists d. split; [exact E |]. vm_compute in E. injection E as <-.
    destruct (H (Family (Watchdog 2 [200; 101]) (<[200 := 0%nat]> (delete 100 (born (λ i, 100 + Z.of_nat i) 2))))) as (_ & Hf & Hw).
    + apply rtc_once.
      apply (replaced (Family (Watchdog 2 [100; 101]) (born (λ i, 100 + Z.of_nat i) 2)) 100 200 0 (Watchdog 2 [200; 101])).
      * apply elem_of_dom. exists 0%nat. reflexivity.
      * done.
      * apply not_elem_of_dom. reflexivity.
      * reflexivity.
      * reflexivity.
    + split; [apply Hf; apply elem_of_dom; exists 0%nat; reflexivity | apply (Hw 200 0%nat); reflexivity].
Defined.

(** ** A slot that is lost *)
Lemma slot_kept s s' i :
  rtc family_step s s' → known s → (i < vp_count (dog s))%nat → vp_pids (dog s) !! i = Some (-1) →
  known s' ∧ vp_pids (dog s') !! i = Some (-1).
Proof.
  induction 1 as [| s s1 s' H Hs IH]; [done |]. intros Hk Hi Hl. pose proof (step_known _ _ H Hk) as Hk1. apply IH; [done | |].
  - destruct H as [| pid p j d' [k Hj]%elem_of_dom _ _ _ Ep | pid d' [k Hj]%elem_of_dom Ef]; [done | |].
    + rewrite (watch_ok s pid k (In_parent p) Hk Hj) in Ep. by injection Ep as <-.
    + rewrite (watch_ok s pid k Fork_failed Hk Hj) in Ef. by injection Ef as <-.
  - destruct H as [| pid p j d' [k Hj]%elem_of_dom _ _ _ Ep | pid d' [k Hj]%elem_of_dom Ef]; [done | |];
      pose proof (proj1 (kn_kids s Hk pid k) Hj) as (Hpos & _ & Hs'); assert (k ≠ i) by (intros ->; rewrite Hl in Hs'; injection Hs'; lia).
    + rewrite (watch_ok s pid k (In_parent p) Hk Hj) in Ep. injection Ep as <-. cbn. by rewrite list_lookup_insert_ne.
    + rewrite (watch_ok s pid k Fork_failed Hk Hj) in Ef. injection Ef as <-. cbn. by rewrite list_lookup_insert_ne.
Qed.

(** A process that ends when [fork] fails is never replaced: no later process has its index. *)
Theorem lost_process s pid i d' s' :
  known s → kids s !! pid = Some i → watch (Waited pid) Fork_failed (dog s) = (Ok None, d') →
  rtc family_step (Family d' (delete pid (kids s))) s' → ∀ p, kids s' !! p ≠ Some i.
Proof.
  intros Hk H Ef Hs p Hp. rewrite (watch_ok s pid i Fork_failed Hk H) in Ef. injection Ef as <-.
  pose proof (proj1 (kn_kids s Hk pid i) H) as (_ & Hi & Hl). apply lookup_lt_Some in Hl.
  assert (-1 ≤ 0) as Hm by done. pose proof (known_replace s pid i (-1) Hk H (or_introl Hm)) as Hk1. cbn [Z.ltb Z.compare] in Hk1.
  destruct (slot_kept _ s' i Hs Hk1 Hi) as [Hk' Hl']; [cbn; by rewrite list_lookup_insert_eq |].
  apply (kn_kids s' Hk') in Hp as (Hpos & _ & Hp). rewrite Hl' in Hp. injection Hp. lia.
Qed.

(** ** Signals are handled in the order they are caught *)
Definition raise (room : list byte → nat) (signos : list Z) : M (list byte) unit := for_each (child_sighandler room) signos.

(** The image of signals in the pipe. *)
Definition image (signos : list Z) : list byte := signos ≫= le_bytes 4.

Lemma length_image signos : length (image signos) = (4 * length signos)%nat.
Proof.
  induction signos as [| x l IH]; [done |]. change (image (x :: l)) with (le_bytes 4 x ++ image l).
  rewrite length_app, length_le_bytes, IH. cbn. lia.
Qed.

Lemma raise_ok room signos : ∀ pipe,
  (∀ l, (length l < length pipe + 4 * length signos)%nat → (4 <= room l)%nat) →
  raise room signos pipe = (Ok tt, pipe ++ image signos).
Proof.
  unfold raise. induction signos as [| x l IH]; intros pipe Hr; cbn [for_each].
  - by rewrite app_nil_r.
  - unfold bind, child_sighandler at 1. rewrite bool_decide_false by (assert (4 <= room pipe)%nat by (apply Hr; cbn; lia); lia).
    rewrite (le_bytes_wrap 4), IH, <- app_assoc; [done |]. intros k Hk. apply Hr. rewrite length_app, length_le_bytes in Hk. cbn. lia.
Qed.

Lemma drain_image handle signos :
  Forall (λ z, - 2 ^ 31 <= z < 2 ^ 31) signos → drain (S (length signos)) handle (image signos) = Ok (work_of handle signos).
Proof.
  induction 1 as [| x l Hx Hl IH]; [done |]. cbn [length]. remember (S (length l)) as n eqn:En.
  cbn [drain]. unfold read_signal.
  replace (image (x :: l)) with (le_bytes 4 x ++ image l) by done.
  destruct (le_bytes 4 x ++ image l) as [| b pipe] eqn:Ep.
  { apply (f_equal length) in Ep. rewrite length_app, length_le_bytes in Ep. cbn in Ep. lia. }
  rewrite <- Ep. rewrite take_app_length', drop_app_length' by (by rewrite length_le_bytes).
  rewrite bool_decide_true by (apply length_le_bytes). rewrite (of_le_s_le_bytes 4) by (cbn; lia).
  cbn [work_of]. destruct (ends (handle x)); [done |]. by rewrite IH.
Qed.

(** What [process_signals] does is the work of the signals caught, in order, when the pipe takes them. *)
Theorem signals_in_order room handle signos :
  Forall (λ z, - 2 ^ 31 <= z < 2 ^ 31) signos → (∀ l, (length l < 4 * length signos)%nat → (4 <= room l)%nat) →
  ∃ pipe, raise room signos [] = (Ok tt, pipe) ∧ drain (S (length signos)) handle pipe = Ok (work_of handle signos).
Proof.
  intros Hs Hr. exists (image signos). split; [by apply (raise_ok room signos []) | by apply drain_image].
Qed.
