(* ===== verification/Args.v ===== *)
(** * examples/: numbers, addresses and options of a command line

    [read_address] of proxy.c; [parse_arguments], the addresses of [create_listeners] and [dump_server_info] of server.c.
    [inet_addr] and [gethostbyname] are parameters. *)

From stdpp Require Import base list.
From Stdlib Require Import Lia ZArith.
From S2P Require Import Prelude.
From S2P Require Import Bytes.
From S2P Require Import Pool.

Local Open Scope Z_scope.

(** ** Numbers *)
Definition is_digit (b : byte) : bool := (0x30 <=? uc b) && (uc b <=? 0x39).
Definition is_space (b : byte) : bool := (uc b =? 0x20) || ((0x09 <=? uc b) && (uc b <=? 0x0d)).

(** The digits at the front, after the number [n]. *)
Fixpoint scan_digits (n : Z) (l : list byte) : Z * list byte :=
  match l with
  | b :: l' => if is_digit b then scan_digits (10 * n + (uc b - 0x30)) l' else (n, l)
  | [] => (n, [])
  end.

Fixpoint skip_spaces (l : list byte) : list byte :=
  match l with b :: l' => if is_space b then skip_spaces l' else l | [] => [] end.

(** The number and what follows it; without digits nothing is read. *)
Definition scan_int (l : list byte) : Z * list byte :=
  let l' := skip_spaces l in
  let '(sign, l') := match l' with x2d :: r => (-1, r) | x2b :: r => (1, r) | _ => (1, l') end in
  match l' with
  | b :: _ => if is_digit b then let '(n, r) := scan_digits 0 l' in (sign * n, r) else (0, l)
  | [] => (0, l)
  end.

(** [strtol(str, &end, 10)]: clamped to the range of a [long]. *)
Definition strtol (l : list byte) : Z * list byte :=
  let '(n, r) := scan_int l in (Z.max (- 2 ^ 63) (Z.min n (2 ^ 63 - 1)), r).

(** [atoi]: no behaviour is defined for numbers outside the range. *)
Definition atoi (l : list byte) : outcome Z :=
  let n := (scan_int l).1 in if int_ok n then Ok n else Undef.

(** [strchr(str, ':')]: what is before and after it. *)
Fixpoint split_colon (l : list byte) : option (list byte * list byte) :=
  match l with
  | [] => None
  | b :: l => if bool_decide (b = x3a) then Some ([], l) else match split_colon l with Some (h, p) => Some (b :: h, p) | None => None end
  end.

Definition htons (v : Z) : Z := (v mod 256) * 256 + v / 256.

(** ** proxy.c *)
(** [sin_port] is in network order; [sin_addr] are the four bytes in memory. *)
Record sockaddr_in := Sin { sin_port : Z; sin_addr : list byte }.

Definition INADDR_ANY : list byte := [x00; x00; x00; x00].

(** [inet_addr]: [None] is INADDR_NONE; [gethostbyname]: the [h_length] bytes of the first address. *)
Class Names := {
  inet_addr : list byte → option (list byte);
  gethostbyname : list byte → option (list byte);
}.

Section addresses.
Context `{Names}.
Implicit Types (str host : list byte).

(** [memcpy(&sin->sin_addr, hp->h_addr, hp->h_length)] *)
Definition copy_h_addr (a : list byte) : outcome (list byte) := if bool_decide (length a = 4%nat) then Ok a else Undef.

Definition resolve host : outcome (list byte) :=
  match inet_addr host with
  | Some a => Ok a
  | None => match gethostbyname host with None => Throw | Some a => copy_h_addr a end
  end.

(** [host] has 128 bytes; [exit] is [Throw]. *)
Definition read_address str : M unit sockaddr_in :=
  if bool_decide (128 <= length str)%nat then lift Undef else
  match split_colon str with
  | None => lift Throw
  | Some (host, p) =>
      n <- lift (atoi p) ;;
      let port := wrap 16 n in
      if port <? 1 then lift Throw else
      if bool_decide (host = []) then ret (Sin (htons port) INADDR_ANY)
      else a <- lift (resolve host) ;; ret (Sin (htons port) a)
  end.

(** ** server.c: addresses *)
Definition SERV_PORT_DEFAULT : Z := 8000.
Definition ANY_ADDRESS : list byte := cstr "0.0.0.0".

(** The address and the port of a socket, and what [bind] is given. *)
Definition listen_address (addr : list byte) : M unit (list byte * Z * sockaddr_in) :=
  '(host, port) <- (match split_colon addr with
                    | Some (host, c) => n <- lift (atoi c) ;; ret (host, wrap 16 n)
                    | None => ret (addr, 0)
                    end) ;;
  let host := if bool_decide (host = []) then ANY_ADDRESS else host in
  let port := if port =? 0 then SERV_PORT_DEFAULT else port in
  a <- lift (resolve host) ;; ret (host, port, Sin (htons port) a).
End addresses.

(** ** server.c: options *)
Definition MAX_BIND_ADDRS : nat := 16.
Definition LISTENQ_SIZE_DEFAULT : Z := 256.

Record options := Options {
  bind_addrs : list (list byte);
  o_vp_count : Z;
  logdir : option (list byte);
  o_max_threads : Z;
  o_max_wait_threads : Z;
  username : option (list byte);
  listenq_size : Z;
  log_access : bool;
  interactive_mode : bool;
  serialize_accept : bool;
}.

Definition no_options : options := Options [] 0 None 0 0 None LISTENQ_SIZE_DEFAULT false false false.

(** What [getopt] gives, with [optarg]. *)
Inductive opt := Opt_b (arg : list byte) | Opt_p (arg : list byte) | Opt_l (arg : list byte) | Opt_t (arg : list byte)
  | Opt_u (arg : list byte) | Opt_q (arg : list byte) | Opt_a | Opt_i | Opt_S | Opt_usage.

Definition set_bind_addrs v o := Options v (o_vp_count o) (logdir o) (o_max_threads o) (o_max_wait_threads o) (username o) (listenq_size o) (log_access o) (interactive_mode o) (serialize_accept o).
Definition set_vp_count v o := Options (bind_addrs o) v (logdir o) (o_max_threads o) (o_max_wait_threads o) (username o) (listenq_size o) (log_access o) (interactive_mode o) (serialize_accept o).
Definition set_logdir v o := Options (bind_addrs o) (o_vp_count o) v (o_max_threads o) (o_max_wait_threads o) (username o) (listenq_size o) (log_access o) (interactive_mode o) (serialize_accept o).
Definition set_threads v w o := Options (bind_addrs o) (o_vp_count o) (logdir o) v w (username o) (listenq_size o) (log_access o) (interactive_mode o) (serialize_accept o).
Definition set_username v o := Options (bind_addrs o) (o_vp_count o) (logdir o) (o_max_threads o) (o_max_wait_threads o) v (listenq_size o) (log_access o) (interactive_mode o) (serialize_accept o).
Definition set_listenq v o := Options (bind_addrs o) (o_vp_count o) (logdir o) (o_max_threads o) (o_max_wait_threads o) (username o) v (log_access o) (interactive_mode o) (serialize_accept o).
Definition set_flags a i s o := Options (bind_addrs o) (o_vp_count o) (logdir o) (o_max_threads o) (o_max_wait_threads o) (username o) (listenq_size o) a i s.

(** A colon, and [max_threads = atoi(c)]. *)
Definition limit_after (c : list byte) (mt : Z) : outcome Z :=
  match c with x3a :: c => atoi c | _ => Ok mt end.

(** [usage] and [err_quit] end the process; [strdup] does not fail. *)
Definition parse_option (x : opt) : M options unit :=
  o <- gets id ;;
  match x with
  | Opt_b arg =>
      if bool_decide (MAX_BIND_ADDRS <= length (bind_addrs o))%nat then lift Throw
      else modify (set_bind_addrs (bind_addrs o ++ [arg]))
  | Opt_p arg => n <- lift (atoi arg) ;; modify (set_vp_count n) ;; if n <? 1 then lift Throw else ret tt
  | Opt_l arg => modify (set_logdir (Some arg))
  | Opt_t arg =>
      let '(n, c) := strtol arg in
      let mw := swrap 32 n in
      mt <- lift (limit_after c (o_max_threads o)) ;;
      modify (set_threads mt mw) ;;
      if (mw <? 0) || (mt <? 0) then lift Throw else ret tt
  | Opt_u arg => modify (set_username (Some arg))
  | Opt_q arg => n <- lift (atoi arg) ;; modify (set_listenq n) ;; if n <? 1 then lift Throw else ret tt
  | Opt_a => modify (λ o, set_flags true (interactive_mode o) (serialize_accept o) o)
  | Opt_i => modify (λ o, set_flags (log_access o) true (serialize_accept o) o)
  | Opt_S => modify (λ o, set_flags (log_access o) (interactive_mode o) true o)
  | Opt_usage => lift Throw
  end.

(** [cpus]: what [cpu_count] returns. *)
Definition parse_arguments (cpus : Z) (opts : list opt) : M options unit :=
  for_each parse_option opts ;;
  o <- gets id ;;
  (if bool_decide (logdir o = None) && negb (interactive_mode o) then lift Throw else ret tt) ;;
  (if o_vp_count o =? 0 then modify (set_vp_count (if cpus <? 1 then 1 else cpus)) else ret tt) ;;
  (if bool_decide (bind_addrs o = []) then modify (set_bind_addrs [ANY_ADDRESS]) else ret tt).

(** ** server.c: [dump_server_info] *)
(** [%d] and [%u]: the digits of a number. *)
Definition digit (n : Z) : byte := to_byte (0x30 + n).

Fixpoint digits (fuel : nat) (n : Z) : list byte :=
  match fuel with
  | O => []
  | S fuel => if n <? 10 then [digit n] else digits fuel (n / 10) ++ [digit (n mod 10)]
  end.

(** Ten digits are enough for 32 bits. *)
Definition fmt_u (n : Z) : list byte := digits 10 n.
Definition fmt_d (n : Z) : list byte := if n <? 0 then x2d :: fmt_u (- n) else fmt_u n.

Definition info_head (my_index my_pid : Z) : list byte :=
  [x0a; x0a] ++ cstr "Process #" ++ fmt_d my_index ++ cstr " (pid " ++ fmt_d my_pid ++ cstr "):" ++ [x0a].

Definition info_socket (c : throttle) (i : Z) (addr : list byte) (port : Z) (s : socket_info) : list byte :=
  [x0a] ++ cstr "Listening Socket #" ++ fmt_d i ++ cstr ":" ++ [x0a] ++
  cstr "-------------------------" ++ [x0a] ++
  cstr "Address                    " ++ addr ++ cstr ":" ++ fmt_u port ++ [x0a] ++
  cstr "Thread limits (min/max)    " ++ fmt_d (max_wait_threads c) ++ cstr "/" ++ fmt_d (max_threads c) ++ [x0a] ++
  cstr "Waiting threads            " ++ fmt_d (wait_threads s) ++ [x0a] ++
  cstr "Busy threads               " ++ fmt_d (busy_threads s) ++ [x0a] ++
  cstr "Requests served            " ++ fmt_d (rqst_count s) ++ [x0a].

(** [sprintf(buf + len, ...)]: the text and its terminator fit [buf], or are written past it. *)
Definition sprintf (size : nat) (text : list byte) : M (list byte) unit := λ buf,
  if bool_decide (length buf + length text < size)%nat then (Ok tt, buf ++ text) else (Undef, buf).

(** What is written to stderr; [None]: [malloc] failed. *)
Definition dump_server_info (mem : bool) (my_index my_pid : Z) (c : throttle) (socks : list (list byte * Z * socket_info)) :
    M (list byte) (option (list byte)) :=
  if negb mem then ret None else
  let size := (length socks * 512)%nat in
  sprintf size (info_head my_index my_pid) ;;
  for_each (λ x, let '(i, (addr, port, s)) := x in sprintf size (info_socket c (Z.of_nat i) addr port s)) (imap pair socks) ;;
  buf <- gets id ;; ret (Some buf).

(** ** Numbers are read back *)
Lemma digit_ok n : 0 <= n < 10 → is_digit (digit n) = true ∧ uc (digit n) - 0x30 = n.
Proof.
  intros Hn. unfold is_digit, digit. rewrite uc_to_byte, Z.mod_small by lia.
  rewrite (proj2 (Z.leb_le _ _)), (proj2 (Z.leb_le _ _)) by lia. split; [done | lia].
Qed.

Lemma scan_digits_ok fuel : ∀ a n r,
  0 <= n < 10 ^ Z.of_nat fuel →
  scan_digits a (digits fuel n ++ r) = scan_digits (a * 10 ^ Z.of_nat (length (digits fuel n)) + n) r.
Proof.
  induction fuel as [| fuel IH]; intros a n r Hn; [cbn in *; f_equal; lia |]. cbn [digits]. destruct (Z.ltb_spec n 10).
  - destruct (digit_ok n ltac:(lia)) as [H1 H2]. cbn [app scan_digits length]. rewrite H1, H2. f_equal. rewrite Z.pow_1_r. lia.
  - rewrite Nat2Z.inj_succ, Z.pow_succ_r in Hn by lia. rewrite <- app_assoc, IH.
    2: { split; [apply Z.div_pos; lia | apply Z.div_lt_upper_bound; lia]. }
    pose proof (Z.mod_pos_bound n 10 ltac:(lia)) as Hm. destruct (digit_ok (n mod 10) Hm) as [H1 H2]. cbn [app scan_digits]. rewrite H1, H2.
    f_equal. rewrite length_app. cbn [length]. rewrite Nat.add_1_r, Nat2Z.inj_succ, Z.pow_succ_r by lia.
    pose proof (Z.div_mod n 10 ltac:(lia)). nia.
Qed.

(** The first digit. *)
Lemma digits_head fuel n : (0 < fuel)%nat → 0 <= n → ∃ d l, 0 <= d < 10 ∧ digits fuel n = digit d :: l.
Proof.
  revert n. induction fuel as [| fuel IH]; intros n Hf Hn; [lia |]. cbn [digits]. destruct (Z.ltb_spec n 10); [by exists n, [] |].
  destruct fuel as [| fuel].
  - exists (n mod 10), []. split; [apply Z.mod_pos_bound; lia | done].
  - destruct (IH (n / 10)) as (d & l & Hd & E); [lia | apply Z.div_pos; lia |]. exists d, (l ++ [digit (n mod 10)]). split; [done |].
    by rewrite E.
Qed.

Lemma scan_int_ok n : 0 <= n < 10 ^ 10 → scan_int (fmt_u n) = (n, []).
Proof.
  intros Hn. destruct (digits_head 10 n) as (d & l & Hd & E); [lia.. |]. unfold scan_int.
  pose proof (digit_ok d Hd) as [H1 H2]. pose proof (scan_digits_ok 10 0 n [] ltac:(lia)) as Hs. rewrite app_nil_r in Hs. fold (fmt_u n) in *.
  assert (skip_spaces (fmt_u n) = fmt_u n) as ->.
  { rewrite E. cbn [skip_spaces]. unfold is_space. rewrite (proj2 (Z.eqb_neq _ _)), (proj2 (Z.leb_gt (uc (digit d)) _)) by lia.
    by rewrite andb_false_r. }
  assert (digit d ≠ x2d ∧ digit d ≠ x2b) as [H3 H4].
  { split; intros Hx; rewrite Hx in H2; vm_compute in H2; lia. }
  assert ((match fmt_u n with x2d :: r => (-1, r) | x2b :: r => (1, r) | _ => (1, fmt_u n) end) = (1, fmt_u n)) as ->.
  { rewrite E. by destruct (digit d). }
  rewrite E at 1. rewrite H1, Hs. cbn [scan_digits]. do 2 f_equal. lia.
Qed.

Lemma atoi_ok n : 0 <= n < 2 ^ 31 → atoi (fmt_u n) = Ok n.
Proof.
  intros Hn. unfold atoi. rewrite scan_int_ok by lia. cbn [fst]. unfold int_ok. by rewrite (proj2 (Z.leb_le _ _)), (proj2 (Z.ltb_lt _ _)) by lia.
Qed.

Lemma split_colon_ok host p : x3a ∉ host → split_colon (host ++ x3a :: p) = Some (host, p).
Proof.
  induction host as [| b host IH]; intros Hh; cbn [app split_colon]; [by rewrite bool_decide_true |].
  apply not_elem_of_cons in Hh as [Hb Hh]. rewrite bool_decide_false by done. by rewrite (IH Hh).
Qed.

(** ** Addresses *)
Section read.
Context `{Names}.

(** An address of the form host:port is read as that host and that port. *)
Theorem read_address_ok host port :
  x3a ∉ host → 0 < port < 65536 → (length (host ++ x3a :: fmt_u port) < 128)%nat →
  read_address (host ++ x3a :: fmt_u port) tt =
    (omap (Sin (htons port)) (if bool_decide (host = []) then Ok INADDR_ANY else resolve host), tt).
Proof.
  intros Hh Hp Hl. unfold read_address. rewrite bool_decide_false by lia. rewrite split_colon_ok by done.
  rewrite atoi_ok by lia. unfold bind at 1. cbn [lift]. rewrite wrap_small by lia. rewrite (proj2 (Z.ltb_ge _ _)) by lia.
  case_bool_decide; [done |]. unfold bind. cbn [lift]. by destruct (resolve host).
Qed.

(** A longer string overflows the array. *)
Lemma long_address_overflows str : (128 <= length str)%nat → read_address str tt = (Undef, tt).
Proof. intros Hl. unfold read_address. by rewrite bool_decide_true. Qed.

(** A port is cut to 16 bits. *)
Lemma port_wraps host port :
  x3a ∉ host → 0 < port < 65536 → (length (host ++ x3a :: fmt_u (port + 65536)) < 128)%nat →
  read_address (host ++ x3a :: fmt_u (port + 65536)) tt =
    (omap (Sin (htons port)) (if bool_decide (host = []) then Ok INADDR_ANY else resolve host), tt).
Proof.
  intros Hh Hp Hl. unfold read_address. rewrite bool_decide_false by lia. rewrite split_colon_ok by done.
  rewrite atoi_ok by lia. unfold bind at 1. cbn [lift]. unfold wrap. replace (port + 65536) with (port + 1 * 2 ^ 16) by lia.
  rewrite Z.mod_add, Z.mod_small by lia. rewrite (proj2 (Z.ltb_ge _ _)) by lia. case_bool_decide; [done |].
  unfold bind. cbn [lift]. by destruct (resolve host).
Qed.
End read.

(** ** Options *)
(** What every option keeps, and what holds at the end. *)
Record options_ok (o : options) : Prop := {
  oo_addrs : (length (bind_addrs o) <= MAX_BIND_ADDRS)%nat;
  oo_vps : 0 <= o_vp_count o < 2 ^ 31;
  oo_max : 0 <= o_max_threads o < 2 ^ 31;
  oo_wait : 0 <= o_max_wait_threads o < 2 ^ 31;
  oo_listenq : 1 <= listenq_size o < 2 ^ 31;
}.

Lemma atoi_range l n : atoi l = Ok n → - 2 ^ 31 <= n < 2 ^ 31.
Proof.
  unfold atoi, int_ok. destruct (_ && _) eqn:E; [| done]. intros [= <-].
  apply andb_true_iff in E as [?%Z.leb_le ?%Z.ltb_lt]. done.
Qed.

Lemma parse_option_ok x o o' : options_ok o → parse_option x o = (Ok tt, o') → options_ok o'.
Proof.
  intros [H1 H2 H3 H4 H5]. unfold parse_option, bind. cbn [gets id]. destruct x; cbn.
  - case_bool_decide; [done |]. intros [= <-]. split; cbn; try done. rewrite length_app. cbn. lia.
  - destruct (atoi arg) as [n | | | |] eqn:E; try done. apply atoi_range in E. cbn. destruct (Z.ltb_spec n 1); [done |].
    intros [= <-]. split; cbn; try done. lia.
  - intros [= <-]. by split.
  - destruct (strtol arg) as [n c]. destruct (limit_after c (o_max_threads o)) as [mt | | | |] eqn:E; try done. cbn.
    pose proof (swrap_range 32 n ltac:(lia)). destruct (Z.ltb_spec (swrap 32 n) 0); [done |]. destruct (Z.ltb_spec mt 0); [done |].
    intros [= <-]. split; cbn; try done; [| lia].
    assert (- 2 ^ 31 <= mt < 2 ^ 31); [| lia]. unfold limit_after in E. destruct c as [| [] c]; try (by injection E as <-; lia).
    by apply atoi_range in E.
  - intros [= <-]. by split.
  - destruct (atoi arg) as [n | | | |] eqn:E; try done. apply atoi_range in E. cbn. destruct (Z.ltb_spec n 1); [done |].
    intros [= <-]. split; cbn; try done. lia.
  - intros [= <-]. by split.
  - intros [= <-]. by split.
  - intros [= <-]. by split.
  - done.
Qed.

Lemma parse_options_ok opts : ∀ o o', options_ok o → for_each parse_option opts o = (Ok tt, o') → options_ok o'.
Proof.
  induction opts as [| x opts IH]; intros o o' Ho H; cbn in H; [by simplify_eq |].
  apply bind_ok_inv in H as ([] & o1 & E & H). eauto using parse_option_ok.
Qed.

(** Options that are accepted leave a server with sockets, processes and limits that [set_thread_throttling] can divide. *)
Theorem parse_arguments_ok cpus opts o :
  cpus < 2 ^ 31 → parse_arguments cpus opts no_options = (Ok tt, o) →
  options_ok o ∧ bind_addrs o ≠ [] ∧ 1 <= o_vp_count o ∧ (interactive_mode o = true ∨ logdir o ≠ None).
Proof.
  intros Hc H. unfold parse_arguments in H. apply bind_ok_inv in H as ([] & o1 & E & H). apply parse_options_ok in E as [H1 H2 H3 H4 H5].
  2: { split; cbn; unfold MAX_BIND_ADDRS, LISTENQ_SIZE_DEFAULT; lia. }
  unfold bind in H. cbn [gets id] in H. destruct (bool_decide (logdir o1 = None) && negb (interactive_mode o1)) eqn:El; [done |]. cbn in H.
  assert (interactive_mode o1 = true ∨ logdir o1 ≠ None) as Hl.
  { destruct (interactive_mode o1); [by left | right]. rewrite andb_true_r in El. by apply bool_decide_eq_false_1 in El. }
  assert ((1 <=? (if cpus <? 1 then 1 else cpus)) = true ∧ (if cpus <? 1 then 1 else cpus) < 2 ^ 31) as [Hv%Z.leb_le Hv2].
  { destruct (Z.ltb_spec cpus 1); split; lia. }
  destruct (Z.eqb_spec (o_vp_count o1) 0); cbn in H; case_bool_decide as Hb; cbn in H; injection H as <-;
    (split; [split | split_and!]); cbn; try done; try lia; unfold MAX_BIND_ADDRS; lia.
Qed.

(** ** The text of [dump_server_info] *)
Lemma length_digits fuel n : (length (digits fuel n) <= fuel)%nat.
Proof.
  revert n. induction fuel as [| fuel IH]; intros n; cbn [digits]; [done |]. destruct (n <? 10); [cbn; lia |].
  rewrite length_app. cbn. specialize (IH (n / 10)). lia.
Qed.

Lemma length_fmt_d n : (length (fmt_d n) <= 11)%nat.
Proof. unfold fmt_d, fmt_u. destruct (n <? 0); cbn [length]; pose proof (length_digits 10 (- n)); pose proof (length_digits 10 n); lia. Qed.

Lemma length_head i p : (length (info_head i p) <= 42)%nat.
Proof.
  unfold info_head. rewrite !length_app. pose proof (length_fmt_d i). pose proof (length_fmt_d p).
  cbn [length cstr literal_of_bytes]. cbn. lia.
Qed.

Lemma length_info c i addr port s : (length (info_socket c i addr port s) <= 265 + length addr)%nat.
Proof.
  unfold info_socket. rewrite !length_app. pose proof (length_digits 10 port).
  pose proof (length_fmt_d i). pose proof (length_fmt_d (max_wait_threads c)). pose proof (length_fmt_d (max_threads c)).
  pose proof (length_fmt_d (wait_threads s)). pose proof (length_fmt_d (busy_threads s)). pose proof (length_fmt_d (rqst_count s)).
  unfold fmt_u. cbn [length cstr]. cbn -[digits fmt_d]. lia.
Qed.

(** The loop, from the socket [k] on. *)
Lemma dump_loop c size total (todo : list (list byte * Z * socket_info)) : ∀ k (buf : list byte),
  (k + length todo = total)%nat → (42 + 469 * total < size)%nat → Forall (λ x, (length x.1.1 <= 204)%nat) todo →
  (length buf <= 42 + 469 * k)%nat →
  ∃ text, for_each (λ x, let '(i, (addr, port, s)) := x in sprintf size (info_socket c (Z.of_nat i) addr port s))
    (imap (λ i, pair (k + i)%nat) todo) buf = (Ok tt, text) ∧ (length text <= 42 + 469 * total)%nat.
Proof.
  induction todo as [| [[addr port] s] todo IH]; intros k buf Hl Hs HF Hb.
  - exists buf. split; [done |]. cbn in Hl. lia.
  - apply Forall_cons in HF as [Ha HF]. cbn [imap for_each]. cbn in Ha. unfold bind, sprintf at 1.
    pose proof (length_info c (Z.of_nat (k + 0)) addr port s) as Hi. cbn [length] in Hl. rewrite bool_decide_true by lia.
    destruct (IH (S k) (buf ++ info_socket c (Z.of_nat (k + 0)) addr port s)) as (text & E & Ht);
      [lia | done | done | rewrite length_app; lia |].
    exists text. split; [| done]. rewrite <- E. f_equal. apply imap_ext. intros i x _. cbn. f_equal. lia.
Qed.

(** The text fits the buffer when no address is longer than 204 characters. *)
Theorem dump_fits my_index my_pid c socks :
  socks ≠ [] → Forall (λ x, (length x.1.1 <= 204)%nat) socks →
  ∃ text, dump_server_info true my_index my_pid c socks [] = (Ok (Some text), text) ∧ (length text < length socks * 512)%nat.
Proof.
  intros Hne HF. unfold dump_server_info. cbn [negb]. set (size := (length socks * 512)%nat).
  pose proof (length_head my_index my_pid) as Hh. assert (1 <= length socks)%nat as Hn by (destruct socks; [done | cbn; lia]).
  unfold bind at 1, sprintf at 1. cbn [length app]. rewrite bool_decide_true by lia.
  destruct (dump_loop c size (length socks) socks 0 (info_head my_index my_pid)) as (text & E & Ht); [done | unfold size; lia | done | lia |].
  exists text. split; [| unfold size; lia]. unfold bind. rewrite (imap_ext _ (λ i, pair (0 + i)%nat)) by done. by rewrite E.
Qed.

(** A host name that the system may well resolve. *)
Lemma dump_overflows :
  (dump_server_info true 0 100 (Throttle 8 8 2) [(replicate 300 x61, 8000, Info 8 0 0)] []).1 = Undef.
Proof. vm_compute. reflexivity. Qed.

(** The limits of every server that gets past its options: they are in order, and no division is by zero. *)
Corollary accepted_limits cpus opts o fdlimit :
  cpus < 2 ^ 31 → parse_arguments cpus opts no_options = (Ok tt, o) → 0 <= fdlimit →
  MAX_WAIT_THREADS_DEFAULT * o_vp_count o < 2 ^ 31 → fdlimit * o_vp_count o < 2 ^ 31 →
  ∃ c, set_thread_throttling fdlimit (o_vp_count o) (Z.of_nat (length (bind_addrs o))) (Throttle (o_max_threads o) (o_max_wait_threads o) 2) tt =
    (Ok c, tt) ∧ limits_ok c.
Proof.
  intros Hc H Hf H1 H2. destruct (parse_arguments_ok cpus opts o Hc H) as ([Ha Hv Hm Hw _] & Hne & Hv1 & _).
  assert (1 <= Z.of_nat (length (bind_addrs o))) by (destruct (bind_addrs o); [done | cbn; lia]).
  destruct (throttling_ok fdlimit (o_vp_count o) (Z.of_nat (length (bind_addrs o))) (Throttle (o_max_threads o) (o_max_wait_threads o) 2)) as (c & E & Hl & _);
    cbn [min_wait_threads max_wait_threads max_threads]; try lia. by exists c.
Qed.
