(* ===== verification/Startup.v ===== *)
(** * examples/server.c: the start of the server

    [main] calls the system step by step and ends the process at the first call that fails.  What it does is recorded in a
    trace; which calls succeed, and what [fork] returns, are parameters. *)

From stdpp Require Import base list.
From Stdlib Require Import Lia ZArith.
From S2P Require Import Prelude.
From S2P Require Import Bytes.
From S2P Require Import Pool.
From S2P Require Import Watchdog.
From S2P Require Import Args.

Local Open Scope Z_scope.

(** The calls, those for a listening socket with its index. *)
Inductive act :=
| Calloc_pids
| Setsid
| Umask (m : Z)
| Chdir (dir : list byte)
| St_init
| Socket (i : nat)
| Setsockopt (i : nat)
| Bind (i : nat) (a : sockaddr_in)
| Listen (i : nat) (backlog : Z)
| Open_socket (i : nat)
| Serialize_accept (i : nat)
| Getpwnam
| Setgid (g : Z)
| Setuid (u : Z)
| Open_access_log
| Write_pid_file
| Open_error_log
| Timecache
| Install_sighandlers
| Configs
| Start_threads.

(** [ok]: the calls that succeed; [fork1], [fork2], [procs]: the results of [fork]; [waits]: what the watchdog sees;
    [mem]: the threads that can be made; [pw]: the user and group of the name; [cpus], [fdlimit]: the numbers of the system. *)
Record machine := Machine {
  ok : act → bool;
  fork1 : forked;
  fork2 : forked;
  procs : nat → forked;
  waits : list (waited * forked);
  mem : nat → nat → bool;
  pw_uid : Z;
  pw_gid : Z;
  cpus : Z;
  fdlimit : Z;
}.

Section main.
Context `{Names} (w : machine).
Implicit Types (o : options) (i : nat).

(** A call that fails ends the process: [exit] is [Throw]. *)
Definition checked (a : act) : M (list act) unit :=
  modify (λ tr, tr ++ [a]) ;; if ok w a then ret tt else lift Throw.

(** A call whose result is not looked at. *)
Definition note (a : act) : M (list act) unit := modify (λ tr, tr ++ [a]).

(** The process that goes on is the child. *)
Definition in_child (f : forked) : M (list act) unit :=
  match f with In_child => ret tt | _ => lift Throw end.

Definition start_daemon o : M (list act) unit :=
  in_child (fork1 w) ;;
  note Setsid ;;
  in_child (fork2 w) ;;
  note (Umask 18) ;;
  checked (Chdir (default [] (logdir o))).

(** The outcome of code on another state. *)
Definition inner {S A : Type} (c : M S A) (s : S) : M (list act) A := lift (c s).1.

Definition create_listener o (x : nat * list byte) : M (list act) unit :=
  let '(i, addr) := x in
  checked (Socket i) ;;
  checked (Setsockopt i) ;;
  '(_, _, a) <- inner (listen_address addr) tt ;;
  checked (Bind i a) ;;
  checked (Listen i (listenq_size o)) ;;
  checked (Open_socket i) ;;
  if serialize_accept o then checked (Serialize_accept i) else ret tt.

Definition create_listeners o : M (list act) unit := for_each (create_listener o) (imap pair (bind_addrs o)).

Definition change_user : M (list act) unit :=
  checked Getpwnam ;; checked (Setgid (pw_gid w)) ;; checked (Setuid (pw_uid w)).

Definition open_log_files o : M (list act) unit :=
  if interactive_mode o then ret tt else
  (if log_access o then checked Open_access_log else ret tt) ;;
  checked Write_pid_file ;;
  checked Open_error_log.

(** The watchdog, with what [wait] and the [fork] after it return. *)
Fixpoint watches (l : list (waited * forked)) : M watchdog (option nat) :=
  match l with
  | [] => ret None
  | (r, f) :: l => p <- watch r f ;; match p with Some i => ret (Some i) | None => watches l end
  end.

(** [Some i]: the process of index [i], one of the first or one that replaces it; [None]: the watchdog, which does not
    return, at the end of its list. *)
Definition start_processes o : M (list act) (option nat) :=
  if interactive_mode o then ret (Some 0%nat)
  else inner (p <- start_vps (procs w) 0 (Z.to_nat (o_vp_count o)) ;; match p with Some i => ret (Some i) | None => watches (waits w) end)
         (fresh (Z.to_nat (o_vp_count o))).

(** What a process does before it waits for signals. *)
Definition serve (c : throttle) o : M (list act) unit :=
  note Timecache ;;
  checked Install_sighandlers ;;
  note Configs ;;
  checked Start_threads ;;
  inner (Pool.start_threads (mem w)) (Pool c (replicate (length (bind_addrs o)) (Info 0 0 0)) []).

(** After the options. *)
Definition start_server o : M (list act) (option nat) :=
  checked Calloc_pids ;;
  (if interactive_mode o then ret tt else start_daemon o) ;;
  checked St_init ;;
  c <- inner (set_thread_throttling (fdlimit w) (o_vp_count o) (Z.of_nat (length (bind_addrs o)))
             (Throttle (o_max_threads o) (o_max_wait_threads o) 2)) tt ;;
  create_listeners o ;;
  (if bool_decide (username o = None) then ret tt else change_user) ;;
  open_log_files o ;;
  p <- start_processes o ;;
  match p with
  | Some i => serve c o ;; ret (Some i)
  | None => ret None
  end.

Definition main (opts : list opt) : M (list act) (option nat) := λ tr,
  match parse_arguments (cpus w) opts no_options with
  | (Ok tt, o) => start_server o tr
  | (r, _) => (omap (λ _, None) r, tr)
  end.

(** ** The order of the calls *)
(** [c] makes calls of [l] in order, from the first on; those of [f a] when it returns [a]. *)
Definition follows_by {A : Type} (c : M (list act) A) (l : list act) (f : A → list act) : Prop :=
  ∀ tr, ∃ r k, c tr = (r, tr ++ take k l) ∧ ∀ a, r = Ok a → take k l = f a.
Definition follows {A : Type} (c : M (list act) A) (l : list act) : Prop := follows_by c l (λ _, l).

Lemma follows_ext {A : Type} (c : M (list act) A) l f g : follows_by c l f → (∀ a, g a = f a) → follows_by c l g.
Proof. intros Hc He tr. destruct (Hc tr) as (r & k & E & Hr). exists r, k. split; [done |]. intros a Ha. by rewrite He, (Hr a Ha). Qed.

Lemma follows_nothing {A : Type} (o : outcome A) : follows (lift o) [].
Proof. intros tr. exists o, 0%nat. cbn. by rewrite app_nil_r. Qed.

Lemma follows_call a : follows (checked a) [a].
Proof.
  intros tr. unfold checked, bind. cbn. destruct (ok w a).
  - by exists (Ok tt), 1%nat.
  - by exists Throw, 1%nat.
Qed.

Lemma follows_note a : follows (note a) [a].
Proof. intros tr. by exists (Ok tt), 1%nat. Qed.

Lemma follows_bind {A B : Type} (c : M (list act) A) (k : A → M (list act) B) l l' f :
  follows c l → (∀ a, follows_by (k a) l' f) → follows_by (bind c k) (l ++ l') (λ b, l ++ f b).
Proof.
  intros Hc Hk tr. destruct (Hc tr) as (r & n & E & Hl). unfold bind. rewrite E. destruct r as [a | | | |].
  { rewrite (Hl a eq_refl). destruct (Hk a (tr ++ l)) as (r' & n' & E' & Hl'). exists r', (length l + n')%nat.
    rewrite E', take_app_add, <- app_assoc. split; [done |]. intros b Hb. by rewrite (Hl' b Hb). }
  all: eexists _, (min n (length l)); rewrite take_app_le, <- take_take, (take_ge l (length l)) by lia; split; [reflexivity | discriminate].
Qed.

Lemma follows_for_each {A : Type} (c : A → M (list act) unit) (f : A → list act) (l : list A) :
  (∀ x, follows (c x) (f x)) → follows (for_each c l) (l ≫= f).
Proof. intros H'. induction l as [| x l IH]; [apply (follows_nothing (Ok tt)) |]. cbn. by apply follows_bind. Qed.

Lemma follows_if (b : bool) (c c' : M (list act) unit) l l' :
  follows c l → follows c' l' → follows (if b then c else c') (if b then l else l').
Proof. by destruct b. Qed.

(** What is to be done for a socket: nothing more when its address has no meaning. *)
Definition listener_plan o (x : nat * list byte) : list act :=
  [Socket x.1; Setsockopt x.1] ++
  match (listen_address x.2 tt).1 with
  | Ok (_, _, a) =>
      [Bind x.1 a; Listen x.1 (listenq_size o); Open_socket x.1] ++ (if serialize_accept o then [Serialize_accept x.1] else [])
  | _ => []
  end.

Definition root_plan o : list act :=
  [Calloc_pids] ++ (if interactive_mode o then [] else [Setsid; Umask 18; Chdir (default [] (logdir o))]) ++ [St_init] ++
  (imap pair (bind_addrs o) ≫= listener_plan o).

Definition user_plan o : list act := if bool_decide (username o = None) then [] else [Getpwnam; Setgid (pw_gid w); Setuid (pw_uid w)].

Definition log_plan o : list act :=
  if interactive_mode o then [] else (if log_access o then [Open_access_log] else []) ++ [Write_pid_file; Open_error_log].

Definition serve_plan : list act := [Timecache; Install_sighandlers; Configs; Start_threads].

Lemma follows_bind_nothing {A B : Type} (o : outcome A) (k : A → M (list act) B) l f :
  (∀ a, o = Ok a → follows_by (k a) l f) → follows_by (bind (lift o) k) l f.
Proof.
  intros Hk. destruct o as [a | | | |]; [exact (Hk a eq_refl) | ..];
    intros tr; eexists _, 0%nat; (split; [unfold bind; cbn; by rewrite app_nil_r | discriminate]).
Qed.

Lemma follows_call_then {A : Type} a (c : M (list act) A) l f : follows_by c l f → follows_by (checked a ;; c) (a :: l) (λ x, a :: f x).
Proof. intros Hc. by apply (follows_bind (checked a) _ [a] l f (follows_call a)). Qed.

Lemma follows_note_then {A : Type} a (c : M (list act) A) l f : follows_by c l f → follows_by (note a ;; c) (a :: l) (λ x, a :: f x).
Proof. intros Hc. by apply (follows_bind (note a) _ [a] l f (follows_note a)). Qed.

Lemma follows_ret {A : Type} (a : A) : follows (ret a) [].
Proof. apply (follows_nothing (Ok a)). Qed.

Lemma daemon_follows o : follows (start_daemon o) [Setsid; Umask 18; Chdir (default [] (logdir o))].
Proof.
  unfold start_daemon, in_child. destruct (fork1 w); [apply (follows_bind_nothing Throw); done | | apply (follows_bind_nothing Throw); done].
  apply (follows_bind_nothing (Ok tt)). intros _ _. apply follows_note_then.
  destruct (fork2 w); [apply (follows_bind_nothing Throw); done | | apply (follows_bind_nothing Throw); done].
  apply (follows_bind_nothing (Ok tt)). intros _ _. apply follows_note_then, follows_call.
Qed.

Lemma listener_follows o x : follows (create_listener o x) (listener_plan o x).
Proof.
  destruct x as [i addr]. unfold create_listener, listener_plan. cbn [fst snd app]. do 2 apply follows_call_then. unfold inner.
  destruct (listen_address addr tt).1 as [[[h p] a] | | | |]; [| apply follows_bind_nothing; done..].
  apply (follows_bind_nothing (Ok (h, p, a))). intros ? [= <-]. do 2 apply follows_call_then.
  apply follows_call_then. apply (follows_if _ _ (ret tt) _ []); [apply follows_call | apply follows_ret].
Qed.

Lemma user_follows o : follows (if bool_decide (username o = None) then ret tt else change_user) (user_plan o).
Proof.
  unfold user_plan. apply follows_if; [apply follows_ret |]. unfold change_user. apply follows_call_then, follows_call_then, follows_call.
Qed.

Lemma log_follows o : follows (open_log_files o) (log_plan o).
Proof.
  unfold open_log_files, log_plan. apply follows_if; [apply follows_ret |]. apply follows_bind.
  - apply (follows_if _ _ (ret tt) _ []); [apply follows_call | apply follows_ret].
  - intros []. apply follows_call_then, follows_call.
Qed.

Lemma serve_follows c o : follows (serve c o) serve_plan.
Proof. unfold serve, serve_plan. apply follows_note_then, follows_call_then, follows_note_then. apply (follows_bind _ _ [Start_threads] [] (λ _, [])); [apply follows_call | intros []; apply follows_nothing]. Qed.

Definition setup_plan o : list act := root_plan o ++ user_plan o ++ log_plan o.

(** Whichever calls fail, the calls that are made are the first ones of one sequence: all of it in a process that
    serves, and all but the part of the processes in the watchdog. *)
Theorem start_order o :
  follows_by (start_server o) (setup_plan o ++ serve_plan) (λ p, setup_plan o ++ match p with Some _ => serve_plan | None => [] end).
Proof.
  assert (follows (if interactive_mode o then ret tt else start_daemon o)
    (if interactive_mode o then [] else [Setsid; Umask 18; Chdir (default [] (logdir o))])) as Hd
    by (apply follows_if; [apply follows_ret | apply daemon_follows]).
  assert (follows (create_listeners o) (imap pair (bind_addrs o) ≫= listener_plan o)) as Hl
    by (apply follows_for_each; intros x; apply listener_follows).
  set (served := λ p : option nat, match p with Some _ => serve_plan | None => [] end).
  set (daemon := if interactive_mode o then [] else _) in Hd. set (sockets := imap pair (bind_addrs o) ≫= listener_plan o) in Hl.
  apply (follows_ext _ _ (λ p, Calloc_pids :: daemon ++ St_init :: sockets ++ user_plan o ++ log_plan o ++ served p)).
  2: { intros p. unfold setup_plan, root_plan. by rewrite <- !app_assoc. }
  assert (setup_plan o ++ serve_plan = Calloc_pids :: daemon ++ St_init :: sockets ++ user_plan o ++ log_plan o ++ serve_plan) as ->
    by (unfold setup_plan, root_plan; by rewrite <- !app_assoc).
  unfold start_server.
  apply follows_call_then. refine (follows_bind _ _ _ _ _ Hd _). intros []. apply follows_call_then. apply follows_bind_nothing. intros c _.
  refine (follows_bind _ _ _ _ _ Hl _). intros []. refine (follows_bind _ _ _ _ _ (user_follows o) _). intros [].
  refine (follows_bind _ _ _ _ _ (log_follows o) _). intros []. unfold start_processes, inner.
  assert (∀ p : option nat, follows_by (match p with Some i => serve c o ;; ret (Some i) | None => ret None end) serve_plan
    served) as Hp.
  { intros [i |].
    - intros tr. destruct (serve_follows c o tr) as (r & k & E & Hr). unfold bind. rewrite E. destruct r as [[] | | | |];
        eexists _, k; (split; [reflexivity |]); try discriminate. intros a [= <-]. by apply (Hr tt).
    - intros tr. exists (Ok None), 0%nat. cbn. rewrite app_nil_r. split; [done |]. by intros a [= <-]. }
  destruct (interactive_mode o); [apply (follows_bind_nothing (Ok (Some 0%nat))) | apply follows_bind_nothing]; intros p _; apply Hp.
Qed.

(** ** Privileges *)
Definition is_bind (a : act) : bool := match a with Bind _ _ => true | _ => false end.
Definition is_setuid (a : act) : bool := match a with Setuid _ => true | _ => false end.

(** What is true of none of the first part is only met after all of it. *)
Lemma found_after (P : act → bool) (l1 l2 tr1 tr2 : list act) x :
  forallb (λ a, negb (P a)) l1 = true → P x = true → (tr1 ++ x :: tr2) `prefix_of` (l1 ++ l2) →
  ∃ m, tr1 = l1 ++ m ∧ (m ++ x :: tr2) `prefix_of` l2.
Proof.
  revert tr1. induction l1 as [| a l1 IH]; intros tr1 H1 Hx Hp; [by exists tr1 |].
  cbn in H1. apply andb_true_iff in H1 as [Ha H1]. destruct tr1 as [| b tr1].
  - cbn in Hp. apply prefix_cons_inv_1 in Hp. subst a. by rewrite Hx in Ha.
  - cbn in Hp. pose proof (prefix_cons_inv_1 _ _ _ _ Hp) as ->. apply prefix_cons_inv_2 in Hp.
    destruct (IH tr1 H1 Hx Hp) as (m & -> & Hm). by exists m.
Qed.

Lemma root_no_setuid o : forallb (λ a, negb (is_setuid a)) (root_plan o) = true.
Proof.
  unfold root_plan. rewrite !forallb_app. cbn. apply andb_true_iff. split; [by destruct (interactive_mode o) |].
  induction (imap pair (bind_addrs o)) as [| x l IH]; [done |]. cbn [mbind list_bind]. rewrite forallb_app. apply andb_true_iff. split; [| exact IH].
  unfold listener_plan. destruct (listen_address x.2 tt).1 as [[[h p] a] | | | |]; cbn; try done. by destruct (serialize_accept o).
Qed.

Lemma rest_no_bind o : forallb (λ a, negb (is_bind a)) ((user_plan o ++ log_plan o) ++ serve_plan) = true.
Proof.
  unfold user_plan, log_plan. destruct (bool_decide (username o = None)), (interactive_mode o), (log_access o); done.
Qed.

Lemma start_prefix o r tr : start_server o [] = (r, tr) → tr `prefix_of` (setup_plan o ++ serve_plan).
Proof.
  intros E. destruct (start_order o []) as (r' & k & E' & _). rewrite E in E'. injection E' as -> ->. cbn. exists (drop k (setup_plan o ++ serve_plan)).
  by rewrite take_drop.
Qed.

(** The user is changed when all sockets are bound, and no socket is bound after it: ports that only the
    super-user may bind can be used. *)
Theorem bound_before_setuid o r tr tr1 u tr2 :
  start_server o [] = (r, tr) → tr = tr1 ++ Setuid u :: tr2 →
  (∃ m, tr1 = root_plan o ++ m) ∧ ∀ i a, Bind i a ∉ tr2.
Proof.
  intros E ->. apply start_prefix in E. unfold setup_plan in E. rewrite <- (app_assoc (root_plan o)) in E.
  destruct (found_after is_setuid _ _ _ _ (Setuid u) (root_no_setuid o) eq_refl E) as (m & -> & Hm). split; [by exists m |].
  intros i a Ha. pose proof (rest_no_bind o) as Hn. rewrite forallb_forall in Hn.
  assert (Bind i a ∈ (user_plan o ++ log_plan o) ++ serve_plan) as Hin.
  { destruct Hm as [l ->]. rewrite !elem_of_app, elem_of_cons. auto. }
  apply list_elem_of_In, Hn in Hin. done.
Qed.

(** A process of a server with a user name never handles connections as the user that started it. *)
Theorem serves_as_user o r tr name :
  username o = Some name → start_server o [] = (r, tr) → Start_threads ∈ tr → Setuid (pw_uid w) ∈ tr.
Proof.
  intros Hu E Hs. apply start_prefix in E. apply list_elem_of_split in Hs as (tr1 & tr2 & ->).
  set (P := λ a, match a with Start_threads => true | _ => false end).
  assert (forallb (λ a, negb (P a)) (setup_plan o) = true) as Hn.
  { unfold setup_plan, root_plan, user_plan, log_plan. rewrite !forallb_app. rewrite !andb_true_iff. split_and!; try done.
    - by destruct (interactive_mode o).
    - induction (imap pair (bind_addrs o)) as [| x l IH]; [done |]. cbn [mbind list_bind]. rewrite forallb_app. apply andb_true_iff. split; [| exact IH].
      unfold listener_plan. destruct (listen_address x.2 tt).1 as [[[h p] a] | | | |]; cbn; try done. by destruct (serialize_accept o).
    - by destruct (bool_decide _).
    - by destruct (interactive_mode o), (log_access o). }
  destruct (found_after P _ _ _ _ Start_threads Hn eq_refl E) as (m & -> & _). rewrite !elem_of_app. left. left. unfold setup_plan, user_plan.
  rewrite bool_decide_false by congruence. rewrite !elem_of_app. right. left. do 2 right. left.
Qed.
End main.

(** A server with two processes on the port 80, whose second process has died once. *)
#[local] Instance a_resolver : Names := {| inet_addr := λ _, Some [x00; x00; x00; x00]; gethostbyname := λ _, None |}.

Definition a_machine (good : act → bool) : machine :=
  Machine good In_child In_child (λ i, In_parent (100 + Z.of_nat i)) [(Wait_intr, Fork_failed); (Waited 101, In_child)] (λ _ _, true) 33 44 2 1024.

Definition some_options : list opt := [Opt_b (cstr ":80"); Opt_u (cstr "www"); Opt_l (cstr "/log")].

Example a_start :
  main (a_machine (λ _, true)) some_options [] =
    (Ok (Some 1%nat), [Calloc_pids; Setsid; Umask 18; Chdir (cstr "/log"); St_init; Socket 0; Setsockopt 0;
       Bind 0 (Sin (htons 80) [x00; x00; x00; x00]); Listen 0 256; Open_socket 0; Getpwnam; Setgid 44; Setuid 33;
       Write_pid_file; Open_error_log; Timecache; Install_sighandlers; Configs; Start_threads]).
Proof. vm_compute. reflexivity. Qed.

(** Without the right to change its user the server does not start. *)
Example no_right_to_setuid :
  (main (a_machine (λ a, negb (is_setuid a))) some_options []).1 = Throw.
Proof. vm_compute. reflexivity. Qed.

Example serves_as_user_witness :
  ∃ tr, start_server (a_machine (λ _, true)) (parse_arguments 2 some_options no_options).2 [] = (Ok (Some 1%nat), tr) ∧ Setuid 33 ∈ tr.
Proof.
  eexists. split; [vm_compute; reflexivity |].
  apply (serves_as_user (a_machine (λ _, true)) (parse_arguments 2 some_options no_options).2 (Ok (Some 1%nat)) _ (cstr "www")).
  1: by vm_compute. 1: by vm_compute. apply list_elem_of_In. cbn. intuition.
Defined.
