(* ===== verification/Proxy.v ===== *)
(** * examples/proxy.c: a gateway between two connections

    A thread per client connects to the remote host and passes on what either side sends.  The addresses of the command line
    are in Args.v. *)

From stdpp Require Import base list.
From Stdlib Require Import Lia ZArith.
From S2P Require Import Prelude.
From S2P Require Import Bytes.
From S2P Require Import StApi.
From S2P Require Import StIo.
From S2P Require Import Interest.

Local Open Scope Z_scope.

Definition IOBUFSIZE : nat := 16 * 1024.

(** ** The two connections *)
(** [cli], [rmt]: the client and the remote host; the counters: how often each of the three was closed ([cli_nfd], [rmt_nfd],
    and the socket before it has an object). *)
Record proxy (S : Type) := Proxy { cli : S; rmt : S; cli_closed : nat; rmt_closed : nat; sock_closed : nat }.
Arguments Proxy {S}.
Arguments cli {S}.
Arguments rmt {S}.
Arguments cli_closed {S}.
Arguments rmt_closed {S}.
Arguments sock_closed {S}.

(** What happens before the data: [socket], [st_netfd_open_socket] and [st_connect]. *)
Inductive connected := No_socket | No_netfd | No_connection | Is_connected.

(** [st_poll]: not a positive number, or the [revents] of the two. *)
Inductive polled := Poll_failed | Polled (revents0 revents1 : Z).

Section proxy.
Context {S : Type} `{!StSocket S}.
Implicit Types (p : proxy S) (s : S).

Definition with_sockets s0 s1 p := Proxy s0 s1 (cli_closed p) (rmt_closed p) (sock_closed p).
Definition close_cli p := Proxy (cli p) (rmt p) (1 + cli_closed p) (rmt_closed p) (sock_closed p).
Definition close_rmt p := Proxy (cli p) (rmt p) (cli_closed p) (1 + rmt_closed p) (sock_closed p).
Definition close_sock p := Proxy (cli p) (rmt p) (cli_closed p) (rmt_closed p) (1 + sock_closed p).

Definition pass (s_in s_out : S) : bool * S * S :=
  match st_read s_in IOBUFSIZE with
  | (None, s_in) => (false, s_in, s_out)
  | (Some [], s_in) => (false, s_in, s_out)
  | (Some bs, s_in) =>
      let '(nw, s_out) := st_write s_out bs in
      (nw =? Z.of_nat (length bs), s_in, s_out)
  end.

Definition readable (revents : Z) : bool := negb (Z.land revents POLLIN =? 0).

(** [if (pds[0].revents & POLLIN)]; [false]: [break]. *)
Definition pass_cli (revents : Z) : M (proxy S) bool := λ p,
  if readable revents then
    let '(ok, s0, s1) := pass (cli p) (rmt p) in (Ok ok, with_sockets s0 s1 p)
  else (Ok true, p).

Definition pass_rmt (revents : Z) : M (proxy S) bool := λ p,
  if readable revents then
    let '(ok, s1, s0) := pass (rmt p) (cli p) in (Ok ok, with_sockets s0 s1 p)
  else (Ok true, p).

(** The loop; [true]: it is still running when the results of [st_poll] are used up. *)
Fixpoint pump (polls : list polled) : M (proxy S) bool :=
  match polls with
  | [] => ret true
  | Poll_failed :: _ => ret false
  | Polled r0 r1 :: polls =>
      ok <- pass_cli r0 ;;
      if negb ok then ret false else
      ok <- pass_rmt r1 ;;
      if negb ok then ret false else pump polls
  end.

(** [true]: still running. *)
Definition handle_request (c : connected) (polls : list polled) : M (proxy S) bool :=
  match c with
  | No_socket => modify close_cli ;; ret false
  | No_netfd => modify close_sock ;; modify close_cli ;; ret false
  | No_connection => modify close_rmt ;; modify close_cli ;; ret false
  | Is_connected =>
      running <- pump polls ;;
      if running then ret true else modify close_rmt ;; modify close_cli ;; ret false
  end.
End proxy.

(** ** One direction *)
Section relayed.
Context {S : Type} `{!StSocket S, !StSocketLaws S, !StSocketSteps S}.
Implicit Types (p : proxy S).

(** Of the bytes [rx src] of the peer, those that were read, all but [rx src'], went to [dst] in order, but for at most a buffer
    at the end; nothing that was read is missing when [whole]. *)
Definition relayed (whole : bool) (src src' dst dst' : S) : Prop :=
  ∃ sent lost, rx src = sent ++ lost ++ rx src' ∧ tx dst' = tx dst ++ sent ∧ (length lost ≤ IOBUFSIZE)%nat ∧ (whole = true → lost = []).

Lemma relayed_nothing w src src' dst dst' : rx src' = rx src → tx dst' = tx dst → relayed w src src' dst dst'.
Proof. intros Hr Ht. exists [], []. split_and!; [done | by rewrite app_nil_r | cbn; lia | done]. Qed.

Lemma relayed_trans w src src1 src2 dst dst1 dst2 :
  relayed true src src1 dst dst1 → relayed w src1 src2 dst1 dst2 → relayed w src src2 dst dst2.
Proof.
  intros (a & la & H1 & T1 & _ & W1) (b & lb & H2 & T2 & L2 & W2). rewrite (W1 eq_refl) in H1. cbn [app] in H1.
  exists (a ++ b), lb. split_and!; [by rewrite H1, H2, <- !app_assoc | by rewrite T2, T1, <- app_assoc | done | done].
Qed.

Lemma relayed_weaken w src src' dst dst' : relayed true src src' dst dst' → relayed w src src' dst dst'.
Proof. intros (a & la & H & T & L & W). exists a, la. split_and!; [done | done | done | by intros _; apply W]. Qed.

(** Neither side of the other direction is touched. *)
Lemma pass_relays src dst ok src' dst' :
  pass src dst = (ok, src', dst') → relayed ok src src' dst dst' ∧ tx src' = tx src ∧ rx dst' = rx dst.
Proof.
  unfold pass. destruct (st_read src IOBUFSIZE) as [[bs |] s1] eqn:Er.
  - destruct (st_read_frame _ _ _ _ Er) as (Ht & Hr & Hl). destruct bs as [| b bs].
    { intros H. simplify_eq. split; [| done]. by apply relayed_nothing. }
    destruct (st_write dst (b :: bs)) as [nw d1] eqn:Ew.
    destruct (st_write_frame _ _ _ _ Ew) as (Hrx & sent & rest & Htx & Hb & Hn). intros H. simplify_eq. split; [| done].
    exists sent, rest. split_and!; [by rewrite Hr, Hb, <- app_assoc | done | | ].
    + rewrite Hb in Hl. rewrite length_app in Hl. lia.
    + intros ->%Z.eqb_eq. destruct Hn as [Hn | [_ ->]]; [lia | done].
  - destruct (st_read_frame _ _ _ _ Er) as (Ht & Hr). intros H. simplify_eq. split; [| done]. by apply relayed_nothing.
Qed.

(** Both directions of a connection. *)
Definition both (w0 w1 : bool) p p' : Prop :=
  relayed w0 (cli p) (cli p') (rmt p) (rmt p') ∧ relayed w1 (rmt p) (rmt p') (cli p) (cli p').

Definition same_closed p p' : Prop :=
  cli_closed p' = cli_closed p ∧ rmt_closed p' = rmt_closed p ∧ sock_closed p' = sock_closed p.

Lemma pass_cli_both r p : ∃ ok p', pass_cli r p = (Ok ok, p') ∧ both ok true p p' ∧ same_closed p p'.
Proof.
  unfold pass_cli. destruct (readable r).
  - destruct (pass (cli p) (rmt p)) as [[ok s0] s1] eqn:E. apply pass_relays in E as (Hr & Ht & Hx).
    eexists _, _. split; [done |]. split; [| done]. split; [done |]. by apply relayed_nothing.
  - exists true, p. split; [done |]. split; [split; by apply relayed_nothing | done].
Qed.

Lemma pass_rmt_both r p : ∃ ok p', pass_rmt r p = (Ok ok, p') ∧ both true ok p p' ∧ same_closed p p'.
Proof.
  unfold pass_rmt. destruct (readable r).
  - destruct (pass (rmt p) (cli p)) as [[ok s1] s0] eqn:E. apply pass_relays in E as (Hr & Ht & Hx).
    eexists _, _. split; [done |]. split; [| done]. split; [by apply relayed_nothing | done].
  - exists true, p. split; [done |]. split; [split; by apply relayed_nothing | done].
Qed.

Lemma both_trans w0 w1 p p1 p2 : both true true p p1 → both w0 w1 p1 p2 → both w0 w1 p p2.
Proof. intros [A B] [C D]. split; eapply relayed_trans; eauto. Qed.

Lemma pump_both polls p : ∃ running p', pump polls p = (Ok running, p') ∧ both running running p p' ∧ same_closed p p'.
Proof.
  revert p. induction polls as [| [| r0 r1] polls IH]; intros p; cbn [pump].
  - exists true, p. split; [done |]. split; [split; by apply relayed_nothing | done].
  - exists false, p. split; [done |]. split; [split; by apply relayed_nothing | done].
  - destruct (pass_cli_both r0 p) as (ok & p1 & E1 & [A1 B1] & C1). rewrite (bind_ok _ _ _ _ _ E1). destruct ok; cbn [negb].
    2: { exists false, p1. split; [done |]. split; [split; [done | by apply relayed_weaken] | done]. }
    destruct (pass_rmt_both r1 p1) as (ok & p2 & E2 & H2 & C2). rewrite (bind_ok _ _ _ _ _ E2).
    pose proof (both_trans _ _ p p1 p2 (conj A1 B1) H2) as [A2 B2].
    assert (same_closed p p2) as C12 by (unfold same_closed in *; intuition congruence). destruct ok; cbn [negb].
    + destruct (IH p2) as (running & p3 & E3 & H3 & C3). exists running, p3. split; [done |].
      split; [by apply (both_trans _ _ p p2 p3) | unfold same_closed in *; intuition congruence].
    + exists false, p2. split; [done |]. split; [split; [by apply relayed_weaken | done] | done].
Qed.

(** C27: whatever the connections do, each side is sent what was read from the other, in order and without repetition; of what was
    read nothing is missing while the proxy runs, and at most a buffer per direction when it ends.  (What the other side had sent
    or was still to send, and was not read when the proxy ended, is lost: [half_close_ends].)  The descriptor of the client is
    closed once when it ends, that of the remote host once when there was one, and neither before. *)
Theorem proxy_relays c polls p :
  ∃ running p', handle_request c polls p = (Ok running, p') ∧ both running running p p' ∧
    cli_closed p' = ((if running then 0 else 1) + cli_closed p)%nat ∧
    rmt_closed p' = ((if running then 0 else match c with No_connection | Is_connected => 1 | _ => 0 end) + rmt_closed p)%nat ∧
    sock_closed p' = (match c with No_netfd => 1 | _ => 0 end + sock_closed p)%nat ∧
    (c ≠ Is_connected → running = false ∧ cli p' = cli p ∧ rmt p' = rmt p).
Proof.
  destruct c; cbn [handle_request].
  4: { destruct (pump_both polls p) as (running & p1 & E & H & C1 & C2 & C3). rewrite (bind_ok _ _ _ _ _ E). destruct running.
       - exists true, p1. split; [done |]. split; [exact H | split_and!; cbn; (congruence || done)].
       - exists false, (close_cli (close_rmt p1)). split; [done |]. split; [exact H |].
         split_and!; cbn; (congruence || done). }
  all: eexists false, _; (split; [reflexivity |]); (split; [split; by apply relayed_nothing | done]).
Qed.

(** A side that has nothing more to send ends both directions, whatever the other still has to send. *)
Lemma half_close_ends r1 polls p s0 :
  st_read (cli p) IOBUFSIZE = (Some [], s0) →
  ∃ p', handle_request Is_connected (Polled POLLIN r1 :: polls) p = (Ok false, p') ∧ rmt p' = rmt p ∧ rmt_closed p' = (1 + rmt_closed p)%nat.
Proof.
  intros H. cbn [handle_request pump]. unfold bind, pass_cli. change (readable POLLIN) with true. cbn [negb]. unfold pass. rewrite H. by eexists.
Qed.

(** An answer of [st_poll] without POLLIN (a socket with POLLERR or POLLHUP only) leads to the next call at once. *)
Lemma error_spins r0 r1 polls p :
  readable r0 = false → readable r1 = false → pump (Polled r0 r1 :: polls) p = pump polls p.
Proof. intros H0 H1. cbn [pump]. unfold bind, pass_cli, pass_rmt. by rewrite H0, H1. Qed.
End relayed.

(** ** Example *)
(** The client sends two pieces and ends; the remote host answers in between. *)
Definition example_proxy : proxy ksock :=
  Proxy (KSock [RdData x61 [x62]; RdData x63 []; RdEof] [] [] []) (KSock [RdData x7a [x79]] [] [] []) 0 0 0.

Definition example_polls : list polled := [Polled POLLIN 0; Polled POLLIN POLLIN; Polled POLLIN 0].

Lemma proxy_relays_witness :
  ∃ p', handle_request Is_connected example_polls example_proxy = (Ok false, p') ∧
    tx (rmt p') = [x61; x62; x63] ∧ tx (cli p') = [x7a; x79] ∧ cli_closed p' = 1%nat ∧ rmt_closed p' = 1%nat.
Proof.
  destruct (proxy_relays Is_connected example_polls example_proxy) as (running & p' & E & _ & H1 & H2 & _).
  vm_compute in E. injection E as <- <-. eexists. split; [vm_compute; reflexivity |]. split; [reflexivity |]. split; [reflexivity |].
  split; [exact H1 | exact H2].
Defined.
