(* ===== verification/FileIo.v ===== *)
(** * extensions/stx_fileio.c: reads of a file by another process

    A read of a disk file would block every thread, so a process is forked that reads the file.  Requests go to it through a
    pipe and the data comes back through another.  A step of that process is what it does between
    two points where the other can see it; how many steps it makes while a call waits is an argument of the call. *)

From stdpp Require Import base list.
From Stdlib Require Import Lia ZArith.
From S2P Require Import Prelude.
From S2P Require Import Bytes.

Local Open Scope Z_scope.

Definition FILEREADER_MAX_READ : nat := 1024.

(** Where the process is: at the [read] of a request, or between its two [write]s. *)
Inductive reader := At_read (pos : Z) | At_write (pos : Z) (data : list byte).

(** [fileio_data_t]: whether the two descriptors are not NULL. *)
Record fileio_data_t := FileioData { control_fd : bool; data_fd : bool }.

(** [file], [file_off]: the file, and the offset that [fork] makes both processes share; [io_errs]: the reads that will
    fail; [control], [out]: what is in the pipes; [child]: [None] when the process has ended; [dat]: the specific data of
    the descriptor; [fds]: the descriptors that are open here. *)
Record fileio := FileIo {
  file : list byte;
  file_off : Z;
  io_errs : list bool;
  control : list byte;
  out : list byte;
  child : option reader;
  dat : option fileio_data_t;
  fds : Z;
}.

Implicit Types (s : fileio) (offset pos n : Z).

Definition set_file_off v s := FileIo (file s) v (io_errs s) (control s) (out s) (child s) (dat s) (fds s).
Definition set_io_errs v s := FileIo (file s) (file_off s) v (control s) (out s) (child s) (dat s) (fds s).
Definition set_control v s := FileIo (file s) (file_off s) (io_errs s) v (out s) (child s) (dat s) (fds s).
Definition set_out v s := FileIo (file s) (file_off s) (io_errs s) (control s) v (child s) (dat s) (fds s).
Definition set_child v s := FileIo (file s) (file_off s) (io_errs s) (control s) (out s) v (dat s) (fds s).
Definition set_dat v s := FileIo (file s) (file_off s) (io_errs s) (control s) (out s) (child s) v (fds s).
Definition set_fds v s := FileIo (file s) (file_off s) (io_errs s) (control s) (out s) (child s) (dat s) v.

(** [file_reader_cb_t]: an [off_t] and a [ssize_t]; [nbytes] comes as a [size_t]. *)
Definition encode_cb offset n : list byte := le_bytes 8 (wrap 64 offset) ++ le_bytes 8 (wrap 64 n).
Definition cb_offset (cb : list byte) : Z := of_le_s 64 (take 8 cb).
Definition cb_nbytes (cb : list byte) : Z := of_le_s 64 (drop 8 cb).

(** ** The process that reads *)
(** [lseek(fd, offset, SEEK_SET)] *)
Definition sys_lseek offset : M fileio (option Z) := λ s,
  if offset <? 0 then (Ok None, s) else (Ok (Some offset), set_file_off offset s).

(** [read(fd, buf, n)] of a file. *)
Definition sys_read_file n : M fileio (option (list byte)) := λ s,
  match io_errs s with
  | true :: l => (Ok None, set_io_errs l s)
  | l =>
      let data := take (Z.to_nat n) (drop (Z.to_nat (file_off s)) (file s)) in
      (Ok (Some data), set_file_off (file_off s + Z.of_nat (length data)) (set_io_errs (tail l) s))
  end.

Definition reader_exit : M fileio unit := modify (set_child None).

(** [if (pos != cb.offset) { pos = lseek(...) ... }]; [None]: [break]. *)
Definition seek_to pos offset : M fileio (option Z) :=
  if pos =? offset then ret (Some pos) else sys_lseek offset.

(** One request, up to the first [write]; [buf] has [FILEREADER_MAX_READ] bytes. *)
Definition serve_request pos (cb : list byte) : M fileio unit :=
  if negb (bool_decide (length cb = 16%nat)) then reader_exit else
  if cb_nbytes cb <=? 0 then reader_exit else
  p <- seek_to pos (cb_offset cb) ;;
  match p with
  | None => reader_exit
  | Some pos =>
      d <- sys_read_file (cb_nbytes cb) ;;
      match d with
      | None => reader_exit
      | Some data =>
          if bool_decide (FILEREADER_MAX_READ < length data)%nat then lift Undef else
          modify (λ s, set_out (out s ++ le_bytes 8 (Z.of_nat (length data))) s) ;;
          modify (set_child (Some (At_write (pos + Z.of_nat (length data)) data)))
      end
  end.

(** A step; nothing happens while [read] finds the pipe empty. *)
Definition reader_step : M fileio unit := λ s,
  match child s with
  | None => (Ok tt, s)
  | Some (At_write pos data) => (Ok tt, set_child (Some (At_read pos)) (set_out (out s ++ data) s))
  | Some (At_read pos) =>
      match control s with
      | [] => (Ok tt, s)
      | l => serve_request pos (take 16 l) (set_control (drop 16 l) s)
      end
  end.

(** ** The calls *)
(** What the system does for [file_reader] and [get_fileio_data]. *)
Record spawn := Spawn { pipe1_ok : bool; pipe2_ok : bool; fork_ok : bool; calloc_ok : bool; open_control_ok : bool; open_out_ok : bool }.

(** Returns whether there is a process. *)
Definition file_reader (sp : spawn) (fd : Z) : M fileio bool :=
  if negb (pipe1_ok sp) then ret false else
  modify (λ s, set_fds (fds s + 2) s) ;;
  if negb (pipe2_ok sp) then ret false else
  modify (λ s, set_fds (fds s + 2) s) ;;
  if negb (fork_ok sp) then modify (λ s, set_fds (fds s - 4) s) ;; ret false else
  modify (λ s, set_control [] (set_out [] (set_child (if fd =? -1 then None else Some (At_read 0)) s))) ;;
  modify (λ s, set_fds (fds s - 2) s) ;; ret true.

Definition get_fileio_data (sp : spawn) (fd : Z) : M fileio (option fileio_data_t) :=
  s <- gets id ;;
  match dat s with
  | Some d => ret (Some d)
  | None =>
      ok <- file_reader sp fd ;;
      if negb ok then ret None else
      if negb (calloc_ok sp) then lift Undef else
      let d := FileioData (open_control_ok sp) (open_out_ok sp) in
      modify (set_dat (Some d)) ;; ret (Some d)
  end.

(** [st_write(dat->control_fd, &cb, sizeof(cb), ...)]: nobody looks at the result.  When the other process has ended there
    is a SIGPIPE, which ends this one unless it is ignored. *)
Definition write_control (sigpipe_ignored : bool) (d : fileio_data_t) (cb : list byte) : M fileio unit :=
  if negb (control_fd d) then lift Undef else
  s <- gets id ;;
  if bool_decide (child s = None) then (if sigpipe_ignored then ret tt else lift Throw)
  else modify (λ s, set_control (control s ++ cb) s).

(** [st_read(dat->data_fd, buf, n, timeout)]: what there is, at most [n] bytes; the end of the stream, [Some []]; [None], -1, when
    the process has made [runs] steps in vain. *)
Fixpoint read_out (runs n : nat) : M fileio (option (list byte)) :=
  s <- gets id ;;
  match out s with
  | [] =>
      if bool_decide (child s = None) then ret (Some []) else
      match runs with
      | O => ret None
      | S runs => reader_step ;; read_out runs n
      end
  | l => modify (set_out (drop n l)) ;; ret (Some (take n l))
  end.

Definition got_bytes (got : option (list byte)) : list byte := match got with Some l => l | None => [] end.

(** [ret], of which [st_read] wrote the first bytes. *)
Definition ret_of (got : option (list byte)) : Z :=
  of_le_s 64 (got_bytes got ++ drop (length (got_bytes got)) (le_bytes 8 (-1))).

(** What follows the [st_read] of the count. *)
Definition finish_read (r2 : nat) n (got : option (list byte)) : M fileio (Z * list byte) :=
  let r := ret_of got in
  if bool_decide (length (got_bytes got) = 8%nat) && (0 <? r) && (r <=? n) then
    data <- read_out r2 (Z.to_nat r) ;;
    ret (match data with Some l => (Z.of_nat (length l), l) | None => (-1, []) end)
  else ret (r, []).

(** The value and the bytes of [buf]; [r1], [r2]: the steps of the other process while each [st_read] waits. *)
Definition stx_file_read (sp : spawn) (sigpipe_ignored : bool) (fd : Z) (r1 r2 : nat) offset n : M fileio (Z * list byte) :=
  d <- get_fileio_data sp fd ;;
  match d with
  | None => ret (-1, [])
  | Some d =>
      write_control sigpipe_ignored d (encode_cb offset n) ;;
      if negb (data_fd d) then lift Undef else
      got <- read_out r1 8 ;;
      finish_read r2 n got
  end.

(** [waitpid]: until the process has ended. *)
Fixpoint wait_child (fuel : nat) : M fileio unit :=
  s <- gets id ;;
  if bool_decide (child s = None) then ret tt else
  match fuel with
  | O => lift Hang
  | S fuel => reader_step ;; wait_child fuel
  end.

(** A request takes two steps. *)
Definition fileio_data_destructor (sigpipe_ignored : bool) : M fileio unit :=
  s <- gets id ;;
  match dat s with
  | None => ret tt
  | Some d =>
      write_control sigpipe_ignored d (encode_cb 0 0) ;;
      s <- gets id ;;
      wait_child (2 + 2 * length (control s)) ;;
      if negb (data_fd d) then lift Undef else
      modify (λ s, set_dat None (set_fds (fds s - 2) s))
  end.

(** ** A request and its reply *)
(** [pread]: what a call is to return. *)
Definition pread (l : list byte) offset n : list byte := take (Z.to_nat n) (drop (Z.to_nat offset) l).

Lemma encode_cb_ok offset n : - 2 ^ 63 <= offset < 2 ^ 63 → - 2 ^ 63 <= n < 2 ^ 63 →
  length (encode_cb offset n) = 16%nat ∧ cb_offset (encode_cb offset n) = offset ∧ cb_nbytes (encode_cb offset n) = n.
Proof.
  intros Ho Hn. unfold encode_cb, cb_offset, cb_nbytes. rewrite !(le_bytes_wrap 8).
  rewrite length_app, !length_le_bytes, take_app_length', drop_app_length' by by rewrite length_le_bytes.
  split; [done |]. by rewrite !(of_le_s_le_bytes 8) by (cbn; lia).
Qed.

Lemma ret_of_whole z : - 2 ^ 63 <= z < 2 ^ 63 → ret_of (Some (le_bytes 8 z)) = z.
Proof.
  intros Hz. unfold ret_of. cbn [got_bytes]. rewrite length_le_bytes, drop_ge, app_nil_r by (by rewrite length_le_bytes).
  apply (of_le_s_le_bytes 8); [lia | done].
Qed.

(** Nothing is under way, and the position the process keeps is that of the file. *)
Record synced s : Prop := {
  sy_pos : 0 <= file_off s;
  sy_child : child s = Some (At_read (file_off s)) ∨ child s = Some (At_write (file_off s) []);
  sy_control : control s = [];
  sy_out : out s = [];
  sy_errs : io_errs s = [];
  sy_dat : dat s = Some (FileioData true true);
}.

(** The states around a request, which is in the pipe; the count is; both have been read.  [rest]: later requests. *)
Definition requested s cb := set_control cb (set_child (Some (At_read (file_off s))) s).
Definition counted s offset (data rest : list byte) :=
  set_child (Some (At_write (offset + Z.of_nat (length data)) data)) (set_out (le_bytes 8 (Z.of_nat (length data)))
    (set_control rest (set_file_off (offset + Z.of_nat (length data)) s))).
Definition replied s offset (data rest : list byte) :=
  set_child (Some (At_read (offset + Z.of_nat (length data)))) (set_out [] (set_control rest (set_file_off (offset + Z.of_nat (length data)) s))).

Lemma at_read_requested s cb : child s = Some (At_read (file_off s)) → set_control cb s = requested s cb.
Proof. intros Hc. unfold requested. rewrite <- Hc. by destruct s. Qed.

Section calls.
Context (sp : spawn) (ign : bool) (fd : Z).

(** The process serves the request when the data fits its buffer. *)
Lemma serve_ok s offset n rest (data := pread (file s) offset n) :
  io_errs s = [] → 0 <= offset < 2 ^ 63 → 0 < n < 2 ^ 63 → out s = [] →
  reader_step (requested s (encode_cb offset n ++ rest)) =
    if bool_decide (FILEREADER_MAX_READ < length data)%nat
    then (Undef, set_control rest (set_file_off (offset + Z.of_nat (length data)) (set_child (Some (At_read (file_off s))) s)))
    else (Ok tt, counted s offset data rest).
Proof.
  intros He Ho Hn Hout. destruct (encode_cb_ok offset n) as (E1 & E2 & E3); [lia.. |].
  destruct s as [f off errs k o c d fs]. cbn in He, Hout. subst. unfold reader_step, requested. cbn [child set_child set_control control file_off].
  destruct (encode_cb offset n) as [| b cb] eqn:Eb; [done |]. rewrite <- Eb in *. destruct (encode_cb offset n ++ rest) as [| b' cb'] eqn:Eb'.
  { by rewrite Eb in Eb'. }
  rewrite <- Eb', take_app_length', drop_app_length' by done.
  unfold serve_request. rewrite E1, E2, E3. rewrite (bool_decide_true (16%nat = 16%nat)) by done. cbn [negb]. rewrite (proj2 (Z.leb_gt n 0)) by lia.
  assert (∀ x, seek_to off offset x = (Ok (Some offset), if off =? offset then x else set_file_off offset x)) as Hs.
  { intros x. unfold seek_to, sys_lseek. destruct (Z.eqb_spec off offset) as [-> |]; [done |]. by rewrite (proj2 (Z.ltb_ge offset 0)) by lia. }
  rewrite (bind_ok _ _ _ _ _ (Hs _)). set (x := if off =? offset then _ else _).
  assert (x = FileIo f offset [] rest [] (Some (At_read off)) d fs) as -> by (unfold x; by destruct (Z.eqb_spec off offset) as [-> |]).
  unfold bind at 1, sys_read_file. cbn [io_errs file file_off set_io_errs tail]. fold (pread f offset n).
  change (pread f offset n) with data. by case_bool_decide.
Qed.

(** The count, then the data. *)
Lemma count_read s offset n rest r (data := pread (file s) offset n) :
  io_errs s = [] → 0 <= offset < 2 ^ 63 → 0 < n < 2 ^ 63 → out s = [] → (length data <= FILEREADER_MAX_READ)%nat →
  read_out (S r) 8 (requested s (encode_cb offset n ++ rest)) = (Ok (Some (le_bytes 8 (Z.of_nat (length data)))), set_out [] (counted s offset data rest)).
Proof.
  intros He Hoff Hn Ho Hl. pose proof (serve_ok s offset n rest He Hoff Hn Ho) as Hs. fold data in Hs.
  rewrite bool_decide_false in Hs by lia. clearbody data. pose proof (length_le_bytes 8 (Z.of_nat (length data))) as H8.
  cbn [read_out]. unfold bind at 1. cbn [gets id requested out set_control set_child child]. rewrite Ho, bool_decide_false by done.
  rewrite (bind_ok _ _ _ _ _ Hs).
  destruct r; cbn [read_out]; unfold bind at 1; cbn [gets id counted out set_control set_child set_out set_file_off];
    (destruct (le_bytes 8 (Z.of_nat (length data))) as [| b l] eqn:El; [done |]; rewrite <- El in *;
     unfold bind; cbn [modify]; by rewrite take_ge, drop_ge by lia).
Qed.

Lemma data_read s offset (data : list byte) rest r2 n :
  (0 < length data <= FILEREADER_MAX_READ)%nat → Z.of_nat (length data) <= n →
  finish_read (S r2) n (Some (le_bytes 8 (Z.of_nat (length data)))) (set_out [] (counted s offset data rest)) =
    (Ok (Z.of_nat (length data), data), replied s offset data rest).
Proof.
  intros Hl Hle. unfold FILEREADER_MAX_READ in Hl. unfold finish_read. rewrite ret_of_whole by lia. cbn [got_bytes].
  rewrite bool_decide_true by apply length_le_bytes. rewrite (proj2 (Z.leb_le _ _)) by done. rewrite (proj2 (Z.ltb_lt _ _)) by lia. cbn [andb].
  rewrite Nat2Z.id. unfold read_out; fold read_out. unfold bind, counted, replied. cbn. destruct data as [| b data]; [cbn in Hl; lia |].
  destruct r2; cbn; unfold bind; cbn; rewrite take_ge, drop_ge by (cbn in *; lia); done.
Qed.

(** A call, when the process is there. *)
Lemma read_live s offset n r1 r2 :
  dat s = Some (FileioData true true) → child s ≠ None →
  stx_file_read sp ign fd r1 r2 offset n s =
    (got <- read_out r1 8 ;; finish_read r2 n got) (set_control (control s ++ encode_cb offset n) s).
Proof.
  intros Hd Hc. unfold stx_file_read, get_fileio_data. rewrite bind_assoc. unfold bind at 1. cbn [gets id].
  rewrite Hd, bind_ret. unfold write_control. cbn [control_fd data_fd negb]. rewrite bind_assoc. unfold bind at 1. cbn [gets id].
  by rewrite bool_decide_false.
Qed.

(** The last reply, when it was empty, does not have to be out. *)
Lemma synced_count s offset n r1 (data := pread (file s) offset n) :
  synced s → 0 <= offset < 2 ^ 63 → 0 < n < 2 ^ 63 → (length data <= FILEREADER_MAX_READ)%nat →
  read_out (S (S r1)) 8 (set_control (encode_cb offset n) s) =
    (Ok (Some (le_bytes 8 (Z.of_nat (length data)))), set_out [] (counted s offset data [])).
Proof.
  intros [_ Hc Hk Ho He _] Hoff Hn Hl. rewrite <- (app_nil_r (encode_cb offset n)). destruct Hc as [Hc | Hc].
  - rewrite at_read_requested by done. by apply count_read.
  - cbn [read_out]. unfold bind at 1. cbn [gets id out set_control child]. rewrite Ho, Hc, bool_decide_false by done.
    rewrite (bind_ok _ _ _ tt (requested s (encode_cb offset n ++ []))); [by apply count_read |].
    unfold reader_step. cbn [child set_control out]. rewrite Hc, Ho. destruct s. cbn in *. by subst.
Qed.

(** A descriptor whose process is there. *)
Lemma read_synced s offset n r1 r2 (data := pread (file s) offset n) :
  synced s → 0 <= offset < 2 ^ 63 → 0 < n < 2 ^ 63 → (length data <= FILEREADER_MAX_READ)%nat →
  ∃ s', stx_file_read sp ign fd (S (S r1)) (S r2) offset n s = (Ok (Z.of_nat (length data), data), s') ∧
    synced s' ∧ file s' = file s ∧ fds s' = fds s.
Proof.
  intros Hs Hoff Hn Hl. pose proof (synced_count s offset n r1 Hs Hoff Hn Hl) as Hcount. fold data in Hcount.
  assert (Z.of_nat (length data) <= n) as Hle by (unfold data, pread; rewrite length_take; lia).
  destruct Hs as [Hp Hc Hk Ho He Hd]. rewrite read_live, Hk by (done || (destruct Hc as [-> | ->]; done)). cbn [app].
  rewrite (bind_ok _ _ _ _ _ Hcount). clearbody data. destruct data as [| b data].
  - eexists. split; [done |]. split; [| done]. split; cbn; try done; try lia. right. by rewrite Z.add_0_r.
  - rewrite data_read by (cbn in *; lia). eexists. split; [done |]. split; [| done]. split; cbn; try done; try lia. by left.
Qed.

(** The first call makes the process. *)
Definition all_ok : Prop :=
  pipe1_ok sp = true ∧ pipe2_ok sp = true ∧ fork_ok sp = true ∧ calloc_ok sp = true ∧ open_control_ok sp = true ∧ open_out_ok sp = true.
Definition fresh s : Prop := dat s = None ∧ child s = None ∧ file_off s = 0 ∧ io_errs s = [].
Definition started s := FileIo (file s) 0 [] [] [] (Some (At_read 0)) (Some (FileioData true true)) (fds s + 2).

Lemma started_synced s : synced (started s).
Proof. split; try done. by left. Qed.

Lemma first_read s offset n r1 r2 :
  all_ok → fd ≠ -1 → fresh s → stx_file_read sp ign fd r1 r2 offset n s = stx_file_read sp ign fd r1 r2 offset n (started s).
Proof.
  intros (H1 & H2 & H3 & H4 & H5 & H6) Hfd (Hd & Hc & Ho & He). unfold stx_file_read.
  assert (get_fileio_data sp fd s = (Ok (Some (FileioData true true)), started s)) as E.
  { unfold get_fileio_data, file_reader. rewrite H1, H2, H3, H4, H5, H6. cbn [negb]. unfold bind. cbn [gets id]. rewrite Hd. cbn.
    rewrite (proj2 (Z.eqb_neq _ _)) by done. destruct s. cbn in *. subst. unfold started, set_dat, set_fds, set_control, set_out, set_child. cbn.
    do 2 f_equal. lia. }
  assert (get_fileio_data sp fd (started s) = (Ok (Some (FileioData true true)), started s)) as E' by done.
  by rewrite (bind_ok _ _ _ _ _ E), (bind_ok _ _ _ _ _ E').
Qed.

(** ** A sequence of calls *)
(** A call with the time it has. *)
Record call := Call { c_offset : Z; c_nbytes : Z; c_runs1 : nat; c_runs2 : nat }.

Fixpoint reads (l : list call) : M fileio (list (Z * list byte)) :=
  match l with
  | [] => ret []
  | c :: l =>
      r <- stx_file_read sp ign fd (c_runs1 c) (c_runs2 c) (c_offset c) (c_nbytes c) ;;
      rs <- reads l ;; ret (r :: rs)
  end.

(** What a call asks for is at most a buffer, and the process has the time for it. *)
Definition call_ok (l : list byte) c : Prop :=
  0 <= c_offset c < 2 ^ 63 ∧ 0 < c_nbytes c < 2 ^ 63 ∧ (length (pread l (c_offset c) (c_nbytes c)) <= FILEREADER_MAX_READ)%nat ∧
  (2 <= c_runs1 c)%nat ∧ (1 <= c_runs2 c)%nat.

Definition result_of (l : list byte) c : Z * list byte :=
  let data := pread l (c_offset c) (c_nbytes c) in (Z.of_nat (length data), data).

Lemma reads_synced s l : synced s → Forall (call_ok (file s)) l →
  ∃ s', reads l s = (Ok (result_of (file s) <$> l), s') ∧ synced s' ∧ fds s' = fds s.
Proof.
  revert s. induction l as [| c l IH]; intros s Hs HF; [by exists s |]. apply Forall_cons in HF as [(H1 & H2 & H3 & H4 & H5) HF].
  destruct c as [offset n r1 r2]. cbn in H1, H2, H3, H4, H5. destruct r1 as [| [| r1]]; [lia.. |]. destruct r2 as [| r2]; [lia |].
  destruct (read_synced s offset n r1 r2 Hs H1 H2 H3) as (s1 & E & Hs1 & Hf & Hd). cbn [reads c_offset c_nbytes c_runs1 c_runs2].
  rewrite (bind_ok _ _ _ _ _ E). rewrite <- Hf in HF. destruct (IH s1 Hs1 HF) as (s2 & E2 & Hs2 & Hd2).
  rewrite (bind_ok _ _ _ _ _ E2). exists s2. rewrite Hf. by rewrite Hd2.
Qed.

(** The end of the process. *)
Lemma destructor_synced s : synced s →
  ∃ s', fileio_data_destructor ign s = (Ok tt, s') ∧ child s' = None ∧ dat s' = None ∧ fds s' = fds s - 2.
Proof.
  intros [Hp Hc Hk Ho He Hd]. destruct s as [f off errs k o c d fs]. cbn in *. subst.
  destruct Hc as [-> | ->]; eexists; (split; [vm_compute; reflexivity | done]).
Qed.

(** C23: the data of every call is that of the file at its offset, and all of it, when no call asks for more than the buffer
    of the process holds and the process has the time to answer; the descriptors are closed at the end. *)
Theorem file_reads_are_pread s l :
  all_ok → fd ≠ -1 → fresh s → Forall (call_ok (file s)) l →
  ∃ s' s'', reads l s = (Ok (result_of (file s) <$> l), s') ∧ fileio_data_destructor ign s' = (Ok tt, s'') ∧
    child s'' = None ∧ dat s'' = None ∧ fds s'' = fds s.
Proof.
  intros Ha Hfd Hs HF. destruct l as [| c l].
  { exists s, s. split; [done |]. destruct Hs as (Hd & Hc & _). unfold fileio_data_destructor, bind. cbn. by rewrite Hd. }
  destruct (reads_synced (started s) (c :: l) (started_synced s) HF) as (s' & E & Hs' & Hd').
  destruct (destructor_synced s' Hs') as (s'' & E' & Hc & Hd & Hf). exists s', s''. split; [| cbn in Hd'; split_and!; try done; lia].
  assert (reads (c :: l) s = reads (c :: l) (started s)) as ->; [| exact E].
  cbn [reads]. unfold bind at 1 3. by rewrite (first_read s).
Qed.

(** ** What goes wrong *)
(** More data than the buffer holds. *)
Lemma long_read_overflows s offset n r1 r2 :
  synced s → child s = Some (At_read (file_off s)) → 0 <= offset < 2 ^ 63 → 0 < n < 2 ^ 63 →
  (FILEREADER_MAX_READ < length (pread (file s) offset n))%nat → (stx_file_read sp ign fd (S r1) r2 offset n s).1 = Undef.
Proof.
  intros [_ _ Hk Ho He Hd] Hc Hoff Hn Hl. pose proof (serve_ok s offset n [] He Hoff Hn Ho) as Hs. rewrite bool_decide_true in Hs by done.
  rewrite app_nil_r in Hs. rewrite read_live, Hk by (done || by rewrite Hc). cbn [app]. unfold bind. cbn [read_out]. unfold bind.
  cbn [gets id out set_control child]. rewrite Ho, bool_decide_false by by rewrite Hc.
  change (FileIo _ _ _ _ _ _ _ _) with (set_control (encode_cb offset n) s). by rewrite (at_read_requested s _ Hc), Hs.
Qed.

(** The answer of a call that did not wait for it is the result of the next one, whatever that asks for. *)
Lemma late_reply s offset n offset' n' r1 r2 (data := pread (file s) offset n) :
  synced s → child s = Some (At_read (file_off s)) → 0 <= offset < 2 ^ 63 → 0 < n < 2 ^ 63 →
  (0 < length data <= FILEREADER_MAX_READ)%nat → Z.of_nat (length data) <= n' →
  ∃ s1, stx_file_read sp ign fd 0 r2 offset n s = (Ok (-1, []), s1) ∧
    (stx_file_read sp ign fd (S r1) (S r2) offset' n' s1).1 = Ok (Z.of_nat (length data), data).
Proof.
  intros Hs Hc Hoff Hn Hl Hle. exists (set_control (encode_cb offset n) s). pose proof Hs as [_ _ Hk Ho He Hd]. split.
  - rewrite read_live, Hk by (done || by rewrite Hc). cbn [app]. unfold bind. cbn [read_out]. unfold bind. cbn [gets id out set_control child].
    rewrite Ho, bool_decide_false by by rewrite Hc. done.
  - rewrite read_live by (cbn; done || by rewrite Hc). cbn [control set_control].
    change (set_control _ (set_control _ s)) with (set_control (encode_cb offset n ++ encode_cb offset' n') s).
    rewrite (at_read_requested s _ Hc). rewrite (bind_ok _ _ _ _ _ (count_read s offset n _ r1 He Hoff Hn Ho (proj2 Hl))).
    by rewrite (data_read s offset data) by done.
Qed.

Lemma serve_empty s offset : reader_step (requested s (encode_cb offset 0)) = (Ok tt, set_child None (set_control [] s)).
Proof.
  unfold reader_step, requested. cbn [child set_control set_child control].
  assert (length (encode_cb offset 0) = 16%nat) as E1 by (unfold encode_cb; by rewrite length_app, !length_le_bytes).
  destruct (encode_cb offset 0) as [| b cb] eqn:Eb; [done |]. rewrite <- Eb in *. rewrite take_ge, drop_ge by lia.
  unfold serve_request. rewrite bool_decide_true by done. cbn [negb].
  assert (cb_nbytes (encode_cb offset 0) = 0) as -> by (unfold cb_nbytes, encode_cb; by rewrite drop_app_length' by by rewrite length_le_bytes).
  done.
Qed.

(** A call for no bytes ends the process, and after that there is no way to read the file. *)
Lemma empty_read_ends s offset r1 r2 r1' r2' offset' n' :
  synced s → child s = Some (At_read (file_off s)) →
  ∃ s1, stx_file_read sp ign fd (S r1) r2 offset 0 s = (Ok (-1, []), s1) ∧ child s1 = None ∧
    (stx_file_read sp ign fd r1' r2' offset' n' s1).1 = if ign then Ok (-1, []) else Throw.
Proof.
  intros [_ _ Hk Ho He Hd] Hc. exists (set_child None (set_control [] s)). split; [| split; [done |]].
  - rewrite read_live, Hk by (done || by rewrite Hc). cbn [app]. unfold bind. cbn [read_out]. unfold bind.
    cbn [gets id out set_control child]. rewrite Ho, bool_decide_false by by rewrite Hc.
    change (FileIo _ _ _ _ _ _ _ _) with (set_control (encode_cb offset 0) s).
    rewrite (at_read_requested s _ Hc), serve_empty. destruct r1; cbn [read_out]; unfold bind; cbn; by rewrite Ho.
  - unfold stx_file_read, get_fileio_data, write_control, bind. cbn. rewrite Hd. cbn. destruct ign; [| done].
    destruct r1'; cbn [read_out]; unfold bind; cbn; by rewrite Ho.
Qed.

(** The second [pipe] failing leaves the first open. *)
Lemma pipe_leaks s : pipe1_ok sp = true → pipe2_ok sp = false → file_reader sp fd s = (Ok false, set_fds (fds s + 2) s).
Proof. intros H1 H2. unfold file_reader, bind. by rewrite H1, H2. Qed.
End calls.

(** ** Examples *)
Definition usual : spawn := Spawn true true true true true true.
Definition example_file : fileio := FileIo [x61; x62; x63; x64; x65; x66] 0 [] [] [] None None 3.

(** A file that was at another offset when the process was made: the data of offset 2 is given for that of offset 0. *)
Lemma start_offset_matters :
  (stx_file_read usual true 4 2 1 0 2 (set_file_off 2 example_file)).1 = Ok (2, [x63; x64]).
Proof. vm_compute. reflexivity. Qed.

Lemma file_reads_are_pread_witness :
  ∃ s' s'', reads usual true 4 [Call 1 2 2 1; Call 5 4 2 1; Call 6 4 3 2; Call 0 3 2 1] example_file =
      (Ok [(2, [x62; x63]); (1, [x66]); (0, []); (3, [x61; x62; x63])], s') ∧
    fileio_data_destructor true s' = (Ok tt, s'') ∧ child s'' = None ∧ dat s'' = None ∧ fds s'' = 3.
Proof.
  apply (file_reads_are_pread usual true 4 example_file [Call 1 2 2 1; Call 5 4 2 1; Call 6 4 3 2; Call 0 3 2 1]).
  - repeat split.
  - discriminate.
  - repeat split.
  - repeat constructor; cbn; unfold FILEREADER_MAX_READ; lia.
Defined.
